(* ===== verification/_CoqProject ===== *)
-Q . S2P
Prelude.v
PyStr.v
PyText.v
Dir.v
Json.v
JsonSize.v
Digest.v
Bytes.v
HostFs.v
F1Schema.v
F1Journal.v
F1JournalTheory.v
F1Spec.v
F1Refine.v
F1Runs.v
Registry.v
RegistryTheory.v
RegistryCrash.v
RegistryAppend.v
RegistryRecords.v
RegistryClaims.v
RegistryProps.v
RegistryExamples.v
NativeRecords.v
NativeSteps.v
NativeWorld.v
NativeCore.v
NativeClaims.v
NativeDrive.v
NativePhased.v
NativeSession.v
NativeTheory.v
NativeReplay.v
NativeJournal.v
NativeProps.v
NativeExamples.v
Console.v
ConsoleSession.v
ConsoleCodec.v
ConsoleLife.v
ConsoleReplay.v
ConsolePrefix.v
TextRecords.v
Health.v
ConsoleKinds.v
ConsoleProps.v
WireV3.v
Handshake.v
HandshakeTheory.v
Arrival.v
GptProfile.v
Ext4Profile.v
ArrivalTheory.v
SwitchRoot.v
ArrivalProps.v
A90Contract.v
A90ContractProps.v
A90Frames.v
A90FramesTheory.v
A90FramesProps.v
A90Ctl.v
A90CtlProps.v
A90Transport.v
A90Examples.v
Owner.v
OwnerTheory.v
Qualify.v
QualifyTheory.v
SwitchRun.v
SwitchRunTheory.v
SwitchPassage.v
SwitchRunProps.v
OwnerExamples.v
OdinUsb.v
OdinStore.v
OdinStoreTheory.v
OdinCrash.v
OdinEndpoint.v
OdinTickets.v
OdinProps.v
