(* ===== verification/Prelude.v ===== *)
(** * Verification of the host side of the native-init lab

    The repository drives experimental boot images on Samsung phones from a host
    computer.  Its Python code decides when an image may be transferred, records
    durably what was attempted so that no transfer is ever repeated by accident, talks
    to the booted device over a serial line and turns what it retained into a verdict.
    This library models that core of the host code (under
    [src/workspace/public/src/scripts/revalidation/]) as executable definitions and
    proves what it promises.  Every definition translates the Python lines that it
    is named after; a function that can raise is a function into [result], stateful
    code is a state monad whose final state is kept when it raises.

    ** Parts

    Shared: [Prelude] (exceptions, [result], loops, generic lemmas), [PyStr] and
    [PyText] (Python strings, integers as text, the regular expressions the code
    uses), [Json] and [JsonSize] (values, their order-insensitive equality, the
    canonical printer and its length), [Digest] (the interface of SHA-256 with a
    concrete instance to evaluate), [Bytes] (little-endian fields, CRC-32, HMAC),
    [TextRecords] (patterns of words and digit groups, lines, the record a tool prints),
    [Dir] and [HostFs] (directories, and the monad [M] with a power loss at any
    durable step).

    Process v2 ([device_action_f1_v2.py]).  [F1Schema]: [_exact], [load_json] and the
    validators.  [F1Journal]: the class [Journal] ([create], [append_], [event],
    [checkpoint], [records], [reopen], ...).  [F1Spec] is the abstract state machine,
    [F1Refine] the refinement of [records] to it, [F1JournalTheory] the writer and its
    crash points, [F1Runs] every directory that the operations leave behind,
    wherever they are cut, and the evaluated runs.

    Consumed candidates ([consumed_candidate_registry_v1.py]).  [Registry] has [claim],
    [release], [active_claim], the scan of the hash chain with its one-record repair,
    the owner of an F1 run and the session lease.  [RegistryRecords], [RegistryTheory],
    [RegistryClaims], [RegistryAppend] and [RegistryCrash] carry the
    proofs, [RegistryProps] the contract.

    The native session ([s22plus_native_session_v3.py], [s22plus_native_records_v3.py] and
    the coordinators [s22plus_*_session_v1.py], [s22plus_debian_*_v1.py]).
    [NativeRecords]: the private journal.  [NativeSteps]: the step plans of the
    operations.  [NativeWorld]: the monad [W] and the interface [Adapter] of the device
    side ([s22plus_native_adapter_v3.py]): for each step a program of observations,
    effects and callbacks.  [NativeCore], [NativeClaims], [NativeDrive], [NativePhased],
    [NativeSession]: preparation and budget, one-shot claims, the drive of an operation,
    the coordinators with a physical pause and the GPT reservation, the operations of the
    session.  [NativeTheory], [NativeReplay], [NativeJournal]: the invariant of the
    session; [NativeProps] the contract, [NativeExamples] its evaluated runs.

    Evidence of the storage commands.  [GptProfile] is [s22plus_native_gpt_profile_v1.py]:
    the geometry of the sealed partition vectors, the decoder of what the GPT command
    printed ([decode]) and its projection.  [Ext4Profile] is the decoder and the
    projection of [s22plus_native_ext4_profile_v1.py].

    The Odin transition ([s22plus_odin_usbfs_identity.py],
    [s22plus_odin_transition_core.py]): which download-mode endpoint a transfer may use.
    [OdinUsb]: what of a device node replaces it, the evidence that compares two
    inventories, the observer of one enumeration, and [enumerate_odin] with its measured
    observer.  [OdinStore]: the sealed receipts, the advisory index of JSON lines with its
    resume segments, and the reconciliation of the two.  [OdinEndpoint]: a snapshot
    recorded and looked at again, generations, tickets, the two waits, the revalidation
    before a transfer.  [OdinStoreTheory] (the audit of the index, the invariant of the
    store), [OdinCrash] (receipts and index wherever the run is cut) and [OdinTickets]
    (what the waits report) carry the proofs; [OdinProps] the contract.

    The root console ([s22plus_root_console_v1.py]) and the two sessions derived from it.
    [Console]: [Decoder] and [Session._validate].  [ConsoleSession]: [send], [poll],
    [close], [replay] and [replay_prefix], over a record [session_class] of what a
    derived class overrides.  [ConsoleKinds]: the class with DETACH
    ([s22plus_native_baseline_protocol_v1.py]) and the class of the PID1 transition.
    [ConsoleCodec], [ConsoleLife], [ConsoleReplay], [ConsolePrefix]: the proofs, for
    every class that satisfies [SessionLaws] ([PrefixLaws] for the diagnostic replay);
    [ConsoleProps] the contract.

    Native arrivals.  [WireV3] is [s22plus_native_wire_v3.py].  [Handshake] is [IO] and
    [Progress] of [s22plus_native_console_observer_v1.py] as derived by
    [s22plus_native_baseline_protocol_v1.py], over the interface [Channel] with two
    instances, the live descriptor and the retained streams.  [Health] is
    [validate_console] of [s22plus_native_baseline_health_v1.py].  [Arrival]:
    [replay_one], [_projection], [fresh_same_boot].  [Owner]: what drives a session, and
    [run_console_checks].  [Qualify]: [qualify_one], the owner of an arrival.
    [SwitchRoot]: [Records], [replay_one], [replay_prefix] of
    [s22plus_switch_root_protocol_v1.py], and [SwitchRun] its [qualify_one], the owner of
    a transition.  [HandshakeTheory], [ArrivalTheory], [OwnerTheory]
    (rules for every step of an owner, for any session class), [QualifyTheory],
    [SwitchRunTheory] and [SwitchPassage] carry the proofs,
    [ArrivalProps], [QualifyTheory] and [SwitchRunProps] the contract, [OwnerExamples] the
    evaluated runs of the two owners.

    The A90 ([a90_transition_contract_v2.py], [a90_observation_pipeline.py], [a90ctl.py],
    [a90_serial_lock.py], [a90_transport.py]).  [A90Contract]: what a session, preflight or
    handoff contract must satisfy.  [A90Frames]: lines, A90P1 frames, markers and the
    classified facts.  [A90Ctl]: one command over the bridge, with its retries.
    [A90Transport]: recovery around a command, over the interface [SerialRunner], and
    the choice of a transport.  [A90FramesProps], [A90ContractProps], [A90CtlProps]: their
    contract; [A90Examples] the evaluated commands.

    ** How the parts interact

    A session takes the owner of [Registry] ([begin_f1_owner]) before it records an
    intent and claims the candidate before a transfer; both live in the file system of
    [HostFs], so the theorems of [NativeProps] are about the same files as those of
    [RegistryProps].  An arrival runs the handshake over the live channel and hands
    nonce and key to a console session; the owner of [Qualify] drives that session and
    calls [replay_one], which runs the same handshake over the retained channel and then
    the replay of the console.  [A90Transport] runs commands through [SerialRunner],
    which [A90Ctl] implements; [A90Ctl] parses answers with [A90Frames].  The waits of
    [OdinEndpoint] run the enumeration of [OdinUsb] and write what it saw with
    [OdinStore], so that a ticket is a statement about the receipts that a later
    revalidation reads back.

    ** What the theorems show

    No effect is repeated: [no_replay] (a session performs no step that has an intent),
    [unused_never_dispatched], [close_accounts], [grant_owned], [consumed_refused] (a
    consumed candidate is refused whatever is written later), [f1_owner_exclusive],
    [recovery_never_repeats].  Crashes: [claim_crash_safe], [append_atomic],
    [crash_before_head_recovered] (with the one crash point that is not repaired),
    [crash_at_first_record], [lost_record_detected],
    [snapshot_crash_safe] and [phase_crash_safe] (a receipt and its record, wherever the
    write is cut, and what the next reconciliation makes of them).  Journals:
    [records_refine] and what follows from it, [written_journals_replay] (what the
    operations leave replays, or was cut where every operation refuses it),
    [journal_bounds], [complete_index].  Endpoints: [enumeration_exact] (a snapshot names
    the endpoints whose node was the same before and after), [ticket_valid_when_issued],
    [ticket_unbroken] (a revalidated ticket names an endpoint that never left since it was
    issued), [absence_sound].  Wire formats and tool output: [decoder_exact],
    [corrupt_payload_refused], [transcript_grammar], [decode_exact],
    [command_line_exact], [gpt_projection_exact], [filesystem_projection_exact].
    Lifecycle of console commands: [command_lifecycle], [command_bytes_bounded],
    [sends_recorded], [detach_is_idle].  Live and retained agree: [replay_agrees] (a
    session), [live_arrival_replays] (with its handshake), [acknowledged_replays] and
    [transition_replays] (with its owner).  What a verdict means: [arrival_proved],
    [switch_transition], [qualified], [asked_before_sent], [return_after_proof],
    [reauthentication_bounded].  Termination: [run_terminates_and_writes], with how late a
    command can end.  The theorems [leading_checkpoint_accepted] and
    [detach_prefix_raises] state two defects of the code.

    ** Parameters and assumptions

    SHA-256 is the class [Digest]; a theorem that compares digests says that the digests
    agree, and [corrupt_payload_refused] rests on the CRC alone, which is computed.  HMAC is
    defined from the digest.  What the adapter does is [Adapter]; the theorems on the
    session assume that a step performs effects only after the callback that acquires its
    intent ([guarded]) and that the steps that observe have none ([passive]).  The file
    system decides when the power is lost ([hf_power]); failures of the disk and files
    changed by other programs during a read are not modelled.  In the console and the
    arrivals the environment is a script: the readings of the clock, what a read or a
    write returns, and how many writes of evidence still succeed; a script that ends
    stands for an interruption of the process.  In [A90Ctl] it is how long the lock, the
    connection, each write and each read take and which of them fail.  In the Odin files
    it is the inventories that [inventory_reader] returns, the outcomes of the
    runs of the tool and the readings of the clock.  A receipt there is the value it
    holds; size and digest are those of its JSON text, and the link that publishes it is
    one step.  Times are exact: microseconds in [A90Ctl], milliseconds in the console,
    the arrivals and the Odin files.

    ** Bounds and fuel

    A run journal holds at most 22 records after what may lead it ([journal_bounds]), the
    registry 4096, the journal of a native session 256 rows and 2052 names.  Fuel stands in for [while] loops:
    the decoders and scans of a byte string ([feed], [root_scan], [switch_loop],
    [prefix_loop]) get one more than its length and consume at least one byte a round;
    the preparation of a handshake gets 52, more than the lifetime frame, 49 records and
    the failure it can accept; the wait for a witness gets 258, more than the 256 records
    that can precede it ([await_fuel]); [lock_fuel] and [run_fuel] are one more than the polls or
    rounds that the deadline admits.  That the fuel never ends is proved where a result
    depends on it ([wait_loop_fuel] and [absent_loop_fuel], the two waits for an endpoint,
    which read the clock in every pass and have one more pass than there are readings;
    [run_terminates_and_writes], [feed_exact], the refinement of the
    replays).  The search for a free attempt of the tool's run tries 10000 names, as
    the source does.  Loops over a script recurse on the script.

    ** Observed while modelling

    A crash inside [begin_f1_owner] leaves an empty sentinel that fails closed.  So does a
    run cut inside a record file, or before the head of its first record: no operation
    goes on from there ([written_journals_replay]).  A
    clause of the coherence check of an END frame (a positive rc with a status other than
    error) is implied by its other clauses.  In the drive of an operation the variable
    [step] is unbound when the preflight raises with a completed protocol.
    [_validate_begin] and [_validate_end] let [ValueError] escape for integers of more than
    4300 digits.  [wait_for_no_live_endpoint] with [allow_live_departure=False] cannot see
    an endpoint leave: from its second pass it passes the enumeration an expected
    departure, which the enumeration refuses; [absence_sound] therefore says that such a
    wait reports an absence only of a bus that was empty at its first look.

    ** Not modelled

    The device side (native init in C), the builders, the archived one-shot scripts, the
    documentation.  Of the Odin transition: the
    lease ([flock]), the diagnostic receipts, the identity callbacks of older callers, the
    reading of the USB nodes and of the raw capture files.  Of the filesystem profile:
    [formatter_argv], the superblock with its CRC-32C and [image_binding], which host
    builders use.  The live adapter and target I/O ([s22plus_native_adapter_v3.py],
    [s22plus_native_target_io_v3.py]): an interface.  The judges of raw proofs in the
    coordinators ([validate_task], [validate_result], [terminal]): part of [Adapter].
    [validate_manifest] and [verify_bundle] of Process v2, which depend on
    [device_action_f1_evidence_v2.py].  The census of historical runs in the registry.
    [IO] of the base class, whose [send] calls a function the resident codec does not
    have.  The observers that select a serial port.  Argument parsing and printing.
    Case conversion of a namespace is for ASCII. *)

From stdpp Require Import base list strings gmap sorting.
From Stdlib Require Import ZArith Lia.

(** ** Exceptions and results

    A Python function that can raise is a function into [result].  The
    exception classes are the ones the modelled modules define or let
    escape; the message is the fixed part of the source's message.  [PowerLoss]
    stands for the host stopping before a durable step. *)

Inductive pyexc :=
  | F1V2Error (msg : string)
  | F1TransportError (msg : string)
  | RegistryError (msg : string)
  | DuplicateCandidateClaim (msg : string)
  | RegistryUnavailable (msg : string)
  | SessionError (msg : string)
  | ResultPublicationError (step : string)
  | RawCaptureError (msg : string)
  | AdapterError (name : string) (protocol_completed : bool)
  | ContractError (msg : string)
  | ObservationContractError (msg : string)
  | SerialBridgeLockBusy (msg : string)
  | ProtocolError (msg : string)
  | OdinTransitionError (msg : string)
  | OdinEndpointArrivalRace (path : string)
  | OdinMeasuredEvidenceFailure (kind inner stage : string) (removed added : list string)
  | UsbfsIdentityError (msg : string)
  | UsbfsEndpointDeparture (path : string) (inventory_paths : list string)
  | UsbfsInventoryArrival (path : string)
  | UsbfsInventoryMembershipChanged (removed added : list string)
  | PyTypeError
  | PyKeyError (key : string)
  | PyValueError (msg : string)
  | PyRuntimeError (msg : string)
  | PyOSError (msg : string)
  | PyTimeoutError (msg : string)
  | PyUnicodeError
  | PyNameError
  | PyStopIteration
  | PyEOFError (msg : string)
  | PyStructError
  | PowerLoss.

Inductive result (A : Type) :=
  | Ok (a : A)
  | Err (e : pyexc).
Arguments Ok {A} a.
Arguments Err {A} e.

Definition rbind {A B} (m : result A) (k : A → result B) : result B :=
  match m with Ok a => k a | Err e => Err e end.

Declare Scope py_scope.
Delimit Scope py_scope with py.
Notation "'let*' x := m 'in' k" := (rbind m (λ x, k))
  (at level 10, x binder, m at level 100, k at level 200) : py_scope.
Notation "'do*' m 'in' k" := (rbind m (λ _ : unit, k))
  (at level 10, m at level 100, k at level 200) : py_scope.
Open Scope py_scope.

(** [if not b: raise e] *)
Definition require (b : bool) (e : pyexc) : result unit :=
  if b then Ok tt else Err e.

Definition is_ok {A} (m : result A) : bool := match m with Ok _ => true | Err _ => false end.

(** A [for] loop with loop-carried state that may raise. *)
Fixpoint foldM {A S} (f : S → A → result S) (s : S) (l : list A) : result S :=
  match l with
  | [] => Ok s
  | x :: l' => let* s' := f s x in foldM f s' l'
  end.

(** A [for] loop whose body only checks. *)
Fixpoint forM {A} (f : A → result unit) (l : list A) : result unit :=
  match l with
  | [] => Ok tt
  | x :: l' => do* f x in forM f l'
  end.

Lemma rbind_Ok {A B} (m : result A) (k : A → result B) b :
  rbind m k = Ok b ↔ ∃ a, m = Ok a ∧ k a = Ok b.
Proof.
  destruct m as [a|e]; simpl; split.
  - eauto.
  - by intros (a' & [= <-] & H).
  - done.
  - by intros (a' & ? & _).
Qed.

Lemma rbind_unit {B} (m : result unit) (k : result B) b :
  rbind m (λ _, k) = Ok b ↔ m = Ok tt ∧ k = Ok b.
Proof. rewrite rbind_Ok. split; [by intros ([] & ? & ?)|intros [? ?]; by exists tt]. Qed.

Lemma require_Ok b e u : require b e = Ok u ↔ b = true.
Proof. destruct b, u; simpl; naive_solver. Qed.

Lemma foldM_app {A S} (f : S → A → result S) s l1 l2 :
  foldM f s (l1 ++ l2) = let* s' := foldM f s l1 in foldM f s' l2.
Proof.
  revert s; induction l1 as [|x l1 IH]; intros s; simpl; [done|].
  destruct (f s x); simpl; auto.
Qed.

Lemma foldM_snoc {A S} (f : S → A → result S) s l x :
  foldM f s (l ++ [x]) = let* s' := foldM f s l in f s' x.
Proof.
  rewrite foldM_app. destruct (foldM f s l) as [s'|]; simpl; [|done].
  destruct (f s' x); done.
Qed.

(** A loop invariant of [foldM]. *)
Lemma foldM_ind {A S} (f : S → A → result S) (P : list A → S → Prop) s0 l s :
  P [] s0 →
  (∀ pre x s1 s2, P pre s1 → f s1 x = Ok s2 → P (pre ++ [x]) s2) →
  foldM f s0 l = Ok s → P l s.
Proof.
  intros H0 Hstep. revert s. induction l as [|x l IH] using rev_ind; intros s.
  - simpl. by intros [= <-].
  - rewrite foldM_snoc. intros (s1 & H1 & H2)%rbind_Ok. eauto.
Qed.

Lemma forM_Ok {A} (f : A → result unit) l u :
  forM f l = Ok u ↔ Forall (λ x, f x = Ok tt) l.
Proof.
  destruct u. induction l as [|x l IH]; simpl.
  - split; [constructor|done].
  - rewrite rbind_Ok, Forall_cons. split.
    + intros ([] & H1 & H2). split; [done|by apply IH].
    + intros [H1 H2]. exists tt. split; [done|by apply IH].
Qed.

(** Takes apart every hypothesis [m >>= k = Ok _] and [require _ _ = Ok _]. *)
Ltac rsimp1 :=
  match goal with
  | H : rbind _ _ = Ok _ |- _ =>
      let x := fresh "v" in let Hx := fresh "H" in
      apply rbind_Ok in H as (x & Hx & H)
  | H : require _ _ = Ok _ |- _ => apply require_Ok in H
  | H : Ok _ = Ok _ |- _ => injection H as H
  | H : Err _ = Ok _ |- _ => discriminate H
  | x : unit |- _ => destruct x
  end.
Ltac rsimp := repeat (rsimp1; try subst).

(** Follows one step of a computation known to succeed: from [H : rbind m k = Ok _]
    learns [E : m = Ok x] and performs that step in the goal too. *)
Tactic Notation "rgo" hyp(H) "as" simple_intropattern(x) ident(E) :=
  apply rbind_Ok in H as (x & E & H); rewrite E; cbn [rbind].

(** Splits boolean conjunctions and disjunctions in the hypotheses. *)
Ltac bsimp :=
  repeat match goal with
  | H : (_ && _)%bool = true |- _ => apply andb_true_iff in H as [? ?]
  | H : (_ || _)%bool = false |- _ => apply orb_false_iff in H as [? ?]
  | H : negb _ = true |- _ => apply negb_true_iff in H
  | H : negb _ = false |- _ => apply negb_false_iff in H
  | H : bool_decide _ = true |- _ => apply bool_decide_eq_true in H
  | H : bool_decide _ = false |- _ => apply bool_decide_eq_false in H
  | H : (_ =? _)%string = true |- _ => apply String.eqb_eq in H
  | H : (_ =? _)%Z = true |- _ => apply Z.eqb_eq in H
  | H : (_ <=? _)%Z = true |- _ => apply Z.leb_le in H
  | H : (_ <? _)%Z = true |- _ => apply Z.ltb_lt in H
  end.

(** ** Lists *)

Lemma last_snoc_inv {A} (l : list A) x : last l = Some x → ∃ l', l = l' ++ [x].
Proof.
  destruct l as [|y l _] using rev_ind; [done|].
  rewrite last_snoc. intros [= ->]. eauto.
Qed.

(** A sorted list is what sorting any permutation of it returns. *)
Lemma merge_sort_unique (l1 l2 : list string) :
  Sorted String.le l1 → l2 ≡ₚ l1 → merge_sort String.le l2 = l1.
Proof.
  intros Hs Hp. apply (Sorted_unique String.le).
  - apply Sorted_merge_sort; apply _.
  - done.
  - by rewrite merge_sort_Permutation.
Qed.

Lemma Sorted_snoc_all (l : list string) x :
  Sorted String.le l → Forall (λ y, String.le y x) l → Sorted String.le (l ++ [x]).
Proof.
  intros Hs Hall. apply Sorted_snoc; [done|].
  destruct l as [|y l _] using rev_ind; [constructor|].
  constructor. apply Forall_app in Hall as [_ Hy]. by inversion Hy.
Qed.

Create HintDb dap.
#[export] Hint Resolve Sorted_snoc_all merge_sort_unique : dap.

(** [dict.get] on a constant table *)
Fixpoint assoc {A} (k : string) (t : list (string * A)) : option A :=
  match t with [] => None | (k', v) :: t' => if String.eqb k k' then Some v else assoc k t' end.
