(* ===== verification/PyStr.v ===== *)
(** * Python strings and bytes

    A Python [str] is the Rocq [string] of its UTF-8 encoding (lone
    surrogates, which [json.loads] can produce, encoded like any other
    code point); [bytes] are a [string] too.  Byte order on the encoding
    is code-point order, so [sorted] on [str] is [String.leb]. *)

From stdpp Require Import base list strings.
From Stdlib Require Import ZArith Lia Ascii DecimalString.
From S2P Require Import Prelude.
Open Scope string_scope.
#[global] Arguments String.append !s1 s2 : simpl nomatch.

(** [len(s)]: code points are counted by the bytes that start one. *)
Definition starts_code_point (c : ascii) : bool :=
  let n := nat_of_ascii c in negb ((128 <=? n)%nat && (n <? 192)%nat).

Fixpoint py_len (s : string) : nat :=
  match s with
  | "" => 0
  | String c s' => (if starts_code_point c then 1 else 0) + py_len s'
  end.

Fixpoint all_chars (p : ascii → bool) (s : string) : bool :=
  match s with
  | "" => true
  | String c s' => p c && all_chars p s'
  end.

Definition char_between (lo hi c : ascii) : bool :=
  (nat_of_ascii lo <=? nat_of_ascii c)%nat && (nat_of_ascii c <=? nat_of_ascii hi)%nat.
Definition is_digit (c : ascii) : bool := char_between "0" "9" c.
Definition is_lower (c : ascii) : bool := char_between "a" "z" c.
Definition is_hex (c : ascii) : bool := is_digit c || char_between "a" "f" c.
Definition is_id_char (c : ascii) : bool :=
  is_lower c || is_digit c || (c =? ".")%char || (c =? "_")%char || (c =? "-")%char.

(** [HASH_RE.fullmatch], the pattern [[0-9a-f]{64}]. *)
Definition sha256_re (s : string) : bool :=
  (String.length s =? 64)%nat && all_chars is_hex s.

(** [ID_RE.fullmatch], the pattern [[a-z0-9][a-z0-9._-]{2,95}]. *)
Definition id_re (s : string) : bool :=
  match s with
  | "" => false
  | String c s' =>
      (is_lower c || is_digit c) && all_chars is_id_char s'
      && (2 <=? String.length s')%nat && (String.length s' <=? 95)%nat
  end.

(** [sub in s] *)
Fixpoint contains (sub s : string) : bool :=
  String.prefix sub s || match s with "" => false | String _ s' => contains sub s' end.

(** [s.startswith(p)], [s.endswith(p)] *)
Definition startswith (p s : string) : bool := String.prefix p s.
Definition endswith (p s : string) : bool :=
  let n := String.length s in let k := String.length p in
  (k <=? n)%nat && (String.substring (n - k) k s =? p).

Definition elem_str (s : string) (l : list string) : bool := existsb (String.eqb s) l.

(** [str(n)] for an [int], and the format [f"{n:0wd}"] of a natural. *)
Definition str_of_Z (z : Z) : string := NilZero.string_of_int (Z.to_int z).
Definition str_of_nat (n : nat) : string := NilZero.string_of_uint (Nat.to_uint n).
Definition zeros (n : nat) : string := String.concat "" (replicate n "0").
Definition fmt_0d (width n : nat) : string :=
  let s := str_of_nat n in zeros (width - String.length s) ++ s.

Definition nul : ascii := "000"%char.
Definition dquote : ascii := "034"%char.
Definition newline : ascii := "010"%char.
Definition nl : string := String newline "".

(** ** Lemmas *)

Lemma elem_str_In s l : elem_str s l = true ↔ In s l.
Proof.
  unfold elem_str. rewrite existsb_exists. split.
  - intros (x & Hin & ->%String.eqb_eq). done.
  - intros Hin. exists s. by rewrite String.eqb_refl.
Qed.

Lemma elem_str_false s l : elem_str s l = false ↔ ¬ In s l.
Proof. rewrite <- elem_str_In. destruct (elem_str s l); naive_solver. Qed.

Lemma all_chars_app p s1 s2 : all_chars p (s1 ++ s2) = all_chars p s1 && all_chars p s2.
Proof. induction s1 as [|c s1 IH]; simpl; [done|]. by rewrite IH, andb_assoc. Qed.

Lemma str_length_app s1 s2 :
  String.length (s1 ++ s2) = (String.length s1 + String.length s2)%nat.
Proof. induction s1 as [|c s1 IH]; simpl; congruence. Qed.

Lemma str_app_assoc s1 s2 s3 : s1 ++ (s2 ++ s3) = (s1 ++ s2) ++ s3.
Proof. induction s1 as [|c s1 IH]; simpl; congruence. Qed.

Lemma prefix_app s1 s2 : String.prefix s1 (s1 ++ s2) = true.
Proof.
  induction s1 as [|c s1 IH]; simpl; [by destruct s2|].
  by destruct (ascii_dec c c).
Qed.

Lemma prefix_exists p s : String.prefix p s = true → ∃ t, s = p ++ t.
Proof.
  revert s; induction p as [|c p IH]; intros s; simpl.
  - intros _. by exists s.
  - destruct s as [|d s]; [done|].
    simpl. destruct (ascii_dec c d) as [->|]; [|done].
    intros [t ->]%IH. by exists t.
Qed.

Lemma ascii_compare_refl a : Ascii.compare a a = Eq.
Proof. unfold Ascii.compare. apply N.compare_refl. Qed.

(** Strings that first differ inside equal-length prefixes compare as the prefixes do. *)
Lemma leb_prefix p q a b :
  String.length p = String.length q → p ≠ q →
  String.leb p q = true → String.leb (p ++ a) (q ++ b) = true.
Proof.
  unfold String.leb. revert q; induction p as [|c p IH]; intros [|d q]; try done.
  intros [= Hlen] Hne. simpl.
  destruct (Ascii.compare c d) eqn:E; try done.
  apply Ascii.compare_eq_iff in E as ->. intros H. apply IH; congruence.
Qed.

Lemma prefix_same_length p q a b :
  String.length p = String.length q → p ++ a = q ++ b → p = q.
Proof.
  revert q; induction p as [|c p IH]; intros [|d q]; try done.
  simpl. intros [= Hl] [= -> H]. f_equal; eauto.
Qed.

Lemma substring_all s : String.substring 0 (String.length s) s = s.
Proof. induction s as [|c s IH]; simpl; congruence. Qed.

Lemma endswith_app s p : endswith p (s ++ p) = true.
Proof.
  unfold endswith. rewrite str_length_app.
  replace (String.length s + String.length p - String.length p)%nat with (String.length s) by lia.
  apply andb_true_iff; split; [apply Nat.leb_le; lia|].
  apply String.eqb_eq. induction s as [|c s IH]; simpl; [apply substring_all|done].
Qed.

Lemma py_len_le s : (py_len s ≤ String.length s)%nat.
Proof. induction s as [|c s IH]; simpl; [done|]. destruct (starts_code_point c); lia. Qed.

Lemma hex_no_nul s : all_chars is_hex s = true → contains (String nul "") s = false.
Proof.
  induction s as [|c s IH]; [done|]. intros [Hc Hs]%andb_true_iff.
  cbn [contains]. rewrite IH, orb_false_r by done. cbn [String.prefix].
  by destruct (ascii_dec nul c) as [<-|].
Qed.

(** ** Decimal numerals *)

Lemma uint_digits d : all_chars is_digit (NilEmpty.string_of_uint d) = true.
Proof. induction d; simpl; auto. Qed.

Lemma str_of_nat_digits n : all_chars is_digit (str_of_nat n) = true.
Proof.
  unfold str_of_nat, NilZero.string_of_uint. destruct (Nat.to_uint n) eqn:E; [done|..];
    rewrite <- E; apply uint_digits.
Qed.

Lemma str_of_nat_nonempty n : (1 ≤ String.length (str_of_nat n))%nat.
Proof.
  unfold str_of_nat, NilZero.string_of_uint. destruct (Nat.to_uint n); simpl; lia.
Qed.

Lemma substring_app p s :
  String.substring (String.length p) (String.length s) (p ++ s) = s.
Proof. induction p as [|c p IH]; simpl; [apply substring_all|done]. Qed.

Lemma str_app_nil s : s ++ "" = s.
Proof. induction s as [|c s IH]; simpl; congruence. Qed.
