(* ===== verification/PyText.v ===== *)
(** * Text operations of the A90 modules

    Strict UTF-8 decoding, [str.split], [str.count], [str.join], the decimal
    regular expressions and [int] with Python's limit on the digits it reads. *)

From stdpp Require Import base list strings.
From Stdlib Require Import ZArith NArith Lia Ascii.
From S2P Require Import Prelude PyStr.
Open Scope string_scope.

(** ** UTF-8 *)

(** [need] continuation bytes are outstanding, the next one within [lo..hi]. *)
Fixpoint utf8_go (s : string) (need : nat) (lo hi : N) : bool :=
  match s with
  | "" => match need with O => true | S _ => false end
  | String c s' =>
      let n := N_of_ascii c in
      match need with
      | S k => (lo <=? n)%N && (n <=? hi)%N && utf8_go s' k 128 191
      | O =>
          if (n <? 128)%N then utf8_go s' 0 128 191
          else if (n <? 194)%N then false
          else if (n <? 224)%N then utf8_go s' 1 128 191
          else if (n =? 224)%N then utf8_go s' 2 160 191
          else if (n =? 237)%N then utf8_go s' 2 128 159
          else if (n <? 240)%N then utf8_go s' 2 128 191
          else if (n =? 240)%N then utf8_go s' 3 144 191
          else if (n <? 244)%N then utf8_go s' 3 128 191
          else if (n =? 244)%N then utf8_go s' 3 128 143
          else false
      end
  end.
Definition utf8_ok (s : string) : bool := utf8_go s 0 128 191.

(** [raw.decode("utf-8")] *)
Definition decode_utf8 (s : string) : result string :=
  if utf8_ok s then Ok s else Err PyUnicodeError.

(** An ASCII byte never lies inside a multi-byte sequence. *)
Lemma utf8_go_ascii a c b need lo hi :
  (N_of_ascii c < 128)%N → (128 <= lo)%N →
  utf8_go (a ++ String c b) need lo hi = utf8_go a need lo hi && utf8_ok b.
Proof.
  intros Hc. revert need lo hi. induction a as [|d a IH]; intros need lo hi Hlo; simpl.
  - destruct need as [|k].
    + by rewrite (proj2 (N.ltb_lt _ _) Hc).
    + by rewrite (proj2 (N.leb_gt _ _)) by lia.
  - destruct need as [|k]; [|by rewrite IH, andb_assoc by lia].
    repeat (case_match; [first [done|apply IH; lia]|]). done.
Qed.

Lemma utf8_ok_ascii a c b :
  (N_of_ascii c < 128)%N → utf8_ok (a ++ String c b) = utf8_ok a && utf8_ok b.
Proof. intros Hc. apply utf8_go_ascii; [done|lia]. Qed.

(** ** Splitting *)

Fixpoint count_char (c : ascii) (s : string) : nat :=
  match s with
  | "" => 0
  | String d s' => (if (d =? c)%char then 1 else 0) + count_char c s'
  end.

(** [s.split(c)] *)
Fixpoint split_on (c : ascii) (s : string) : list string :=
  match s with
  | "" => [""]
  | String d s' =>
      if (d =? c)%char then "" :: split_on c s'
      else match split_on c s' with
           | h :: t => String d h :: t
           | [] => []
           end
  end.

(** [s.split(c, 1)] where [c] occurs, [None] where it does not *)
Fixpoint split_once (c : ascii) (s : string) : option (string * string) :=
  match s with
  | "" => None
  | String d s' =>
      if (d =? c)%char then Some ("", s')
      else match split_once c s' with
           | Some (k, v) => Some (String d k, v)
           | None => None
           end
  end.

Definition space : ascii := " "%char.
Definition equals : ascii := "="%char.

Lemma split_on_nonempty c s : split_on c s ≠ [].
Proof. induction s as [|d s IH]; simpl; [done|]. case_match; [done|]. by case_match. Qed.

(** Joining what [split] returns gives the text back. *)
Lemma concat_split_on c s : String.concat (String c "") (split_on c s) = s.
Proof.
  induction s as [|d s IH]; simpl; [done|]. destruct (Ascii.eqb_spec d c) as [->|].
  - destruct (split_on c s) as [|h t] eqn:E; [by apply split_on_nonempty in E|].
    by simpl in *; rewrite IH.
  - destruct (split_on c s) as [|h t] eqn:E; [by apply split_on_nonempty in E|].
    rewrite <- IH. by destruct t.
Qed.

Lemma split_once_app c k v :
  count_char c k = 0%nat → split_once c (k ++ String c v) = Some (k, v).
Proof.
  induction k as [|d k IH]; simpl; [by rewrite Ascii.eqb_refl|].
  destruct (Ascii.eqb_spec d c); [done|]. intros H. by rewrite IH.
Qed.

Lemma split_once_inv c s k v :
  split_once c s = Some (k, v) → s = k ++ String c v ∧ count_char c k = 0%nat.
Proof.
  revert k v. induction s as [|d s IH]; intros k v; simpl; [done|].
  destruct (Ascii.eqb_spec d c) as [->|Hd]; [by intros [= <- <-]|].
  destruct (split_once c s) as [[k' v']|]; [|done]. intros [= <- <-].
  destruct (IH _ _ eq_refl) as [-> Hk]. simpl. by destruct (Ascii.eqb_spec d c).
Qed.

Lemma count_char_app c a b : count_char c (a ++ b) = (count_char c a + count_char c b)%nat.
Proof. induction a as [|d a IH]; simpl; [done|]. rewrite IH. lia. Qed.

(** ** Decimal integers *)

Definition is_nonzero_digit (c : ascii) : bool := char_between "1" "9" c.

(** [UNSIGNED_DECIMAL_RE.fullmatch], [SIGNED_DECIMAL_RE.fullmatch] *)
Definition unsigned_decimal_re (s : string) : bool :=
  match s with
  | "" => false
  | String c s' => (s =? "0") || is_nonzero_digit c && all_chars is_digit s'
  end.
Definition signed_decimal_re (s : string) : bool :=
  match s with
  | String "-" s' => negb (s' =? "0") && unsigned_decimal_re s'
  | _ => unsigned_decimal_re s
  end.

Definition digit_val (c : ascii) : Z := Z.of_nat (nat_of_ascii c) - 48.
Fixpoint digits_val (acc : Z) (s : string) : Z :=
  match s with "" => acc | String c s' => digits_val (10 * acc + digit_val c) s' end.

Definition INT_MAX_STR_DIGITS : nat := 4300.

(** [int(s)] of a decimal literal; more than 4300 digits raise [ValueError]. *)
Definition int_digits (s : string) : result Z :=
  do* require (String.length s <=? INT_MAX_STR_DIGITS)%nat
        (PyValueError "Exceeds the limit for integer string conversion") in
  Ok (digits_val 0 s).
Definition py_int (s : string) : result Z :=
  match s with
  | String "-" s' => let* n := int_digits s' in Ok (- n)%Z
  | _ => int_digits s
  end.

(** ** White space

    [str.isspace] on the UTF-8 encoding: the white space characters are one,
    two or three bytes long. *)

Definition space1 (c : ascii) : bool :=
  char_between "009" "013" c || char_between "028" " " c.
Definition space2 (c d : ascii) : bool :=
  (c =? "194")%char && ((d =? "133")%char || (d =? "160")%char).
Definition space3 (c d e : ascii) : bool :=
  (c =? "225")%char && (d =? "154")%char && (e =? "128")%char
  || (c =? "226")%char && (d =? "128")%char
     && (char_between "128" "138" e || (e =? "168")%char || (e =? "169")%char || (e =? "175")%char)
  || (c =? "226")%char && (d =? "129")%char && (e =? "159")%char
  || (c =? "227")%char && (d =? "128")%char && (e =? "128")%char.

(** The text starts with a white space character. *)
Definition starts_space (s : string) : bool :=
  match s with
  | "" => false
  | String c s1 =>
      space1 c ||
      match s1 with
      | "" => false
      | String d s2 =>
          space2 c d || match s2 with "" => false | String e _ => space3 c d e end
      end
  end.

(** [any(ch.isspace() for ch in s)] *)
Fixpoint has_space (s : string) : bool :=
  match s with "" => false | String _ s' => starts_space s || has_space s' end.

(** [s.lstrip()], [s.rstrip()], [s.strip()] *)
Fixpoint lstrip (s : string) : string :=
  match s with
  | "" => ""
  | String c s1 =>
      if space1 c then lstrip s1
      else match s1 with
           | "" => s
           | String d s2 =>
               if space2 c d then lstrip s2
               else match s2 with
                    | "" => s
                    | String e s3 => if space3 c d e then lstrip s3 else s
                    end
           end
  end.
Fixpoint rstrip (s : string) : string :=
  match s with
  | "" => ""
  | String c s' => if lstrip s =? "" then "" else String c (rstrip s')
  end.
Definition strip (s : string) : string := rstrip (lstrip s).

(** The characters of a text, each as its encoding *)
Fixpoint chars (s : string) : list string :=
  match s with
  | "" => []
  | String c s' =>
      match s' with
      | "" => [String c ""]
      | String d _ =>
          if starts_code_point d then String c "" :: chars s'
          else match chars s' with
               | h :: t => String c h :: t
               | [] => [String c ""]
               end
      end
  end.

Lemma concat_chars s : String.concat "" (chars s) = s.
Proof.
  induction s as [|c s IH]; [done|]. cbn [chars]. destruct s as [|d s]; [done|].
  destruct (starts_code_point d).
  - destruct (chars (String d s)) as [|h t] eqn:E; [by rewrite <- IH in *|].
    change (String.concat "" (String c "" :: h :: t)) with (String c (String.concat "" (h :: t))).
    by rewrite IH.
  - destruct (chars (String d s)) as [|h t] eqn:E; [by rewrite <- IH|].
    destruct t as [|u t]; [by simpl in *; rewrite IH|].
    change (String.concat "" (String c h :: u :: t)) with (String c (String.concat "" (h :: u :: t))).
    by rewrite IH.
Qed.

(** [data.hex()] *)
Definition hex_digit_of (n : nat) : ascii :=
  ascii_of_nat (if n <? 10 then 48 + n else 87 + n)%nat.
Fixpoint hex_of (s : string) : string :=
  match s with
  | "" => ""
  | String c s' =>
      let n := nat_of_ascii c in
      String (hex_digit_of (n / 16)) (String (hex_digit_of (n mod 16)) (hex_of s'))
  end.

(** The tail of [s] from the last occurrence of [sub] on ([s.rfind(sub)]) *)
Fixpoint rfind_tail (sub s : string) : option string :=
  match s with
  | "" => if String.prefix sub s then Some s else None
  | String _ s' =>
      match rfind_tail sub s' with
      | Some t => Some t
      | None => if String.prefix sub s then Some s else None
      end
  end.

(** [s.replace(a, b)] for a non-empty [a] of one or two characters *)
Fixpoint replace1 (a : ascii) (b s : string) : string :=
  match s with
  | "" => ""
  | String c s' => if (c =? a)%char then b ++ replace1 a b s' else String c (replace1 a b s')
  end.
Fixpoint replace2 (a1 a2 : ascii) (b s : string) : string :=
  match s with
  | "" => ""
  | String c s' =>
      match s' with
      | String d s'' =>
          if (c =? a1)%char && (d =? a2)%char then b ++ replace2 a1 a2 b s''
          else String c (replace2 a1 a2 b s')
      | "" => String c ""
      end
  end.
