(* ===== verification/Dir.v ===== *)
(** * Directories

    A directory is a finite map from names to what they hold.  [names_by] is
    [sorted(directory.glob(pattern))] for a pattern given as a predicate and
    [listing_by] pairs every name with its content.  The append-only
    directories number their files with a zero-padded prefix
    ([f"{sequence:04d}-..."], [f"{sequence:08d}-..."]): below a bound such
    names sort in the order of their numbers, so publishing the next one
    appends it to the listing. *)

From stdpp Require Import base list strings gmap sorting.
From Stdlib Require Import DecimalNat DecimalString ZArith Lia.
From S2P Require Import Prelude PyStr.
Open Scope string_scope.

Section Listing.
Context {A : Type} (p : string → bool).
Implicit Types dir : gmap string A.

Definition names_by (dir : gmap string A) : list string :=
  merge_sort String.le (filter (λ n, p n = true) (map_to_list dir).*1).
Definition listing_by (dir : gmap string A) : list (string * A) :=
  omap (λ n, (λ f, (n, f)) <$> dir !! n) (names_by dir).

Lemma names_by_elem dir n : n ∈ names_by dir ↔ is_Some (dir !! n) ∧ p n = true.
Proof.
  unfold names_by. rewrite merge_sort_Permutation, list_elem_of_filter, list_elem_of_fmap.
  split.
  - intros (He & [k v] & -> & Hin). apply elem_of_map_to_list in Hin. simpl. eauto.
  - intros [[v Hv] He]. split; [done|]. exists (n, v). by rewrite elem_of_map_to_list.
Qed.

Lemma names_by_NoDup dir : NoDup (names_by dir).
Proof.
  unfold names_by. rewrite merge_sort_Permutation.
  apply NoDup_filter, NoDup_fst_map_to_list.
Qed.

Lemma names_by_sorted dir : Sorted String.le (names_by dir).
Proof. apply Sorted_merge_sort; apply _. Qed.

Lemma listing_by_names dir : (listing_by dir).*1 = names_by dir.
Proof.
  unfold listing_by. assert (Hall : Forall (λ n, is_Some (dir !! n)) (names_by dir)).
  { apply Forall_forall. intros n Hn%names_by_elem. tauto. }
  induction Hall as [|n l [f Hf] Hl IH]; [done|].
  cbn. rewrite Hf. cbn. by f_equal.
Qed.

Lemma listing_by_elem dir n f : (n, f) ∈ listing_by dir ↔ dir !! n = Some f ∧ p n = true.
Proof.
  unfold listing_by. rewrite list_elem_of_omap. split.
  - intros (n' & Hn & Hf). destruct (dir !! n') as [g|] eqn:E; [|done].
    injection Hf as -> ->. apply names_by_elem in Hn. tauto.
  - intros [Hf Hp]. exists n. rewrite names_by_elem, Hf. eauto.
Qed.

(** Publishing a name that sorts after every listed one appends it to the listing. *)
Lemma listing_by_insert_last dir name f :
  dir !! name = None → p name = true →
  Forall (λ n, String.le n name) (names_by dir) →
  listing_by (<[name := f]> dir) = (listing_by dir ++ [(name, f)])%list.
Proof.
  intros Hn He Hall.
  assert (Hnames : names_by (<[name := f]> dir) = (names_by dir ++ [name])%list).
  { apply merge_sort_unique; [by apply Sorted_snoc_all; [apply names_by_sorted|]|].
    unfold names_by. rewrite merge_sort_Permutation.
    rewrite (map_to_list_insert _ _ _ Hn). cbn [fmap list_fmap].
    rewrite filter_cons_True by done. by rewrite Permutation_cons_append. }
  unfold listing_by. rewrite Hnames, omap_app. f_equal.
  - apply list_omap_ext. apply Forall_Forall2_diag, Forall_forall.
    intros n [Hs _]%names_by_elem. rewrite lookup_insert_ne; [done|].
    intros ->. rewrite Hn in Hs. by destruct Hs.
  - cbn. by rewrite lookup_insert_eq.
Qed.

(** A name the pattern does not match is invisible. *)
Lemma listing_by_insert_other dir name f :
  p name = false → dir !! name = None → listing_by (<[name := f]> dir) = listing_by dir.
Proof.
  intros Hp Hn.
  assert (Hnames : names_by (<[name := f]> dir) = names_by dir).
  { unfold names_by at 1. apply merge_sort_unique; [apply names_by_sorted|].
    unfold names_by. rewrite merge_sort_Permutation, (map_to_list_insert _ _ _ Hn).
    cbn [fmap list_fmap fst]. by rewrite filter_cons_False by (simpl; congruence). }
  unfold listing_by. rewrite Hnames. apply list_omap_ext, Forall_Forall2_diag, Forall_forall.
  intros n [_ Hpn]%names_by_elem. by rewrite lookup_insert_ne by congruence.
Qed.

Lemma names_by_ext dir dir' :
  (∀ n, p n = true → is_Some (dir !! n) ↔ is_Some (dir' !! n)) → names_by dir = names_by dir'.
Proof.
  intros Hext. apply (Sorted_unique String.le); try apply names_by_sorted.
  apply NoDup_Permutation; try apply names_by_NoDup.
  intros n. rewrite !names_by_elem. specialize (Hext n). destruct (p n); naive_solver.
Qed.

Lemma names_by_nil dir : (∀ n, is_Some (dir !! n) → p n = false) → names_by dir = [].
Proof.
  intros Hn. destruct (names_by dir) as [|x l] eqn:E; [done|].
  assert (Hx : x ∈ names_by dir) by (rewrite E; left).
  apply names_by_elem in Hx as [Hx Hp]. by rewrite (Hn x Hx) in Hp.
Qed.

Lemma names_by_single dir t :
  is_Some (dir !! t) → p t = true → (∀ n, is_Some (dir !! n) → p n = true → n = t) →
  names_by dir = [t].
Proof.
  intros Ht Hp Hall. apply Permutation_singleton_r, NoDup_Permutation;
    [apply names_by_NoDup|apply NoDup_singleton|].
  intros n. rewrite names_by_elem, list_elem_of_singleton. naive_solver.
Qed.
End Listing.

(** ** Numbered names *)

Definition num_prefix (w i : nat) : string := fmt_0d w i ++ "-".

Definition num_step_ok (w i : nat) : bool :=
  String.leb (num_prefix w i) (num_prefix w (S i))
  && negb (num_prefix w i =? num_prefix w (S i))
  && (String.length (num_prefix w i) =? S w)%nat.

(** The steps checked from one number to its successor, each name computed once *)
Definition uint_prefix (w : nat) (d : Decimal.uint) : string :=
  let s := NilZero.string_of_uint (Decimal.rev d) in (zeros (w - String.length s) ++ s) ++ "-".
Fixpoint steps_from (w n : nat) (d : Decimal.uint) (p : string) : bool :=
  match n with
  | O => true
  | S n' =>
      let d' := Decimal.Little.succ d in
      let p' := uint_prefix w d' in
      String.leb p p' && negb (p =? p') && (String.length p =? S w)%nat && steps_from w n' d' p'
  end.

Lemma uint_prefix_num w i : uint_prefix w (DecimalNat.Unsigned.to_lu i) = num_prefix w i.
Proof. unfold uint_prefix, num_prefix, fmt_0d, str_of_nat. by rewrite DecimalNat.Unsigned.to_uint_alt. Qed.

Lemma steps_from_ok w n i :
  steps_from w n (DecimalNat.Unsigned.to_lu i) (uint_prefix w (DecimalNat.Unsigned.to_lu i)) = true →
  forallb (num_step_ok w) (seq i n) = true.
Proof.
  revert i. induction n as [|n IH]; intros i Hs; [done|]. cbn [steps_from] in Hs. cbn [seq forallb].
  change (Decimal.Little.succ (DecimalNat.Unsigned.to_lu i)) with (DecimalNat.Unsigned.to_lu (S i)) in Hs.
  apply andb_true_iff in Hs as [Hs Hr]. apply IH in Hr. rewrite Hr, !uint_prefix_num in *.
  unfold num_step_ok. by rewrite Hs.
Qed.

Section Numbered.
Context (w bound : nat) (steps : forallb (num_step_ok w) (seq 0 bound) = true).

Lemma num_step i : (i < bound)%nat → num_step_ok w i = true.
Proof.
  intros Hi. rewrite forallb_forall in steps. apply steps, in_seq. lia.
Qed.

Lemma num_prefix_length i : (i < bound)%nat → String.length (num_prefix w i) = S w.
Proof. intros Hi%num_step. unfold num_step_ok in Hi. bsimp. by apply Nat.eqb_eq. Qed.

Lemma num_prefix_le i j :
  (i ≤ j)%nat → (j ≤ bound)%nat → String.le (num_prefix w i) (num_prefix w j).
Proof.
  induction 1 as [|j Hij IH]; intros Hj; [done|].
  transitivity (num_prefix w j); [apply IH; lia|].
  assert (Hs : num_step_ok w j = true) by (apply num_step; lia).
  unfold num_step_ok in Hs. bsimp. unfold String.le.
  match goal with H : String.leb _ _ = true |- _ => by rewrite H end.
Qed.

Lemma num_prefix_inj_lt i j : (i < j)%nat → (j ≤ bound)%nat → num_prefix w i ≠ num_prefix w j.
Proof.
  intros Hij Hj Heq.
  assert (Hs : num_step_ok w i = true) by (apply num_step; lia).
  unfold num_step_ok in Hs. bsimp.
  match goal with H : (_ =? _)%string = false |- _ => apply String.eqb_neq in H; apply H end.
  apply (anti_symm String.le).
  - unfold String.le. match goal with H : String.leb _ _ = true |- _ => by rewrite H end.
  - rewrite Heq. apply num_prefix_le; lia.
Qed.

(** A name with a smaller number sorts strictly before. *)
Lemma num_name_le i j a b :
  (i < j)%nat → (j < bound)%nat → String.le (num_prefix w i ++ a) (num_prefix w j ++ b).
Proof.
  intros Hij Hj. unfold String.le.
  rewrite leb_prefix; [done| | |].
  - rewrite !num_prefix_length by lia. done.
  - apply num_prefix_inj_lt; lia.
  - assert (Hle : String.le (num_prefix w i) (num_prefix w j)) by (apply num_prefix_le; lia).
    unfold String.le in Hle. by destruct (String.leb _ _).
Qed.

Lemma num_name_ne i j a b :
  (i < j)%nat → (j < bound)%nat → num_prefix w i ++ a ≠ num_prefix w j ++ b.
Proof.
  intros Hij Hj Heq. apply (num_prefix_inj_lt i j); [lia..|].
  apply (prefix_same_length _ _ a b); [|done]. rewrite !num_prefix_length by lia. done.
Qed.
End Numbered.
