(* ===== verification/Json.v ===== *)
(** * JSON values as Python sees them

    [json] is the value [json.loads] returns: a [dict] is an association
    list in insertion order with distinct keys.  A finite float carries its
    value [fl_m * 2^fl_e] and the text [repr] prints for it; the non-finite
    constants [NaN], [Infinity] and [-Infinity] are kept apart because
    [json.dumps(allow_nan=False)] refuses them.  [py_eqb] is [==],
    [canonical] is [json.dumps(sort_keys=True, separators=(",", ":"))] and
    [dumps_indent] is [json.dumps(indent=2, sort_keys=True)]; [norm] is what
    [json.loads] returns on either text. *)

From stdpp Require Import base list strings sorting.
From Stdlib Require Import ZArith Lia Ascii.
From S2P Require Import Prelude PyStr.
Open Scope string_scope.

Record pyfloat := { fl_m : Z; fl_e : Z; fl_repr : string }.

Inductive json :=
  | JNull
  | JBool (b : bool)
  | JInt (z : Z)
  | JFloat (f : pyfloat)
  | JNonFinite (name : string)
  | JStr (s : string)
  | JList (l : list json)
  | JObj (d : list (string * json)).

Abbreviation dict := (list (string * json)).

Section JsonInd.
Variable P : json → Prop.
Hypothesis HNull : P JNull.
Hypothesis HBool : ∀ b, P (JBool b).
Hypothesis HInt : ∀ z, P (JInt z).
Hypothesis HFloat : ∀ f, P (JFloat f).
Hypothesis HNon : ∀ n, P (JNonFinite n).
Hypothesis HStr : ∀ s, P (JStr s).
Hypothesis HList : ∀ l, Forall P l → P (JList l).
Hypothesis HObj : ∀ d, Forall (λ kv, P kv.2) d → P (JObj d).

Fixpoint json_ind' (v : json) : P v :=
  match v with
  | JNull => HNull
  | JBool b => HBool b
  | JInt z => HInt z
  | JFloat f => HFloat f
  | JNonFinite n => HNon n
  | JStr s => HStr s
  | JList l =>
      HList l ((fix go l := match l return Forall P l with
                | [] => Forall_nil_2 _
                | x :: l' => Forall_cons_2 _ _ _ (json_ind' x) (go l')
                end) l)
  | JObj d =>
      HObj d ((fix go d := match d return Forall (λ kv, P kv.2) d with
               | [] => Forall_nil_2 _
               | kv :: d' => Forall_cons_2 _ _ _ (json_ind' kv.2) (go d')
               end) d)
  end.
End JsonInd.

(** ** Dictionaries *)

(** [d.get(k)] with [None] for a missing key, and [d[k]] where the key set was checked. *)
Fixpoint dget (k : string) (d : dict) : option json :=
  match d with
  | [] => None
  | (k', v) :: d' => if k =? k' then Some v else dget k d'
  end.
Definition fld (d : dict) (k : string) : json := default JNull (dget k d).
Definition keys (d : dict) : list string := d.*1.

(** [d.pop(k, None)] *)
Definition dremove (k : string) (d : dict) : dict := filter (λ kv, kv.1 ≠ k) d.

(** [d[k] = v]: an existing key keeps its place *)
Fixpoint dset (k : string) (v : json) (d : dict) : dict :=
  match d with
  | [] => [(k, v)]
  | (k', v') :: d' => if k =? k' then (k', v) :: d' else (k', v') :: dset k v d'
  end.

(** [set(d) == {...}] *)
Definition keys_match (d : dict) (ks : list string) : bool :=
  forallb (λ k, elem_str k ks) (keys d) && forallb (λ k, elem_str k (keys d)) ks.

(** ** Comparisons *)

(** [v == "literal"], [v is True], [v is False], [v is None] *)
Definition is_str (v : json) (s : string) : bool := match v with JStr t => t =? s | _ => false end.
Definition is_true (v : json) : bool := match v with JBool true => true | _ => false end.
Definition is_false (v : json) : bool := match v with JBool false => true | _ => false end.
Definition is_null (v : json) : bool := match v with JNull => true | _ => false end.

(** The numeric value of [bool], [int] and finite [float], as [m * 2^e]. *)
Definition num_of (v : json) : option (Z * Z) :=
  match v with
  | JBool b => Some (Z.b2z b, 0%Z)
  | JInt z => Some (z, 0%Z)
  | JFloat f => Some (fl_m f, fl_e f)
  | _ => None
  end.

Definition num_eqb (a b : Z * Z) : bool :=
  let e := Z.min a.2 b.2 in
  (a.1 * 2 ^ (a.2 - e) =? b.1 * 2 ^ (b.2 - e))%Z.

(** [v == n] for an [int] [n] *)
Definition eq_int (v : json) (n : Z) : bool :=
  match num_of v with Some a => num_eqb a (n, 0%Z) | None => false end.

(** [==] on JSON values *)
Fixpoint py_eqb (v w : json) {struct v} : bool :=
  match v, w with
  | JNull, JNull => true
  | JStr a, JStr b => a =? b
  | JNonFinite a, JNonFinite b => (a =? b) && negb (a =? "NaN")
  | JList l1, JList l2 =>
      (fix go l1 l2 :=
         match l1, l2 with
         | [], [] => true
         | x :: l1', y :: l2' => py_eqb x y && go l1' l2'
         | _, _ => false
         end) l1 l2
  | JObj d1, JObj d2 =>
      (length d1 =? length d2)%nat &&
      (fix go d := match d with
         | [] => true
         | (k, x) :: d' =>
             match dget k d2 with Some y => py_eqb x y | None => false end && go d'
         end) d1
  | _, _ =>
      match num_of v, num_of w with
      | Some a, Some b => num_eqb a b
      | _, _ => false
      end
  end.

(** Whether the value can be a set member or a [dict] key. *)
Definition hashable (v : json) : bool := match v with JList _ | JObj _ => false | _ => true end.

(** [v in {...}] for a set of strings; a [list] or [dict] raises [TypeError]. *)
Definition in_str_set (v : json) (l : list string) : result bool :=
  if hashable v then Ok (match v with JStr s => elem_str s l | _ => false end) else Err PyTypeError.

(** ** Printing *)

Fixpoint kinsert {A} (kv : string * A) (l : list (string * A)) : list (string * A) :=
  match l with
  | [] => [kv]
  | x :: l' => if String.leb kv.1 x.1 then kv :: l else x :: kinsert kv l'
  end.
Definition ksort {A} (l : list (string * A)) : list (string * A) := foldr kinsert [] l.

Fixpoint norm (v : json) : json :=
  match v with
  | JList l => JList (map norm l)
  | JObj d =>
      JObj (ksort ((fix go d := match d with
                    | [] => []
                    | (k, x) :: d' => (k, norm x) :: go d'
                    end) d))
  | _ => v
  end.
Definition norm_dict (d : dict) : dict := ksort (map (λ kv, (kv.1, norm kv.2)) d).

(** No non-finite number anywhere: [json.dumps(allow_nan=False)] does not raise. *)
Fixpoint finite (v : json) : bool :=
  match v with
  | JNonFinite _ => false
  | JList l => forallb finite l
  | JObj d => (fix go d := match d with [] => true | (_, x) :: d' => finite x && go d' end) d
  | _ => true
  end.

Definition hexdigit (n : N) : ascii :=
  ascii_of_N (if (n <? 10)%N then 48 + n else 87 + n)%N.
Definition hex4 (n : N) : string :=
  String (hexdigit (N.land (N.shiftr n 12) 15)) (String (hexdigit (N.land (N.shiftr n 8) 15))
  (String (hexdigit (N.land (N.shiftr n 4) 15)) (String (hexdigit (N.land n 15)) ""))).
Definition backslash : ascii := "092"%char.
Definition u_escape (n : N) : string := String backslash ("u" ++ hex4 n).

(** [ensure_ascii]: a code point above the basic plane is a surrogate pair. *)
Definition escape_code_point (n : N) : string :=
  if (n <? 65536)%N then u_escape n
  else let m := (n - 65536)%N in
       u_escape (55296 + N.shiftr m 10) ++ u_escape (56320 + N.land m 1023).

Definition escape_ascii (c : ascii) : string :=
  let n := N_of_ascii c in
  if (c =? dquote)%char then String backslash (String dquote "")
  else if (c =? backslash)%char then String backslash (String backslash "")
  else if (n =? 10)%N then String backslash "n"
  else if (n =? 13)%N then String backslash "r"
  else if (n =? 9)%N then String backslash "t"
  else if (n =? 8)%N then String backslash "b"
  else if (n =? 12)%N then String backslash "f"
  else if (n <? 32)%N || (n =? 127)%N then u_escape n
  else String c "".

Definition cont (c : ascii) : N := N.land (N_of_ascii c) 63.

Fixpoint escape (s : string) : string :=
  match s with
  | "" => ""
  | String a s1 =>
      let n := N_of_ascii a in
      if (n <? 128)%N then escape_ascii a ++ escape s1
      else match s1 with
      | "" => ""
      | String b s2 =>
          if (n <? 224)%N
          then escape_code_point (N.lor (N.shiftl (N.land n 31) 6) (cont b)) ++ escape s2
          else match s2 with
          | "" => ""
          | String c s3 =>
              if (n <? 240)%N
              then escape_code_point
                     (N.lor (N.shiftl (N.land n 15) 12) (N.lor (N.shiftl (cont b) 6) (cont c)))
                   ++ escape s3
              else match s3 with
              | "" => ""
              | String e s4 =>
                  escape_code_point
                    (N.lor (N.shiftl (N.land n 7) 18)
                       (N.lor (N.shiftl (cont b) 12) (N.lor (N.shiftl (cont c) 6) (cont e))))
                  ++ escape s4
              end
          end
      end
  end.
Definition quoted (s : string) : string := String dquote (escape s ++ String dquote "").

(** Compact text; [render] prints the keys in the order they are stored. *)
Fixpoint render (v : json) : string :=
  match v with
  | JNull => "null"
  | JBool true => "true"
  | JBool false => "false"
  | JInt z => str_of_Z z
  | JFloat f => fl_repr f
  | JNonFinite n => n
  | JStr s => quoted s
  | JList l => "[" ++ String.concat "," (map render l) ++ "]"
  | JObj d =>
      "{" ++ String.concat ","
        ((fix go d := match d with
          | [] => []
          | (k, x) :: d' => (quoted k ++ ":" ++ render x) :: go d'
          end) d) ++ "}"
  end.

(** [canonical(value)]; [None] is the [ValueError] of a non-finite number. *)
Definition canonical (v : json) : option string :=
  if finite v then Some (render (norm v)) else None.

Definition spaces (n : nat) : string := String.concat "" (replicate n " ").

(** The [indent=2] text at nesting depth [n]. *)
Fixpoint render_indent (n : nat) (v : json) : string :=
  let line (m : nat) (x : string) := nl ++ spaces (2 * m) ++ x in
  match v with
  | JList [] => "[]"
  | JList l => "[" ++ String.concat "," (map (λ x, line (S n) (render_indent (S n) x)) l) ++ line n "]"
  | JObj [] => "{}"
  | JObj d =>
      "{" ++ String.concat ","
        ((fix go d := match d with
          | [] => []
          | (k, x) :: d' => line (S n) (quoted k ++ ": " ++ render_indent (S n) x) :: go d'
          end) d) ++ line n "}"
  | _ => render v
  end.
Definition dumps_indent (v : json) : string := render_indent 0 (norm v).

(** ** Lemmas *)

Lemma is_str_eq v s : is_str v s = true ↔ v = JStr s.
Proof. destruct v; simpl; try naive_solver. rewrite String.eqb_eq. naive_solver. Qed.

Lemma is_str_refl s : is_str (JStr s) s = true.
Proof. apply String.eqb_refl. Qed.

Lemma eq_int_JInt z n : eq_int (JInt z) n = (z =? n)%Z.
Proof.
  unfold eq_int, num_eqb; simpl. by rewrite !Z.mul_1_r.
Qed.

Lemma norm_JObj d : norm (JObj d) = JObj (norm_dict d).
Proof.
  simpl. f_equal. unfold norm_dict. f_equal.
  induction d as [|[k x] d IH]; simpl; congruence.
Qed.

Definition kle {A} (a b : string * A) : Prop := String.leb a.1 b.1 = true.

Lemma leb_total_false a b : String.leb a b = false → String.leb b a = true.
Proof.
  unfold String.leb. rewrite (String.compare_antisym b a).
  by destruct (String.compare a b).
Qed.

Lemma kinsert_sorted {A} (kv : string * A) l :
  Sorted kle l → Sorted kle (kinsert kv l).
Proof.
  induction l as [|x l IH]; simpl; intros Hs; [by repeat constructor|].
  destruct (String.leb kv.1 x.1) eqn:E; [by constructor; [|constructor]|].
  inversion Hs as [|? ? Hl Hx]; subst. constructor; [auto|].
  apply leb_total_false in E.
  destruct l as [|y l]; simpl; [by constructor|].
  inversion Hx; subst.
  by destruct (String.leb kv.1 y.1); constructor.
Qed.

Lemma ksort_sorted {A} (l : list (string * A)) : Sorted kle (ksort l).
Proof. induction l; simpl; [constructor|by apply kinsert_sorted]. Qed.

Lemma ksort_id {A} (l : list (string * A)) : Sorted kle l → ksort l = l.
Proof.
  induction l as [|x l IH]; simpl; [done|]. intros Hs.
  inversion Hs as [|? ? Hl Hx]; subst. rewrite IH by done.
  destruct l as [|y l]; [done|]. inversion Hx as [|? ? Hle]; subst.
  simpl. by rewrite Hle.
Qed.

Lemma kinsert_perm {A} (kv : string * A) l : kinsert kv l ≡ₚ kv :: l.
Proof.
  induction l as [|x l IH]; simpl; [done|].
  destruct (String.leb kv.1 x.1); [done|]. rewrite IH. apply Permutation_swap.
Qed.

Lemma ksort_perm {A} (l : list (string * A)) : ksort l ≡ₚ l.
Proof. induction l as [|x l IH]; simpl; [done|]. by rewrite kinsert_perm, IH. Qed.

(** [json.loads(json.dumps(v, sort_keys=True))] is a fixed point of the same trip. *)
Lemma norm_idem v : norm (norm v) = norm v.
Proof.
  induction v as [| | | | | |l IH|d IH] using json_ind'; try done.
  - simpl. f_equal. rewrite map_map. induction IH; simpl; congruence.
  - rewrite !norm_JObj. f_equal. unfold norm_dict at 1.
    rewrite (map_ext_in _ id).
    + rewrite map_id. apply ksort_id, ksort_sorted.
    + intros [k x] Hin. simpl. f_equal.
      unfold norm_dict in Hin.
      apply (Permutation_in _ (ksort_perm _)) in Hin.
      apply in_map_iff in Hin as ([k' y] & [= -> <-] & Hin). simpl.
      rewrite Forall_forall in IH. apply list_elem_of_In in Hin. by specialize (IH _ Hin).
Qed.

Lemma finite_JObj d : finite (JObj d) = forallb (λ kv, finite kv.2) d.
Proof. simpl. induction d as [|[k x] d IH]; simpl; congruence. Qed.

Lemma finite_norm v : finite (norm v) = finite v.
Proof.
  induction v as [| | | | | |l IH|d IH] using json_ind'; try done.
  - simpl. induction IH; simpl; congruence.
  - rewrite norm_JObj, !finite_JObj. unfold norm_dict.
    apply eq_true_iff_eq. rewrite !forallb_forall. setoid_rewrite ksort_perm.
    rewrite Forall_forall in IH. split.
    + intros H [k x] Hin. pose proof (in_map (λ kv, (kv.1, norm kv.2)) _ _ Hin) as Hm.
      specialize (H _ Hm). simpl in H. apply list_elem_of_In in Hin.
      by rewrite <- (IH _ Hin).
    + intros H [k x] Hin. apply in_map_iff in Hin as ([k' y] & [= -> <-] & Hin).
      simpl. pose proof Hin as Hin'. apply list_elem_of_In in Hin'.
      specialize (IH _ Hin'). simpl in IH. rewrite IH. by specialize (H _ Hin).
Qed.

(** Key order is not observable in the canonical text. *)
Lemma canonical_norm v : canonical (norm v) = canonical v.
Proof. unfold canonical. by rewrite finite_norm, norm_idem. Qed.

(** Every [dict] has distinct keys. *)
Fixpoint json_wf (v : json) : Prop :=
  match v with
  | JList l => (fix go l := match l with [] => True | x :: l' => json_wf x ∧ go l' end) l
  | JObj d =>
      NoDup (keys d) ∧
      (fix go d := match d with [] => True | (_, x) :: d' => json_wf x ∧ go d' end) d
  | _ => True
  end.

Lemma json_wf_JObj d : json_wf (JObj d) ↔ NoDup (keys d) ∧ Forall (λ kv, json_wf kv.2) d.
Proof.
  simpl. apply and_iff_compat_l. induction d as [|[k x] d IH]; simpl.
  - split; [constructor|done].
  - rewrite Forall_cons, IH. done.
Qed.

Lemma dget_Some_In k d x : NoDup (keys d) → dget k d = Some x ↔ (k, x) ∈ d.
Proof.
  induction d as [|[k' y] d IH]; simpl; intros Hnd.
  - split; [done|]. intros H; inversion H.
  - apply NoDup_cons in Hnd as [Hni Hnd]. rewrite elem_of_cons.
    destruct (k =? k') eqn:E.
    + apply String.eqb_eq in E as ->. split; [intros [= ->]; auto|].
      intros [[= ->]|Hin]; [done|]. exfalso. apply Hni.
      apply (list_elem_of_fmap_2 fst _ _ Hin).
    + apply String.eqb_neq in E. rewrite IH by done. naive_solver.
Qed.

Lemma dget_perm k d d' : NoDup (keys d) → d ≡ₚ d' → dget k d = dget k d'.
Proof.
  intros Hnd Hp. assert (NoDup (keys d')) by (unfold keys in *; by rewrite <- Hp).
  apply option_eq. intros x. rewrite !dget_Some_In by done. by rewrite Hp.
Qed.

Lemma dget_map k d : dget k (map (λ kv, (kv.1, norm kv.2)) d) = norm <$> dget k d.
Proof.
  induction d as [|[k' y] d IH]; simpl; [done|]. by destruct (k =? k').
Qed.

Lemma keys_norm_map d : keys (map (λ kv, (kv.1, norm kv.2)) d) = keys d.
Proof. induction d as [|[k y] d IH]; simpl; unfold keys in *; simpl; congruence. Qed.

Lemma keys_norm_dict d : keys (norm_dict d) ≡ₚ keys d.
Proof.
  rewrite <- (keys_norm_map d). unfold norm_dict, keys. by rewrite ksort_perm.
Qed.

Lemma dget_norm_dict k d : NoDup (keys d) → dget k (norm_dict d) = norm <$> dget k d.
Proof.
  intros Hnd. rewrite <- dget_map. symmetry. apply dget_perm.
  - by rewrite keys_norm_map.
  - unfold norm_dict. by rewrite ksort_perm.
Qed.

Lemma fld_norm_dict k d : NoDup (keys d) → fld (norm_dict d) k = norm (fld d k).
Proof. intros Hnd. unfold fld. rewrite dget_norm_dict by done. by destruct (dget k d). Qed.

Lemma keys_match_perm d d' ks : keys d ≡ₚ keys d' → keys_match d ks = keys_match d' ks.
Proof.
  intros Hp. unfold keys_match. f_equal.
  - apply eq_true_iff_eq. rewrite !forallb_forall. by setoid_rewrite Hp.
  - apply eq_true_iff_eq. rewrite !forallb_forall.
    setoid_rewrite elem_str_In. by setoid_rewrite Hp.
Qed.

Lemma norm_is_str v s : is_str (norm v) s = is_str v s.
Proof. by destruct v. Qed.
Lemma norm_num v : num_of (norm v) = num_of v.
Proof. by destruct v. Qed.

Lemma NoDup_keys_dec (d : dict) : bool_decide (NoDup (keys d)) = true → NoDup (keys d).
Proof. apply bool_decide_eq_true_1. Qed.

(** A dictionary display with literal keys has distinct keys. *)
Ltac nodup_keys := apply NoDup_keys_dec; vm_compute; reflexivity.

Lemma json_wf_fld d k : json_wf (JObj d) → json_wf (fld d k).
Proof.
  intros [Hnd Hall]%json_wf_JObj. unfold fld. destruct (dget k d) as [x|] eqn:E; [|done].
  apply dget_Some_In in E; [|done]. rewrite Forall_forall in Hall. by apply Hall in E.
Qed.

(** ** Updating and removing *)

Lemma dget_dset k v d k' : dget k' (dset k v d) = if k' =? k then Some v else dget k' d.
Proof.
  induction d as [|[k0 v0] d IH]; simpl; [done|].
  destruct (k =? k0) eqn:E; simpl.
  - apply String.eqb_eq in E as ->. by destruct (k' =? k0).
  - rewrite IH. destruct (k' =? k0) eqn:E'; [|done].
    apply String.eqb_eq in E' as ->. by rewrite String.eqb_sym, E.
Qed.

Lemma fld_dset k v d k' : fld (dset k v d) k' = if k' =? k then v else fld d k'.
Proof. unfold fld. rewrite dget_dset. by destruct (k' =? k). Qed.

Lemma keys_dset k v d : k ∈ keys d → keys (dset k v d) = keys d.
Proof.
  induction d as [|[k0 v0] d IH]; [by intros ?%elem_of_nil|].
  cbn [keys fmap list_fmap fst dset]. rewrite elem_of_cons. intros Hin.
  destruct (k =? k0) eqn:E; [done|]. apply String.eqb_neq in E.
  cbn. f_equal. apply IH. tauto.
Qed.

Lemma dget_In_keys k d : k ∈ keys d ↔ is_Some (dget k d).
Proof.
  induction d as [|[k0 v0] d IH]; simpl.
  - split; [by intros ?%elem_of_nil|by intros [? ?]].
  - rewrite elem_of_cons, IH. destruct (k =? k0) eqn:E.
    + apply String.eqb_eq in E. split; eauto.
    + apply String.eqb_neq in E. naive_solver.
Qed.

Lemma fld_not_key k d : k ∉ keys d → fld d k = JNull.
Proof.
  intros Hk. unfold fld. destruct (dget k d) eqn:E; [|done].
  exfalso. apply Hk, dget_In_keys. eauto.
Qed.

Lemma dget_app k d1 d2 : dget k (d1 ++ d2)%list = match dget k d1 with Some v => Some v | None => dget k d2 end.
Proof. induction d1 as [|[k0 v0] d1 IH]; simpl; [done|]. by destruct (k =? k0). Qed.

Lemma dget_dremove k d k' : dget k' (dremove k d) = if k' =? k then None else dget k' d.
Proof.
  unfold dremove. induction d as [|[k0 v0] d IH]; cbn [dget].
  - rewrite filter_nil. by destruct (k' =? k).
  - destruct (decide (k0 = k)) as [->|Hne].
    + rewrite filter_cons_False by (simpl; tauto). rewrite IH.
      by destruct (k' =? k).
    + rewrite filter_cons_True by done. cbn [dget]. rewrite IH.
      destruct (k' =? k0) eqn:E; [|done]. apply String.eqb_eq in E as ->.
      apply String.eqb_neq in Hne. by rewrite Hne.
Qed.

Lemma fld_dremove k d k' : fld (dremove k d) k' = if k' =? k then JNull else fld d k'.
Proof. unfold fld. rewrite dget_dremove. by destruct (k' =? k). Qed.

Lemma dremove_dset k v d : dremove k (dset k v d) = dremove k d.
Proof.
  unfold dremove. induction d as [|[k0 v0] d IH]; cbn [dset].
  - rewrite filter_cons_False by (simpl; tauto). by rewrite filter_nil.
  - destruct (k =? k0) eqn:E.
    + apply String.eqb_eq in E as ->. by rewrite !filter_cons_False by (simpl; tauto).
    + apply String.eqb_neq in E. rewrite !filter_cons_True by (simpl; congruence).
      by rewrite IH.
Qed.

Lemma keys_match_In d ks k : keys_match d ks = true → In k (keys d) ↔ In k ks.
Proof.
  unfold keys_match. intros [H1 H2]%andb_true_iff. rewrite forallb_forall in H1, H2.
  split; intros Hin; [apply H1 in Hin|apply H2 in Hin]; by apply elem_str_In.
Qed.

#[export] Instance kle_trans {A} : Transitive (@kle A).
Proof.
  intros x y z. unfold kle. intros Hxy Hyz.
  pose proof (transitivity (R := String.le) (x := x.1) (y := y.1) (z := z.1)) as Ht.
  unfold String.le in Ht. rewrite Hxy, Hyz in Ht. by destruct (String.leb x.1 z.1); [|exfalso; apply Ht].
Qed.

Lemma kinsert_filter_in {A} (q : string * A → Prop) `{∀ x, Decision (q x)} kv l :
  StronglySorted kle l → q kv → filter q (kinsert kv l) = kinsert kv (filter q l).
Proof.
  intros Hs Hq. induction Hs as [|x l Hs IH Hx]; simpl.
  - by rewrite filter_cons_True.
  - destruct (String.leb kv.1 x.1) eqn:E.
    + rewrite filter_cons_True by done.
      destruct (filter q (x :: l)) as [|y l'] eqn:Ef; [done|]. cbn [kinsert].
      assert (Hy : y ∈ x :: l).
      { apply (list_elem_of_filter q). rewrite Ef. left. }
      assert (Hle : String.leb kv.1 y.1 = true).
      { apply elem_of_cons in Hy as [->|Hy]; [done|].
        rewrite Forall_forall in Hx. by apply (kle_trans kv x y E), Hx. }
      by rewrite Hle.
    + destruct (decide (q x)).
      * rewrite !filter_cons_True by done. cbn [kinsert]. rewrite E. by f_equal.
      * by rewrite !filter_cons_False by done.
Qed.

Lemma kinsert_filter_out {A} (q : string * A → Prop) `{∀ x, Decision (q x)} kv l :
  ¬ q kv → filter q (kinsert kv l) = filter q l.
Proof.
  intros Hq. induction l as [|x l IH]; simpl; [by rewrite filter_cons_False|].
  destruct (String.leb kv.1 x.1); [by rewrite filter_cons_False|].
  destruct (decide (q x)); [rewrite !filter_cons_True by done|rewrite !filter_cons_False by done];
    by rewrite ?IH.
Qed.

Lemma ksort_filter {A} (q : string * A → Prop) `{∀ x, Decision (q x)} l :
  filter q (ksort l) = ksort (filter q l).
Proof.
  induction l as [|x l IH]; simpl; [done|].
  assert (Hs : StronglySorted kle (ksort l)).
  { apply Sorted_StronglySorted; [apply _|apply ksort_sorted]. }
  destruct (decide (q x)).
  - rewrite kinsert_filter_in, filter_cons_True by done. cbn. by rewrite IH.
  - rewrite kinsert_filter_out, filter_cons_False by done. done.
Qed.

Lemma dremove_norm k d : dremove k (norm_dict d) = norm_dict (dremove k d).
Proof.
  unfold dremove, norm_dict. rewrite ksort_filter. f_equal.
  induction d as [|[k0 v0] d IH]; [done|]. cbn [map].
  destruct (decide (k0 = k)).
  - by rewrite !filter_cons_False by (simpl; tauto).
  - rewrite !filter_cons_True by done. cbn. by f_equal.
Qed.

(** The digest input of a signed record does not depend on the order of its keys. *)
Lemma canonical_dremove_norm k d :
  canonical (JObj (dremove k (norm_dict d))) = canonical (JObj (dremove k d)).
Proof. by rewrite dremove_norm, <- norm_JObj, canonical_norm. Qed.

Lemma json_wf_norm v : json_wf v → json_wf (norm v).
Proof.
  induction v as [| | | | | |l IH|d IH] using json_ind'; try done.
  - simpl. induction IH as [|x l Hx Hl IHl]; simpl; [done|].
    intros [H1 H2]. split; [by apply Hx|by apply IHl].
  - rewrite norm_JObj, !json_wf_JObj. intros [Hnd Hall]. split; [by rewrite keys_norm_dict|].
    unfold norm_dict. rewrite ksort_perm. rewrite Forall_forall in IH, Hall.
    apply Forall_forall. intros kv (kv' & -> & Hin)%list_elem_of_fmap. simpl. auto.
Qed.
