(* ===== verification/JsonSize.v ===== *)
(** * Length of printed JSON

    Upper bounds on the text [json.dumps] produces: six bytes per byte of a
    string, one digit per bit of a number, and the sum over the members of an
    object.  They discharge the size checks of the durable files. *)

From stdpp Require Import base list strings.
From Stdlib Require Import ZArith Lia Ascii DecimalString DecimalFacts Decimal.
From S2P Require Import Prelude PyStr Json.
Open Scope string_scope.

(** ** Strings *)

Lemma u_escape_length n : String.length (u_escape n) = 6.
Proof. done. Qed.

Lemma escape_ascii_length c : (String.length (escape_ascii c) ≤ 6)%nat.
Proof. unfold escape_ascii. repeat (case_match; [cbn; lia|]). cbn. lia. Qed.

Lemma escape_code_point_length n : (String.length (escape_code_point n) ≤ 12)%nat.
Proof.
  unfold escape_code_point. destruct (_ <? _)%N; [rewrite u_escape_length; lia|].
  rewrite str_length_app, !u_escape_length. lia.
Qed.

Lemma escape_length_fuel k s :
  (String.length s ≤ k)%nat → (String.length (escape s) ≤ 6 * String.length s)%nat.
Proof.
  revert s. induction k as [|k IH]; intros s Hs; [destruct s; simpl in *; lia|].
  destruct s as [|a s1]; [simpl; lia|]. cbn [escape String.length] in *.
  destruct (_ <? 128)%N.
  { rewrite str_length_app. pose proof (escape_ascii_length a). pose proof (IH s1). lia. }
  destruct s1 as [|b s2]; [simpl; lia|]. cbn [String.length] in *.
  destruct (_ <? 224)%N.
  { rewrite str_length_app. pose proof (IH s2).
    match goal with |- context [escape_code_point ?n] => pose proof (escape_code_point_length n) end. lia. }
  destruct s2 as [|c s3]; [simpl; lia|]. cbn [String.length] in *.
  destruct (_ <? 240)%N.
  { rewrite str_length_app. pose proof (IH s3).
    match goal with |- context [escape_code_point ?n] => pose proof (escape_code_point_length n) end. lia. }
  destruct s3 as [|e s4]; [simpl; lia|]. cbn [String.length] in *.
  rewrite str_length_app. pose proof (IH s4).
  match goal with |- context [escape_code_point ?n] => pose proof (escape_code_point_length n) end. lia.
Qed.

Lemma quoted_length s : (String.length (quoted s) ≤ 6 * String.length s + 2)%nat.
Proof.
  unfold quoted. cbn [String.length]. rewrite str_length_app. cbn [String.length].
  pose proof (escape_length_fuel (String.length s) s). lia.
Qed.

(** ** Integers *)

Lemma little_double_digits d :
  (nb_digits (Little.double d) ≤ S (nb_digits d) ∧ nb_digits (Little.succ_double d) ≤ S (nb_digits d))%nat.
Proof. induction d; simpl; lia. Qed.

Lemma little_digits p : (nb_digits (Pos.to_little_uint p) ≤ Pos.size_nat p)%nat.
Proof.
  induction p as [p IH|p IH|]; simpl; [| |lia];
    pose proof (little_double_digits (Pos.to_little_uint p)); lia.
Qed.

Lemma string_of_uint_length d : String.length (NilEmpty.string_of_uint d) = nb_digits d.
Proof. induction d; simpl; congruence. Qed.

Lemma nilzero_length d : (String.length (NilZero.string_of_uint d) ≤ S (nb_digits d))%nat.
Proof.
  unfold NilZero.string_of_uint. destruct d; [simpl; lia|..]; rewrite string_of_uint_length; lia.
Qed.

Lemma str_of_Z_length z : (String.length (str_of_Z z) ≤ Pos.size_nat (Z.to_pos (Z.abs z)) + 2)%nat.
Proof.
  assert (Hp : ∀ p, (nb_digits (Pos.to_uint p) ≤ Pos.size_nat p)%nat).
  { intros p. unfold Pos.to_uint. rewrite nb_digits_rev. apply little_digits. }
  unfold str_of_Z. destruct z as [|p|p].
  - simpl. lia.
  - change (String.length (NilZero.string_of_uint (Pos.to_uint p)) ≤ Pos.size_nat p + 2)%nat.
    pose proof (nilzero_length (Pos.to_uint p)). specialize (Hp p). lia.
  - change (S (String.length (NilZero.string_of_uint (Pos.to_uint p))) ≤ Pos.size_nat p + 2)%nat.
    pose proof (nilzero_length (Pos.to_uint p)). specialize (Hp p). lia.
Qed.

Lemma size_nat_bound p k : (Z.pos p < 2 ^ Z.of_nat k)%Z → (Pos.size_nat p ≤ k)%nat.
Proof.
  revert k. induction p as [p IH|p IH|]; intros k Hk; destruct k as [|k];
    try (simpl in Hk; lia); cbn [Pos.size_nat].
  - apply le_n_S, IH. rewrite Nat2Z.inj_succ, Z.pow_succ_r in Hk by lia. lia.
  - apply le_n_S, IH. rewrite Nat2Z.inj_succ, Z.pow_succ_r in Hk by lia. lia.
  - lia.
Qed.

Lemma str_of_Z_bound z k :
  (0 ≤ z < 2 ^ Z.of_nat (S k))%Z → (String.length (str_of_Z z) ≤ k + 3)%nat.
Proof.
  intros Hz. pose proof (str_of_Z_length z) as Hl. rewrite Z.abs_eq in Hl by lia.
  destruct z as [|p|p]; [|pose proof (size_nat_bound p (S k) ltac:(lia))|lia]; simpl in *; lia.
Qed.

(** ** Objects *)

Lemma list_sum_cons a l : list_sum (a :: l) = (a + list_sum l)%nat.
Proof. done. Qed.

Lemma concat_length sep l :
  (String.length (String.concat sep l)
   ≤ list_sum (map (λ x, String.length x + String.length sep) l))%nat.
Proof.
  induction l as [|x l IH]; [simpl; lia|]. cbn [map].
  destruct l as [|y l].
  - simpl. lia.
  - change (String.concat sep (x :: y :: l)) with (x ++ sep ++ String.concat sep (y :: l)).
    rewrite !str_length_app, list_sum_cons. lia.
Qed.

Definition member_size (kv : string * json) : nat :=
  6 * String.length kv.1 + 4 + String.length (render (norm kv.2)).

Lemma list_sum_perm (l1 l2 : list nat) : l1 ≡ₚ l2 → list_sum l1 = list_sum l2.
Proof. induction 1; simpl; lia. Qed.

Lemma render_obj_length d :
  (String.length (render (JObj d))
   ≤ 2 + list_sum (map (λ kv, 6 * String.length kv.1 + 4 + String.length (render kv.2)) d))%nat.
Proof.
  cbn [render]. rewrite !str_length_app. cbn [String.length].
  match goal with |- context [String.concat "," ?l] => pose proof (concat_length "," l) as Hc end.
  etransitivity; [apply Nat.add_le_mono_l, Nat.add_le_mono_r, Hc|]. clear Hc.
  change (String.length ",") with 1%nat. induction d as [|[k x] d IH]; [simpl; lia|]. cbn [map fst snd].
  rewrite !list_sum_cons, !str_length_app. cbn [String.length]. pose proof (quoted_length k). lia.
Qed.

(** The canonical text of an object is at most the sum of its members. *)
Lemma render_norm_obj_length d :
  (String.length (render (norm (JObj d))) ≤ 2 + list_sum (map member_size d))%nat.
Proof.
  rewrite norm_JObj. etransitivity; [apply render_obj_length|]. apply Nat.add_le_mono_l.
  apply Nat.eq_le_incl, eq_sym. unfold norm_dict.
  transitivity (list_sum (map (λ kv : string * json,
     6 * String.length kv.1 + 4 + String.length (render kv.2))%nat
     (map (λ kv, (kv.1, norm kv.2)) d))).
  - rewrite map_map. done.
  - apply list_sum_perm. apply Permutation_map. symmetry. apply ksort_perm.
Qed.

Lemma list_sum_bound (l : list nat) b :
  Forall (λ n, n ≤ b)%nat l → (list_sum l ≤ length l * b)%nat.
Proof. induction 1; simpl; lia. Qed.
