(* ===== verification/Digest.v ===== *)
(** * [hashlib.sha256(...).hexdigest()]

    The modules hash canonical JSON; what their correctness needs of the hash
    is the [Digest] interface, a function into 64 lowercase hex digits.
    [Sha256.digest] discharges it with SHA-256 itself, on 32-bit words held as
    [N] with the wrap-around written out.  [checksum_digest] is a second, cheap
    implementation, used where a theorem is evaluated on a long run. *)

From stdpp Require Import base list strings.
From Stdlib Require Import ZArith NArith Lia Ascii.
From S2P Require Import Prelude PyStr Json.
Open Scope string_scope.

Class Digest := {
  hexdigest : string → string;
  hexdigest_re : ∀ b, sha256_re (hexdigest b) = true
}.

(** [json_sha256] on the canonical text, [None] where [canonical] raises. *)
Definition json_digest `{Digest} (v : json) : option string := hexdigest <$> canonical v.

Lemma json_digest_norm `{Digest} v : json_digest (norm v) = json_digest v.
Proof. unfold json_digest. by rewrite canonical_norm. Qed.

Lemma json_digest_re `{Digest} v h : json_digest v = Some h → sha256_re h = true.
Proof. unfold json_digest. intros (c & _ & ->)%fmap_Some. apply hexdigest_re. Qed.

(** ** Hexadecimal words *)

Definition hex8 (n : N) : string := hex4 (N.shiftr n 16) ++ hex4 n.

Lemma hexdigit_is_hex n : (n < 16)%N → is_hex (hexdigit n) = true.
Proof.
  intros Hn. rewrite <- (N2Nat.id n). assert (Hk : N.to_nat n < 16) by lia.
  revert Hk. generalize (N.to_nat n); clear n Hn; intros k Hk.
  do 16 (destruct k as [|k]; [reflexivity|]). lia.
Qed.

Lemma land15 n : (N.land n 15 < 16)%N.
Proof. change 15%N with (N.ones 4). rewrite N.land_ones. apply N.mod_lt. lia. Qed.

Lemma hex4_hex n : all_chars is_hex (hex4 n) = true.
Proof. simpl. by rewrite !hexdigit_is_hex by apply land15. Qed.

Lemma hex8_hex n : all_chars is_hex (hex8 n) = true.
Proof. unfold hex8. by rewrite all_chars_app, !hex4_hex. Qed.

(** Eight words print as a well-formed digest. *)
Lemma hex_words_re a b c d e f g h :
  sha256_re (String.concat "" (map hex8 [a; b; c; d; e; f; g; h])) = true.
Proof.
  unfold sha256_re. cbn [map String.concat].
  rewrite !all_chars_app, !hex8_hex. cbn [all_chars]. rewrite !str_length_app. reflexivity.
Qed.

Module Sha256.
Definition w32 (n : N) : N := N.land n 4294967295.
Definition add32 (a b : N) : N := w32 (a + b).
Definition rotr (k n : N) : N := N.lor (N.shiftr n k) (w32 (N.shiftl n (32 - k))).
Definition not32 (n : N) : N := N.lxor n 4294967295.

Definition bsig0 x := N.lxor (rotr 2 x) (N.lxor (rotr 13 x) (rotr 22 x)).
Definition bsig1 x := N.lxor (rotr 6 x) (N.lxor (rotr 11 x) (rotr 25 x)).
Definition ssig0 x := N.lxor (rotr 7 x) (N.lxor (rotr 18 x) (N.shiftr x 3)).
Definition ssig1 x := N.lxor (rotr 17 x) (N.lxor (rotr 19 x) (N.shiftr x 10)).
Definition ch x y z := N.lxor (N.land x y) (N.land (not32 x) z).
Definition maj x y z := N.lxor (N.land x y) (N.lxor (N.land x z) (N.land y z)).

(** The constants come from the first 64 primes: the first 32 fractional bits of
    their cube roots (round constants) and of the square roots of the first
    eight (initial state). *)
Definition is_prime (n : nat) : bool :=
  ((2 <=? n) && forallb (λ d, negb (n mod d =? 0)) (seq 2 (n - 2)))%nat.

Definition primes : list N :=
  Eval vm_compute in map N.of_nat (List.filter is_prime (seq 2 310)).

(** Integer cube root, one bit at a time from bit [k] down. *)
Fixpoint cbrt_bits (k : nat) (n r : N) : N :=
  match k with
  | O => r
  | S k' =>
      let r' := N.lor r (N.shiftl 1 (N.of_nat k')) in
      cbrt_bits k' n (if (r' * r' * r' <=? n)%N then r' else r)
  end.

Definition K : list N :=
  Eval vm_compute in map (λ p, w32 (cbrt_bits 36 (N.shiftl p 96) 0)) primes.

Record words := W8 { wa : N; wb : N; wc : N; wd : N; we : N; wf : N; wg : N; wh : N }.

Definition H0 : words :=
  Eval vm_compute in
    let h i := w32 (N.sqrt (N.shiftl (nth i primes 0%N) 64)) in
    W8 (h 0) (h 1) (h 2) (h 3) (h 4) (h 5) (h 6) (h 7).

Definition round (s : words) (kw : N * N) : words :=
  let t1 := add32 (wh s) (add32 (bsig1 (we s)) (add32 (ch (we s) (wf s) (wg s)) (add32 kw.1 kw.2))) in
  let t2 := add32 (bsig0 (wa s)) (maj (wa s) (wb s) (wc s)) in
  W8 (add32 t1 t2) (wa s) (wb s) (wc s) (add32 (wd s) t1) (we s) (wf s) (wg s).

(** The message schedule, newest word first. *)
Fixpoint schedule (n : nat) (ws : list N) : list N :=
  match n with
  | O => ws
  | S n' =>
      let w i := nth i ws 0%N in
      schedule n' (add32 (ssig1 (w 1)) (add32 (w 6) (add32 (ssig0 (w 14)) (w 15))) :: ws)
  end.

Definition compress (s : words) (block : list N) : words :=
  let r := foldl round s (zip K (reverse (schedule 48 (reverse block)))) in
  W8 (add32 (wa s) (wa r)) (add32 (wb s) (wb r)) (add32 (wc s) (wc r)) (add32 (wd s) (wd r))
     (add32 (we s) (we r)) (add32 (wf s) (wf r)) (add32 (wg s) (wg r)) (add32 (wh s) (wh r)).

Fixpoint bytes_of (s : string) : list N :=
  match s with "" => [] | String c s' => N_of_ascii c :: bytes_of s' end.

Definition be_bytes (k : nat) (n : N) : list N :=
  map (λ i, N.land (N.shiftr n (8 * N.of_nat (k - 1 - i))) 255) (seq 0 k).

Definition pad (m : list N) : list N :=
  m ++ [128%N] ++ replicate ((119 - length m mod 64) mod 64) 0%N
    ++ be_bytes 8 (8 * N.of_nat (length m)).

Fixpoint to_words (l : list N) : list N :=
  match l with
  | a :: b :: c :: d :: l' =>
      N.lor (N.shiftl a 24) (N.lor (N.shiftl b 16) (N.lor (N.shiftl c 8) d)) :: to_words l'
  | _ => []
  end.

Fixpoint run (fuel : nat) (s : words) (ws : list N) : words :=
  match fuel with
  | O => s
  | S f => match ws with [] => s | _ => run f (compress s (firstn 16 ws)) (skipn 16 ws) end
  end.

Definition sha256 (m : string) : string :=
  let ws := to_words (pad (bytes_of m)) in
  let s := run (length ws) H0 ws in
  String.concat "" (map hex8 [wa s; wb s; wc s; wd s; we s; wf s; wg s; wh s]).

#[export] Program Instance digest : Digest := {| hexdigest := sha256 |}.
Next Obligation. intros b. apply hex_words_re. Qed.

(** The FIPS 180-4 test vectors of one and of two blocks. *)
Example sha256_abc :
  sha256 "abc" = "ba7816bf8f01cfea414140de5dae2223b00361a396177a9cb410ff61f20015ad".
Proof. vm_compute. reflexivity. Qed.

Example sha256_two_blocks :
  sha256 "abcdbcdecdefdefgefghfghighijhijkijkljklmklmnlmnomnopnopq"
  = "248d6a61d20638b8e5c026930c3e6039a33ce45964ff2167f6ecedd419db06c1".
Proof. vm_compute. reflexivity. Qed.
End Sha256.

(** ** A cheap digest for evaluation *)

Fixpoint checksum (acc : N) (s : string) : N :=
  match s with
  | "" => acc
  | String c s' => checksum (N.land (acc * 31 + N_of_ascii c) 4294967295) s'
  end.

Definition checksum_hex (m : string) : string :=
  String.concat "" (map hex8 [checksum 7 m; 0; 0; 0; 0; 0; 0; N.of_nat (String.length m)]%N).

Program Definition checksum_digest : Digest := {| hexdigest := checksum_hex |}.
Next Obligation. intros b. apply hex_words_re. Qed.
