(* ===== verification/Bytes.v ===== *)
(** * Byte strings: little-endian fields, CRC-32 and HMAC

    What the wire codecs use of [struct], [zlib.crc32] (also [binascii.crc32])
    and [hmac.digest].  Bytes are [string]s; integers are [Z], the CRC register
    is a 32-bit [N].  The CRC is the bitwise definition of the polynomial
    0xEDB88320; HMAC is RFC 2104 over the [Digest] interface. *)

From stdpp Require Import base list strings.
From Stdlib Require Import ZArith NArith Lia Ascii.
From S2P Require Import Prelude PyStr Json Digest.
Open Scope string_scope.

(** ** Slices: [s[:n]] and [s[n:]] *)

Fixpoint stake (n : nat) (s : string) : string :=
  match n, s with
  | S n', String c s' => String c (stake n' s')
  | _, _ => ""
  end.
Fixpoint sdrop (n : nat) (s : string) : string :=
  match n, s with
  | S n', String _ s' => sdrop n' s'
  | O, _ => s
  | _, "" => ""
  end.

Lemma stake_sdrop n s : stake n s ++ sdrop n s = s.
Proof. revert s; induction n as [|n IH]; intros [|c s]; cbn; [done..|]. by rewrite IH. Qed.

Lemma stake_stake n s : stake n (stake n s) = stake n s.
Proof. revert s; induction n as [|n IH]; intros [|c s]; cbn; [done..|]. by rewrite IH. Qed.
Lemma stake_app n a b : String.length a = n → stake n (a ++ b) = a.
Proof.
  intros <-. induction a as [|c a IH]; cbn; [by destruct b|]. by rewrite IH.
Qed.
Lemma sdrop_app n a b : String.length a = n → sdrop n (a ++ b) = b.
Proof. intros <-. induction a as [|c a IH]; cbn; [by destruct b|done]. Qed.

Lemma stake_length n s : (n ≤ String.length s)%nat → String.length (stake n s) = n.
Proof. revert s; induction n as [|n IH]; intros [|c s]; cbn; [lia..|]. intros Hn. rewrite IH; lia. Qed.
Lemma stake_length_le n s : (String.length (stake n s) ≤ n)%nat.
Proof. revert s; induction n as [|n IH]; intros [|c s]; cbn; [lia..|]. pose proof (IH s). lia. Qed.
Lemma sdrop_length n s : String.length (sdrop n s) = (String.length s - n)%nat.
Proof. revert s; induction n as [|n IH]; intros [|c s]; cbn; auto. Qed.

Lemma sdrop_plus a b s : sdrop (a + b) s = sdrop b (sdrop a s).
Proof. revert s; induction a as [|a IH]; intros [|c s]; cbn; [done..|by destruct b|done]. Qed.

Lemma stake_all n s : (String.length s ≤ n)%nat → stake n s = s.
Proof. revert s; induction n as [|n IH]; intros [|c s]; cbn; [done|lia|done|]. intros ?. rewrite IH; [done|lia]. Qed.

Lemma app_split (a b c d : string) :
  String.length a = String.length c → a ++ b = c ++ d → a = c ∧ b = d.
Proof.
  revert c; induction a as [|x a IH]; intros [|y c]; cbn; [by intros|lia|lia|].
  intros [= Hl] [= -> He]. destruct (IH c Hl He) as [-> ->]. done.
Qed.

(** Two ways to cut one string *)
Lemma app_cut (a b c d : string) :
  (String.length a ≤ String.length c)%nat → a ++ b = c ++ d → ∃ m, c = a ++ m ∧ b = m ++ d.
Proof.
  revert c; induction a as [|x a IH]; intros c Hl He; [by exists c|].
  destruct c as [|y c]; cbn in *; [lia|]. injection He as -> He.
  destruct (IH c) as (m & -> & ->); [lia|done|]. by exists m.
Qed.

Lemma length_cons c s : String.length (String c s) = S (String.length s).
Proof. done. Qed.

(** ** Little-endian integers *)

Definition byte_of (z : Z) : ascii := ascii_of_N (Z.to_N (z mod 256)).
Definition of_byte (c : ascii) : Z := Z.of_N (N_of_ascii c).

(** [struct.pack('<I', z)] is [le 4 z], ['<H'] is [le 2 z] and ['<Q'] is [le 8 z]. *)
Fixpoint le (n : nat) (z : Z) : string :=
  match n with O => "" | S n' => String (byte_of z) (le n' (z / 256)) end.
Fixpoint unle (s : string) : Z :=
  match s with "" => 0 | String c s' => of_byte c + 256 * unle s' end.

(** ['<i']: the signed reading of four bytes *)
Definition signed32 (z : Z) : Z := if (z <? 2147483648)%Z then z else (z - 4294967296)%Z.

(** [struct.unpack('<kI', s)] *)
Fixpoint words32 (k : nat) (s : string) : list Z :=
  match k with O => [] | S k' => unle (stake 4 s) :: words32 k' (sdrop 4 s) end.
Fixpoint unwords32 (l : list Z) : string :=
  match l with [] => "" | z :: l' => le 4 z ++ unwords32 l' end.

Lemma of_byte_range c : (0 ≤ of_byte c < 256)%Z.
Proof. unfold of_byte. pose proof (N_ascii_bounded c). lia. Qed.
Lemma of_byte_of z : of_byte (byte_of z) = (z mod 256)%Z.
Proof.
  pose proof (Z.mod_pos_bound z 256 ltac:(lia)) as Hz.
  unfold of_byte, byte_of. rewrite N_ascii_embedding by lia. rewrite Z2N.id; lia.
Qed.
Lemma byte_of_of c : byte_of (of_byte c) = c.
Proof.
  pose proof (of_byte_range c) as Hc. unfold byte_of. rewrite Z.mod_small by lia.
  unfold of_byte. rewrite N2Z.id. apply ascii_N_embedding.
Qed.

Lemma le_length n z : String.length (le n z) = n.
Proof. revert z; induction n as [|n IH]; intros z; cbn; [done|]. by rewrite IH. Qed.

Lemma unle_range s : (0 ≤ unle s < 256 ^ Z.of_nat (String.length s))%Z.
Proof.
  induction s as [|c s IH]; cbn [unle String.length]; [cbn; lia|].
  rewrite Nat2Z.inj_succ, Z.pow_succ_r by lia. pose proof (of_byte_range c). lia.
Qed.

Lemma unle_le n z : unle (le n z) = (z mod 256 ^ Z.of_nat n)%Z.
Proof.
  revert z; induction n as [|n IH]; intros z; cbn [le unle]; [by rewrite Z.mod_1_r|].
  rewrite IH, of_byte_of, Nat2Z.inj_succ, Z.pow_succ_r by lia.
  pose proof (Z.pow_pos_nonneg 256 (Z.of_nat n) ltac:(lia) ltac:(lia)). rewrite Z.rem_mul_r by lia. lia.
Qed.

Lemma le_unle n s : String.length s = n → le n (unle s) = s.
Proof.
  intros <-. induction s as [|c s IH]; cbn [unle String.length le]; [done|].
  pose proof (of_byte_range c) as Hc.
  replace ((of_byte c + 256 * unle s) / 256)%Z with (unle s)
    by (rewrite Z.mul_comm, Z.div_add, Z.div_small by lia; lia).
  rewrite IH. f_equal. rewrite <- (byte_of_of c) at 2. unfold byte_of. do 2 f_equal.
  rewrite Z.mul_comm, Z.mod_add by lia. done.
Qed.

Lemma unle_le_small n z : (0 ≤ z < 256 ^ Z.of_nat n)%Z → unle (le n z) = z.
Proof. intros Hz. rewrite unle_le. by apply Z.mod_small. Qed.

Lemma unle_inj a b : String.length a = String.length b → unle a = unle b → a = b.
Proof.
  intros Hl He. rewrite <- (le_unle (String.length a) a) by done.
  rewrite He, Hl. by apply le_unle.
Qed.

Lemma words32_length k s : length (words32 k s) = k.
Proof. revert s; induction k as [|k IH]; intros s; cbn; [done|]. by rewrite IH. Qed.

Lemma words32_range k s z : z ∈ words32 k s → (0 ≤ z < 4294967296)%Z.
Proof.
  revert s; induction k as [|k IH]; intros s; cbn [words32]; [by intros ?%elem_of_nil|].
  intros [->|Hin]%elem_of_cons; [|by eapply IH].
  pose proof (unle_range (stake 4 s)) as Hr.
  assert (Hl : (String.length (stake 4 s) ≤ 4)%nat).
  { clear. do 4 (destruct s as [|? s]; [cbn; lia|]). cbn. lia. }
  pose proof (Z.pow_le_mono_r 256 (Z.of_nat (String.length (stake 4 s))) 4 ltac:(lia) ltac:(lia)) as Hp.
  change (256 ^ 4)%Z with 4294967296%Z in Hp. lia.
Qed.

Lemma words32_unwords l rest :
  Forall (λ z, 0 ≤ z < 4294967296)%Z l → words32 (length l) (unwords32 l ++ rest) = l.
Proof.
  induction 1 as [|z l Hz _ IH]; cbn [length words32 unwords32]; [done|].
  rewrite <- str_app_assoc. rewrite stake_app, sdrop_app by apply le_length.
  rewrite IH, unle_le_small by (cbn; lia). done.
Qed.

(** ** CRC-32 *)

Definition CRC_POLY : N := 3988292384.   (* 0xEDB88320 *)
Definition CRC_ONES : N := 4294967295.   (* 0xFFFFFFFF *)

Definition crc_bit (c : N) : N :=
  if N.odd c then N.lxor (N.shiftr c 1) CRC_POLY else N.shiftr c 1.
Definition crc_byte (c : N) (b : ascii) : N := Nat.iter 8 crc_bit (N.lxor c (N_of_ascii b)).
Fixpoint crc_run (c : N) (s : string) : N :=
  match s with "" => c | String b s' => crc_run (crc_byte c b) s' end.

(** [zlib.crc32(s, start)] *)
Definition crc32_from (start : N) (s : string) : N :=
  N.lxor (crc_run (N.lxor start CRC_ONES) s) CRC_ONES.
Definition crc32 (s : string) : N := crc32_from 0 s.

Example crc32_check : crc32 "123456789" = 3421780262%N.   (* 0xCBF43926 *)
Proof. vm_compute. reflexivity. Qed.

Lemma crc_run_app c a b : crc_run c (a ++ b) = crc_run (crc_run c a) b.
Proof. revert c; induction a as [|x a IH]; intros c; cbn; [done|]. apply IH. Qed.

Lemma crc32_app a b : crc32_from (crc32 a) b = crc32 (a ++ b).
Proof.
  unfold crc32, crc32_from. rewrite crc_run_app, N.lxor_assoc, N.lxor_nilpotent, N.lxor_0_r. done.
Qed.

(** *** Burst errors *)

(** The registers are the 32-bit words. *)
Definition word32 (c : N) : Prop := (c < 4294967296)%N.

Lemma word32_bits c : word32 c ↔ ∀ i, (32 ≤ i)%N → N.testbit c i = false.
Proof.
  change (word32 c) with (c < 2 ^ 32)%N. split.
  - intros Hc i Hi. destruct (decide (c = 0%N)) as [->|Hz]; [apply N.bits_0|].
    apply N.bits_above_log2. apply N.log2_lt_pow2 in Hc; lia.
  - intros Hb. rewrite <- (N.land_ones_low c 32); [rewrite N.land_ones; by apply N.mod_lt|].
    destruct (decide (c = 0%N)) as [->|Hz]; [cbn; lia|].
    apply N.nle_gt. intros Hge. specialize (Hb (N.log2 c) Hge). by rewrite N.bit_log2 in Hb.
Qed.

Lemma crc_bit_word c : word32 c → word32 (crc_bit c).
Proof.
  rewrite !word32_bits. intros Hc i Hi. unfold crc_bit.
  assert (Hs : N.testbit (N.shiftr c 1) i = false) by (rewrite N.shiftr_spec'; apply Hc; lia).
  destruct (N.odd c); [|done]. rewrite N.lxor_spec, Hs.
  cut (N.testbit CRC_POLY i = false); [by intros ->|]. by apply word32_bits.
Qed.

(** The bit shifted out comes back as bit 31. *)
Lemma crc_bit_31 c : word32 c → N.testbit (crc_bit c) 31 = N.odd c.
Proof.
  rewrite word32_bits. intros Hc. unfold crc_bit.
  assert (Hs : N.testbit (N.shiftr c 1) 31 = false) by (rewrite N.shiftr_spec'; apply Hc; lia).
  destruct (N.odd c); [|done]. by rewrite N.lxor_spec, Hs.
Qed.

Lemma crc_bit_inj a b : word32 a → word32 b → crc_bit a = crc_bit b → a = b.
Proof.
  intros Ha Hb He. assert (Ho : N.odd a = N.odd b) by (rewrite <- !crc_bit_31 by done; by rewrite He).
  assert (Hs : N.shiftr a 1 = N.shiftr b 1).
  { unfold crc_bit in He. rewrite Ho in He. destruct (N.odd b); [|done].
    apply (f_equal (λ x, N.lxor x CRC_POLY)) in He.
    by rewrite !N.lxor_assoc, N.lxor_nilpotent, !N.lxor_0_r in He. }
  rewrite <- !N.div2_spec in Hs.
  rewrite (N.div2_odd a), (N.div2_odd b), Hs, Ho. done.
Qed.

Lemma crc_bits_word n c : word32 c → word32 (Nat.iter n crc_bit c).
Proof. intros Hc. induction n as [|n IH]; [done|]. by apply crc_bit_word. Qed.
Lemma crc_bits_inj n a b :
  word32 a → word32 b → Nat.iter n crc_bit a = Nat.iter n crc_bit b → a = b.
Proof.
  intros Ha Hb. induction n as [|n IH]; [done|]. intros He. apply IH.
  apply crc_bit_inj; [by apply crc_bits_word..|done].
Qed.

Lemma lxor_word a b : word32 a → word32 b → word32 (N.lxor a b).
Proof. rewrite !word32_bits. intros Ha Hb i Hi. by rewrite N.lxor_spec, Ha, Hb. Qed.
Lemma ascii_word b : word32 (N_of_ascii b).
Proof. pose proof (N_ascii_bounded b). unfold word32. lia. Qed.

Lemma crc_byte_word c b : word32 c → word32 (crc_byte c b).
Proof. intros Hc. apply crc_bits_word, lxor_word; [done|apply ascii_word]. Qed.
Lemma crc_run_word c s : word32 c → word32 (crc_run c s).
Proof. revert c; induction s as [|b s IH]; intros c Hc; [done|]. by apply IH, crc_byte_word. Qed.

(** A common suffix keeps registers apart. *)
Lemma crc_run_inj s a b : word32 a → word32 b → crc_run a s = crc_run b s → a = b.
Proof.
  revert a b; induction s as [|x s IH]; intros a b Ha Hb; [done|]. intros He.
  apply IH in He; [|by apply crc_byte_word..].
  apply crc_bits_inj in He; [|apply lxor_word; [done|apply ascii_word]..].
  apply (f_equal (λ y, N.lxor y (N_of_ascii x))) in He.
  by rewrite !N.lxor_assoc, N.lxor_nilpotent, !N.lxor_0_r in He.
Qed.

(** The register is linear in what is still above the bits shifted out. *)
Lemma crc_bit_linear a b : crc_bit (N.lxor a (N.double b)) = N.lxor (crc_bit a) b.
Proof.
  unfold crc_bit.
  assert (Ho : N.odd (N.lxor a (N.double b)) = N.odd a).
  { rewrite <- !N.bit0_odd, N.lxor_spec. by destruct b; cbn; rewrite xorb_false_r. }
  rewrite Ho, N.shiftr_lxor, N.double_spec.
  replace (N.shiftr (2 * b) 1) with b by (rewrite <- N.div2_spec, N.div2_double; done).
  destruct (N.odd a); [|done].
  rewrite !N.lxor_assoc. f_equal. apply N.lxor_comm.
Qed.
Lemma crc_bits_linear n a b :
  Nat.iter n crc_bit (N.lxor a (N.shiftl b (N.of_nat n))) = N.lxor (Nat.iter n crc_bit a) b.
Proof.
  revert a; induction n as [|n IH]; intros a; [by rewrite N.shiftl_0_r|].
  rewrite !Nat.iter_succ_r.
  replace (N.shiftl b (N.of_nat (S n))) with (N.double (N.shiftl b (N.of_nat n))).
  - rewrite crc_bit_linear. apply IH.
  - rewrite Nat2N.inj_succ, N.shiftl_succ_r. done.
Qed.

(** The bytes of a window, as the little-endian number they are *)
Fixpoint window (s : string) : N :=
  match s with "" => 0 | String b s' => N.lxor (N_of_ascii b) (N.shiftl (window s') 8) end.

Lemma crc_run_window c s :
  crc_run c s = Nat.iter (8 * String.length s) crc_bit (N.lxor c (window s)).
Proof.
  revert c; induction s as [|b s IH]; intros c; cbn [crc_run window String.length].
  { cbn. by rewrite N.lxor_0_r. }
  rewrite IH. replace (8 * S (String.length s))%nat with (8 * String.length s + 8)%nat by lia.
  rewrite Nat.iter_add. f_equal. rewrite <- N.lxor_assoc.
  exact (eq_sym (crc_bits_linear 8 (N.lxor c (N_of_ascii b)) (window s))).
Qed.

Lemma window_bits s i : (8 * N.of_nat (String.length s) ≤ i)%N → N.testbit (window s) i = false.
Proof.
  revert i; induction s as [|b s IH]; intros i Hi; cbn [window String.length] in *; [apply N.bits_0|].
  rewrite N.lxor_spec, N.shiftl_spec_high' by lia. rewrite IH by lia.
  pose proof (N_ascii_bounded b) as Hb. rewrite xorb_false_r.
  destruct (decide (N_of_ascii b = 0%N)) as [->|Hz]; [apply N.bits_0|].
  apply N.bits_above_log2. apply (N.log2_lt_pow2 _ 8) in Hb; lia.
Qed.
Lemma window_word s : (String.length s ≤ 4)%nat → word32 (window s).
Proof. intros Hs. apply word32_bits. intros i Hi. apply window_bits. lia. Qed.

Lemma window_inj a b : String.length a = String.length b → window a = window b → a = b.
Proof.
  revert b; induction a as [|x a IH]; intros [|y b]; cbn [String.length window]; [done..|].
  intros [= Hl] He.
  assert (Hlow : ∀ i, (i < 8)%N → N.testbit (N_of_ascii x) i = N.testbit (N_of_ascii y) i).
  { intros i Hi. apply (f_equal (λ n, N.testbit n i)) in He.
    rewrite !N.lxor_spec, !N.shiftl_spec_low, !xorb_false_r in He by done. done. }
  assert (Hxy : N_of_ascii x = N_of_ascii y).
  { apply N.bits_inj. intros i. destruct (decide (i < 8)%N) as [Hi|Hi]; [by apply Hlow|].
    pose proof (window_bits (String x "") i) as H1. pose proof (window_bits (String y "") i) as H2.
    cbn in H1, H2. rewrite !N.lxor_0_r in H1, H2. rewrite H1, H2; [done|lia|lia]. }
  assert (x = y) as -> by (by rewrite <- (ascii_N_embedding x), Hxy, ascii_N_embedding).
  f_equal. apply IH; [done|].
  apply (f_equal (N.lxor (N_of_ascii y))) in He.
  rewrite <- !N.lxor_assoc, !N.lxor_nilpotent, !N.lxor_0_l in He.
  apply (f_equal (λ n, N.shiftr n 8)) in He. rewrite !N.shiftr_shiftl_r in He by done.
  by rewrite !N.sub_diag, !N.shiftr_0_r in He.
Qed.

(** Two strings that differ only inside four adjacent bytes have different CRCs. *)
Lemma crc32_burst a w w' b :
  String.length w = String.length w' → (String.length w ≤ 4)%nat → w ≠ w' →
  crc32 (a ++ w ++ b) ≠ crc32 (a ++ w' ++ b).
Proof.
  intros Hl H4 Hne He. apply Hne. clear Hne. unfold crc32, crc32_from in He.
  apply (f_equal (λ x, N.lxor x CRC_ONES)) in He.
  rewrite !N.lxor_assoc, !N.lxor_nilpotent, !N.lxor_0_r in He.
  rewrite !crc_run_app in He. set (c := crc_run _ a) in He.
  assert (Hc : word32 c) by (apply crc_run_word; done).
  apply crc_run_inj in He; [|by apply crc_run_word..].
  rewrite !crc_run_window, <- Hl in He.
  apply crc_bits_inj in He; [|apply lxor_word; [done|apply window_word; lia]..].
  apply (f_equal (N.lxor c)) in He.
  rewrite <- !N.lxor_assoc, !N.lxor_nilpotent, !N.lxor_0_l in He. by apply window_inj.
Qed.

(** ** HMAC *)

(** [bytes.fromhex] on hexadecimal digits *)
Definition hex_val (c : ascii) : N :=
  let n := N_of_ascii c in
  if is_digit c then (n - 48)%N else if char_between "a" "f" c then (n - 87)%N else (n - 55)%N.
Fixpoint unhex (s : string) : string :=
  match s with
  | String a (String b s') => String (ascii_of_N (16 * hex_val a + hex_val b)) (unhex s')
  | _ => ""
  end.

Lemma unhex_length n s : String.length s = (2 * n)%nat → String.length (unhex s) = n.
Proof.
  revert s; induction n as [|n IH]; intros s Hs; [by destruct s|].
  destruct s as [|a [|b s]]; cbn in Hs; [lia..|]. cbn. rewrite IH; lia.
Qed.

Fixpoint xor_bytes (n : N) (s : string) : string :=
  match s with "" => "" | String c s' => String (ascii_of_N (N.lxor n (N_of_ascii c))) (xor_bytes n s') end.
Fixpoint nuls (n : nat) : string := match n with O => "" | S n' => String nul (nuls n') end.

Section Hmac.
Context `{Digest}.

(** [hashlib.sha256(m).digest()] *)
Definition digest_bytes (m : string) : string := unhex (hexdigest m).
Definition block_key (key : string) : string :=
  let k := if (String.length key <=? 64)%nat then key else digest_bytes key in
  k ++ nuls (64 - String.length k).
(** [hmac.digest(key, m, 'sha256')] *)
Definition hmac (key m : string) : string :=
  let k := block_key key in
  digest_bytes (xor_bytes 92 k ++ digest_bytes (xor_bytes 54 k ++ m)).

Lemma digest_bytes_length m : String.length (digest_bytes m) = 32%nat.
Proof.
  apply unhex_length. pose proof (hexdigest_re m) as Hr. unfold sha256_re in Hr.
  apply andb_true_iff in Hr as [Hl _]. by apply Nat.eqb_eq in Hl.
Qed.
Lemma hmac_length key m : String.length (hmac key m) = 32%nat.
Proof. apply digest_bytes_length. Qed.
End Hmac.

(** RFC 4231, test case 2 *)
Example hmac_rfc4231 :
  hmac (H:=Sha256.digest) "Jefe" "what do ya want for nothing?"
  = unhex "5bdcc146bf60754e6a042426089575c75a003f089d2739839dec58b964ec3843".
Proof. vm_compute. reflexivity. Qed.
