(* ===== verification/HostFs.v ===== *)
(** * The host file system the durable records live in

    A directory is a finite map from names to nodes, a node is what [lstat]
    and a full read show.  Code that changes files runs in the monad [M]: it
    returns a result or an exception and the file system it leaves behind in
    both cases, so the effects of a failed operation stay visible.  Every
    durable step (file creation, filling it, rename, unlink) calls [tick];
    [hf_power] bounds how many of them happen before the power is lost, so a
    theorem quantified over [hf_power] speaks of every crash point.  [hoare]
    is the triple over normal results and exceptions.  Failures of the disk
    itself and changes made by other programs during a read are not modelled. *)

From stdpp Require Import base list strings gmap sorting.
From Stdlib Require Import ZArith Lia.
From S2P Require Import Prelude PyStr Dir Json Digest.
Open Scope string_scope.

(** [BText v] is the canonical text of [v] with its newline, [BRaw] any other bytes. *)
Inductive body :=
  | BText (v : json)
  | BRaw (b : string).

Inductive nkind := KReg | KDir | KLink | KOther.

Record node := Node {
  nd_kind : nkind;
  nd_mode : Z;
  nd_nlink : Z;
  nd_dev : Z;
  nd_ino : Z;
  nd_body : body
}.

Record hostfs := Fs {
  hf_dirs : gmap string (gmap string node);
  hf_dev : Z;
  hf_next_ino : Z;
  hf_power : option nat
}.

Definition text_of (v : json) : string := default "" (canonical v) ++ nl.
Definition bytes_of (b : body) : string := match b with BText v => text_of v | BRaw s => s end.
Definition body_size (b : body) : nat := String.length (bytes_of b).

(** No object has a key twice. *)
Fixpoint json_nodup (v : json) : bool :=
  match v with
  | JList l => forallb json_nodup l
  | JObj d =>
      bool_decide (NoDup (keys d)) &&
      (fix go d := match d with [] => true | (_, x) :: d' => json_nodup x && go d' end) d
  | _ => true
  end.

Definition entries (fs : hostfs) (dir : string) : gmap string node :=
  default ∅ (hf_dirs fs !! dir).
Definition lstat (fs : hostfs) (dir name : string) : option node := entries fs dir !! name.

Definition with_dir (fs : hostfs) (dir : string) (m : gmap string node) : hostfs :=
  {| hf_dirs := <[dir := m]> (hf_dirs fs); hf_dev := hf_dev fs;
     hf_next_ino := hf_next_ino fs; hf_power := hf_power fs |}.
Definition put (fs : hostfs) (dir name : string) (nd : node) : hostfs :=
  with_dir fs dir (<[name := nd]> (entries fs dir)).
Definition del (fs : hostfs) (dir name : string) : hostfs :=
  with_dir fs dir (delete name (entries fs dir)).
Definition with_power (fs : hostfs) (p : option nat) : hostfs :=
  {| hf_dirs := hf_dirs fs; hf_dev := hf_dev fs; hf_next_ino := hf_next_ino fs; hf_power := p |}.
Definition bump_ino (fs : hostfs) : hostfs :=
  {| hf_dirs := hf_dirs fs; hf_dev := hf_dev fs;
     hf_next_ino := hf_next_ino fs + 1; hf_power := hf_power fs |}.

(** ** The monad *)

Definition M (A : Type) : Type := hostfs → result A * hostfs.
#[export] Instance M_ret : MRet M := λ A a fs, (Ok a, fs).
#[export] Instance M_bind : MBind M := λ A B k m fs,
  match m fs with
  | (Ok a, fs') => k a fs'
  | (Err e, fs') => (Err e, fs')
  end.
Definition raise {A} (e : pyexc) : M A := λ fs, (Err e, fs).
Definition lift {A} (r : result A) : M A := λ fs, (r, fs).
Definition getfs : M hostfs := λ fs, (Ok fs, fs).
Definition reading {A} (f : hostfs → result A) : M A := λ fs, (f fs, fs).
Definition update (f : hostfs → hostfs) : M unit := λ fs, (Ok tt, f fs).

(** One durable step, unless the power is lost before it. *)
Definition tick : M unit := λ fs,
  match hf_power fs with
  | None => (Ok tt, fs)
  | Some O => (Err PowerLoss, fs)
  | Some (S n) => (Ok tt, with_power fs (Some n))
  end.

(** Creates a regular file and fills it; between the two steps it is empty. *)
Definition create_file (dir name : string) (mode : Z) (b : body) : M unit :=
  fs ← getfs;
  let nd := Node KReg mode 1 (hf_dev fs) (hf_next_ino fs) in
  _ ← tick;
  _ ← update (λ fs, bump_ino (put fs dir name (nd (BRaw ""))));
  _ ← tick;
  update (λ fs, put fs dir name (nd b)).

(** [os.replace] inside one directory, and [unlink] *)
Definition rename_over (dir from to : string) : M unit :=
  fs ← getfs;
  match lstat fs dir from with
  | None => raise (PyOSError "No such file or directory")
  | Some nd => _ ← tick; update (λ fs, put (del fs dir from) dir to nd)
  end.
Definition unlink (dir name : string) : M unit :=
  _ ← tick; update (λ fs, del fs dir name).

(** ** Triples *)

Definition hoare {A} (P : hostfs → Prop) (m : M A)
    (Q : A → hostfs → Prop) (E : pyexc → hostfs → Prop) : Prop :=
  ∀ fs, P fs → match m fs with (Ok a, fs') => Q a fs' | (Err e, fs') => E e fs' end.

Section Hoare.
Context {A B : Type}.
Implicit Types (P : hostfs → Prop) (E : pyexc → hostfs → Prop).

Lemma hoare_bind P (m : M A) (k : A → M B) Q R E :
  hoare P m Q E → (∀ a, hoare (Q a) (k a) R E) → hoare P (m ≫= k) R E.
Proof.
  intros Hm Hk fs HP. unfold mbind, M_bind. specialize (Hm fs HP).
  destruct (m fs) as [[a|e] fs']; [by apply Hk|done].
Qed.

Lemma hoare_conseq P P' (m : M A) Q Q' E E' :
  hoare P' m Q' E' → (∀ fs, P fs → P' fs) → (∀ a fs, Q' a fs → Q a fs) →
  (∀ e fs, E' e fs → E e fs) → hoare P m Q E.
Proof.
  intros Hm HP HQ HE fs H. specialize (Hm fs (HP _ H)).
  destruct (m fs) as [[a|e] fs']; auto.
Qed.

Lemma hoare_reading P (f : hostfs → result A) Q E :
  (∀ fs, P fs → match f fs with Ok a => Q a fs | Err e => E e fs end) →
  hoare P (reading f) Q E.
Proof. intros H fs HP. unfold reading. by specialize (H fs HP); destruct (f fs). Qed.

Lemma hoare_lift P (r : result A) Q E :
  (∀ fs, P fs → match r with Ok a => Q a fs | Err e => E e fs end) → hoare P (lift r) Q E.
Proof. intros H fs HP. unfold lift. by specialize (H fs HP); destruct r. Qed.

Lemma hoare_raise P e (Q : A → hostfs → Prop) E : (∀ fs, P fs → E e fs) → hoare P (raise e) Q E.
Proof. intros H fs HP. by apply H. Qed.

Lemma hoare_ret P (a : A) Q E : (∀ fs, P fs → Q a fs) → hoare P (mret a) Q E.
Proof. intros H fs HP. by apply H. Qed.

Lemma hoare_pure (φ : Prop) P (m : M A) Q E :
  (φ → hoare P m Q E) → hoare (λ fs, φ ∧ P fs) m Q E.
Proof. intros Hm fs [Hφ HP]. by apply Hm. Qed.

Lemma hoare_lift_Ok P (r : result A) a (k : A → M B) Q E :
  r = Ok a → hoare P (k a) Q E → hoare P (lift r ≫= k) Q E.
Proof. intros -> Hk fs HP. by apply Hk. Qed.

Lemma hoare_lift_Err P (r : result A) e (k : A → M B) Q E :
  r = Err e → (∀ fs, P fs → E e fs) → hoare P (lift r ≫= k) Q E.
Proof. intros -> HE fs HP. by apply HE. Qed.
End Hoare.

Lemma hoare_update P f (Q : unit → hostfs → Prop) E :
  (∀ fs, P fs → Q tt (f fs)) → hoare P (update f) Q E.
Proof. intros H fs HP. by apply H. Qed.

Lemma hoare_getfs P (Q : hostfs → hostfs → Prop) E :
  (∀ fs, P fs → Q fs fs) → hoare P getfs Q E.
Proof. intros H fs HP. by apply H. Qed.

(** A predicate that does not look at the remaining power. *)
Definition power_free (P : hostfs → Prop) : Prop := ∀ fs p, P fs → P (with_power fs p).

Lemma hoare_tick P (Q : unit → hostfs → Prop) (E : pyexc → hostfs → Prop) :
  power_free P → (∀ fs, P fs → Q tt fs) → (∀ fs, P fs → E PowerLoss fs) → hoare P tick Q E.
Proof.
  intros Hp HQ HE fs H. unfold tick. destruct (hf_power fs) as [[|n]|]; auto.
Qed.

(** ** Lemmas *)

Lemma entries_with_dir fs dir m dir' :
  entries (with_dir fs dir m) dir' = if decide (dir = dir') then m else entries fs dir'.
Proof.
  unfold entries, with_dir; simpl. case_decide as Hd.
  - subst. by rewrite lookup_insert_eq.
  - by rewrite lookup_insert_ne.
Qed.

Lemma entries_put fs dir name nd dir' :
  entries (put fs dir name nd) dir'
  = if decide (dir = dir') then <[name := nd]> (entries fs dir') else entries fs dir'.
Proof. unfold put. rewrite entries_with_dir. by case_decide; subst. Qed.

Lemma entries_del fs dir name dir' :
  entries (del fs dir name) dir'
  = if decide (dir = dir') then delete name (entries fs dir') else entries fs dir'.
Proof. unfold del. rewrite entries_with_dir. by case_decide; subst. Qed.

Lemma json_nodup_obj d :
  json_nodup (JObj d) = bool_decide (NoDup (keys d)) && forallb (λ kv, json_nodup kv.2) d.
Proof. simpl. f_equal. induction d as [|[k x] d IH]; simpl; congruence. Qed.

Lemma json_nodup_wf v : json_nodup v = true → json_wf v.
Proof.
  induction v as [| | | | | |l IH|d IH] using json_ind'; try done.
  - simpl. induction IH as [|x l Hx Hl IHl]; simpl; [done|]. intros [H1 H2]%andb_true_iff.
    split; [by apply Hx|by apply IHl].
  - rewrite json_nodup_obj, json_wf_JObj. intros [Hk Hall]%andb_true_iff.
    split; [by apply bool_decide_eq_true in Hk|].
    rewrite forallb_forall in Hall. apply Forall_forall. intros kv Hin.
    rewrite Forall_forall in IH. apply IH; [done|]. apply Hall. by apply list_elem_of_In.
Qed.

(** Objects with literal distinct keys and wellformed values. *)
Lemma json_wf_nodup v : json_wf v → json_nodup v = true.
Proof.
  induction v as [| | | | | |l IH|d IH] using json_ind'; try done.
  - simpl. induction IH; simpl; [done|]. intros [? ?]. apply andb_true_iff. split; auto.
  - rewrite json_nodup_obj, json_wf_JObj. intros [Hk Hall].
    apply andb_true_iff; split; [by apply bool_decide_eq_true|].
    apply forallb_forall. intros kv Hin%list_elem_of_In.
    rewrite Forall_forall in IH, Hall. auto.
Qed.

(** ** Triples of the durable operations

    The predicates below never look at the inode counter or the power, so the
    rules relate states by their directories. *)

Lemma hf_dirs_put_put fs dir name n1 n2 :
  hf_dirs (put (put fs dir name n1) dir name n2) = hf_dirs (put fs dir name n2).
Proof.
  unfold put at 1. rewrite entries_put, decide_True by done.
  simpl. rewrite insert_insert_eq. by rewrite insert_insert_eq.
Qed.

Lemma put_ext fs fs' dir name nd :
  hf_dirs fs = hf_dirs fs' → hf_dirs (put fs dir name nd) = hf_dirs (put fs' dir name nd).
Proof. unfold put, entries; simpl. by intros ->. Qed.

Lemma del_ext fs fs' dir name :
  hf_dirs fs = hf_dirs fs' → hf_dirs (del fs dir name) = hf_dirs (del fs' dir name).
Proof. unfold del, entries; simpl. by intros ->. Qed.

Lemma tick_cases fs :
  (∃ fs', tick fs = (Ok tt, fs') ∧ hf_dirs fs' = hf_dirs fs)
  ∨ tick fs = (Err PowerLoss, fs) ∧ hf_power fs = Some O.
Proof. unfold tick. destruct (hf_power fs) as [[|n]|]; eauto. Qed.

(** Without a bound on the power nothing is ever lost: the bound stays absent. *)
Definition keeps_power {A} (m : M A) : Prop :=
  ∀ fs, hf_power fs = None → hf_power (m fs).2 = None.

Lemma keeps_bind {A B} (m : M A) (k : A → M B) :
  keeps_power m → (∀ a, keeps_power (k a)) → keeps_power (m ≫= k).
Proof.
  intros Hm Hk fs Hp. specialize (Hm fs Hp). unfold mbind, M_bind.
  destruct (m fs) as [[a|e] fs']; [by apply Hk|done].
Qed.
Lemma keeps_lift {A} (r : result A) : keeps_power (lift r).
Proof. by intros fs. Qed.
Lemma keeps_reading {A} (f : hostfs → result A) : keeps_power (reading f).
Proof. by intros fs. Qed.
Lemma keeps_getfs : keeps_power getfs.
Proof. by intros fs. Qed.
Lemma keeps_ret {A} (a : A) : keeps_power (mret a).
Proof. by intros fs. Qed.
Lemma keeps_raise {A} e : keeps_power (@raise A e).
Proof. by intros fs. Qed.
Lemma keeps_tick : keeps_power tick.
Proof. intros fs Hp. unfold tick. by rewrite Hp. Qed.
Lemma keeps_update f : (∀ fs, hf_power (f fs) = hf_power fs) → keeps_power (update f).
Proof. intros Hf fs Hp. cbn. by rewrite Hf. Qed.
#[export] Hint Resolve keeps_bind keeps_lift keeps_reading keeps_getfs keeps_ret keeps_raise
  keeps_tick : dap.

(** Walks through a monadic program. *)
Ltac keeps :=
  repeat first
    [ progress intros
    | progress cbv zeta
    | apply keeps_bind
    | solve [auto with dap]
    | apply keeps_update; reflexivity
    | match goal with |- keeps_power (match ?x with _ => _ end) => destruct x end ].

Lemma keeps_create_file dir name mode b : keeps_power (create_file dir name mode b).
Proof. unfold create_file. keeps. Qed.
Lemma keeps_rename_over dir from to : keeps_power (rename_over dir from to).
Proof. unfold rename_over. keeps. Qed.
Lemma keeps_unlink dir name : keeps_power (unlink dir name).
Proof. unfold unlink. keeps. Qed.
#[export] Hint Resolve keeps_create_file keeps_rename_over keeps_unlink : dap.

(** A file freshly created with the contents [b]. *)
Definition fresh (mode : Z) (b : body) (nd : node) : Prop :=
  nd_kind nd = KReg ∧ nd_mode nd = mode ∧ nd_nlink nd = 1%Z ∧ nd_body nd = b.

Lemma hoare_create_file dir name mode b (P : hostfs → Prop) Q (E : pyexc → hostfs → Prop) :
  (∀ fs fs', P fs → hf_dirs fs' = hf_dirs fs → hf_power fs' = Some O → E PowerLoss fs') →
  (∀ fs fs' nd, P fs → fresh mode (BRaw "") nd → hf_dirs fs' = hf_dirs (put fs dir name nd) →
     hf_power fs' = Some O → E PowerLoss fs') →
  (∀ fs fs' nd, P fs → fresh mode b nd → hf_dirs fs' = hf_dirs (put fs dir name nd) → Q tt fs') →
  hoare P (create_file dir name mode b) Q E.
Proof.
  intros H0 H1 H2 fs HP. unfold create_file, mbind, M_bind, getfs.
  destruct (tick_cases fs) as [(fs1 & -> & Hd1)|[-> Hp]]; [|by eapply H0].
  unfold update at 1. set (nd := Node KReg mode 1 (hf_dev fs) (hf_next_ino fs)).
  set (fs2 := bump_ino (put fs1 dir name (nd (BRaw "")))).
  assert (Hd2 : hf_dirs fs2 = hf_dirs (put fs dir name (nd (BRaw "")))) by (by apply put_ext).
  destruct (tick_cases fs2) as [(fs3 & -> & Hd3)|[-> Hp]]; [|by eapply H1; [..|exact Hd2|]].
  unfold update. eapply (H2 _ _ (nd b)); [done..|].
  rewrite (put_ext _ (put fs dir name (nd (BRaw "")))) by congruence. apply hf_dirs_put_put.
Qed.

Lemma hoare_rename_over dir from to (P : hostfs → Prop) Q (E : pyexc → hostfs → Prop) :
  (∀ fs, P fs → lstat fs dir from = None → E (PyOSError "No such file or directory") fs) →
  (∀ fs fs', P fs → hf_dirs fs' = hf_dirs fs → hf_power fs' = Some O → E PowerLoss fs') →
  (∀ fs fs' nd, P fs → lstat fs dir from = Some nd →
     hf_dirs fs' = hf_dirs (put (del fs dir from) dir to nd) → Q tt fs') →
  hoare P (rename_over dir from to) Q E.
Proof.
  intros H0 H1 H2 fs HP. unfold rename_over, mbind, M_bind, getfs.
  destruct (lstat fs dir from) as [nd|] eqn:El; [|by apply H0].
  destruct (tick_cases fs) as [(fs1 & -> & Hd1)|[-> Hp]]; [|by eapply H1].
  unfold update. eapply H2; [done..|]. by apply put_ext, del_ext.
Qed.

Lemma hoare_unlink dir name (P : hostfs → Prop) Q (E : pyexc → hostfs → Prop) :
  (∀ fs fs', P fs → hf_dirs fs' = hf_dirs fs → hf_power fs' = Some O → E PowerLoss fs') →
  (∀ fs fs', P fs → hf_dirs fs' = hf_dirs (del fs dir name) → Q tt fs') →
  hoare P (unlink dir name) Q E.
Proof.
  intros H1 H2 fs HP. unfold unlink, mbind, M_bind.
  destruct (tick_cases fs) as [(fs1 & -> & Hd1)|[-> Hp]]; [|by eapply H1].
  unfold update. eapply H2; [done|]. by apply del_ext.
Qed.

(** Renaming a file just created over another name publishes it under that name. *)
Lemma rename_dirs fs fs1 fs2 dir from to nd :
  lstat fs dir from = None → hf_dirs fs1 = hf_dirs (put fs dir from nd) →
  hf_dirs fs2 = hf_dirs (put (del fs1 dir from) dir to nd) →
  hf_dirs fs2 = hf_dirs (put fs dir to nd).
Proof.
  intros Hn H1 H2. rewrite H2, (put_ext _ (del (put fs dir from nd) dir from)) by (by apply del_ext).
  unfold put at 1. rewrite entries_del, decide_True, entries_put, decide_True by done.
  rewrite delete_insert_id by done. simpl. by rewrite !insert_insert_eq.
Qed.

Lemma lstat_put fs fs' dir name nd :
  hf_dirs fs' = hf_dirs (put fs dir name nd) → lstat fs' dir name = Some nd.
Proof.
  intros Hd. unfold lstat, entries. rewrite Hd. change (default ∅ (hf_dirs (put fs dir name nd) !! dir))
    with (entries (put fs dir name nd) dir).
  rewrite entries_put, decide_True by done. by rewrite lookup_insert_eq.
Qed.
