(* ===== verification/F1Schema.v ===== *)
(** * Schema checks of the Process v2 host core

    Models the validators of [device_action_f1_v2.py]: [_exact], [_text],
    [_digest], [_artifact], [_health], [validate_profile],
    [validate_target_evidence], [approval_binding] and the Odin output
    classifier [classify_odin_output].  Validators take any JSON value and
    return what the source returns, or the exception it raises. *)

From stdpp Require Import base list strings.
From Stdlib Require Import ZArith Lia.
From S2P Require Import Prelude PyStr Json Digest.
Open Scope string_scope.

Definition RUNNER_VERSION : string := "device-action-f1-v2-host-core-3".
Definition PROFILE_SCHEMA : string := "device_action_target_profile_v2".
Definition TARGET_EVIDENCE_SCHEMA : string := "device_action_target_evidence_v2".
Definition BOOT_MEMBER : string := "boot.img.lz4".
Definition CANDIDATE_ARRIVAL_PROOF_ROLE_KEY : string := "candidate_arrival_proof_role".

(** [v[k]] on an arbitrary value *)
Definition item (v : json) (k : string) : result json :=
  match v with
  | JObj d => match dget k d with Some x => Ok x | None => Err (PyKeyError k) end
  | _ => Err PyTypeError
  end.

Definition json_sha256 `{Digest} (v : json) : result string :=
  match json_digest v with Some h => Ok h | None => Err (F1V2Error "value is not canonical JSON") end.

Definition exact_ (v : json) (ks : list string) : result dict :=
  match v with
  | JObj d => if keys_match d ks then Ok d else Err (F1V2Error "keys do not match the v2 schema")
  | _ => Err (F1V2Error "keys do not match the v2 schema")
  end.

Definition text_ (v : json) (maximum : nat) : result string :=
  match v with
  | JStr s =>
      if (s =? "") || (maximum <? py_len s)%nat || contains (String nul "") s
      then Err (F1V2Error "must be a bounded string") else Ok s
  | _ => Err (F1V2Error "must be a bounded string")
  end.

Definition digest_ (v : json) : result string :=
  let* s := text_ v 64 in
  if sha256_re s then Ok s else Err (F1V2Error "is not a lowercase SHA256").

(** [isinstance(v, int)] without [bool], bounded to [1 <= v <= 2**40] *)
Definition artifact_size_ok (v : json) : bool :=
  match v with JInt z => (1 <=? z)%Z && (z <=? 2 ^ 40)%Z | _ => false end.

Definition artifact_ (v : json) : result dict :=
  let* d := exact_ v ["path"; "size"; "sha256"] in
  let* _ := text_ (fld d "path") 1024 in
  do* require (artifact_size_ok (fld d "size")) (F1V2Error "size is invalid") in
  let* _ := digest_ (fld d "sha256") in
  Ok d.

Definition health_ (v : json) : result unit :=
  let* d := exact_ v ["android_boot_completed"; "boot_animation_stopped"; "verified_boot_state";
                      "root_required"; "boot_sha256"; "supporting_partition_sha256";
                      "odin_endpoint_absent"] in
  do* forM (λ k, require (is_true (fld d k)) (F1V2Error "must be true"))
        ["android_boot_completed"; "boot_animation_stopped"; "root_required"; "odin_endpoint_absent"] in
  do* require (is_str (fld d "verified_boot_state") "orange")
        (F1V2Error "verified_boot_state must be orange") in
  let* _ := digest_ (fld d "boot_sha256") in
  let* parts := exact_ (fld d "supporting_partition_sha256") ["vendor_boot"; "dtbo"; "recovery"] in
  forM (λ kv, let* _ := digest_ kv.2 in Ok tt) parts.

Definition all_str (d : dict) (l : list (string * string)) : bool :=
  forallb (λ kv, is_str (fld d kv.1) kv.2) l.

Definition canonical_id (v : json) : bool := match v with JStr s => id_re s | _ => false end.

Definition validate_profile (profile : json) : result dict :=
  let* p := exact_ profile ["schema"; "profile_id"; "health_profile_id"; "target"; "transport";
                            "rollback"; "start_health"; "final_health"; "recovery"] in
  do* require (is_str (fld p "schema") PROFILE_SCHEMA) (F1V2Error "target profile schema mismatch") in
  do* forM (λ k, require (canonical_id (fld p k)) (F1V2Error "is not canonical"))
        ["profile_id"; "health_profile_id"] in
  let* target := exact_ (fld p "target")
        ["model"; "device"; "firmware_incremental"; "android_transport"; "download"] in
  do* forM (λ k, let* _ := text_ (fld target k) 128 in Ok tt)
        ["model"; "device"; "firmware_incremental"] in
  do* require (is_str (fld target "android_transport") "adb")
        (F1V2Error "target Android transport must be adb") in
  let* download := exact_ (fld target "download")
        ["usb_vendor_id"; "usb_product_id"; "product"; "manufacturer"; "serial_policy"] in
  do* require (all_str download
        [("usb_vendor_id", "04e8"); ("usb_product_id", "685d"); ("product", "SAMSUNG USB");
         ("manufacturer", "Samsung"); ("serial_policy", "absent")])
        (F1V2Error "target Download identity is not measured Samsung Download") in
  let* transfer := exact_ (fld p "transport") ["kind"; "allowed_partition"; "allowed_member"; "odin"] in
  do* require (all_str transfer
        [("kind", "odin4_boot_only"); ("allowed_partition", "boot"); ("allowed_member", BOOT_MEMBER)])
        (F1V2Error "transport is not boot-only Odin") in
  let* _ := artifact_ (fld transfer "odin") in
  let* rollback := exact_ (fld p "rollback") ["kind"; "ap"] in
  do* require (is_str (fld rollback "kind") "magisk_boot_only")
        (F1V2Error "rollback is not Magisk boot-only") in
  let* _ := artifact_ (fld rollback "ap") in
  do* health_ (fld p "start_health") in
  do* health_ (fld p "final_health") in
  let* recovery := exact_ (fld p "recovery")
        ["operator_attended"; "physical_download_required"; "rollback_preapproved"] in
  do* require (forallb (λ kv, is_true kv.2) recovery)
        (F1V2Error "recovery requirements must all be true") in
  Ok p.

Definition validate_target_evidence (profile evidence : json) : result dict :=
  let* e := exact_ evidence ["schema"; "targets"; "odin_endpoint_absent"] in
  do* require (is_str (fld e "schema") TARGET_EVIDENCE_SCHEMA && is_true (fld e "odin_endpoint_absent"))
        (F1V2Error "target evidence header is invalid") in
  let* only := match fld e "targets" with
               | JList [t] => Ok t
               | _ => Err (F1V2Error "target evidence must contain exactly one target")
               end in
  let* target := exact_ only ["model"; "device"; "firmware_incremental"; "android_transport";
                              "adb_serial_sha256"; "usb_topology_sha256"] in
  do* forM (λ k,
        let* profile_target := item profile "target" in
        let* expected := item profile_target k in
        require (py_eqb (fld target k) expected) (F1V2Error "target evidence mismatch"))
        ["model"; "device"; "firmware_incremental"; "android_transport"] in
  let* _ := digest_ (fld target "adb_serial_sha256") in
  let* _ := digest_ (fld target "usb_topology_sha256") in
  Ok e.

Record Bundle := {
  b_profile : dict;
  b_manifest : dict;
  b_receipt : dict;
  b_sha256 : string
}.

(** [d.get(k)] on an arbitrary value; a non-dictionary has no [get]. *)
Definition get_ (v : json) (k : string) : result json :=
  match v with JObj d => Ok (fld d k) | _ => Err PyTypeError end.

Definition approval_binding `{Digest} (bundle : Bundle) (evidence : json)
    : result (dict * string) :=
  let* _ := validate_target_evidence (JObj (b_profile bundle)) evidence in
  let* profile_id := item (JObj (b_profile bundle)) "profile_id" in
  let* manifest_id := item (JObj (b_manifest bundle)) "manifest_id" in
  let* evidence_sha := json_sha256 evidence in
  let* candidate := item (JObj (b_manifest bundle)) "candidate_ap" in
  let* candidate_sha := item candidate "sha256" in
  let* rollback := item (JObj (b_manifest bundle)) "rollback_ap" in
  let* rollback_sha := item rollback "sha256" in
  let* observation := item (JObj (b_manifest bundle)) "observation" in
  let value := [
    ("schema", JStr "device_action_f1_approval_binding_v2");
    ("runner_version", JStr RUNNER_VERSION);
    ("profile_id", profile_id);
    ("manifest_id", manifest_id);
    ("bundle_sha256", JStr (b_sha256 bundle));
    ("target_evidence_sha256", JStr evidence_sha);
    ("candidate_ap_sha256", candidate_sha);
    ("rollback_ap_sha256", rollback_sha);
    ("observation", observation);
    ("rollback_preapproved", JBool true)] in
  let* role := get_ observation CANDIDATE_ARRIVAL_PROOF_ROLE_KEY in
  let value := if is_null role then value
               else (value ++ [(CANDIDATE_ARRIVAL_PROOF_ROLE_KEY, role)])%list in
  let* h := json_sha256 (JObj value) in
  Ok (value, h).

(** ** Odin output *)

Definition session_markers : list string :=
  ["Setup Connection"; "initializeConnection"; "Receive PIT Info"; "Upload Binaries"; "Close Connection"].
Definition completed_markers : list string :=
  ["Setup Connection"; "Upload Binaries"; "boot.img.lz4"; "100%"; "Close Connection"].

Definition classify_odin_output (returncode : Z) (stdout stderr : string) : string :=
  let output := stdout ++ nl ++ stderr in
  if contains "Fail parse" output && negb (existsb (λ m, contains m output) session_markers)
  then "odin_local_parse_failure"
  else if (returncode =? 0)%Z && forallb (λ m, contains m output) completed_markers
  then "odin_transfer_completed"
  else "odin_device_session_failure_or_unknown".

(** ** Lemmas *)

Lemma exact_Ok v ks d : exact_ v ks = Ok d ↔ v = JObj d ∧ keys_match d ks = true.
Proof.
  destruct v as [| | | | | | |d0]; simpl; try (split; [done|by intros [[=] _]]).
  destruct (keys_match d0 ks) eqn:E; split; try done.
  - by intros [= ->].
  - by intros [[= ->] _].
  - intros [[= <-] ?]; congruence.
Qed.

(** Validation does not see the order of keys. *)
Lemma text_norm v n : text_ (norm v) n = text_ v n.
Proof. by destruct v. Qed.
Lemma digest_norm v : digest_ (norm v) = digest_ v.
Proof. unfold digest_. by rewrite text_norm. Qed.
Lemma artifact_size_norm v : artifact_size_ok (norm v) = artifact_size_ok v.
Proof. by destruct v. Qed.

Lemma exact_norm v ks d :
  json_wf v → exact_ v ks = Ok d →
  exact_ (norm v) ks = Ok (norm_dict d) ∧ NoDup (keys d).
Proof.
  intros Hwf [-> Hk]%exact_Ok. apply json_wf_JObj in Hwf as [Hnd _]. split; [|done].
  rewrite norm_JObj. apply exact_Ok. split; [done|].
  rewrite (keys_match_perm _ d); [done|apply keys_norm_dict].
Qed.

Lemma artifact_norm v d :
  json_wf v → artifact_ v = Ok d → artifact_ (norm v) = Ok (norm_dict d).
Proof.
  intros Hwf Ha. unfold artifact_ in *. rsimp.
  apply (exact_norm _ _ _ Hwf) in H as [-> Hnd]. simpl.
  rewrite !fld_norm_dict by done. rewrite text_norm, artifact_size_norm, digest_norm.
  rewrite H0. simpl. rewrite H1. simpl. by rewrite H2.
Qed.
