(* ===== verification/F1Journal.v ===== *)
(** * The durable journal of a Process v2 run

    Models the tables and the class [Journal] of [device_action_f1_v2.py]:
    hash-chained record files under [journal/], the replaceable
    [journal-head.json], replay ([records]), the guarded append and its two
    durable steps, [create], [reopen], [receipt] and [timeline].

    The run directory is [rundir].  A file is what [load_json] finds: a JSON
    value, a symbolic link, or bytes it rejects (not a regular file, over the
    size bound, not JSON, a duplicate key, changed while reading).  Reading
    back a file written with [json.dumps] gives [norm] of the value.  The
    clock ([utc_now]) is an argument of the appending operations. *)

From stdpp Require Import base list strings gmap sorting.
From Stdlib Require Import ZArith Lia.
From S2P Require Import Prelude PyStr Dir Json Digest F1Schema.
Open Scope string_scope.

Definition JOURNAL_SCHEMA : string := "device_action_f1_journal_record_v2".
Definition JOURNAL_HEAD_SCHEMA : string := "device_action_f1_journal_head_v2".
Definition MAX_RECORD : nat := 32 * 1024.
Definition MAX_TRANSFER_ATTEMPTS : Z := 2.

(** ** Tables *)

Definition STATES : list string :=
  ["PREFLIGHT"; "APPROVED"; "DOWNLOAD_IDENTIFIED"; "CANDIDATE_FLASHED"; "OBSERVED";
   "RECOVERY_DOWNLOAD"; "ROLLBACK_FLASHED"; "HEALTH_VERIFIED"; "CLOSED"; "ABORTED"].

Definition next_table : list (string * list string) :=
  [("PREFLIGHT", ["APPROVED"; "ABORTED"]);
   ("APPROVED", ["DOWNLOAD_IDENTIFIED"; "RECOVERY_DOWNLOAD"; "ABORTED"]);
   ("DOWNLOAD_IDENTIFIED", ["CANDIDATE_FLASHED"; "RECOVERY_DOWNLOAD"; "ABORTED"]);
   ("CANDIDATE_FLASHED", ["OBSERVED"; "ABORTED"]);
   ("OBSERVED", ["RECOVERY_DOWNLOAD"; "ABORTED"]);
   ("RECOVERY_DOWNLOAD", ["ROLLBACK_FLASHED"; "ABORTED"]);
   ("ROLLBACK_FLASHED", ["HEALTH_VERIFIED"; "ABORTED"]);
   ("HEALTH_VERIFIED", ["CLOSED"; "ABORTED"]);
   ("CLOSED", []);
   ("ABORTED", [])].

(** [NEXT_STATES[state]]; replay only ever asks for [None] or a member of [STATES]. *)
Definition NEXT_STATES (state : option string) : list string :=
  match state with
  | None => ["PREFLIGHT"]
  | Some s => default [] (assoc s next_table)
  end.

Definition STATE_ACTION : list (string * string) :=
  [("PREFLIGHT", "preflight_validated"); ("APPROVED", "approval_bound");
   ("DOWNLOAD_IDENTIFIED", "download_identified"); ("CANDIDATE_FLASHED", "candidate_flashed");
   ("OBSERVED", "candidate_observed"); ("RECOVERY_DOWNLOAD", "recovery_download_identified");
   ("ROLLBACK_FLASHED", "rollback_flashed"); ("HEALTH_VERIFIED", "final_health_verified");
   ("CLOSED", "run_closed"); ("ABORTED", "run_aborted")].

Definition TIMELINE : list string :=
  ["live_session_start"; "candidate_flash_start"; "candidate_flash_done"; "candidate_boot_ready";
   "rollback_flash_start"; "rollback_flash_done"; "rollback_boot_ready"; "live_session_end"].

Definition RECOVERY_TIMELINE : list string :=
  ["live_session_start"; "rollback_flash_start"; "rollback_flash_done"; "rollback_boot_ready";
   "live_session_end"].

Definition RECOVERY_EVENT_STATES : list string :=
  ["RECOVERY_DOWNLOAD"; "ROLLBACK_FLASHED"; "HEALTH_VERIFIED"].

Definition EVENT_STATE : list (string * string) :=
  [("live_session_start", "PREFLIGHT"); ("candidate_flash_start", "DOWNLOAD_IDENTIFIED");
   ("candidate_flash_done", "CANDIDATE_FLASHED"); ("candidate_boot_ready", "OBSERVED");
   ("rollback_flash_start", "RECOVERY_DOWNLOAD"); ("rollback_flash_done", "ROLLBACK_FLASHED");
   ("rollback_boot_ready", "HEALTH_VERIFIED"); ("live_session_end", "HEALTH_VERIFIED")].

Definition CHECKPOINT_STATE : list (string * string) :=
  [("candidate_transfer_attempt", "DOWNLOAD_IDENTIFIED");
   ("rollback_transfer_attempt", "RECOVERY_DOWNLOAD");
   ("download_request_revalidation", "RECOVERY_DOWNLOAD")].

(** ** The run directory *)

Inductive fcontent :=
  | FJson (v : json)
  | FSymlink
  | FBad.

Record rundir := {
  rd_exists : bool;
  rd_journal : option (gmap string fcontent);
  rd_head : option fcontent;
  rd_result : option fcontent
}.

Definition load_json (f : fcontent) : result dict :=
  match f with
  | FJson (JObj d) => Ok d
  | FJson _ => Err (F1V2Error "must be an object")
  | FSymlink => Err (F1V2Error "is not a direct regular file")
  | FBad => Err (F1V2Error "is not valid JSON")
  end.

(** [sorted(self.directory.glob("*.json"))], with what each path holds *)
Definition json_names (dir : gmap string fcontent) : list string := names_by (endswith ".json") dir.
Definition listing (dir : gmap string fcontent) : list (string * fcontent) :=
  listing_by (endswith ".json") dir.
Definition rd_listing (rd : rundir) : list (string * fcontent) :=
  match rd_journal rd with Some dir => listing dir | None => [] end.

(** ** Checkpoints *)

(** The attempt counters, keyed as a [dict] by the action value. *)
Abbreviation attempts := (list (json * Z)).
Fixpoint attempts_get (a : json) (t : attempts) : Z :=
  match t with [] => 0%Z | (a', n) :: t' => if py_eqb a a' then n else attempts_get a t' end.
Fixpoint attempts_set (a : json) (n : Z) (t : attempts) : attempts :=
  match t with
  | [] => [(a, n)]
  | (a', m) :: t' => if py_eqb a a' then (a', n) :: t' else (a', m) :: attempts_set a n t'
  end.

Definition nonempty_str (v : json) : bool := match v with JStr s => negb (s =? "") | _ => false end.
Definition sha_str (v : json) : bool := match v with JStr s => sha256_re s | _ => false end.
Definition as_int (v : json) : Z := match v with JInt z => z | _ => 0%Z end.
Definition is_int (v : json) : bool := match v with JInt _ => true | _ => false end.

Definition validate_checkpoint (action outcome details : json) (t : attempts) : result attempts :=
  if is_str action "download_request_revalidation" then
    let* d := exact_ details ["reason"; "error_type"; "error_sha256"] in
    do* require (is_str outcome "parked" && (attempts_get action t =? 0)%Z
                 && nonempty_str (fld d "reason") && nonempty_str (fld d "error_type")
                 && sha_str (fld d "error_sha256"))
          (F1V2Error "Download request revalidation checkpoint is invalid") in
    Ok (attempts_set action 1 t)
  else
    do* require (is_str outcome "attempt_started")
          (F1V2Error "journal checkpoint outcome is invalid") in
    let* d := exact_ details ["attempt"; "start"] in
    let attempt := fld d "attempt" in
    do* require (is_int attempt && (as_int attempt =? attempts_get action t + 1)%Z
                 && (as_int attempt <=? MAX_TRANSFER_ATTEMPTS)%Z)
          (F1V2Error "journal checkpoint attempt sequence is invalid") in
    let* _ := artifact_ (fld d "start") in
    Ok (attempts_set action (as_int attempt) t).

(** ** Replay *)

Record replay := {
  rp_state : option string;
  rp_previous : string;
  rp_events : list string;
  rp_attempts : attempts;
  rp_records : list dict
}.
Definition ZERO_SHA : string := zeros 64.
Definition replay0 : replay :=
  {| rp_state := None; rp_previous := ZERO_SHA; rp_events := []; rp_attempts := []; rp_records := [] |}.

Definition RECORD_KEYS : list string :=
  ["schema"; "sequence"; "timestamp_utc"; "kind"; "state"; "action"; "outcome"; "details";
   "binding_sha256"; "previous_record_sha256"; "record_sha256"].

(** [value == state] for a JSON value and [str | None] *)
Definition state_is (v : json) (st : option string) : bool :=
  match st with None => is_null v | Some s => is_str v s end.
Definition opt_str_eqb (a b : option string) : bool := bool_decide (a = b).

(** [TABLE.get(v)] for a JSON value *)
Definition tbl_get (v : json) (t : list (string * string)) : result (option string) :=
  if hashable v then Ok (match v with JStr s => assoc s t | _ => None end) else Err PyTypeError.

Definition event_order (state : option string) (events : list string) : list string :=
  if match state with Some s => elem_str s RECOVERY_EVENT_STATES | None => false end
     && negb (elem_str "candidate_flash_start" events)
  then RECOVERY_TIMELINE else TIMELINE.

Section Journal.
Context `{Digest}.

Definition record_hash (d : dict) : result string := json_sha256 (JObj (dremove "record_sha256" d)).

(** The part of the loop body that depends on the kind of the record. *)
Definition replay_kind (st : option string) (events : list string) (t : attempts) (value : dict)
    : result (option string * list string * attempts) :=
  let kind := fld value "kind" in
  let state := fld value "state" in
  let action := fld value "action" in
  if is_str kind "transition" then
    let* allowed := in_str_set state (NEXT_STATES st) in
    match state with
    | JStr s =>
        do* require (allowed && match assoc s STATE_ACTION with
                                | Some a => is_str action a | None => false end)
              (F1V2Error "journal transition is invalid") in
        Ok (Some s, events, t)
    | _ => Err (F1V2Error "journal transition is invalid")
    end
  else if is_str kind "event" then
    do* require (state_is state st) (F1V2Error "journal event is invalid") in
    let* es := tbl_get action EVENT_STATE in
    do* require (opt_str_eqb es st) (F1V2Error "journal event is invalid") in
    match event_order st events !! length events with
    | Some a => if is_str action a then Ok (st, (events ++ [a])%list, t)
                else Err (F1V2Error "journal timeline is out of order")
    | None => Err (F1V2Error "journal timeline is out of order")
    end
  else if is_str kind "checkpoint" then
    do* require (state_is state st) (F1V2Error "journal checkpoint is invalid") in
    let* cs := tbl_get action CHECKPOINT_STATE in
    do* require (opt_str_eqb cs st) (F1V2Error "journal checkpoint is invalid") in
    let* t' := validate_checkpoint action (fld value "outcome") (fld value "details") t in
    Ok (st, events, t')
  else Err (F1V2Error "journal record kind is invalid").

(** One iteration of the loop of [Journal.records]. *)
Definition replay_step (binding : string) (rp : replay) (file : string * fcontent) : result replay :=
  let sequence := length (rp_records rp) in
  let* loaded := load_json file.2 in
  let* value := exact_ (JObj loaded) RECORD_KEYS in
  do* require (startswith (fmt_0d 4 sequence ++ "-") file.1
               && is_str (fld value "schema") JOURNAL_SCHEMA
               && eq_int (fld value "sequence") (Z.of_nat sequence))
        (F1V2Error "journal record identity mismatch") in
  do* require (is_str (fld value "binding_sha256") binding
               && is_str (fld value "previous_record_sha256") (rp_previous rp))
        (F1V2Error "journal record chain mismatch") in
  let* h := record_hash value in
  do* require (is_str (fld value "record_sha256") h) (F1V2Error "journal record chain mismatch") in
  let* k := replay_kind (rp_state rp) (rp_events rp) (rp_attempts rp) value in
  Ok {| rp_state := k.1.1; rp_previous := h; rp_events := k.1.2; rp_attempts := k.2;
        rp_records := (rp_records rp ++ [value])%list |}.

Definition replay_all (binding : string) (files : list (string * fcontent)) : result replay :=
  foldM (replay_step binding) replay0 files.

(** [Journal._head_count] *)
Definition head_count (binding : string) (head : option fcontent) (records : list dict) : result Z :=
  match records with
  | [] => match head with
          | None => Ok 0%Z
          | Some _ => Err (F1V2Error "journal head exists without records")
          end
  | _ =>
      match head with
      | None | Some FSymlink => Err (F1V2Error "journal head is missing or indirect")
      | Some f =>
          let* h := load_json f in
          let* _ := exact_ (JObj h) ["schema"; "binding_sha256"; "record_count"; "last_sequence";
                                     "last_record_sha256"] in
          let count := as_int (fld h "record_count") in
          do* require (is_str (fld h "schema") JOURNAL_HEAD_SCHEMA
                && is_str (fld h "binding_sha256") binding
                && is_int (fld h "record_count")
                && (1 <=? count)%Z && (count <=? Z.of_nat (length records))%Z
                && eq_int (fld h "last_sequence") (count - 1)
                && match records !! Z.to_nat (count - 1) with
                   | Some r => py_eqb (fld h "last_record_sha256") (fld r "record_sha256")
                   | None => false
                   end)
              (F1V2Error "journal head does not match the durable chain") in
          Ok count
      end
  end.

(** [Journal.records] *)
Definition records (rd : rundir) (binding : string) : result (list dict) :=
  let* rp := replay_all binding (rd_listing rd) in
  let* _ := head_count binding (rd_head rd) (rp_records rp) in
  Ok (rp_records rp).

(** What [_append] and [state] recompute from the records. *)
Definition is_kind (k : string) (r : dict) : bool := is_str (fld r "kind") k.
Definition str_val (v : json) : string := match v with JStr s => s | _ => "" end.

Definition current_state (rs : list dict) : option string :=
  (λ r, str_val (fld r "state")) <$> last (filter (λ r, is_kind "transition" r = true) rs).
Definition event_actions (rs : list dict) : list string :=
  (λ r, str_val (fld r "action")) <$> filter (λ r, is_kind "event" r = true) rs.
Definition attempts_of_record (t : attempts) (r : dict) : attempts :=
  if is_kind "checkpoint" r then
    attempts_set (fld r "action")
      (if is_str (fld r "action") "download_request_revalidation" then 1%Z
       else as_int (match fld r "details" with JObj d => fld d "attempt" | _ => JNull end)) t
  else t.
Definition checkpoint_attempts (rs : list dict) : attempts := foldl attempts_of_record [] rs.

(** [Journal.state] *)
Definition state (rd : rundir) (binding : string) : result (option string) :=
  let* rs := records rd binding in Ok (current_state rs).

(** The unsigned record [_append] builds, and the record with its digest. *)
Definition unsigned_record (binding previous now kind state action outcome : string)
    (sequence : nat) (details : json) : dict :=
  [("schema", JStr JOURNAL_SCHEMA); ("sequence", JInt (Z.of_nat sequence));
   ("timestamp_utc", JStr now); ("kind", JStr kind); ("state", JStr state);
   ("action", JStr action); ("outcome", JStr outcome); ("details", details);
   ("binding_sha256", JStr binding); ("previous_record_sha256", JStr previous)].

(** [record["sequence"] + 1] for a value equal to an [int]: a [float] stays a [float]. *)
Definition succ_num (v : json) : json :=
  match v with
  | JFloat f => let n := (Z.shiftl (fl_m f) (fl_e f) + 1)%Z in
                JFloat {| fl_m := n; fl_e := 0; fl_repr := str_of_Z n ++ ".0" |}
  | JBool b => JInt (Z.b2z b + 1)
  | JInt z => JInt (z + 1)
  | _ => v
  end.

Definition head_value (binding : string) (sequence record_sha : json) : dict :=
  [("schema", JStr JOURNAL_HEAD_SCHEMA); ("binding_sha256", JStr binding);
   ("record_count", succ_num sequence); ("last_sequence", sequence);
   ("last_record_sha256", record_sha)].

(** [len(json.dumps(value, indent=2, sort_keys=True).encode() + b"\n") <= MAX_RECORD] *)
Definition fits (v : json) : bool := (S (String.length (dumps_indent v)) <=? MAX_RECORD)%nat.

(** [_write_exclusive] into the journal directory *)
Definition write_exclusive (rd : rundir) (name : string) (value : dict) : result rundir :=
  do* require (finite (JObj value)) (PyValueError "Out of range float values") in
  do* require (fits (JObj value)) (F1V2Error "durable record exceeds its bound") in
  match rd_journal rd with
  | None => Err (PyOSError "No such file or directory")
  | Some dir =>
      match dir !! name with
      | Some _ => Err (PyOSError "File exists")
      | None => Ok {| rd_exists := rd_exists rd;
                      rd_journal := Some (<[name := FJson (norm (JObj value))]> dir);
                      rd_head := rd_head rd; rd_result := rd_result rd |}
      end
  end.

(** [_write_head]: [_write_atomic] replaces the head file *)
Definition write_head (rd : rundir) (value : dict) : result rundir :=
  match rd_head rd with
  | Some FSymlink => Err (F1V2Error "durable head cannot be a symlink")
  | _ =>
      do* require (fits (JObj value)) (F1V2Error "durable record exceeds its bound") in
      Ok {| rd_exists := rd_exists rd; rd_journal := rd_journal rd;
            rd_head := Some (FJson (norm (JObj value))); rd_result := rd_result rd |}
  end.

(** The guard of [_append] on the requested record. *)
Definition append_guard (rs : list dict) (kind state action outcome : string) (details : json)
    : result unit :=
  let current := current_state rs in
  let events := event_actions rs in
  if kind =? "transition" then
    require (elem_str state (NEXT_STATES current)
             && opt_str_eqb (assoc state STATE_ACTION) (Some action))
      (F1V2Error "invalid transition")
  else if kind =? "event" then
    require (match event_order current events !! length events with
             | None => false
             | Some expected => opt_str_eqb (Some state) current
                 && opt_str_eqb (assoc action EVENT_STATE) (Some state) && (expected =? action)
             end)
      (F1V2Error "invalid timeline event")
  else if kind =? "checkpoint" then
    do* require (opt_str_eqb (Some state) current
                 && opt_str_eqb (assoc action CHECKPOINT_STATE) (Some state))
          (F1V2Error "invalid journal checkpoint") in
    let* _ := validate_checkpoint (JStr action) (JStr outcome) details (checkpoint_attempts rs) in
    Ok tt
  else Err (F1V2Error "invalid journal record kind").

Definition last_sha (rs : list dict) : string :=
  match last rs with Some r => str_val (fld r "record_sha256") | None => ZERO_SHA end.

Definition record_name (sequence : nat) (kind action : string) : string :=
  (fmt_0d 4 sequence ++ "-") ++ kind ++ "-" ++ action ++ ".json".

(** The first durable step of [_append]: the record file. *)
Definition append_record (rd : rundir) (binding now kind state action outcome : string)
    (details : json) : result (rundir * nat * string) :=
  let* rs := records rd binding in
  do* append_guard rs kind state action outcome details in
  let n := length rs in
  let* outcome' := text_ (JStr outcome) 96 in
  let unsigned := unsigned_record binding (last_sha rs) now kind state action outcome' n details in
  let* h := record_hash unsigned in
  let* rd' := write_exclusive rd (record_name n kind action)
                (unsigned ++ [("record_sha256", JStr h)])%list in
  Ok (rd', n, h).

(** [Journal._append]: the record file, then the head. *)
Definition append_ (rd : rundir) (binding now kind state action outcome : string)
    (details : json) : result rundir :=
  let* r := append_record rd binding now kind state action outcome details in
  write_head r.1.1 (head_value binding (JInt (Z.of_nat r.1.2)) (JStr r.2)).

Definition transition (rd : rundir) (binding now state outcome : string) (details : json)
    : result rundir :=
  match assoc state STATE_ACTION with
  | Some action => append_ rd binding now "transition" state action outcome details
  | None => Err (PyKeyError state)
  end.

Definition event (rd : rundir) (binding now name : string) (details : json) : result rundir :=
  let* st := state rd binding in
  match st with
  | Some s => append_ rd binding now "event" s name "recorded" details
  | None => Err (F1V2Error "journal has no state")
  end.

Definition checkpoint (rd : rundir) (binding now name outcome : string) (details : json)
    : result rundir :=
  let* st := state rd binding in
  match st with
  | Some s => append_ rd binding now "checkpoint" s name outcome details
  | None => Err (F1V2Error "journal has no state")
  end.

(** [Journal.create]: [preflight_details or {"host_only": True}] *)
Definition create (rd : rundir) (binding now : string) (preflight : option dict) : result rundir :=
  let* _ := digest_ (JStr binding) in
  do* require (negb (rd_exists rd)) (F1V2Error "run directory already exists") in
  let rd1 := {| rd_exists := true; rd_journal := Some ∅; rd_head := None; rd_result := None |} in
  let details := match preflight with
                 | Some (kv :: d) => JObj (kv :: d)
                 | _ => JObj [("host_only", JBool true)]
                 end in
  transition rd1 binding now "PREFLIGHT" "ok" details.

(** [Journal.reopen]: validates the chain and rewrites the head for its tail. *)
Definition reopen (rd : rundir) (binding : string) : result rundir :=
  let* _ := digest_ (JStr binding) in
  do* require (match rd_journal rd with Some _ => true | None => false end)
        (F1V2Error "journal directory is unavailable") in
  let* rs := records rd binding in
  match last rs with
  | None => Ok rd
  | Some r => write_head rd (head_value binding (fld r "sequence") (fld r "record_sha256"))
  end.

(** [Journal.receipt], without the two path strings *)
Definition receipt (rd : rundir) (binding : string) : result (nat * string) :=
  let* rs := records rd binding in Ok (length rs, last_sha rs).

(** [timeline(records)]: names with their timestamps *)
Definition timeline (rs : list dict) : list (json * json) :=
  (λ r, (fld r "action", fld r "timestamp_utc")) <$> filter (λ r, is_kind "event" r = true) rs.
End Journal.
