(* ===== verification/F1JournalTheory.v ===== *)
(** * Correctness of the run journal

    Replay recomputes exactly what [_append] recomputes; an append extends
    the replayed list by one record; the head detects truncation; a crash
    between the two durable steps is repaired by [reopen]. *)

From stdpp Require Import base list strings gmap sorting.
From Stdlib Require Import ZArith Lia.
From S2P Require Import Prelude PyStr Dir Json Digest F1Schema F1Journal.
Open Scope string_scope.

(** ** File names *)

Definition SEQ_BOUND : nat := 1000.

Definition seq_prefix (i : nat) : string := fmt_0d 4 i ++ "-".

Lemma seq_steps : forallb (num_step_ok 4) (seq 0 SEQ_BOUND) = true.
Proof. apply steps_from_ok. vm_compute. reflexivity. Qed.

Lemma seq_name_le i j a b :
  (i < j)%nat → (j < SEQ_BOUND)%nat → String.le (seq_prefix i ++ a) (seq_prefix j ++ b).
Proof. apply num_name_le, seq_steps. Qed.

Lemma seq_name_ne i j a b :
  (i < j)%nat → (j < SEQ_BOUND)%nat → seq_prefix i ++ a ≠ seq_prefix j ++ b.
Proof. apply num_name_ne, seq_steps. Qed.

(** ** Replay *)

Section Theory.
Context `{Digest}.

(** What [_append] recomputes from a list of records, one record at a time. *)
Lemma current_state_snoc rs r :
  current_state (rs ++ [r])%list
  = if is_kind "transition" r then Some (str_val (fld r "state")) else current_state rs.
Proof.
  unfold current_state. rewrite filter_app. destruct (is_kind "transition" r) eqn:E.
  - rewrite filter_cons_True by done. rewrite filter_nil. by rewrite last_snoc.
  - rewrite filter_cons_False by congruence. rewrite filter_nil. by rewrite app_nil_r.
Qed.

Lemma event_actions_snoc rs r :
  event_actions (rs ++ [r])%list
  = (event_actions rs ++ if is_kind "event" r then [str_val (fld r "action")] else [])%list.
Proof.
  unfold event_actions. rewrite filter_app, fmap_app. f_equal.
  destruct (is_kind "event" r) eqn:E.
  - by rewrite filter_cons_True by done.
  - by rewrite filter_cons_False by congruence.
Qed.

Lemma checkpoint_attempts_snoc rs r :
  checkpoint_attempts (rs ++ [r])%list = attempts_of_record (checkpoint_attempts rs) r.
Proof. unfold checkpoint_attempts. by rewrite foldl_app. Qed.

Lemma last_sha_snoc rs r : last_sha (rs ++ [r])%list = str_val (fld r "record_sha256").
Proof. unfold last_sha. by rewrite last_snoc. Qed.

(** The three record kinds exclude each other. *)
Lemma is_kind_excl r a b : is_kind a r = true → a ≠ b → is_kind b r = false.
Proof.
  unfold is_kind. intros ->%is_str_eq Hne. simpl. by apply String.eqb_neq.
Qed.

(** A validated checkpoint advances the counter of its action as [_append] recounts it. *)
Lemma validate_checkpoint_counts action outcome details t t' :
  validate_checkpoint action outcome details t = Ok t' →
  t' = attempts_set action
         (if is_str action "download_request_revalidation" then 1%Z
          else as_int (match details with JObj d => fld d "attempt" | _ => JNull end)) t.
Proof.
  unfold validate_checkpoint. destruct (is_str action _) eqn:E; intros Hv; rsimp; [done|].
  apply exact_Ok in H1 as [-> _]. done.
Qed.

Lemma replay_kind_agrees rs value k :
  replay_kind (current_state rs) (event_actions rs) (checkpoint_attempts rs) value = Ok k →
  k = (current_state (rs ++ [value])%list, event_actions (rs ++ [value])%list,
       checkpoint_attempts (rs ++ [value])%list).
Proof.
  rewrite current_state_snoc, event_actions_snoc, checkpoint_attempts_snoc.
  unfold replay_kind, attempts_of_record. fold (is_kind "transition" value).
  fold (is_kind "event" value). fold (is_kind "checkpoint" value).
  destruct (is_kind "transition" value) eqn:Et.
  { rewrite (is_kind_excl _ _ "event" Et), (is_kind_excl _ _ "checkpoint" Et) by done.
    intros Hk. rsimp. rewrite app_nil_r. destruct (fld value "state"); rsimp; done. }
  destruct (is_kind "event" value) eqn:Ee.
  { rewrite (is_kind_excl _ _ "checkpoint" Ee) by done.
    intros Hk. rsimp. destruct (_ !! _); [|done].
    destruct (is_str (fld value "action") s) eqn:Ea; [|done].
    apply is_str_eq in Ea as ->. by rsimp. }
  destruct (is_kind "checkpoint" value) eqn:Ec; [|done].
  intros Hk. rsimp. rewrite app_nil_r. do 2 f_equal.
  by eapply validate_checkpoint_counts.
Qed.

(** The files a replay accepted: names carry the sequence, contents are the records. *)
Definition file_ok (i : nat) (file : string * fcontent) (r : dict) : Prop :=
  startswith (seq_prefix i) file.1 = true ∧ file.2 = FJson (JObj r)
  ∧ keys_match r RECORD_KEYS = true ∧ eq_int (fld r "sequence") (Z.of_nat i) = true.

Record replay_inv (binding : string) (files : list (string * fcontent)) (rp : replay) : Prop := {
  ri_state : rp_state rp = current_state (rp_records rp);
  ri_events : rp_events rp = event_actions (rp_records rp);
  ri_attempts : rp_attempts rp = checkpoint_attempts (rp_records rp);
  ri_previous : rp_previous rp = last_sha (rp_records rp);
  ri_length : length (rp_records rp) = length files;
  ri_files : ∀ i f r, files !! i = Some f → rp_records rp !! i = Some r → file_ok i f r
}.

Lemma replay_step_Ok binding rp file rp' :
  replay_step binding rp file = Ok rp' →
  ∃ value h, file_ok (length (rp_records rp)) file value
    ∧ is_str (fld value "schema") JOURNAL_SCHEMA = true
    ∧ is_str (fld value "binding_sha256") binding = true
    ∧ is_str (fld value "previous_record_sha256") (rp_previous rp) = true
    ∧ record_hash value = Ok h ∧ fld value "record_sha256" = JStr h
    ∧ replay_kind (rp_state rp) (rp_events rp) (rp_attempts rp) value
      = Ok (rp_state rp', rp_events rp', rp_attempts rp')
    ∧ rp_previous rp' = h ∧ rp_records rp' = (rp_records rp ++ [value])%list.
Proof.
  destruct file as [name content]. unfold replay_step. intros Hs. rsimp. bsimp.
  cbn [fst snd] in *. destruct content as [v'| |]; [|done..]. destruct v'; try done.
  simpl in H0. rsimp.
  apply exact_Ok in H1 as [[= <-] Hk].
  apply is_str_eq in H5. eexists _, _. split_and!; try done.
  simpl. by destruct v5 as [[? ?] ?].
Qed.

Lemma replay_all_inv binding files rp :
  replay_all binding files = Ok rp → replay_inv binding files rp.
Proof.
  apply (foldM_ind (replay_step binding) (replay_inv binding)).
  - constructor; try done.
  - intros pre file rp1 rp2 [Hst Hev Hat Hpr Hlen Hf] Hs.
    apply replay_step_Ok in Hs as (value & h & Hok & _ & _ & _ & Hh & Hsha & Hk & Hp2 & Hr2).
    rewrite Hst, Hev, Hat in Hk. apply replay_kind_agrees in Hk. injection Hk as H1 H2 H3.
    constructor; rewrite Hr2; try done.
    + rewrite last_sha_snoc, Hp2, Hsha. done.
    + rewrite !length_app. simpl. lia.
    + intros i f r Hfi Hri. destruct (decide (i < length pre)%nat).
      * rewrite lookup_app_l in Hfi by done. rewrite lookup_app_l in Hri by lia. eauto.
      * rewrite lookup_app_r in Hfi by lia. rewrite lookup_app_r in Hri by lia.
        rewrite Hlen in Hri. apply list_lookup_singleton_Some in Hfi as [Hi <-].
        apply list_lookup_singleton_Some in Hri as [_ <-].
        replace i with (length (rp_records rp1)) by lia. done.
Qed.

(** ** Appending *)

Lemma nonempty_str_norm v : nonempty_str (norm v) = nonempty_str v.
Proof. by destruct v. Qed.
Lemma sha_str_norm v : sha_str (norm v) = sha_str v.
Proof. by destruct v. Qed.
Lemma is_int_norm v : is_int (norm v) = is_int v.
Proof. by destruct v. Qed.
Lemma as_int_norm v : as_int (norm v) = as_int v.
Proof. by destruct v. Qed.

Lemma validate_checkpoint_norm action outcome details t t' :
  json_wf details → validate_checkpoint action outcome details t = Ok t' →
  validate_checkpoint action outcome (norm details) t = Ok t'.
Proof.
  intros Hwf. unfold validate_checkpoint.
  destruct (is_str action _) eqn:Ea; intros Hv; rsimp.
  - pose proof (exact_norm _ _ _ Hwf H0) as [-> Hnd]. simpl.
    rewrite !fld_norm_dict by done.
    by rewrite !nonempty_str_norm, sha_str_norm, H1.
  - pose proof (exact_norm _ _ _ Hwf H1) as [Hn Hnd].
    apply exact_Ok in H1 as [-> _]. rewrite H0. cbn [require rbind]. rewrite Hn. cbn [rbind].
    rewrite !fld_norm_dict by done.
    rewrite (artifact_norm _ _ (json_wf_fld _ _ Hwf) H3).
    by rewrite is_int_norm, as_int_norm, H2.
Qed.

(** The guard of [_append] is the check replay makes on the record it writes. *)
Lemma guard_replay rs kind state action outcome details value :
  append_guard rs kind state action outcome details = Ok tt →
  json_wf details →
  fld value "kind" = JStr kind → fld value "state" = JStr state →
  fld value "action" = JStr action → fld value "outcome" = JStr outcome →
  fld value "details" = norm details →
  is_ok (replay_kind (current_state rs) (event_actions rs) (checkpoint_attempts rs) value) = true.
Proof.
  intros Hg Hwf Hk Hs Ha Ho Hd. unfold replay_kind. rewrite Hk, Hs, Ha, Ho, Hd.
  unfold append_guard in Hg. cbn [is_str].
  destruct (kind =? "transition").
  { apply require_Ok, andb_true_iff in Hg as [Hin Hact%bool_decide_eq_true].
    unfold in_str_set. cbn [hashable rbind]. rewrite Hin, Hact. cbn.
    by rewrite String.eqb_refl. }
  destruct (kind =? "event").
  { apply require_Ok in Hg. destruct (_ !! _) as [expected|] eqn:El; [|done].
    apply andb_true_iff in Hg as [[Hst Hes]%andb_true_iff ->%String.eqb_eq].
    apply bool_decide_eq_true in Hst. apply bool_decide_eq_true in Hes.
    rewrite <- Hst in *. cbn [state_is]. rewrite is_str_refl. cbn [require rbind tbl_get hashable].
    unfold opt_str_eqb. rewrite Hes, bool_decide_true by done. cbn [require rbind].
    by rewrite String.eqb_refl. }
  destruct (kind =? "checkpoint"); [|done].
  apply rbind_Ok in Hg as ([] & Hr & Hg). apply rbind_Ok in Hg as (t' & Hv & _).
  apply require_Ok, andb_true_iff in Hr as [Hst%bool_decide_eq_true Hcs%bool_decide_eq_true].
  rewrite <- Hst. cbn [state_is]. rewrite is_str_refl. cbn [require rbind tbl_get hashable].
  unfold opt_str_eqb. rewrite Hcs, bool_decide_true by done. cbn [require rbind].
  by rewrite (validate_checkpoint_norm _ _ _ _ _ Hwf Hv).
Qed.

(** The record [_append] writes, and the record a reader gets back. *)
Definition signed_record (rs : list dict) (binding now kind state action outcome h : string)
    (details : json) : dict :=
  (unsigned_record binding (last_sha rs) now kind state action outcome (length rs) details
   ++ [("record_sha256", JStr h)])%list.

Lemma signed_fld rs b now kind st act out h details k :
  fld (norm_dict (signed_record rs b now kind st act out h details)) k
  = norm (fld (signed_record rs b now kind st act out h details) k).
Proof. apply fld_norm_dict. nodup_keys. Qed.

Lemma signed_hash rs b now kind st act out h details :
  record_hash (norm_dict (signed_record rs b now kind st act out h details))
  = record_hash (unsigned_record b (last_sha rs) now kind st act out (length rs) details).
Proof.
  unfold record_hash, json_sha256.
  change (dremove "record_sha256" (norm_dict (signed_record rs b now kind st act out h details)))
    with (norm_dict (unsigned_record b (last_sha rs) now kind st act out (length rs) details)).
  change (dremove "record_sha256" (unsigned_record b (last_sha rs) now kind st act out (length rs) details))
    with (unsigned_record b (last_sha rs) now kind st act out (length rs) details).
  by rewrite <- norm_JObj, json_digest_norm.
Qed.

(** Replaying the published record after the records it was appended to. *)
Lemma replay_signed binding now kind state action outcome details h rp files :
  replay_inv binding files rp →
  append_guard (rp_records rp) kind state action outcome details = Ok tt →
  json_wf details →
  record_hash (unsigned_record binding (last_sha (rp_records rp)) now kind state action outcome
                 (length (rp_records rp)) details) = Ok h →
  let value := norm_dict (signed_record (rp_records rp) binding now kind state action outcome h details) in
  ∃ rp', replay_step binding rp (record_name (length (rp_records rp)) kind action, FJson (JObj value))
           = Ok rp' ∧ rp_records rp' = (rp_records rp ++ [value])%list.
Proof.
  intros [Hst Hev Hat Hpr Hlen _] Hg Hwf Hh value.
  pose proof (guard_replay (rp_records rp) kind state action outcome details value Hg Hwf) as Hk.
  unfold replay_step. cbn [load_json snd fst rbind].
  assert (Hex : exact_ (JObj value) RECORD_KEYS = Ok value).
  { apply exact_Ok; split; [done|]. unfold value.
    rewrite (keys_match_perm _ (signed_record (rp_records rp) binding now kind state action outcome h details));
      [vm_compute; reflexivity|apply keys_norm_dict]. }
  assert (Hf : ∀ k, fld value k = norm (fld (signed_record (rp_records rp) binding now kind
                        state action outcome h details) k)) by (intros k; apply signed_fld).
  assert (Hhash : record_hash value = Ok h) by (unfold value; by rewrite signed_hash).
  rewrite Hex. cbn [rbind]. rewrite Hhash.
  assert (fld value "schema" = JStr JOURNAL_SCHEMA) as -> by (rewrite Hf; reflexivity).
  assert (fld value "sequence" = JInt (Z.of_nat (length (rp_records rp)))) as ->
    by (rewrite Hf; reflexivity).
  assert (fld value "binding_sha256" = JStr binding) as -> by (rewrite Hf; reflexivity).
  assert (fld value "previous_record_sha256" = JStr (last_sha (rp_records rp))) as ->
    by (rewrite Hf; reflexivity).
  assert (fld value "record_sha256" = JStr h) as -> by (rewrite Hf; reflexivity).
  unfold record_name, startswith. rewrite prefix_app, eq_int_JInt, Z.eqb_refl, Hpr, !is_str_refl.
  cbn [andb require rbind]. rewrite is_str_refl. cbn [require rbind].
  rewrite Hst, Hev, Hat.
  destruct (replay_kind _ _ _ value) as [k|e].
  - cbn [rbind]. eexists. split; reflexivity.
  - discriminate Hk; rewrite Hf; reflexivity.
Qed.

Lemma names_before rp binding files name n :
  replay_inv binding files rp → n ∈ files.*1 →
  (length files < SEQ_BOUND)%nat → startswith (seq_prefix (length files)) name = true →
  String.le n name.
Proof.
  intros [_ _ _ _ Hlen Hf] ([n' f] & -> & [i Hi]%list_elem_of_lookup)%list_elem_of_fmap Hb Hnew.
  assert (Hlt : (i < length files)%nat) by (by eapply lookup_lt_Some).
  destruct (lookup_lt_is_Some_2 (rp_records rp) i) as [r Hr]; [lia|].
  destruct (Hf i (n', f) r Hi Hr) as (Hp & _). simpl in *.
  apply prefix_exists in Hp as [t ->]. apply prefix_exists in Hnew as [t' ->].
  by apply seq_name_le.
Qed.

(** A head written for the tail of the records is accepted with their full count. *)
Lemma head_count_tail binding rs r f :
  last rs = Some r → (0 < length rs)%nat →
  fld r "sequence" = JInt (Z.of_nat (length rs - 1)) → (∃ h, fld r "record_sha256" = JStr h) →
  f = FJson (norm (JObj (head_value binding (fld r "sequence") (fld r "record_sha256")))) →
  head_count binding (Some f) rs = Ok (Z.of_nat (length rs)).
Proof.
  intros Hl Hpos Hs [h Hh] ->. destruct rs as [|r0 rs']; [done|].
  rewrite Hs, Hh, norm_JObj. unfold head_count. cbn [load_json rbind].
  set (d := norm_dict _).
  assert (Hf : ∀ k, fld d k = norm (fld (head_value binding (JInt (Z.of_nat (length (r0 :: rs') - 1)))
            (JStr h)) k)) by (intros k; apply fld_norm_dict; nodup_keys).
  assert (exact_ (JObj d) ["schema"; "binding_sha256"; "record_count"; "last_sequence";
            "last_record_sha256"] = Ok d) as ->.
  { apply exact_Ok. split; [done|]. unfold d.
    rewrite (keys_match_perm _ (head_value binding (JInt (Z.of_nat (length (r0 :: rs') - 1))) (JStr h)));
      [vm_compute; reflexivity|apply keys_norm_dict]. }
  cbn [rbind].
  assert (fld d "schema" = JStr JOURNAL_HEAD_SCHEMA) as -> by (rewrite Hf; reflexivity).
  assert (fld d "binding_sha256" = JStr binding) as -> by (rewrite Hf; reflexivity).
  assert (fld d "record_count" = JInt (Z.of_nat (length (r0 :: rs') - 1) + 1)) as ->
    by (rewrite Hf; reflexivity).
  assert (fld d "last_sequence" = JInt (Z.of_nat (length (r0 :: rs') - 1))) as ->
    by (rewrite Hf; reflexivity).
  assert (fld d "last_record_sha256" = JStr h) as -> by (rewrite Hf; reflexivity).
  cbn [as_int is_int]. rewrite eq_int_JInt.
  replace (Z.of_nat (length (r0 :: rs') - 1) + 1)%Z with (Z.of_nat (length (r0 :: rs'))) by lia.
  replace (Z.to_nat (Z.of_nat (length (r0 :: rs')) - 1)) with (length (r0 :: rs') - 1)%nat by lia.
  rewrite last_lookup in Hl. replace (pred (length (r0 :: rs'))) with (length (r0 :: rs') - 1)%nat in Hl by lia.
  rewrite Hl, Hh, !is_str_refl. cbn [py_eqb]. rewrite String.eqb_refl.
  replace (1 <=? Z.of_nat (length (r0 :: rs')))%Z with true by (symmetry; apply Z.leb_le; lia).
  replace (Z.of_nat (length (r0 :: rs') - 1) =? Z.of_nat (length (r0 :: rs')) - 1)%Z with true
    by (symmetry; apply Z.eqb_eq; lia).
  rewrite Z.leb_refl. reflexivity.
Qed.

(** The head may lag behind the chain. *)
Lemma head_count_app binding hd rs l c :
  rs ≠ [] → head_count binding hd rs = Ok c → head_count binding hd (rs ++ l)%list = Ok c.
Proof.
  destruct rs as [|r0 rs]; [done|]. intros _. unfold head_count.
  destruct hd as [[v| |]|]; try done. cbn [app]. intros Hc. rsimp. rewrite H0. cbn [rbind].
  rewrite H1. cbn [rbind]. replace (require _ _) with (Ok tt); [done|].
  symmetry. apply require_Ok. bsimp.
  destruct ((r0 :: rs) !! _) as [r|] eqn:El; [|done].
  change (r0 :: rs ++ l)%list with ((r0 :: rs) ++ l)%list.
  rewrite (lookup_app_l_Some _ _ _ _ El).
  repeat (apply andb_true_iff; split); try done.
  all: try (apply Z.leb_le; rewrite ?length_app; lia).
Qed.

Lemma head_count_bounds binding hd rs c :
  head_count binding hd rs = Ok c → (0 ≤ c ≤ Z.of_nat (length rs))%Z ∧ (rs ≠ [] → (1 ≤ c)%Z).
Proof.
  unfold head_count. destruct rs as [|r rs], hd as [[v| |]|]; try done; intros Hc; rsimp.
  - split; [simpl; lia|done].
  - bsimp. split; [lia|intros _; lia].
Qed.

Lemma head_count_shrink b hd rs rs2 c c2 :
  head_count b hd rs = Ok c → head_count b hd rs2 = Ok c2 →
  (Z.of_nat (length rs) ≤ c)%Z → (length rs2 < length rs)%nat → False.
Proof.
  unfold head_count. destruct rs as [|r rs]; [simpl; lia|].
  destruct hd as [[v| |]|]; try done. intros Hc Hc2 Hle Hlt.
  destruct rs2 as [|r2 rs2]; [done|]. rsimp. bsimp. rewrite H0 in H3. rsimp. simpl in *. lia.
Qed.

Lemma digest_JStr b : sha256_re b = true → digest_ (JStr b) = Ok b.
Proof.
  intros Hb. unfold digest_. replace (text_ (JStr b) 64) with (Ok b); [by simpl; rewrite Hb|].
  unfold sha256_re in Hb. apply andb_true_iff in Hb as [Hl%Nat.eqb_eq Hh].
  unfold text_. destruct b as [|c b]; [done|].
  replace (64 <? py_len (String c b))%nat with false
    by (symmetry; apply Nat.ltb_ge; rewrite <- Hl; apply py_len_le).
  by rewrite (hex_no_nul _ Hh).
Qed.

(** The record file alone, before the head: the chain already contains the new record. *)
Lemma append_record_replays rd b now kind st act out det rd' n h :
  append_record rd b now kind st act out det = Ok (rd', n, h) →
  json_wf det → (n < SEQ_BOUND)%nat →
  ∃ rs rp', records rd b = Ok rs ∧ n = length rs
    ∧ replay_all b (rd_listing rd') = Ok rp'
    ∧ rp_records rp' = (rs ++ [norm_dict (signed_record rs b now kind st act out h det)])%list
    ∧ rd_head rd' = rd_head rd ∧ is_Some (rd_journal rd').
Proof.
  unfold append_record, records at 1. intros Ha Hwf Hb.
  apply rbind_Ok in Ha as (rs & Hrs & Ha). apply rbind_Ok in Ha as ([] & Hg & Ha).
  apply rbind_Ok in Ha as (out' & Hout & Ha). apply rbind_Ok in Ha as (h' & Hh & Ha).
  apply rbind_Ok in Ha as (rd1 & Hw & Ha). injection Ha as <- <- <-.
  assert (out' = out) as ->.
  { unfold text_ in Hout. destruct (_ || _); [done|]. by injection Hout. }
  pose proof Hrs as Hrs'. apply rbind_Ok in Hrs' as (rp & Hrp & Hrs').
  apply rbind_Ok in Hrs' as (c & Hc & Hrs'). injection Hrs' as <-.
  pose proof (replay_all_inv _ _ _ Hrp) as Hinv.
  destruct (replay_signed b now kind st act out det h' rp _ Hinv Hg Hwf Hh) as (rp' & Hstep & Hrec).
  exists (rp_records rp), rp'. unfold write_exclusive in Hw.
  apply rbind_Ok in Hw as ([] & _ & Hw). apply rbind_Ok in Hw as ([] & _ & Hw).
  destruct (rd_journal rd) as [dir|] eqn:Ej; [|done].
  destruct (dir !! record_name _ _ _) eqn:En; [done|]. injection Hw as <-.
  split_and!; try done.
  - unfold rd_listing in *. rewrite Ej in Hrp, Hinv. cbn [rd_journal].
    pose proof (ri_length _ _ _ Hinv) as Hlen.
    unfold listing in *. rewrite listing_by_insert_last; [| done | |].
    + unfold replay_all. rewrite foldM_snoc.
      unfold replay_all in Hrp. rewrite Hrp. exact Hstep.
    + unfold record_name. rewrite !str_app_assoc. apply endswith_app.
    + rewrite <- (listing_by_names (endswith ".json")). apply Forall_forall. intros n Hn.
      apply (names_before _ _ _ _ _ Hinv Hn); rewrite <- Hlen; [done|].
      unfold record_name, seq_prefix. apply prefix_app.
Qed.

Lemma append_snoc rd b now kind st act out det rd' rs :
  records rd b = Ok rs → (length rs < SEQ_BOUND)%nat → json_wf det →
  append_ rd b now kind st act out det = Ok rd' →
  ∃ h, records rd' b = Ok (rs ++ [norm_dict (signed_record rs b now kind st act out h det)])%list.
Proof.
  intros Hrs Hlen Hwf Ha. unfold append_ in Ha.
  apply rbind_Ok in Ha as ([[rd1 n] h] & Hr & Hw). cbn [fst snd] in Hw.
  assert (Hn : n = length rs).
  { unfold append_record in Hr. rewrite Hrs in Hr. cbn [rbind] in Hr. rsimp. done. }
  destruct (append_record_replays _ _ _ _ _ _ _ _ _ _ _ Hr Hwf) as
    (rs' & rp' & Hrs' & _ & Hrp & Hrec & _ & Hj); [by subst|].
  rewrite Hrs in Hrs'. injection Hrs' as <-. exists h.
  unfold write_head in Hw. destruct (rd_head rd1) as [[| |]|]; try done.
  all: rsimp; unfold records, rd_listing in *; cbn [rd_journal rd_head]; rewrite Hrp; cbn [rbind];
    rewrite Hrec, (head_count_tail b _ (norm_dict (signed_record rs b now kind st act out h det)));
    [reflexivity | by rewrite last_snoc | rewrite length_app; simpl; lia | | | ].
  all: rewrite signed_fld; try (exists h; reflexivity).
  all: try (rewrite length_app, Nat.add_sub; reflexivity).
  all: rewrite ?signed_fld; reflexivity.
Qed.

(** A successful [_append] extends the replayed chain by exactly the record it was
    given: what [records] returned before, followed by the signed record. *)
Theorem append_extends rd b now kind st act out det rd' rs :
  records rd b = Ok rs → (length rs < SEQ_BOUND)%nat → json_wf det →
  append_ rd b now kind st act out det = Ok rd' →
  ∃ h, records rd' b = Ok (rs ++ [norm_dict (signed_record rs b now kind st act out h det)])%list.
Proof. apply append_snoc. Qed.

Lemma crash_replays rd b now kind st act out det rd1 n h :
  append_record rd b now kind st act out det = Ok (rd1, n, h) →
  json_wf det → (0 < n < SEQ_BOUND)%nat → sha256_re b = true →
  (∃ rs, records rd b = Ok rs ∧ n = length rs
     ∧ records rd1 b = Ok (rs ++ [norm_dict (signed_record rs b now kind st act out h det)])%list)
  ∧ reopen rd1 b = append_ rd b now kind st act out det.
Proof.
  intros Hr Hwf Hn Hb. pose proof Hr as Hr0.
  destruct (append_record_replays _ _ _ _ _ _ _ _ _ _ _ Hr Hwf) as
    (rs & rp' & Hrs & -> & Hrp & Hrec & Hhd & [dir Hj]); [lia|].
  assert (Hrs1 : records rd1 b
            = Ok (rs ++ [norm_dict (signed_record rs b now kind st act out h det)])%list).
  { unfold records. rewrite Hrp. cbn [rbind]. rewrite Hrec, Hhd.
    unfold records in Hrs. apply rbind_Ok in Hrs as (rp & Hrp0 & Hrs).
    apply rbind_Ok in Hrs as (c & Hc & [= <-]).
    rewrite (head_count_app _ _ _ _ _ (λ e, ltac:(rewrite e in Hn; simpl in Hn; lia)) Hc). done. }
  split; [by exists rs|].
  unfold append_. rewrite Hr0. cbn [rbind fst snd].
  unfold reopen. rewrite Hj, Hrs1, (digest_JStr _ Hb). cbn [rbind require].
  rewrite last_snoc, !signed_fld. reflexivity.
Qed.

Lemma digest_sha v b : digest_ (JStr b) = Ok v → sha256_re b = true.
Proof.
  unfold digest_. intros (s & Ht & Hb)%rbind_Ok. unfold text_ in Ht.
  destruct (_ || _); [done|]. injection Ht as <-. by destruct (sha256_re b).
Qed.

Lemma crash_first_refused rd b now kind st act out det rd1 h :
  append_record rd b now kind st act out det = Ok (rd1, 0%nat, h) → json_wf det → sha256_re b = true →
  records rd1 b = Err (F1V2Error "journal head is missing or indirect")
  ∧ reopen rd1 b = Err (F1V2Error "journal head is missing or indirect").
Proof.
  intros Hr Hwf Hb.
  destruct (append_record_replays _ _ _ _ _ _ _ _ _ _ _ Hr Hwf) as
    (rs & rp' & Hrs & Hn & Hrp & Hrec & Hhd & [dir Hj]); [unfold SEQ_BOUND; lia|].
  assert (Hrs1 : records rd1 b = Err (F1V2Error "journal head is missing or indirect")).
  { destruct rs; [|done]. unfold records in *. rewrite Hrp. cbn [rbind]. rewrite Hrec, Hhd.
    apply rbind_Ok in Hrs as (rp & _ & (c & Hc & [= Heq])%rbind_Ok). rewrite Heq in Hc.
    cbn in Hc. by destruct (rd_head rd). }
  split; [done|]. unfold reopen. by rewrite (digest_JStr _ Hb), Hj, Hrs1.
Qed.

(** C22. A crash after a record file and before the head loses nothing unless the record is
    the first: the journal still replays, with the new record at its end, and [reopen]
    leaves the run directory exactly as the uninterrupted [_append] would have.  After
    the first record there is no head to fall back on, and both [records] and [reopen]
    refuse the run directory.  The record is one of the first thousand, its details
    are a value that [json.dumps] can write and read back, and the binding is a digest. *)
Theorem crash_before_head_recovered rd b now kind st act out det rd1 n h :
  append_record rd b now kind st act out det = Ok (rd1, n, h) →
  json_wf det → (n < SEQ_BOUND)%nat → sha256_re b = true →
  (n ≠ 0%nat →
    (∃ rs, records rd b = Ok rs ∧ n = length rs
       ∧ records rd1 b = Ok (rs ++ [norm_dict (signed_record rs b now kind st act out h det)])%list)
    ∧ reopen rd1 b = append_ rd b now kind st act out det)
  ∧ (n = 0%nat →
    records rd1 b = Err (F1V2Error "journal head is missing or indirect")
    ∧ reopen rd1 b = Err (F1V2Error "journal head is missing or indirect")).
Proof.
  intros Hr Hwf Hn Hb. split.
  - intros Hpos. apply (crash_replays _ _ _ _ _ _ _ _ _ _ _ Hr Hwf); [lia|done].
  - intros ->. by apply (crash_first_refused _ _ _ _ _ _ _ _ _ _ Hr Hwf).
Qed.

(** The window at the first record is not repairable: with the record file written and
    no head yet, replay, [reopen] and a second [create] all refuse the run directory. *)
Theorem crash_at_first_record rd b now preflight rd0 rd1 h :
  create rd b now preflight = Ok rd0 →
  append_record {| rd_exists := true; rd_journal := Some ∅; rd_head := None; rd_result := None |}
    b now "transition" "PREFLIGHT" "preflight_validated" "ok"
    (match preflight with Some (kv :: d) => JObj (kv :: d) | _ => JObj [("host_only", JBool true)] end)
    = Ok (rd1, 0%nat, h) →
  json_wf (match preflight with Some (kv :: d) => JObj (kv :: d) | _ => JObj [("host_only", JBool true)] end) →
  records rd1 b = Err (F1V2Error "journal head is missing or indirect")
  ∧ reopen rd1 b = Err (F1V2Error "journal head is missing or indirect")
  ∧ create rd1 b now preflight = Err (F1V2Error "run directory already exists").
Proof.
  intros Hc Hr Hwf. unfold create in Hc. apply rbind_Ok in Hc as (b' & Hb & _).
  assert (Hsha : sha256_re b = true) by by eapply digest_sha.
  destruct (crash_first_refused _ _ _ _ _ _ _ _ _ _ Hr Hwf Hsha) as [H1 H2]. split_and!; [done..|].
  assert (Hex : rd_exists rd1 = true).
  { unfold append_record in Hr. rsimp. unfold write_exclusive in *. rsimp.
    cbn [rd_journal] in *. rewrite lookup_empty in *. rsimp. done. }
  unfold create. by rewrite Hb, Hex.
Qed.

(** Losing a record file is detected: with a head that counts every record, any run
    directory that keeps the head and lists fewer record files is refused. *)
Theorem lost_record_detected rd rd2 b rs :
  records rd b = Ok rs → head_count b (rd_head rd) rs = Ok (Z.of_nat (length rs)) →
  rd_head rd2 = rd_head rd → (length (rd_listing rd2) < length (rd_listing rd))%nat →
  is_ok (records rd2 b) = false.
Proof.
  intros Hrs Hc Hhd Hlt. destruct (records rd2 b) as [rs2|] eqn:Hrs2; [exfalso|done].
  unfold records in Hrs, Hrs2.
  apply rbind_Ok in Hrs as (rp & Hrp & Hrs). apply rbind_Ok in Hrs as (c1 & _ & [= <-]).
  apply rbind_Ok in Hrs2 as (rp2 & Hrp2 & Hrs2). apply rbind_Ok in Hrs2 as (c2 & Hc2 & [= <-]).
  pose proof (ri_length _ _ _ (replay_all_inv _ _ _ Hrp)) as L1.
  pose proof (ri_length _ _ _ (replay_all_inv _ _ _ Hrp2)) as L2.
  rewrite Hhd in Hc2.
  apply (head_count_shrink b (rd_head rd) (rp_records rp) (rp_records rp2) _ _ Hc Hc2); lia.
Qed.
End Theory.
