(* ===== verification/F1Spec.v ===== *)
(** * What a Process v2 run may do

    The abstract specification of the journal: an enumeration of the states,
    events and checkpoints, a step relation on a small state, and the safety
    properties of its runs by rule induction.  [F1Refine] shows that every
    journal the code accepts is such a run. *)

From stdpp Require Import base list sets.
From Stdlib Require Import Lia.
From S2P Require Import Prelude.

Inductive fstate :=
  | PREFLIGHT | APPROVED | DOWNLOAD_IDENTIFIED | CANDIDATE_FLASHED | OBSERVED
  | RECOVERY_DOWNLOAD | ROLLBACK_FLASHED | HEALTH_VERIFIED | CLOSED | ABORTED.

Inductive fevent :=
  | live_session_start | candidate_flash_start | candidate_flash_done | candidate_boot_ready
  | rollback_flash_start | rollback_flash_done | rollback_boot_ready | live_session_end.

Inductive fcheckpoint :=
  | candidate_transfer_attempt | rollback_transfer_attempt | download_request_revalidation.

#[export] Instance fstate_eq_dec : EqDecision fstate.
Proof. solve_decision. Defined.
#[export] Instance fevent_eq_dec : EqDecision fevent.
Proof. solve_decision. Defined.
#[export] Instance fcheckpoint_eq_dec : EqDecision fcheckpoint.
Proof. solve_decision. Defined.

(** The edges of the run state machine. *)
Inductive edge : option fstate → fstate → Prop :=
  | edge_start : edge None PREFLIGHT
  | edge_approve : edge (Some PREFLIGHT) APPROVED
  | edge_download : edge (Some APPROVED) DOWNLOAD_IDENTIFIED
  | edge_cut_recovery : edge (Some APPROVED) RECOVERY_DOWNLOAD
  | edge_flash : edge (Some DOWNLOAD_IDENTIFIED) CANDIDATE_FLASHED
  | edge_direct_recovery : edge (Some DOWNLOAD_IDENTIFIED) RECOVERY_DOWNLOAD
  | edge_observe : edge (Some CANDIDATE_FLASHED) OBSERVED
  | edge_recover : edge (Some OBSERVED) RECOVERY_DOWNLOAD
  | edge_rollback : edge (Some RECOVERY_DOWNLOAD) ROLLBACK_FLASHED
  | edge_health : edge (Some ROLLBACK_FLASHED) HEALTH_VERIFIED
  | edge_close : edge (Some HEALTH_VERIFIED) CLOSED
  | edge_abort s : s ≠ CLOSED → s ≠ ABORTED → edge (Some s) ABORTED.

(** The state in which each event and each checkpoint may be recorded. *)
Definition event_home (e : fevent) : fstate :=
  match e with
  | live_session_start => PREFLIGHT
  | candidate_flash_start => DOWNLOAD_IDENTIFIED
  | candidate_flash_done => CANDIDATE_FLASHED
  | candidate_boot_ready => OBSERVED
  | rollback_flash_start => RECOVERY_DOWNLOAD
  | rollback_flash_done => ROLLBACK_FLASHED
  | rollback_boot_ready | live_session_end => HEALTH_VERIFIED
  end.
Definition checkpoint_home (c : fcheckpoint) : fstate :=
  match c with
  | candidate_transfer_attempt => DOWNLOAD_IDENTIFIED
  | rollback_transfer_attempt | download_request_revalidation => RECOVERY_DOWNLOAD
  end.
Definition checkpoint_limit (c : fcheckpoint) : nat :=
  match c with download_request_revalidation => 1 | _ => 2 end.

Definition full_timeline : list fevent :=
  [live_session_start; candidate_flash_start; candidate_flash_done; candidate_boot_ready;
   rollback_flash_start; rollback_flash_done; rollback_boot_ready; live_session_end].
Definition recovery_timeline : list fevent :=
  [live_session_start; rollback_flash_start; rollback_flash_done; rollback_boot_ready; live_session_end].

Inductive label :=
  | LTransition (s : fstate)
  | LEvent (e : fevent)
  | LCheckpoint (c : fcheckpoint).

Record run_state := {
  rs_state : option fstate;
  rs_events : list fevent;
  rs_count : fcheckpoint → nat
}.
Definition run0 : run_state := {| rs_state := None; rs_events := []; rs_count := λ _, 0 |}.

Definition bump (c : fcheckpoint) (f : fcheckpoint → nat) : fcheckpoint → nat :=
  λ c', if decide (c' = c) then S (f c') else f c'.

Inductive run_step : run_state → label → run_state → Prop :=
  | step_transition σ s :
      edge (rs_state σ) s →
      run_step σ (LTransition s)
        {| rs_state := Some s; rs_events := rs_events σ; rs_count := rs_count σ |}
  | step_event σ e :
      rs_state σ = Some (event_home e) →
      (rs_events σ ++ [e] `prefix_of` full_timeline
       ∨ rs_events σ ++ [e] `prefix_of` recovery_timeline) →
      run_step σ (LEvent e)
        {| rs_state := rs_state σ; rs_events := rs_events σ ++ [e]; rs_count := rs_count σ |}
  | step_checkpoint σ c :
      rs_state σ = Some (checkpoint_home c) →
      rs_count σ c < checkpoint_limit c →
      run_step σ (LCheckpoint c)
        {| rs_state := rs_state σ; rs_events := rs_events σ; rs_count := bump c (rs_count σ) |}.

(** Runs from the empty journal, newest label last. *)
Inductive run : list label → run_state → Prop :=
  | run_nil : run [] run0
  | run_snoc ls σ l σ' : run ls σ → run_step σ l σ' → run (ls ++ [l]) σ'.

Create HintDb f1.
#[export] Hint Constructors edge run_step run : f1.

(** ** Safety *)

Definition rank (s : option fstate) : nat :=
  match s with
  | None => 0
  | Some PREFLIGHT => 1 | Some APPROVED => 2 | Some DOWNLOAD_IDENTIFIED => 3
  | Some CANDIDATE_FLASHED => 4 | Some OBSERVED => 5 | Some RECOVERY_DOWNLOAD => 6
  | Some ROLLBACK_FLASHED => 7 | Some HEALTH_VERIFIED => 8 | Some CLOSED | Some ABORTED => 9
  end.

Lemma edge_rank st s : edge st s → rank st < rank (Some s).
Proof. destruct 1; simpl; try lia. destruct s; simpl; try lia; congruence. Qed.

Lemma step_rank σ l σ' : run_step σ l σ' → rank (rs_state σ) ≤ rank (rs_state σ').
Proof. destruct 1 as [σ s He| |]; simpl; try lia. apply edge_rank in He. simpl in He. lia. Qed.

#[export] Instance label_eq_dec : EqDecision label.
Proof. solve_decision. Defined.

(** Everything a run has recorded is what its labels say. *)
Definition transitions (ls : list label) : list fstate :=
  omap (λ l, match l with LTransition s => Some s | _ => None end) ls.
Definition events (ls : list label) : list fevent :=
  omap (λ l, match l with LEvent e => Some e | _ => None end) ls.
Definition checkpoints (ls : list label) : list fcheckpoint :=
  omap (λ l, match l with LCheckpoint c => Some c | _ => None end) ls.

Lemma labels_split ls :
  length ls = length (transitions ls) + length (events ls) + length (checkpoints ls).
Proof.
  unfold transitions, events, checkpoints.
  induction ls as [|[] ls IH]; csimpl; lia.
Qed.

Record run_facts (ls : list label) (σ : run_state) : Prop := {
  rf_state : rs_state σ = last (transitions ls);
  rf_rank : length (transitions ls) ≤ rank (rs_state σ);
  rf_events : rs_events σ = events ls;
  rf_prefix : events ls `prefix_of` full_timeline ∨ events ls `prefix_of` recovery_timeline;
  rf_count : ∀ c, rs_count σ c = length (filter (λ c', c' = c) (checkpoints ls));
  rf_limit : ∀ c, rs_count σ c ≤ checkpoint_limit c;
  rf_home : Forall (λ e, rank (Some (event_home e)) ≤ rank (rs_state σ)) (events ls)
}.

Lemma run_has_facts ls σ : run ls σ → run_facts ls σ.
Proof.
  induction 1 as [|ls σ l σ' _ [Hst Hrk Hev Hpf Hct Hlm Hhm] Hstep].
  - constructor; try done; simpl; try lia. left. apply prefix_nil.
  - destruct Hstep as [σ s He|σ e Hs Hp|σ c Hs Hl]; constructor; simpl;
      unfold transitions, events, checkpoints in *; rewrite ?omap_app; cbn; rewrite ?app_nil_r; try done.
    + by rewrite last_snoc.
    + rewrite length_app. cbn. apply edge_rank in He. simpl in He. lia.
    + eapply Forall_impl; [exact Hhm|]. simpl. intros e. apply edge_rank in He. simpl in He. lia.
    + by rewrite Hev.
    + by rewrite <- Hev.
    + apply Forall_app. split; [done|]. constructor; [|constructor]. by rewrite Hs.
    + intros c'. unfold bump. rewrite filter_app, length_app, <- Hct. cbn.
      destruct (decide (c' = c)) as [->|].
      * rewrite decide_True by done. cbn. lia.
      * rewrite decide_False by done. cbn. lia.
    + intros c'. unfold bump. destruct (decide (c' = c)) as [->|]; [lia|done].
Qed.

Lemma checkpoints_total (l : list fcheckpoint) :
  length l = length (filter (λ c', c' = candidate_transfer_attempt) l)
           + length (filter (λ c', c' = rollback_transfer_attempt) l)
           + length (filter (λ c', c' = download_request_revalidation) l).
Proof. induction l as [|[] l IH]; csimpl; rewrite ?filter_cons; simpl; lia. Qed.

Lemma rank_le st : rank st ≤ 9.
Proof. destruct st as [[]|]; simpl; lia. Qed.

(** A run is finite: at most 9 transitions, 8 events and 5 checkpoints. *)
Lemma run_length_bound ls σ : run ls σ → length ls ≤ 22.
Proof.
  intros [Hst Hrk Hev Hpf Hct Hlm _]%run_has_facts.
  rewrite labels_split, checkpoints_total.
  rewrite <- !Hct.
  pose proof (Hlm candidate_transfer_attempt). pose proof (Hlm rollback_transfer_attempt).
  pose proof (Hlm download_request_revalidation). pose proof (rank_le (rs_state σ)).
  assert (length (events ls) ≤ 8).
  { destruct Hpf as [Hp|Hp]; apply prefix_length in Hp; simpl in Hp; lia. }
  simpl in *. lia.
Qed.

(** What must already have happened when the run is in a state. *)
Definition obligations (s : fstate) : list fstate :=
  match s with
  | PREFLIGHT | ABORTED => [PREFLIGHT]
  | APPROVED => [PREFLIGHT; APPROVED]
  | DOWNLOAD_IDENTIFIED => [PREFLIGHT; APPROVED; DOWNLOAD_IDENTIFIED]
  | CANDIDATE_FLASHED => [PREFLIGHT; APPROVED; DOWNLOAD_IDENTIFIED; CANDIDATE_FLASHED]
  | OBSERVED => [PREFLIGHT; APPROVED; DOWNLOAD_IDENTIFIED; CANDIDATE_FLASHED; OBSERVED]
  | RECOVERY_DOWNLOAD => [PREFLIGHT; APPROVED; RECOVERY_DOWNLOAD]
  | ROLLBACK_FLASHED => [PREFLIGHT; APPROVED; RECOVERY_DOWNLOAD; ROLLBACK_FLASHED]
  | HEALTH_VERIFIED => [PREFLIGHT; APPROVED; RECOVERY_DOWNLOAD; ROLLBACK_FLASHED; HEALTH_VERIFIED]
  | CLOSED => [PREFLIGHT; APPROVED; RECOVERY_DOWNLOAD; ROLLBACK_FLASHED; HEALTH_VERIFIED; CLOSED]
  end.

Lemma edge_obligations st s :
  edge (Some st) s → s = ABORTED ∨ obligations s `sublist_of` obligations st ++ [s].
Proof. inversion 1; subst; auto; right; simpl; auto 12 using sublist. Qed.

Lemma run_obligations ls σ s :
  run ls σ → rs_state σ = Some s → obligations s `sublist_of` transitions ls.
Proof.
  intros Hr. revert s. induction Hr as [|ls σ l σ' Hr IH Hstep]; intros s; [done|].
  destruct Hstep as [σ s' He|σ e Hs Hp|σ c Hs Hl]; unfold transitions; simpl; rewrite omap_app; cbn.
  - intros [= <-]. destruct (rs_state σ) as [st|] eqn:Est.
    + specialize (IH _ eq_refl).
      apply edge_obligations in He as [->|He].
      * apply sublist_inserts_r. destruct st; (etrans; [|exact IH]);
          simpl; auto 12 using sublist.
      * etrans; [exact He|]. by apply sublist_app.
    + inversion He; subst. by apply sublist_inserts_l.
  - rewrite app_nil_r. eauto.
  - rewrite app_nil_r. eauto.
Qed.

(** Labels that belong to sending the candidate to the device. *)
Definition touches_candidate (l : label) : bool :=
  match l with
  | LTransition DOWNLOAD_IDENTIFIED | LTransition CANDIDATE_FLASHED | LTransition OBSERVED => true
  | LEvent candidate_flash_start | LEvent candidate_flash_done | LEvent candidate_boot_ready => true
  | LCheckpoint candidate_transfer_attempt => true
  | _ => false
  end.

Lemma run_app_inv ls1 ls2 σ : run (ls1 ++ ls2) σ → ∃ σ1, run ls1 σ1.
Proof.
  revert σ. induction ls2 as [|l ls2 IH] using rev_ind; intros σ.
  - rewrite app_nil_r. eauto.
  - rewrite app_assoc. inversion 1 as [Hn|ls σ1 l' σ' Hr Hs Heq].
    + by destruct (ls1 ++ ls2).
    + apply app_inj_2 in Heq as [-> _]; [eauto|done].
Qed.

(** Once recovery has begun nothing of the candidate is recorded again. *)
Lemma run_recovery_final ls σ :
  run ls σ → rank (Some RECOVERY_DOWNLOAD) ≤ rank (rs_state σ) →
  ∀ l σ', run_step σ l σ' → touches_candidate l = false.
Proof.
  intros _ Hrk l σ' Hstep. destruct Hstep as [σ s He|σ e Hs _|σ c Hs _]; simpl in *.
  - apply edge_rank in He. destruct s; try done; simpl in He; lia.
  - rewrite Hs in Hrk. destruct e; try done; simpl in Hrk; lia.
  - rewrite Hs in Hrk. destruct c; try done; simpl in Hrk; lia.
Qed.

Lemma run_after_recovery ls1 ls2 σ :
  run (ls1 ++ LTransition RECOVERY_DOWNLOAD :: ls2) σ →
  rank (Some RECOVERY_DOWNLOAD) ≤ rank (rs_state σ)
  ∧ Forall (λ l, touches_candidate l = false) ls2.
Proof.
  revert σ. induction ls2 as [|l ls2 IH] using rev_ind; intros σ.
  - inversion 1 as [Hn|ls σ1 l' σ' Hr Hs Heq]; [by destruct ls1|].
    apply app_inj_2 in Heq as [-> [= ->]]; [|done]. inversion Hs; subst. simpl. auto.
  - rewrite app_comm_cons, app_assoc.
    inversion 1 as [Hn|ls σ1 l' σ' Hr Hs Heq]; [by destruct (ls1 ++ _)|].
    apply app_inj_2 in Heq as [-> [= ->]]; [|done].
    destruct (IH _ Hr) as [Hrk Hall]. split.
    + apply step_rank in Hs. lia.
    + apply Forall_app. split; [done|]. constructor; [|constructor].
      by eapply run_recovery_final.
Qed.

(** A closed or aborted run records nothing more. *)
Lemma run_terminal σ l σ' :
  rs_state σ = Some CLOSED ∨ rs_state σ = Some ABORTED → ¬ run_step σ l σ'.
Proof.
  intros Ht Hs. destruct Hs as [σ s He|σ e Hs _|σ c Hs _].
  - apply edge_rank in He. pose proof (rank_le (Some s)). destruct Ht as [E|E]; rewrite E in He; simpl in *; lia.
  - rewrite Hs in Ht. destruct Ht as [[=]|[=]]; by destruct e.
  - rewrite Hs in Ht. destruct Ht as [[=]|[=]]; by destruct c.
Qed.

(** The order the journal picks for the next event, and why it keeps the timeline a prefix. *)
Definition recovery_state (s : fstate) : bool :=
  match s with RECOVERY_DOWNLOAD | ROLLBACK_FLASHED | HEALTH_VERIFIED => true | _ => false end.
Definition order_of (s : fstate) (evs : list fevent) : list fevent :=
  if recovery_state s && negb (bool_decide (candidate_flash_start ∈ evs))
  then recovery_timeline else full_timeline.

Lemma prefix_take {A} (l k : list A) : l `prefix_of` k → l = take (length l) k.
Proof. intros [t ->]. by rewrite take_app_length. Qed.

Ltac order_case Hall Ho e :=
  destruct e; vm_compute in Ho; try discriminate Ho;
  first [left; by eexists | right; by eexists
        | exfalso; generalize (Hall rollback_flash_start ltac:(simpl; set_solver)); simpl; lia].

Lemma order_sound evs e :
  evs `prefix_of` full_timeline ∨ evs `prefix_of` recovery_timeline →
  Forall (λ x, rank (Some (event_home x)) ≤ rank (Some (event_home e))) evs →
  order_of (event_home e) evs !! length evs = Some e →
  evs ++ [e] `prefix_of` full_timeline ∨ evs ++ [e] `prefix_of` recovery_timeline.
Proof.
  intros Hp Hall Ho.
  assert (Hn : length evs ≤ 8) by (destruct Hp as [Hp|Hp]; apply prefix_length in Hp; simpl in Hp; lia).
  destruct Hp as [Hp|Hp]; apply prefix_take in Hp; remember (length evs) as n eqn:E;
    clear E; subst evs; rewrite Forall_forall in Hall;
    (do 9 (destruct n as [|n]; [order_case Hall Ho e|])); lia.
Qed.
