(* ===== verification/F1Refine.v ===== *)
(** * Every accepted journal is a run of the specification

    [F1Journal.records] works on strings and JSON; [F1Spec.run] on
    enumerations.  The refinement maps each accepted record to a label and
    carries the safety properties of runs over to the records the code
    returns.  Every journal written by [create] begins with a transition; replay also
    accepts checkpoints before the first one, which are [leading] and change nothing. *)

From stdpp Require Import base list strings sets.
From Stdlib Require Import ZArith Lia.
From S2P Require Import Prelude PyStr Json Digest F1Schema F1Journal F1JournalTheory F1Spec.
Open Scope string_scope.

(** ** Names *)

Definition state_name (s : fstate) : string :=
  match s with
  | PREFLIGHT => "PREFLIGHT" | APPROVED => "APPROVED" | DOWNLOAD_IDENTIFIED => "DOWNLOAD_IDENTIFIED"
  | CANDIDATE_FLASHED => "CANDIDATE_FLASHED" | OBSERVED => "OBSERVED"
  | RECOVERY_DOWNLOAD => "RECOVERY_DOWNLOAD" | ROLLBACK_FLASHED => "ROLLBACK_FLASHED"
  | HEALTH_VERIFIED => "HEALTH_VERIFIED" | CLOSED => "CLOSED" | ABORTED => "ABORTED"
  end.
Definition event_name (e : fevent) : string :=
  match e with
  | live_session_start => "live_session_start" | candidate_flash_start => "candidate_flash_start"
  | candidate_flash_done => "candidate_flash_done" | candidate_boot_ready => "candidate_boot_ready"
  | rollback_flash_start => "rollback_flash_start" | rollback_flash_done => "rollback_flash_done"
  | rollback_boot_ready => "rollback_boot_ready" | live_session_end => "live_session_end"
  end.
Definition checkpoint_name (c : fcheckpoint) : string :=
  match c with
  | candidate_transfer_attempt => "candidate_transfer_attempt"
  | rollback_transfer_attempt => "rollback_transfer_attempt"
  | download_request_revalidation => "download_request_revalidation"
  end.

Definition all_states : list fstate :=
  [PREFLIGHT; APPROVED; DOWNLOAD_IDENTIFIED; CANDIDATE_FLASHED; OBSERVED; RECOVERY_DOWNLOAD;
   ROLLBACK_FLASHED; HEALTH_VERIFIED; CLOSED; ABORTED].
Definition all_checkpoints : list fcheckpoint :=
  [candidate_transfer_attempt; rollback_transfer_attempt; download_request_revalidation].

Definition state_of_name (s : string) : option fstate := find (λ x, state_name x =? s) all_states.
Definition event_of_name (s : string) : option fevent := find (λ x, event_name x =? s) full_timeline.
Definition checkpoint_of_name (s : string) : option fcheckpoint :=
  find (λ x, checkpoint_name x =? s) all_checkpoints.

Lemma state_of_state_name x : state_of_name (state_name x) = Some x.
Proof. by destruct x. Qed.
Lemma event_of_event_name x : event_of_name (event_name x) = Some x.
Proof. by destruct x. Qed.
Lemma checkpoint_of_checkpoint_name x : checkpoint_of_name (checkpoint_name x) = Some x.
Proof. by destruct x. Qed.

#[export] Instance state_name_inj : Inj (=) (=) state_name.
Proof. intros x y H. apply (f_equal state_of_name) in H. rewrite !state_of_state_name in H. congruence. Qed.
#[export] Instance event_name_inj : Inj (=) (=) event_name.
Proof. intros x y H. apply (f_equal event_of_name) in H. rewrite !event_of_event_name in H. congruence. Qed.

(** ** The tables say what the specification says *)

Lemma next_states_edge st s :
  elem_str s (NEXT_STATES (state_name <$> st)) = true → ∃ x, s = state_name x ∧ edge st x.
Proof.
  rewrite elem_str_In. intros Hin.
  assert (∃ x, state_of_name s = Some x ∧ state_name x = s ∧ edge st x) as (x & _ & <- & He); [|eauto].
  destruct st as [[]|]; simpl in Hin; repeat (destruct Hin as [<-|Hin]); try done;
    (eexists; split; [reflexivity|]; split; [reflexivity|]; by constructor).
Qed.

Lemma event_state_home a s : assoc a EVENT_STATE = Some s →
  ∃ e, a = event_name e ∧ s = state_name (event_home e).
Proof.
  unfold EVENT_STATE. cbn [assoc]. intros H.
  repeat match type of H with
  | (if ?a =? ?k then _ else _) = _ => destruct (String.eqb_spec a k) as [->|_]
  end; [..|done]; injection H as <-.
  - by exists live_session_start.
  - by exists candidate_flash_start.
  - by exists candidate_flash_done.
  - by exists candidate_boot_ready.
  - by exists rollback_flash_start.
  - by exists rollback_flash_done.
  - by exists rollback_boot_ready.
  - by exists live_session_end.
Qed.

Lemma checkpoint_state_home a s : assoc a CHECKPOINT_STATE = Some s →
  ∃ c, a = checkpoint_name c ∧ s = state_name (checkpoint_home c).
Proof.
  unfold CHECKPOINT_STATE. cbn [assoc]. intros H.
  repeat match type of H with
  | (if ?a =? ?k then _ else _) = _ => destruct (String.eqb_spec a k) as [->|_]
  end; [..|done]; injection H as <-.
  - by exists candidate_transfer_attempt.
  - by exists rollback_transfer_attempt.
  - by exists download_request_revalidation.
Qed.

Lemma event_order_spec s evs :
  event_order (Some (state_name s)) (event_name <$> evs) = event_name <$> order_of s evs.
Proof.
  unfold event_order, order_of.
  replace (elem_str (state_name s) RECOVERY_EVENT_STATES) with (recovery_state s) by (by destruct s).
  replace (elem_str "candidate_flash_start" (event_name <$> evs))
    with (bool_decide (candidate_flash_start ∈ evs)).
  - by destruct (recovery_state s && _).
  - apply eq_true_iff_eq. rewrite bool_decide_eq_true, elem_str_In, <- list_elem_of_In.
    change "candidate_flash_start" with (event_name candidate_flash_start).
    split; [apply list_elem_of_fmap_2|]. intros (e & He & Hin)%list_elem_of_fmap.
    by apply (inj event_name) in He as ->.
Qed.

(** ** Simulation *)

Lemma attempts_get_set a b n t :
  attempts_get (JStr a) (attempts_set (JStr b) n t)
  = if a =? b then n else attempts_get (JStr a) t.
Proof.
  induction t as [|[k m] t IH]; simpl; [done|].
  destruct k as [| | | | |k| |]; simpl; rewrite ?IH; try done.
  destruct (String.eqb_spec b k) as [->|Hbk]; simpl.
  - by destruct (a =? k).
  - destruct (String.eqb_spec a k) as [->|Hak]; [|done].
    by rewrite (proj2 (String.eqb_neq k b)).
Qed.

Definition label_of (r : dict) : option label :=
  if is_kind "transition" r then LTransition <$> state_of_name (str_val (fld r "state"))
  else if is_kind "event" r then LEvent <$> event_of_name (str_val (fld r "action"))
  else if is_kind "checkpoint" r then LCheckpoint <$> checkpoint_of_name (str_val (fld r "action"))
  else None.

(** The replay variables represent an abstract state. *)
Record abs (st : option string) (ev : list string) (t : attempts) (σ : run_state) : Prop := {
  abs_state : st = state_name <$> rs_state σ;
  abs_events : ev = event_name <$> rs_events σ;
  abs_count : ∀ c, attempts_get (JStr (checkpoint_name c)) t = Z.of_nat (rs_count σ c)
}.

Lemma checkpoint_sim c outcome details t t' n :
  validate_checkpoint (JStr (checkpoint_name c)) outcome details t = Ok t' →
  attempts_get (JStr (checkpoint_name c)) t = Z.of_nat n →
  (n < checkpoint_limit c)%nat ∧ t' = attempts_set (JStr (checkpoint_name c)) (Z.of_nat (S n)) t.
Proof.
  unfold validate_checkpoint. intros Hv Hn. cbn [is_str] in Hv.
  destruct c; cbn [checkpoint_name String.eqb Ascii.eqb Bool.eqb] in *; rsimp; bsimp;
    rewrite Hn in *; unfold MAX_TRANSFER_ATTEMPTS in *; simpl.
  - split; [lia|]. do 2 f_equal. lia.
  - split; [lia|]. do 2 f_equal. lia.
  - assert (n = 0)%nat as -> by lia. split; [lia|done].
Qed.

Lemma tbl_get_Some v t s : tbl_get v t = Ok (Some s) → ∃ a, v = JStr a ∧ assoc a t = Some s.
Proof. unfold tbl_get. destruct v; simpl; try done. intros [= Ha]. eauto. Qed.

Lemma state_is_Some v s : state_is v (Some s) = true → v = JStr s.
Proof. apply is_str_eq. Qed.

Section Sim.
Context `{Digest}.

Lemma replay_kind_sim ls σ st ev t value st' ev' t' :
  run ls σ → abs st ev t σ →
  (rs_state σ = None → is_kind "transition" value = true) →
  replay_kind st ev t value = Ok (st', ev', t') →
  ∃ l σ', label_of value = Some l ∧ run_step σ l σ' ∧ abs st' ev' t' σ' ∧ rs_state σ' ≠ None.
Proof.
  intros Hrun [-> -> Hct] Hfirst Hk. unfold replay_kind, label_of in *.
  fold (is_kind "transition" value) in Hk. fold (is_kind "event" value) in Hk.
  fold (is_kind "checkpoint" value) in Hk.
  destruct (is_kind "transition" value).
  { apply rbind_Ok in Hk as (ok & Hin & Hk).
    destruct (fld value "state") as [| | | | |s| |]; try done. rsimp. bsimp.
    cbn in Hin. injection Hin as Hin. rewrite <- Hin in H0.
    apply next_states_edge in H0 as (x & -> & He).
    exists (LTransition x). eexists. split; [cbn [str_val]; by rewrite state_of_state_name|].
    split; [by apply step_transition|]. split; [|done]. by constructor. }
  destruct (rs_state σ) as [x|] eqn:Ex; [|by specialize (Hfirst eq_refl)].
  destruct (is_kind "event" value).
  { rsimp. apply bool_decide_eq_true in H2.
    destruct (_ !! _) as [a|] eqn:El; [|done].
    destruct (is_str (fld value "action") a) eqn:Ea; [|done].
    apply is_str_eq in Ea. rewrite Ea in H1. rsimp. subst.
    apply tbl_get_Some in H1 as (a' & [= <-] & (e & -> & Hse)%event_state_home).
    apply (inj state_name) in Hse as ->.
    cbn [fmap option_fmap option_map] in El.
    rewrite event_order_spec, length_fmap, list_lookup_fmap in El.
    apply fmap_Some in El as (e' & El & ->%(inj event_name)).
    destruct (run_has_facts _ _ Hrun) as [_ _ Hev Hpf _ _ Hhm].
    exists (LEvent e'). eexists. split; [rewrite Ea; cbn [str_val]; by rewrite event_of_event_name|].
    split; [apply step_event; [done|]|].
    { apply order_sound; rewrite ?Hev; [done| |by rewrite <- Hev].
      by rewrite Ex in Hhm. }
    split; [|simpl; congruence].
    constructor; simpl; [by rewrite Ex|by rewrite fmap_app|done]. }
  destruct (is_kind "checkpoint" value); [|done].
  rsimp. apply bool_decide_eq_true in H2. subst.
  apply tbl_get_Some in H1 as (a & Ha & (c & -> & Hsc)%checkpoint_state_home).
  apply (inj state_name) in Hsc as ->. rewrite Ha in H3 |- *.
  apply (checkpoint_sim _ _ _ _ _ _ H3) in Hct as Hc. destruct Hc as [Hlt ->].
  exists (LCheckpoint c). eexists. split; [cbn [str_val]; by rewrite checkpoint_of_checkpoint_name|].
  split; [by apply step_checkpoint|]. split; [|simpl; congruence].
  constructor; simpl; [by rewrite Ex|done|]. intros c'. rewrite attempts_get_set.
  unfold bump. destruct (decide (c' = c)) as [->|Hne]; [by rewrite String.eqb_refl|].
  rewrite (proj2 (String.eqb_neq _ _)); [done|]. by destruct c, c'.
Qed.

Definition starts_with_transition (rs : list dict) : Prop :=
  match rs with r :: _ => is_kind "transition" r = true | [] => True end.

(** *** What replay accepts before the first transition

    A checkpoint in no state, for an action that is none of the three; it leaves the
    state, the timeline and the counters of the three as they were. *)

Definition leading (r : dict) : Prop :=
  is_kind "checkpoint" r = true ∧ fld r "state" = JNull
  ∧ ∀ c, fld r "action" ≠ JStr (checkpoint_name c).

Lemma leading_no_transition r : leading r → is_kind "transition" r = false.
Proof.
  intros [Hk _]. unfold is_kind in *. apply is_str_eq in Hk as ->. done.
Qed.
Lemma leading_no_event r : leading r → is_kind "event" r = false.
Proof.
  intros [Hk _]. unfold is_kind in *. apply is_str_eq in Hk as ->. done.
Qed.

Lemma py_eqb_str_r v a : py_eqb v (JStr a) = true → v = JStr a.
Proof. destruct v; try done. cbn. by intros ->%String.eqb_eq. Qed.
Lemma py_eqb_str_l v a : py_eqb (JStr a) v = true → v = JStr a.
Proof. destruct v; try done. cbn. by intros ->%String.eqb_eq. Qed.

Lemma attempts_get_other a v n t :
  v ≠ JStr a → attempts_get (JStr a) (attempts_set v n t) = attempts_get (JStr a) t.
Proof.
  intros Hv. induction t as [|[k m] t IH]; cbn [attempts_set attempts_get].
  - destruct (py_eqb (JStr a) v) eqn:E; [|done]. by apply py_eqb_str_l in E.
  - destruct (py_eqb v k) eqn:E; cbn [attempts_get]; [|by rewrite IH].
    destruct (py_eqb (JStr a) k) eqn:Ek; [|done]. apply py_eqb_str_l in Ek as ->. by apply py_eqb_str_r in E.
Qed.

Lemma validate_checkpoint_sets a o d t t' :
  validate_checkpoint a o d t = Ok t' → ∃ n, t' = attempts_set a n t.
Proof. unfold validate_checkpoint. destruct (is_str a _); intros Hv; rsimp; eauto. Qed.

Lemma replay_kind_leading ev t value st' ev' t' :
  is_kind "transition" value = false → replay_kind None ev t value = Ok (st', ev', t') →
  leading value ∧ st' = None ∧ ev' = ev
  ∧ ∀ c, attempts_get (JStr (checkpoint_name c)) t' = attempts_get (JStr (checkpoint_name c)) t.
Proof.
  unfold replay_kind. fold (is_kind "transition" value) (is_kind "event" value) (is_kind "checkpoint" value).
  intros -> Hk. destruct (is_kind "event" value).
  { apply rbind_Ok in Hk as ([] & _ & Hk). apply rbind_Ok in Hk as (es & He & Hk).
    apply rbind_Ok in Hk as ([] & Hes & Hk). apply require_Ok, bool_decide_eq_true in Hes as ->.
    destruct (event_order None ev !! length ev) as [a|] eqn:El; [|done].
    destruct (is_str (fld value "action") a) eqn:Ea; [|done]. exfalso. apply is_str_eq in Ea. rewrite Ea in He.
    cbn in El. apply list_elem_of_lookup_2 in El. cbn in He. injection He as He.
    repeat (apply elem_of_cons in El as [->|El]; [done|]). by apply elem_of_nil in El. }
  destruct (is_kind "checkpoint" value) eqn:Ec; [|done].
  apply rbind_Ok in Hk as ([] & Hs%require_Ok & Hk). apply rbind_Ok in Hk as (cs & Hc & Hk).
  apply rbind_Ok in Hk as ([] & Hcs & Hk). apply require_Ok, bool_decide_eq_true in Hcs as ->.
  apply rbind_Ok in Hk as (t2 & Hv & [= <- <- <-]). apply validate_checkpoint_sets in Hv as [n ->].
  assert (Hne : ∀ c, fld value "action" ≠ JStr (checkpoint_name c)).
  { intros c Ha. rewrite Ha in Hc. by destruct c. }
  split_and!; [|done|done|].
  - split_and!; [done| |done]. cbn in Hs. by destruct (fld value "state").
  - intros c. by apply attempts_get_other.
Qed.

Lemma run_empty σ : run [] σ → σ = run0.
Proof. intros Hrun. remember [] as ls eqn:E. destruct Hrun as [|ls σ l]; [done|]. by destruct ls. Qed.

(** Every accepted journal is a run of the specification after what leads it. *)
Record splits (rs : list dict) (st : option string) (ev : list string) (t : attempts)
    (pre rest : list dict) (ls : list label) (σ : run_state) : Prop := {
  sp_records : rs = (pre ++ rest)%list;
  sp_leading : Forall leading pre;
  sp_labels : Forall2 (λ r l, label_of r = Some l) rest ls;
  sp_run : run ls σ;
  sp_abs : abs st ev t σ;
  sp_some : rest ≠ [] → rs_state σ ≠ None;
  sp_starts : starts_with_transition rest
}.

Lemma splits_step binding rp1 rp2 file pre rest ls σ :
  splits (rp_records rp1) (rp_state rp1) (rp_events rp1) (rp_attempts rp1) pre rest ls σ →
  replay_step binding rp1 file = Ok rp2 →
  ∃ pre' rest' ls' σ', splits (rp_records rp2) (rp_state rp2) (rp_events rp2) (rp_attempts rp2) pre' rest' ls' σ'.
Proof.
  intros [Hr Hp Hls Hrun Habs Hne Hst] Hs.
  apply replay_step_Ok in Hs as (value & h & _ & _ & _ & _ & _ & _ & Hk & _ & Hr2). rewrite Hr2, Hr.
  assert (Hgo : (rs_state σ = None → is_kind "transition" value = true) →
    ∃ pre' rest' ls' σ', splits ((pre ++ rest) ++ [value])%list (rp_state rp2) (rp_events rp2) (rp_attempts rp2) pre' rest' ls' σ').
  { intros Hfirst. destruct (replay_kind_sim ls σ _ _ _ value _ _ _ Hrun Habs Hfirst Hk) as (l & σ' & Hl & Hstep & Habs' & Hsome).
    exists pre, (rest ++ [value])%list, (ls ++ [l])%list, σ'. split; try done.
    - by rewrite app_assoc.
    - apply Forall2_app; [done|]. by constructor.
    - by eapply run_snoc.
    - destruct rest; [|done]. apply Hfirst. apply Forall2_nil_inv_l in Hls as ->. by rewrite (run_empty _ Hrun). }
  destruct (rs_state σ) as [x|] eqn:Eσ; [by apply Hgo|].
  destruct (is_kind "transition" value) eqn:Et; [by apply Hgo|].
  destruct rest as [|r rest]; [|by destruct Hne]. destruct Habs as [A1 A2 A3]. rewrite A1, Eσ in Hk.
  apply replay_kind_leading in Hk as (Hl & Hs & He & Hc); [|done].
  exists (pre ++ [value])%list, [], ls, σ. split; try done.
  - by rewrite !app_nil_r.
  - apply Forall_app. split; [done|by constructor].
  - split; [by rewrite Hs, Eσ|congruence|]. intros c. by rewrite Hc.
Qed.

Lemma replay_splits binding files rp :
  replay_all binding files = Ok rp →
  ∃ pre rest ls σ, splits (rp_records rp) (rp_state rp) (rp_events rp) (rp_attempts rp) pre rest ls σ.
Proof.
  apply (foldM_ind (replay_step binding) (λ _ rp, ∃ pre rest ls σ,
    splits (rp_records rp) (rp_state rp) (rp_events rp) (rp_attempts rp) pre rest ls σ)).
  - exists [], [], [], run0. split; try done; by constructor.
  - intros _ file rp1 rp2 (pre & rest & ls & σ & IH) Hs. by eapply splits_step.
Qed.

Lemma records_splits rd b rs :
  records rd b = Ok rs →
  ∃ pre rest ls σ, splits rs (current_state rs) (event_actions rs) (checkpoint_attempts rs) pre rest ls σ.
Proof.
  intros (rp & Hrp & (c & _ & [= <-])%rbind_Ok)%rbind_Ok.
  destruct (replay_all_inv _ _ _ Hrp) as [I1 I2 I3 _ _ _]. rewrite <- I1, <- I2, <- I3. by eapply replay_splits.
Qed.

Lemma splits_starts rs st ev t pre rest ls σ :
  splits rs st ev t pre rest ls σ → starts_with_transition rs → pre = [].
Proof.
  intros [-> Hp _ _ _ _ _]. destruct Hp as [|r pre Hr _]; [done|]. cbn.
  by rewrite (leading_no_transition _ Hr).
Qed.

Lemma records_sim rd b rs :
  records rd b = Ok rs → starts_with_transition rs →
  ∃ ls σ, Forall2 (λ r l, label_of r = Some l) rs ls ∧ run ls σ
    ∧ current_state rs = state_name <$> rs_state σ
    ∧ event_actions rs = event_name <$> rs_events σ
    ∧ ∀ c, attempts_get (JStr (checkpoint_name c)) (checkpoint_attempts rs) = Z.of_nat (rs_count σ c).
Proof.
  intros (pre & rest & ls & σ & Hsp)%records_splits Hst. pose proof (splits_starts _ _ _ _ _ _ _ _ Hsp Hst) as ->.
  destruct Hsp as [Hr _ Hls Hrun [H1 H2 H3] _ _]. cbn in Hr. subst rest. by exists ls, σ.
Qed.
End Sim.

(** ** What the records of an accepted journal say *)

Definition transition_states (rs : list dict) : list string :=
  (λ r, str_val (fld r "state")) <$> filter (λ r, is_kind "transition" r = true) rs.

Lemma label_transition r s :
  label_of r = Some (LTransition s) → is_kind "transition" r = true ∧ str_val (fld r "state") = state_name s.
Proof.
  unfold label_of. destruct (is_kind "transition" r).
  - intros (x & Hx & [= ->])%fmap_Some. split; [done|].
    unfold state_of_name in Hx. apply find_some in Hx as [_ ->%String.eqb_eq]. done.
  - destruct (is_kind "event" r); [by intros (? & _ & [=])%fmap_Some|].
    destruct (is_kind "checkpoint" r); [by intros (? & _ & [=])%fmap_Some|done].
Qed.

Lemma label_not_transition r l :
  label_of r = Some l → (∀ s, l ≠ LTransition s) → is_kind "transition" r = false.
Proof.
  unfold label_of. destruct (is_kind "transition" r); [|done].
  intros (x & _ & ->)%fmap_Some Hn. by specialize (Hn x).
Qed.

Lemma transition_states_labels rs ls :
  Forall2 (λ r l, label_of r = Some l) rs ls → transition_states rs = state_name <$> transitions ls.
Proof.
  unfold transition_states, transitions. induction 1 as [|r l rs ls Hl _ IH]; [done|].
  rewrite filter_cons. destruct l as [s| |]; csimpl.
  - apply label_transition in Hl as [Hk Hs]. rewrite decide_True by done. csimpl. by rewrite Hs, IH.
  - rewrite decide_False; [done|]. by rewrite (label_not_transition _ _ Hl).
  - rewrite decide_False; [done|]. by rewrite (label_not_transition _ _ Hl).
Qed.

Lemma transition_states_leading pre rest :
  Forall leading pre → transition_states (pre ++ rest)%list = transition_states rest.
Proof.
  unfold transition_states. induction 1 as [|r pre Hr _ IH]; [done|]. cbn [app]. rewrite filter_cons, decide_False; [done|].
  by rewrite (leading_no_transition _ Hr).
Qed.

Lemma sublist_map {A B} (f : A → B) l k : l `sublist_of` k → f <$> l `sublist_of` f <$> k.
Proof. induction 1; csimpl; auto using sublist. Qed.

Lemma label_action r l :
  label_of r = Some l → touches_candidate l = false →
  (∀ s, l = LTransition s → assoc (state_name s) STATE_ACTION = Some (str_val (fld r "action"))) →
  elem_str (str_val (fld r "action"))
    ["download_identified"; "candidate_flashed"; "candidate_observed"; "candidate_flash_start";
     "candidate_flash_done"; "candidate_boot_ready"; "candidate_transfer_attempt"] = false.
Proof.
  unfold label_of. intros Hl Ht Ha.
  destruct (is_kind "transition" r).
  { apply fmap_Some in Hl as (s & _ & ->). specialize (Ha _ eq_refl).
    destruct s; try done; injection Ha as <-; reflexivity. }
  destruct (is_kind "event" r).
  { apply fmap_Some in Hl as (e & He & ->). apply find_some in He as [_ <-%String.eqb_eq].
    by destruct e. }
  destruct (is_kind "checkpoint" r); [|done].
  apply fmap_Some in Hl as (c & He & ->). apply find_some in He as [_ <-%String.eqb_eq].
  by destruct c.
Qed.

Section Claims.
Context `{Digest}.

(** An accepted transition record carries the action of its state. *)
Lemma replay_actions binding files rp :
  replay_all binding files = Ok rp →
  Forall (λ r, is_kind "transition" r = true →
    assoc (str_val (fld r "state")) STATE_ACTION = Some (str_val (fld r "action"))) (rp_records rp).
Proof.
  apply (foldM_ind (replay_step binding) (λ _ rp, Forall (λ r, is_kind "transition" r = true →
    assoc (str_val (fld r "state")) STATE_ACTION = Some (str_val (fld r "action"))) (rp_records rp)));
    [constructor|].
  intros _ file rp1 rp2 IH Hs.
  apply replay_step_Ok in Hs as (value & h & _ & _ & _ & _ & _ & _ & Hk & _ & ->).
  apply Forall_app. split; [done|]. constructor; [|constructor]. intros Ht.
  unfold replay_kind in Hk. fold (is_kind "transition" value) in Hk. rewrite Ht in Hk.
  apply rbind_Ok in Hk as (ok & _ & Hk).
  destruct (fld value "state") as [| | | | |s| |]; try done.
  apply rbind_Ok in Hk as ([] & Hr & _). apply require_Ok, andb_true_iff in Hr as [_ Ha].
  cbn [str_val]. destruct (assoc s STATE_ACTION); [|done]. by apply is_str_eq in Ha as ->.
Qed.

(** C9. Refinement: every journal that replay accepts and that begins with a transition is,
    record by record, a run of the specification that ends in the state [Journal.state]
    reports. *)
Theorem records_refine rd b rs :
  records rd b = Ok rs → starts_with_transition rs →
  ∃ ls σ, Forall2 (λ r l, label_of r = Some l) rs ls ∧ run ls σ
    ∧ current_state rs = state_name <$> rs_state σ
    ∧ event_actions rs = event_name <$> rs_events σ
    ∧ ∀ c, attempts_get (JStr (checkpoint_name c)) (checkpoint_attempts rs) = Z.of_nat (rs_count σ c).
Proof. apply records_sim. Qed.

(** C21. A run reported [CLOSED] was approved, entered recovery, was rolled back and had its
    health verified, in this order: no accepted journal closes without a rollback. *)
Theorem closed_was_rolled_back rd b rs :
  records rd b = Ok rs → current_state rs = Some "CLOSED" →
  ["PREFLIGHT"; "APPROVED"; "RECOVERY_DOWNLOAD"; "ROLLBACK_FLASHED"; "HEALTH_VERIFIED"; "CLOSED"]
    `sublist_of` transition_states rs.
Proof.
  intros (pre & rest & ls & σ & [Hr Hp Hls Hrun [Hcur _ _] _ _])%records_splits Hc.
  rewrite Hc in Hcur. symmetry in Hcur. apply fmap_Some in Hcur as (s & Hs & Hn).
  assert (s = CLOSED) as -> by (by destruct s).
  rewrite Hr, (transition_states_leading _ _ Hp), (transition_states_labels _ _ Hls).
  apply (sublist_map state_name _ _ (run_obligations _ _ _ Hrun Hs)).
Qed.

Lemma run_count_limit ls σ c : run ls σ → (rs_count σ c ≤ checkpoint_limit c)%nat.
Proof. intros Hrun. by destruct (run_has_facts _ _ Hrun) as [_ _ _ _ _ Hlm _]. Qed.

(** The records around a transition, without what leads them *)
Lemma leading_before pre rest rs1 r rs2 :
  Forall leading pre → (rs1 ++ r :: rs2 = pre ++ rest)%list → is_kind "transition" r = true →
  ∃ rs, rest = (rs ++ r :: rs2)%list.
Proof.
  intros Hp. revert rs1. induction Hp as [|p pre Hl _ IH]; intros rs1 He Hk; [by exists rs1|].
  destruct rs1 as [|x rs1]; injection He as -> He; [|by eapply IH].
  by rewrite (leading_no_transition _ Hl) in Hk.
Qed.

Lemma records_length_bound rd b rs :
  records rd b = Ok rs → starts_with_transition rs → (length rs ≤ 22)%nat.
Proof.
  intros Hrs Hst. destruct (records_sim _ _ _ Hrs Hst) as (ls & σ & Hls & Hrun & _).
  rewrite (Forall2_length _ _ _ Hls). by eapply run_length_bound.
Qed.

(** C38. Bounds: an accepted journal has at most 22 records after those that lead it, and
    whatever it holds neither the candidate nor the rollback is transferred more than
    twice and the Download request is parked at most once.  What can lead it are only
    checkpoints in no state for none of these three actions; replay accepts any number of
    them, the operations write none, so that a journal that begins with a transition
    has at most 22 records in all. *)
Theorem journal_bounds rd b rs :
  records rd b = Ok rs →
  ∃ pre rest, rs = (pre ++ rest)%list ∧ Forall leading pre ∧ starts_with_transition rest
  ∧ (length rest ≤ 22)%nat ∧ (starts_with_transition rs → pre = [])
  ∧ (attempts_get (JStr "candidate_transfer_attempt") (checkpoint_attempts rs) ≤ 2)%Z
  ∧ (attempts_get (JStr "rollback_transfer_attempt") (checkpoint_attempts rs) ≤ 2)%Z
  ∧ (attempts_get (JStr "download_request_revalidation") (checkpoint_attempts rs) ≤ 1)%Z.
Proof.
  intros (pre & rest & ls & σ & Hsp)%records_splits. exists pre, rest.
  pose proof (splits_starts _ _ _ _ _ _ _ _ Hsp) as Hstarts.
  destruct Hsp as [Hr Hp Hls Hrun [_ _ Hct] _ Hst]. split_and!; [done..| |done| | |].
  - rewrite (Forall2_length _ _ _ Hls). by eapply run_length_bound.
  - pose proof (Hct candidate_transfer_attempt) as Hc. cbn [checkpoint_name] in Hc. rewrite Hc.
    pose proof (run_count_limit _ _ candidate_transfer_attempt Hrun) as Hl. cbn [checkpoint_limit] in Hl. lia.
  - pose proof (Hct rollback_transfer_attempt) as Hc. cbn [checkpoint_name] in Hc. rewrite Hc.
    pose proof (run_count_limit _ _ rollback_transfer_attempt Hrun) as Hl. cbn [checkpoint_limit] in Hl. lia.
  - pose proof (Hct download_request_revalidation) as Hc. cbn [checkpoint_name] in Hc. rewrite Hc.
    pose proof (run_count_limit _ _ download_request_revalidation Hrun) as Hl. cbn [checkpoint_limit] in Hl. lia.
Qed.

(** C37. Nothing of the candidate after recovery has begun: once the journal records
    [RECOVERY_DOWNLOAD], no later record identifies a Download endpoint for the candidate,
    attempts or flashes it, or observes it. *)
Theorem no_candidate_after_recovery rd b rs1 r rs2 :
  records rd b = Ok (rs1 ++ r :: rs2)%list →
  is_kind "transition" r = true → fld r "state" = JStr "RECOVERY_DOWNLOAD" →
  Forall (λ r', elem_str (str_val (fld r' "action"))
    ["download_identified"; "candidate_flashed"; "candidate_observed"; "candidate_flash_start";
     "candidate_flash_done"; "candidate_boot_ready"; "candidate_transfer_attempt"] = false) rs2.
Proof.
  intros Hrs Hk Hs. destruct (records_splits _ _ _ Hrs) as (pre & rest & ls & σ & [Hr Hp Hls Hrun _ _ _]).
  destruct (leading_before _ _ _ _ _ Hp Hr Hk) as [rs0 ->].
  apply Forall2_app_inv_l in Hls as (ls1 & ls2' & H1 & H2 & ->).
  inversion H2 as [|? l ? ls2 Hl Hls2]; subst.
  assert (l = LTransition RECOVERY_DOWNLOAD) as ->.
  { unfold label_of in Hl. rewrite Hk, Hs in Hl. cbn in Hl. congruence. }
  apply run_after_recovery in Hrun as [_ Hall].
  apply rbind_Ok in Hrs as (rp & Hrp & (c & _ & [= Heq])%rbind_Ok).
  pose proof (replay_actions _ _ _ Hrp) as Hact. rewrite Heq in Hact.
  apply Forall_app in Hact as [_ Hact]. apply Forall_cons in Hact as [_ Hact].
  clear -Hls2 Hall Hact. induction Hls2 as [|r l rs ls Hl Hls IH]; [constructor|].
  apply Forall_cons in Hall as [Ht Hall]. apply Forall_cons in Hact as [Ha Hact].
  constructor; [|by apply IH]. apply (label_action _ _ Hl Ht).
  intros s ->. apply label_transition in Hl as [Hk Hn]. rewrite <- Hn. by apply Ha.
Qed.

(** The timeline of an accepted journal is a prefix of the full timeline or of the
    rollback-only one. *)
Theorem timeline_is_prefix rd b rs :
  records rd b = Ok rs → starts_with_transition rs →
  event_actions rs `prefix_of` TIMELINE ∨ event_actions rs `prefix_of` RECOVERY_TIMELINE.
Proof.
  intros Hrs Hst. destruct (records_sim _ _ _ Hrs Hst) as (ls & σ & _ & Hrun & _ & -> & _).
  destruct (run_has_facts _ _ Hrun) as [_ _ -> Hpf _ _ _].
  destruct Hpf as [[k Hk]|[k Hk]]; [left|right]; exists (event_name <$> k).
  - by rewrite <- fmap_app, <- Hk.
  - by rewrite <- fmap_app, <- Hk.
Qed.
End Claims.
