(* ===== verification/F1Runs.v ===== *)
(** * Runs written through the journal interface

    [written] collects the run directories that [create], [_append] and
    [reopen] leave behind, complete or cut where [reopen] can go on.  All of
    them replay and inherit every property of [F1Refine].  [broken] collects
    those of an operation cut anywhere else; every operation refuses them.
    The remaining theorems are about the end of a run and about files that
    no operation writes.

    Run directories written by the model itself evaluate the theorems on concrete
    inputs, with one directory that no operation writes but that replay accepts. *)

From stdpp Require Import base list strings gmap sets.
From Stdlib Require Import ZArith Lia.
From S2P Require Import Prelude PyStr Dir Json Digest F1Schema F1Journal F1JournalTheory F1Spec F1Refine.
Open Scope string_scope.

Definition preflight_details (preflight : option dict) : json :=
  match preflight with Some (kv :: d) => JObj (kv :: d) | _ => JObj [("host_only", JBool true)] end.

Section Runs.
Context `{Digest}.

(** [create] cut after [mkdir] of the journal, and before it *)
Definition opened : rundir := {| rd_exists := true; rd_journal := Some ∅; rd_head := None; rd_result := None |}.
Definition parent_only : rundir := {| rd_exists := true; rd_journal := None; rd_head := None; rd_result := None |}.
(** [_write_exclusive] cut after [os.open]: what the file holds is no JSON object.  (A
    prefix of the text of an object that lacks more than the last newline is none.) *)
Definition torn (rd : rundir) (name : string) : rundir :=
  {| rd_exists := rd_exists rd; rd_journal := insert name FBad <$> rd_journal rd;
     rd_head := rd_head rd; rd_result := rd_result rd |}.

(** The run directories that complete operations leave behind, and those of an operation
    that was cut where [reopen] can go on *)
Inductive written (b : string) : rundir → Prop :=
  | w_opened : sha256_re b = true → written b opened
  | w_create rd rd' now preflight :
      json_wf (preflight_details preflight) → create rd b now preflight = Ok rd' → written b rd'
  | w_append rd rd' now kind st act out det :
      written b rd → json_wf det → append_ rd b now kind st act out det = Ok rd' → written b rd'
  | w_crash rd rd' n h now kind st act out det :
      written b rd → json_wf det →
      append_record rd b now kind st act out det = Ok (rd', n, h) → n ≠ 0%nat → written b rd'
  | w_reopen rd rd' : written b rd → reopen rd b = Ok rd' → written b rd'.

(** The run directories of an operation that was cut elsewhere: before the journal was
    made, inside a record file, or between the first record and its head *)
Inductive broken (b : string) : rundir → Prop :=
  | b_parent : broken b parent_only
  | b_torn rd rd' n h now kind st act out det :
      written b rd → append_record rd b now kind st act out det = Ok (rd', n, h) →
      broken b (torn rd (record_name n kind act))
  | b_first rd rd' h now kind st act out det :
      written b rd → json_wf det →
      append_record rd b now kind st act out det = Ok (rd', 0%nat, h) → broken b rd'.

(** What holds of every written run directory. *)
Record journal_ok (b : string) (rd : rundir) (rs : list dict) : Prop := {
  jo_records : records rd b = Ok rs;
  jo_first : ∃ r rs', rs = r :: rs' ∧ is_kind "transition" r = true;
  jo_last : ∃ r h, last rs = Some r ∧ fld r "sequence" = JInt (Z.of_nat (length rs - 1))
                   ∧ fld r "record_sha256" = JStr h;
  jo_sha : sha256_re b = true
}.

Lemma journal_ok_starts b rd rs : journal_ok b rd rs → starts_with_transition rs.
Proof. intros [_ (r & rs' & -> & Hk) _ _]. exact Hk. Qed.

Lemma journal_ok_short b rd rs : journal_ok b rd rs → (length rs < SEQ_BOUND)%nat.
Proof.
  intros Hj. pose proof (records_length_bound _ _ _ (jo_records _ _ _ Hj) (journal_ok_starts _ _ _ Hj)).
  unfold SEQ_BOUND. lia.
Qed.

Lemma snoc_ok b rd rd' rs now kind st act out h det :
  journal_ok b rd rs →
  records rd' b = Ok (rs ++ [norm_dict (signed_record rs b now kind st act out h det)])%list →
  journal_ok b rd' (rs ++ [norm_dict (signed_record rs b now kind st act out h det)])%list.
Proof.
  intros [Hr (r & rs' & -> & Hk) _ Hb] Hr'. constructor; try done.
  - by exists r, (rs' ++ [norm_dict (signed_record (r :: rs') b now kind st act out h det)])%list.
  - eexists _, h. split; [apply last_snoc|].
    rewrite !signed_fld, length_app, Nat.add_sub. split; reflexivity.
Qed.

Lemma append_record_inv rd b now kind st act out det rd' n h :
  append_record rd b now kind st act out det = Ok (rd', n, h) →
  ∃ rs, records rd b = Ok rs ∧ n = length rs ∧ append_guard rs kind st act out det = Ok tt
    ∧ rd_exists rd' = rd_exists rd ∧ is_Some (rd_journal rd).
Proof.
  unfold append_record, write_exclusive. intros Ha. rsimp. destruct (rd_journal rd) as [dir|]; [|done].
  destruct (dir !! _); [done|]. rsimp. by eexists.
Qed.

(** The first record of a journal is a transition. *)
Lemma first_is_transition kind st act out det : append_guard [] kind st act out det = Ok tt → kind = "transition".
Proof.
  unfold append_guard. destruct (String.eqb_spec kind "transition"); [done|].
  destruct (kind =? "event"); [intros Hg%require_Ok; by destruct (_ !! _)|].
  destruct (kind =? "checkpoint"); [|done]. by intros ([] & Hg%require_Ok & _)%rbind_Ok.
Qed.

Lemma first_ok b rd' now kind st act out det :
  sha256_re b = true → json_wf det → append_ opened b now kind st act out det = Ok rd' →
  ∃ rs, journal_ok b rd' rs.
Proof.
  intros Hb Hwf Ha. assert (Hr0 : records opened b = Ok []) by reflexivity.
  destruct (append_snoc _ _ _ _ _ _ _ _ _ [] Hr0 ltac:(unfold SEQ_BOUND; simpl; lia) Hwf Ha) as [h Hh].
  assert (kind = "transition") as ->.
  { apply rbind_Ok in Ha as ([[rd1 n] h'] & Hr & _). apply append_record_inv in Hr as (rs & Hrs & _ & Hg & _).
    rewrite Hr0 in Hrs. injection Hrs as <-. by eapply first_is_transition. }
  eexists. constructor; [exact Hh| | |done].
  - eexists _, []. split; [reflexivity|]. unfold is_kind. by rewrite signed_fld.
  - eexists _, h. split; [reflexivity|]. rewrite !signed_fld. split; reflexivity.
Qed.

Lemma create_ok b rd rd' now preflight :
  json_wf (preflight_details preflight) → create rd b now preflight = Ok rd' →
  ∃ rs, journal_ok b rd' rs.
Proof.
  intros Hwf Hc. unfold create in Hc. apply rbind_Ok in Hc as (b' & Hb & Hc).
  apply rbind_Ok in Hc as ([] & _ & Hc). fold (preflight_details preflight) opened in Hc.
  unfold transition in Hc. cbn [assoc STATE_ACTION String.eqb Ascii.eqb Bool.eqb] in Hc.
  eapply first_ok; [by eapply digest_sha|exact Hwf|exact Hc].
Qed.

Lemma write_head_exists rd v rd' : write_head rd v = Ok rd' → rd_exists rd' = rd_exists rd.
Proof. unfold write_head. destruct (rd_head rd) as [[| |]|]; try done; intros ([] & _ & [= <-])%rbind_Ok; done. Qed.
Lemma append_exists rd b now kind st act out det rd' :
  append_ rd b now kind st act out det = Ok rd' → rd_exists rd' = rd_exists rd.
Proof.
  intros ([[rd1 n] h] & Hr & Hw%write_head_exists)%rbind_Ok.
  apply append_record_inv in Hr as (? & _ & _ & _ & He & _). cbn in Hw. congruence.
Qed.

Lemma reopen_ok b rd rd' rs : journal_ok b rd rs → reopen rd b = Ok rd' → journal_ok b rd' rs.
Proof.
  intros [Hr Hf (r & h & Hl & Hs & Hh) Hb] Hre. constructor; try done; [|by eauto].
  unfold reopen in Hre. apply rbind_Ok in Hre as (b' & _ & Hre).
  apply rbind_Ok in Hre as ([] & _ & Hre). rewrite Hr in Hre. cbn [rbind] in Hre.
  rewrite Hl in Hre. unfold records in Hr |- *.
  apply rbind_Ok in Hr as (rp & Hrp & (c & _ & [= Heq])%rbind_Ok).
  assert (Hw : rd_journal rd' = rd_journal rd
            ∧ rd_head rd' = Some (FJson (norm (JObj (head_value b (fld r "sequence") (fld r "record_sha256")))))).
  { unfold write_head in Hre. destruct (rd_head rd) as [[| |]|]; try done.
    all: apply rbind_Ok in Hre as ([] & _ & [= <-]); done. }
  destruct Hw as [Hw1 Hw2]. unfold rd_listing in *. rewrite Hw1, Hrp, Hw2. cbn [rbind]. rewrite Heq.
  rewrite (head_count_tail b rs r _ Hl); [done| |done|by eauto|done].
  destruct rs; [done|simpl; lia].
Qed.

Lemma opened_reopens b : sha256_re b = true → reopen opened b = Ok opened.
Proof. intros Hb. unfold reopen. rewrite (digest_JStr _ Hb). reflexivity. Qed.

Lemma written_ok b rd : written b rd → sha256_re b = true ∧ (rd = opened ∨ ∃ rs, journal_ok b rd rs).
Proof.
  intros Hw. assert (Hjo : ∀ rd, (∃ rs, journal_ok b rd rs) → sha256_re b = true ∧ (rd = opened ∨ ∃ rs, journal_ok b rd rs)).
  { intros rd0 [rs Hj]. split; [by destruct Hj|right; by exists rs]. }
  induction Hw as [Hb|rd rd' now pre Hwf Hc|rd rd' now kind st act out det _ [Hb IH] Hwf Ha
                  |rd rd' n h now kind st act out det _ [Hb IH] Hwf Ha Hn|rd rd' _ [Hb IH] Hre].
  - split; [done|by left].
  - apply Hjo. by eapply create_ok.
  - apply Hjo. destruct IH as [->|[rs IH]]; [by eapply first_ok|].
    destruct (append_snoc _ _ _ _ _ _ _ _ _ _ (jo_records _ _ _ IH) (journal_ok_short _ _ _ IH) Hwf Ha)
      as [h Hh]. eexists. by eapply snoc_ok.
  - apply Hjo. pose proof (append_record_inv _ _ _ _ _ _ _ _ _ _ _ Ha) as (rs & Hrs & Hlen & _).
    destruct IH as [->|[rs' IH]]; [by injection Hrs as <-|].
    rewrite (jo_records _ _ _ IH) in Hrs. injection Hrs as ->.
    destruct (crash_replays _ _ _ _ _ _ _ _ _ _ _ Ha Hwf) as [(rs' & Hrs & _ & Hh) _]; [|done|].
    + pose proof (journal_ok_short _ _ _ IH). lia.
    + rewrite (jo_records _ _ _ IH) in Hrs. injection Hrs as <-. eexists. by eapply snoc_ok.
  - destruct IH as [->|[rs IH]]; [|apply Hjo; exists rs; by eapply reopen_ok].
    split; [done|left]. rewrite (opened_reopens _ Hb) in Hre. by injection Hre.
Qed.

(** *** Where a run was cut *)

(** A run directory no operation accepts *)
Definition refused (b : string) (rd : rundir) : Prop :=
  is_ok (reopen rd b) = false
  ∧ (∀ now preflight, is_ok (create rd b now preflight) = false)
  ∧ ∀ now kind st act out det, is_ok (append_ rd b now kind st act out det) = false.

Lemma create_exists rd b now preflight : rd_exists rd = true → is_ok (create rd b now preflight) = false.
Proof. intros He. unfold create. destruct (digest_ _); [|done]. by rewrite He. Qed.

Lemma refused_records b rd : rd_exists rd = true → is_ok (records rd b) = false → refused b rd.
Proof.
  intros He Hr. destruct (records rd b) as [rs|e] eqn:E; [done|]. split_and!.
  - unfold reopen. rewrite E. destruct (digest_ _); [|done]. by destruct (rd_journal rd).
  - intros ??. by apply create_exists.
  - intros ??????. unfold append_, append_record. by rewrite E.
Qed.

Lemma replay_all_loads binding files rp :
  replay_all binding files = Ok rp → Forall (λ f, is_ok (load_json f.2) = true) files.
Proof.
  apply (foldM_ind (replay_step binding) (λ fs _, Forall (λ f, is_ok (load_json f.2) = true) fs)); [constructor|].
  intros pre f rp1 rp2 IH Hs. apply Forall_app. split; [done|]. constructor; [|constructor].
  unfold replay_step in Hs. by destruct (load_json f.2).
Qed.

Lemma record_name_json n kind act : endswith ".json" (record_name n kind act) = true.
Proof. unfold record_name. rewrite !str_app_assoc. apply endswith_app. Qed.

Lemma torn_refused b rd name :
  rd_exists rd = true → is_Some (rd_journal rd) → endswith ".json" name = true → refused b (torn rd name).
Proof.
  intros He [dir Hj] Hn. apply refused_records; [done|].
  destruct (records (torn rd name) b) as [rs|] eqn:E; [exfalso|done].
  apply rbind_Ok in E as (rp & Hrp%replay_all_loads & _). unfold rd_listing, torn in Hrp. cbn [rd_journal] in Hrp.
  rewrite Hj in Hrp. cbn in Hrp. rewrite Forall_forall in Hrp.
  specialize (Hrp (name, FBad)). cbn in Hrp. assert (false = true); [|done]. apply Hrp.
  apply listing_by_elem. split; [apply lookup_insert_eq|done].
Qed.

Lemma written_exists b rd : written b rd → rd_exists rd = true.
Proof.
  induction 1 as [|rd rd' now pre Hwf Hc|rd rd' now kind st act out det _ IH Hwf Ha
                 |rd rd' n h now kind st act out det _ IH Hwf Ha Hn|rd rd' _ IH Hre]; [done| | | |].
  - unfold create in Hc. apply rbind_Ok in Hc as (? & _ & Hc). apply rbind_Ok in Hc as ([] & _ & Hc).
    fold opened in Hc. unfold transition in Hc. cbn [assoc STATE_ACTION String.eqb Ascii.eqb Bool.eqb] in Hc.
    by apply append_exists in Hc.
  - apply append_exists in Ha. congruence.
  - apply append_record_inv in Ha as (? & _ & _ & _ & He & _). congruence.
  - unfold reopen in Hre. apply rbind_Ok in Hre as (? & _ & Hre). apply rbind_Ok in Hre as ([] & _ & Hre).
    apply rbind_Ok in Hre as (rs & _ & Hre). destruct (last rs); [|by injection Hre as <-].
    apply write_head_exists in Hre. congruence.
Qed.

Lemma broken_refused b rd : broken b rd → refused b rd.
Proof.
  intros [|rd0 rd' n h now kind st act out det Hw Ha|rd0 rd' h now kind st act out det Hw Hwf Ha].
  - split_and!.
    + unfold reopen. by destruct (digest_ _).
    + intros ??. by apply create_exists.
    + intros now kind st act out det. destruct (append_ _ _ _ _ _ _ _ _) as [rd'|] eqn:E; [exfalso|done].
      apply rbind_Ok in E as ([[rd1 n] h] & Hr & _). apply append_record_inv in Hr as (? & _ & _ & _ & _ & [? ?]). done.
  - pose proof (append_record_inv _ _ _ _ _ _ _ _ _ _ _ Ha) as (rs & _ & _ & _ & _ & Hj).
    apply torn_refused; [by eapply written_exists|done|apply record_name_json].
  - destruct (written_ok _ _ Hw) as [Hb _].
    destruct (crash_first_refused _ _ _ _ _ _ _ _ _ _ Ha Hwf Hb) as [Hr _]. apply refused_records; [|by rewrite Hr].
    apply append_record_inv in Ha as (? & _ & _ & _ & -> & _). by eapply written_exists.
Qed.

(** C23. Every run directory reachable through the journal's operations, wherever they were
    cut.  If every append was complete or cut between a record after the first and its
    head, the journal replays without error, begins with a transition, has at most 22
    records - none only before the first append - and is a run of the specification.  If
    [create] was cut before it made the journal, or an append inside its record file or
    between the first record and its head, then [reopen], [create] and every append
    refuse the run directory. *)
Theorem written_journals_replay b rd :
  (written b rd →
    ∃ rs ls σ, records rd b = Ok rs ∧ starts_with_transition rs ∧ (length rs ≤ 22)%nat ∧ (rs = [] → rd = opened)
      ∧ Forall2 (λ r l, label_of r = Some l) rs ls ∧ run ls σ
      ∧ state rd b = Ok (state_name <$> rs_state σ))
  ∧ (broken b rd → refused b rd).
Proof.
  split; [|apply broken_refused]. intros [_ [->|[rs Hj]]]%written_ok.
  { exists [], [], run0. by split_and!; [..|constructor|constructor|]; try (simpl; lia). }
  pose proof (journal_ok_starts _ _ _ Hj) as Hst.
  destruct (records_sim _ _ _ (jo_records _ _ _ Hj) Hst) as (ls & σ & Hls & Hrun & Hcur & _).
  exists rs, ls, σ. split_and!; try done.
  - apply Hj.
  - by eapply records_length_bound; [apply Hj|].
  - intros ->. by destruct (jo_first _ _ _ Hj) as (? & ? & ? & _).
  - unfold state. rewrite (jo_records _ _ _ Hj). cbn [rbind]. by rewrite Hcur.
Qed.

Lemma assoc_In (a : string) (t : list (string * string)) s : assoc a t = Some s → In (a, s) t.
Proof.
  induction t as [|[k v] t IH]; simpl; [done|].
  destruct (String.eqb_spec a k) as [->|]; [intros [= ->]; auto|auto].
Qed.

(** A finished run is final: once the state is [CLOSED] or [ABORTED], [_append] refuses
    every record of every kind. *)
Theorem finished_run_is_final rd b rs now kind st act out det :
  records rd b = Ok rs →
  current_state rs = Some "CLOSED" ∨ current_state rs = Some "ABORTED" →
  is_ok (append_ rd b now kind st act out det) = false.
Proof.
  intros Hrs Hc. unfold append_, append_record. rewrite Hrs. cbn [rbind].
  assert (is_ok (append_guard rs kind st act out det) = false) as Hg; [|by destruct (append_guard _ _ _ _ _ _)].
  destruct (append_guard rs kind st act out det) as [[]|] eqn:Hg; [exfalso|done].
  unfold append_guard in Hg.
  destruct (kind =? "transition").
  { apply require_Ok, andb_true_iff in Hg as [Hg _]. destruct Hc as [Hc|Hc]; rewrite Hc in Hg; done. }
  destruct (kind =? "event").
  { apply require_Ok in Hg. destruct (_ !! _); [|done]. bsimp. unfold opt_str_eqb in *. bsimp.
    apply assoc_In in H2. rewrite <- H0 in Hc. destruct Hc as [[= ->]|[= ->]];
      simpl in H2; repeat destruct H2 as [[=]|H2]; done. }
  destruct (kind =? "checkpoint"); [|done].
  apply rbind_Ok in Hg as ([] & Hr & _). apply require_Ok in Hr. bsimp. unfold opt_str_eqb in *. bsimp.
  apply assoc_In in H1. rewrite <- H0 in Hc. destruct Hc as [[= ->]|[= ->]];
    simpl in H1; repeat destruct H1 as [[=]|H1]; done.
Qed.

(** A run that enters recovery right after [candidate_flash_start] can record no further
    event: the timeline stays at its second entry whatever is asked of it. *)
Theorem cut_timeline_is_frozen rd b rs now name det s :
  records rd b = Ok rs →
  event_actions rs = ["live_session_start"; "candidate_flash_start"] →
  current_state rs = Some s → elem_str s RECOVERY_EVENT_STATES = true →
  event rd b now name det = Err (F1V2Error "invalid timeline event").
Proof.
  intros Hrs Hev Hc Hs. unfold event, state, append_, append_record. rewrite Hrs. cbn [rbind].
  rewrite Hc. cbn [rbind]. unfold append_guard.
  change ("event" =? "transition") with false. change ("event" =? "event") with true. cbv iota.
  rewrite Hev, Hc.
  assert (event_order (Some s) ["live_session_start"; "candidate_flash_start"] = TIMELINE) as ->
    by (unfold event_order; rewrite Hs; reflexivity).
  change (TIMELINE !! length ["live_session_start"; "candidate_flash_start"])
    with (Some "candidate_flash_done"). cbv iota.
  match goal with |- context [require ?c _] => destruct c eqn:Hr end; [exfalso|done].
  bsimp. subst. unfold opt_str_eqb in *. bsimp. injection H2 as <-. done.
Qed.
End Runs.

(** ** The journal on concrete runs *)

#[local] Existing Instance checksum_digest.

Definition demo_binding : string := Eval vm_compute in String.concat "" (replicate 64 "a").
Definition fresh : rundir :=
  {| rd_exists := false; rd_journal := None; rd_head := None; rd_result := None |}.

Definition get_ok {A} (d : A) (r : result A) : A := match r with Ok a => a | Err _ => d end.

Definition created : rundir := Eval vm_compute in get_ok fresh (create fresh demo_binding "t0" None).

Definition demo_transition (rd : rundir) (s : string) : rundir :=
  get_ok rd (transition rd demo_binding "t1" s "ok" (JObj [])).

(** Approved, then straight into recovery, rolled back, healthy and closed. *)
Definition recovering : rundir := Eval vm_compute in
  demo_transition (demo_transition created "APPROVED") "RECOVERY_DOWNLOAD".
Definition closed : rundir := Eval vm_compute in
  demo_transition (demo_transition (demo_transition recovering "ROLLBACK_FLASHED") "HEALTH_VERIFIED") "CLOSED".

(** A session whose candidate transfer was started and cut. *)
Definition cut : rundir := Eval vm_compute in
  let rd1 := get_ok created (event created demo_binding "t1" "live_session_start" (JObj [])) in
  let rd2 := demo_transition (demo_transition rd1 "APPROVED") "DOWNLOAD_IDENTIFIED" in
  let rd3 := get_ok rd2 (event rd2 demo_binding "t2" "candidate_flash_start" (JObj [])) in
  demo_transition rd3 "RECOVERY_DOWNLOAD".

Definition demo_records (rd : rundir) : list dict := get_ok [] (records rd demo_binding).
Definition created_rs : list dict := Eval vm_compute in demo_records created.
Definition recovering_rs : list dict := Eval vm_compute in demo_records recovering.
Definition closed_rs : list dict := Eval vm_compute in demo_records closed.
Definition cut_rs : list dict := Eval vm_compute in demo_records cut.

Lemma created_records : records created demo_binding = Ok created_rs.
Proof. vm_compute. reflexivity. Qed.
Lemma recovering_records : records recovering demo_binding = Ok recovering_rs.
Proof. vm_compute. reflexivity. Qed.
Lemma closed_records : records closed demo_binding = Ok closed_rs.
Proof. vm_compute. reflexivity. Qed.
Lemma cut_records : records cut demo_binding = Ok cut_rs.
Proof. vm_compute. reflexivity. Qed.

Example closed_length : length closed_rs = 6.
Proof. reflexivity. Qed.

(** ** The theorems at these runs *)

Lemma host_only_wf : json_wf (JObj [("host_only", JBool true)]).
Proof. split; [repeat constructor; set_solver|done]. Qed.

Definition approved : rundir := Eval vm_compute in demo_transition created "APPROVED".

Lemma append_extends_witness :
  ∃ h, records approved demo_binding
       = Ok (created_rs ++ [norm_dict (signed_record created_rs demo_binding "t1" "transition"
               "APPROVED" "approval_bound" "ok" h (JObj []))])%list.
Proof.
  apply (append_extends created demo_binding "t1" "transition" "APPROVED" "approval_bound" "ok" (JObj [])).
  - apply created_records.
  - vm_compute. lia.
  - split; [constructor|done].
  - vm_compute. reflexivity.
Defined.

(** The record file of the approval without its head. *)
Definition approved_cut : rundir * nat * string := Eval vm_compute in
  get_ok (created, 0%nat, "")
    (append_record created demo_binding "t1" "transition" "APPROVED" "approval_bound" "ok" (JObj [])).

Definition first_cut : rundir * nat * string := Eval vm_compute in
  get_ok (fresh, 0%nat, "")
    (append_record {| rd_exists := true; rd_journal := Some ∅; rd_head := None; rd_result := None |}
       demo_binding "t0" "transition" "PREFLIGHT" "preflight_validated" "ok"
       (JObj [("host_only", JBool true)])).

Lemma crash_before_head_recovered_witness :
  reopen approved_cut.1.1 demo_binding = Ok approved
  ∧ is_ok (reopen first_cut.1.1 demo_binding) = false.
Proof.
  split.
  - transitivity (append_ created demo_binding "t1" "transition" "APPROVED" "approval_bound" "ok" (JObj [])).
    + apply (crash_before_head_recovered created demo_binding "t1" "transition" "APPROVED"
               "approval_bound" "ok" (JObj []) approved_cut.1.1 approved_cut.1.2 approved_cut.2).
      * vm_compute. reflexivity.
      * split; [constructor|done].
      * vm_compute. lia.
      * vm_compute. reflexivity.
      * vm_compute. lia.
    + vm_compute. reflexivity.
  - pose proof (crash_before_head_recovered opened demo_binding "t0" "transition" "PREFLIGHT" "preflight_validated" "ok"
      (JObj [("host_only", JBool true)]) first_cut.1.1 0 first_cut.2) as Hc.
    destruct Hc as [_ Hc]; [vm_compute; reflexivity|apply host_only_wf|unfold SEQ_BOUND; lia|vm_compute; reflexivity|].
    rewrite (proj2 (Hc eq_refl)). reflexivity.
Defined.

Lemma crash_at_first_record_witness :
  records first_cut.1.1 demo_binding = Err (F1V2Error "journal head is missing or indirect").
Proof.
  apply (crash_at_first_record fresh demo_binding "t0" None created first_cut.1.1 first_cut.2).
  - vm_compute. reflexivity.
  - vm_compute. reflexivity.
  - split; [repeat constructor; set_solver|done].
Defined.

(** [recovering] with the file of its last record removed *)
Definition lost : rundir := Eval vm_compute in
  {| rd_exists := true;
     rd_journal := delete (record_name 2 "transition" "recovery_download_identified") <$> rd_journal recovering;
     rd_head := rd_head recovering; rd_result := None |}.

Lemma lost_record_detected_witness : is_ok (records lost demo_binding) = false.
Proof.
  apply (lost_record_detected recovering lost demo_binding recovering_rs).
  - apply recovering_records.
  - vm_compute. reflexivity.
  - reflexivity.
  - vm_compute. lia.
Defined.

Lemma records_refine_witness :
  ∃ ls σ, Forall2 (λ r l, label_of r = Some l) closed_rs ls ∧ run ls σ
    ∧ current_state closed_rs = state_name <$> rs_state σ.
Proof.
  destruct (records_refine closed demo_binding closed_rs closed_records eq_refl)
    as (ls & σ & H1 & H2 & H3 & _). by exists ls, σ.
Defined.

Lemma closed_was_rolled_back_witness :
  ["PREFLIGHT"; "APPROVED"; "RECOVERY_DOWNLOAD"; "ROLLBACK_FLASHED"; "HEALTH_VERIFIED"; "CLOSED"]
    `sublist_of` transition_states closed_rs.
Proof. by apply (closed_was_rolled_back closed demo_binding closed_rs closed_records). Defined.

Lemma journal_bounds_witness : (length closed_rs ≤ 22)%nat.
Proof.
  destruct (journal_bounds closed demo_binding closed_rs closed_records) as (pre & rest & Hr & _ & _ & Hl & Hs & _).
  rewrite (Hs eq_refl) in Hr. cbn in Hr. rewrite Hr. exact Hl.
Defined.

Lemma no_candidate_after_recovery_witness :
  Forall (λ r', elem_str (str_val (fld r' "action"))
      ["download_identified"; "candidate_flashed"; "candidate_observed"; "candidate_flash_start";
       "candidate_flash_done"; "candidate_boot_ready"; "candidate_transfer_attempt"] = false)
    (drop 3 closed_rs).
Proof.
  apply (no_candidate_after_recovery closed demo_binding (take 2 closed_rs)
           (nth 2 closed_rs []) (drop 3 closed_rs)).
  - apply closed_records.
  - reflexivity.
  - reflexivity.
Defined.

Lemma timeline_is_prefix_witness :
  event_actions cut_rs `prefix_of` TIMELINE ∨ event_actions cut_rs `prefix_of` RECOVERY_TIMELINE.
Proof. by apply (timeline_is_prefix cut demo_binding cut_rs cut_records). Defined.

Lemma written_journals_replay_witness :
  (∃ rs ls σ, records created demo_binding = Ok rs ∧ starts_with_transition rs
    ∧ (length rs ≤ 22)%nat ∧ (rs = [] → created = opened) ∧ Forall2 (λ r l, label_of r = Some l) rs ls ∧ run ls σ
    ∧ state created demo_binding = Ok (state_name <$> rs_state σ))
  ∧ refused demo_binding first_cut.1.1
  ∧ refused demo_binding (torn created (record_name approved_cut.1.2 "transition" "approval_bound")).
Proof.
  assert (Hw : written demo_binding created).
  { apply (w_create _ fresh created "t0" None); [apply host_only_wf|vm_compute; reflexivity]. }
  split_and!.
  - by apply (proj1 (written_journals_replay demo_binding created)).
  - apply (proj2 (written_journals_replay demo_binding first_cut.1.1)).
    apply (b_first _ opened first_cut.1.1 first_cut.2 "t0" "transition" "PREFLIGHT" "preflight_validated" "ok"
      (JObj [("host_only", JBool true)])); [by apply w_opened|apply host_only_wf|vm_compute; reflexivity].
  - apply (proj2 (written_journals_replay demo_binding _)).
    apply (b_torn _ created approved_cut.1.1 approved_cut.1.2 approved_cut.2 "t1" "transition" "APPROVED" "approval_bound" "ok"
      (JObj [])); [done|vm_compute; reflexivity].
Defined.

Lemma finished_run_is_final_witness :
  is_ok (append_ closed demo_binding "t9" "transition" "ABORTED" "run_aborted" "late" (JObj [])) = false.
Proof.
  apply (finished_run_is_final closed demo_binding closed_rs); [apply closed_records|by left].
Defined.

Lemma cut_timeline_is_frozen_witness :
  event cut demo_binding "t9" "rollback_flash_start" (JObj []) = Err (F1V2Error "invalid timeline event").
Proof.
  by apply (cut_timeline_is_frozen cut demo_binding cut_rs _ _ _ "RECOVERY_DOWNLOAD" cut_records).
Defined.

(** ** A record no operation writes

    Before the first transition the replayed state is [None], and
    [CHECKPOINT_STATE.get] is [None] for an unknown action: a checkpoint with
    [null] state and an action outside [CHECKPOINT_STATE] passes both tests. *)

Definition forged_unsigned : dict :=
  [("schema", JStr JOURNAL_SCHEMA); ("sequence", JInt 0); ("timestamp_utc", JStr "t");
   ("kind", JStr "checkpoint"); ("state", JNull); ("action", JStr "any");
   ("outcome", JStr "attempt_started");
   ("details", JObj [("attempt", JInt 1);
      ("start", JObj [("path", JStr "p"); ("size", JInt 1); ("sha256", JStr demo_binding)])]);
   ("binding_sha256", JStr demo_binding); ("previous_record_sha256", JStr ZERO_SHA)].

Definition forged_sha : string := Eval vm_compute in
  get_ok "" (record_hash (H := Sha256.digest) forged_unsigned).
Definition forged_record : dict := Eval vm_compute in
  norm_dict (forged_unsigned ++ [("record_sha256", JStr forged_sha)])%list.
Definition forged : rundir :=
  {| rd_exists := true;
     rd_journal := Some {[ "0000-checkpoint-any.json" := FJson (JObj forged_record) ]};
     rd_head := Some (FJson (JObj (norm_dict (head_value demo_binding (JInt 0) (JStr forged_sha)))));
     rd_result := None |}.

(** Replay accepts a journal whose first record is a checkpoint for an action that is not
    in [CHECKPOINT_STATE], recorded in no state; [Journal.checkpoint] itself refuses to write
    one. *)
Theorem leading_checkpoint_accepted :
  records (H := Sha256.digest) forged demo_binding = Ok [forged_record]
  ∧ current_state [forged_record] = None
  ∧ label_of forged_record = None
  ∧ checkpoint (H := Sha256.digest) {| rd_exists := true; rd_journal := Some ∅; rd_head := None; rd_result := None |}
      demo_binding "t" "any" "attempt_started" (fld forged_record "details")
    = Err (F1V2Error "journal has no state").
Proof. split_and!; vm_compute; reflexivity. Qed.
