(* ===== verification/Registry.v ===== *)
(** * The global consumed-candidate registry

    Models [consumed_candidate_registry_v1.py]: the fixed directory layout
    and its validation, the hash-chained claim and release records, the head
    with its one-record tail repair, [claim], [release], [active_claim],
    [preflight_candidate], [derive_candidate_identity], the F1 owner sentinel
    and the target-session lease.

    Paths are relative to the repository root.  The section variables stand
    for what the host decides: whether the repository is the one the module
    lives in ([Path(repo_root).resolve() == REPO_ROOT]), its absolute path,
    [Path.resolve] on absolute paths, and the process and object numbers in
    the name of the head staging file. *)

From stdpp Require Import base list strings gmap sorting.
From Stdlib Require Import ZArith Lia Ascii.
From S2P Require Import Prelude PyStr Dir Json Digest HostFs.
Open Scope string_scope.

Definition REGISTRY_SCHEMA : string := "device_action_f1_consumed_candidate_registry_v1".
Definition HEAD_SCHEMA : string := "device_action_f1_consumed_candidate_registry_head_v1".
Definition RECORD_SCHEMA : string := "device_action_f1_consumed_candidate_record_v1".
Definition IDENTITY_SCHEMA : string := "device_action_f1_verified_candidate_identity_v1".
Definition LEGACY_AUTHORITY_SHA256 : string :=
  "db6bd3f0218e5e53b20bec18a6a747414477134ec5008af20c15ae098c88ca7a".
Definition REGISTRY_DIR_NAME : string := "consumed-candidate-registry-v1".
Definition HEAD_NAME : string := "head.json".
Definition LOCK_NAME : string := "writer.lock".
Definition SESSION_LOCK_NAME : string := "target-session.lock".
Definition RECORDS_NAME : string := "records".
Definition ACTIVATION_NAME : string := "activation.json".
Definition ACTIVATION_SCHEMA : string := "device_action_f1_consumed_candidate_registry_activation_v1".
Definition MAX_RECORDS : nat := 4096.
Definition MAX_RECORD_BYTES : N := 65536.
Definition MAX_HEAD_BYTES : N := 16384.
Definition MAX_LOCK_BYTES : N := 256.
Definition LOCK_PAYLOAD : string := "device-action-f1-consumed-candidate-registry-v1" ++ nl.
Definition SESSION_LOCK_PAYLOAD : string := "device-action-f1-target-session-lease-v1" ++ nl.
Definition ZERO_SHA256 : string := zeros 64.
Definition RELOCATION_NAME : string := "registry-host-relocation-20260921-v1.json".
Definition RELOCATION_RECORD : json :=
  JObj [("size", JInt 10931);
        ("sha256", JStr "224df3e82b8ac7c3d4d7d4611c79350bfec23da511aba960a98260bc6bfffb99")].
Definition BOOT_MEMBER : string := "boot.img.lz4".
Definition MAX_IMAGE : Z := 256 * 1024 * 1024.

(** Modes [0o700], [0o600] and [0o400]. *)
Definition M700 : Z := 448.
Definition M600 : Z := 384.
Definition M400 : Z := 256.

(** Directories, relative to the repository root. *)
Definition PRIVATE : string := "workspace/private".
Definition ROOT : string := PRIVATE ++ "/" ++ REGISTRY_DIR_NAME.
Definition RECORDS : string := ROOT ++ "/" ++ RECORDS_NAME.
Definition RESEARCH : string := "workspace/private/runs/s22plus-goal-research-v1".
Definition PENDING_NAME : string := "pending-d1.json".
Definition OWNER_NAME : string := "f1-owner.json".
Definition AUTHORITY_DIR : string := "workspace/public/src/scripts/revalidation".
Definition AUTHORITY_NAME : string := "device_action_f1_legacy_consumed_candidate_authority_v1.json".

(** ** Names *)

(** A nonempty run of digits at the front; returns the rest. *)
Fixpoint take_digits (s : string) : nat * string :=
  match s with
  | String c s' => if is_digit c then let r := take_digits s' in (S r.1, r.2) else (0%nat, s)
  | "" => (0%nat, "")
  end.

Definition strip_prefix (p s : string) : option string :=
  if String.prefix p s
  then Some (String.substring (String.length p) (String.length s - String.length p) s)
  else None.

(** [HEAD_TEMP_RE], the pattern [\.head\.json\.next-[0-9]+-[0-9]+] *)
Definition head_temp_re (s : string) : bool :=
  match strip_prefix ".head.json.next-" s with
  | None => false
  | Some t =>
      let d1 := take_digits t in
      match strip_prefix "-" d1.2 with
      | None => false
      | Some u => let d2 := take_digits u in
                  (1 <=? d1.1)%nat && (1 <=? d2.1)%nat && (d2.2 =? "")
      end
  end.

(** The pattern [[0-9]{8}-(?:claim|release)\.json] *)
Definition record_re (s : string) : bool :=
  let d := take_digits s in
  (d.1 =? 8)%nat && ((d.2 =? "-claim.json") || (d.2 =? "-release.json")).

(** The glob [[0-9]x8-*.json] of [_record_paths] *)
Definition record_glob (s : string) : bool :=
  all_chars is_digit (String.substring 0 8 s) && startswith "-" (String.substring 8 1 s)
  && (14 <=? String.length s)%nat && endswith ".json" s.

Definition record_file (sequence : nat) (event : string) : string :=
  (fmt_0d 8 sequence ++ "-") ++ event ++ ".json".

Definition staging_name (pid oid : nat) : string :=
  ".head.json.next-" ++ str_of_nat pid ++ "-" ++ str_of_nat oid.

(** ** Values *)

Definition reg {A} (msg : string) : result A := Err (RegistryError msg).
Definition rreq (b : bool) (msg : string) : result unit := require b (RegistryError msg).

Definition strict_int (v : json) : bool := match v with JInt _ => true | _ => false end.
Definition int_of (v : json) : Z := match v with JInt z => z | _ => 0%Z end.
Definition str_of (v : json) : string := match v with JStr s => s | _ => "" end.
Definition sha_text (v : json) : bool := match v with JStr s => sha256_re s | _ => false end.
Definition id_text (v : json) : bool := match v with JStr s => id_re s | _ => false end.

(** [SHA256_RE.fullmatch(str(v))] *)
Definition sha_of_str (v : json) : bool :=
  match v with JStr s => sha256_re s | JInt z => sha256_re (str_of_Z z) | _ => false end.

(** ** Reading *)

Definition read_regular (nd : option node) (mode : option Z) (maximum : N) : result body :=
  match nd with
  | None => Err (RegistryUnavailable "cannot be read")
  | Some n =>
      do* rreq (match nd_kind n with KReg => true | _ => false end)
            "is not a direct regular file" in
      do* rreq (nd_nlink n =? 1)%Z "link count differs" in
      do* rreq (match mode with Some m => (nd_mode n =? m)%Z | None => true end) "mode differs" in
      do* rreq (N.of_nat (body_size (nd_body n)) <=? maximum)%N "exceeds its size bound" in
      Ok (nd_body n)
  end.

Definition direct_dir (nd : option node) (mode : Z) : result unit :=
  match nd with
  | None => Err (RegistryUnavailable "is unavailable")
  | Some n =>
      do* rreq (match nd_kind n with KDir => true | _ => false end) "is not a direct directory" in
      do* rreq (2 <=? nd_nlink n)%Z "has an invalid link count" in
      rreq (nd_mode n =? mode)%Z "mode differs"
  end.

(** [_parse_json]: unique keys, finite numbers, an object, and canonical bytes *)
Definition parse_json (b : body) : result dict :=
  match b with
  | BText (JObj d) =>
      do* rreq (json_nodup (JObj d)) "has duplicate JSON key" in
      do* rreq (finite (JObj d)) "has non-finite JSON constant" in
      Ok (norm_dict d)
  | _ => reg "is not canonical JSON"
  end.

Definition lock_path_identity (nd : option node) : result dict :=
  match nd with
  | None => Err (RegistryUnavailable "registry lock identity is unavailable")
  | Some n =>
      do* rreq (match nd_kind n with KReg => (nd_nlink n =? 1)%Z && (nd_mode n =? M600)%Z
                | _ => false end) "registry lock identity is malformed" in
      Ok [("st_dev", JInt (nd_dev n)); ("st_ino", JInt (nd_ino n));
          ("st_size", JInt (Z.of_nat (body_size (nd_body n)))); ("mode", JInt (nd_mode n));
          ("nlink", JInt (nd_nlink n))]
  end.

Definition validate_lock (nd : option node) (payload : string) : result unit :=
  let* b := read_regular nd (Some M600) MAX_LOCK_BYTES in
  rreq (bytes_of b =? payload) "registry writer lock identity differs".

(** ** Lock identities *)

Definition LOCK_KEYS : list string := ["writer_lock_identity"; "session_lock_identity"].
Definition LOCK_FIELDS : list string := ["st_dev"; "st_ino"; "st_size"; "mode"; "nlink"].

Definition lock_row_ok (v : json) : bool :=
  match v with
  | JObj row => keys_match row LOCK_FIELDS
                && forallb (λ kv, strict_int kv.2 && (0 <=? int_of kv.2)%Z) row
  | _ => false
  end.
Definition lock_field (rows : dict) (key field : string) : Z :=
  match fld rows key with JObj row => int_of (fld row field) | _ => 0%Z end.
Definition one_device (rows : dict) : bool :=
  (lock_field rows "writer_lock_identity" "st_dev"
   =? lock_field rows "session_lock_identity" "st_dev")%Z.

Definition same_lock_set (expected current : dict) : bool :=
  keys_match expected LOCK_KEYS && keys_match current LOCK_KEYS
  && forallb (λ kv, lock_row_ok kv.2) (expected ++ current)%list
  && one_device expected && one_device current
  && forallb (λ key, forallb (λ field,
       (lock_field expected key field =? lock_field current key field)%Z)
       ["st_ino"; "st_size"; "mode"; "nlink"]) LOCK_KEYS.

(** ** The head *)

Section Registry.
Context `{Digest} (is_repo : bool) (root_path : string) (resolve : string → string) (pid oid : nat).

(** [_canonical] and [_sha] together, and [_identity] of a file *)
Definition canonical_sha (v : json) : result string :=
  match canonical v with
  | Some t => Ok (hexdigest (t ++ nl))
  | None => reg "registry value is not canonical JSON"
  end.
Definition identity_of (b : body) : dict :=
  [("size", JInt (Z.of_nat (body_size b))); ("sha256", JStr (hexdigest (bytes_of b)))].

Definition head_body (record_count last_sequence : Z) (last : string) : dict :=
  [("schema", JStr HEAD_SCHEMA); ("record_count", JInt record_count);
   ("last_sequence", JInt last_sequence); ("last_record_sha256", JStr last)].
Definition head_value (record_count last_sequence : Z) (last : string) : result dict :=
  let body := head_body record_count last_sequence last in
  let* h := canonical_sha (JObj body) in
  Ok (body ++ [("head_sha256", JStr h)])%list.

Definition validate_head (value : dict) : result unit :=
  do* rreq (keys_match value ["schema"; "record_count"; "last_sequence"; "last_record_sha256";
                              "head_sha256"]
            && is_str (fld value "schema") HEAD_SCHEMA) "registry head schema differs" in
  let count := fld value "record_count" in
  do* rreq (strict_int count && (0 <=? int_of count)%Z
            && (int_of count <=? Z.of_nat MAX_RECORDS)%Z) "registry head record count differs" in
  let seq := fld value "last_sequence" in
  do* rreq (strict_int seq && (int_of seq =? int_of count - 1)%Z)
        "registry head sequence differs" in
  do* rreq (sha_text (fld value "last_record_sha256")) "registry head record digest differs" in
  do* rreq (sha_text (fld value "head_sha256")) "registry head digest is malformed" in
  let* h := canonical_sha (JObj (dremove "head_sha256" value)) in
  do* rreq (is_str (fld value "head_sha256") h) "registry head digest does not verify" in
  rreq (negb ((int_of count =? 0)%Z && negb (is_str (fld value "last_record_sha256") ZERO_SHA256)))
    "empty registry head has a nonempty digest".

(** ** Records *)

Definition record_digest (value : dict) : result string :=
  canonical_sha (JObj (dremove "record_sha256" value)).

(** [records[-1]["record_sha256"] if records else ZERO_SHA256] *)
Definition last_record_sha (rs : list dict) : string :=
  match last rs with Some r => str_of (fld r "record_sha256") | None => ZERO_SHA256 end.

Definition claim_id (candidate_key run_id approval : string) (sequence : nat) : result string :=
  canonical_sha (JObj [("candidate_key", JStr candidate_key); ("run_id", JStr run_id);
                       ("approval_binding_sha256", JStr approval);
                       ("sequence", JInt (Z.of_nat sequence))]).

Definition candidate_key_from_identity (value : dict) : result string :=
  canonical_sha (JObj [("schema", JStr IDENTITY_SCHEMA); ("target_key", fld value "target_key");
    ("candidate_ap_sha256", fld value "candidate_ap_sha256");
    ("candidate_ap_size", fld value "candidate_ap_size");
    ("boot_member_name", fld value "boot_member_name");
    ("boot_member_size", fld value "boot_member_size");
    ("boot_member_sha256", fld value "boot_member_sha256");
    ("allowed_member", JStr BOOT_MEMBER)]).

Definition malformed (key : string) : string := "registry " ++ key ++ " is malformed".
Definition SHA_FIELDS : list string :=
  ["candidate_key"; "target_profile_sha256"; "target_key"; "candidate_ap_sha256";
   "approval_binding_sha256"; "claim_id"; "previous_record_sha256"; "boot_member_sha256"].
Definition size_ok (v : json) : bool :=
  strict_int v && (0 <? int_of v)%Z && (int_of v <=? MAX_IMAGE)%Z.

Definition validate_identity_fields (value : dict) : result unit :=
  do* forM (λ k, rreq (sha_text (fld value k)) (malformed k)) SHA_FIELDS in
  do* forM (λ k, rreq (id_text (fld value k)) (malformed k))
        ["manifest_id"; "run_id"; "boot_member_name"] in
  do* rreq (is_str (fld value "boot_member_name") BOOT_MEMBER) "registry boot member differs" in
  forM (λ k, rreq (size_ok (fld value k)) (malformed k)) ["candidate_ap_size"; "boot_member_size"].

Definition RECORD_FIELDS : list string :=
  ["schema"; "sequence"; "event"; "candidate_key"; "target_profile_sha256"; "candidate_ap_sha256";
   "candidate_ap_size"; "boot_member_name"; "boot_member_size"; "boot_member_sha256"; "manifest_id";
   "run_id"; "approval_binding_sha256"; "target_key"; "claim_id"; "previous_record_sha256";
   "release_reason"; "device_session_started"; "partition_transfer"; "record_sha256"].

Definition PARSE_FAILURE : string := "odin_local_parse_failure".
Definition exact_exception (value : dict) : bool :=
  is_str (fld value "release_reason") PARSE_FAILURE
  && is_false (fld value "device_session_started") && is_false (fld value "partition_transfer").

Definition validate_record (value : dict) (sequence : nat) (previous : string) : result unit :=
  do* rreq (keys_match value RECORD_FIELDS && is_str (fld value "schema") RECORD_SCHEMA)
        "registry record schema differs" in
  do* rreq (strict_int (fld value "sequence")
            && (int_of (fld value "sequence") =? Z.of_nat sequence)%Z)
        "registry record sequence differs" in
  let* known := in_str_set (fld value "event") ["claim"; "release"] in
  do* rreq known "registry record event differs" in
  do* validate_identity_fields value in
  let* key := candidate_key_from_identity value in
  do* rreq (is_str (fld value "candidate_key") key)
        "registry record candidate key derivation differs" in
  do* rreq (is_str (fld value "previous_record_sha256") previous)
        "registry record chain predecessor differs" in
  do* (if is_str (fld value "event") "claim" then
         rreq (is_null (fld value "release_reason") && is_null (fld value "device_session_started")
               && is_null (fld value "partition_transfer")) "claim record contains release fields"
       else rreq (exact_exception value) "release record is not the exact pre-session exception") in
  let* h := record_digest value in
  rreq (is_str (fld value "record_sha256") h) "registry record digest differs".

(** ** Layout *)

Definition fixed_root (fs : hostfs) : result unit :=
  do* require (match hf_dirs fs !! PRIVATE with Some _ => true | None => false end)
        (RegistryUnavailable "workspace/private is unavailable or indirect") in
  require (match lstat fs PRIVATE REGISTRY_DIR_NAME with
           | Some n => match nd_kind n with KLink => false | _ => true end
           | None => true
           end) (RegistryUnavailable "global registry is an indirect path").

Definition head_temp_paths (fs : hostfs) : list string := names_by head_temp_re (entries fs ROOT).

Definition ROOT_CHILDREN : list string :=
  [ACTIVATION_NAME; HEAD_NAME; RECORDS_NAME; SESSION_LOCK_NAME; LOCK_NAME].

Definition legacy_item_ok (v : json) : bool :=
  match v with
  | JObj i =>
      keys_match i ["candidate_ap_size"; "candidate_ap_sha256"; "boot_member_name";
                    "boot_member_size"; "boot_member_sha256"; "source_result"]
      && strict_int (fld i "candidate_ap_size") && strict_int (fld i "boot_member_size")
      && sha_of_str (fld i "candidate_ap_sha256") && sha_of_str (fld i "boot_member_sha256")
      && is_str (fld i "boot_member_name") BOOT_MEMBER
      && match fld i "source_result" with
         | JObj s => keys_match s ["path"; "size"; "sha256"] | _ => false end
  | _ => false
  end.

Definition list_of (v : json) : list json := match v with JList l => l | _ => [] end.

(** [_legacy_authority]: the pinned list shipped beside the module *)
Definition legacy_authority (fs : hostfs) : result (list json) :=
  match lstat fs AUTHORITY_DIR AUTHORITY_NAME with
  | None => Err (RegistryUnavailable "legacy activation authority is unavailable")
  | Some n =>
      do* rreq (hexdigest (bytes_of (nd_body n)) =? LEGACY_AUTHORITY_SHA256)
            "legacy activation authority bytes differ" in
      let* v := parse_json (nd_body n) in
      let es := list_of (fld v "entries") in
      do* rreq (is_str (fld v "schema") "device_action_f1_legacy_consumed_candidate_authority_v1"
                && eq_int (fld v "count") (Z.of_nat (length es)))
            "legacy activation authority schema differs" in
      do* rreq (bool_decide (NoDup ((λ e, match e with
                  | JObj i => str_of (fld i "candidate_ap_sha256") | _ => "" end) <$> es)))
            "legacy activation authority is not unique" in
      Ok es
  end.


(** [Path(s)] drops empty and [.] components: the components of an absolute path *)
Fixpoint split_slash (acc s : string) : list string :=
  match s with
  | "" => [acc]
  | String c s' => if (c =? "/")%char then acc :: split_slash "" s'
                   else split_slash (acc ++ String c "") s'
  end.
Definition path_parts (s : string) : list string :=
  filter (λ p, p ≠ "" ∧ p ≠ ".") (split_slash "" s).
Definition path_text (s : string) : string :=
  (if startswith "/" s then "/" else "") ++ String.concat "/" (path_parts s).

(** The directory and name of a file below the repository root. *)
Definition locate (s : string) : string * string :=
  let ps := drop (length (path_parts root_path)) (path_parts s) in
  (String.concat "/" (take (length ps - 1) ps), default "" (last ps)).

Definition private_evidence (s : string) : bool :=
  startswith "/" s && (resolve (path_text s) =? path_text s)
  && bool_decide (path_parts (root_path ++ "/" ++ PRIVATE) `prefix_of` path_parts s).

Definition relocation_row (fs : hostfs) (index : nat) (row : json) : result unit :=
  match row with
  | JObj r =>
      do* rreq (keys_match r ["name"; "size"; "sha256"]
                && match fld r "name" with
                   | JStr n => (n =? record_file index "claim") || (n =? record_file index "release")
                   | _ => false
                   end) "host relocation prefix sequence differs" in
      let* b := read_regular (lstat fs RECORDS (str_of (fld r "name"))) (Some M400) MAX_RECORD_BYTES in
      rreq (py_eqb (JObj (identity_of b)) (JObj [("size", fld r "size"); ("sha256", fld r "sha256")]))
        "host relocation consumed prefix changed"
  | _ => reg "host relocation prefix sequence differs"
  end.

Definition relocation_evidence (fs : hostfs) (evidence : json) : result unit :=
  match evidence with
  | JObj e =>
      do* rreq (keys_match e ["path"; "size"; "sha256"])
            "host relocation evidence binding differs" in
      match fld e "path" with
      | JStr p =>
          do* rreq (private_evidence p) "host relocation evidence leaves the private repository" in
          let* b := read_regular (lstat fs (locate p).1 (locate p).2) (Some M400) MAX_RECORD_BYTES in
          rreq (py_eqb (JObj (identity_of b)) (JObj [("size", fld e "size"); ("sha256", fld e "sha256")]))
            "host relocation retained evidence changed"
      | _ => Err PyTypeError
      end
  | _ => reg "host relocation evidence binding differs"
  end.

Definition validate_host_relocation (fs : hostfs) (activation_data : body)
    (expected current : dict) : result unit :=
  let* data := read_regular (lstat fs PRIVATE RELOCATION_NAME) (Some M400) MAX_RECORD_BYTES in
  do* rreq (py_eqb (JObj (identity_of data)) RELOCATION_RECORD)
        "host relocation is not the exact reviewed receipt" in
  let* value := parse_json data in
  do* rreq (keys_match value ["schema"; "activation"; "old_locks"; "new_locks"; "records_prefix";
                              "checkpoint_head"; "evidence"]
            && is_str (fld value "schema") "device_action_f1_registry_host_relocation_v1"
            && py_eqb (fld value "activation") (JObj (identity_of activation_data))
            && py_eqb (fld value "old_locks") (JObj expected))
        "host relocation activation or lock binding differs" in
  let* new := match fld value "new_locks" with JObj n => Ok n | _ => Err PyTypeError end in
  do* rreq (same_lock_set new current) "host relocation activation or lock binding differs" in
  match fld value "records_prefix" with
  | JList prefix =>
      do* rreq ((1 <=? length prefix)%nat && (length prefix <=? MAX_RECORDS)%nat)
            "host relocation consumed prefix is absent" in
      do* forM (λ ir, relocation_row fs ir.1 ir.2) (zip (seq 0 (length prefix)) prefix) in
      relocation_evidence fs (fld value "evidence")
  | _ => reg "host relocation consumed prefix is absent"
  end.

(** The activation file, as [_validate_layout] and the claiming operations read it. *)
Definition read_activation (fs : hostfs) : result (body * dict) :=
  let* b := read_regular (lstat fs ROOT ACTIVATION_NAME) (Some M400) MAX_RECORD_BYTES in
  let* v := parse_json b in
  Ok (b, v).

Definition lock_nodes (fs : hostfs) : list (string * option node) :=
  [("writer_lock_identity", lstat fs ROOT LOCK_NAME);
   ("session_lock_identity", lstat fs ROOT SESSION_LOCK_NAME)].

Definition activation_row (activation : dict) (kn : string * option node)
    : result ((string * json) * (string * json)) :=
  match fld activation kn.1 with
  | JObj row =>
      do* rreq (keys_match row LOCK_FIELDS) "registry activation lock identity differs" in
      let* cur := lock_path_identity kn.2 in
      Ok ((kn.1, JObj row), (kn.1, JObj cur))
  | _ => reg "registry activation lock identity differs"
  end.

Definition validate_activation_locks (fs : hostfs) (data : body) (activation : dict) : result unit :=
  let* rows := foldM (λ acc kn, let* r := activation_row activation kn in
                                Ok (acc.1 ++ [r.1], acc.2 ++ [r.2])%list) ([], []) (lock_nodes fs) in
  if is_repo || match lstat fs PRIVATE RELOCATION_NAME with Some _ => true | None => false end
  then validate_host_relocation fs data rows.1 rows.2
  else rreq (same_lock_set rows.1 rows.2) "registry lock was replaced after activation".

Definition validate_activation (fs : hostfs) : result unit :=
  let* bv := read_activation fs in
  let activation := bv.2 in
  do* rreq (keys_match activation ["schema"; "legacy_candidates"; "activation_boundary";
                                   "writer_lock_identity"; "session_lock_identity"]
            && is_str (fld activation "schema") ACTIVATION_SCHEMA
            && is_str (fld activation "activation_boundary")
                 "legacy-candidates-before-global-registry-v1"
            && match fld activation "legacy_candidates" with JList _ => true | _ => false end)
        "registry activation identity differs" in
  do* validate_activation_locks fs bv.1 activation in
  let legacy := list_of (fld activation "legacy_candidates") in
  do* forM (λ i, rreq (legacy_item_ok i) "registry legacy activation entry differs") legacy in
  if is_repo then
    let* auth := legacy_authority fs in
    rreq (py_eqb (JList legacy) (JList auth))
      "registry activation does not match pinned legacy authority"
  else Ok tt.

Definition validate_layout (fs : hostfs) : result unit :=
  do* fixed_root fs in
  do* direct_dir (lstat fs PRIVATE REGISTRY_DIR_NAME) M700 in
  do* direct_dir (lstat fs ROOT RECORDS_NAME) M700 in
  do* rreq (bool_decide (names_by (λ n, negb (head_temp_re n)) (entries fs ROOT) = ROOT_CHILDREN))
        "registry root contains an unexpected child" in
  do* rreq (length (head_temp_paths fs) <=? 1)%nat "registry head has multiple staging files" in
  do* rreq (forallb record_re (names_by (λ _, true) (entries fs RECORDS)))
        "registry records contains an unexpected child" in
  do* validate_lock (lstat fs ROOT LOCK_NAME) LOCK_PAYLOAD in
  do* validate_lock (lstat fs ROOT SESSION_LOCK_NAME) SESSION_LOCK_PAYLOAD in
  validate_activation fs.

(** ** Scanning the chain *)

Record scanst := Scan {
  sc_records : list dict;
  sc_previous : string;
  sc_active : gmap string dict
}.
Definition scan0 : scanst := Scan [] ZERO_SHA256 ∅.

(** The fields a release copies from its claim. *)
Definition BOUND_FIELDS : list string :=
  ["target_profile_sha256"; "target_key"; "candidate_ap_sha256"; "candidate_ap_size";
   "boot_member_name"; "boot_member_size"; "boot_member_sha256"; "manifest_id"; "run_id";
   "approval_binding_sha256"; "claim_id"].

(** The loop body after the record is validated: the effect on the active claims. *)
Definition scan_event (sequence : nat) (active : gmap string dict) (value : dict)
    : result (gmap string dict) :=
  let key := str_of (fld value "candidate_key") in
  if is_str (fld value "event") "claim" then
    do* rreq (match active !! key with None => true | Some _ => false end)
          "candidate has multiple active claims" in
    let* id := claim_id key (str_of (fld value "run_id"))
                 (str_of (fld value "approval_binding_sha256")) sequence in
    do* rreq (is_str (fld value "claim_id") id) "claim identifier derivation differs" in
    Ok (<[key := value]> active)
  else
    match active !! key with
    | None => reg "release has no active claim"
    | Some prior =>
        do* forM (λ k, rreq (py_eqb (fld value k) (fld prior k))
                     "release does not bind its active claim") BOUND_FIELDS in
        Ok (delete key active)
    end.

Definition scan_step (st : scanst) (file : string * node) : result scanst :=
  let sequence := length (sc_records st) in
  let* payload := read_regular (Some file.2) (Some M400) MAX_RECORD_BYTES in
  let* value := parse_json payload in
  do* rreq (match fld value "event" with JStr e => file.1 =? record_file sequence e | _ => false end)
        "registry record filename sequence/event differs" in
  do* validate_record value sequence (sc_previous st) in
  let* active := scan_event sequence (sc_active st) value in
  Ok (Scan (sc_records st ++ [value])%list (str_of (fld value "record_sha256")) active).

Definition record_paths (fs : hostfs) : result (list (string * node)) :=
  let paths := listing_by record_glob (entries fs RECORDS) in
  do* rreq (length paths <=? MAX_RECORDS)%nat "registry record count exceeds its bound" in
  Ok paths.

(** [_scan] up to the comparison of the head with the records. *)
Definition scan_chain (fs : hostfs) : result (dict * scanst) :=
  do* validate_layout fs in
  let* data := read_regular (lstat fs ROOT HEAD_NAME) (Some M400) MAX_HEAD_BYTES in
  let* head := parse_json data in
  do* validate_head head in
  let* paths := record_paths fs in
  let* st := foldM scan_step scan0 paths in
  Ok (head, st).

Definition head_matches (head : dict) (st : scanst) : bool :=
  let n := Z.of_nat (length (sc_records st)) in
  (int_of (fld head "record_count") =? n)%Z && (int_of (fld head "last_sequence") =? n - 1)%Z
  && is_str (fld head "last_record_sha256") (sc_previous st).

(** [_scan(repo_root)] *)
Definition scan (fs : hostfs) : result (dict * list dict) :=
  let* hs := scan_chain fs in
  do* rreq (head_matches hs.1 hs.2) "registry head does not match records" in
  Ok (hs.1, sc_records hs.2).

(** ** Publishing *)

Definition write_no_replace (dir name : string) (mode : Z) (b : body) : M (dict) :=
  fs ← getfs;
  _ ← lift (rreq (match lstat fs dir name with None => true | Some _ => false end)
              "refusing to clobber");
  _ ← create_file dir name mode b;
  fs' ← getfs;
  reopened ← lift (read_regular (lstat fs' dir name) (Some mode) (N.max (N.of_nat (body_size b)) 1));
  _ ← lift (rreq (bytes_of reopened =? bytes_of b) "published file changed after reopen");
  mret (identity_of b).

(** The text [_canonical(value)] as file contents. *)
Definition canonical_body (value : dict) : result body :=
  do* rreq (finite (JObj value)) "registry value is not canonical JSON" in
  Ok (BText (norm (JObj value))).

Definition write_head (value : dict) : M dict :=
  data ← lift (canonical_body value);
  _ ← lift (rreq (N.of_nat (body_size data) <=? MAX_HEAD_BYTES)%N "registry head exceeds its bound");
  let temporary := staging_name pid oid in
  fs ← getfs;
  _ ← lift (rreq (match lstat fs ROOT temporary with None => true | Some _ => false end)
              "head staging path already exists");
  _ ← write_no_replace ROOT temporary M400 data;
  _ ← rename_over ROOT temporary HEAD_NAME;
  fs' ← getfs;
  reopened ← lift (read_regular (lstat fs' ROOT HEAD_NAME) (Some M400) MAX_HEAD_BYTES);
  _ ← lift (rreq (bytes_of reopened =? bytes_of data) "registry head changed after publication");
  mret (identity_of data).

(** [_scan(repo_root, repair_tail=True)] *)
Definition tail_repairable (head : dict) (st : scanst) : bool :=
  let expected := int_of (fld head "record_count") in
  (Z.of_nat (length (sc_records st)) =? expected + 1)%Z && (expected <=? Z.of_nat MAX_RECORDS)%Z.

Definition tail_valid (head : dict) (st : scanst) : bool :=
  let expected := int_of (fld head "record_count") in
  let prefix := if (expected =? 0)%Z then ZERO_SHA256
                else match sc_records st !! Z.to_nat (expected - 1) with
                     | Some r => str_of (fld r "record_sha256") | None => "" end in
  let tail := default [] (last (sc_records st)) in
  (int_of (fld head "last_sequence") =? expected - 1)%Z
  && is_str (fld head "last_record_sha256") prefix
  && (int_of (fld tail "sequence") =? expected)%Z
  && is_str (fld tail "previous_record_sha256") prefix.

Definition scan_repair : M (dict * list dict) :=
  hs ← reading scan_chain;
  let head := hs.1 in let st := hs.2 in
  if head_matches head st then mret (head, sc_records st)
  else if tail_repairable head st then
    if tail_valid head st then
      let n := Z.of_nat (length (sc_records st)) in
      new ← lift (head_value n (n - 1)
                    (str_of (fld (default [] (last (sc_records st))) "record_sha256")));
      _ ← write_head new;
      mret (new, sc_records st)
    else raise (RegistryError "registry head has an invalid tail")
  else raise (RegistryError "registry head does not match records").

(** ** Leases *)

(** Entering [_writer]: stale staging bytes are removed and a lagging head repaired. *)
Definition writer : M unit :=
  _ ← reading validate_layout;
  fs ← getfs;
  _ ← match head_temp_paths fs with
      | [] => mret tt
      | [t] =>
          _ ← lift (rreq (match lstat fs ROOT t with
                          | Some n => match nd_kind n with KReg => (nd_nlink n =? 1)%Z
                                      | _ => false end
                          | None => false end) "registry head staging file is unsafe");
          unlink ROOT t
      | _ => raise (RegistryError "registry head has multiple staging files")
      end;
  _ ← scan_repair;
  mret tt.

(** Entering [_reader] *)
Definition reader (fs : hostfs) : result unit :=
  do* validate_layout fs in
  do* rreq (match head_temp_paths fs with [] => true | _ => false end)
        "registry head staging file requires writer recovery" in
  let* _ := scan fs in Ok tt.

Definition history (fs : hostfs) : result (list dict) :=
  do* reader fs in let* hr := scan fs in Ok hr.2.

Definition validate (fs : hostfs) : result dict :=
  do* reader fs in
  let* hr := scan fs in
  let* hsha := canonical_sha (JObj hr.1) in
  Ok [("schema", JStr REGISTRY_SCHEMA); ("scope", JStr "global");
      ("record_count", JInt (Z.of_nat (length hr.2))); ("head", JObj hr.1);
      ("head_sha256", JStr hsha);
      ("last_record_sha256", JStr (last_record_sha hr.2));
      ("replay_forbidden", JBool true); ("append_only", JBool true);
      ("hash_chained", JBool true); ("single_writer_flock", JBool true);
      ("restart_durable", JBool true); ("no_caller_supplied_path", JBool true);
      ("root", JStr REGISTRY_DIR_NAME)].

(** ** Claims *)

Definition claims_step (active : gmap string dict) (r : dict) : gmap string dict :=
  let key := str_of (fld r "candidate_key") in
  if is_str (fld r "event") "claim" then <[key := r]> active
  else if is_str (fld r "event") "release" then delete key active
  else active.
Definition claims (rs : list dict) : gmap string dict := foldl claims_step ∅ rs.

Definition active_claim (fs : hostfs) (candidate_key : json) : result (option dict) :=
  do* rreq (sha_text candidate_key) "candidate key is malformed" in
  do* reader fs in
  let* hr := scan fs in
  Ok (claims hr.2 !! str_of candidate_key).

Definition IDENTITY_FIELDS : list string :=
  ["schema"; "candidate_key"; "target_profile_sha256"; "target_key"; "candidate_ap_sha256";
   "candidate_ap_size"; "boot_member_name"; "boot_member_size"; "boot_member_sha256";
   "manifest_id"; "run_id"; "approval_binding_sha256"].

Definition validate_identity (identity : dict) : result dict :=
  do* rreq (keys_match identity IDENTITY_FIELDS && is_str (fld identity "schema") IDENTITY_SCHEMA)
        "verified candidate identity schema differs" in
  do* validate_identity_fields
        (dset "previous_record_sha256" (JStr ZERO_SHA256) (dset "claim_id" (JStr ZERO_SHA256) identity)) in
  let* key := candidate_key_from_identity identity in
  do* rreq (is_str (fld identity "candidate_key") key) "verified candidate key derivation differs" in
  Ok identity.

(** The two refusals [preflight_candidate] and [claim] share. *)
Definition legacy_consumed (activation identity : dict) : bool :=
  existsb (λ i, match i with
                | JObj d => py_eqb (fld d "candidate_ap_sha256") (fld identity "candidate_ap_sha256")
                | _ => false end) (list_of (fld activation "legacy_candidates")).

Definition refuse_consumed (fs : hostfs) (identity : dict) (msg : string) : result (list dict) :=
  let* hr := scan fs in
  let* act := read_activation fs in
  do* require (negb (legacy_consumed act.2 identity))
        (DuplicateCandidateClaim "candidate AP was consumed before global registry activation") in
  do* require (match claims hr.2 !! str_of (fld identity "candidate_key") with
               | None => true | Some _ => false end) (DuplicateCandidateClaim msg) in
  Ok hr.2.

Definition preflight_candidate (identity : dict) : M unit :=
  identity_value ← lift (validate_identity identity);
  _ ← writer;
  _ ← reading (λ fs, refuse_consumed fs identity_value "candidate identity was already consumed");
  mret tt.

Definition append_ (record : dict) : M (dict * dict * dict) :=
  hr ← reading scan;
  let rs := hr.2 in
  let sequence := length rs in
  _ ← lift (rreq (sequence <? MAX_RECORDS)%nat "registry record count bound exceeded");
  let previous := last_record_sha rs in
  let r1 := dset "previous_record_sha256" (JStr previous)
              (dset "sequence" (JInt (Z.of_nat sequence)) record) in
  h ← lift (record_digest r1);
  let r2 := dset "record_sha256" (JStr h) r1 in
  _ ← lift (validate_record r2 sequence previous);
  payload ← lift (canonical_body r2);
  _ ← lift (rreq (N.of_nat (body_size payload) <=? MAX_RECORD_BYTES)%N
              "registry record exceeds its size bound");
  receipt ← write_no_replace RECORDS (record_file sequence (str_of (fld r2 "event"))) M400 payload;
  new_head ← lift (head_value (Z.of_nat sequence + 1) (Z.of_nat sequence) h);
  _ ← write_head new_head;
  _ ← reading scan;
  mret (r2, receipt, new_head).

Definition claim_record (identity : dict) (claim : string) (sequence : nat) : dict :=
  ([("sequence", JInt (Z.of_nat sequence)); ("event", JStr "claim")]
   ++ dremove "schema" identity
   ++ [("schema", JStr RECORD_SCHEMA); ("claim_id", JStr claim);
       ("previous_record_sha256", JStr ZERO_SHA256); ("release_reason", JNull);
       ("device_session_started", JNull); ("partition_transfer", JNull);
       ("record_sha256", JStr ZERO_SHA256)])%list.

Definition outcome (event : string) (candidate_key claim : json) (r : dict * dict * dict) : dict :=
  [("schema", JStr REGISTRY_SCHEMA); ("event", JStr event); ("candidate_key", candidate_key);
   ("claim_id", claim); ("record", JObj r.1.1); ("record_receipt", JObj r.1.2);
   ("head", JObj r.2)].

Definition claim (identity : dict) : M dict :=
  identity_value ← lift (validate_identity identity);
  _ ← writer;
  rs ← reading (λ fs, refuse_consumed fs identity_value
                        "candidate identity is already globally claimed");
  id ← lift (claim_id (str_of (fld identity_value "candidate_key"))
                      (str_of (fld identity_value "run_id"))
                      (str_of (fld identity_value "approval_binding_sha256")) (length rs));
  result ← append_ (claim_record identity_value id (length rs));
  mret (outcome "claim" (fld identity_value "candidate_key") (JStr id) result).

(** ** Releases *)

Definition names_claim (event : string) (key id : string) (r : dict) : bool :=
  is_str (fld r "event") event && is_str (fld r "candidate_key") key && is_str (fld r "claim_id") id.

Definition release_record (existing : dict) (key id : json) (reason : json) (sequence : nat) : dict :=
  [("schema", JStr RECORD_SCHEMA); ("sequence", JInt (Z.of_nat sequence));
   ("event", JStr "release"); ("candidate_key", key);
   ("target_profile_sha256", fld existing "target_profile_sha256");
   ("target_key", fld existing "target_key");
   ("candidate_ap_sha256", fld existing "candidate_ap_sha256");
   ("candidate_ap_size", fld existing "candidate_ap_size");
   ("boot_member_name", fld existing "boot_member_name");
   ("boot_member_size", fld existing "boot_member_size");
   ("boot_member_sha256", fld existing "boot_member_sha256");
   ("manifest_id", fld existing "manifest_id"); ("run_id", fld existing "run_id");
   ("approval_binding_sha256", fld existing "approval_binding_sha256"); ("claim_id", id);
   ("previous_record_sha256", JStr ZERO_SHA256); ("release_reason", reason);
   ("device_session_started", JBool false); ("partition_transfer", JBool false);
   ("record_sha256", JStr ZERO_SHA256)].

(** The checks of [release] on the scanned records: the claim to release, or the
    release already recorded for it. *)
Definition release_decision (rs : list dict) (key id : string) (supplied : json)
    : result (dict + dict) :=
  let existing := claims rs !! key in
  match supplied, List.find (names_claim "claim" key id) rs with
  | JObj s, Some recorded =>
      do* rreq (py_eqb (JObj s) (JObj recorded)) "claim receipt owner differs from active claim" in
      match existing with
      | Some e =>
          if is_str (fld e "claim_id") id then Ok (inl e)
          else match List.find (names_claim "release" key id) (rev rs) with
               | Some item => Ok (inr item)
               | None => reg "active candidate claim is absent or differs"
               end
      | None => match List.find (names_claim "release" key id) (rev rs) with
                | Some item => Ok (inr item)
                | None => reg "active candidate claim is absent or differs"
                end
      end
  | _, _ => reg "claim receipt lacks its recorded owner"
  end.

Definition release (claim_value release_reason device_session_started partition_transfer : json)
    : M dict :=
  match claim_value with
  | JObj cv =>
      let key := fld cv "candidate_key" in
      let id := fld cv "claim_id" in
      _ ← lift (rreq (sha_text key && sha_text id) "claim receipt identity is malformed");
      _ ← lift (rreq (is_str release_reason PARSE_FAILURE && is_false device_session_started
                      && is_false partition_transfer)
                  "only exact pre-session parse failure may release a claim");
      _ ← writer;
      hr ← reading scan;
      d ← lift (release_decision hr.2 (str_of key) (str_of id) (fld cv "record"));
      match d with
      | inr item =>
          mret [("schema", JStr REGISTRY_SCHEMA); ("event", JStr "release");
                ("candidate_key", key); ("claim_id", id); ("record", JObj item)]
      | inl existing =>
          result ← append_ (release_record existing key id release_reason (length hr.2));
          mret (outcome "release" key id result)
      end
  | _ => raise (RegistryError "claim receipt is not an object")
  end.

(** ** Deriving the identity *)

Definition derive_candidate_identity (profile manifest : json) (candidate_ap_sha256 approval : string)
    (candidate_receipt : json) : result dict :=
  match profile, manifest with
  | JObj p, JObj m =>
      do* rreq (sha256_re candidate_ap_sha256 && sha256_re approval)
            "verified candidate digest is malformed" in
      let* candidate :=
        match fld m "candidate_ap" with
        | JObj c => if is_str (fld c "sha256") candidate_ap_sha256 then Ok c
                    else reg "candidate AP digest was not verified against manifest"
        | _ => reg "candidate AP digest was not verified against manifest"
        end in
      do* rreq (is_str (fld m "allowed_member") BOOT_MEMBER)
            "candidate AP member is outside the boot-only contract" in
      match candidate_receipt with
      | JObj r =>
          let* member :=
            match fld r "member" with
            | JObj x => if keys_match x ["name"; "size"; "sha256"] then Ok x
                        else reg "verified candidate AP member receipt is malformed"
            | _ => reg "verified candidate AP member receipt is malformed"
            end in
          do* rreq (is_str (fld member "name") BOOT_MEMBER && strict_int (fld member "size")
                    && sha_text (fld member "sha256"))
                "verified candidate AP member identity differs" in
          do* rreq (py_eqb (fld r "size") (fld candidate "size")
                    && is_str (fld r "sha256") candidate_ap_sha256)
                "verified candidate AP receipt differs from manifest" in
          do* rreq (strict_int (fld r "size") && (0 <? int_of (fld r "size"))%Z)
                "verified candidate AP size is malformed" in
          do* rreq (id_text (fld m "manifest_id") && id_text (fld m "run_id"))
                "manifest identity is malformed" in
          let* profile_sha := canonical_sha (JObj p) in
          let* target := match fld p "target" with
                         | JObj t => Ok t | _ => reg "physical target identity is not bound" end in
          do* rreq (match fld target "model", fld target "device" with
                    | JStr a, JStr b => negb (a =? "") && negb (b =? "") | _, _ => false end)
                "physical target identity is malformed" in
          let* target_key := canonical_sha (JObj [("model", fld target "model");
                                                  ("device", fld target "device")]) in
          let* key := canonical_sha (JObj [("schema", JStr IDENTITY_SCHEMA);
              ("target_key", JStr target_key); ("candidate_ap_sha256", JStr candidate_ap_sha256);
              ("candidate_ap_size", fld r "size"); ("boot_member_name", fld member "name");
              ("boot_member_size", fld member "size"); ("boot_member_sha256", fld member "sha256");
              ("allowed_member", JStr BOOT_MEMBER)]) in
          validate_identity
            [("schema", JStr IDENTITY_SCHEMA); ("candidate_key", JStr key);
             ("target_profile_sha256", JStr profile_sha); ("target_key", JStr target_key);
             ("candidate_ap_sha256", JStr candidate_ap_sha256);
             ("candidate_ap_size", fld r "size"); ("boot_member_name", fld member "name");
             ("boot_member_size", fld member "size"); ("boot_member_sha256", fld member "sha256");
             ("manifest_id", fld m "manifest_id"); ("run_id", fld m "run_id");
             ("approval_binding_sha256", JStr approval)]
      | _ => reg "verified candidate AP receipt is required"
      end
  | _, _ => reg "verified profile/manifest are not objects"
  end.

(** ** The F1 owner sentinel and the target-session lease *)

Definition present (fs : hostfs) (dir name : string) : bool :=
  match lstat fs dir name with Some _ => true | None => false end.

Definition require_no_f1_owner (fs : hostfs) : result unit :=
  rreq (negb (present fs RESEARCH OWNER_NAME))
    "unresolved F1 owner; new research/control effects blocked".

Definition f1_owner_value (run_dir binding : string) : result dict :=
  do* rreq (startswith "/" run_dir && sha256_re binding) "invalid F1 owner identity" in
  Ok [("schema", JStr "s22plus_f1_effect_owner_v1"); ("run_dir", JStr run_dir);
      ("binding_sha256", JStr binding)].

Definition begin_f1_owner (run_dir binding : string) : M unit :=
  _ ← reading require_no_f1_owner;
  _ ← update (λ fs, with_dir fs RESEARCH (entries fs RESEARCH));
  v ← lift (f1_owner_value run_dir binding);
  b ← lift (canonical_body v);
  _ ← write_no_replace RESEARCH OWNER_NAME M400 b;
  mret tt.

Definition require_f1_owner (fs : hostfs) (run_dir binding : string) : result unit :=
  let* b := read_regular (lstat fs RESEARCH OWNER_NAME) (Some M400) MAX_RECORD_BYTES in
  let* value := parse_json b in
  let* v := f1_owner_value run_dir binding in
  rreq (py_eqb (JObj value) (JObj v)) "F1 recovery owner mismatch".

Definition retire_f1_owner (run_dir binding : string) : M unit :=
  fs ← getfs;
  if present fs RESEARCH OWNER_NAME then
    _ ← lift (require_f1_owner fs run_dir binding);
    unlink RESEARCH OWNER_NAME
  else mret tt.

(** Entering [target_session_lease] when no other process holds the flock. *)
Definition target_session_lease (fs : hostfs) (research_read_only : bool) : result unit :=
  do* validate_layout fs in
  rreq (negb (present fs RESEARCH PENDING_NAME) || research_read_only)
    "unresolved goal-research D1 intent; effects blocked".

End Registry.
