(* ===== verification/RegistryTheory.v ===== *)
(** * Records, scanning and the active claims

    What [_scan] establishes about a chain: the active claims it maintains
    are those [_claims] recomputes, every record is validated in its place,
    the files are numbered without gaps, and a published record reads back as
    the record that was validated before publication. *)

From stdpp Require Import base list strings gmap sorting.
From Stdlib Require Import ZArith Lia Ascii.
From S2P Require Import Prelude PyStr Dir Json Digest HostFs Registry.
Open Scope string_scope.

Lemma record_steps : forallb (num_step_ok 8) (seq 0 (S MAX_RECORDS)) = true.
Proof. apply steps_from_ok. vm_compute. reflexivity. Qed.

(** ** Names *)

Definition is_event (e : string) : Prop := e = "claim" ∨ e = "release".

Lemma strip_prefix_app p s : strip_prefix p (p ++ s) = Some s.
Proof.
  unfold strip_prefix. rewrite prefix_app, str_length_app.
  replace (String.length p + String.length s - String.length p)%nat with (String.length s) by lia.
  by rewrite substring_app.
Qed.

Lemma take_digits_app s r :
  all_chars is_digit s = true →
  match r with String c _ => is_digit c = false | "" => True end →
  take_digits (s ++ r) = (String.length s, r).
Proof.
  intros Hs Hr. induction s as [|c s IH]; simpl.
  - destruct r as [|c r]; [done|]. simpl. by rewrite Hr.
  - simpl in Hs. apply andb_true_iff in Hs as [Hc Hs]. by rewrite Hc, IH.
Qed.

Lemma fmt_0d_digits w n : all_chars is_digit (fmt_0d w n) = true.
Proof.
  unfold fmt_0d. rewrite all_chars_app, str_of_nat_digits, andb_true_r.
  generalize (w - String.length (str_of_nat n))%nat as m. induction m as [|m IH]; [done|]. by destruct m.
Qed.

Lemma record_number i : (i < MAX_RECORDS)%nat → String.length (fmt_0d 8 i) = 8%nat.
Proof.
  intros Hi. pose proof (num_prefix_length 8 _ record_steps i) as Hl. unfold num_prefix in Hl.
  rewrite str_length_app in Hl. cbn [String.length] in Hl. lia.
Qed.

Lemma record_file_re i e : (i < MAX_RECORDS)%nat → is_event e → record_re (record_file i e) = true.
Proof.
  intros Hi He. unfold record_re, record_file. rewrite <- str_app_assoc.
  rewrite take_digits_app; [|apply fmt_0d_digits|done]. rewrite record_number by done. by destruct He as [-> | ->].
Qed.

Lemma record_file_glob i e : (i < MAX_RECORDS)%nat → is_event e → record_glob (record_file i e) = true.
Proof.
  intros Hi He. pose proof (record_number i Hi) as Hl. pose proof (fmt_0d_digits 8 i) as Hd.
  unfold record_glob, record_file. rewrite <- str_app_assoc. set (d := fmt_0d 8 i) in *. clearbody d.
  do 8 (destruct d as [|? d]; [done|]). destruct d; [|done].
  destruct He as [-> | ->]; cbn -[is_digit] in *; by rewrite Hd.
Qed.

(** The staging name of any process matches [HEAD_TEMP_RE]. *)
Lemma staging_name_temp pid oid : head_temp_re (staging_name pid oid) = true.
Proof.
  unfold head_temp_re, staging_name. rewrite strip_prefix_app.
  rewrite (take_digits_app (str_of_nat pid)) by (done || apply str_of_nat_digits).
  cbn [fst snd]. rewrite strip_prefix_app.
  pose proof (take_digits_app (str_of_nat oid) "" (str_of_nat_digits oid) I) as Ht.
  rewrite str_app_nil in Ht. rewrite Ht. cbn [fst snd].
  pose proof (str_of_nat_nonempty pid) as H1%Nat.leb_le.
  pose proof (str_of_nat_nonempty oid) as H2%Nat.leb_le. by rewrite H1, H2.
Qed.

(** ** Fields *)

Lemma forM_In {A} (f : A → result unit) l u x : forM f l = Ok u → In x l → f x = Ok tt.
Proof.
  intros Hf%forM_Ok Hin. rewrite Forall_forall in Hf. by apply Hf, list_elem_of_In.
Qed.

(** What validation leaves in a field: null, a boolean, a short string or a bounded integer. *)
Definition field_ok (v : json) : bool :=
  match v with
  | JNull | JBool _ => true
  | JStr s => (String.length s <=? 96)%nat
  | JInt z => (0 <=? z)%Z && (z <=? MAX_IMAGE)%Z
  | _ => false
  end.

Lemma field_ok_norm v : field_ok v = true → norm v = v.
Proof. by destruct v. Qed.
Lemma field_ok_wf v : field_ok v = true → json_wf v ∧ finite v = true.
Proof. by destruct v. Qed.

Lemma sha256_re_length s : sha256_re s = true → String.length s = 64.
Proof. unfold sha256_re. intros [Hs _]%andb_true_iff. by apply Nat.eqb_eq. Qed.

Lemma sha_text_field v : sha_text v = true → field_ok v = true.
Proof.
  destruct v as [| | | | |s| |]; try done. cbn. intros Hs%sha256_re_length. by rewrite Hs.
Qed.

Lemma id_text_field v : id_text v = true → field_ok v = true.
Proof.
  destruct v as [| | | | |[|c s]| |]; try done. cbn. intros Hs. bsimp.
  apply Nat.leb_le. match goal with H : (String.length s <=? 95)%nat = true |- _ => apply Nat.leb_le in H end.
  lia.
Qed.

Lemma size_field v : size_ok v = true → field_ok v = true.
Proof.
  unfold size_ok. destruct v; try done. cbn. intros Hs. bsimp.
  apply andb_true_iff; split; apply Z.leb_le; lia.
Qed.

Section Theory.
Context `{Digest}.

Lemma sha_text_JStr v : sha_text v = true → v = JStr (str_of v) ∧ sha256_re (str_of v) = true.
Proof. by destruct v. Qed.

Lemma canonical_sha_norm v : canonical_sha (norm v) = canonical_sha v.
Proof. unfold canonical_sha. by rewrite canonical_norm. Qed.

Lemma record_digest_norm r : record_digest (norm_dict r) = record_digest r.
Proof. unfold record_digest, canonical_sha. by rewrite canonical_dremove_norm. Qed.

Lemma canonical_sha_re v h : canonical_sha v = Ok h → sha256_re h = true.
Proof. unfold canonical_sha. destruct (canonical v); [|done]. intros [= <-]. apply hexdigest_re. Qed.

Lemma record_digest_re r h : record_digest r = Ok h → sha256_re h = true.
Proof. apply canonical_sha_re. Qed.

(** The facts a validated record provides. *)
Record record_ok (r : dict) (n : nat) (prev : string) : Prop := {
  ro_keys : keys_match r RECORD_FIELDS = true;
  ro_schema : fld r "schema" = JStr RECORD_SCHEMA;
  ro_sequence : fld r "sequence" = JInt (Z.of_nat n);
  ro_event : ∃ e, fld r "event" = JStr e ∧ is_event e;
  ro_identity : validate_identity_fields r = Ok tt;
  ro_key : ∃ k, candidate_key_from_identity r = Ok k ∧ fld r "candidate_key" = JStr k;
  ro_previous : fld r "previous_record_sha256" = JStr prev;
  ro_claim : fld r "event" = JStr "claim" →
    fld r "release_reason" = JNull ∧ fld r "device_session_started" = JNull
    ∧ fld r "partition_transfer" = JNull;
  ro_release : fld r "event" = JStr "release" →
    fld r "release_reason" = JStr PARSE_FAILURE ∧ fld r "device_session_started" = JBool false
    ∧ fld r "partition_transfer" = JBool false;
  ro_sha : ∃ h, record_digest r = Ok h ∧ fld r "record_sha256" = JStr h
}.

Lemma rreq_Ok b m u : rreq b m = Ok u → b = true.
Proof. unfold rreq. by intros Hb%require_Ok. Qed.

Lemma is_false_eq v : is_false v = true → v = JBool false.
Proof. destruct v as [|[]| | | | | |]; done. Qed.
Lemma is_null_eq v : is_null v = true → v = JNull.
Proof. by destruct v. Qed.

Lemma validate_record_ok r n prev : validate_record r n prev = Ok tt → record_ok r n prev.
Proof.
  unfold validate_record. intros Hv.
  apply rbind_Ok in Hv as ([] & H1%rreq_Ok & Hv). apply rbind_Ok in Hv as ([] & H2%rreq_Ok & Hv).
  apply rbind_Ok in Hv as (known & H3 & Hv). apply rbind_Ok in Hv as ([] & H4%rreq_Ok & Hv).
  apply rbind_Ok in Hv as ([] & H5 & Hv). apply rbind_Ok in Hv as (key & H6 & Hv).
  apply rbind_Ok in Hv as ([] & H7%rreq_Ok & Hv). apply rbind_Ok in Hv as ([] & H8%rreq_Ok & Hv).
  apply rbind_Ok in Hv as ([] & H9 & Hv). apply rbind_Ok in Hv as (h & H10 & H11%rreq_Ok).
  bsimp. rewrite is_str_eq in *. subst known.
  assert (He : ∃ e, fld r "event" = JStr e ∧ is_event e).
  { unfold in_str_set in H3. destruct (fld r "event"); try done. eexists. split; [done|].
    injection H3 as H3. apply (elem_str_In _ ["claim"; "release"]) in H3. simpl in H3.
    unfold is_event. naive_solver. }
  split; eauto.
  - destruct (fld r "sequence"); try done. simpl in *. by bsimp; subst.
  - intros Hc. rewrite Hc in H9. apply rreq_Ok in H9. bsimp. auto using is_null_eq.
  - intros Hc. rewrite Hc in H9. apply rreq_Ok in H9. unfold exact_exception in H9. bsimp.
    rewrite is_str_eq in *. auto using is_false_eq.
Qed.

Lemma identity_fields_sha r k :
  validate_identity_fields r = Ok tt → In k SHA_FIELDS → sha_text (fld r k) = true.
Proof.
  unfold validate_identity_fields. intros Hv Hk. apply rbind_Ok in Hv as ([] & H1 & _).
  by apply (forM_In _ _ _ _ H1), rreq_Ok in Hk.
Qed.

Lemma identity_fields_id r k :
  validate_identity_fields r = Ok tt → In k ["manifest_id"; "run_id"; "boot_member_name"] →
  id_text (fld r k) = true.
Proof.
  unfold validate_identity_fields. intros Hv Hk. apply rbind_Ok in Hv as ([] & _ & Hv).
  apply rbind_Ok in Hv as ([] & H1 & _). by apply (forM_In _ _ _ _ H1), rreq_Ok in Hk.
Qed.

Lemma identity_fields_size r k :
  validate_identity_fields r = Ok tt → In k ["candidate_ap_size"; "boot_member_size"] →
  size_ok (fld r k) = true.
Proof.
  unfold validate_identity_fields. intros Hv Hk. apply rbind_Ok in Hv as ([] & _ & Hv).
  apply rbind_Ok in Hv as ([] & _ & Hv). apply rbind_Ok in Hv as ([] & _ & Hv).
  by apply (forM_In _ _ _ _ Hv), rreq_Ok in Hk.
Qed.

(** Every field of a validated record is bounded. *)
Lemma record_field r n prev k :
  record_ok r n prev → (n ≤ MAX_RECORDS)%nat → field_ok (fld r k) = true.
Proof.
  intros Hr Hn. destruct (decide (k ∈ keys r)) as [Hk|Hk]; [|by rewrite fld_not_key].
  apply list_elem_of_In in Hk. rewrite (keys_match_In _ _ _ (ro_keys _ _ _ Hr)) in Hk.
  pose proof (ro_identity _ _ _ Hr) as Hid.
  pose proof (λ f Hf, sha_text_field _ (identity_fields_sha _ f Hid Hf)) as Hsha.
  pose proof (λ f Hf, id_text_field _ (identity_fields_id _ f Hid Hf)) as Hidt.
  pose proof (λ f Hf, size_field _ (identity_fields_size _ f Hid Hf)) as Hsz.
  assert (Hev : ∀ f, In f ["release_reason"; "device_session_started"; "partition_transfer"] →
                     field_ok (fld r f) = true).
  { intros f Hf. destruct (ro_event _ _ _ Hr) as (e & He & [-> | ->]).
    - pose proof (ro_claim _ _ _ Hr He) as (Ha & Hb & Hc).
      destruct Hf as [<-|[<-|[<-|[]]]]; by rewrite ?Ha, ?Hb, ?Hc.
    - pose proof (ro_release _ _ _ Hr He) as (Ha & Hb & Hc).
      destruct Hf as [<-|[<-|[<-|[]]]]; by rewrite ?Ha, ?Hb, ?Hc. }
  assert (Heve : field_ok (fld r "event") = true).
  { destruct (ro_event _ _ _ Hr) as (e & -> & [-> | ->]); done. }
  assert (Hshe : field_ok (fld r "record_sha256") = true).
  { destruct (ro_sha _ _ _ Hr) as (h & Hd & ->). by apply sha_text_field, (record_digest_re r). }
  assert (Hseq : field_ok (fld r "sequence") = true).
  { rewrite (ro_sequence _ _ _ Hr). cbn. unfold MAX_RECORDS, MAX_IMAGE in *.
    apply andb_true_iff; split; apply Z.leb_le; lia. }
  repeat (destruct Hk as [<-|Hk]; [first
    [ by rewrite (ro_schema _ _ _ Hr) | done
    | by apply Hsha; simpl; tauto | by apply Hidt; simpl; tauto | by apply Hsz; simpl; tauto
    | by apply Hev; simpl; tauto ]|]). done.
Qed.

(** Publication and reading back leave every field as it was validated. *)
Lemma record_fld_norm r n prev k :
  record_ok r n prev → (n ≤ MAX_RECORDS)%nat → NoDup (keys r) → fld (norm_dict r) k = fld r k.
Proof.
  intros Hr Hn Hnd. rewrite fld_norm_dict by done. by eapply field_ok_norm, record_field.
Qed.

(** A validated record prints, and its text is well formed. *)
Lemma record_members r n prev :
  record_ok r n prev → (n ≤ MAX_RECORDS)%nat → NoDup (keys r) → Forall (λ kv, field_ok kv.2 = true) r.
Proof.
  intros Hr Hn Hnd. apply Forall_forall. intros [k v] Hin. cbn.
  apply dget_Some_In in Hin; [|done]. pose proof (record_field r n prev k Hr Hn) as Hf.
  unfold fld in Hf. by rewrite Hin in Hf.
Qed.

Lemma record_prints r n prev :
  record_ok r n prev → (n ≤ MAX_RECORDS)%nat → NoDup (keys r) →
  json_nodup (JObj r) = true ∧ finite (JObj r) = true.
Proof.
  intros Hr Hn Hnd. pose proof (record_members _ _ _ Hr Hn Hnd) as Hall. split.
  - apply json_wf_nodup, json_wf_JObj. split; [done|].
    eapply Forall_impl; [exact Hall|]. intros kv Hkv. by apply field_ok_wf.
  - rewrite finite_JObj. apply forallb_forall. intros kv Hin%list_elem_of_In.
    rewrite Forall_forall in Hall. by apply field_ok_wf, Hall.
Qed.

Lemma validate_record_norm r n prev :
  validate_record r n prev = Ok tt → (n ≤ MAX_RECORDS)%nat → NoDup (keys r) →
  validate_record (norm_dict r) n prev = Ok tt.
Proof.
  intros Hv Hn Hnd. pose proof (validate_record_ok _ _ _ Hv) as Hr. rewrite <- Hv.
  assert (Hf : ∀ k, fld (norm_dict r) k = fld r k) by (intros; by eapply record_fld_norm).
  unfold validate_record, validate_identity_fields, candidate_key_from_identity, exact_exception.
  rewrite record_digest_norm, (keys_match_perm _ r) by apply keys_norm_dict.
  cbn [forM SHA_FIELDS]. rewrite !Hf. reflexivity.
Qed.

(** ** Scanning *)

Lemma parse_json_Ok b d :
  parse_json b = Ok d → NoDup (keys d) ∧ ∃ d0, b = BText (JObj d0) ∧ d = norm_dict d0.
Proof.
  destruct b as [[]|]; try done. unfold parse_json. intros Hp.
  apply rbind_Ok in Hp as ([] & Hn%rreq_Ok & Hp). apply rbind_Ok in Hp as ([] & _ & [= <-]).
  split; [|by eexists]. rewrite keys_norm_dict.
  by apply json_nodup_wf, json_wf_JObj in Hn as [? _].
Qed.

(** What was published reads back as the sorted dictionary. *)
Lemma parse_published r :
  json_nodup (JObj r) = true → finite (JObj r) = true →
  parse_json (BText (norm (JObj r))) = Ok (norm_dict r).
Proof.
  intros Hnd Hfin. rewrite norm_JObj. unfold parse_json.
  assert (Hidem : norm_dict (norm_dict r) = norm_dict r).
  { pose proof (norm_idem (JObj r)) as Hx. rewrite !norm_JObj in Hx. by injection Hx. }
  rewrite Hidem, <- norm_JObj, finite_norm, Hfin.
  assert (Hnn : json_nodup (norm (JObj r)) = true).
  { by apply json_wf_nodup, json_wf_norm, json_nodup_wf. }
  by rewrite Hnn.
Qed.

Lemma claims_snoc rs r : claims (rs ++ [r])%list = claims_step (claims rs) r.
Proof. unfold claims. by rewrite foldl_app. Qed.

Lemma last_record_sha_snoc rs r :
  last_record_sha (rs ++ [r])%list = str_of (fld r "record_sha256").
Proof. unfold last_record_sha. by rewrite last_snoc. Qed.

(** The effect of a record on the active claims is the one [_claims] recomputes. *)
Lemma scan_event_claims n rs r prev active :
  record_ok r n prev → scan_event n (claims rs) r = Ok active → active = claims (rs ++ [r])%list.
Proof.
  intros Hr Hs. rewrite claims_snoc. unfold scan_event in Hs. unfold claims_step.
  destruct (ro_event _ _ _ Hr) as (e & He & [-> | ->]); rewrite He in *; cbn in *.
  - by rsimp.
  - destruct (claims rs !! _); [|done]. by rsimp.
Qed.

Record scan_inv (files : list (string * node)) (st : scanst) : Prop := {
  si_length : length files = length (sc_records st);
  si_active : sc_active st = claims (sc_records st);
  si_previous : sc_previous st = last_record_sha (sc_records st);
  si_names : ∀ i f, files !! i = Some f → ∃ e, is_event e ∧ f.1 = record_file i e;
  si_records : ∀ i r, sc_records st !! i = Some r →
    validate_record r i (last_record_sha (take i (sc_records st))) = Ok tt ∧ NoDup (keys r)
    ∧ ∃ active, scan_event i (claims (take i (sc_records st))) r = Ok active
}.

Lemma scan_step_Ok st file st' :
  scan_step st file = Ok st' →
  ∃ value active e,
    fld value "event" = JStr e ∧ file.1 = record_file (length (sc_records st)) e
    ∧ NoDup (keys value)
    ∧ validate_record value (length (sc_records st)) (sc_previous st) = Ok tt
    ∧ scan_event (length (sc_records st)) (sc_active st) value = Ok active
    ∧ st' = Scan (sc_records st ++ [value])%list (str_of (fld value "record_sha256")) active.
Proof.
  unfold scan_step. intros Hs. apply rbind_Ok in Hs as (b & _ & Hs).
  apply rbind_Ok in Hs as (value & Hp & Hs). apply rbind_Ok in Hs as ([] & Hn%rreq_Ok & Hs).
  apply rbind_Ok in Hs as ([] & Hv & Hs). apply rbind_Ok in Hs as (active & Ha & [= <-]).
  apply parse_json_Ok in Hp as [Hnd _].
  destruct (fld value "event") as [| | | | |e| |] eqn:He; try done. apply String.eqb_eq in Hn.
  exists value, active, e. done.
Qed.

Lemma scan_inv0 : scan_inv [] scan0.
Proof. split; try done; intros i; by rewrite lookup_nil. Qed.

Lemma scan_inv_step pre file st st' :
  scan_inv pre st → scan_step st file = Ok st' → scan_inv (pre ++ [file]) st'.
Proof.
  intros Hi (value & active & e & He & Hn & Hnd & Hv & Ha & ->)%scan_step_Ok.
  pose proof (validate_record_ok _ _ _ Hv) as Hr.
  assert (Hev : is_event e) by (destruct (ro_event _ _ _ Hr) as (e' & He' & ?); congruence).
  destruct Hi as [Hl Hact Hp Hnames Hrec]. split; cbn [sc_records sc_active sc_previous].
  - rewrite !length_app. simpl. by rewrite Hl.
  - rewrite Hact in Ha. by eapply scan_event_claims.
  - by rewrite last_record_sha_snoc.
  - intros i f Hf. apply lookup_snoc_Some in Hf as [[_ Hf]|[-> <-]]; [eauto|].
    exists e. by rewrite Hl.
  - intros i r Hf. apply lookup_snoc_Some in Hf as [[Hlt Hf]|[-> <-]].
    + rewrite take_app_le by lia. eauto.
    + rewrite take_app_length, <- Hp, <- Hact. eauto.
Qed.

Lemma scan_all_inv files st : foldM scan_step scan0 files = Ok st → scan_inv files st.
Proof.
  apply foldM_ind; [apply scan_inv0|]. intros. by eapply scan_inv_step.
Qed.

(** A validated record, published in its place, is the next step of the scan. *)
Lemma scan_step_published files st r e nd active :
  scan_inv files st → (length (sc_records st) ≤ MAX_RECORDS)%nat →
  NoDup (keys r) → fld r "event" = JStr e →
  validate_record r (length (sc_records st)) (sc_previous st) = Ok tt →
  scan_event (length (sc_records st)) (sc_active st) (norm_dict r) = Ok active →
  read_regular (Some nd) (Some M400) MAX_RECORD_BYTES = Ok (BText (norm (JObj r))) →
  scan_step st (record_file (length (sc_records st)) e, nd)
  = Ok (Scan (sc_records st ++ [norm_dict r])%list (str_of (fld r "record_sha256")) active).
Proof.
  intros Hi Hlen Hnd He Hv Hs Hrd. pose proof (validate_record_ok _ _ _ Hv) as Hr.
  destruct (record_prints _ _ _ Hr Hlen Hnd) as [Hndj Hfin].
  unfold scan_step. cbn [fst snd]. rewrite Hrd. cbn [rbind].
  rewrite parse_published by done. cbn [rbind].
  assert (Hf : ∀ k, fld (norm_dict r) k = fld r k) by (intros; by eapply record_fld_norm).
  rewrite !Hf, He, String.eqb_refl. cbn [rreq require rbind].
  rewrite validate_record_norm by done. cbn [rbind]. by rewrite Hs.
Qed.
End Theory.
