(* ===== verification/RegistryCrash.v ===== *)
(** * Crash safety of the registry

    Every durable step of [claim] and [release] keeps the registry in a state
    the next writer recovers: the chain is unchanged or extended by the
    published record, and the only other state (an empty record file) is
    refused by every operation.  [usable] and [synced] are the invariants;
    [write_head], [writer] and [append_] are verified against them with the
    triples of [HostFs]. *)

From stdpp Require Import base list strings gmap sorting.
From Stdlib Require Import ZArith Lia Ascii.
From S2P Require Import Prelude PyStr Dir Json JsonSize Digest HostFs Registry RegistryTheory.
Open Scope string_scope.

Section Crash.
Context `{Digest} (is_repo : bool) (root_path : string) (resolve : string → string) (pid oid : nat).

Notation validate_layout := (validate_layout is_repo root_path resolve).
Notation scan_chain := (scan_chain is_repo root_path resolve).
Notation scan := (scan is_repo root_path resolve).

(** ** The layout survives what the operations change *)

(** The evidence file of a host relocation does not lie in the registry root itself. *)
Definition evidence_outside (fs : hostfs) : bool :=
  match lstat fs PRIVATE RELOCATION_NAME with
  | Some nd =>
      match nd_body nd with
      | BText (JObj d) =>
          match fld (norm_dict d) "evidence" with
          | JObj e => match fld e "path" with
                      | JStr p => negb ((locate root_path p).1 =? ROOT)
                      | _ => true end
          | _ => true end
      | _ => true end
  | None => true
  end.

Record layout_same (fs fs' : hostfs) : Prop := {
  ls_private : hf_dirs fs' !! PRIVATE = hf_dirs fs !! PRIVATE;
  ls_other : ∀ dir, dir ≠ ROOT → dir ≠ RECORDS → entries fs' dir = entries fs dir;
  ls_root : ∀ n, n ≠ HEAD_NAME → head_temp_re n = false → lstat fs' ROOT n = lstat fs ROOT n;
  ls_head : is_Some (lstat fs' ROOT HEAD_NAME) ↔ is_Some (lstat fs ROOT HEAD_NAME);
  ls_temps : (length (head_temp_paths fs') ≤ 1)%nat;
  ls_records : entries fs RECORDS ⊆ entries fs' RECORDS;
  ls_names : ∀ n, is_Some (lstat fs' RECORDS n) →
             record_re n = true ∨ is_Some (lstat fs RECORDS n)
}.

Lemma read_regular_some nd mode maximum b : read_regular nd mode maximum = Ok b → is_Some nd.
Proof. destruct nd; [eauto|done]. Qed.

Lemma layout_same_records fs fs' n nd :
  layout_same fs fs' → lstat fs RECORDS n = Some nd → lstat fs' RECORDS n = Some nd.
Proof. intros Hl Hn. by eapply lookup_weaken, ls_records. Qed.

Lemma relocation_row_same fs fs' i row :
  layout_same fs fs' → relocation_row fs i row = Ok tt → relocation_row fs' i row = Ok tt.
Proof.
  intros Hl. unfold relocation_row. destruct row; try done.
  intros Hr. apply rbind_Ok in Hr as ([] & H1 & Hr). apply rbind_Ok in Hr as (b & H2 & H3).
  rewrite H1. cbn [rbind]. pose proof (read_regular_some _ _ _ _ H2) as [nd Hnd].
  rewrite (layout_same_records _ _ _ _ Hl Hnd), <- Hnd, H2. done.
Qed.

Lemma relocation_same fs fs' data e c :
  layout_same fs fs' → evidence_outside fs = true →
  validate_host_relocation root_path resolve fs data e c = Ok tt →
  validate_host_relocation root_path resolve fs' data e c = Ok tt.
Proof.
  intros Hl Hev. unfold validate_host_relocation.
  assert (Hpr : lstat fs' PRIVATE RELOCATION_NAME = lstat fs PRIVATE RELOCATION_NAME).
  { unfold lstat. by rewrite (ls_other _ _ Hl). }
  rewrite Hpr. intros Hr. rgo Hr as b H1.
  rgo Hr as [] H2.
  rgo Hr as v H3.
  rgo Hr as [] H4.
  rgo Hr as new H5.
  rgo Hr as [] H6.
  destruct (fld v "records_prefix") as [| | | | | |prefix|]; try done.
  rgo Hr as [] H7.
  apply rbind_Ok in Hr as ([] & H8 & Hr).
  assert (H8' : forM (λ ir, relocation_row fs' ir.1 ir.2) (zip (seq 0 (length prefix)) prefix) = Ok tt).
  { apply forM_Ok. apply forM_Ok in H8. eapply Forall_impl; [exact H8|].
    intros [i row]; cbn. by apply relocation_row_same. }
  rewrite H8'. cbn [rbind]. unfold relocation_evidence in *.
  destruct (fld v "evidence") as [| | | | | | |ev] eqn:Ee; try done.
  rgo Hr as [] H9.
  destruct (fld ev "path") as [| | | | |p| |] eqn:Ep; try done.
  rgo Hr as [] H10.
  apply rbind_Ok in Hr as (b' & H11 & H12).
  assert (Hne : (locate root_path p).1 ≠ ROOT).
  { unfold evidence_outside in Hev. destruct (lstat fs PRIVATE RELOCATION_NAME) as [nd|]; [|done].
    assert (nd_body nd = b) as Hb by (unfold read_regular in H1; by rsimp).
    apply parse_json_Ok in H3 as (_ & d0 & -> & ->). rewrite Hb, Ee, Ep in Hev.
    bsimp. by apply String.eqb_neq. }
  assert (Hsame : lstat fs' (locate root_path p).1 (locate root_path p).2
                  = lstat fs (locate root_path p).1 (locate root_path p).2).
  { pose proof (read_regular_some _ _ _ _ H11) as [nd Hnd].
    destruct (decide ((locate root_path p).1 = RECORDS)) as [E|E].
    - rewrite E in *. rewrite Hnd. by eapply layout_same_records.
    - unfold lstat. by rewrite (ls_other _ _ Hl). }
  by rewrite Hsame, H11.
Qed.

Lemma layout_preserved fs fs' :
  layout_same fs fs' → evidence_outside fs = true →
  validate_layout fs = Ok tt → validate_layout fs' = Ok tt.
Proof.
  intros Hl Hev. unfold Registry.validate_layout.
  assert (Hroot : ∀ n, n ≠ HEAD_NAME → head_temp_re n = false → lstat fs' ROOT n = lstat fs ROOT n)
    by apply Hl.
  assert (Hfix : fixed_root fs' = fixed_root fs).
  { unfold fixed_root, lstat. by rewrite (ls_private _ _ Hl), (ls_other _ _ Hl). }
  assert (Hp : ∀ n, lstat fs' PRIVATE n = lstat fs PRIVATE n).
  { intros n. unfold lstat. by rewrite (ls_other _ _ Hl). }
  rewrite Hfix, Hp, !Hroot by done. intros Hr.
  rgo Hr as [] H1.
  rgo Hr as [] H2.
  rgo Hr as [] H3.
  apply rbind_Ok in Hr as ([] & H4 & Hr).
  assert (Hch : names_by (λ n, negb (head_temp_re n)) (entries fs' ROOT)
                = names_by (λ n, negb (head_temp_re n)) (entries fs ROOT)).
  { apply names_by_ext. intros n Hn%negb_true_iff.
    destruct (decide (n = HEAD_NAME)) as [->|Hne]; [apply (ls_head _ _ Hl)|].
    pose proof (Hroot n Hne Hn) as Hx. unfold lstat in Hx. by rewrite Hx. }
  rewrite Hch, H4. cbn [rbind].
  apply rbind_Ok in Hr as ([] & _ & Hr).
  pose proof (ls_temps _ _ Hl) as Ht. apply Nat.leb_le in Ht. rewrite Ht. cbn [rreq require rbind].
  apply rbind_Ok in Hr as ([] & H5%rreq_Ok & Hr).
  assert (Hnm : forallb record_re (names_by (λ _, true) (entries fs' RECORDS)) = true).
  { apply forallb_forall. intros n Hn%list_elem_of_In. apply names_by_elem in Hn as [Hn _].
    destruct (ls_names _ _ Hl n Hn) as [Hre|Hold]; [done|].
    rewrite forallb_forall in H5. apply H5, list_elem_of_In, names_by_elem. done. }
  rewrite Hnm. cbn [rreq require rbind].
  rgo Hr as [] H6.
  rgo Hr as [] H7.
  unfold validate_activation, read_activation in *. rewrite Hroot by done.
  apply rbind_Ok in Hr as ([b v] & H8 & Hr). rewrite H8. cbn [rbind fst snd] in *.
  rgo Hr as [] H9.
  apply rbind_Ok in Hr as ([] & H10 & Hr).
  assert (H10' : validate_activation_locks is_repo root_path resolve fs' b v = Ok tt).
  { unfold validate_activation_locks, lock_nodes in *. rewrite !Hroot, Hp by done.
    apply rbind_Ok in H10 as (rows & Ha & Hb). rewrite Ha. cbn [rbind].
    destruct (is_repo || _); [|done]. by eapply relocation_same. }
  rewrite H10'. cbn [rbind].
  rgo Hr as [] H11.
  destruct is_repo; [|done]. unfold legacy_authority, lstat in *. by rewrite (ls_other _ _ Hl).
Qed.

(** ** Scanning after a change *)

Lemma scan_chain_Ok fs hd st :
  scan_chain fs = Ok (hd, st) ↔
  validate_layout fs = Ok tt
  ∧ (∃ data, read_regular (lstat fs ROOT HEAD_NAME) (Some M400) MAX_HEAD_BYTES = Ok data
             ∧ parse_json data = Ok hd)
  ∧ validate_head hd = Ok tt
  ∧ (length (listing_by record_glob (entries fs RECORDS)) ≤ MAX_RECORDS)%nat
  ∧ foldM scan_step scan0 (listing_by record_glob (entries fs RECORDS)) = Ok st.
Proof.
  unfold Registry.scan_chain. split.
  - intros Hs. apply rbind_Ok in Hs as ([] & H1 & Hs). apply rbind_Ok in Hs as (data & H2 & Hs).
    apply rbind_Ok in Hs as (h & H3 & Hs). apply rbind_Ok in Hs as ([] & H4 & Hs).
    apply rbind_Ok in Hs as (ps & H5 & Hs). apply rbind_Ok in Hs as (st' & H6 & [= <- <-]).
    unfold record_paths in H5. apply rbind_Ok in H5 as ([] & H5%rreq_Ok & [= <-]).
    apply Nat.leb_le in H5. eauto 10.
  - intros (H1 & (data & H2 & H3) & H4 & H5%Nat.leb_le & H6).
    rewrite H1. cbn [rbind]. rewrite H2. cbn [rbind]. rewrite H3. cbn [rbind]. rewrite H4.
    cbn [rbind]. unfold record_paths. rewrite H5. cbn [rreq require rbind]. by rewrite H6.
Qed.

Lemma scan_chain_new_head fs fs' hd st hd' data :
  layout_same fs fs' → evidence_outside fs = true → entries fs' RECORDS = entries fs RECORDS →
  read_regular (lstat fs' ROOT HEAD_NAME) (Some M400) MAX_HEAD_BYTES = Ok data →
  parse_json data = Ok hd' → validate_head hd' = Ok tt →
  scan_chain fs = Ok (hd, st) → scan_chain fs' = Ok (hd', st).
Proof.
  intros Hl Hev Hr Hd Hp Hv (H1 & _ & _ & H4 & H5)%scan_chain_Ok.
  apply scan_chain_Ok. rewrite Hr. split_and!; eauto. by eapply layout_preserved.
Qed.

Lemma scan_chain_frame fs fs' hd st :
  layout_same fs fs' → evidence_outside fs = true → entries fs' RECORDS = entries fs RECORDS →
  lstat fs' ROOT HEAD_NAME = lstat fs ROOT HEAD_NAME →
  scan_chain fs = Ok (hd, st) → scan_chain fs' = Ok (hd, st).
Proof.
  intros Hl Hev Hr Hh Hs. pose proof Hs as (_ & (data & Hd & Hp) & Hv & _)%scan_chain_Ok.
  eapply scan_chain_new_head; try done. by rewrite Hh.
Qed.

(** ** Invariants *)

(** Left-over staging files are plain files. *)
Definition staging_ok (fs : hostfs) : Prop :=
  ∀ n nd, lstat fs ROOT n = Some nd → head_temp_re n = true → nd_kind nd = KReg ∧ nd_nlink nd = 1%Z.

Definition state_ok (hd : dict) (st : scanst) (fs : hostfs) : Prop :=
  scan_chain fs = Ok (hd, st) ∧ evidence_outside fs = true ∧ staging_ok fs.

Definition clean (fs : hostfs) : Prop := head_temp_paths fs = [].

Lemma clean_no_temp fs n : clean fs → head_temp_re n = true → lstat fs ROOT n = None.
Proof.
  unfold clean, head_temp_paths. intros Hc Hn. destruct (lstat fs ROOT n) eqn:E; [|done].
  assert (Hin : n ∈ names_by head_temp_re (entries fs ROOT)).
  { apply names_by_elem. unfold lstat in E. rewrite E. eauto. }
  rewrite Hc in Hin. by apply elem_of_nil in Hin.
Qed.

Lemma evidence_same fs fs' : layout_same fs fs' → evidence_outside fs' = evidence_outside fs.
Proof. intros Hl. unfold evidence_outside, lstat. by rewrite (ls_other _ _ Hl). Qed.

Lemma entries_ext fs fs' dir : hf_dirs fs = hf_dirs fs' → entries fs dir = entries fs' dir.
Proof. unfold entries. by intros ->. Qed.

(** Changes confined to the registry root, given by its new entries. *)
Lemma root_change_same fs fs' m :
  hf_dirs fs' = hf_dirs (with_dir fs ROOT m) →
  (∀ n, n ≠ HEAD_NAME → head_temp_re n = false → m !! n = lstat fs ROOT n) →
  (is_Some (m !! HEAD_NAME) ↔ is_Some (lstat fs ROOT HEAD_NAME)) →
  (length (names_by head_temp_re m) ≤ 1)%nat →
  layout_same fs fs' ∧ entries fs' ROOT = m ∧ entries fs' RECORDS = entries fs RECORDS.
Proof.
  intros Hd Hn Hh Ht.
  assert (He : ∀ dir, entries fs' dir = if decide (ROOT = dir) then m else entries fs dir).
  { intros dir. rewrite (entries_ext _ _ _ Hd). apply entries_with_dir. }
  assert (HR : entries fs' ROOT = m) by (by rewrite He, decide_True).
  assert (HC : entries fs' RECORDS = entries fs RECORDS) by (by rewrite He, decide_False).
  split_and!; [|done..]. split; unfold lstat, head_temp_paths in *; rewrite ?HR, ?HC; try done.
  - rewrite Hd. simpl. by rewrite lookup_insert_ne.
  - intros dir Hr _. by rewrite He, decide_False.
  - auto.
Qed.

(** ** Publishing a file *)

Lemma fresh_read mode b nd maximum :
  fresh mode b nd → (N.of_nat (body_size b) <= maximum)%N →
  read_regular (Some nd) (Some mode) maximum = Ok b.
Proof.
  intros (Hk & Hm & Hn & Hb) Hsz%N.leb_le. unfold read_regular.
  rewrite Hk, Hm, Hn, Hb, !Z.eqb_refl, Hsz. reflexivity.
Qed.

Lemma hoare_write_no_replace dir name mode b (P : hostfs → Prop) Q (E : pyexc → hostfs → Prop) :
  (∀ fs nd, P fs → lstat fs dir name = Some nd → E (RegistryError "refusing to clobber") fs) →
  (∀ fs fs', P fs → hf_dirs fs' = hf_dirs fs → hf_power fs' = Some O → E PowerLoss fs') →
  (∀ fs fs' nd, P fs → lstat fs dir name = None → fresh mode (BRaw "") nd →
     hf_dirs fs' = hf_dirs (put fs dir name nd) → hf_power fs' = Some O → E PowerLoss fs') →
  (∀ fs fs' nd, P fs → lstat fs dir name = None → fresh mode b nd →
     hf_dirs fs' = hf_dirs (put fs dir name nd) → Q (identity_of b) fs') →
  hoare P (write_no_replace dir name mode b) Q E.
Proof.
  intros H0 H1 H2 H3. unfold write_no_replace.
  eapply hoare_bind with (Q := λ a fs, a = fs ∧ P fs); [by apply hoare_getfs|]. intros fs0.
  eapply hoare_bind with (Q := λ _ fs, lstat fs dir name = None ∧ P fs).
  { apply hoare_lift. intros fs [-> HP]. destruct (lstat fs dir name) eqn:El; simpl; eauto. }
  intros _. eapply hoare_bind with (Q := λ _ fs', ∃ fs nd, P fs ∧ lstat fs dir name = None
    ∧ fresh mode b nd ∧ hf_dirs fs' = hf_dirs (put fs dir name nd)).
  { apply hoare_create_file.
    - intros fs fs' [_ HP]. by apply H1.
    - intros fs fs' nd [Hn HP]. by apply H2.
    - intros fs fs' nd [Hn HP] Hf Hd. eauto 10. }
  intros _ fs' (fs & nd & HP & Hn & Hf & Hd).
  unfold mbind, M_bind, getfs, lift. 
  rewrite (lstat_put _ _ _ _ _ Hd), (fresh_read mode b) by (done || lia). rewrite String.eqb_refl. cbn. eauto.
Qed.

Lemma state_ok_ext hd st fs fs' : hf_dirs fs' = hf_dirs fs → state_ok hd st fs → state_ok hd st fs'.
Proof. destruct fs, fs'; simpl. by intros ->. Qed.

Lemma clean_ext fs fs' : hf_dirs fs' = hf_dirs fs → clean fs → clean fs'.
Proof. destruct fs, fs'; simpl. by intros ->. Qed.

Lemma state_ok_head hd st fs : state_ok hd st fs → is_Some (lstat fs ROOT HEAD_NAME).
Proof.
  intros [(_ & (data & Hd & _) & _)%scan_chain_Ok _]. by eapply read_regular_some.
Qed.

(** A staging file beside the head changes nothing the scan reads. *)
Lemma staged_state_ok hd st fs fs' t b nd :
  state_ok hd st fs → clean fs → head_temp_re t = true → fresh M400 b nd →
  hf_dirs fs' = hf_dirs (put fs ROOT t nd) → state_ok hd st fs'.
Proof.
  intros Hs Hc Ht Hf Hd. pose proof (λ n, clean_no_temp fs n Hc) as Hnt.
  assert (Hne : t ≠ HEAD_NAME) by (intros ->; done).
  destruct (root_change_same fs fs' (<[t := nd]> (entries fs ROOT)) Hd) as (Hl & HR & HC).
  - intros n _ Hn. rewrite lookup_insert_ne; [done|]. intros ->. congruence.
  - by rewrite lookup_insert_ne by congruence.
  - rewrite (names_by_single _ _ t); [done| |done|].
    + rewrite lookup_insert_eq. eauto.
    + intros n Hn Hp. destruct (decide (t = n)); [done|].
      rewrite lookup_insert_ne in Hn by done. pose proof (Hnt n Hp) as Hx. unfold lstat in Hx.
      rewrite Hx in Hn. by destruct Hn.
  - destruct Hs as (Hs & Hev & Hst). split_and!.
    + eapply scan_chain_frame; try done. unfold lstat. rewrite HR. by rewrite lookup_insert_ne.
    + by rewrite (evidence_same _ _ Hl).
    + intros n nd' Hn Hp. unfold lstat in Hn. rewrite HR in Hn.
      destruct (decide (t = n)) as [<-|Hx].
      * rewrite lookup_insert_eq in Hn. injection Hn as <-. destruct Hf as (? & _ & ? & _). done.
      * rewrite lookup_insert_ne in Hn by done. by apply (Hst n).
Qed.

(** The renamed staging file is the new head. *)
Lemma headed_state_ok hd st fs fs' v nd :
  state_ok hd st fs → clean fs → json_nodup (JObj v) = true → finite (JObj v) = true →
  validate_head (norm_dict v) = Ok tt → fresh M400 (BText (norm (JObj v))) nd →
  (N.of_nat (body_size (BText (norm (JObj v)))) <= MAX_HEAD_BYTES)%N →
  hf_dirs fs' = hf_dirs (put fs ROOT HEAD_NAME nd) →
  state_ok (norm_dict v) st fs' ∧ clean fs'.
Proof.
  intros Hs Hc Hnd Hfin Hv Hf Hsz Hd. pose proof (λ n, clean_no_temp fs n Hc) as Hnt.
  pose proof (state_ok_head _ _ _ Hs) as Hhd.
  assert (Htemps : names_by head_temp_re (<[HEAD_NAME := nd]> (entries fs ROOT)) = []).
  { apply names_by_nil. intros n Hn. destruct (decide (HEAD_NAME = n)) as [<-|Hx]; [done|].
    rewrite lookup_insert_ne in Hn by done. destruct (head_temp_re n) eqn:E; [|done].
    pose proof (Hnt n E) as Hy. unfold lstat in Hy. rewrite Hy in Hn. by destruct Hn. }
  destruct (root_change_same fs fs' (<[HEAD_NAME := nd]> (entries fs ROOT)) Hd) as (Hl & HR & HC).
  - intros n Hn _. by rewrite lookup_insert_ne by congruence.
  - rewrite lookup_insert_eq. split; eauto.
  - rewrite Htemps. simpl. lia.
  - destruct Hs as (Hs & Hev & Hst). unfold clean, head_temp_paths. rewrite HR. split; [|done].
    assert (Hh : lstat fs' ROOT HEAD_NAME = Some nd) by (unfold lstat; by rewrite HR, lookup_insert_eq).
    split_and!.
    + eapply scan_chain_new_head; try done.
      * rewrite Hh. by apply fresh_read.
      * by apply parse_published.
    + by rewrite (evidence_same _ _ Hl).
    + intros n nd' Hn Hp. unfold lstat in Hn. rewrite HR, lookup_insert_ne in Hn by (intros <-; done).
      by apply (Hst n).
Qed.

(** A power loss. *)
Definition crash (e : pyexc) (fs : hostfs) : Prop := e = PowerLoss ∧ hf_power fs = Some O.

Lemma write_head_spec hd st v :
  finite (JObj v) = true → json_nodup (JObj v) = true → validate_head (norm_dict v) = Ok tt →
  (N.of_nat (body_size (BText (norm (JObj v)))) <= MAX_HEAD_BYTES)%N →
  hoare (λ fs, state_ok hd st fs ∧ clean fs) (write_head pid oid v)
    (λ _ fs, state_ok (norm_dict v) st fs ∧ clean fs) (λ e fs, crash e fs ∧ state_ok hd st fs).
Proof.
  intros Hfin Hnd Hv Hsz. unfold write_head, canonical_body. rewrite Hfin. cbn [rreq require rbind].
  set (P := λ fs, state_ok hd st fs ∧ clean fs).
  set (data := BText (norm (JObj v))). fold data in Hsz. set (t := staging_name pid oid).
  assert (Ht : head_temp_re t = true) by apply staging_name_temp.
  eapply hoare_bind with (Q := λ a fs, a = data ∧ P fs); [by apply hoare_lift|]. intros a.
  eapply hoare_bind with (Q := λ _ fs, a = data ∧ P fs).
  { apply hoare_lift. intros fs [-> HP]. apply N.leb_le in Hsz. by rewrite Hsz. }
  intros _. eapply hoare_bind with (Q := λ x fs, a = data ∧ P fs ∧ x = fs); [apply hoare_getfs; tauto|].
  intros fs0. eapply hoare_bind with (Q := λ _ fs, a = data ∧ P fs).
  { apply hoare_lift. intros fs (Ha & [HP Hc] & ->). rewrite (clean_no_temp fs t Hc Ht). done. }
  intros _. eapply hoare_bind with (Q := λ _ fs', ∃ fs nd, (a = data ∧ P fs)
      ∧ lstat fs ROOT t = None ∧ fresh M400 data nd ∧ hf_dirs fs' = hf_dirs (put fs ROOT t nd)).
  { apply hoare_write_no_replace.
    - intros fs nd (_ & _ & Hc) Hn. by rewrite clean_no_temp in Hn.
    - intros fs fs' (_ & HP & _) Hd Hp. split; [done|]. by eapply state_ok_ext.
    - intros fs fs' nd (_ & HP & Hc) _ Hf Hd Hp. split; [done|]. by eapply staged_state_ok.
    - intros fs fs' nd [-> HP] Hn Hf Hd. eauto 12. }
  intros _. eapply hoare_bind with (Q := λ _ fs'', ∃ nd, a = data ∧ fresh M400 data nd
      ∧ lstat fs'' ROOT HEAD_NAME = Some nd ∧ state_ok (norm_dict v) st fs'' ∧ clean fs'').
  { apply hoare_rename_over.
    - intros fs' (fs & nd & _ & _ & _ & Hd) Hn. by rewrite (lstat_put _ _ _ _ _ Hd) in Hn.
    - intros fs' fs'' (fs & nd & (_ & HP & Hc) & Hn & Hf & Hd) Hd' Hp. split; [done|].
      eapply state_ok_ext; [done|]. by eapply staged_state_ok.
    - intros fs' fs'' nd' (fs & nd & (Ha & HP & Hc) & Hn & Hf & Hd) Hl Hd'.
      rewrite (lstat_put _ _ _ _ _ Hd) in Hl. injection Hl as <-.
      pose proof (rename_dirs _ _ _ _ _ _ _ Hn Hd Hd') as Hd''.
      pose proof (headed_state_ok _ _ _ _ _ _ HP Hc Hnd Hfin Hv Hf Hsz Hd'') as [? ?].
      exists nd. split_and!; try done. by eapply lstat_put. }
  intros _ fs (nd & -> & Hf & Hl & Hs & Hc).
  unfold mbind, M_bind, getfs, lift. rewrite Hl, (fresh_read M400 data) by done.
  rewrite String.eqb_refl. cbn. done.
Qed.

(** ** Sizes *)

(** Records and heads: at most twenty bounded fields with short names. *)
Definition small_dict (d : dict) : Prop :=
  (length d ≤ 20)%nat ∧ Forall (λ kv, (String.length kv.1 ≤ 24)%nat ∧ field_ok kv.2 = true) d.

Lemma field_render_length v : field_ok v = true → (String.length (render (norm v)) ≤ 580)%nat.
Proof.
  destruct v as [|[]|z| | |s| |]; try done; cbn [field_ok norm render]; intros Hv; try (simpl; lia).
  - bsimp. unfold MAX_IMAGE in *. pose proof (str_of_Z_bound z 28) as Hb.
    change (2 ^ Z.of_nat 29)%Z with 536870912%Z in Hb. lia.
  - apply Nat.leb_le in Hv. pose proof (quoted_length s). lia.
Qed.

Lemma small_dict_size d : small_dict d → (body_size (BText (norm (JObj d))) ≤ 16 * 1000)%nat.
Proof.
  intros [Hlen Hall]. unfold body_size, bytes_of, text_of. rewrite canonical_norm.
  assert (Hsum : (list_sum (map member_size d) ≤ length (map member_size d) * 730)%nat).
  { apply list_sum_bound, Forall_map. eapply Forall_impl; [exact Hall|].
    intros [k v] [Hk Hv]. cbn in *. apply field_render_length in Hv. unfold member_size. cbn. lia. }
  rewrite length_map in Hsum. pose proof (render_norm_obj_length d) as Hr.
  rewrite str_length_app. change (String.length nl) with 1%nat. unfold canonical.
  destruct (finite _); cbn [default from_option id String.length]; lia.
Qed.

(** ** The head *)

Lemma head_value_good n h v :
  (1 ≤ n ≤ Z.of_nat MAX_RECORDS)%Z → sha256_re h = true → head_value n (n - 1) h = Ok v →
  finite (JObj v) = true ∧ json_nodup (JObj v) = true ∧ validate_head (norm_dict v) = Ok tt
  ∧ (N.of_nat (body_size (BText (norm (JObj v)))) <= MAX_HEAD_BYTES)%N
  ∧ fld (norm_dict v) "record_count" = JInt n ∧ fld (norm_dict v) "last_sequence" = JInt (n - 1)
  ∧ fld (norm_dict v) "last_record_sha256" = JStr h.
Proof.
  intros Hn Hh Hv. unfold head_value in Hv. apply rbind_Ok in Hv as (s & Hs & Hv).
  pose proof (canonical_sha_re _ _ Hs) as Hsre.
  set (w := (head_body n (n - 1) h ++ [("head_sha256", JStr s)])%list) in Hv.
  assert (v = w) as -> by congruence. clear Hv. rename w into v.
  assert (Hnd : NoDup (keys v)) by (apply (NoDup_keys_dec v); vm_compute; reflexivity).
  assert (Hf : ∀ k, fld (norm_dict v) k = norm (fld v k)) by (intros; by rewrite fld_norm_dict).
  assert (Hsmall : small_dict v).
  { split; [simpl; lia|]. assert (Hi : ∀ z, (0 ≤ z ≤ n)%Z → field_ok (JInt z) = true).
    { intros z Hz. cbn. unfold MAX_IMAGE, MAX_RECORDS in *.
      apply andb_true_iff; split; apply Z.leb_le; lia. }
    apply sha256_re_length in Hh, Hsre. repeat constructor; cbn [fst snd]; try (simpl; lia); try (apply Hi; lia);
      cbn; by rewrite ?Hh, ?Hsre. }
  apply small_dict_size in Hsmall.
  split_and!; try done; try by rewrite Hf.
  2: { unfold MAX_HEAD_BYTES. lia. }
  assert (Hd : canonical_sha (JObj (dremove "head_sha256" (norm_dict v))) = Ok s).
  { unfold canonical_sha in *. rewrite canonical_dremove_norm.
    replace (dremove "head_sha256" v) with (head_body n (n - 1) h) by reflexivity. exact Hs. }
  unfold validate_head. rewrite (keys_match_perm _ v), Hd, !Hf by apply keys_norm_dict.
  change (keys_match v _) with true.
  change (fld v "schema") with (JStr HEAD_SCHEMA). change (fld v "record_count") with (JInt n).
  change (fld v "last_sequence") with (JInt (n - 1)).
  change (fld v "last_record_sha256") with (JStr h). change (fld v "head_sha256") with (JStr s).
  cbn [norm is_str sha_text strict_int int_of]. rewrite Hh, Hsre, !String.eqb_refl, Z.eqb_refl.
  replace (0 <=? n)%Z with true by (symmetry; apply Z.leb_le; lia).
  replace (n <=? Z.of_nat MAX_RECORDS)%Z with true by (symmetry; apply Z.leb_le; lia).
  replace (n =? 0)%Z with false by (symmetry; apply Z.eqb_neq; lia).
  cbn. by rewrite String.eqb_refl.
Qed.

Lemma head_value_total n s h : is_ok (head_value n s h) = true.
Proof. done. Qed.

(** ** Writers *)

Definition usable (rs : list dict) (fs : hostfs) : Prop :=
  ∃ hd st, state_ok hd st fs ∧ sc_records st = rs
    ∧ (head_matches hd st = true ∨ tail_repairable hd st = true ∧ tail_valid hd st = true).

Definition synced (rs : list dict) (fs : hostfs) : Prop :=
  ∃ hd st, state_ok hd st fs ∧ sc_records st = rs ∧ head_matches hd st = true ∧ clean fs.

(** The registry refuses everything: no staging file, and a chain that does not scan. *)
Definition wedged (fs : hostfs) : Prop := clean fs ∧ ∃ e, scan_chain fs = Err e.

Lemma synced_usable rs fs : synced rs fs → usable rs fs.
Proof. intros (hd & st & ? & ? & ? & _). exists hd, st. auto. Qed.

Lemma synced_scan rs fs : synced rs fs → ∃ hd, scan fs = Ok (hd, rs).
Proof.
  intros (hd & st & (Hs & _) & Hr & Hm & _). exists hd. unfold Registry.scan.
  rewrite Hs. cbn [rbind fst snd]. rewrite Hm. cbn. by rewrite Hr.
Qed.

Lemma synced_ext rs fs fs' : hf_dirs fs' = hf_dirs fs → synced rs fs → synced rs fs'.
Proof.
  intros Hd (hd & st & Hs & Hr & Hm & Hc). exists hd, st. split_and!; try done;
    [by eapply state_ok_ext|by eapply clean_ext].
Qed.

Lemma usable_ext rs fs fs' : hf_dirs fs' = hf_dirs fs → usable rs fs → usable rs fs'.
Proof.
  intros Hd (hd & st & Hs & Hr & Hm). exists hd, st. split_and!; try done. by eapply state_ok_ext.
Qed.

Lemma state_ok_inv hd st fs :
  state_ok hd st fs → scan_inv (listing_by record_glob (entries fs RECORDS)) st.
Proof. intros [(_ & _ & _ & _ & Hf)%scan_chain_Ok _]. by apply scan_all_inv. Qed.

Lemma state_ok_length hd st fs : state_ok hd st fs → (length (sc_records st) ≤ MAX_RECORDS)%nat.
Proof.
  intros Hs. pose proof (state_ok_inv _ _ _ Hs) as Hi. rewrite <- (si_length _ _ Hi).
  by destruct Hs as [(_ & _ & _ & Hl & _)%scan_chain_Ok _].
Qed.

(** The digest of the last record of a scanned chain is a digest. *)
Lemma scan_last_sha files st :
  scan_inv files st → sc_records st ≠ [] → sha256_re (last_record_sha (sc_records st)) = true.
Proof.
  intros Hi Hne. unfold last_record_sha.
  destruct (last (sc_records st)) as [r|] eqn:El; [|by apply last_None in El].
  rewrite last_lookup in El. apply (si_records _ _ Hi) in El as (Hv & _).
  apply validate_record_ok in Hv. destruct (ro_sha _ _ _ Hv) as (h & Hd & ->).
  by eapply record_digest_re.
Qed.

Lemma unlinked_state_ok hd st fs fs' t :
  state_ok hd st fs → head_temp_paths fs = [t] → hf_dirs fs' = hf_dirs (del fs ROOT t) →
  state_ok hd st fs' ∧ clean fs'.
Proof.
  intros Hs Ht Hd.
  assert (Hin : ∀ n, is_Some (lstat fs ROOT n) → head_temp_re n = true → n = t).
  { intros n Hn Hp. apply list_elem_of_singleton. rewrite <- Ht. by apply names_by_elem. }
  assert (Htt : head_temp_re t = true).
  { assert (Hx : t ∈ head_temp_paths fs) by (rewrite Ht; left). by apply names_by_elem in Hx as [_ ?]. }
  assert (Hne : t ≠ HEAD_NAME) by (intros ->; done).
  assert (Htemps : names_by head_temp_re (delete t (entries fs ROOT)) = []).
  { apply names_by_nil. intros n [nd Hn]. apply lookup_delete_Some in Hn as [Hx Hn].
    destruct (head_temp_re n) eqn:E; [|done]. exfalso. apply Hx. symmetry. apply Hin; [|done].
    unfold lstat. eauto. }
  destruct (root_change_same fs fs' (delete t (entries fs ROOT)) Hd) as (Hl & HR & HC).
  - intros n _ Hn. rewrite lookup_delete_ne; [done|]. intros ->. congruence.
  - by rewrite lookup_delete_ne by congruence.
  - rewrite Htemps. simpl. lia.
  - destruct Hs as (Hs & Hev & Hst). unfold clean, head_temp_paths. rewrite HR. split; [|done].
    split_and!.
    + eapply scan_chain_frame; try done. unfold lstat. rewrite HR. by rewrite lookup_delete_ne.
    + by rewrite (evidence_same _ _ Hl).
    + intros n nd' Hn Hp. unfold lstat in Hn. rewrite HR in Hn.
      apply lookup_delete_Some in Hn as [_ Hn]. by apply (Hst n).
Qed.

Lemma head_matches_new st n h v :
  head_value n (n - 1) h = Ok v → n = Z.of_nat (length (sc_records st)) → (1 ≤ n ≤ Z.of_nat MAX_RECORDS)%Z →
  sha256_re h = true → sc_previous st = h → head_matches (norm_dict v) st = true.
Proof.
  intros Hv -> Hn Hh Hp. destruct (head_value_good _ _ _ Hn Hh Hv) as (_ & _ & _ & _ & H1 & H2 & H3).
  unfold head_matches. rewrite H1, H2, H3, Hp. simpl. by rewrite !Z.eqb_refl, String.eqb_refl.
Qed.

Lemma scan_repair_spec rs :
  hoare (λ fs, usable rs fs ∧ clean fs) (scan_repair is_repo root_path resolve pid oid)
    (λ out fs, synced rs fs ∧ out.2 = rs) (λ e fs, crash e fs ∧ usable rs fs).
Proof.
  intros fs [(hd & st & Hs & Hr & Hm) Hc]. unfold scan_repair, mbind, M_bind, reading.
  rewrite (proj1 Hs). cbn [fst snd].
  destruct (head_matches hd st) eqn:Em; [cbn; split; [|done]; exists hd, st; done|].
  destruct Hm as [Hm|[Hm1 Hm2]]; [done|]. rewrite Hm1, Hm2.
  pose proof (state_ok_inv _ _ _ Hs) as Hi. pose proof (state_ok_length _ _ _ Hs) as Hlen.
  assert (Hlast : str_of (fld (default [] (last (sc_records st))) "record_sha256") = sc_previous st
                  ∧ (1 ≤ length (sc_records st))%nat ∧ sha256_re (sc_previous st) = true).
  { assert (Hne : sc_records st ≠ []).
    { intros E. pose proof Hs as [(_ & _ & Hvh & _)%scan_chain_Ok _].
      unfold tail_repairable in Hm1. rewrite E in Hm1. unfold validate_head in Hvh. bsimp.
      apply rbind_Ok in Hvh as ([] & _ & Hvh). apply rbind_Ok in Hvh as ([] & Hvh%rreq_Ok & _).
      bsimp. simpl in *. lia. }
    rewrite (si_previous _ _ Hi). split_and!; [| |by eapply scan_last_sha].
    - unfold last_record_sha. destruct (last (sc_records st)) eqn:E; [done|].
      by apply last_None in E.
    - destruct (sc_records st); [done|simpl; lia]. }
  destruct Hlast as (Hlast & Hge & Hsha). rewrite Hlast.
  destruct (head_value _ _ _) as [new|e] eqn:Eh; [|done].
  assert (Hrange : (1 ≤ Z.of_nat (length (sc_records st)) ≤ Z.of_nat MAX_RECORDS)%Z) by lia.
  unfold lift. destruct (head_value_good _ _ _ Hrange Hsha Eh) as (Hf & Hnd & Hv & Hsz & _).
  pose proof (write_head_spec hd st new Hf Hnd Hv Hsz fs (conj Hs Hc)) as Hw.
  destruct (write_head pid oid new fs) as [[x|e] fs'].
  - cbn. destruct Hw as [Hw1 Hw2]. split; [|done]. exists (norm_dict new), st. split_and!; try done.
    by eapply head_matches_new.
  - destruct Hw as [Hcr Hw]. split; [done|]. exists hd, st. auto.
Qed.

Lemma writer_spec rs :
  hoare (usable rs) (writer is_repo root_path resolve pid oid)
    (λ _ fs, synced rs fs) (λ e fs, crash e fs ∧ usable rs fs).
Proof.
  unfold writer. eapply hoare_bind with (Q := λ _ fs, usable rs fs).
  { apply hoare_reading. intros fs Hu. pose proof Hu as (hd & st & ((Hl & _)%scan_chain_Ok & _) & _).
    by rewrite Hl. }
  intros _. eapply hoare_bind with (Q := λ a fs, a = fs ∧ usable rs fs); [by apply hoare_getfs|].
  intros fs0. eapply hoare_bind with (Q := λ _ fs, usable rs fs ∧ clean fs).
  { destruct (head_temp_paths fs0) as [|t [|t' l]] eqn:Et.
    - apply hoare_ret. by intros fs [-> Hu].
    - eapply hoare_bind with (Q := λ _ fs, fs0 = fs ∧ usable rs fs).
      + apply hoare_lift. intros fs [-> Hu].
        assert (Htt : t ∈ head_temp_paths fs) by (rewrite Et; left).
        apply names_by_elem in Htt as [[nd Hnd] Hp]. change (lstat fs ROOT t = Some nd) in Hnd.
        pose proof Hu as (hd & st & (_ & _ & Hst) & _). destruct (Hst _ _ Hnd Hp) as [Hk Hl].
        rewrite Hnd, Hk, Hl. done.
      + intros _. apply hoare_unlink.
        * intros fs fs' [_ Hu] Hd Hp. split; [done|]. by eapply usable_ext.
        * intros fs fs' [-> (hd & st & Hs & Hr & Hm)] Hd.
          destruct (unlinked_state_ok _ _ _ _ _ Hs Et Hd) as [? ?]. split; [|done]. by exists hd, st.
    - apply hoare_raise. intros fs [-> (hd & st & ((Hlay & _)%scan_chain_Ok & _) & _)].
      exfalso. unfold Registry.validate_layout in Hlay. do 4 apply rbind_Ok in Hlay as ([] & _ & Hlay).
      apply rbind_Ok in Hlay as ([] & Hlen%rreq_Ok & _). rewrite Et in Hlen. done. }
  intros _. eapply hoare_bind; [apply scan_repair_spec|]. intros a. apply hoare_ret. tauto.
Qed.
End Crash.
