(* ===== verification/RegistryAppend.v ===== *)
(** * Publishing a record

    [_append] on a synchronised registry: it ends with the chain extended by
    the validated record and a matching head; a power loss leaves the old
    chain, the extended chain with a head one record behind (which the next
    writer repairs), or an empty record file that every operation refuses. *)

From stdpp Require Import base list strings gmap sorting.
From Stdlib Require Import ZArith Lia Ascii.
From S2P Require Import Prelude PyStr Dir Json Digest HostFs Registry RegistryTheory RegistryCrash.
Open Scope string_scope.

Section Append.
Context `{Digest} (is_repo : bool) (root_path : string) (resolve : string → string) (pid oid : nat).

Notation scan_chain := (scan_chain is_repo root_path resolve).
Notation state_ok := (state_ok is_repo root_path resolve).
Notation usable := (usable is_repo root_path resolve).
Notation synced := (synced is_repo root_path resolve).
Notation wedged := (wedged is_repo root_path resolve).

(** ** The next file *)

Lemma record_file_le i j e e' :
  (i < j)%nat → (j ≤ MAX_RECORDS)%nat → String.le (record_file i e) (record_file j e').
Proof. intros Hi Hj. apply (num_name_le 8 _ record_steps); lia. Qed.

Lemma record_file_ne i j e e' :
  (i < j)%nat → (j ≤ MAX_RECORDS)%nat → record_file i e ≠ record_file j e'.
Proof. intros Hi Hj. apply (num_name_ne 8 _ record_steps); lia. Qed.

Lemma next_name_free hd st fs e :
  state_ok hd st fs → (length (sc_records st) < MAX_RECORDS)%nat → is_event e →
  lstat fs RECORDS (record_file (length (sc_records st)) e) = None.
Proof.
  intros Hs Hn He. destruct (lstat _ _ _) as [nd|] eqn:El; [|done].
  pose proof (state_ok_inv _ _ _ _ _ _ Hs) as Hi.
  assert (Hin : (record_file (length (sc_records st)) e, nd) ∈ listing_by record_glob (entries fs RECORDS)).
  { apply listing_by_elem. split; [done|]. by apply record_file_glob. }
  apply list_elem_of_lookup in Hin as [i Hi'].
  pose proof (lookup_lt_Some _ _ _ Hi') as Hlt. rewrite (si_length _ _ Hi) in Hlt.
  apply (si_names _ _ Hi) in Hi' as (e' & _ & Heq). simpl in Heq. exfalso. symmetry in Heq.
  revert Heq. apply record_file_ne; lia.
Qed.

Lemma next_listing hd st fs e nd :
  state_ok hd st fs → (length (sc_records st) < MAX_RECORDS)%nat → is_event e →
  listing_by record_glob (<[record_file (length (sc_records st)) e := nd]> (entries fs RECORDS))
  = (listing_by record_glob (entries fs RECORDS)
     ++ [(record_file (length (sc_records st)) e, nd)])%list.
Proof.
  intros Hs Hn He. apply listing_by_insert_last.
  - by eapply next_name_free.
  - by apply record_file_glob.
  - pose proof (state_ok_inv _ _ _ _ _ _ Hs) as Hi. rewrite <- listing_by_names.
    apply Forall_fmap, Forall_lookup. intros i [n f] Hf. cbn.
    pose proof (lookup_lt_Some _ _ _ Hf) as Hlt. rewrite (si_length _ _ Hi) in Hlt.
    apply (si_names _ _ Hi) in Hf as (e' & _ & Heq). simpl in Heq. subst n.
    apply record_file_le; lia.
Qed.

(** Adding the next record file is a change the layout allows. *)
Lemma next_layout hd st fs fs' e nd :
  state_ok hd st fs → clean fs → (length (sc_records st) < MAX_RECORDS)%nat → is_event e →
  hf_dirs fs' = hf_dirs (put fs RECORDS (record_file (length (sc_records st)) e) nd) →
  layout_same fs fs' ∧ entries fs' ROOT = entries fs ROOT
  ∧ entries fs' RECORDS = <[record_file (length (sc_records st)) e := nd]> (entries fs RECORDS).
Proof.
  intros Hs Hc Hn He Hd. set (name := record_file _ e) in *.
  assert (Hent : ∀ dir, entries fs' dir
     = if decide (RECORDS = dir) then <[name := nd]> (entries fs dir) else entries fs dir).
  { intros dir. rewrite (entries_ext _ _ _ Hd). apply entries_put. }
  assert (HR : entries fs' ROOT = entries fs ROOT) by (by rewrite Hent, decide_False).
  assert (HC : entries fs' RECORDS = <[name := nd]> (entries fs RECORDS)) by (by rewrite Hent, decide_True).
  split_and!; try done.
  split; unfold lstat, head_temp_paths in *; rewrite ?HR, ?HC; try done.
  - rewrite Hd. simpl. by rewrite lookup_insert_ne.
  - intros dir _ Hr. by rewrite Hent, decide_False.
  - unfold clean, head_temp_paths in Hc. rewrite Hc. simpl. lia.
  - apply insert_subseteq. by eapply next_name_free.
  - intros n [x Hx]. destruct (decide (name = n)) as [<-|Hne].
    + left. by apply record_file_re.
    + right. rewrite lookup_insert_ne in Hx by done. eauto.
Qed.

Lemma next_clean hd st fs fs' e nd :
  state_ok hd st fs → clean fs → (length (sc_records st) < MAX_RECORDS)%nat → is_event e →
  hf_dirs fs' = hf_dirs (put fs RECORDS (record_file (length (sc_records st)) e) nd) → clean fs'.
Proof.
  intros Hs Hc Hn He Hd. destruct (next_layout _ _ _ _ _ _ Hs Hc Hn He Hd) as (_ & HR & _).
  unfold clean, head_temp_paths in *. by rewrite HR.
Qed.

(** ** The two states after the file is created *)

Lemma torn_wedged hd st fs fs' e nd :
  state_ok hd st fs → clean fs → (length (sc_records st) < MAX_RECORDS)%nat → is_event e →
  fresh M400 (BRaw "") nd →
  hf_dirs fs' = hf_dirs (put fs RECORDS (record_file (length (sc_records st)) e) nd) →
  wedged fs'.
Proof.
  intros Hs Hc Hn He Hf Hd. split; [by eapply next_clean|].
  destruct (next_layout _ _ _ _ _ _ Hs Hc Hn He Hd) as (Hl & HR & HC).
  destruct (scan_chain fs') as [[hd' st']|e'] eqn:E; [|eauto]. exfalso.
  apply scan_chain_Ok in E as (_ & _ & _ & _ & Hfold).
  rewrite HC, (next_listing _ _ _ _ _ Hs Hn He), foldM_snoc in Hfold.
  apply rbind_Ok in Hfold as (st1 & _ & Hstep). unfold scan_step in Hstep. cbn [snd fst] in Hstep.
  rewrite (fresh_read M400 (BRaw "")) in Hstep by (done || vm_compute; discriminate). done.
Qed.

Lemma published_state_ok hd st fs fs' r e nd active :
  state_ok hd st fs → clean fs → (length (sc_records st) < MAX_RECORDS)%nat →
  NoDup (keys r) → fld r "event" = JStr e →
  validate_record r (length (sc_records st)) (sc_previous st) = Ok tt →
  scan_event (length (sc_records st)) (sc_active st) (norm_dict r) = Ok active →
  fresh M400 (BText (norm (JObj r))) nd →
  (N.of_nat (body_size (BText (norm (JObj r)))) <= MAX_RECORD_BYTES)%N →
  hf_dirs fs' = hf_dirs (put fs RECORDS (record_file (length (sc_records st)) e) nd) →
  state_ok hd (Scan (sc_records st ++ [norm_dict r])%list (str_of (fld r "record_sha256")) active) fs'.
Proof.
  intros Hs Hc Hn Hnd Hev Hv Hact Hf Hsz Hd.
  assert (He : is_event e).
  { apply validate_record_ok in Hv. destruct (ro_event _ _ _ Hv) as (e' & He' & ?). congruence. }
  destruct (next_layout _ _ _ _ _ _ Hs Hc Hn He Hd) as (Hl & HR & HC).
  pose proof (state_ok_inv _ _ _ _ _ _ Hs) as Hi.
  pose proof Hs as (Hscan & Hevd & Hst). split_and!.
  - pose proof Hscan as (H1 & (data & H2 & H3) & H4 & H5 & H6)%scan_chain_Ok.
    apply scan_chain_Ok. rewrite HC, (next_listing _ _ _ _ _ Hs Hn He). split_and!.
    + by eapply layout_preserved.
    + exists data. unfold lstat in *. by rewrite HR.
    + done.
    + rewrite length_app. simpl. rewrite (si_length _ _ Hi). lia.
    + rewrite foldM_snoc, H6. cbn [rbind].
      eapply scan_step_published; try done; [lia|]. by apply fresh_read.
  - by rewrite (evidence_same _ _ _ Hl).
  - intros n x Hx. unfold lstat in Hx. rewrite HR in Hx. by apply (Hst n).
Qed.

(** The head one record behind is what [_writer] repairs. *)
Lemma lagging_usable hd st fs fs' r active :
  state_ok hd st fs → head_matches hd st = true → (length (sc_records st) < MAX_RECORDS)%nat →
  validate_record r (length (sc_records st)) (sc_previous st) = Ok tt → NoDup (keys r) →
  state_ok hd (Scan (sc_records st ++ [norm_dict r])%list (str_of (fld r "record_sha256")) active) fs' →
  usable (sc_records st ++ [norm_dict r]) fs'.
Proof.
  intros Hs Hm Hn Hv Hnd Hs'. eexists _, _. split_and!; [exact Hs'|done|]. right.
  pose proof (state_ok_inv _ _ _ _ _ _ Hs) as Hi. pose proof (validate_record_ok _ _ _ Hv) as Hr.
  unfold head_matches in Hm. bsimp. rewrite is_str_eq in *.
  match goal with H : int_of (fld hd "record_count") = _ |- _ => rename H into Hcount end.
  match goal with H : int_of (fld hd "last_sequence") = _ |- _ => rename H into Hseq end.
  match goal with H : fld hd "last_record_sha256" = _ |- _ => rename H into Hsha end.
  unfold tail_repairable, tail_valid. cbn [sc_records]. rewrite Hcount, Hseq, Hsha.
  rewrite length_app, last_snoc. cbn [length default from_option id].
  rewrite !(record_fld_norm _ _ _ _ Hr) by (done || lia). rewrite (ro_sequence _ _ _ Hr), (ro_previous _ _ _ Hr).
  split; [apply andb_true_iff; split; [apply Z.eqb_eq|apply Z.leb_le]; lia|].
  assert (Hprefix : (if (Z.of_nat (length (sc_records st)) =? 0)%Z then ZERO_SHA256
    else match (sc_records st ++ [norm_dict r])%list !! Z.to_nat (Z.of_nat (length (sc_records st)) - 1) with
         | Some r0 => str_of (fld r0 "record_sha256") | None => "" end) = sc_previous st).
  { rewrite (si_previous _ _ Hi). unfold last_record_sha.
    generalize (sc_records st). intros l. destruct l as [|r0 rs _] using rev_ind; [done|].
    rewrite last_snoc, length_app. cbn [length].
    destruct (Z.eqb_spec (Z.of_nat (length rs + 1)) 0); [lia|].
    replace (Z.to_nat _) with (length rs) by lia.
    rewrite <- app_assoc. cbn [app]. by rewrite list_lookup_middle. }
  rewrite Hprefix. cbn [int_of is_str]. rewrite !Z.eqb_refl, String.eqb_refl. done.
Qed.

(** ** [_append] *)

(** The record [_append] signs: sequence, predecessor and digest are filled in. *)
Definition signed (rs : list dict) (record : dict) : result dict :=
  let r1 := dset "previous_record_sha256" (JStr (last_record_sha rs))
              (dset "sequence" (JInt (Z.of_nat (length rs))) record) in
  let* h := record_digest r1 in Ok (dset "record_sha256" (JStr h) r1).

Definition appendable (rs : list dict) (r : dict) : Prop :=
  (length rs < MAX_RECORDS)%nat ∧ validate_record r (length rs) (last_record_sha rs) = Ok tt.

Lemma record_keys_bound k : In k RECORD_FIELDS → (String.length k ≤ 24)%nat.
Proof.
  assert (Hall : forallb (λ k, String.length k <=? 24)%nat RECORD_FIELDS = true) by reflexivity.
  rewrite forallb_forall in Hall. intros Hk%Hall. by apply Nat.leb_le.
Qed.

Lemma record_size r n prev :
  record_ok r n prev → (n ≤ MAX_RECORDS)%nat → NoDup (keys r) →
  (N.of_nat (body_size (BText (norm (JObj r)))) <= MAX_RECORD_BYTES)%N.
Proof.
  intros Hr Hn Hnd. pose proof (record_members _ _ _ Hr Hn Hnd) as Hall.
  assert (Hk : ∀ k, In k (keys r) → In k RECORD_FIELDS).
  { intros k. apply (keys_match_In _ _ _ (ro_keys _ _ _ Hr)). }
  assert (Hsm : small_dict r).
  { split.
    - pose proof (NoDup_incl_length (proj1 (NoDup_ListNoDup _) Hnd) Hk) as Hl.
      unfold keys in Hl. rewrite length_fmap in Hl. exact Hl.
    - apply Forall_forall. intros [k v] Hin. rewrite Forall_forall in Hall.
      split; [|exact (Hall _ Hin)]. apply record_keys_bound, Hk. apply list_elem_of_In.
      by apply (list_elem_of_fmap_2 fst _ _ Hin). }
  apply small_dict_size in Hsm. unfold MAX_RECORD_BYTES. lia.
Qed.

(** What an unfinished append may leave behind. *)
Definition append_fails (rs : list dict) (r : dict) (e : pyexc) (fs : hostfs) : Prop :=
  (crash e fs ∧ (synced rs fs ∨ wedged fs ∨ usable (rs ++ [norm_dict r]) fs))
  ∨ (synced rs fs ∧ ¬ appendable rs r).

Definition event_accepted (rs : list dict) (r : dict) : Prop :=
  ∃ active, scan_event (length rs) (claims rs) (norm_dict r) = Ok active.

Lemma head_step_spec hd st r active v :
  (length (sc_records st) < MAX_RECORDS)%nat → head_matches hd st = true →
  NoDup (keys r) → validate_record r (length (sc_records st)) (sc_previous st) = Ok tt →
  head_value (Z.of_nat (length (sc_records st)) + 1) (Z.of_nat (length (sc_records st)))
    (str_of (fld r "record_sha256")) = Ok v →
  hoare (λ fs, (∃ fs0, state_ok hd st fs0) ∧ clean fs
               ∧ state_ok hd (Scan (sc_records st ++ [norm_dict r]) (str_of (fld r "record_sha256")) active) fs)
    (write_head pid oid v)
    (λ _ fs, synced (sc_records st ++ [norm_dict r]) fs)
    (λ e fs, crash e fs ∧ usable (sc_records st ++ [norm_dict r]) fs).
Proof.
  intros Hn Hm Hnd Hv Hhv. set (st' := Scan _ _ active).
  assert (Hsha : sha256_re (str_of (fld r "record_sha256")) = true).
  { apply validate_record_ok in Hv. destruct (ro_sha _ _ _ Hv) as (h & Hd & ->).
    by eapply record_digest_re. }
  set (n := (Z.of_nat (length (sc_records st)) + 1)%Z) in *.
  replace (Z.of_nat (length (sc_records st))) with (n - 1)%Z in Hhv by lia.
  assert (Hrange : (1 ≤ n ≤ Z.of_nat MAX_RECORDS)%Z) by lia.
  destruct (head_value_good _ _ _ Hrange Hsha Hhv) as (Hf & Hndv & Hvh & Hsz & _).
  intros fs ((fs0 & Hs0) & Hc & Hs).
  pose proof (write_head_spec is_repo root_path resolve pid oid hd st' v Hf Hndv Hvh Hsz fs (conj Hs Hc)) as Hw.
  destruct (write_head pid oid v fs) as [[x|e] fs'].
  - destruct Hw as [Hw1 Hw2]. exists (norm_dict v), st'. split_and!; try done.
    eapply head_matches_new; try done. cbn. rewrite length_app. simpl. lia.
  - destruct Hw as [Hcr Hw]. split; [done|]. by eapply lagging_usable.
Qed.

Lemma append_spec rs record r :
  signed rs record = Ok r → NoDup (keys r) → (appendable rs r → event_accepted rs r) →
  hoare (synced rs) (append_ is_repo root_path resolve pid oid record)
    (λ out fs, out.1.1 = r ∧ appendable rs r ∧ synced (rs ++ [norm_dict r]) fs)
    (append_fails rs r).
Proof.
  intros Hsig Hnd Hev. unfold append_.
  eapply hoare_bind with (Q := λ hr fs, hr.2 = rs ∧ synced rs fs).
  { apply hoare_reading. intros fs Hs. by destruct (synced_scan _ _ _ _ _ Hs) as [hd ->]. }
  intros [hd0 rs']. apply hoare_pure. cbn [snd]. intros ->.
  destruct (length rs <? MAX_RECORDS)%nat eqn:Elen; cycle 1.
  { eapply hoare_lift_Err; [done|]. intros fs Hs. right. split; [done|].
    intros [Hx _]. apply Nat.ltb_lt in Hx. congruence. }
  eapply hoare_lift_Ok; [done|]. unfold signed in Hsig. apply rbind_Ok in Hsig as (h & Hh & Hsig).
  eapply hoare_lift_Ok; [exact Hh|]. set (r' := dset "record_sha256" _ _) in *.
  assert (Hsha : fld r' "record_sha256" = JStr h) by (unfold r'; by rewrite fld_dset).
  assert (r' = r) as Hrr by congruence. clearbody r'. subst r'. clear Hsig.
  destruct (validate_record r _ _) as [[]|e] eqn:Ev; cycle 1.
  { eapply hoare_lift_Err; [done|]. intros fs Hs. right. split; [done|]. intros [_ Hx]. congruence. }
  eapply hoare_lift_Ok; [done|].
  apply Nat.ltb_lt in Elen. assert (Happ : appendable rs r) by done.
  destruct (Hev Happ) as [active Hact]. pose proof (validate_record_ok _ _ _ Ev) as Hro.
  destruct (record_prints _ _ _ Hro ltac:(lia) Hnd) as [_ Hfin].
  pose proof (record_size _ _ _ Hro ltac:(lia) Hnd) as Hsz. pose proof Hsz as Hszb%N.leb_le.
  unfold canonical_body. rewrite Hfin. eapply hoare_lift_Ok; [done|]. rewrite Hszb.
  eapply hoare_lift_Ok; [done|]. destruct (ro_event _ _ _ Hro) as (ev & Hevt & Hise).
  replace (str_of (fld r "event")) with ev by (by rewrite Hevt).
  eapply hoare_bind with (Q := λ _ fs, ∃ hd st, sc_records st = rs ∧ head_matches hd st = true
     ∧ (∃ fs0, state_ok hd st fs0) ∧ clean fs
     ∧ state_ok hd (Scan (rs ++ [norm_dict r])%list (str_of (fld r "record_sha256")) active) fs).
  { apply hoare_write_no_replace; intros fs.
    - intros nd (hd & st & Hs & <- & _ & Hc) Hn.
      by rewrite (next_name_free _ _ _ _ Hs Elen Hise) in Hn.
    - intros fs' Hs Hd Hp. left. split; [done|]. left. by eapply synced_ext.
    - intros fs' nd (hd & st & Hs & <- & _ & Hc) _ Hf Hd Hp. left. split; [done|]. right; left.
      by eapply torn_wedged.
    - intros fs' nd (hd & st & Hs & <- & Hm & Hc) _ Hf Hd.
      pose proof (state_ok_inv _ _ _ _ _ _ Hs) as Hi.
      exists hd, st. split_and!; [done|done|by eexists|by eapply next_clean|].
      rewrite <- (si_previous _ _ Hi) in Ev. rewrite <- (si_active _ _ Hi) in Hact.
      by eapply published_state_ok. }
  intros receipt. destruct (head_value _ _ h) as [v|] eqn:Ehv; [|done].
  eapply hoare_lift_Ok; [done|].
  eapply hoare_bind with (Q := λ _ fs, synced (rs ++ [norm_dict r]) fs).
  { intros fs (hd & st & <- & Hm & Hs0 & Hc & Hs).
    pose proof Hs0 as [fs0 Hs0']. pose proof (state_ok_inv _ _ _ _ _ _ Hs0') as Hi.
    rewrite <- (si_previous _ _ Hi) in Ev.
    assert (Hhv := Ehv). replace h with (str_of (fld r "record_sha256")) in Hhv by (by rewrite Hsha).
    pose proof (head_step_spec hd st r active v Elen Hm Hnd Ev Hhv fs (conj Hs0 (conj Hc Hs))) as Hw.
    destruct (write_head pid oid v fs) as [[x|e] fs']; [done|].
    left. destruct Hw as [Hcr Hu]. split; [done|]. by right; right. }
  intros _. eapply hoare_bind with (Q := λ _ fs, synced (rs ++ [norm_dict r]) fs).
  { apply hoare_reading. intros fs Hs. by destruct (synced_scan _ _ _ _ _ Hs) as [hd ->]. }
  intros _. by apply hoare_ret.
Qed.
End Append.
