(* ===== verification/RegistryRecords.v ===== *)
(** * The records of a chain

    The record a claim signs is valid and accepted by the scan; in every
    scanned chain two claims of one candidate are separated by its release,
    and a release names the claim it ends. *)

From stdpp Require Import base list strings gmap sorting.
From Stdlib Require Import ZArith Lia Ascii.
From S2P Require Import Prelude PyStr Dir Json Digest HostFs Registry RegistryTheory RegistryCrash RegistryAppend.
Open Scope string_scope.

Section Records.
Context `{Digest}.

(** ** The record of a claim *)

Lemma validate_identity_Ok identity v :
  validate_identity identity = Ok v →
  v = identity ∧ keys_match identity IDENTITY_FIELDS = true
  ∧ validate_identity_fields (dset "previous_record_sha256" (JStr ZERO_SHA256)
      (dset "claim_id" (JStr ZERO_SHA256) identity)) = Ok tt
  ∧ ∃ k, candidate_key_from_identity identity = Ok k ∧ fld identity "candidate_key" = JStr k.
Proof.
  unfold validate_identity. intros Hv. apply rbind_Ok in Hv as ([] & H1%rreq_Ok & Hv).
  apply rbind_Ok in Hv as ([] & H2 & Hv). apply rbind_Ok in Hv as (k & H3 & Hv).
  apply rbind_Ok in Hv as ([] & H4%rreq_Ok & [= <-]). bsimp. rewrite is_str_eq in *. eauto 10.
Qed.

(** The fields [claim] copies from the identity. *)
Definition COPIED : list string :=
  ["candidate_key"; "target_profile_sha256"; "target_key"; "candidate_ap_sha256";
   "candidate_ap_size"; "boot_member_name"; "boot_member_size"; "boot_member_sha256";
   "manifest_id"; "run_id"; "approval_binding_sha256"].

Lemma claim_record_get identity id n k :
  dget k (claim_record identity id n)
  = match dget k [("sequence", JInt (Z.of_nat n)); ("event", JStr "claim")] with
    | Some v => Some v
    | None =>
        match (if k =? "schema" then None else dget k identity) with
        | Some v => Some v
        | None => dget k [("schema", JStr RECORD_SCHEMA); ("claim_id", JStr id);
            ("previous_record_sha256", JStr ZERO_SHA256); ("release_reason", JNull);
            ("device_session_started", JNull); ("partition_transfer", JNull);
            ("record_sha256", JStr ZERO_SHA256)]
        end
    end.
Proof. unfold claim_record. by rewrite !dget_app, dget_dremove. Qed.

Lemma identity_has identity k :
  keys_match identity IDENTITY_FIELDS = true → In k IDENTITY_FIELDS →
  dget k identity = Some (fld identity k).
Proof.
  intros Hk Hin. apply (keys_match_In _ _ _ Hk), list_elem_of_In, dget_In_keys in Hin as [v Hv].
  unfold fld. by rewrite Hv.
Qed.

Lemma identity_lacks identity k :
  keys_match identity IDENTITY_FIELDS = true → ¬ In k IDENTITY_FIELDS → dget k identity = None.
Proof.
  intros Hk Hin. destruct (dget k identity) eqn:E; [|done]. exfalso. apply Hin.
  apply (keys_match_In _ _ _ Hk), list_elem_of_In, dget_In_keys. eauto.
Qed.

Lemma claim_record_copied identity id n k :
  keys_match identity IDENTITY_FIELDS = true → In k COPIED →
  fld (claim_record identity id n) k = fld identity k.
Proof.
  intros Hk Hin. unfold fld at 1. rewrite claim_record_get, (identity_has identity k Hk).
  - by repeat (destruct Hin as [<-|Hin]; [done|]).
  - repeat (destruct Hin as [<-|Hin]; [simpl; tauto|]). done.
Qed.

Lemma claim_record_own identity id n k v :
  keys_match identity IDENTITY_FIELDS = true →
  In (k, v) [("sequence", JInt (Z.of_nat n)); ("event", JStr "claim");
    ("schema", JStr RECORD_SCHEMA); ("claim_id", JStr id);
    ("previous_record_sha256", JStr ZERO_SHA256); ("release_reason", JNull);
    ("device_session_started", JNull); ("partition_transfer", JNull);
    ("record_sha256", JStr ZERO_SHA256)] →
  fld (claim_record identity id n) k = v.
Proof.
  intros Hk Hin. unfold fld. rewrite claim_record_get.
  repeat (destruct Hin as [[= <- <-]|Hin]; [first
    [ done | rewrite (identity_lacks identity) by (done || simpl; intuition discriminate); done ]|]).
  done.
Qed.

Lemma keys_claim_record identity id n :
  keys (claim_record identity id n)
  = (["sequence"; "event"] ++ keys (dremove "schema" identity)
     ++ ["schema"; "claim_id"; "previous_record_sha256"; "release_reason";
         "device_session_started"; "partition_transfer"; "record_sha256"])%list.
Proof. unfold claim_record, keys. by rewrite !fmap_app. Qed.

Lemma dremove_keys_elem k d x : x ∈ keys (dremove k d) ↔ x ≠ k ∧ x ∈ keys d.
Proof.
  rewrite !dget_In_keys, dget_dremove. destruct (x =? k) eqn:E.
  - apply String.eqb_eq in E. split; [by intros [? ?]|tauto].
  - apply String.eqb_neq in E. tauto.
Qed.

Lemma keys_dremove_NoDup k d : NoDup (keys d) → NoDup (keys (dremove k d)).
Proof.
  unfold keys, dremove. induction d as [|[k0 v] d IH]; [done|].
  rewrite fmap_cons. intros [Hni Hnd]%NoDup_cons.
  destruct (decide (k0 = k)).
  - rewrite filter_cons_False by (simpl; tauto). auto.
  - rewrite filter_cons_True, fmap_cons by done. apply NoDup_cons. split; [|auto].
    intros Hin. apply Hni. by apply dremove_keys_elem in Hin as [_ ?].
Qed.

Lemma claim_record_NoDup identity id n :
  keys_match identity IDENTITY_FIELDS = true → NoDup (keys identity) →
  NoDup (keys (claim_record identity id n)).
Proof.
  intros Hk Hnd. rewrite keys_claim_record.
  assert (Hmid : ∀ x, x ∈ keys (dremove "schema" identity) → In x COPIED).
  { intros x [Hne Hx]%dremove_keys_elem. apply list_elem_of_In, (keys_match_In _ _ _ Hk) in Hx.
    simpl in *. intuition congruence. }
  apply NoDup_app. split_and!.
  - by apply (bool_decide_unpack _); vm_compute.
  - intros x Hx [Hy|Hy]%elem_of_app; apply list_elem_of_In in Hx;
      [apply Hmid in Hy|apply list_elem_of_In in Hy]; simpl in *; intuition congruence.
  - apply NoDup_app. split_and!.
    + by apply keys_dremove_NoDup.
    + intros x Hx Hy%list_elem_of_In. apply Hmid in Hx. simpl in *. intuition congruence.
    + apply (bool_decide_eq_true_1 (NoDup _)). reflexivity.
Qed.

(** ** Signing *)

(** [dset] of the three fields [_append] fills in. *)
Lemma signed_fields rs record r :
  signed rs record = Ok r →
  ∃ h, sha256_re h = true ∧ record_digest r = Ok h
    ∧ ∀ k, fld r k = if k =? "record_sha256" then JStr h
                     else if k =? "previous_record_sha256" then JStr (last_record_sha rs)
                     else if k =? "sequence" then JInt (Z.of_nat (length rs)) else fld record k.
Proof.
  unfold signed. intros Hs. apply rbind_Ok in Hs as (h & Hh & Hs).
  set (r1 := dset "previous_record_sha256" _ _) in *.
  assert (r = dset "record_sha256" (JStr h) r1) as -> by congruence.
  exists h. split_and!; [by eapply record_digest_re| |].
  - unfold record_digest. by rewrite dremove_dset.
  - intros k. unfold r1. by rewrite !fld_dset.
Qed.

Lemma signed_keys rs record r :
  signed rs record = Ok r →
  "record_sha256" ∈ keys record → "previous_record_sha256" ∈ keys record → "sequence" ∈ keys record →
  keys r = keys record.
Proof.
  unfold signed. intros Hs H1 H2 H3. apply rbind_Ok in Hs as (h & Hh & Hs).
  assert (Hk : keys (dset "previous_record_sha256" (JStr (last_record_sha rs))
     (dset "sequence" (JInt (Z.of_nat (length rs))) record)) = keys record).
  { rewrite keys_dset; rewrite keys_dset; done. }
  set (r1 := dset "previous_record_sha256" _ _) in *.
  assert (r = dset "record_sha256" (JStr h) r1) as -> by congruence.
  rewrite keys_dset by (by rewrite Hk). done.
Qed.

Lemma identity_fields_intro r :
  (∀ k, In k SHA_FIELDS → sha_text (fld r k) = true) →
  (∀ k, In k ["manifest_id"; "run_id"; "boot_member_name"] → id_text (fld r k) = true) →
  fld r "boot_member_name" = JStr BOOT_MEMBER →
  (∀ k, In k ["candidate_ap_size"; "boot_member_size"] → size_ok (fld r k) = true) →
  validate_identity_fields r = Ok tt.
Proof.
  intros H1 H2 H3 H4. unfold validate_identity_fields.
  assert (Hf : ∀ (p : json → bool) l, (∀ k, In k l → p (fld r k) = true) →
             forM (λ k, rreq (p (fld r k)) (malformed k)) l = Ok tt).
  { intros p l Hl. apply forM_Ok, Forall_forall. intros k Hk%list_elem_of_In. by rewrite Hl. }
  rewrite (Hf sha_text), (Hf id_text) by done. cbn [rbind]. rewrite H3. cbn [is_str].
  rewrite String.eqb_refl. cbn. by rewrite (H4 "candidate_ap_size"), (H4 "boot_member_size") by (simpl; tauto).
Qed.

Lemma identity_fields_boot r :
  validate_identity_fields r = Ok tt → fld r "boot_member_name" = JStr BOOT_MEMBER.
Proof.
  unfold validate_identity_fields. intros Hv. apply rbind_Ok in Hv as ([] & _ & Hv).
  apply rbind_Ok in Hv as ([] & _ & Hv). apply rbind_Ok in Hv as ([] & Hv%rreq_Ok & _).
  by apply is_str_eq.
Qed.

Lemma keys_match_intro d ks : (∀ k, In k (keys d) ↔ In k ks) → keys_match d ks = true.
Proof.
  intros Hk. unfold keys_match. apply andb_true_iff; split; apply forallb_forall; intros k Hin;
    apply elem_str_In; by apply Hk.
Qed.

(** A record built from a validated identity and signed is a valid record. *)
Lemma signed_valid rs record r e :
  signed rs record = Ok r → is_event e → sha256_re (last_record_sha rs) = true →
  (∀ k, In k (keys r) ↔ In k RECORD_FIELDS) →
  fld record "schema" = JStr RECORD_SCHEMA → fld record "event" = JStr e →
  (∀ k, In k SHA_FIELDS → k ≠ "previous_record_sha256" → sha_text (fld record k) = true) →
  (∀ k, In k ["manifest_id"; "run_id"; "boot_member_name"] → id_text (fld record k) = true) →
  fld record "boot_member_name" = JStr BOOT_MEMBER →
  (∀ k, In k ["candidate_ap_size"; "boot_member_size"] → size_ok (fld record k) = true) →
  (∃ key, candidate_key_from_identity record = Ok key ∧ fld record "candidate_key" = JStr key) →
  (e = "claim" → fld record "release_reason" = JNull ∧ fld record "device_session_started" = JNull
                 ∧ fld record "partition_transfer" = JNull) →
  (e = "release" → exact_exception record = true) →
  validate_record r (length rs) (last_record_sha rs) = Ok tt.
Proof.
  intros Hs He Hl Hk H1 H2 H3 H4 H5 H6 (key & H7 & H7') H8 H9.
  destruct (signed_fields _ _ _ Hs) as (h & Hh & Hd & Hf).
  assert (Hid : validate_identity_fields r = Ok tt).
  { apply identity_fields_intro; [intros k Hin|intros k Hin| |].
    - rewrite Hf. destruct (String.eqb_spec k "record_sha256") as [->|_]; [by cbn in Hin; intuition discriminate|].
      destruct (String.eqb_spec k "previous_record_sha256") as [->|Hne]; [done|].
      destruct (String.eqb_spec k "sequence") as [->|_]; [by cbn in Hin; intuition discriminate|].
      by apply H3.
    - rewrite Hf. repeat (destruct Hin as [<-|Hin]; [cbn; apply H4; simpl; tauto|]). done.
    - by rewrite Hf.
    - intros k Hin. rewrite Hf. repeat (destruct Hin as [<-|Hin]; [cbn; apply H6; simpl; tauto|]). done. }
  unfold validate_record. rewrite (keys_match_intro _ _ Hk), Hid.
  assert (Hck : candidate_key_from_identity r = Ok key).
  { rewrite <- H7. unfold candidate_key_from_identity. by rewrite !Hf. }
  unfold exact_exception. rewrite Hck, Hd, !Hf. cbn [String.eqb Ascii.eqb Bool.eqb].
  rewrite H1, H2, H7'. cbn [is_str strict_int int_of]. rewrite !Z.eqb_refl, !String.eqb_refl.
  cbn [andb rreq require rbind]. unfold exact_exception in H9.
  destruct He as [-> | ->]; cbn.
  - destruct (H8 eq_refl) as (-> & -> & ->). by rewrite !String.eqb_refl.
  - rewrite (H9 eq_refl). by rewrite !String.eqb_refl.
Qed.

(** ** The claim of a validated identity *)

Lemma identity_copied identity v k :
  validate_identity identity = Ok v → In k COPIED →
  (In k SHA_FIELDS → sha_text (fld identity k) = true)
  ∧ (In k ["manifest_id"; "run_id"; "boot_member_name"] → id_text (fld identity k) = true)
  ∧ (In k ["candidate_ap_size"; "boot_member_size"] → size_ok (fld identity k) = true).
Proof.
  intros (_ & _ & Hid & _)%validate_identity_Ok Hin.
  set (d := dset "previous_record_sha256" _ _) in Hid.
  assert (Hf : fld d k = fld identity k).
  { unfold d. rewrite !fld_dset.
    by repeat (destruct Hin as [<-|Hin]; [done|]). }
  rewrite <- Hf. split_and!; intros Hk;
    [by apply identity_fields_sha|by apply identity_fields_id|by apply identity_fields_size].
Qed.

Lemma finite_obj d : Forall (λ kv, finite kv.2 = true) d → finite (JObj d) = true.
Proof.
  intros Hall. rewrite finite_JObj. apply forallb_forall. intros kv Hin%list_elem_of_In.
  rewrite Forall_forall in Hall. by apply Hall.
Qed.

Lemma Forall_dset (P : string * json → Prop) k v d :
  Forall P d → (∀ k', P (k', v)) → Forall P (dset k v d).
Proof.
  intros Hd Hv. induction Hd as [|[k0 v0] d Hx Hd IH]; simpl; [by constructor|].
  destruct (k =? k0); by constructor.
Qed.

Lemma Forall_dremove (P : string * json → Prop) k d : Forall P d → Forall P (dremove k d).
Proof.
  rewrite !Forall_forall. intros Hd kv Hin. unfold dremove in Hin.
  apply list_elem_of_filter in Hin as [_ Hin]. auto.
Qed.

Lemma identity_finite identity v :
  validate_identity identity = Ok v → NoDup (keys identity) →
  Forall (λ kv, finite kv.2 = true) identity.
Proof.
  intros Hv Hnd. apply Forall_forall. intros [k x] Hin. cbn.
  pose proof Hin as Hg. apply dget_Some_In in Hg; [|done].
  pose proof (validate_identity_Ok _ _ Hv) as (_ & Hk & _).
  assert (Hx : fld identity k = x) by (unfold fld; by rewrite Hg).
  assert (Hkin : In k IDENTITY_FIELDS).
  { apply (keys_match_In _ _ _ Hk), list_elem_of_In, dget_In_keys. eauto. }
  destruct Hkin as [<-|Hkin].
  - unfold validate_identity in Hv. apply rbind_Ok in Hv as ([] & Hs%rreq_Ok & _). bsimp.
    rewrite is_str_eq, Hx in *. by subst x.
  - pose proof (identity_copied _ _ k Hv Hkin) as (Hs & Hi & Hz). rewrite Hx in *.
    apply field_ok_wf. repeat (destruct Hkin as [<-|Hkin]; [first
      [by apply sha_text_field, Hs; simpl; tauto | by apply id_text_field, Hi; simpl; tauto
      | by apply size_field, Hz; simpl; tauto]|]). done.
Qed.

Lemma canonical_sha_total v : finite v = true → ∃ h, canonical_sha v = Ok h.
Proof. intros Hf. unfold canonical_sha, canonical. rewrite Hf. eauto. Qed.

Lemma signed_total rs record :
  Forall (λ kv, finite kv.2 = true) record → ∃ r, signed rs record = Ok r.
Proof.
  intros Hf. unfold signed. set (r1 := dset _ _ (dset _ _ record)).
  assert (Hf1 : Forall (λ kv, finite kv.2 = true) r1) by (by repeat apply Forall_dset).
  destruct (canonical_sha_total (JObj (dremove "record_sha256" r1))) as [h Hh].
  { apply finite_obj. by apply Forall_dremove. }
  unfold record_digest. rewrite Hh. cbn. eauto.
Qed.

(** The signed record of a claim on the chain [rs]. *)
Definition claim_signed (rs : list dict) (identity r : dict) : Prop :=
  ∃ id, claim_id (str_of (fld identity "candidate_key")) (str_of (fld identity "run_id"))
          (str_of (fld identity "approval_binding_sha256")) (length rs) = Ok id
        ∧ signed rs (claim_record identity id (length rs)) = Ok r.

Lemma claim_signed_total rs identity v id :
  validate_identity identity = Ok v → NoDup (keys identity) →
  ∃ r, signed rs (claim_record identity id (length rs)) = Ok r.
Proof.
  intros Hv Hnd. apply signed_total. unfold claim_record. apply Forall_app. split; [by repeat constructor|].
  apply Forall_app. split; [|by repeat constructor].
  apply Forall_dremove. by eapply identity_finite.
Qed.

Lemma claim_signed_valid rs identity v r :
  validate_identity identity = Ok v → NoDup (keys identity) → claim_signed rs identity r →
  sha256_re (last_record_sha rs) = true →
  validate_record r (length rs) (last_record_sha rs) = Ok tt ∧ NoDup (keys r)
  ∧ fld r "event" = JStr "claim"
  ∧ (∀ k, In k COPIED → fld r k = fld identity k).
Proof.
  intros Hv Hnd (id & Hid & Hs) Hl. pose proof (validate_identity_Ok _ _ Hv) as (-> & Hk & _ & key & Hck & Hck').
  set (cr := claim_record identity id (length rs)) in *.
  assert (Hcopy : ∀ k, In k COPIED → fld cr k = fld identity k) by (intros; by apply claim_record_copied).
  assert (Hkeys : keys r = keys cr).
  { apply (signed_keys rs cr r Hs); unfold cr; rewrite keys_claim_record;
      rewrite !elem_of_app; [right; right|right; right|left]; apply list_elem_of_In; simpl; tauto. }
  destruct (signed_fields _ _ _ Hs) as (h & Hh & Hd & Hf).
  pose proof (λ k w, claim_record_own identity id (length rs) k w Hk) as Hown. fold cr in Hown.
  assert (Hev : fld cr "event" = JStr "claim") by (apply Hown; simpl; tauto).
  split_and!.
  - eapply (signed_valid rs cr r "claim"); try done.
    + by left.
    + intros k. rewrite Hkeys. unfold cr. rewrite keys_claim_record, !in_app_iff.
      rewrite <- (list_elem_of_In (keys (dremove _ _)) k), dremove_keys_elem, list_elem_of_In.
      rewrite (keys_match_In _ _ _ Hk). split.
      * intros [Hx|[[_ Hx]|Hx]]; repeat (destruct Hx as [<-|Hx]; [simpl; tauto|]); done.
      * intros Hx. repeat (destruct Hx as [<-|Hx]; [first [left; simpl; tauto
          | right; left; split; [done|simpl; tauto] | right; right; simpl; tauto]|]). done.
    + apply Hown. simpl. tauto.
    + intros k Hin Hne. destruct (decide (k = "claim_id")) as [->|Hci].
      { rewrite (Hown _ (JStr id)) by (simpl; tauto). by eapply canonical_sha_re. }
      assert (Hc : In k COPIED) by (simpl in *; intuition congruence).
      rewrite Hcopy by done. by apply (identity_copied _ _ k Hv Hc).
    + intros k Hin. assert (Hc : In k COPIED) by (simpl in *; intuition congruence).
      rewrite Hcopy by done. by apply (identity_copied _ _ k Hv Hc).
    + rewrite Hcopy by (simpl; tauto). apply validate_identity_Ok in Hv as (_ & _ & Hv & _).
      apply identity_fields_boot in Hv. by rewrite !fld_dset in Hv.
    + intros k Hin. assert (Hc : In k COPIED) by (simpl in *; intuition congruence).
      rewrite Hcopy by done. by apply (identity_copied _ _ k Hv Hc).
    + exists key. rewrite Hcopy by (simpl; tauto). split; [|done]. rewrite <- Hck.
      unfold candidate_key_from_identity. by rewrite !Hcopy by (simpl; tauto).
    + intros _. split_and!; apply Hown; simpl; tauto.
  - rewrite Hkeys. by apply claim_record_NoDup.
  - by rewrite Hf.
  - intros k Hin. rewrite Hf, <- Hcopy by done.
    by repeat (destruct Hin as [<-|Hin]; [done|]).
Qed.

Lemma claim_event_accepted rs identity v r :
  validate_identity identity = Ok v → NoDup (keys identity) → claim_signed rs identity r →
  claims rs !! str_of (fld identity "candidate_key") = None →
  appendable rs r → event_accepted rs r.
Proof.
  intros Hv Hnd (id & Hid & Hs) Hnone [Hlen Hval].
  pose proof (validate_record_ok _ _ _ Hval) as Hro.
  pose proof (validate_identity_Ok _ _ Hv) as (-> & Hk & _).
  destruct (signed_fields _ _ _ Hs) as (h & Hh & Hd & Hf).
  assert (Hndr : NoDup (keys r)).
  { rewrite (signed_keys _ _ _ Hs); [by apply claim_record_NoDup|..];
      rewrite keys_claim_record, !elem_of_app; [right; right|right; right|left];
      apply list_elem_of_In; simpl; tauto. }
  assert (Hcopy : ∀ k, In k COPIED → fld r k = fld identity k).
  { intros k Hin. rewrite Hf, <- (claim_record_copied identity id (length rs) k Hk Hin).
    by repeat (destruct Hin as [<-|Hin]; [done|]). }
  pose proof (λ k w, claim_record_own identity id (length rs) k w Hk) as Hown.
  exists (<[str_of (fld identity "candidate_key") := norm_dict r]> (claims rs)).
  unfold scan_event. rewrite !(record_fld_norm r _ _ _ Hro) by (done || lia).
  rewrite (Hf "event"), (Hf "claim_id"). cbn [String.eqb Ascii.eqb Bool.eqb].
  rewrite (Hown "event" (JStr "claim")), (Hown "claim_id" (JStr id)) by (simpl; tauto).
  rewrite !Hcopy, Hnone by (simpl; tauto). cbn [is_str String.eqb Ascii.eqb Bool.eqb rreq require rbind].
  rewrite Hid. cbn [rbind is_str]. by rewrite String.eqb_refl.
Qed.

Lemma claims_claim rs r key :
  fld r "event" = JStr "claim" → fld r "candidate_key" = JStr key →
  claims (rs ++ [r]) = <[key := r]> (claims rs).
Proof. intros He Hk. rewrite claims_snoc. unfold claims_step. by rewrite He, Hk. Qed.

(** ** The history of a chain *)

Section History.
Context (files : list (string * node)) (st : scanst) (Hinv : scan_inv files st).
Abbreviation rs := (sc_records st).

Lemma history_ok i r :
  rs !! i = Some r → record_ok r i (last_record_sha (take i rs)).
Proof. intros Hi. apply validate_record_ok. by apply (si_records _ _ Hinv). Qed.

Lemma claims_take_S i r :
  rs !! i = Some r → claims (take (S i) rs) = claims_step (claims (take i rs)) r.
Proof. intros Hi. by rewrite (take_S_r _ _ _ Hi), claims_snoc. Qed.

(** A claim that is not released stays the active one. *)
Lemma claim_persists i j r key :
  rs !! i = Some r → (i < j ≤ length rs)%nat →
  fld r "event" = JStr "claim" → fld r "candidate_key" = JStr key →
  (∀ m r', (i < m < j)%nat → rs !! m = Some r' →
     fld r' "event" = JStr "release" → fld r' "candidate_key" ≠ JStr key) →
  claims (take j rs) !! key = Some r.
Proof.
  intros Hr Hij He Hk Hno. induction j as [|j IH]; [lia|].
  destruct (lookup_lt_is_Some_2 rs j ltac:(lia)) as [x Hx]. rewrite (claims_take_S _ _ Hx).
  pose proof (history_ok _ _ Hx) as Hxo. unfold claims_step.
  destruct (decide (i = j)) as [->|Hne].
  { rewrite Hx in Hr. injection Hr as ->. rewrite He, Hk. cbn. by rewrite lookup_insert_eq. }
  assert (Hact : claims (take j rs) !! key = Some r).
  { apply IH; [lia|]. intros m r' Hm. apply Hno. lia. }
  destruct (ro_event _ _ _ Hxo) as (e & Hxe & [-> | ->]); rewrite Hxe; cbn;
    destruct (ro_key _ _ _ Hxo) as (kx & _ & Hkx); rewrite Hkx; cbn.
  - destruct (decide (kx = key)) as [->|]; [|by rewrite lookup_insert_ne].
    destruct (si_records _ _ Hinv _ _ Hx) as (_ & _ & a & Ha). unfold scan_event in Ha.
    rewrite Hxe, Hkx in Ha. cbn in Ha. by rewrite Hact in Ha.
  - destruct (decide (kx = key)) as [->|]; [|by rewrite lookup_delete_ne].
    exfalso. apply (Hno j x); [lia|done..].
Qed.

Lemma reclaim_released i j r r' key :
  rs !! i = Some r → rs !! j = Some r' → (i < j)%nat →
  fld r "event" = JStr "claim" → fld r' "event" = JStr "claim" →
  fld r "candidate_key" = JStr key → fld r' "candidate_key" = JStr key →
  ∃ m x, (i < m < j)%nat ∧ rs !! m = Some x ∧ fld x "event" = JStr "release"
         ∧ fld x "candidate_key" = JStr key.
Proof.
  intros Hi Hj Hij He He' Hk Hk'.
  set (hit := λ m, match rs !! m with
                   | Some x => is_str (fld x "event") "release" && is_str (fld x "candidate_key") key
                   | None => false end).
  destruct (List.existsb hit (seq (S i) (j - S i))) eqn:Eh.
  - apply existsb_exists in Eh as (m & Hm%in_seq & Hh). unfold hit in Hh.
    destruct (rs !! m) as [x|] eqn:Ex; [|done]. bsimp. rewrite is_str_eq in *.
    exists m, x. split_and!; try done; lia.
  - exfalso. assert (Hact : claims (take j rs) !! key = Some r).
    { apply (claim_persists i j); try done.
      - apply lookup_lt_Some in Hj. lia.
      - intros m x Hm Hx Hxe Hxk. assert (Ht : existsb hit (seq (S i) (j - S i)) = true).
        { apply existsb_exists. exists m. split; [apply in_seq; lia|].
          unfold hit. rewrite Hx, Hxe, Hxk. cbn. by rewrite String.eqb_refl. }
        congruence. }
    destruct (si_records _ _ Hinv _ _ Hj) as (_ & _ & a & Ha). unfold scan_event in Ha.
    rewrite He', Hk' in Ha. cbn in Ha. by rewrite Hact in Ha.
Qed.

(** The active claims are claim records of the chain, under their own key. *)
Lemma claims_lookup n key r :
  (n ≤ length rs)%nat → claims (take n rs) !! key = Some r →
  ∃ i, (i < n)%nat ∧ rs !! i = Some r ∧ fld r "event" = JStr "claim"
       ∧ fld r "candidate_key" = JStr key.
Proof.
  induction n as [|n IH]; [done|]. intros Hn Hl.
  destruct (lookup_lt_is_Some_2 rs n ltac:(lia)) as [x Hx]. rewrite (claims_take_S _ _ Hx) in Hl.
  pose proof (history_ok _ _ Hx) as Hxo. unfold claims_step in Hl.
  destruct (ro_key _ _ _ Hxo) as (kx & _ & Hkx).
  destruct (ro_event _ _ _ Hxo) as (e & Hxe & [-> | ->]); rewrite Hxe, Hkx in Hl; cbn in Hl.
  - apply lookup_insert_Some in Hl as [[<- <-]|[_ Hl]].
    + exists n. split_and!; try done; lia.
    + destruct (IH ltac:(lia) Hl) as (i & ? & ?). exists i. split; [lia|done].
  - apply lookup_delete_Some in Hl as [_ Hl].
    destruct (IH ltac:(lia) Hl) as (i & ? & ?). exists i. split; [lia|done].
Qed.

Lemma release_binds m x key :
  rs !! m = Some x → fld x "event" = JStr "release" → fld x "candidate_key" = JStr key →
  ∃ i r, (i < m)%nat ∧ rs !! i = Some r ∧ fld r "event" = JStr "claim"
    ∧ fld r "candidate_key" = JStr key ∧ fld x "claim_id" = fld r "claim_id"
    ∧ claims (take m rs) !! key = Some r ∧ claims (take (S m) rs) !! key = None
    ∧ exact_exception x = true.
Proof.
  intros Hx He Hk. pose proof (history_ok _ _ Hx) as Hxo.
  destruct (si_records _ _ Hinv _ _ Hx) as (_ & _ & a & Ha). unfold scan_event in Ha.
  rewrite He, Hk in Ha. cbn [is_str str_of String.eqb Ascii.eqb Bool.eqb] in Ha.
  destruct (claims (take m rs) !! key) as [prior|] eqn:Ep; [|done].
  apply rbind_Ok in Ha as ([] & Hf & _).
  pose proof (lookup_lt_Some _ _ _ Hx) as Hlt.
  destruct (claims_lookup m key prior ltac:(lia) Ep) as (i & Him & Hri & Hre & Hrk).
  exists i, prior. split_and!; try done.
  - pose proof (forM_In _ _ _ "claim_id" Hf ltac:(simpl; tauto)) as Hc. apply rreq_Ok in Hc.
    pose proof (identity_fields_sha _ "claim_id" (ro_identity _ _ _ Hxo) ltac:(simpl; tauto)) as H1.
    pose proof (identity_fields_sha _ "claim_id" (ro_identity _ _ _ (history_ok _ _ Hri))
                  ltac:(simpl; tauto)) as H2.
    destruct (fld x "claim_id"), (fld prior "claim_id"); try done. cbn in Hc.
    apply String.eqb_eq in Hc. by subst.
  - rewrite (claims_take_S _ _ Hx). unfold claims_step. rewrite He, Hk. cbn. by rewrite lookup_delete_eq.
  - unfold exact_exception. destruct (ro_release _ _ _ Hxo He) as (-> & -> & ->). done.
Qed.
End History.
End Records.
