(* ===== verification/RegistryClaims.v ===== *)
(** * Claims and releases

    [claim] and [release] on a synchronised registry, the behaviour of every operation
    on a registry it cannot scan, and the F1 owner sentinel. *)

From stdpp Require Import base list strings gmap sorting.
From Stdlib Require Import ZArith Lia Ascii.
From S2P Require Import Prelude PyStr Dir Json Digest HostFs Registry RegistryTheory RegistryCrash RegistryAppend RegistryRecords.
Open Scope string_scope.

Section Claims.
Context `{Digest} (is_repo : bool) (root_path : string) (resolve : string → string) (pid oid : nat).

Notation scan_chain := (scan_chain is_repo root_path resolve).
Notation scan := (scan is_repo root_path resolve).
Notation usable := (usable is_repo root_path resolve).
Notation synced := (synced is_repo root_path resolve).
Notation wedged := (wedged is_repo root_path resolve).
Notation claim := (claim is_repo root_path resolve pid oid).
Notation release := (release is_repo root_path resolve pid oid).
Notation writer := (writer is_repo root_path resolve pid oid).
Notation refuse_consumed := (refuse_consumed is_repo root_path resolve).

(** ** Claiming *)

Lemma synced_last_sha rs fs : synced rs fs → sha256_re (last_record_sha rs) = true.
Proof.
  intros (hd & st & Hs & <- & _). pose proof (state_ok_inv _ _ _ _ _ _ Hs) as Hi.
  destruct (decide (sc_records st = [])) as [->|Hne]; [done|]. by eapply scan_last_sha.
Qed.

Definition legacy_denied (fs : hostfs) (identity : dict) : bool :=
  match read_activation fs with Ok act => legacy_consumed act.2 identity | Err _ => false end.

(** The candidate is consumed: on the chain or before the registry existed. *)
Definition consumed (fs : hostfs) (rs : list dict) (identity : dict) : Prop :=
  legacy_denied fs identity = true
  ∨ is_Some (claims rs !! str_of (fld identity "candidate_key")).

Lemma layout_activation fs : validate_layout is_repo root_path resolve fs = Ok tt →
  ∃ act, read_activation fs = Ok act.
Proof.
  unfold validate_layout. intros Hl. do 8 apply rbind_Ok in Hl as ([] & _ & Hl).
  unfold validate_activation in Hl. apply rbind_Ok in Hl as (act & Hl & _). eauto.
Qed.

Lemma refuse_spec rs fs identity msg :
  synced rs fs →
  (refuse_consumed fs identity msg = Ok rs ∧ ¬ consumed fs rs identity)
  ∨ (∃ m, refuse_consumed fs identity msg = Err (DuplicateCandidateClaim m)
          ∧ consumed fs rs identity).
Proof.
  intros Hs. destruct (synced_scan _ _ _ _ _ Hs) as [hd Hscan].
  destruct Hs as (hd' & st & ((Hlay & _)%scan_chain_Ok & _) & _).
  destruct (layout_activation _ Hlay) as [act Hact].
  unfold Registry.refuse_consumed, consumed, legacy_denied. rewrite Hscan. cbn [rbind snd].
  rewrite Hact. cbn [rbind]. destruct (legacy_consumed act.2 identity); cbn; [right; eauto|].
  destruct (claims rs !! _) as [c|] eqn:Ec; cbn; [right; eauto|left].
  split; [done|]. intros [?|[c Hc]]; [done|]. congruence.
Qed.

(** A synchronised registry needs no recovery. *)
Lemma writer_noop rs fs : synced rs fs → writer fs = (Ok tt, fs).
Proof.
  intros Hs. pose proof Hs as (hd & st & (Hsc & _) & <- & Hm & Hc).
  pose proof Hsc as (Hlay & _)%scan_chain_Ok.
  unfold clean in Hc. unfold Registry.writer, scan_repair, mbind, M_bind, reading, getfs, mret, M_ret.
  cbn beta iota. rewrite Hlay, Hc. cbn beta iota. rewrite Hsc. cbn [fst snd]. by rewrite Hm.
Qed.

(** Every way [claim] can end on a synchronised registry. *)
Definition claim_outcome (fs : hostfs) (rs : list dict) (identity : dict)
    (res : result dict * hostfs) : Prop :=
  match res with
  | (Ok out, fs') =>
      ¬ consumed fs rs identity
      ∧ ∃ r, claim_signed rs identity r ∧ (length rs < MAX_RECORDS)%nat
             ∧ synced (rs ++ [norm_dict r]) fs' ∧ fld out "record" = JObj r
  | (Err e, fs') =>
      (crash e fs' ∧ (synced rs fs' ∨ wedged fs'
         ∨ ∃ r, claim_signed rs identity r ∧ usable (rs ++ [norm_dict r]) fs'))
      ∨ (synced rs fs' ∧ ((∃ m, e = DuplicateCandidateClaim m) ∧ consumed fs rs identity
                          ∨ length rs = MAX_RECORDS))
  end.

Lemma synced_length rs fs : synced rs fs → (length rs ≤ MAX_RECORDS)%nat.
Proof. intros (hd & st & Hs & <- & _). by eapply state_ok_length. Qed.

Lemma claim_synced rs identity v fs :
  validate_identity identity = Ok v → NoDup (keys identity) → synced rs fs →
  claim_outcome fs rs identity (claim identity fs).
Proof.
  intros Hv Hnd Hs. pose proof (validate_identity_Ok _ _ Hv) as (-> & _).
  unfold Registry.claim, mbind, M_bind at 1. cbn [lift]. rewrite Hv.
  unfold M_bind at 1. rewrite (writer_noop rs) by done. unfold M_bind at 1. cbn [reading].
  destruct (refuse_spec rs fs identity "candidate identity is already globally claimed" Hs)
    as [[-> Hfree]|(m & -> & Hcons)]; [|right; split; [done|]; left; eauto].
  unfold M_bind at 1. cbn [lift]. unfold claim_id at 1.
  match goal with |- context [canonical_sha ?x] =>
    destruct (canonical_sha_total x eq_refl) as [id Hid] end. rewrite Hid.
  destruct (claim_signed_total rs identity identity id Hv Hnd) as [r Hr].
  assert (Hcs : claim_signed rs identity r) by (by exists id).
  destruct (claim_signed_valid rs identity identity r Hv Hnd Hcs) as (Hval & Hndr & Hev & Hcopy);
    [by eapply synced_last_sha|].
  pose proof (append_spec is_repo root_path resolve pid oid rs _ r Hr Hndr) as Ha.
  specialize (Ha (claim_event_accepted rs identity identity r Hv Hnd Hcs ltac:(
    destruct (claims rs !! _) eqn:E; [exfalso; apply Hfree; right; rewrite E; eauto|done]))).
  specialize (Ha fs Hs). unfold M_bind at 1.
  destruct (append_ _ _ _ _ _ _ fs) as [[out|e] fs'].
  - destruct Ha as (Hout & [Hlen _] & Hsy). split; [done|]. exists r. split_and!; try done.
    cbn. by rewrite Hout.
  - destruct Ha as [[Hcr Ha]|[Hsy Hna]].
    + left. split; [done|]. destruct Ha as [?|[?|?]]; eauto.
    + right. split; [done|]. right. pose proof (synced_length _ _ Hsy) as Hle.
      destruct (decide (length rs = MAX_RECORDS)) as [|Hne]; [done|]. exfalso. apply Hna.
      split; [lia|done].
Qed.

Lemma claim_after_writer rs identity v fs fs1 :
  validate_identity identity = Ok v → writer fs = (Ok tt, fs1) → synced rs fs1 →
  claim identity fs = claim identity fs1.
Proof.
  intros Hv Hw Hs. unfold Registry.claim, mbind, M_bind, lift. rewrite Hv.
  cbn beta iota. by rewrite Hw, (writer_noop rs).
Qed.

End Claims.

(** ** Releases, refusals and the owner sentinel *)

Section Release.
Context `{Digest} (is_repo : bool) (root_path : string) (resolve : string → string) (pid oid : nat).

Notation usable := (usable is_repo root_path resolve).
Notation synced := (synced is_repo root_path resolve).
Notation wedged := (wedged is_repo root_path resolve).
Notation release := (release is_repo root_path resolve pid oid).
Notation writer := (writer is_repo root_path resolve pid oid).

(** ** The record of a release *)

Section Record.
Context (rs : list dict) (existing : dict) (i : nat) (prev key id : string).
Context (Hex : record_ok existing i prev) (Hi : (i ≤ MAX_RECORDS)%nat)
        (Hkey : fld existing "candidate_key" = JStr key) (Hid : fld existing "claim_id" = JStr id).
Abbreviation rel := (release_record existing (JStr key) (JStr id) (JStr PARSE_FAILURE) (length rs)).

Lemma release_keys : keys rel
  = ["schema"; "sequence"; "event"; "candidate_key"; "target_profile_sha256"; "target_key";
     "candidate_ap_sha256"; "candidate_ap_size"; "boot_member_name"; "boot_member_size";
     "boot_member_sha256"; "manifest_id"; "run_id"; "approval_binding_sha256"; "claim_id";
     "previous_record_sha256"; "release_reason"; "device_session_started"; "partition_transfer";
     "record_sha256"].
Proof. reflexivity. Qed.

Lemma release_copied k : In k ("candidate_key" :: BOUND_FIELDS) → fld rel k = fld existing k.
Proof.
  intros Hk. repeat (destruct Hk as [<-|Hk]; [cbn; by rewrite ?Hkey, ?Hid|]). done.
Qed.

Lemma release_signs : ∃ r, signed rs rel = Ok r.
Proof.
  apply signed_total. assert (Hf : ∀ k, finite (fld existing k) = true).
  { intros k. by apply field_ok_wf, (record_field existing i prev). }
  unfold release_record. repeat (constructor; [cbn; (done || apply Hf)|]). constructor.
Qed.

Lemma release_valid r :
  signed rs rel = Ok r → sha256_re (last_record_sha rs) = true →
  validate_record r (length rs) (last_record_sha rs) = Ok tt ∧ NoDup (keys r)
  ∧ fld r "event" = JStr "release" ∧ (∀ k, In k ("candidate_key" :: BOUND_FIELDS) → fld r k = fld existing k).
Proof.
  intros Hs Hl. destruct (signed_fields _ _ _ Hs) as (h & Hh & Hd & Hf).
  assert (Hk : keys r = keys rel).
  { apply (signed_keys _ _ _ Hs); rewrite release_keys; apply list_elem_of_In; simpl; tauto. }
  assert (Hcopy : ∀ k, In k ("candidate_key" :: BOUND_FIELDS) → fld r k = fld existing k).
  { intros k Hin. rewrite Hf, <- (release_copied k Hin).
    by repeat (destruct Hin as [<-|Hin]; [done|]). }
  pose proof (ro_identity _ _ _ Hex) as Hidf.
  split_and!; [|rewrite Hk, release_keys; by apply (bool_decide_unpack _); vm_compute|by rewrite Hf|done].
  eapply (signed_valid rs rel r "release"); try done.
  - by right.
  - intros k. rewrite Hk, release_keys. split; intros Hx;
      repeat (destruct Hx as [<-|Hx]; [simpl; tauto|]); done.
  - intros k Hin Hne. rewrite release_copied; [by apply identity_fields_sha|].
    simpl in *. intuition congruence.
  - intros k Hin. rewrite release_copied; [by apply identity_fields_id|].
    simpl in *. intuition congruence.
  - cbn. by apply identity_fields_boot.
  - intros k Hin. rewrite release_copied; [by apply identity_fields_size|].
    simpl in *. intuition congruence.
  - destruct (ro_key _ _ _ Hex) as (k' & Hck & Hck'). exists k'. split; [|cbn; congruence].
    rewrite <- Hck. reflexivity.
Qed.

Lemma py_eqb_field v : field_ok v = true → py_eqb v v = true.
Proof.
  destruct v as [|b|z| | |s| |]; try done; intros _; cbn.
  - unfold num_eqb. cbn. apply Z.eqb_refl.
  - unfold num_eqb. cbn. apply Z.eqb_refl.
  - apply String.eqb_refl.
Qed.

Lemma release_event_accepted r :
  signed rs rel = Ok r → claims rs !! key = Some existing → appendable rs r → event_accepted rs r.
Proof.
  intros Hs Hact [Hlen Hval]. pose proof (validate_record_ok _ _ _ Hval) as Hro.
  assert (Hl : sha256_re (last_record_sha rs) = true).
  { pose proof (identity_fields_sha _ "previous_record_sha256" (ro_identity _ _ _ Hro)
                  ltac:(simpl; tauto)) as Hp. by rewrite (ro_previous _ _ _ Hro) in Hp. }
  destruct (release_valid r Hs Hl) as (_ & Hnd & He & Hcopy).
  exists (delete key (claims rs)). unfold scan_event.
  assert (Hf : ∀ k, fld (norm_dict r) k = fld r k) by (intros; apply (record_fld_norm _ _ _ _ Hro); [lia|done]).
  rewrite !Hf, He, (Hcopy "candidate_key"), Hkey by (simpl; tauto).
  cbn [is_str str_of String.eqb Ascii.eqb Bool.eqb]. rewrite Hact.
  assert (Hall : forM (λ k, rreq (py_eqb (fld (norm_dict r) k) (fld existing k))
             "release does not bind its active claim") BOUND_FIELDS = Ok tt).
  { apply forM_Ok, Forall_forall. intros k Hin%list_elem_of_In. rewrite Hf, Hcopy by (by right).
    rewrite py_eqb_field; [done|]. by apply (record_field existing i prev). }
  by rewrite Hall.
Qed.
End Record.

(** ** [release] *)

Definition released_by (rs : list dict) (key id : string) (r : dict) : Prop :=
  ∃ existing, claims rs !! key = Some existing ∧ fld existing "claim_id" = JStr id
    ∧ signed rs (release_record existing (JStr key) (JStr id) (JStr PARSE_FAILURE) (length rs)) = Ok r
    ∧ fld r "event" = JStr "release" ∧ fld r "candidate_key" = JStr key ∧ fld r "claim_id" = JStr id.

Definition release_outcome (fs : hostfs) (rs : list dict) (key id : string)
    (res : result dict * hostfs) : Prop :=
  match res with
  | (Ok out, fs') =>
      (∃ r, released_by rs key id r ∧ synced (rs ++ [norm_dict r]) fs' ∧ fld out "record" = JObj r)
      ∨ (fs' = fs ∧ ∃ x, x ∈ rs ∧ names_claim "release" key id x = true
                         ∧ fld out "record" = JObj x)
  | (Err e, fs') =>
      (crash e fs' ∧ (synced rs fs' ∨ wedged fs'
         ∨ ∃ r, released_by rs key id r ∧ usable (rs ++ [norm_dict r]) fs'))
      ∨ synced rs fs'
  end.

Lemma find_release rs key id x :
  List.find (names_claim "release" key id) (rev rs) = Some x → x ∈ rs ∧ names_claim "release" key id x = true.
Proof.
  intros Hf. apply find_some in Hf as [Hin Hn]. split; [|done].
  apply list_elem_of_In. by apply in_rev.
Qed.

Lemma release_synced rs cv key id reason started transfer fs :
  fld cv "candidate_key" = JStr key → fld cv "claim_id" = JStr id → synced rs fs →
  match release (JObj cv) reason started transfer fs with
  | (Ok out, fs') => reason = JStr PARSE_FAILURE ∧ started = JBool false ∧ transfer = JBool false
                     ∧ release_outcome fs rs key id (Ok out, fs')
  | (Err e, fs') => release_outcome fs rs key id (Err e, fs')
  end.
Proof.
  intros Hk Hid Hs. unfold Registry.release. rewrite Hk, Hid. unfold mbind, M_bind, lift at 1.
  destruct (rreq (sha_text (JStr key) && _) _) as [[]|e]; [|by right]. unfold lift at 1.
  destruct (is_str reason PARSE_FAILURE && is_false started && is_false transfer) eqn:Ex; cbn [rreq require];
    [|by right]. bsimp. rewrite is_str_eq in *.
  repeat match goal with H : is_false _ = true |- _ => apply is_false_eq in H end. subst.
  rewrite (writer_noop is_repo root_path resolve pid oid rs) by done. unfold reading.
  destruct (synced_scan _ _ _ _ _ Hs) as [hd ->]. unfold lift at 1. cbn [snd str_of].
  destruct (release_decision rs key id (fld cv "record")) as [[existing|item]|e] eqn:Ed; [| |by right].
  - assert (Hex : claims rs !! key = Some existing ∧ fld existing "claim_id" = JStr id).
    { unfold release_decision in Ed. destruct (fld cv "record"); try done.
      destruct (List.find (names_claim "claim" key id) rs); [|done].
      apply rbind_Ok in Ed as ([] & _ & Ed). destruct (claims rs !! key) as [e0|]; [|by destruct (List.find (names_claim "release" key id) (rev rs))].
      destruct (is_str (fld e0 "claim_id") id) eqn:Ei; [|by destruct (List.find (names_claim "release" key id) (rev rs))].
      injection Ed as <-. split; [done|]. by apply is_str_eq. }
    destruct Hex as [Hact Hci].
    pose proof Hs as (hd' & st & Hst & Hrs & _). pose proof (state_ok_inv _ _ _ _ _ _ Hst) as Hinv.
    pose proof (state_ok_length _ _ _ _ _ _ Hst) as Hlen. rewrite Hrs in Hlen.
    destruct (claims_lookup _ st Hinv (length rs) key existing) as (i & Hil & Hri & _ & Hek);
      [by rewrite Hrs|by rewrite Hrs, take_ge|].
    pose proof (history_ok _ st Hinv _ _ Hri) as Hro.
    destruct (release_signs rs existing i _ key id Hro ltac:(lia)) as [r Hr].
    destruct (release_valid rs existing i _ key id Hro Hek Hci r Hr) as (Hval & Hnd & Hev & Hcopy);
      [by eapply synced_last_sha|].
    assert (Hrb : released_by rs key id r).
    { exists existing. split_and!; try done; rewrite Hcopy by (simpl; tauto); done. }
    pose proof (append_spec is_repo root_path resolve pid oid rs _ r Hr Hnd
      (release_event_accepted rs existing i _ key id Hro ltac:(lia) Hek Hci r Hr Hact) fs Hs) as Ha.
    destruct (append_ _ _ _ _ _ _ fs) as [[out|e] fs'].
    + destruct Ha as (Hout & _ & Hsy). split_and!; try done. left. exists r. split_and!; try done.
      cbn. by rewrite Hout.
    + destruct Ha as [[Hcr Ha]|[Hsy _]]; [|by right]. left. split; [done|].
      destruct Ha as [?|[?|?]]; eauto 10.
  - split_and!; try done. right. split; [done|].
    exists item. assert (Hf : List.find (names_claim "release" key id) (rev rs) = Some item).
    { unfold release_decision in Ed. destruct (fld cv "record"); try done.
      destruct (List.find (names_claim "claim" key id) rs); [|done].
      apply rbind_Ok in Ed as ([] & _ & Ed).
      destruct (claims rs !! key) as [e0|]; [destruct (is_str _ id); [done|]|];
        (destruct (List.find (names_claim "release" key id) (rev rs)); [by injection Ed as ->|done]). }
    apply find_release in Hf as [? ?]. done.
Qed.

(** ** A registry that does not scan *)

Lemma wedged_writer fs : wedged fs → ∃ e, writer fs = (Err e, fs).
Proof.
  intros [Hc [e He]]. unfold Registry.writer, scan_repair, mbind, M_bind, reading, getfs, mret, M_ret.
  cbn beta iota. destruct (validate_layout _ _ _ fs) as [[]|e']; [|eauto].
  unfold clean in Hc. rewrite Hc. cbn beta iota. rewrite He. eauto.
Qed.
End Release.
