(* ===== verification/RegistryProps.v ===== *)
(** * The contract of the consumed-candidate registry

    [usable rs fs]: the next writer finds the chain [rs] in [fs], after
    removing at most one staging file and repairing at most one head entry.
    [synced rs fs]: the chain [rs] with a matching head and nothing left over.
    [wedged fs]: the chain does not scan. *)

From stdpp Require Import base list strings gmap sorting.
From Stdlib Require Import ZArith Lia Ascii.
From S2P Require Import Prelude PyStr Dir Json JsonSize Digest HostFs Registry RegistryTheory RegistryCrash RegistryAppend RegistryRecords RegistryClaims.
Open Scope string_scope.

Section Props.
Context `{Digest} (is_repo : bool) (root_path : string) (resolve : string → string) (pid oid : nat).

Notation usable := (usable is_repo root_path resolve).
Notation synced := (synced is_repo root_path resolve).
Notation wedged := (wedged is_repo root_path resolve).
Notation scan := (scan is_repo root_path resolve).
Notation claim := (claim is_repo root_path resolve pid oid).
Notation release := (release is_repo root_path resolve pid oid).
Notation writer := (writer is_repo root_path resolve pid oid).
Definition key_of (identity : dict) : string := str_of (fld identity "candidate_key").

(** ** Helpers *)

Lemma signed_claim_active rs identity v r :
  validate_identity identity = Ok v → NoDup (keys identity) → claim_signed rs identity r →
  sha256_re (last_record_sha rs) = true → (length rs < MAX_RECORDS)%nat →
  claims (rs ++ [norm_dict r]) !! key_of identity = Some (norm_dict r).
Proof.
  intros Hv Hnd Hc Hl Hlen.
  destruct (claim_signed_valid rs identity v r Hv Hnd Hc Hl) as (Hval & Hndr & Hev & Hcopy).
  pose proof (validate_record_ok _ _ _ Hval) as Hro.
  pose proof (validate_identity_Ok _ _ Hv) as (_ & _ & _ & k & _ & Hk).
  assert (Hf : ∀ k, fld (norm_dict r) k = fld r k) by (intros; apply (record_fld_norm _ _ _ _ Hro); [lia|done]).
  rewrite (claims_claim rs (norm_dict r) k).
  - unfold key_of. rewrite Hk. cbn. by rewrite lookup_insert_eq.
  - by rewrite Hf.
  - by rewrite Hf, Hcopy by (simpl; tauto).
Qed.

Lemma usable_length rs fs : usable rs fs → (length rs ≤ MAX_RECORDS)%nat.
Proof. intros (hd & st & Hs & <- & _). by eapply state_ok_length. Qed.

Lemma usable_extended_length rs r fs : usable (rs ++ [r]) fs → (length rs < MAX_RECORDS)%nat.
Proof. intros Hu%usable_length. rewrite length_app in Hu. simpl in Hu. lia. Qed.

Lemma usable_last_sha rs fs : usable rs fs → sha256_re (last_record_sha rs) = true.
Proof.
  intros (hd & st & Hs & <- & _). pose proof (state_ok_inv _ _ _ _ _ _ Hs) as Hi.
  destruct (decide (sc_records st = [])) as [->|Hne]; [done|]. by eapply scan_last_sha.
Qed.

(** A claim first lets [_writer] recover, then runs on a synchronised registry. *)
Lemma claim_from_usable identity v rs fs :
  validate_identity identity = Ok v → usable rs fs →
  (∃ fs1, synced rs fs1 ∧ claim identity fs = claim identity fs1)
  ∨ (∃ e fs', claim identity fs = (Err e, fs') ∧ crash e fs' ∧ usable rs fs').
Proof.
  intros Hv Hu. pose proof (writer_spec is_repo root_path resolve pid oid rs fs Hu) as Hw.
  destruct (writer fs) as [[[]|e] fs1] eqn:Ew.
  - left. exists fs1. split; [done|]. by eapply claim_after_writer.
  - right. exists e, fs1. split; [|done]. unfold Registry.claim, mbind, M_bind, lift.
    rewrite Hv. cbn beta iota. by rewrite Ew.
Qed.

Lemma keeps_claim identity : keeps_power (claim identity).
Proof.
  assert (Hwn : ∀ d n m b, keeps_power (write_no_replace d n m b)).
  { intros. unfold write_no_replace. keeps. }
  assert (Hwh : ∀ v, keeps_power (write_head pid oid v)).
  { intros. unfold write_head. keeps. }
  assert (Hsr : keeps_power (scan_repair is_repo root_path resolve pid oid)).
  { unfold scan_repair. keeps. }
  assert (Hw : keeps_power writer).
  { unfold Registry.writer. keeps. }
  assert (Ha : ∀ r, keeps_power (append_ is_repo root_path resolve pid oid r)).
  { intros. unfold append_. keeps. }
  unfold Registry.claim. keeps.
Qed.

(** Deciding [synced] on a concrete file system. *)
Definition chain_of (fs : hostfs) : list dict :=
  match scan fs with Ok hr => hr.2 | Err _ => [] end.
Definition synced_b (fs : hostfs) : bool :=
  is_ok (scan fs) && evidence_outside root_path fs && bool_decide (head_temp_paths fs = []).

Lemma synced_intro fs : synced_b fs = true → synced (chain_of fs) fs.
Proof.
  unfold synced_b, chain_of. intros Hb. bsimp. unfold Registry.scan in *.
  destruct (Registry.scan_chain _ _ _ fs) as [[hd st]|e] eqn:Ec; [|done]. cbn [rbind fst snd] in *.
  destruct (head_matches hd st) eqn:Em; [|done]. cbn. exists hd, st. split_and!; try done.
  split_and!; try done. intros n nd Hn Hp. by rewrite clean_no_temp in Hn.
Qed.

(** ** Claims *)

(** C2. Crash safety of [claim]: from any usable registry and with the power lost
    at any durable step, a claim either returns after extending the chain by a
    record that makes the candidate active, or leaves the chain as it was, or
    the power loss leaves the extended chain or a registry nothing can use.  A
    candidate is never half claimed and an existing record is never lost. *)
Theorem claim_crash_safe identity v rs fs :
  validate_identity identity = Ok v → NoDup (keys identity) → usable rs fs →
  match claim identity fs with
  | (Ok out, fs') =>
      claims rs !! key_of identity = None
      ∧ ∃ r, claims (rs ++ [r]) !! key_of identity = Some r ∧ synced (rs ++ [r]) fs'
  | (Err e, fs') =>
      usable rs fs'
      ∨ (e = PowerLoss
         ∧ (wedged fs' ∨ ∃ r, claims (rs ++ [r]) !! key_of identity = Some r ∧ usable (rs ++ [r]) fs'))
  end.
Proof.
  intros Hv Hnd Hu. pose proof (usable_last_sha _ _ Hu) as Hl.
  destruct (claim_from_usable identity v rs fs Hv Hu) as [(fs1 & Hs & ->)|(e & fs' & -> & _ & Hu')];
    [|by left].
  pose proof (claim_synced is_repo root_path resolve pid oid rs identity v fs1 Hv Hnd Hs) as Ho.
  destruct (claim identity fs1) as [[out|e] fs']; cbn in Ho.
  - destruct Ho as (Hfree & r & Hc & Hlen & Hsy & _). split.
    + unfold consumed in Hfree. unfold key_of. destruct (claims rs !! _) eqn:E; [|done].
      exfalso. apply Hfree. right. by eexists.
    + exists (norm_dict r). split; [by eapply signed_claim_active|done].
  - destruct Ho as [[[-> _] [Hsy|[Hw|(r & Hc & Hur)]]]|[Hsy _]];
      [left; by apply synced_usable|right; by auto| |left; by apply synced_usable].
    right. split; [done|]. right. exists (norm_dict r). split; [|done].
    eapply signed_claim_active; try done. by eapply usable_extended_length.
Qed.

(** C8. No replay: once the chain holds an active claim of the candidate, whatever
    crash produced it, [claim] refuses the candidate and changes no record. *)
Theorem consumed_refused identity v rs fs r :
  validate_identity identity = Ok v → NoDup (keys identity) → usable rs fs →
  claims rs !! key_of identity = Some r →
  ∃ e fs', claim identity fs = (Err e, fs') ∧ usable rs fs'
    ∧ (e = PowerLoss ∨ ∃ m, e = DuplicateCandidateClaim m).
Proof.
  intros Hv Hnd Hu Hr.
  destruct (claim_from_usable identity v rs fs Hv Hu) as [(fs1 & Hs & ->)|(e & fs' & -> & [-> _] & Hu')];
    [|by eauto 10].
  pose proof (validate_identity_Ok _ _ Hv) as (-> & _).
  unfold Registry.claim, mbind, M_bind, lift. rewrite Hv. cbn beta iota.
  rewrite (writer_noop is_repo root_path resolve pid oid rs) by done. unfold reading.
  destruct (refuse_spec is_repo root_path resolve rs fs1 identity
    "candidate identity is already globally claimed" Hs) as [[_ Hfree]|(m & -> & _)].
  - exfalso. apply Hfree. right. by eexists.
  - exists (DuplicateCandidateClaim m), fs1. split_and!; [done|by apply synced_usable|eauto].
Qed.

(** C36. Liveness: an unconsumed candidate is claimed; no internal check of [claim]
    (clobbering, sizes, re-validation, the closing re-scan) refuses it. *)
Theorem claim_succeeds identity v rs fs :
  validate_identity identity = Ok v → NoDup (keys identity) → synced rs fs →
  hf_power fs = None → ¬ consumed fs rs identity → (length rs < MAX_RECORDS)%nat →
  ∃ out fs' r, claim identity fs = (Ok out, fs') ∧ synced (rs ++ [r]) fs'
    ∧ claims (rs ++ [r]) !! key_of identity = Some r.
Proof.
  intros Hv Hnd Hs Hp Hfree Hlen.
  pose proof (claim_synced is_repo root_path resolve pid oid rs identity v fs Hv Hnd Hs) as Ho.
  pose proof (keeps_claim identity fs Hp) as Hk.
  destruct (claim identity fs) as [[out|e] fs']; cbn in Ho, Hk.
  - destruct Ho as (_ & r & Hc & _ & Hsy & _). exists out, fs', (norm_dict r). split_and!; try done.
    eapply signed_claim_active; try done. by eapply synced_last_sha.
  - exfalso. destruct Ho as [[[_ Hz] _]|[_ [[_ Hcons]|Hmax]]]; [congruence|done|lia].
Qed.

(** ** The chain *)

(** In every chain the scan accepts, two claims of one candidate are separated
    by a release of that candidate, and that release carries the exact
    pre-session exception. *)
Theorem reclaim_needs_release fs hd rs i j r r' key :
  scan fs = Ok (hd, rs) → rs !! i = Some r → rs !! j = Some r' → (i < j)%nat →
  fld r "event" = JStr "claim" → fld r' "event" = JStr "claim" →
  fld r "candidate_key" = JStr key → fld r' "candidate_key" = JStr key →
  ∃ m x, (i < m < j)%nat ∧ rs !! m = Some x ∧ fld x "event" = JStr "release"
    ∧ fld x "candidate_key" = JStr key ∧ exact_exception x = true.
Proof.
  intros Hscan Hi Hj Hij He He' Hk Hk'. unfold Registry.scan in Hscan.
  apply rbind_Ok in Hscan as ([hd' st] & Hc & Hscan). apply rbind_Ok in Hscan as ([] & _ & [= <- <-]).
  apply scan_chain_Ok in Hc as (_ & _ & _ & _ & Hfold). apply scan_all_inv in Hfold. cbn in *.
  destruct (reclaim_released _ st Hfold i j r r' key) as (m & x & Hm & Hx & Hxe & Hxk); try done.
  exists m, x. split_and!; try done; try lia.
  by destruct (release_binds _ st Hfold m x key Hx Hxe Hxk) as (? & ? & ? & ? & ? & ? & ? & ? & ? & ?).
Qed.

(** Every release on an accepted chain names the claim it ends: an earlier
    claim record of the same candidate with the same claim identifier, active
    until that release and inactive after it. *)
Theorem release_names_claim fs hd rs m x key :
  scan fs = Ok (hd, rs) → rs !! m = Some x → fld x "event" = JStr "release" →
  fld x "candidate_key" = JStr key →
  ∃ i r, (i < m)%nat ∧ rs !! i = Some r ∧ fld r "event" = JStr "claim"
    ∧ fld r "candidate_key" = JStr key ∧ fld x "claim_id" = fld r "claim_id"
    ∧ claims (take m rs) !! key = Some r ∧ claims (take (S m) rs) !! key = None.
Proof.
  intros Hscan Hx Hxe Hxk. unfold Registry.scan in Hscan.
  apply rbind_Ok in Hscan as ([hd' st] & Hc & Hscan). apply rbind_Ok in Hscan as ([] & _ & [= <- <-]).
  apply scan_chain_Ok in Hc as (_ & _ & _ & _ & Hfold). apply scan_all_inv in Hfold. cbn in *.
  destruct (release_binds _ st Hfold m x key Hx Hxe Hxk) as (i & r & ? & ? & ? & ? & ? & ? & ? & ?).
  eauto 12.
Qed.

(** ** Releases *)

(** [release] succeeds only with the exact exception, and then either the
    claim it names is no longer active, or the release was already recorded
    and nothing changed. *)
Theorem release_ends_claim cv key id reason started transfer rs fs out fs' :
  fld cv "candidate_key" = JStr key → fld cv "claim_id" = JStr id → synced rs fs →
  release (JObj cv) reason started transfer fs = (Ok out, fs') →
  reason = JStr PARSE_FAILURE ∧ started = JBool false ∧ transfer = JBool false
  ∧ ((fs' = fs ∧ ∃ x, x ∈ rs ∧ names_claim "release" key id x = true)
     ∨ ∃ c r, claims rs !! key = Some c ∧ fld c "claim_id" = JStr id
              ∧ synced (rs ++ [r]) fs' ∧ claims (rs ++ [r]) !! key = None).
Proof.
  intros Hk Hid Hs Hr.
  pose proof (release_synced is_repo root_path resolve pid oid rs cv key id reason started transfer fs Hk Hid Hs) as Ho.
  rewrite Hr in Ho. destruct Ho as (-> & -> & -> & Ho). split_and!; try done.
  destruct Ho as [(r & Hrb & Hsy & _)|(-> & x & Hx & Hn & _)]; [right|left; eauto].
  destruct Hrb as (c & Hc & Hci & Hsig & Hev & Hrk & Hri). exists c, (norm_dict r). split_and!; try done.
  pose proof (synced_length _ _ _ _ _ Hsy) as Hlen. rewrite length_app in Hlen. simpl in Hlen.
  destruct Hsy as (hd & st & Hst & Hrs & _). pose proof (state_ok_inv _ _ _ _ _ _ Hst) as Hinv.
  assert (Hlast : sc_records st !! length rs = Some (norm_dict r)).
  { rewrite Hrs. by rewrite list_lookup_middle. }
  assert (Hpre : take (length rs) (sc_records st) = rs) by (rewrite Hrs; apply take_app_length).
  pose proof (si_records _ _ Hinv _ _ Hlast) as (Hval & Hnd & _).
  pose proof (validate_record_ok _ _ _ Hval) as Hro.
  assert (Hnn : NoDup (keys r)) by (by rewrite keys_norm_dict in Hnd).
  assert (Hf : ∀ k, fld (norm_dict r) k = norm (fld r k)) by (intros; by rewrite fld_norm_dict).
  rewrite claims_snoc. unfold claims_step. rewrite !Hf, Hev, Hrk. cbn. by rewrite lookup_delete_eq.
Qed.

(** ** Fail-closed *)

(** A registry whose chain does not scan (the record file of a claim cut off by
    a power loss among others) refuses every operation and is not changed by it. *)
Theorem wedged_refuses fs :
  wedged fs →
  (∀ identity, ∃ e, claim identity fs = (Err e, fs))
  ∧ (∀ cv a b c, ∃ e, release cv a b c fs = (Err e, fs))
  ∧ (∀ identity, ∃ e, preflight_candidate is_repo root_path resolve pid oid identity fs = (Err e, fs))
  ∧ (∃ e, history is_repo root_path resolve fs = Err e)
  ∧ (∃ e, validate is_repo root_path resolve fs = Err e).
Proof.
  intros Hw. destruct (wedged_writer is_repo root_path resolve pid oid fs Hw) as [e He].
  assert (Hread : ∃ e, reader is_repo root_path resolve fs = Err e).
  { destruct Hw as [_ [e' Hc]]. unfold reader.
    destruct (validate_layout _ _ _ fs) as [[]|e1]; cbn [rbind]; [|eauto].
    destruct (rreq _ _) as [[]|e1]; cbn [rbind]; [|eauto].
    unfold Registry.scan. rewrite Hc. cbn. eauto. }
  destruct Hread as [e1 Hread]. split_and!.
  - intros identity. unfold Registry.claim, mbind, M_bind, lift.
    destruct (validate_identity identity); [|eauto]. rewrite He. eauto.
  - intros cv a0 b0 c0. destruct cv; cbn; eauto. unfold mbind, M_bind, lift.
    destruct (rreq _ _) as [[]|]; [|eauto]. destruct (rreq _ _) as [[]|]; [|eauto]. rewrite He. eauto.
  - intros identity. unfold preflight_candidate, mbind, M_bind, lift.
    destruct (validate_identity identity); [|eauto]. rewrite He. eauto.
  - unfold history. rewrite Hread. cbn. eauto.
  - unfold validate. rewrite Hread. cbn. eauto.
Qed.
End Props.

(** ** The F1 owner *)

Section Owner.
Context `{Digest}.

Lemma owner_written run_dir binding fs fs' :
  begin_f1_owner run_dir binding fs = (Ok tt, fs') →
  ∃ v nd, f1_owner_value run_dir binding = Ok v ∧ lstat fs' RESEARCH OWNER_NAME = Some nd
    ∧ fresh M400 (BText (norm (JObj v))) nd.
Proof.
  set (Q := λ (_ : unit) fs, ∃ v nd, f1_owner_value run_dir binding = Ok v
    ∧ lstat fs RESEARCH OWNER_NAME = Some nd ∧ fresh M400 (BText (norm (JObj v))) nd).
  assert (Hh : hoare (λ _, True) (begin_f1_owner run_dir binding) Q (λ _ _, True)).
  { unfold begin_f1_owner.
    eapply hoare_bind with (Q := λ _ _, True); [apply hoare_reading; intros f _; by destruct (require_no_f1_owner f)|].
    intros _. eapply hoare_bind with (Q := λ _ _, True); [by apply hoare_update|]. intros _.
    destruct (f1_owner_value run_dir binding) as [v|e] eqn:Ev;
      [eapply hoare_lift_Ok; [done|]|by eapply hoare_lift_Err].
    destruct (canonical_body v) as [b|e] eqn:Eb; [eapply hoare_lift_Ok; [done|]|by eapply hoare_lift_Err].
    assert (b = BText (norm (JObj v))) as ->.
    { unfold canonical_body in Eb. by rsimp. }
    eapply hoare_bind with (Q := λ _, Q tt).
    - apply hoare_write_no_replace; try done. intros f f' nd _ _ Hf Hd. exists v, nd.
      split_and!; try done. by eapply lstat_put.
    - intros _. by apply hoare_ret. }
  intros Hb. specialize (Hh fs I). rewrite Hb in Hh. exact Hh.
Qed.

Definition owner_dict (run_dir binding : string) : dict :=
  [("schema", JStr "s22plus_f1_effect_owner_v1"); ("run_dir", JStr run_dir);
   ("binding_sha256", JStr binding)].

Lemma owner_value_eq run_dir binding v :
  f1_owner_value run_dir binding = Ok v → v = owner_dict run_dir binding ∧ sha256_re binding = true.
Proof.
  unfold f1_owner_value. intros Hv. apply rbind_Ok in Hv as ([] & Hb%rreq_Ok & [= <-]). by bsimp.
Qed.

Lemma owner_size run_dir binding :
  sha256_re binding = true → (String.length run_dir ≤ 4096)%nat →
  (N.of_nat (body_size (BText (norm (JObj (owner_dict run_dir binding))))) <= MAX_RECORD_BYTES)%N.
Proof.
  intros Hre%sha256_re_length Hlen. unfold body_size, bytes_of, text_of. rewrite canonical_norm.
  set (v := owner_dict run_dir binding).
  change (canonical (JObj v)) with (Some (render (norm (JObj v)))). cbn [default from_option id].
  pose proof (render_norm_obj_length v) as Hr. rewrite str_length_app.
  assert (Hsum : (list_sum (map member_size v) ≤ 10 * 1000 + 6 * String.length run_dir)%nat).
  { unfold v, owner_dict, member_size. cbn [map fst snd norm render]. rewrite !list_sum_cons.
    pose proof (quoted_length "s22plus_f1_effect_owner_v1"). pose proof (quoted_length run_dir).
    pose proof (quoted_length binding). cbn [list_sum fold_right String.length] in *. lia. }
  change (String.length nl) with 1%nat. unfold MAX_RECORD_BYTES. lia.
Qed.

(** Only the recorded directory and binding pass, and they do pass. *)
Lemma owner_required run_dir binding fs nd d b :
  sha256_re binding = true → (String.length run_dir ≤ 4096)%nat →
  lstat fs RESEARCH OWNER_NAME = Some nd →
  fresh M400 (BText (norm (JObj (owner_dict run_dir binding)))) nd →
  require_f1_owner fs d b
  = let* w := f1_owner_value d b in
    rreq ((binding =? b) && ((run_dir =? d) && true)) "F1 recovery owner mismatch".
Proof.
  intros Hre Hlen Hl Hf. unfold require_f1_owner.
  rewrite Hl, (fresh_read M400 (BText (norm (JObj (owner_dict run_dir binding))))) by (done || by apply owner_size).
  cbn [rbind]. rewrite parse_published by done. cbn [rbind].
  assert (Hnorm : norm_dict (owner_dict run_dir binding)
    = [("binding_sha256", JStr binding); ("run_dir", JStr run_dir);
       ("schema", JStr "s22plus_f1_effect_owner_v1")]) by reflexivity.
  rewrite Hnorm. unfold f1_owner_value. by destruct (rreq _ _) as [[]|].
Qed.

Lemma owner_unlinked fs fs2 : unlink RESEARCH OWNER_NAME fs = (Ok tt, fs2) → require_no_f1_owner fs2 = Ok tt.
Proof.
  assert (Hu : hoare (λ f, f = fs) (unlink RESEARCH OWNER_NAME)
    (λ _ f, require_no_f1_owner f = Ok tt) (λ _ _, True)).
  { apply hoare_unlink; [done|]. intros f f' _ Hd. unfold require_no_f1_owner, present, lstat.
    rewrite (entries_ext _ _ _ Hd), entries_del, decide_True by done. by rewrite lookup_delete_eq. }
  intros Hf. specialize (Hu fs eq_refl). by rewrite Hf in Hu.
Qed.

Lemma begin_requires run_dir binding fs fs' :
  (String.length run_dir ≤ 4096)%nat →
  begin_f1_owner run_dir binding fs = (Ok tt, fs') → require_f1_owner fs' run_dir binding = Ok tt.
Proof.
  intros Hlen (v & nd & Hv & Hl & Hf)%owner_written.
  destruct (owner_value_eq _ _ _ Hv) as [-> Hre].
  rewrite (owner_required run_dir binding fs' nd) by done. rewrite Hv. cbn. by rewrite !String.eqb_refl.
Qed.

(** C39. One owner at a time: while an owner is recorded no second one can begin
    (and the attempt changes nothing), only the recorded run directory and
    binding pass [require_f1_owner], and only they retire it. *)
Theorem f1_owner_exclusive run_dir binding fs fs' :
  (String.length run_dir ≤ 4096)%nat →
  begin_f1_owner run_dir binding fs = (Ok tt, fs') →
  require_f1_owner fs' run_dir binding = Ok tt
  ∧ ∀ d b,
      (∃ e, begin_f1_owner d b fs' = (Err e, fs'))
      ∧ (require_f1_owner fs' d b = Ok tt → d = run_dir ∧ b = binding)
      ∧ (∀ fs2, retire_f1_owner d b fs' = (Ok tt, fs2) →
           d = run_dir ∧ b = binding ∧ require_no_f1_owner fs2 = Ok tt).
Proof.
  intros Hlen (v & nd & Hv & Hl & Hf)%owner_written.
  destruct (owner_value_eq _ _ _ Hv) as [-> Hre].
  assert (Hpres : present fs' RESEARCH OWNER_NAME = true) by (unfold present; by rewrite Hl).
  pose proof (λ d b, owner_required run_dir binding fs' nd d b Hre Hlen Hl Hf) as Hreq.
  assert (Honly : ∀ d b, require_f1_owner fs' d b = Ok tt → d = run_dir ∧ b = binding).
  { intros d b Hr. rewrite Hreq in Hr. apply rbind_Ok in Hr as (w & _ & Hr%rreq_Ok). by bsimp. }
  split; [rewrite Hreq, Hv; cbn; by rewrite !String.eqb_refl|].
  intros d b. split_and!; [|apply Honly|].
  - unfold begin_f1_owner, mbind, M_bind, reading, require_no_f1_owner. rewrite Hpres. cbn. eauto.
  - intros fs2 Hr. unfold retire_f1_owner, mbind, M_bind, getfs, lift in Hr. rewrite Hpres in Hr.
    destruct (require_f1_owner fs' d b) as [[]|] eqn:Eo; [|done].
    destruct (Honly _ _ Eo) as [-> ->]. split_and!; try done. by eapply owner_unlinked.
Qed.
End Owner.
