(* ===== verification/RegistryExamples.v ===== *)
(** * The registry evaluated

    A freshly activated registry, one claim, its release and the same
    candidate claimed again, with the cheap digest; the witnesses of the
    registry's theorems. *)

From stdpp Require Import base list strings gmap sorting.
From Stdlib Require Import ZArith Lia Ascii.
From S2P Require Import Prelude PyStr Dir Json Digest HostFs Registry RegistryTheory RegistryCrash RegistryAppend RegistryRecords RegistryClaims RegistryProps.
Open Scope string_scope.

#[local] Existing Instance checksum_digest.

Definition ok {A} (d : A) (r : result A) : A := match r with Ok a => a | Err _ => d end.

(** ** A registry just activated *)

Definition file (mode ino : Z) (b : body) : node := Node KReg mode 1 64 ino b.
Definition folder (ino : Z) : node := Node KDir M700 2 64 ino (BRaw "").

Definition writer_lock : node := file M600 11 (BRaw LOCK_PAYLOAD).
Definition session_lock : node := file M600 12 (BRaw SESSION_LOCK_PAYLOAD).
Definition lock_id (nd : node) : json := JObj (ok [] (lock_path_identity (Some nd))).

Definition legacy_item : json :=
  JObj [("candidate_ap_size", JInt 4096); ("candidate_ap_sha256", JStr (hexdigest "old AP"));
        ("boot_member_name", JStr BOOT_MEMBER); ("boot_member_size", JInt 2048);
        ("boot_member_sha256", JStr (hexdigest "old boot"));
        ("source_result", JObj [("path", JStr "workspace/private/runs/old/result.json");
                                ("size", JInt 100); ("sha256", JStr (hexdigest "old result"))])].

Definition activation : dict :=
  [("schema", JStr ACTIVATION_SCHEMA);
   ("activation_boundary", JStr "legacy-candidates-before-global-registry-v1");
   ("legacy_candidates", JList [legacy_item]);
   ("writer_lock_identity", lock_id writer_lock); ("session_lock_identity", lock_id session_lock)].

Definition fs0 : hostfs := {|
  hf_dirs := {[ PRIVATE := {[ REGISTRY_DIR_NAME := folder 3 ]};
                ROOT := list_to_map [(RECORDS_NAME, folder 4); (LOCK_NAME, writer_lock);
                          (SESSION_LOCK_NAME, session_lock);
                          (HEAD_NAME, file M400 13 (BText (norm (JObj (ok [] (head_value 0 (-1) ZERO_SHA256))))));
                          (ACTIVATION_NAME, file M400 14 (BText (norm (JObj activation))))];
                RECORDS := ∅ ]};
  hf_dev := 64; hf_next_ino := 20; hf_power := None |}.

(** ** A candidate *)

Definition profile (model : string) : json :=
  JObj [("target", JObj [("model", JStr model); ("device", JStr "g0q")])].
Definition manifest (ap run : string) : json :=
  JObj [("manifest_id", JStr "fyg8-p310-candidate"); ("run_id", JStr run);
        ("allowed_member", JStr BOOT_MEMBER);
        ("candidate_ap", JObj [("path", JStr "ap.tar"); ("size", JInt 8192); ("sha256", JStr (hexdigest ap))])].
Definition ap_receipt (ap : string) : json :=
  JObj [("size", JInt 8192); ("sha256", JStr (hexdigest ap));
        ("member", JObj [("name", JStr BOOT_MEMBER); ("size", JInt 4000); ("sha256", JStr (hexdigest "boot"))])].

Definition candidate (ap run : string) : dict :=
  ok [] (derive_candidate_identity (profile "SM-S906N") (manifest ap run) (hexdigest ap)
           (hexdigest "approval") (ap_receipt ap)).

Notation claim := (claim false "/srv/lab" id 7 9).
Notation release := (release false "/srv/lab" id 7 9).
Notation synced := (synced false "/srv/lab" id).
Notation usable := (usable false "/srv/lab" id).
Notation chain_of := (chain_of false "/srv/lab" id).
Notation synced_b := (synced_b false "/srv/lab" id).

Definition cand : dict := candidate "ap one" "run-0001".
Definition claim1 := claim cand fs0.
Definition fs1 : hostfs := claim1.2.
Definition release1 := release (JObj (ok [] claim1.1)) (JStr PARSE_FAILURE) (JBool false) (JBool false) fs1.
Definition fs2 : hostfs := release1.2.
Definition claim2 := claim (candidate "ap one" "run-0002") fs2.
Definition fs3 : hostfs := claim2.2.

Example identity_derived : validate_identity cand = Ok cand.
Proof. vm_compute. reflexivity. Qed.

Example runs_ok : is_ok claim1.1 && is_ok release1.1 && is_ok claim2.1 = true.
Proof. vm_compute. reflexivity. Qed.

Example second_claim_refused :
  (claim cand fs1).1 = Err (DuplicateCandidateClaim "candidate identity is already globally claimed").
Proof. vm_compute. reflexivity. Qed.

Example legacy_refused :
  (claim (candidate "old AP" "run-0003") fs0).1
  = Err (DuplicateCandidateClaim "candidate AP was consumed before global registry activation").
Proof. vm_compute. reflexivity. Qed.

(** ** Witnesses *)

Lemma cand_ok : validate_identity cand = Ok cand ∧ NoDup (keys cand).
Proof. split; [exact identity_derived|]. apply (bool_decide_unpack _). vm_compute. exact I. Qed.

Lemma synced0 : synced (chain_of fs0) fs0.
Proof. apply synced_intro. vm_compute. reflexivity. Qed.
Lemma synced1 : synced (chain_of fs1) fs1.
Proof. apply synced_intro. vm_compute. reflexivity. Qed.
Example synced2 : synced (chain_of fs2) fs2.
Proof. apply synced_intro. vm_compute. reflexivity. Qed.
Lemma synced3 : synced (chain_of fs3) fs3.
Proof. apply synced_intro. vm_compute. reflexivity. Qed.

Lemma usable_cut fs p rs : synced rs fs → usable rs (with_power fs p).
Proof. intros Hs. apply (usable_ext _ _ _ _ fs); [done|]. by apply synced_usable. Qed.

(** The power is lost after the record file is created and filled and the head
    staged: the chain is extended, the head one record behind. *)
Lemma claim_crash_safe_witness :
  usable (chain_of fs0) (with_power fs0 (Some 3))
  ∧ match claim cand (with_power fs0 (Some 3)) with
    | (Ok _, fs') => False
    | (Err e, fs') => is_ok (scan_chain false "/srv/lab" id fs') = true
                      ∧ (usable (chain_of fs0) fs' ∨ e = PowerLoss)
    end.
Proof.
  split; [apply usable_cut, synced0|].
  pose proof (claim_crash_safe false "/srv/lab" id 7 9 cand cand (chain_of fs0)
    (with_power fs0 (Some 3)) (proj1 cand_ok) (proj2 cand_ok) (usable_cut _ _ _ synced0)) as Hc.
  assert (Hok : is_ok (scan_chain false "/srv/lab" id (claim cand (with_power fs0 (Some 3))).2) = true
                ∧ is_ok (claim cand (with_power fs0 (Some 3))).1 = false) by (split; vm_compute; reflexivity).
  destruct (claim cand (with_power fs0 (Some 3))) as [[out|e] fs']; [by destruct Hok|].
  split; [apply Hok|]. destruct Hc as [Hc|[Hc _]]; [by left|by right].
Defined.

Lemma consumed_refused_witness :
  is_Some (claims (chain_of fs1) !! key_of cand)
  ∧ ∃ e fs', claim cand (with_power fs1 (Some 2)) = (Err e, fs') ∧ usable (chain_of fs1) fs'.
Proof.
  assert (Hs : is_Some (claims (chain_of fs1) !! key_of cand)).
  { apply (bool_decide_unpack _). vm_compute. exact I. }
  split; [exact Hs|]. destruct Hs as [r Hr].
  destruct (consumed_refused false "/srv/lab" id 7 9 cand cand (chain_of fs1)
    (with_power fs1 (Some 2)) r (proj1 cand_ok) (proj2 cand_ok) (usable_cut _ _ _ synced1) Hr)
    as (e & fs' & Hc & Hu & _). exists e, fs'. exact (conj Hc Hu).
Defined.

Lemma claim_succeeds_witness :
  ¬ consumed fs0 (chain_of fs0) cand
  ∧ ∃ out fs' r, claim cand fs0 = (Ok out, fs') ∧ synced (chain_of fs0 ++ [r]) fs'.
Proof.
  assert (Hfree : ¬ consumed fs0 (chain_of fs0) cand).
  { intros [Hl|Hl]; [vm_compute in Hl; discriminate|].
    apply (bool_decide_eq_true _) in Hl. vm_compute in Hl. discriminate. }
  split; [exact Hfree|].
  assert (Hlen : (length (chain_of fs0) < MAX_RECORDS)%nat) by (vm_compute; lia).
  destruct (claim_succeeds false "/srv/lab" id 7 9 cand cand (chain_of fs0) fs0
    (proj1 cand_ok) (proj2 cand_ok) synced0 eq_refl Hfree Hlen) as (out & fs' & r & Hc & Hs & _).
  exists out, fs', r. exact (conj Hc Hs).
Defined.

(** The records after the second claim, and the key of the candidate *)
Definition chain3 : list dict := Eval vm_compute in chain_of fs3.
Definition key1 : string := Eval vm_compute in key_of cand.
Lemma chain3_ok : chain_of fs3 = chain3.
Proof. vm_compute. reflexivity. Qed.
Definition rec_at (i : nat) : dict := default [] (chain3 !! i).

Lemma scan3 : ∃ hd, scan false "/srv/lab" id fs3 = Ok (hd, chain3).
Proof. rewrite <- chain3_ok. apply synced_scan, synced3. Qed.

Lemma reclaim_needs_release_witness :
  chain3 !! 0%nat = Some (rec_at 0) ∧ chain3 !! 2%nat = Some (rec_at 2)
  ∧ ∃ m x, (0 < m < 2)%nat ∧ chain3 !! m = Some x ∧ exact_exception x = true.
Proof.
  split_and!; [reflexivity..|]. destruct scan3 as [hd Hs].
  destruct (reclaim_needs_release false "/srv/lab" id fs3 hd chain3 0 2 (rec_at 0) (rec_at 2) key1 Hs)
    as (m & x & Hm & Hx & _ & _ & He); [reflexivity|reflexivity|lia|reflexivity..|].
  exists m, x. exact (conj Hm (conj Hx He)).
Defined.

Lemma release_names_claim_witness :
  chain3 !! 1%nat = Some (rec_at 1)
  ∧ ∃ i r, (i < 1)%nat ∧ chain3 !! i = Some r ∧ fld r "event" = JStr "claim".
Proof.
  split; [reflexivity|]. destruct scan3 as [hd Hs].
  destruct (release_names_claim false "/srv/lab" id fs3 hd chain3 1 (rec_at 1) key1 Hs)
    as (i & r & Hi & Hr & He & _); [reflexivity..|].
  exists i, r. exact (conj Hi (conj Hr He)).
Defined.

Definition receipt1 : dict := ok [] claim1.1.

Lemma release_ends_claim_witness :
  is_ok release1.1 = true
  ∧ (fs2 = fs1 ∨ ∃ c r, claims (chain_of fs1) !! key_of cand = Some c
                        ∧ claims (chain_of fs1 ++ [r]) !! key_of cand = None).
Proof.
  assert (Hok : is_ok release1.1 = true) by (vm_compute; reflexivity). split; [exact Hok|].
  destruct release1 as [[out|e] fs'] eqn:Er; [|done].
  assert (Hk : fld receipt1 "candidate_key" = JStr (key_of cand)) by (vm_compute; reflexivity).
  assert (Hid : fld receipt1 "claim_id" = JStr (str_of (fld receipt1 "claim_id"))) by (vm_compute; reflexivity).
  destruct (release_ends_claim false "/srv/lab" id 7 9 receipt1 _ _ (JStr PARSE_FAILURE) (JBool false)
    (JBool false) (chain_of fs1) fs1 out fs' Hk Hid synced1 Er) as (_ & _ & _ & [[Hf _]|(c & r & Hc & _ & _ & Hn)]).
  - left. unfold fs2. rewrite Er. exact Hf.
  - right. exact (ex_intro _ c (ex_intro _ r (conj Hc Hn))).
Defined.

(** The power is lost between the creation of the record file and its content. *)
Definition torn_fs : hostfs := with_power (claim cand (with_power fs0 (Some 1))).2 None.

Lemma wedged_refuses_witness :
  wedged false "/srv/lab" id torn_fs ∧ ∃ e, claim cand torn_fs = (Err e, torn_fs).
Proof.
  assert (Hw : wedged false "/srv/lab" id torn_fs).
  { split; [apply (bool_decide_unpack _); vm_compute; exact I|].
    destruct (scan_chain false "/srv/lab" id torn_fs) as [x|e] eqn:E; [|eauto].
    exfalso. assert (Hb : is_ok (scan_chain false "/srv/lab" id torn_fs) = false) by (vm_compute; reflexivity).
    rewrite E in Hb. discriminate. }
  split; [exact Hw|]. destruct (wedged_refuses false "/srv/lab" id 7 9 torn_fs Hw) as [Hc _]. exact (Hc cand).
Defined.

Definition owner_dir : string := "/srv/lab/workspace/private/runs/run-0001".
Definition fs_owned : hostfs := (begin_f1_owner owner_dir (hexdigest "binding") fs0).2.

Lemma f1_owner_exclusive_witness :
  (begin_f1_owner owner_dir (hexdigest "binding") fs0).1 = Ok tt
  ∧ require_f1_owner fs_owned owner_dir (hexdigest "binding") = Ok tt
  ∧ ∃ e, begin_f1_owner "/srv/lab/other" (hexdigest "other") fs_owned = (Err e, fs_owned).
Proof.
  assert (Hb : (begin_f1_owner owner_dir (hexdigest "binding") fs0).1 = Ok tt) by (vm_compute; reflexivity).
  split; [exact Hb|].
  assert (Hbe : begin_f1_owner owner_dir (hexdigest "binding") fs0 = (Ok tt, fs_owned)).
  { unfold fs_owned. destruct (begin_f1_owner _ _ fs0) as [r fs']. cbn in Hb. by subst. }
  assert (Hlen : (String.length owner_dir ≤ 4096)%nat) by (vm_compute; lia).
  destruct (f1_owner_exclusive owner_dir (hexdigest "binding") fs0 fs_owned Hlen Hbe) as [Hr Ho].
  split; [exact Hr|]. destruct (Ho "/srv/lab/other" (hexdigest "other")) as [He _]. exact He.
Defined.
