(* ===== verification/NativeRecords.v ===== *)
(** * Private immutable records of the native session

    [s22plus_native_records_v3.py]: bounded reads, receipts, publication
    through a staging file and [renameat2(RENAME_NOREPLACE)], and the journal
    of one file per event.  Directories are relative to the repository root and
    direct (no symbolic link leads to them); [uuid4] names the staging file,
    [loads] is [json.loads] on bytes that are not canonical text. *)

From stdpp Require Import base list strings gmap sorting.
From Stdlib Require Import ZArith Lia Ascii.
From S2P Require Import Prelude PyStr Dir Json Digest HostFs Registry.
Open Scope string_scope.

Definition SCHEMA : string := "s22plus-native-session-v3".
Definition MAX_NATIVE_RECORD : nat := 2 * 1024 * 1024.

Definition nreq (b : bool) (msg : string) : result unit := require b (SessionError msg).

(** [\.publish-[0-9a-f]{32}\.tmp] *)
Definition publish_temp_re (s : string) : bool :=
  match strip_prefix ".publish-" s with
  | Some t =>
      (String.length t =? 36)%nat && all_chars is_hex (String.substring 0 32 t)
      && (String.substring 32 4 t =? ".tmp")
  | None => false
  end.

Definition journal_name (index : nat) : string := fmt_0d 4 index ++ ".json".

Section Native.
Context `{Digest}.
Variable root_path : string.
Variable uuid4 : hostfs → string.
Variable loads : string → result json.

Definition path_of (dir name : string) : string := root_path ++ "/" ++ dir ++ "/" ++ name.

(** [read_bytes]: one bounded regular file with a single link *)
Definition read_bytes (fs : hostfs) (dir name : string) : result body :=
  match lstat fs dir name with
  | None => Err (PyOSError "No such file or directory")
  | Some n =>
      do* nreq (match nd_kind n with KReg => true | _ => false end && (nd_nlink n =? 1)%Z
                && (0 <? body_size (nd_body n))%nat
                && (body_size (nd_body n) <=? MAX_NATIVE_RECORD)%nat)
            "record is not one bounded regular file" in
      Ok (nd_body n)
  end.

Definition receipt_of (dir name : string) (b : body) : json :=
  JObj [("path", JStr (path_of dir name)); ("size", JInt (Z.of_nat (body_size b)));
        ("sha256", JStr (hexdigest (bytes_of b)))].

Definition pin (fs : hostfs) (dir name : string) : result json :=
  let* b := read_bytes fs dir name in Ok (receipt_of dir name b).

(** [verify]: the record a receipt names, where it still is what the receipt says *)
Definition verify (fs : hostfs) (receipt : json) : result (string * string) :=
  match receipt with
  | JObj d =>
      do* nreq (keys_match d ["path"; "size"; "sha256"]) "record receipt fields differ" in
      match fld d "path" with
      | JStr p =>
          let at_ := locate root_path p in
          let* r := pin fs at_.1 at_.2 in
          do* nreq (py_eqb r receipt) "record receipt changed" in
          Ok at_
      | _ => Err PyTypeError
      end
  | _ => Err (SessionError "record receipt fields differ")
  end.

(** [json.loads] with unique keys and finite numbers *)
Definition read_body (b : body) : result json :=
  match b with
  | BText v =>
      do* nreq (json_nodup v) "duplicate record key" in
      do* nreq (finite v) "nonfinite record number" in
      Ok (norm v)
  | BRaw s => loads s
  end.
Definition read (fs : hostfs) (dir name : string) : result json :=
  let* b := read_bytes fs dir name in read_body b.

Definition staging (fs : hostfs) : string := ".publish-" ++ uuid4 fs ++ ".tmp".

(** [renameat2(..., RENAME_NOREPLACE)], and the [finally] that removes the staging
    file when it fails *)
Definition rename_noreplace (dir from to : string) : M unit :=
  fs ← getfs;
  if present fs dir to then
    _ ← unlink dir from; raise (PyOSError "File exists")
  else rename_over dir from to.

Definition publish (dir name : string) (value : json) : M json :=
  _ ← lift (match canonical value with
            | Some _ => Ok tt
            | None => Err (PyValueError "Out of range float values are not JSON compliant")
            end);
  _ ← lift (nreq (body_size (BText value) <=? MAX_NATIVE_RECORD)%nat "record exceeds bound");
  fs ← getfs;
  if present fs dir (staging fs) then raise (PyOSError "File exists")
  else
    _ ← create_file dir (staging fs) M400 (BText value);
    _ ← rename_noreplace dir (staging fs) name;
    reading (λ fs, pin fs dir name).

(** ** The journal *)

Definition ROW_KEYS : list string := ["schema"; "sequence"; "previous"; "boottime_ns"; "event"; "data"].

Definition boot_of (row : dict) : Z := int_of (fld row "boottime_ns").

(** One row follows the rows before it, the last of which has the receipt [previous]. *)
Definition row_follows (rows : list dict) (previous : json) (row : dict) : bool :=
  keys_match row ROW_KEYS && is_str (fld row "schema") SCHEMA && strict_int (fld row "sequence")
  && (int_of (fld row "sequence") =? Z.of_nat (length rows))%Z
  && py_eqb (fld row "previous") previous
  && strict_int (fld row "boottime_ns") && (0 <? boot_of row)%Z
  && (match last rows with Some r => (boot_of r <=? boot_of row)%Z | None => true end)
  && (match fld row "event" with JStr _ => true | _ => false end)
  && (match fld row "data" with JObj _ => true | _ => false end).

Definition rows_step (fs : hostfs) (dir : string) (st : list dict * json) (file : string * node)
    : result (list dict * json) :=
  do* nreq (file.1 =? journal_name (length st.1)) "native journal has a gap or unexpected entry" in
  let* v := read fs dir file.1 in
  match v with
  | JObj row =>
      do* nreq (row_follows st.1 st.2 row) "native journal chain differs" in
      let* receipt := pin fs dir file.1 in
      Ok ((st.1 ++ [row])%list, receipt)
  | _ => Err (SessionError "native journal chain differs")
  end.

(** A crash before publication leaves only staging bytes, which have no number. *)
Definition staging_entry (file : string * node) : result unit :=
  nreq (match nd_kind file.2 with KReg => true | _ => false end && (nd_nlink file.2 =? 1)%Z
        && (body_size (nd_body file.2) <=? MAX_NATIVE_RECORD)%nat) "journal staging entry differs".

Definition journal_state (maximum : nat) (fs : hostfs) (dir : string) : result (list dict * json) :=
  do* forM staging_entry (listing_by publish_temp_re (entries fs dir)) in
  let paths := listing_by (λ n, negb (publish_temp_re n)) (entries fs dir) in
  do* nreq (length paths <=? maximum)%nat "native operation journal exceeds bound" in
  foldM (rows_step fs dir) ([], JNull) paths.

Definition rows (maximum : nat) (fs : hostfs) (dir : string) : result (list dict) :=
  let* st := journal_state maximum fs dir in Ok st.1.

Definition journal_row (sequence : nat) (previous : json) (boottime : Z) (event : string) (data : dict)
    : json :=
  JObj [("schema", JStr SCHEMA); ("sequence", JInt (Z.of_nat sequence)); ("previous", previous);
        ("boottime_ns", JInt boottime); ("event", JStr event); ("data", JObj data)].

(** [append]: [boottime] is what [clock()] returns *)
Definition append_row (maximum : nat) (dir : string) (boottime : Z) (event : string) (data : dict)
    : M json :=
  st ← reading (λ fs, journal_state maximum fs dir);
  let index := length st.1 in
  _ ← lift (nreq (index <? maximum)%nat "native journal full");
  previous ← reading (λ fs, match index with
                            | O => Ok JNull
                            | S i => pin fs dir (journal_name i)
                            end);
  _ ← lift (nreq (0 <? boottime)%Z "host boot clock is unavailable");
  publish dir (journal_name index) (journal_row index previous boottime event data).
End Native.
