(* ===== verification/NativeSteps.v ===== *)
(** * The step plans of the native operations

    [s22plus_native_session_v3.py] and the modules that select the steps of one
    operation each: the fixed plan of every operation, which steps change the
    device, and which callbacks the session hands to the adapter for a step. *)

From stdpp Require Import base list strings.
From Stdlib Require Import ZArith Lia Ascii.
From S2P Require Import Prelude PyStr Json NativeRecords.
Open Scope string_scope.

(** ** Steps *)

Record Step := {
  sp_name : string;
  sp_action : string;
  sp_role : string;
  sp_ending : option string;
  sp_hud : bool
}.
#[export] Instance Step_eq_dec : EqDecision Step.
Proof. solve_decision. Defined.

Definition step4 (name action role : string) (ending : option string) : Step :=
  {| sp_name := name; sp_action := action; sp_role := role; sp_ending := ending; sp_hud := false |}.
Definition step3 (name action role : string) : Step := step4 name action role None.

Definition OPERATIONS : list string :=
  ["bootstrap"; "experiment"; "android-exit"; "storage-census"; "gpt-reserve"; "native-ext4";
   "root-inspect"; "userspace-probe"; "preflight"; "staged-preflight"; "switch-root";
   "debian-handoff"; "journal-recovery"; "root-evidence"; "debian-early"; "log-calibrate";
   "debian-integrated"; "debian-autoboot"].

(** ** Operations that start from Android *)

(** [ITEMS]: operation, the name of its own step, and [Profile.MUTATES] *)
Definition ITEMS : list (string * (string * bool)) :=
  [("root-inspect", ("root-inspection", true));
   ("userspace-probe", ("userspace-probe", true));
   ("preflight", ("preflight-observation", false));
   ("staged-preflight", ("staged-preflight", true));
   ("switch-root", ("switch-root", true));
   ("debian-handoff", ("debian-handoff", true));
   ("journal-recovery", ("journal-recovery", true));
   ("root-evidence", ("root-evidence", true));
   ("debian-early", ("debian-early-evidence", false));
   ("log-calibrate", ("log-calibration", true));
   ("debian-integrated", ("debian-integrated", true));
   ("debian-autoboot", ("debian-autoboot", true))].

Definition selection (operation : string) : string :=
  match assoc operation ITEMS with Some i => i.1 | None => "" end.

Definition mutates_step (operation name : string) : bool :=
  match assoc operation ITEMS with Some i => (i.1 =? name) && i.2 | None => false end.

Definition from_android : list Step :=
  [step3 "android-download" "download" "A"; step3 "install-native-first" "transfer" "N"].
Definition to_android : list Step :=
  [step3 "install-android" "transfer" "A"; step3 "android-final" "health" "A"].

Definition log_steps : list Step :=
  (from_android ++ [step4 "log-calibration" "observe" "N" (Some "detach")] ++ to_android)%list.
Definition early_steps : list Step :=
  (from_android ++ [step3 "debian-early-evidence" "early-evidence" "N"] ++ to_android)%list.
Definition integrated_steps : list Step :=
  (from_android ++ [step3 "debian-integrated" "integrated-start" "N";
                    step3 "debian-health" "debian-health" "N";
                    step3 "debian-shutdown" "debian-shutdown" "N"] ++ to_android)%list.
Definition handoff_steps : list Step :=
  (from_android ++ [step4 "debian-handoff" "observe" "N" (Some "handoff");
                    step3 "debian-health" "debian-health" "N";
                    step3 "debian-shutdown" "debian-shutdown" "N"] ++ to_android)%list.
Definition autoboot_steps : list Step :=
  (from_android ++ [step3 "debian-health" "debian-health" "N";
                    step3 "debian-shutdown" "debian-shutdown" "N"] ++ to_android)%list.
Definition reboot_steps : list Step :=
  (from_android ++ [step3 "debian-health" "debian-health" "N";
                    step3 "debian-reboot" "debian-reboot" "N";
                    step3 "debian-health-second" "debian-health" "N";
                    step3 "debian-shutdown" "debian-shutdown" "N"] ++ to_android)%list.

Definition inspect_steps (operation : string) : list Step :=
  if operation =? "log-calibrate" then log_steps
  else if operation =? "debian-early" then early_steps
  else if operation =? "debian-autoboot" then autoboot_steps
  else if operation =? "debian-integrated" then integrated_steps
  else if operation =? "debian-handoff" then handoff_steps
  else if operation =? "switch-root" then
    (from_android ++ [step4 (selection operation) "observe" "N" (Some "download")] ++ to_android)%list
  else
    (from_android ++ [step4 (selection operation) "observe" "N" (Some "detach");
                      step4 "inspector-return" "observe" "N" (Some "download")] ++ to_android)%list.

(** ** GPT reservation *)

Definition gpt_steps : list Step :=
  [step4 "gpt-apply" "observe" "N" (Some "detach"); step3 "gpt-restart" "physical" "N";
   step4 "gpt-proposed" "observe" "N" (Some "detach"); step3 "factory-reset" "physical" "N";
   step4 "gpt-after-reset" "observe" "N" (Some "detach");
   step4 "gpt-android-start" "observe" "N" (Some "download");
   step3 "install-android" "transfer" "A"; step3 "android-initial" "health" "A";
   step3 "android-reboot" "reboot" "A"; step3 "android-final" "health" "A"].

Definition PHYSICAL : list (string * string) :=
  [("gpt-restart", "restart-native"); ("factory-reset", "stock-factory-reset");
   ("recovery-factory-reset", "stock-factory-reset-original")].
Definition MUTATING : list string := ["gpt-apply"; "gpt-restore"].

(** ** Every operation *)

Definition native_start : Step := step4 "native-start" "observe" "N" (Some "download").

Definition experiment_steps (reentry hud : bool) : list Step :=
  ([native_start; step3 "install-experiment" "transfer" "E"]
   ++ (if reentry then [step4 "experiment-first" "observe" "E" (Some "detach")] else [])
   ++ [{| sp_name := "experiment-final"; sp_action := "observe"; sp_role := "E";
          sp_ending := Some "download"; sp_hud := hud |};
       step3 "restore-native" "transfer" "N"; step4 "native-final" "observe" "N" (Some "detach")])%list.

Definition ext4_steps : list Step :=
  (experiment_steps true false ++ [step4 "native-exit" "observe" "N" (Some "download")] ++ to_android)%list.

Definition steps (operation : string) (reentry hud native_bootstrap : bool) : result (list Step) :=
  do* nreq (elem_str operation OPERATIONS) "native operation selection differs" in
  do* nreq ((operation =? "experiment") || negb (reentry || hud))
        "optional observations belong to E" in
  do* nreq ((operation =? "bootstrap") || negb native_bootstrap)
        "native bootstrap origin belongs to bootstrap" in
  Ok (if elem_str operation (map fst ITEMS) then inspect_steps operation
      else if operation =? "native-ext4" then ext4_steps
      else if operation =? "gpt-reserve" then gpt_steps
      else if operation =? "storage-census" then [step4 "native-storage" "observe" "N" (Some "detach")]
      else if operation =? "bootstrap" then
        [if native_bootstrap then step4 "native-bootstrap-start" "observe" "S" (Some "download")
         else step3 "android-download" "download" "A";
         step3 "install-native-first" "transfer" "N";
         step4 "native-first-1" "observe" "N" (Some "detach");
         step4 "native-first-2" "observe" "N" (Some "download");
         step3 "install-native-second" "transfer" "N";
         step4 "native-second-1" "observe" "N" (Some "detach");
         step4 "native-second-2" "observe" "N" (Some "detach")]
      else if operation =? "android-exit" then
        [native_start; step3 "install-android" "transfer" "A"; step3 "android-final" "health" "A"]
      else experiment_steps reentry hud).

(** The images of the ordinary reboot: [selected] of [s22plus_debian_reboot_access_v1.py] *)
Definition REBOOT_NAMESPACES : list string := ["p458"; "p459"; "p460"; "p461"; "p462"; "p463"].
Definition DOWNLOAD_NAMESPACES : list string := ["p461"; "p462"; "p463"].
Definition APT_NAMESPACE : string := "p463".

Definition namespace_in (request : dict) (names : list string) : bool :=
  is_str (fld request "operation") "debian-autoboot"
  && match fld request "N" with
     | JObj image => match fld image "namespace" with JStr n => elem_str n names | _ => false end
     | _ => false
     end.
Definition reboot_selected (request : dict) : bool := namespace_in request REBOOT_NAMESPACES.
Definition download_selected (request : dict) : bool :=
  reboot_selected request && namespace_in request DOWNLOAD_NAMESPACES.
Definition apt_selected (request : dict) : bool := namespace_in request [APT_NAMESPACE].

(** [d[k]] *)
Definition idx (d : dict) (k : string) : result json :=
  match dget k d with Some v => Ok v | None => Err (PyKeyError k) end.

Definition operation_steps (request : dict) : result (list Step) :=
  if reboot_selected request then Ok reboot_steps
  else
    let* op := idx request "operation" in
    let* re := idx request "reentry" in
    let* hud := idx request "hud" in
    match op, re, hud with
    | JStr o, JBool r, JBool h => steps o r h (negb (is_null (fld request "S")))
    | _, _, _ => Err (SessionError "native operation selection differs")
    end.

(** ** Callbacks *)

(** What a callback of a step does: acquire the durable intent, or only check again *)
Inductive callback := CIntent | CGuard | CNone.
Definition is_intent (c : callback) : bool := match c with CIntent => true | _ => false end.

Definition is_download (ending : option string) : bool :=
  match ending with Some e => e =? "download" | None => false end.

(** [perform]'s choice of the callbacks *)
Definition main_callback (operation : string) (step : Step) : callback :=
  if elem_str (sp_action step) ["download"; "reboot"; "transfer"; "integrated-start";
                                "debian-reboot"; "debian-shutdown"] then CIntent
  else if sp_action step =? "observe" then
    if elem_str operation ["switch-root"; "debian-handoff"] && (sp_name step =? operation) then CGuard
    else if is_download (sp_ending step) then CIntent else CGuard
  else CNone.

Definition extra_effect (operation : string) (step : Step) : bool :=
  elem_str (sp_name step) MUTATING
  || (operation =? "native-ext4") && (sp_name step =? "experiment-first")
  || mutates_step operation (sp_name step).
Definition extra_callback (operation : string) (step : Step) : callback :=
  if (sp_action step =? "observe") && extra_effect operation step then CIntent else CNone.

(** The steps with a durable effect: the ones a normal terminal must account for *)
Definition effectful (operation : string) (step : Step) : bool :=
  elem_str (sp_action step) ["download"; "transfer"; "physical"; "reboot"; "debian-shutdown"; "debian-reboot"]
  || (sp_action step =? "observe") && is_download (sp_ending step)
  || extra_effect operation step.

(** ** The plans *)

(** Whether a step of the plan can acquire an intent *)
Definition acquires (operation : string) (step : Step) : bool :=
  is_intent (main_callback operation step) || is_intent (extra_callback operation step)
  || (sp_action step =? "physical").
