(* ===== verification/NativeWorld.v ===== *)
(** * The world a native session runs in

    The target adapter, which the Python code receives as an object, is the
    interface [Adapter]: for every step a program that reads and changes the
    device, and calls back into the session before it changes anything.  The
    session runs in the monad [W] over the host file system, the adapter's own
    state and the trace of what happened to the device; a power loss stops it
    at any durable step and is never caught. *)

From stdpp Require Import base list strings gmap.
From Stdlib Require Import ZArith Lia Ascii.
From S2P Require Import Prelude PyStr Dir Json Digest HostFs NativeRecords NativeSteps.
Open Scope string_scope.

(** ** The adapter *)

Inductive detail (S : Type) :=
  | Plain (d : option dict)
  | Deferred (d : S → result dict).   (** a callable *)
Arguments Plain {S} d.
Arguments Deferred {S} d.

(** What the adapter does in a step: I/O that observes, effects on the device, and
    the callbacks it received. *)
Inductive prog (S : Type) :=
  | PDone (v : json)
  | PFail (e : pyexc)
  | PIo (u : S → S) (k : S → prog S)
  | PEffect (u : S → S) (k : S → prog S)
  | PGuard (k : prog S)
  | PDispatch (d : detail S) (k : json → prog S)   (** before_dispatch, before_launch, before_terminal *)
  | PExtra (d : detail S) (k : json → prog S)      (** before_extra *)
  | PConsume (k : prog S).                          (** consume_observation *)
Arguments PDone {S} v.
Arguments PFail {S} e.
Arguments PIo {S} u k.
Arguments PEffect {S} u k.
Arguments PGuard {S} k.
Arguments PDispatch {S} d k.
Arguments PExtra {S} d k.
Arguments PConsume {S} k.

(** A program that changes the device only after a callback that acquires an
    intent has returned; [m] and [x] say whether the main and the extra callback
    do, [b] whether one already has. *)
Inductive guarded {S} (m x : bool) : bool → prog S → Prop :=
  | g_done b v : guarded m x b (PDone v)
  | g_fail b e : guarded m x b (PFail e)
  | g_io b u k : (∀ s, guarded m x b (k s)) → guarded m x b (PIo u k)
  | g_effect u k : (∀ s, guarded m x true (k s)) → guarded m x true (PEffect u k)
  | g_guard b k : guarded m x b k → guarded m x b (PGuard k)
  | g_dispatch b d k : (∀ r, guarded m x (b || m) (k r)) → guarded m x b (PDispatch d k)
  | g_extra b d k : (∀ r, guarded m x (b || x) (k r)) → guarded m x b (PExtra d k)
  | g_consume b k : guarded m x b k → guarded m x b (PConsume k).

(** A program that only observes *)
Definition passive {S} : prog S → Prop := guarded false false false.

Class Adapter := {
  ad_state : Type;
  ad_check : ad_state → dict → bool → result unit;
  ad_native_attempt_started : ad_state → dict → bool;
  ad_configuration : ad_state → dict → result dict;
  ad_preflight : dict → prog ad_state;
  ad_perform : string → Step → dict → prog ad_state;
  ad_prepare : string → dict → bool → bool → ad_state → result dict * ad_state;
  ad_claim : Step → dict → string → ad_state → result unit * ad_state;
  ad_validate_result : ad_state → Step → json → dict → result unit;
  ad_validate_sequence : ad_state → list Step → list json → dict → result unit;
  ad_recover_step_result : ad_state → Step → dict → result json;
  ad_recover_transfer_result : ad_state → Step → dict → result json;
  ad_final_protocol_completed : ad_state → Step → dict → bool;
  ad_terminal : ad_state → list Step → list json → dict → bool → result dict;
  ad_admit : dict → json → ad_state → result unit * ad_state;
  (** host cleanup of the Debian link, and the automatic return to Download *)
  ad_cleanup : dict → ad_state → result json * ad_state;
  ad_return_request : dict → ad_state → result json * ad_state;
  (** the physical stages of the GPT reservation *)
  ad_usb_snapshot : string → ad_state → result json * ad_state;
  ad_wait_departure : json → string → json → prog ad_state;
  ad_setup_pending : pyexc → option json;          (** [SetupPending] and its receipt *)
  ad_setup_attempts : ad_state → list string;      (** [attempt-*] of [android-initial] *)
  ad_missing_su_setup : ad_state → string → json → result json;
  ad_userdata_sectors : ad_state → dict → result Z;
  (** the contract: nothing changes before the intent *)
  ad_preflight_passive : ∀ request, passive (ad_preflight request);
  ad_wait_passive : ∀ before folder deadline, passive (ad_wait_departure before folder deadline);
  ad_perform_guarded : ∀ operation step request,
    guarded (is_intent (main_callback operation step)) (is_intent (extra_callback operation step)) false
      (ad_perform operation step request)
}.

(** ** The world *)

(** [TGrant]: an intent was recorded and the adapter may act; [TEffect]: it did. *)
Inductive tev := TGrant (step : string) | TEffect (step : string).

Record world `{Adapter} := {
  w_fs : hostfs;
  w_ad : ad_state;
  w_clock : nat;
  w_trace : list tev
}.

Section Monad.
Context `{Adapter}.

Definition W (A : Type) : Type := world → result A * world.
#[export] Instance W_ret : MRet W := λ A a w, (Ok a, w).
#[export] Instance W_bind : MBind W := λ A B k m w,
  match m w with
  | (Ok a, w') => k a w'
  | (Err e, w') => (Err e, w')
  end.

Definition set_fs (w : world) (fs : hostfs) : world :=
  {| w_fs := fs; w_ad := w_ad w; w_clock := w_clock w; w_trace := w_trace w |}.
Definition set_ad (w : world) (s : ad_state) : world :=
  {| w_fs := w_fs w; w_ad := s; w_clock := w_clock w; w_trace := w_trace w |}.
Definition set_trace (w : world) (t : list tev) : world :=
  {| w_fs := w_fs w; w_ad := w_ad w; w_clock := w_clock w; w_trace := t |}.

Definition wraise {A} (e : pyexc) : W A := λ w, (Err e, w).
Definition wlift {A} (r : result A) : W A := λ w, (r, w).
Definition ask {A} (f : world → result A) : W A := λ w, (f w, w).
Definition seen {A} (f : hostfs → result A) : W A := λ w, (f (w_fs w), w).
Definition onfs {A} (m : M A) : W A := λ w, let r := m (w_fs w) in (r.1, set_fs w r.2).
Definition onad {A} (m : ad_state → result A * ad_state) : W A := λ w,
  let r := m (w_ad w) in (r.1, set_ad w r.2).
Definition move (u : ad_state → ad_state) : W ad_state :=
  λ w, let s := u (w_ad w) in (Ok s, set_ad w s).
Definition emit (e : tev) : W unit := λ w, (Ok tt, set_trace w (w_trace w ++ [e])%list).
Definition demand (b : bool) (msg : string) : W unit := wlift (nreq b msg).

(** [m], with the exception it ends in as a value: [try ... except Exception]; a power
    loss is not an exception. *)
Definition caught {A} (m : W A) : W (pyexc + A) := λ w,
  match m w with
  | (Ok a, w') => (Ok (inr a), w')
  | (Err PowerLoss, w') => (Err PowerLoss, w')
  | (Err e, w') => (Ok (inl e), w')
  end.
Definition try_ {A} (m : W A) (handler : pyexc → W A) : W A :=
  r ← caught m; match r with inr a => mret a | inl e => handler e end.

(** [try: return m finally: cleanup] *)
Definition finally {A} (m : W A) (cleanup : W unit) : W A :=
  r ← caught m; _ ← cleanup; match r with inr a => mret a | inl e => wraise e end.

(** [try: m except (...)]: [None] for the exceptions of the clause *)
Definition except {A} (clause : pyexc → bool) (m : W A) : W (option A) :=
  r ← caught m;
  match r with inr a => mret (Some a) | inl e => if clause e then mret None else wraise e end.

(** [for x in l] *)
Fixpoint mapW {A B} (f : A → W B) (l : list A) : W (list B) :=
  match l with
  | [] => mret []
  | x :: l' => y ← f x; ys ← mapW f l'; mret (y :: ys)
  end.
End Monad.

(** ** Directories *)

Definition mkdir (dir : string) : M unit :=
  fs ← getfs;
  match hf_dirs fs !! dir with
  | Some _ => raise (PyOSError "File exists")
  | None => _ ← tick; update (λ fs, with_dir fs dir ∅)
  end.
(** [mkdir(parents=True, exist_ok=True)] *)
Definition mkdirs (dir : string) : M unit := update (λ fs, with_dir fs dir (entries fs dir)).

(** ** The exception clauses *)

Definition is_os_error (e : pyexc) : bool :=
  match e with PyOSError _ | PyTimeoutError _ | SerialBridgeLockBusy _ => true | _ => false end.

(** [(ValueError, OSError, KeyError)] *)
Definition value_error (e : pyexc) : bool :=
  is_os_error e
  || match e with
     | PyValueError _ | ProtocolError _ | SessionError _ | ResultPublicationError _ | PyKeyError _ | PyUnicodeError => true
     | _ => false
     end.
(** [(ValueError, OSError, KeyError, RawCaptureError)] *)
Definition proof_error (e : pyexc) : bool :=
  value_error e || match e with RawCaptureError _ => true | _ => false end.
(** [(ValueError, OSError, RawCaptureError)] *)
Definition setup_error (e : pyexc) : bool :=
  match e with PyKeyError _ => false | _ => proof_error e end.

(** [type(error).__name__] *)
Definition exc_name (e : pyexc) : string :=
  match e with
  | F1V2Error _ => "F1V2Error" | F1TransportError _ => "F1TransportError"
  | RegistryError _ => "RegistryError" | DuplicateCandidateClaim _ => "DuplicateCandidateClaim"
  | RegistryUnavailable _ => "RegistryUnavailable" | SessionError _ => "SessionError"
  | ResultPublicationError _ => "ResultPublicationError" | RawCaptureError _ => "RawCaptureError"
  | AdapterError name _ => name | ContractError _ => "ContractError"
  | ObservationContractError _ => "ObservationContractError"
  | SerialBridgeLockBusy _ => "SerialBridgeLockBusy" | PyTypeError => "TypeError"
  | PyKeyError _ => "KeyError" | PyValueError _ => "ValueError" | PyRuntimeError _ => "RuntimeError"
  | PyOSError _ => "OSError" | PyTimeoutError _ => "TimeoutError" | PyUnicodeError => "UnicodeError"
  | PyNameError => "UnboundLocalError" | PyStopIteration => "StopIteration"
  | OdinTransitionError _ => "OdinTransitionError" | OdinEndpointArrivalRace _ => "OdinEndpointArrivalRace"
  | OdinMeasuredEvidenceFailure _ _ _ _ _ => "OdinMeasuredEvidenceFailure"
  | UsbfsIdentityError _ => "UsbfsIdentityError" | UsbfsEndpointDeparture _ _ => "UsbfsEndpointDeparture"
  | UsbfsInventoryArrival _ => "UsbfsInventoryArrival"
  | UsbfsInventoryMembershipChanged _ _ => "UsbfsInventoryMembershipChanged"
  | ProtocolError _ => "ProtocolError" | PyEOFError _ => "EOFError" | PyStructError => "error" | PowerLoss => "PowerLoss"
  end.

(** [getattr(error, 'protocol_completed', False)] *)
Definition protocol_completed (e : pyexc) : bool :=
  match e with AdapterError _ b => b | _ => false end.

(** ** Loops and values *)

(** [any(f(x) for x in l)] and [[x for x in l if f(x)]] for an [f] that may raise *)
Fixpoint anyR {A} (f : A → result bool) (l : list A) : result bool :=
  match l with
  | [] => Ok false
  | x :: l' => let* b := f x in if b then Ok true else anyR f l'
  end.
Fixpoint filterR {A} (f : A → result bool) (l : list A) : result (list A) :=
  match l with
  | [] => Ok []
  | x :: l' => let* b := f x in let* r := filterR f l' in Ok (if b then x :: r else r)
  end.
Fixpoint mapR {A B} (f : A → result B) (l : list A) : result (list B) :=
  match l with
  | [] => Ok []
  | x :: l' => let* y := f x in let* ys := mapR f l' in Ok (y :: ys)
  end.
Definition is_empty_list {A} (l : list A) : bool := match l with [] => true | _ => false end.

(** [v[k1][k2]...] *)
Fixpoint at_ (v : json) (ks : list string) : result json :=
  match ks with
  | [] => Ok v
  | k :: ks' => match v with JObj d => let* x := idx d k in at_ x ks' | _ => Err PyTypeError end
  end.

(** [dict.update] *)
Definition dict_update (d : dict) (kvs : dict) : dict := foldl (λ d kv, dset kv.1 kv.2 d) d kvs.

Definition obj (v : json) : result dict := match v with JObj d => Ok d | _ => Err PyTypeError end.
Definition text (v : json) : result string := match v with JStr s => Ok s | _ => Err PyTypeError end.
Definition opt_json (o : option string) : json := match o with Some s => JStr s | None => JNull end.
