(* ===== verification/NativeCore.v ===== *)
(** * Native sessions: identity, budget and ownership

    What a session object of [s22plus_native_session_v3.py] reads and checks
    before it lets anything happen: the request, the grant and its clock, the
    journal, the consumption of the operation, and its closing as unused. *)

From stdpp Require Import base list strings gmap.
From Stdlib Require Import ZArith Lia Ascii.
From S2P Require Import Prelude PyStr Dir Json Digest HostFs Registry NativeRecords NativeSteps NativeWorld.
Open Scope string_scope.

(** ** Sessions *)

(** What a session object holds after construction *)
Record session := {
  se_dir : string;                      (** relative to the root *)
  se_grant_dir : string;
  se_request : dict;
  se_binding : string;
  se_grant : dict
}.

Section Session.
Context `{Digest} `{Adapter}.
Variable root_path : string.
Variable uuid4 : hostfs → string.
Variable loads : string → result json.
(** The readings of the boot clock, and the identity of this boot *)
Variable boottime : nat → Z.
Variable host_boot : string.

Definition se_path (s : session) : string := root_path ++ "/" ++ se_dir s.
Definition journal_dir (s : session) : string := se_dir s ++ "/journal".
Definition MAX_ROWS : nat := 256.

Definition request_of (s : session) (k : string) : W json := wlift (idx (se_request s) k).
Definition operation_of (s : session) : string := str_of (fld (se_request s) "operation").

Definition clock : W Z := λ w,
  let now := boottime (w_clock w) in
  (if (0 <? now)%Z then Ok now else Err (SessionError "host boot clock is unavailable"),
   {| w_fs := w_fs w; w_ad := w_ad w; w_clock := S (w_clock w); w_trace := w_trace w |}).

(** [Session.__init__] on an existing journal directory *)
Definition open_session (fs : hostfs) (dir : string) : result session :=
  let* request := read loads fs dir "operation.json" in
  let* receipt := pin root_path fs dir "operation.json" in
  match request with
  | JObj r =>
      let* g := idx r "grant" in
      let* at_ := verify root_path fs g in
      let* grant := read loads fs at_.1 at_.2 in
      match grant, receipt with
      | JObj gd, JObj rd =>
          Ok {| se_dir := dir; se_grant_dir := at_.1; se_request := r;
                se_binding := str_of (fld rd "sha256"); se_grant := gd |}
      | _, _ => Err PyTypeError
      end
  | _ => Err PyTypeError
  end.

Definition journal_rows (s : session) (fs : hostfs) : result (list dict) :=
  rows root_path loads MAX_ROWS fs (journal_dir s).
Definition journal_append (s : session) (event : string) (data : dict) : W json :=
  _ ← seen (λ fs, journal_rows s fs);
  now ← clock;
  onfs (append_row root_path uuid4 loads MAX_ROWS (journal_dir s) now event data).

(** [live_grant] *)
Definition live_grant_of (grant : dict) (recovery : bool) : W unit :=
  schema ← wlift (idx grant "schema");
  boot ← wlift (if is_str schema SCHEMA then idx grant "host_boot" else Ok JNull);
  _ ← demand (is_str schema SCHEMA && is_str boot host_boot) "native grant host epoch differs";
  opened ← wlift (idx grant "opened_ns");
  deadline ← wlift (if strict_int opened then idx grant "deadline_ns" else Ok JNull);
  _ ← demand (strict_int opened && strict_int deadline && (int_of opened <? int_of deadline)%Z)
        "native grant clock range differs";
  if recovery then mret tt
  else
    now ← clock;
    demand ((int_of opened <=? now)%Z && (now <? int_of deadline)%Z)
      "original native task grant expired".
Definition live_grant (s : session) : bool → W unit := live_grant_of (se_grant s).

(** [check] *)
Definition check (s : session) (recovery : bool) : W unit :=
  receipt ← seen (λ fs, pin root_path fs (se_dir s) "operation.json");
  _ ← demand (match receipt with JObj d => is_str (fld d "sha256") (se_binding s) | _ => false end)
        "operation identity changed";
  g ← request_of s "grant";
  _ ← seen (λ fs, verify root_path fs g);
  _ ← live_grant s recovery;
  _ ← seen (λ fs, nreq (negb (present fs (se_grant_dir s) "closed.json") || recovery)
                    "native task grant is closed");
  ask (λ w, ad_check (w_ad w) (se_request s) recovery).

(** ** Reading the journal *)

Definition event_is (e : string) (row : dict) : bool := is_str (fld row "event") e.
Definition row_data (row : dict) : dict := match fld row "data" with JObj d => d | _ => [] end.
(** [row['event'] == e and row['data']['step'] == name] *)
Definition row_of_step (e name : string) (row : dict) : result bool :=
  if event_is e row then let* v := idx (row_data row) "step" in Ok (is_str v name) else Ok false.

Definition has_effect (s : session) : W bool :=
  rs ← seen (journal_rows s);
  mret (existsb (event_is "effect-intent") rs).

Definition has_recovery_basis (s : session) : W bool :=
  effect ← has_effect s;
  if effect : bool then mret true
  else ask (λ w, Ok (ad_native_attempt_started (w_ad w) (se_request s))).

Definition consumed_value (s : session) (grant : json) : json :=
  JObj [("schema", JStr SCHEMA); ("operation_sha256", JStr (se_binding s)); ("grant", grant)].

(** [consumed() is not None] *)
Definition consumed (s : session) : W bool :=
  fs ← ask (λ w, Ok (w_fs w));
  if present fs (se_dir s) "consumed.json" then
    value ← seen (λ fs, read loads fs (se_dir s) "consumed.json");
    g ← request_of s "grant";
    _ ← demand (py_eqb value (consumed_value s g)) "native operation consumption differs";
    mret true
  else mret false.

(** The value of [unused.json] for the journal as it is *)
Definition unused_value (s : session) (rs : list dict) : W json :=
  tail ← seen (λ fs, match length rs with
                     | O => Ok JNull
                     | S i => pin root_path fs (journal_dir s) (journal_name i)
                     end);
  mret (JObj [("schema", JStr SCHEMA); ("operation_sha256", JStr (se_binding s));
              ("journal_rows", JInt (Z.of_nat (length rs))); ("journal_tail", tail)]).

Definition unused (s : session) : W bool :=
  fs ← ask (λ w, Ok (w_fs w));
  if present fs (se_dir s) "unused.json" then
    rs ← seen (journal_rows s);
    value ← seen (λ fs, read loads fs (se_dir s) "unused.json");
    effect ← has_effect s;
    _ ← demand (negb effect) "unused native operation no longer matches its closed journal";
    expected ← unused_value s rs;
    _ ← demand (py_eqb value expected) "unused native operation no longer matches its closed journal";
    mret true
  else mret false.

Definition retire_owner (s : session) : W unit :=
  onfs (retire_f1_owner (se_path s) (se_binding s)).
Definition require_owner (s : session) : W unit :=
  seen (λ fs, require_f1_owner fs (se_path s) (se_binding s)).

Definition close_unused (s : session) : W json :=
  basis ← has_recovery_basis s;
  _ ← demand (negb basis) "an effect or uncertain native attempt requires terminal closure";
  rs ← seen (journal_rows s);
  done_ ← unused s;
  _ ← (if done_ : bool then mret tt
       else v ← unused_value s rs;
            _ ← onfs (publish root_path uuid4 (se_dir s) "unused.json" v); mret tt);
  fs ← ask (λ w, Ok (w_fs w));
  _ ← (if present fs RESEARCH OWNER_NAME then _ ← require_owner s; retire_owner s else mret tt);
  op ← request_of s "operation";
  mret (JObj [("state", JStr "STOPPED_BEFORE_EFFECT"); ("operation_consumed", JBool false);
              ("native_health", JStr (if is_str op "bootstrap" then "NOT_MEASURED" else "UNPROVED"))]).

(** [grant_path.parent.glob('operation-*/consumed.json')] *)
Definition sibling_dirs (s : session) (fs : hostfs) : list string :=
  names_by (λ d, match strip_prefix (se_grant_dir s ++ "/operation-") d with
                 | Some rest => negb (contains "/" rest) && present fs d "consumed.json"
                 | None => false
                 end) (hf_dirs fs).

(** One sibling: whether it is charged to the grant's budget *)
Definition sibling_charge (s : session) (dir : string) : W nat :=
  other ← seen (λ fs, open_session fs dir);
  g ← request_of s "grant";
  g' ← request_of other "grant";
  _ ← demand (py_eqb g' g) "sibling operation uses a different grant";
  _ ← consumed other;
  free ← unused other;
  mret (if free : bool then 0 else 1)%nat.

Fixpoint total_charge (s : session) (dirs : list string) : W nat :=
  match dirs with
  | [] => mret 0%nat
  | d :: dirs' => n ← sibling_charge s d; m ← total_charge s dirs'; mret (n + m)%nat
  end.

Definition consume (s : session) : W unit :=
  already ← consumed s;
  if already : bool then require_owner s
  else
    _ ← check s false;
    fs ← ask (λ w, Ok (w_fs w));
    charged ← total_charge s (sibling_dirs s fs);
    budget ← wlift (idx (se_grant s) "operation_budget");
    _ ← wlift (match budget with
               | JInt n => nreq (Z.of_nat charged <? n)%Z "native task operation budget exhausted"
               | _ => Err PyTypeError
               end);
    fs ← ask (λ w, Ok (w_fs w));
    _ ← (if present fs RESEARCH OWNER_NAME then require_owner s
         else onfs (begin_f1_owner (se_path s) (se_binding s)));
    g ← request_of s "grant";
    _ ← onfs (publish root_path uuid4 (se_dir s) "consumed.json" (consumed_value s g));
    mret tt.
End Session.
