(* ===== verification/NativeClaims.v ===== *)
(** * One-shot claims and the GPT state of an operation

    [s22plus_native_gpt_session_v1.py] and [s22plus_native_ext4_session_v1.py],
    the parts that only read the journal and the recorded results: which GPT and
    reset effects were intended, the selected recovery path, what an Android
    transfer may rely on, and the claims that make a partition effect happen at
    most once per target, whatever the operation. *)

From stdpp Require Import base list strings gmap.
From Stdlib Require Import ZArith Lia Ascii.
From S2P Require Import Prelude PyStr Dir Json Digest HostFs Registry NativeRecords NativeSteps NativeWorld NativeCore.
Open Scope string_scope.

Definition GPT_CLAIMS : string := "workspace/private/runs/s22plus-native-gpt-v1/claims".
Definition EXT4_CLAIMS : string := "workspace/private/runs/s22plus-native-ext4-v1/claims".
Definition FIRST_LBA : Z := 12115456.
Definition LAST_LBA : Z := 62305023.

Section Claims.
Context `{Digest} `{Adapter}.
Variable root_path : string.
Variable uuid4 : hostfs → string.
Variable loads : string → result json.
Variable boottime : nat → Z.

Notation journal_rows := (journal_rows root_path loads).
Notation clock := (clock boottime).

(** ** What was intended *)

(** [intents(adapter, name)] *)
Definition intents (s : session) (name : string) (fs : hostfs) : result (list dict) :=
  let* rs := journal_rows s fs in
  let* ms := filterR (row_of_step "effect-intent" name) rs in
  Ok (map row_data ms).

Definition intended (s : session) (name : string) : W bool :=
  seen (λ fs, let* l := intents s name fs in Ok (negb (is_empty_list l))).
Definition gpt_intended (s : session) : W bool := intended s "gpt-apply".
Definition reset_intended (s : session) : W bool := intended s "factory-reset".

(** ** The selected recovery *)

Definition recovery_choices (rs : list dict) : list dict :=
  map row_data (filter (λ r, event_is "gpt-recovery-selected" r = true) rs).

Definition recovery_plan (basis : json) (android_step : json) (reset : bool) : result (list Step) :=
  if is_str basis "initialized-proposed" then
    let* name := text android_step in
    Ok [step3 name "transfer" "A"; step3 "recovery-health" "health" "A"]
  else
    do* nreq (is_str basis "restore-original") "unknown GPT recovery path" in
    Ok ([step3 "recover-native" "transfer" "N"; step4 "gpt-restore" "observe" "N" (Some "detach")]
        ++ (if reset then [step3 "recovery-factory-reset" "physical" "N";
                           step4 "gpt-after-original-reset" "observe" "N" (Some "detach")] else [])
        ++ [step4 "gpt-recovery-download" "observe" "N" (Some "download");
            step3 "recover-android" "transfer" "A"; step3 "recovery-health" "health" "A"])%list.

Definition recovery_steps (s : session) : W (list Step) :=
  rs ← seen (journal_rows s);
  match recovery_choices rs with
  | [choice] =>
      basis ← wlift (idx choice "basis");
      android ← wlift (if is_str basis "initialized-proposed" then idx choice "android_step" else Ok JNull);
      reset ← (if is_str basis "initialized-proposed" then mret false else reset_intended s);
      wlift (recovery_plan basis android reset)
  | _ => wraise (SessionError "GPT recovery has no unique selected path")
  end.

(** ** Claims *)

Definition request_at (s : session) (ks : list string) : W json := wlift (at_ (JObj (se_request s)) ks).
Definition operation_receipt (s : session) : W json := seen (λ fs, pin root_path fs (se_dir s) "operation.json").
Definition configuration (s : session) : W dict :=
  ask (λ w, ad_configuration (w_ad w) (se_request s)).

Definition claim_name (key : json) : result string :=
  match canonical key with
  | Some c => Ok (hexdigest (c ++ nl) ++ ".json")
  | None => Err (PyValueError "Out of range float values are not JSON compliant")
  end.

(** [claim_path] of either module, below its directory *)
Definition gpt_claim (s : session) : W string :=
  task ← configuration s;
  target ← wlift (idx task "target");
  proposal ← request_at s ["N"; "gpt"; "proposal"; "sha256"];
  wlift (claim_name (JObj [("target", target); ("proposal_sha256", proposal)])).
Definition ext4_claim (s : session) : W string :=
  task ← configuration s;
  target ← wlift (idx task "target");
  layout ← request_at s ["N"; "gpt"; "proposal"; "sha256"];
  wlift (claim_name (JObj [("target", target); ("first_lba", JInt FIRST_LBA); ("last_lba", JInt LAST_LBA);
                           ("layout", layout)])).

Definition claim_gpt (s : session) (step : Step) : W unit :=
  op ← request_of s "operation";
  _ ← demand (is_str op "gpt-reserve" && elem_str (sp_name step) MUTATING) "unselected GPT effect";
  name ← gpt_claim s;
  operation ← operation_receipt s;
  proposal ← request_at s ["N"; "gpt"; "proposal"];
  ap ← request_at s ["N"; "ap"];
  if sp_name step =? "gpt-apply" then
    _ ← onfs (mkdirs GPT_CLAIMS);
    now ← clock;
    _ ← onfs (publish root_path uuid4 GPT_CLAIMS name
          (JObj [("schema", JStr "s22plus-native-gpt-claim-v1"); ("operation", operation);
                 ("proposal", proposal); ("N", ap); ("boottime_ns", JInt now)]));
    mret tt
  else
    v ← seen (λ fs, read loads fs GPT_CLAIMS name);
    value ← wlift (obj v);
    schema ← wlift (idx value "schema");
    _ ← demand (is_str schema "s22plus-native-gpt-claim-v1"
                && py_eqb (fld value "operation") operation && py_eqb (fld value "proposal") proposal
                && py_eqb (fld value "N") ap) "GPT restore has no original one-shot apply claim";
    applied ← gpt_intended s;
    demand applied "GPT restore has no original one-shot apply claim".

Definition claim_ext4 (s : session) (step : Step) : W unit :=
  op ← request_of s "operation";
  _ ← demand (is_str op "native-ext4" && (sp_name step =? "experiment-first")) "unselected format effect";
  name ← ext4_claim s;
  _ ← onfs (mkdirs EXT4_CLAIMS);
  operation ← operation_receipt s;
  binding ← request_at s ["N"; "filesystem"; "binding"];
  now ← clock;
  _ ← onfs (publish root_path uuid4 EXT4_CLAIMS name
        (JObj [("schema", JStr "s22plus-native-ext4-claim-v1"); ("operation", operation);
               ("binding", binding); ("boottime_ns", JInt now)]));
  mret tt.

(** ** What an Android transfer after the GPT effect relies on *)

Definition find_step (name : string) (plan : list Step) : result Step :=
  match List.find (λ st, sp_name st =? name) plan with Some st => Ok st | None => Err PyStopIteration end.

(** [_proved]: the recorded and revalidated result of a phase *)
Definition proved (s : session) (name : string) : W json :=
  _ ← seen (λ fs, nreq (present fs (se_dir s) (name ++ ".json"))
                    ("required GPT phase is not complete: " ++ name));
  rs ← seen (journal_rows s);
  plan ← (if is_empty_list (recovery_choices rs) then mret gpt_steps
          else more ← recovery_steps s; mret (gpt_steps ++ more)%list);
  step ← wlift (find_step name plan);
  value ← seen (λ fs, read loads fs (se_dir s) (name ++ ".json"));
  _ ← ask (λ w, ad_validate_result (w_ad w) step value (se_request s));
  mret value.

Definition proved_gpt (s : session) (name : string) : W json :=
  v ← proved s name; wlift (at_ v ["proof"; "gpt"]).

(** [geometry['filesystem']['status'] == 'PASS_GEOMETRY_ONLY'] *)
Definition geometry_passed (geometry : json) : result bool :=
  let* st := at_ geometry ["filesystem"; "status"] in Ok (is_str st "PASS_GEOMETRY_ONLY").

(** [android_basis]: the layout and the initialization an Android effect may assume *)
Definition basis_value (layout initialization : string) (rest : dict) : dict :=
  ([("layout", JStr layout); ("initialization", JStr initialization)] ++ rest)%list.

Definition android_basis (s : session) : W dict :=
  applied ← gpt_intended s;
  if negb applied then mret (basis_value "original" "unchanged" [])
  else
    native ← intended s "recover-native";
    restoring ← (if native : bool then mret true else intended s "gpt-restore");
    if restoring : bool then
      restored ← proved_gpt s "gpt-restore";
      pair ← wlift (at_ restored ["final_pair"]);
      _ ← demand (is_str pair "original") "restoration did not prove complete original GPT";
      reset ← reset_intended s;
      if reset : bool then
        _ ← proved s "recovery-factory-reset";
        geometry ← proved_gpt s "gpt-after-original-reset";
        ok ← wlift (geometry_passed geometry);
        _ ← demand ok "original userdata reset is unproved";
        filesystem ← wlift (at_ geometry ["filesystem"]);
        mret (basis_value "original" "restorative-reset" [("geometry", filesystem)])
      else
        metadata ← wlift (at_ restored ["full_metadata"]);
        mret (basis_value "original" "unchanged" [("restoration", metadata)])
    else
      _ ← proved s "factory-reset";
      geometry ← proved_gpt s "gpt-after-reset";
      pair ← wlift (at_ geometry ["final_pair"]);
      ok ← wlift (if is_str pair "proposed" then geometry_passed geometry else Ok false);
      _ ← demand ok "reduced userdata initialization is unproved";
      filesystem ← wlift (at_ geometry ["filesystem"]);
      mret (basis_value "proposed" "stock-reset" [("geometry", filesystem)]).

(** [recovery_terminal_covers_effects] *)
Definition is_android (d : dict) : result bool :=
  let* action := idx d "action" in
  if is_str action "transfer" then let* role := idx d "role" in Ok (is_str role "A") else Ok false.

Definition covers_reboot (selected : list Step) (effects : list dict) : result bool :=
  let* flags := mapR is_android effects in
  match filter (λ i, flags !! i = Some true) (seq 0 (length effects)) with
  | [i] =>
      match effects !! i, last effects, selected with
      | Some a, Some e, st :: _ =>
          let* name := idx a "step" in
          if negb (is_str name (sp_name st) && (length effects =? i + 2)%nat) then Ok false
          else
            let* step := idx e "step" in let* action := idx e "action" in let* role := idx e "role" in
            Ok (is_str step "android-reboot" && is_str action "reboot" && is_str role "A")
      | _, _, _ => Ok false
      end
  | _ => Ok false
  end.

Definition terminal_covers (s : session) (selected : list Step) (effects : list dict) : W unit :=
  op ← request_of s "operation";
  _ ← demand (is_str op "gpt-reserve"
              && match selected with
                 | [t; h] => (sp_action t =? "transfer") && (sp_role t =? "A")
                             && (sp_action h =? "health") && (sp_role h =? "A")
                 | _ => false
                 end) "GPT recovery terminal roles differ";
  ok ← wlift (covers_reboot selected effects);
  _ ← demand ok "fresh Android health does not cover the latest GPT operation effect";
  _ ← android_basis s;
  mret tt.
End Claims.
