(* ===== verification/NativeDrive.v ===== *)
(** * Driving one operation

    [s22plus_native_session_v3.py]: the durable intent, the steps the adapter
    performs, their results, the terminal record and the recovery to Android. *)

From stdpp Require Import base list strings gmap.
From Stdlib Require Import ZArith Lia Ascii.
From S2P Require Import Prelude PyStr Dir Json Digest HostFs Registry NativeRecords NativeSteps NativeWorld NativeCore NativeClaims.
Open Scope string_scope.

Section Drive.
Context `{Digest} `{Adapter}.
Variable root_path : string.
Variable uuid4 : hostfs → string.
Variable loads : string → result json.
Variable boottime : nat → Z.
Variable host_boot : string.

Notation journal_rows := (journal_rows root_path loads).
Notation journal_append := (journal_append root_path uuid4 loads boottime).
Notation live_grant := (live_grant boottime host_boot).
Notation check := (check root_path boottime host_boot).
Notation has_recovery_basis := (has_recovery_basis root_path loads).
Notation consumed := (consumed loads).
Notation unused := (unused root_path loads).
Notation consume := (consume root_path uuid4 loads boottime host_boot).
Notation require_owner := (require_owner root_path).
Notation retire_owner := (retire_owner root_path).
Notation claim_gpt := (claim_gpt root_path uuid4 loads boottime).
Notation claim_ext4 := (claim_ext4 root_path uuid4 boottime).
Notation terminal_covers := (terminal_covers root_path loads).

(** ** The durable intent *)

Definition step_of_row (step : Step) : dict :=
  [("step", JStr (sp_name step)); ("action", JStr (sp_action step)); ("role", JStr (sp_role step))].

(** [intent]: refused when the step already has one; the journal record is durable
    before the callback returns. *)
Definition intent (s : session) (step : Step) (recovery : bool) (d : detail ad_state) : W json :=
  _ ← check s recovery;
  closed ← unused s;
  _ ← demand (negb closed) "unused operation is closed";
  rs ← seen (journal_rows s);
  replay ← wlift (anyR (row_of_step "effect-intent" (sp_name step)) rs);
  _ ← demand (negb replay)
        "native effect already has an intent; replay forbidden";
  _ ← (if recovery then
         _ ← require_owner s;
         basis ← has_recovery_basis s;
         demand basis "no original effect or native attempt exists to recover"
       else
         _ ← demand (negb (existsb (event_is "stopped") rs)) "research effects are closed";
         consume s);
  _ ← (if sp_action step =? "transfer" then onad (ad_claim step (se_request s) (se_binding s))
       else mret tt);
  _ ← (if elem_str (sp_name step) MUTATING then claim_gpt s step else mret tt);
  op ← request_of s "operation";
  _ ← (if is_str op "native-ext4" && (sp_name step =? "experiment-first") then claim_ext4 s step
       else mret tt);
  extra ← match d with
          | Plain o => mret (default [] o)
          | Deferred f =>
              _ ← demand (sp_action step =? "download")
                    "deferred intent detail is only for Android Download";
              v ← ask (λ w, f (w_ad w));
              _ ← live_grant s recovery;
              mret v
          end;
  r ← journal_append s "effect-intent"
        (step_of_row step ++ [("ending", opt_json (sp_ending step)); ("recovery", JBool recovery);
                              ("detail", JObj extra)])%list;
  _ ← match d with Plain _ => mret tt | Deferred _ => live_grant s recovery end;
  _ ← emit (TGrant (sp_name step));
  mret r.

Definition invoke (s : session) (step : Step) (recovery : bool) (c : callback) (d : detail ad_state)
    : W json :=
  match c with
  | CIntent => intent s step recovery d
  | CGuard => _ ← check s recovery; mret JNull
  | CNone => wraise PyTypeError
  end.

(** The adapter's program of a step, with the callbacks it was given *)
Fixpoint run_prog (s : session) (step : Step) (recovery : bool) (main extra : callback)
    (p : prog ad_state) : W json :=
  match p with
  | PDone v => mret v
  | PFail e => wraise e
  | PIo u k => st ← move u; run_prog s step recovery main extra (k st)
  | PEffect u k =>
      _ ← onfs tick;
      _ ← emit (TEffect (sp_name step));
      st ← move u;
      run_prog s step recovery main extra (k st)
  | PGuard k => _ ← check s recovery; run_prog s step recovery main extra k
  | PDispatch d k =>
      r ← invoke s step recovery main d; run_prog s step recovery main extra (k r)
  | PExtra d k =>
      r ← invoke s step recovery extra d; run_prog s step recovery main extra (k r)
  | PConsume k =>
      _ ← (if sp_name step =? "native-storage" then consume s else wraise PyTypeError);
      run_prog s step recovery main extra k
  end.

(** ** Results *)

Definition result_name (step : Step) : string := sp_name step ++ ".json".

Definition record_result (s : session) (step : Step) (value : json) : W unit :=
  fs ← ask (λ w, Ok (w_fs w));
  receipt ←
    (if present fs (se_dir s) (result_name step) then
       old ← seen (λ fs, read loads fs (se_dir s) (result_name step));
       _ ← demand (py_eqb old value) "existing step result differs from raw proof";
       seen (λ fs, pin root_path fs (se_dir s) (result_name step))
     else onfs (publish root_path uuid4 (se_dir s) (result_name step) value));
  rs ← seen (journal_rows s);
  matches ← wlift (filterR (row_of_step "step-complete" (sp_name step)) rs);
  match matches with
  | [] =>
      _ ← journal_append s "step-complete" [("step", JStr (sp_name step)); ("result", receipt)];
      mret tt
  | [m] =>
      old ← wlift (idx (row_data m) "result");
      demand (py_eqb old receipt) "native completion receipt differs"
  | _ => wraise (SessionError "duplicate native step completion")
  end.

(** [result] *)
Definition result_ (s : session) (step : Step) (value : json) : W json :=
  _ ← ask (λ w, ad_validate_result (w_ad w) step value (se_request s));
  _ ← try_ (record_result s step value) (λ _, wraise (ResultPublicationError (sp_name step)));
  mret value.

(** [perform]; the steps of unselected operations are refused. *)
Definition action_selected (request : dict) (operation action : string) : result unit :=
  if action =? "early-evidence" then
    nreq (operation =? "debian-early") "unselected early observation"
  else if action =? "integrated-start" then
    nreq (operation =? "debian-integrated") "unselected integrated start"
  else if elem_str action ["debian-health"; "debian-shutdown"; "debian-reboot"] then
    do* nreq (elem_str operation ["debian-handoff"; "debian-integrated"; "debian-autoboot"])
          "unselected Debian access" in
    nreq (negb (action =? "debian-reboot") || reboot_selected request)
      "unselected ordinary reboot"
  else nreq (elem_str action ["download"; "reboot"; "transfer"; "observe"; "health"])
         "unknown native step".

Definition perform (s : session) (step : Step) (recovery : bool) : W json :=
  _ ← check s recovery;
  _ ← seen (λ fs, nreq (negb (present fs (se_dir s) (result_name step)))
                    "native step result already exists");
  _ ← journal_append s "step-start" (step_of_row step);
  let op := operation_of s in
  _ ← wlift (action_selected (se_request s) op (sp_action step));
  value ← run_prog s step recovery (main_callback op step) (extra_callback op step)
            (ad_perform op step (se_request s));
  result_ s step value.

(** ** Closing *)

Definition completed_step (s : session) (rs : list dict) (step : Step) : W json :=
  matches ← wlift (filterR (row_of_step "step-complete" (sp_name step)) rs);
  match matches with
  | [m] =>
      receipt ← wlift (idx (row_data m) "result");
      at_ ← seen (λ fs, verify root_path fs receipt);
      _ ← demand ((at_.1 =? se_dir s) && (at_.2 =? result_name step))
            "native step receipt belongs elsewhere";
      value ← seen (λ fs, read loads fs at_.1 at_.2);
      _ ← ask (λ w, ad_validate_result (w_ad w) step value (se_request s));
      mret value
  | _ => wraise (SessionError "native operation has no unique completed step")
  end.

Definition completed (s : session) (selected : list Step) : W (list json) :=
  rs ← seen (journal_rows s);
  values ← mapW (completed_step s rs) selected;
  _ ← ask (λ w, ad_validate_sequence (w_ad w) selected values (se_request s));
  mret values.

(** The data of the intents, in journal order, and the names of their steps *)
Definition intent_data (rs : list dict) : list dict :=
  map row_data (filter (λ r, event_is "effect-intent" r = true) rs).
Definition intent_names (rs : list dict) : result (list json) :=
  mapR (λ d, idx d "step") (intent_data rs).

(** Recovery must end with the Android transfer the journal ends with. *)
Definition recovery_covers (selected : list Step) (effects : list dict) : result bool :=
  match last effects, selected with
  | Some e, step :: _ =>
      let* role := idx e "role" in
      if negb (is_str role "A") then Ok false
      else
        let* action := idx e "action" in
        if negb (is_str action "transfer") then Ok false
        else let* name := idx e "step" in Ok (is_str name (sp_name step))
  | _, _ => Ok false
  end.

Definition close (s : session) (selected : list Step) (recovered : bool) : W json :=
  values ← completed s selected;
  op ← request_of s "operation";
  _ ← (if is_str op "storage-census" && negb recovered then
         c ← consumed s;
         demand c "storage census has no original operation consumption"
       else mret tt);
  rs ← seen (journal_rows s);
  let effects := intent_data rs in
  _ ← (if recovered then
         covered ← wlift (recovery_covers selected effects);
         if negb covered && is_str op "gpt-reserve" then
           terminal_covers s selected effects
         else demand covered "recovery terminal does not cover the latest effect"
       else
         names ← wlift (intent_names rs);
         demand (py_eqb (JList names)
                   (JList (map (λ st, JStr (sp_name st))
                             (filter (λ st, effectful (operation_of s) st = true) selected))))
           "normal terminal omits or differs from a durable effect");
  t ← ask (λ w, ad_terminal (w_ad w) selected values (se_request s) recovered);
  g ← request_of s "grant";
  let terminal := JObj (dict_update t
    [("schema", JStr SCHEMA); ("operation_sha256", JStr (se_binding s)); ("grant", g);
     ("recovered", JBool recovered); ("research_closed", JBool true)]) in
  fs ← ask (λ w, Ok (w_fs w));
  _ ← (if present fs (se_dir s) "terminal.json" then
         old ← seen (λ fs, read loads fs (se_dir s) "terminal.json");
         demand (py_eqb old terminal) "native terminal differs from retained evidence"
       else _ ← onfs (publish root_path uuid4 (se_dir s) "terminal.json" terminal); mret tt);
  _ ← (if is_str op "bootstrap" && negb recovered then
         r ← seen (λ fs, pin root_path fs (se_dir s) "terminal.json");
         onad (ad_admit (se_request s) r)
       else mret tt);
  _ ← retire_owner s;
  mret terminal.

(** ** Recovery *)

Definition android_intents (rs : list dict) : result (list dict) :=
  filterR (λ d, let* action := idx d "action" in
                if is_str action "transfer" then let* role := idx d "role" in Ok (is_str role "A")
                else Ok false) (intent_data rs).

Definition is_android_step (name : json) (step : Step) : bool :=
  is_str name (sp_name step) && (sp_action step =? "transfer") && (sp_role step =? "A").

(** Every step's value from retained raw proof, validated as one sequence *)
Definition reconstruct (s : session) (plan : list Step) : W (list json) :=
  values ← mapW (λ st, ask (λ w, ad_recover_step_result (w_ad w) st (se_request s))) plan;
  _ ← mapW (λ sv, ask (λ w, ad_validate_result (w_ad w) sv.1 sv.2 (se_request s))) (zip plan values);
  _ ← ask (λ w, ad_validate_sequence (w_ad w) plan values (se_request s));
  mret values.

Definition record_all (s : session) (plan : list Step) (values : list json) : W unit :=
  _ ← mapW (λ sv, result_ s sv.1 sv.2) (zip plan values); mret tt.

(** [try: values = ... except (...): None] *)
Definition try_reconstruct (s : session) (guard_ok : bool) (msg : string) (plan : list Step)
    : W (option (list json)) :=
  except proof_error (_ ← demand guard_ok msg; reconstruct s plan).

Definition recover_transfer (s : session) (android : list dict) : W json :=
  _ ← check s true;
  _ ← require_owner s;
  basis ← has_recovery_basis s;
  _ ← demand basis "there is no original effect or native attempt to recover";
  name ← wlift (match android with
                | d :: _ => let* v := idx d "step" in
                            match v with JStr n => Ok n | _ => Err PyTypeError end
                | [] => Ok "recover-android"
                end);
  let transfer := step3 name "transfer" "A" in
  let final := step3 "recovery-health" "health" "A" in
  _ ← (if is_empty_list android then perform s transfer true
       else
         v ← ask (λ w, ad_recover_transfer_result (w_ad w) transfer (se_request s));
         result_ s transfer v);
  fs ← ask (λ w, Ok (w_fs w));
  _ ← (if present fs (se_dir s) (result_name final) then mret JNull else perform s final true);
  close s [transfer; final] true.

Definition last_step (plan : list Step) : result Step :=
  match last plan with Some st => Ok st | None => Err (PyValueError "tuple index out of range") end.

(** A transfer of Android that no normal step makes *)
Definition later_android (android : list dict) (normal : list Step) : result bool :=
  match android with
  | d :: _ => let* name := idx d "step" in Ok (negb (existsb (is_android_step name) normal))
  | [] => Ok false
  end.

(** [_recover_android] *)
Definition recover_android (s : session) (attended : bool) : W json :=
  _ ← demand attended "original A recovery requires actual attendance";
  _ ← seen (λ fs, nreq (negb (present fs (se_dir s) "terminal.json"))
                    "terminal already published; only H0 close repair remains");
  normal ← wlift (operation_steps (se_request s));
  rs ← seen (journal_rows s);
  android ← wlift (android_intents rs);
  _ ← demand (length android <=? 1)%nat "multiple Android transfer intents";
  later ← wlift (later_android android normal);
  final ← wlift (last_step normal);
  fs ← ask (λ w, Ok (w_fs w));
  recorded ← (if present fs (se_dir s) (result_name final) then mret true
              else wlift (anyR (row_of_step "step-complete" (sp_name final)) rs));
  proved ← (if recorded : bool then mret true
            else ask (λ w, Ok (ad_final_protocol_completed (w_ad w) final (se_request s))));
  values ← try_reconstruct s (negb later) "a later Android intent takes precedence over native proof"
             normal;
  match values with
  | Some vs => _ ← record_all s normal vs; close s normal false
  | None =>
      _ ← demand (negb (proved && negb later))
            "recorded final proof needs H0 repair; read failure does not authorize A";
      recover_transfer s android
  end.
End Drive.
