(* ===== verification/NativePhased.v ===== *)
(** * Coordinators with a physical pause

    [s22plus_debian_handoff_session_v1.py] and the classes derived from it (the
    log calibration, the early, the integrated and the automatic Debian boots):
    the steps up to the Android transfer, a pause for the operator, and the
    continuation.  What the derived classes override is the record [phases].

    [s22plus_native_gpt_session_v1.Coordinator]: the phased operation with its
    physical stages, the Android setup reported by the operator, and the
    recovery that restores the original GPT before it installs Android. *)

From stdpp Require Import base list strings gmap.
From Stdlib Require Import ZArith Lia Ascii.
From S2P Require Import Prelude PyStr PyText Dir Json Digest HostFs Registry NativeRecords NativeSteps NativeWorld NativeCore NativeClaims NativeDrive.
Open Scope string_scope.

(** What a coordinator class sets and overrides *)
Record phases := {
  ph_ready_file : string;
  ph_subject_field : string;
  ph_subject_step : string;
  ph_steps : dict → result (list Step);
  ph_cleans : bool;                       (** [cleanup] retires the network access *)
  ph_automatic : dict → bool;             (** [prepare_automatic_return] applies *)
  ph_retires : dict → bool                (** [execute] cleans up after the Android transfer *)
}.

Definition physical_phases : phases := {|
  ph_ready_file := "debian-return-ready.json"; ph_subject_field := "shutdown";
  ph_subject_step := "debian-shutdown"; ph_steps := λ _, Ok handoff_steps; ph_cleans := true;
  ph_automatic := λ _, false; ph_retires := λ _, false |}.
Definition log_phases : phases := {|
  ph_ready_file := "native-log-return-ready.json"; ph_subject_field := "observation";
  ph_subject_step := "log-calibration"; ph_steps := λ _, Ok log_steps; ph_cleans := false;
  ph_automatic := λ _, false; ph_retires := λ _, false |}.
Definition early_phases : phases := {|
  ph_ready_file := "debian-early-return-ready.json"; ph_subject_field := "observation";
  ph_subject_step := "debian-early-evidence"; ph_steps := λ _, Ok early_steps; ph_cleans := false;
  ph_automatic := λ _, false; ph_retires := λ _, false |}.
Definition integrated_phases : phases := {|
  ph_ready_file := ph_ready_file physical_phases; ph_subject_field := ph_subject_field physical_phases;
  ph_subject_step := ph_subject_step physical_phases; ph_steps := λ _, Ok integrated_steps;
  ph_cleans := true; ph_automatic := λ _, false; ph_retires := λ _, false |}.
Definition autoboot_phases : phases := {|
  ph_ready_file := ph_ready_file physical_phases; ph_subject_field := ph_subject_field physical_phases;
  ph_subject_step := ph_subject_step physical_phases; ph_steps := operation_steps;
  ph_cleans := true; ph_automatic := download_selected; ph_retires := apt_selected |}.

Section Phased.
Context `{Digest} `{Adapter}.
Variable root_path : string.
Variable uuid4 : hostfs → string.
Variable loads : string → result json.
Variable boottime : nat → Z.
Variable host_boot : string.
(** [str(error)[:4096]] and [getattr(error, 'transfer_failure', None)] *)
Variable exc_text : pyexc → string.
Variable transfer_failure : pyexc → json.
Variable is_repo : bool.
Variable resolve : string → string.

Notation journal_rows := (journal_rows root_path loads).
Notation journal_append := (journal_append root_path uuid4 loads boottime).
Notation check := (check root_path boottime host_boot).
Notation close := (close root_path uuid4 loads).
Notation result_ := (result_ root_path uuid4 loads boottime).
Notation perform := (perform root_path uuid4 loads boottime host_boot).

(** [registry.target_session_lease(root)] *)
Definition lease : W unit := seen (λ fs, target_session_lease is_repo root_path resolve fs false).

Definition cleanup (s : session) : W unit := _ ← onad (ad_cleanup (se_request s)); mret tt.

(** The adapter's preflight, and its record in the journal *)
Definition preflight (s : session) : W unit :=
  _ ← run_prog root_path uuid4 loads boottime host_boot s (step3 "preflight" "preflight" "") false
        CNone CNone (ad_preflight (se_request s));
  _ ← journal_append s "preflight-complete" [];
  mret tt.

Variable ph : phases.

Definition ph_cleanup (s : session) : W unit := if ph_cleans ph then cleanup s else mret tt.

Definition prepare_automatic_return (s : session) : W bool :=
  if ph_automatic ph (se_request s) then
    _ ← onad (ad_return_request (se_request s)); mret true
  else mret false.

Definition PHYSICAL_WINDOW : Z := 600000000000.

(** The pause before the Android transfer *)
Definition ready_value (s : session) (operation subject : json) (now : Z) : json :=
  JObj [("operation", operation); (ph_subject_field ph, subject); ("requested_ns", JInt now);
        ("deadline_ns", JInt (Z.min (int_of (fld (se_grant s) "deadline_ns")) (now + PHYSICAL_WINDOW)))].

Definition pause (s : session) : W json :=
  now ← clock boottime;
  operation ← seen (λ fs, pin root_path fs (se_dir s) "operation.json");
  subject ← seen (λ fs, pin root_path fs (se_dir s) (ph_subject_step ph ++ ".json"));
  receipt ← onfs (publish root_path uuid4 (se_dir s) (ph_ready_file ph) (ready_value s operation subject now));
  mret (JObj [("state", JStr "AWAITING_PHYSICAL_DOWNLOAD"); ("request", receipt);
              ("owner_retained", JBool true);
              ("next_action", JStr "Enter Download on the bound S22+; continue checks its exact endpoint before one original A transfer.")]).

(** A started step that is not a health check is never performed again. *)
Definition started (s : session) (step : Step) : W bool :=
  seen (λ fs, let* rs := journal_rows s fs in anyR (row_of_step "step-start" (sp_name step)) rs).
Definition continue_step (s : session) (step : Step) (recovery : bool) : W unit :=
  again ← started s step;
  _ ← (if again && negb (sp_action step =? "health") then
         v ← ask (λ w, ad_recover_step_result (w_ad w) step (se_request s)); result_ s step v
       else perform s step recovery);
  mret tt.

Fixpoint walk (s : session) (allow_return : bool) (plan : list Step) : W (option json) :=
  match plan with
  | [] => mret None
  | step :: plan' =>
      _ ← check s false;
      rs ← seen (journal_rows s);
      matches ← wlift (filterR (row_of_step "step-complete" (sp_name step)) rs);
      match matches with
      | m :: more =>
          _ ← demand (is_empty_list more) "duplicate Debian step completion";
          receipt ← wlift (idx (row_data m) "result");
          at_ ← seen (λ fs, verify root_path fs receipt);
          value ← seen (λ fs, read loads fs at_.1 at_.2);
          _ ← ask (λ w, ad_validate_result (w_ad w) step value (se_request s));
          walk s allow_return plan'
      | [] =>
          stop ← (if (sp_name step =? "install-android") && negb allow_return then
                    automatic ← prepare_automatic_return s; mret (negb automatic)
                  else mret false);
          if stop : bool then p ← pause s; mret (Some p)
          else _ ← continue_step s step false; walk s allow_return plan'
      end
  end.

Definition stopped (s : session) (e : pyexc) : W json :=
  if match e with ResultPublicationError _ => true | _ => protocol_completed e end then wraise e
  else
    effect ← has_effect root_path loads s;
    _ ← journal_append s "stopped"
          [("error_type", JStr (exc_name e)); ("error_message", JStr (exc_text e));
           ("transfer_failure", transfer_failure e); ("effect_intended", JBool effect)];
    basis ← has_recovery_basis root_path loads s;
    if negb basis then close_unused root_path uuid4 loads s
    else
      _ ← ph_cleanup s;
      mret (JObj [("state", JStr "AWAITING_ATTENDED_RECOVERY"); ("recovery_required", JBool true);
                  ("owner_retained", JBool true); ("device_activity", JStr "UNKNOWN");
                  ("next_action", JStr "Use the original attended Download/A recovery; no handoff or SSH control replay.")]).

Definition start_guard (s : session) (attended : bool) (attendance started : string) : W unit :=
  _ ← demand attended attendance;
  rs ← seen (journal_rows s);
  closed ← (if is_empty_list rs then unused root_path loads s else mret false);
  _ ← demand (is_empty_list rs && negb closed) started;
  _ ← check s false;
  seen require_no_f1_owner.

Definition phased_body (s : session) (attended : bool) : W json :=
  _ ← lease;
  _ ← start_guard s attended "Debian operation requires actual attendance" "Debian operation already started";
  r ← caught (_ ← preflight s; plan ← wlift (ph_steps ph (se_request s)); walk s false plan);
  match r with
  | inl e => stopped s e
  | inr (Some pending) => mret pending
  | inr None => plan ← wlift (ph_steps ph (se_request s)); close s plan false
  end.

(** The [finally] of the automatic boot: the shared network is retired once Android was
    installed. *)
Definition retire_network (s : session) : W unit :=
  if ph_retires ph (se_request s) then
    installed ← seen (λ fs, let* rs := journal_rows s fs in
                            anyR (row_of_step "step-complete" "install-android") rs);
    if installed : bool then ph_cleanup s else mret tt
  else mret tt.

Definition phased_execute (s : session) (attended : bool) : W json :=
  finally (phased_body s attended) (retire_network s).

Definition phased_resume (s : session) (attended : bool) : W json :=
  _ ← lease;
  _ ← demand attended "Debian original-A return requires actual attendance";
  _ ← check s false;
  _ ← require_owner root_path s;
  rs ← seen (journal_rows s);
  fs ← ask (λ w, Ok (w_fs w));
  _ ← demand (negb (existsb (event_is "stopped") rs) && negb (present fs (se_dir s) "terminal.json"))
        "Debian normal work stopped or closed";
  v ← seen (λ fs, read loads fs (se_dir s) (ph_ready_file ph));
  pending ← wlift (obj v);
  operation ← seen (λ fs, pin root_path fs (se_dir s) "operation.json");
  subject ← seen (λ fs, pin root_path fs (se_dir s) (ph_subject_step ph ++ ".json"));
  was ← wlift (idx pending "operation");
  about ← wlift (if py_eqb was operation then idx pending (ph_subject_field ph) else Ok JNull);
  _ ← demand (py_eqb was operation && py_eqb about subject) "physical return request differs";
  r ← caught (plan ← wlift (ph_steps ph (se_request s)); walk s true plan);
  match r with
  | inl e => stopped s e
  | inr (Some _) => wraise (SessionError "unexpected second physical pause")
  | inr None => plan ← wlift (ph_steps ph (se_request s)); close s plan false
  end.
End Phased.

(** ** The GPT reservation coordinator *)

Definition ANDROID32_USER : Z := 32 * 1024 ^ 3 / 512.
Definition PHYSICAL_RECOVERY_WINDOW : Z := 900000000000.

(** [type(statement) is str and 0 < len(statement.strip()) <= 4096] *)
Definition statement_ok (statement : string) : bool :=
  let n := length (chars (strip statement)) in (0 <? n)%nat && (n <=? 4096)%nat.

Section Gpt.
Context `{Digest} `{Adapter}.
Variable root_path : string.
Variable uuid4 : hostfs → string.
Variable loads : string → result json.
Variable boottime : nat → Z.
Variable host_boot : string.
Variable is_repo : bool.
Variable resolve : string → string.

Notation journal_rows := (journal_rows root_path loads).
Notation journal_append := (journal_append root_path uuid4 loads boottime).
Notation clock := (clock boottime).
Notation check := (check root_path boottime host_boot).
Notation intents := (intents root_path loads).
Notation intended := (intended root_path loads).
Notation gpt_intended := (gpt_intended root_path loads).
Notation reset_intended := (reset_intended root_path loads).
Notation android_basis := (android_basis root_path loads).
Notation recovery_steps := (recovery_steps root_path loads).
Notation operation_receipt := (operation_receipt root_path).
Notation result_ := (result_ root_path uuid4 loads boottime).
Notation publish := (publish root_path uuid4).

Definition io_dir (s : session) (name : string) : string := se_dir s ++ "/io-" ++ name.

Definition recovering (s : session) : W bool :=
  rs ← seen (journal_rows s); mret (existsb (event_is "gpt-recovery-selected") rs).

Definition pending (s : session) (step : Step) : json :=
  JObj [("state", JStr "AWAITING_OPERATOR_ACTION");
        ("action", JStr (default "android-setup" (assoc (sp_name step) PHYSICAL)));
        ("step", JStr (sp_name step)); ("operation_directory", JStr (se_path root_path s));
        ("owner_retained", JBool true); ("partition_or_control_replay_permitted", JBool false)].

(** [try: publication except OSError: raise ResultPublicationError(step)] *)
Definition publishing {A} (step : Step) (m : W A) : W A :=
  r ← except is_os_error m;
  match r with Some a => mret a | None => wraise (ResultPublicationError (sp_name step)) end.

Definition publish_at (dir name : string) (v : json) : W json := onfs (publish dir name v).

(** ** Android setup *)

(** [path.parent] is [before] below an [attempt-*] of the first Android health check. *)
Definition setup_location (s : session) (dir : string) : bool :=
  match strip_prefix (io_dir s "android-initial" ++ "/attempt-") dir with
  | Some rest => match split_on "/"%char rest with [_; b] => b =? "before" | _ => false end
  | None => false
  end.

(** [[row['data']['failed_root'] for row in rows if row['event'] == event]] *)
Definition failed_roots (event : string) (rs : list dict) : result (list json) :=
  mapR (λ r, idx (row_data r) "failed_root") (filter (λ r, event_is event r = true) rs).

Definition android_initial : Step := step3 "android-initial" "health" "A".

Definition record_setup_pending (s : session) (receipt : json) : W unit :=
  _ ← check s false;
  rebooted ← intended s "android-reboot";
  rs ← seen (journal_rows s);
  _ ← demand (negb rebooted && negb (existsb (event_is "stopped") rs))
        "Magisk setup cannot reopen stopped effects or a reboot";
  sectors ← ask (λ w, ad_userdata_sectors (w_ad w) (se_request s));
  _ ← demand (sectors =? ANDROID32_USER)%Z "setup pending is outside the 32 GiB successor";
  at_ ← seen (λ fs, verify root_path fs receipt);
  _ ← demand (setup_location s at_.1) "setup receipt belongs elsewhere";
  task ← configuration s;
  target ← wlift (idx task "target");
  derived ← ask (λ w, ad_missing_su_setup (w_ad w) at_.1 target);
  _ ← demand (py_eqb derived receipt) "setup failure does not rederive";
  _ ← proved root_path loads s "install-android";
  basis ← android_basis s;
  _ ← demand (is_str (fld basis "layout") "proposed") "setup pending lacks initialized GPT";
  rs ← seen (journal_rows s);
  existing ← wlift (failed_roots "android-setup-pending" rs);
  let n := length (filter (λ r, py_eqb r receipt = true) existing) in
  _ ← demand (n <=? 1)%nat "duplicate setup pending record";
  if (n =? 0)%nat then
    _ ← publishing android_initial (journal_append s "android-setup-pending" [("failed_root", receipt)]);
    mret tt
  else mret tt.

Fixpoint record_attempts (s : session) (attempts : list string) : W unit :=
  match attempts with
  | [] => mret tt
  | a :: attempts' =>
      task ← configuration s;
      target ← wlift (idx task "target");
      r ← except setup_error
            (ask (λ w, ad_missing_su_setup (w_ad w)
                         (io_dir s "android-initial" ++ "/" ++ a ++ "/before") target));
      match r with
      | None => wraise (PyValueError "initial Android attempt is incomplete or not exact missing-su setup")
      | Some receipt => _ ← record_setup_pending s receipt; record_attempts s attempts'
      end
  end.

(** [reconstruct_setup_pending]: the complete health check, if one was recorded *)
Definition reconstruct_setup_pending (s : session) : W (option json) :=
  attempts ← ask (λ w, Ok (ad_setup_attempts (w_ad w)));
  if is_empty_list attempts then mret None
  else
    sectors ← ask (λ w, ad_userdata_sectors (w_ad w) (se_request s));
    if negb (sectors =? ANDROID32_USER)%Z then mret None
    else
      complete ← except proof_error
        (v ← ask (λ w, ad_recover_step_result (w_ad w) android_initial (se_request s));
         _ ← ask (λ w, ad_validate_result (w_ad w) android_initial v (se_request s));
         mret v);
      match complete with
      | Some v => mret (Some v)
      | None => _ ← record_attempts s attempts; mret None
      end.

(** ** Physical stages *)

Definition begin_physical (s : session) (step : Step) (recovery : bool) : W unit :=
  _ ← check s recovery;
  let folder := io_dir s (sp_name step) in
  _ ← onfs (mkdir folder);
  before ← onad (ad_usb_snapshot (sp_name step));
  started ← clock;
  let deadline := if recovery then (started + PHYSICAL_RECOVERY_WINDOW)%Z
                  else int_of (fld (se_grant s) "deadline_ns") in
  _ ← demand (started <? deadline)%Z "physical action has no remaining original grant time";
  operation ← operation_receipt s;
  action ← wlift (match assoc (sp_name step) PHYSICAL with Some a => Ok a | None => Err (PyKeyError (sp_name step)) end);
  context ← publish_at folder "context.json"
    (JObj [("schema", JStr "s22plus-native-gpt-physical-v1"); ("operation", operation);
           ("step", JStr (sp_name step)); ("action", JStr action); ("before", before);
           ("started_ns", JInt started); ("deadline_ns", JInt deadline); ("recovery", JBool recovery)]);
  _ ← intent root_path uuid4 loads boottime host_boot s step recovery (Plain (Some [("physical", context)]));
  mret tt.

(** The receipt of the physical context in the step's only intent *)
Definition physical_context (s : session) (step : Step) (msg : string) : W json :=
  rows ← seen (intents s (sp_name step));
  match rows with
  | [d] => wlift (at_ (JObj d) ["detail"; "physical"])
  | _ => wraise (SessionError msg)
  end.

Definition read_receipt (receipt : json) : W dict :=
  at_ ← seen (λ fs, verify root_path fs receipt);
  v ← seen (λ fs, read loads fs at_.1 at_.2);
  wlift (obj v).

Definition file_present (dir name : string) : W bool := ask (λ w, Ok (present (w_fs w) dir name)).
Definition pin_at (dir name : string) : W json := seen (λ fs, pin root_path fs dir name).

Definition operator_record (s : session) (step : Step) (physical : json) (statement : string) : W json :=
  let folder := io_dir s (sp_name step) in
  known ← file_present folder "operator.json";
  if known : bool then
    operator ← pin_at folder "operator.json";
    old ← read_receipt operator;
    context ← wlift (idx old "context");
    said ← wlift (if py_eqb context physical then idx old "statement" else Ok JNull);
    _ ← demand (py_eqb context physical && is_str said statement) "physical completion statement changed";
    mret operator
  else
    publishing step
      (now ← clock;
       publish_at folder "operator.json"
         (JObj [("context", physical); ("statement", JStr statement); ("reported_ns", JInt now)])).

Definition departure_record (s : session) (step : Step) (context : dict) (recovery : bool) : W json :=
  let folder := io_dir s (sp_name step) in
  known ← file_present folder "departure.json";
  if known : bool then pin_at folder "departure.json"
  else
    before ← wlift (idx context "before");
    deadline ← wlift (idx context "deadline_ns");
    departure ← run_prog root_path uuid4 loads boottime host_boot s step recovery CNone CNone
                  (ad_wait_departure before folder deadline);
    publishing step (publish_at folder "departure.json" departure).

Definition finish_physical (s : session) (step : Step) (statement : string) (recovery : bool) : W unit :=
  let folder := io_dir s (sp_name step) in
  physical ← physical_context s step "physical action was not prepared exactly once";
  context ← read_receipt physical;
  _ ← demand (statement_ok statement) "actual operator completion is required";
  operator ← operator_record s step physical statement;
  departure ← departure_record s step context recovery;
  let value := JObj [("action", JStr "physical"); ("context", physical); ("operator", operator);
                     ("departure", departure)] in
  known ← file_present folder "result.json";
  _ ← (if known : bool then mret tt
       else _ ← publishing step (publish_at folder "result.json" value); mret tt);
  _ ← result_ s step value;
  mret tt.

(** [physical_result]: the same value from the retained records alone *)
Definition physical_result (s : session) (step : Step) : W json :=
  let folder := io_dir s (sp_name step) in
  physical ← physical_context s step "physical action has no unique original intent";
  operator ← pin_at folder "operator.json";
  departure ← pin_at folder "departure.json";
  let reconstructed := JObj [("action", JStr "physical"); ("context", physical); ("operator", operator);
                             ("departure", departure)] in
  known ← file_present folder "result.json";
  value ← (if known : bool then seen (λ fs, read loads fs folder "result.json") else mret reconstructed);
  _ ← demand (py_eqb value reconstructed) "physical aggregate differs from retained component records";
  context ← read_receipt physical;
  operation ← operation_receipt s;
  _ ← demand (is_str (fld context "step") (sp_name step)
              && match assoc (sp_name step) PHYSICAL with
                 | Some a => is_str (fld context "action") a | None => false end
              && py_eqb (fld context "operation") operation)
        "physical action belongs to another operation";
  gone ← read_receipt departure;
  said ← read_receipt operator;
  _ ← demand (py_eqb (fld said "context") physical
              && match fld said "statement" with JStr t => statement_ok t | _ => false end
              && py_eqb (fld gone "before") (fld context "before")
              && match fld gone "departed" with JBool true => true | _ => false end
              && py_eqb (fld gone "deadline_ns") (fld context "deadline_ns")
              && (int_of (fld context "started_ns") <=? int_of (fld gone "observed_ns"))%Z
              && (int_of (fld gone "observed_ns") <? int_of (fld context "deadline_ns"))%Z)
        "physical action lacks bounded departure and operator completion";
  mret value.

(** ** The walk *)

(** The last setup failure that was not yet reported as repaired *)
Definition unreported (rs : list dict) : result (option json) :=
  let* waiting := failed_roots "android-setup-pending" rs in
  let* reported := failed_roots "android-setup-reported" rs in
  Ok (match last waiting with
      | Some r => if existsb (py_eqb r) reported then None else Some r
      | None => None
      end).

(** What the walk does with a step *)
Inductive walked :=
  | Waiting (v : json)                 (** [return self.pending(step)] *)
  | Next (statement : option string).  (** the step is done, the statement may be used *)

Definition setup_stage (s : session) (step : Step) (statement : option string)
    : W (walked + option string) :=
  known ← file_present (se_dir s) "android-setup.json";
  match known, statement with
  | false, None => mret (inl (Waiting (pending s step)))
  | _, _ =>
      statement ←
        (if known : bool then mret statement
         else
           operation ← operation_receipt s;
           now ← clock;
           _ ← publish_at (se_dir s) "android-setup.json"
                 (JObj [("operation", operation); ("statement", JStr (default "" statement));
                        ("reported_ns", JInt now)]);
           mret None);
      v ← seen (λ fs, read loads fs (se_dir s) "android-setup.json");
      setup ← wlift (obj v);
      was ← wlift (idx setup "operation");
      operation ← operation_receipt s;
      _ ← demand (py_eqb was operation) "Android setup belongs to another operation";
      if negb (sp_name step =? "android-initial") then mret (inr statement)
      else
        complete ← reconstruct_setup_pending s;
        match complete with
        | Some v => _ ← result_ s step v; mret (inl (Next statement))
        | None =>
            rs ← seen (journal_rows s);
            wait ← wlift (unreported rs);
            match wait, statement with
            | None, _ => mret (inr statement)
            | Some _, None => mret (inl (Waiting (pending s step)))
            | Some failed, Some told =>
                _ ← demand (statement_ok told) "actual Magisk setup completion is required";
                _ ← publishing step
                      (now ← clock;
                       journal_append s "android-setup-reported"
                         [("failed_root", failed); ("statement", JStr told); ("reported_ns", JInt now)]);
                mret (inr None)
            end
        end
  end.

Definition physical_stage (s : session) (step : Step) (recovery : bool) (statement : option string)
    : W walked :=
  begun ← intended s (sp_name step);
  if negb begun then _ ← begin_physical s step recovery; mret (Waiting (pending s step))
  else
    match statement with
    | None => mret (Waiting (pending s step))
    | Some told => _ ← finish_physical s step told recovery; mret (Next None)
    end.

Definition was_reset (s : session) : W bool :=
  r ← reset_intended s; if r : bool then mret true else intended s "recovery-factory-reset".

Definition walk_step (s : session) (recovery : bool) (step : Step) (statement : option string)
    : W walked :=
  _ ← check s recovery;
  recorded ← file_present (se_dir s) (result_name step);
  if recorded : bool then
    v ← seen (λ fs, read loads fs (se_dir s) (result_name step));
    _ ← ask (λ w, ad_validate_result (w_ad w) step v (se_request s));
    mret (Next statement)
  else if sp_action step =? "physical" then physical_stage s step recovery statement
  else
    reset ← (if sp_action step =? "health" then was_reset s else mret false);
    stage ← (if reset : bool then setup_stage s step statement else mret (inr statement));
    match stage with
    | inl r => mret r
    | inr statement =>
        _ ← continue_step root_path uuid4 loads boottime host_boot s step recovery;
        mret (Next statement)
    end.

Fixpoint gpt_walk (s : session) (recovery : bool) (plan : list Step) (statement : option string)
    : W (option json) :=
  match plan with
  | [] => mret None
  | step :: plan' =>
      r ← walk_step s recovery step statement;
      match r with
      | Waiting v => mret (Some v)
      | Next statement => gpt_walk s recovery plan' statement
      end
  end.

(** ** The coordinator *)

Notation recover_android := (recover_android root_path uuid4 loads boottime host_boot).
Notation has_recovery_basis := (has_recovery_basis root_path loads).

(** [Coordinator.close] *)
Definition gpt_close (s : session) (plan : list Step) (recovery : bool) : W json :=
  _ ← completed root_path loads s plan;
  close root_path uuid4 loads s (if recovery then drop (length plan - 2) plan else plan) recovery.

Definition gpt_stopped (s : session) (e : pyexc) (recovery attended : bool) : W json :=
  if match e with ResultPublicationError _ => true | _ => protocol_completed e end then wraise e
  else
    match (if recovery then None else ad_setup_pending e) with
    | Some receipt => _ ← record_setup_pending s receipt; mret (pending s android_initial)
    | None =>
        effect ← has_effect root_path loads s;
        _ ← journal_append s "stopped"
              [("error_type", JStr (exc_name e)); ("effect_intended", JBool effect)];
        basis ← has_recovery_basis s;
        if negb basis then close_unused root_path uuid4 loads s
        else
          applied ← gpt_intended s;
          if negb applied then recover_android s attended
          else
            mret (JObj [("state", JStr (if recovery then "GPT_RECOVERY_STOPPED" else "AWAITING_GPT_RECOVERY"));
                        ("recovery_required", JBool true); ("owner_retained", JBool true);
                        ("device_activity", JStr "UNKNOWN");
                        ("next_action", JStr "H0 diagnosis or exact preauthorized recovery; no effect replay")])
    end.

(** [try: pending = m except Exception: stopped; pending or close(plan)] *)
Definition walk_or_stop (s : session) (m : W (option json)) (plan : list Step) (recovery attended : bool)
    : W json :=
  r ← caught m;
  match r with
  | inl e => gpt_stopped s e recovery attended
  | inr (Some v) => mret v
  | inr None => gpt_close s plan recovery
  end.

Definition gpt_execute (s : session) (attended : bool) : W json :=
  _ ← lease root_path is_repo resolve;
  _ ← start_guard root_path loads boottime host_boot s attended
        "GPT reservation requires actual attendance" "GPT operation already started";
  walk_or_stop s (_ ← preflight root_path uuid4 loads boottime host_boot s; gpt_walk s false gpt_steps None)
    gpt_steps false attended.

Definition gpt_resume (s : session) (attended : bool) (statement : option string) : W json :=
  _ ← lease root_path is_repo resolve;
  _ ← demand attended "GPT continuation requires actual attendance";
  _ ← demand (match statement with Some t => statement_ok t | None => true end)
        "operator completion statement differs";
  closed ← file_present (se_dir s) "terminal.json";
  _ ← demand (negb closed) "GPT operation is already terminal";
  recovery ← recovering s;
  _ ← check s recovery;
  _ ← require_owner root_path s;
  rs ← seen (journal_rows s);
  _ ← demand (recovery || negb (existsb (event_is "stopped") rs))
        "normal GPT work is stopped; select original recovery";
  plan ← (if recovery : bool then recovery_steps s else mret gpt_steps);
  walk_or_stop s (gpt_walk s recovery plan statement) plan recovery attended.

(** The complete normal sequence, from the raw proofs *)
Definition gpt_reconstruct (s : session) : W (option (list json)) :=
  except value_error (reconstruct s gpt_steps).

Definition select_recovery (s : session) : W unit :=
  rs ← seen (journal_rows s);
  android ← wlift (android_intents rs);
  _ ← demand (length android <=? 1)%nat "multiple original A intents";
  basis ← except value_error (android_basis s);
  name ← match android with
         | d :: _ =>
             _ ← demand (match basis with Some _ => true | None => false end)
                   "A has an intent but its GPT safety proof is unavailable; H0 only";
             v ← wlift (idx d "step");
             name ← wlift (text v);
             let step := step3 name "transfer" "A" in
             value ← ask (λ w, ad_recover_transfer_result (w_ad w) step (se_request s));
             _ ← result_ s step value;
             mret name
         | [] => mret "recover-android"
         end;
  let proposed := match basis with Some b => is_str (fld b "layout") "proposed" | None => false end in
  _ ← journal_append s "gpt-recovery-selected"
        [("basis", JStr (if proposed then "initialized-proposed" else "restore-original"));
         ("android_step", JStr name)];
  mret tt.

Definition gpt_recover (s : session) (attended : bool) : W json :=
  _ ← demand attended "GPT recovery requires actual attendance";
  closed ← file_present (se_dir s) "terminal.json";
  _ ← demand (negb closed) "terminal already exists; repair H0 only";
  applied ← gpt_intended s;
  if negb applied then recover_android s attended
  else
    again ← recovering s;
    complete ← (if again : bool then mret None else gpt_reconstruct s);
    match complete with
    | Some vs => _ ← record_all root_path uuid4 loads boottime s gpt_steps vs; gpt_close s gpt_steps false
    | None =>
        _ ← (if again : bool then mret tt
             else
               final ← wlift (match last gpt_steps with Some st => Ok st | None => Err PyTypeError end);
               proved ← ask (λ w, Ok (ad_final_protocol_completed (w_ad w) final (se_request s)));
               _ ← demand (negb proved) "recorded final proof requires H0 repair, not GPT restoration";
               select_recovery s);
        plan ← recovery_steps s;
        walk_or_stop s (gpt_walk s true plan None) plan true attended
    end.

Fixpoint repair_steps (s : session) (plan : list Step) : W (option json) :=
  match plan with
  | [] => mret None
  | step :: plan' =>
      r ← except value_error
            (v ← ask (λ w, ad_recover_step_result (w_ad w) step (se_request s));
             _ ← ask (λ w, ad_validate_result (w_ad w) step v (se_request s));
             mret v);
      match r with
      | Some v => _ ← result_ s step v; repair_steps s plan'
      | None => mret (Some (JObj [("state", JStr "H0_REPAIRED_PREFIX"); ("next_step", JStr (sp_name step));
                                  ("owner_retained", JBool true)]))
      end
  end.

Definition gpt_repair (s : session) : W json :=
  basis ← has_recovery_basis s;
  if negb basis then close_unused root_path uuid4 loads s
  else
    recovery ← recovering s;
    plan ← (if recovery : bool then recovery_steps s else mret gpt_steps);
    stopped_at ← repair_steps s plan;
    match stopped_at with Some v => mret v | None => gpt_close s plan recovery end.
End Gpt.
