(* ===== verification/NativeSession.v ===== *)
(** * The native session

    [s22plus_native_session_v3.py]: the operations a host calls.  Every
    operation is driven by the session itself or by the coordinator its
    request selects. *)

From stdpp Require Import base list strings gmap.
From Stdlib Require Import ZArith Lia Ascii.
From S2P Require Import Prelude PyStr Dir Json Digest HostFs Registry NativeRecords NativeSteps NativeWorld NativeCore NativeClaims NativeDrive NativePhased.
Open Scope string_scope.

Section Session.
Context `{Digest} `{Adapter}.
Variable root_path : string.
Variable uuid4 : hostfs → string.
Variable loads : string → result json.
Variable boottime : nat → Z.
Variable host_boot : string.
Variable exc_text : pyexc → string.
Variable transfer_failure : pyexc → json.
Variable is_repo : bool.
Variable resolve : string → string.

Notation journal_rows := (journal_rows root_path loads).
Notation journal_append := (journal_append root_path uuid4 loads boottime).
Notation check := (check root_path boottime host_boot).
Notation unused := (unused root_path loads).
Notation has_effect := (has_effect root_path loads).
Notation has_recovery_basis := (has_recovery_basis root_path loads).
Notation close_unused := (close_unused root_path uuid4 loads).
Notation close := (close root_path uuid4 loads).
Notation perform := (perform root_path uuid4 loads boottime host_boot).
Notation preflight := (preflight root_path uuid4 loads boottime host_boot).
Notation recover_android := (recover_android root_path uuid4 loads boottime host_boot).
Notation record_all := (record_all root_path uuid4 loads boottime).
Notation lease := (lease root_path is_repo resolve).

(** The coordinator class an operation selects *)
Definition phases_of (operation : string) : option phases :=
  assoc operation [("log-calibrate", log_phases); ("debian-early", early_phases);
                   ("debian-autoboot", autoboot_phases); ("debian-integrated", integrated_phases);
                   ("debian-handoff", physical_phases)].

(** ** Recovery *)

(** [_recover] *)
Definition recover_ (s : session) (attended : bool) : W json :=
  if operation_of s =? "gpt-reserve"
  then gpt_recover root_path uuid4 loads boottime host_boot s attended
  else recover_android s attended.

Definition recover (s : session) (attended : bool) : W json :=
  _ ← lease;
  finally (recover_ s attended)
    (if elem_str (operation_of s) ["debian-handoff"; "debian-integrated"; "debian-autoboot"]
     then cleanup s else mret tt).

(** ** Execution *)

Definition is_last_name (plan : list Step) (name : string) : bool :=
  match last plan with Some st => sp_name st =? name | None => false end.

(** The [except Exception] clause of [execute]; [at_step] is the loop variable,
    unbound while the preflight runs. *)
Definition stop_or_recover (s : session) (plan : list Step) (attended : bool) (e : pyexc)
    (at_step : option Step) : W json :=
  if match e with ResultPublicationError name => is_last_name plan name | _ => false end then wraise e
  else
    last_protocol ←
      match e, at_step with
      | AdapterError _ true, Some st => mret (is_last_name plan (sp_name st))
      | AdapterError _ true, None => wraise PyNameError
      | _, _ => mret false
      end;
    if last_protocol : bool then wraise e
    else
      effect ← has_effect s;
      _ ← journal_append s "stopped"
            [("error_type", JStr (exc_name e)); ("effect_intended", JBool effect)];
      basis ← has_recovery_basis s;
      if negb basis then
        r ← close_unused s;
        match r with
        | JObj d => mret (JObj (dset "failure_type" (JStr (exc_name e)) d))
        | _ => wraise PyTypeError
        end
      else
        mode ← wlift (idx (se_grant s) "recovery_mode");
        if is_str mode "deferred" || negb attended then
          mret (JObj [("state", JStr "AWAITING_ATTENDED_RECOVERY"); ("recovery_required", JBool true);
                      ("device_activity", JStr "UNKNOWN")])
        else recover_ s attended.

(** [for step in plan: self.perform(step)], with the exception and its step *)
Fixpoint perform_plan (s : session) (plan : list Step) : W (option (pyexc * option Step)) :=
  match plan with
  | [] => mret None
  | step :: plan' =>
      r ← caught (perform s step false);
      match r with
      | inr _ => perform_plan s plan'
      | inl e => mret (Some (e, Some step))
      end
  end.

(** The body of the [try] of [execute] *)
Definition run_plan (s : session) (plan : list Step) : W (option (pyexc * option Step)) :=
  r ← caught (preflight s);
  match r with
  | inr _ => perform_plan s plan
  | inl e => mret (Some (e, None))
  end.

(** [execute] *)
Definition execute_plain (s : session) (attended : bool) : W json :=
  _ ← lease;
  rs ← seen (journal_rows s);
  closed ← (if is_empty_list rs then unused s else mret false);
  _ ← demand (is_empty_list rs && negb closed)
        "native operation already started; use H0 close or recovery";
  _ ← check s false;
  op ← request_of s "operation";
  mode ← (if attended || is_str op "bootstrap" then mret JNull
          else wlift (idx (se_grant s) "recovery_mode"));
  _ ← demand (attended || negb (is_str op "bootstrap") && is_str mode "deferred")
        "this native operation requires actual attendance";
  _ ← seen require_no_f1_owner;
  plan ← wlift (operation_steps (se_request s));
  outcome ← run_plan s plan;
  match outcome with
  | None => close s plan false
  | Some (e, at_step) => stop_or_recover s plan attended e at_step
  end.

Definition execute (s : session) (attended : bool) : W json :=
  match phases_of (operation_of s) with
  | Some ph => phased_execute root_path uuid4 loads boottime host_boot exc_text transfer_failure
                 is_repo resolve ph s attended
  | None =>
      if operation_of s =? "gpt-reserve"
      then gpt_execute root_path uuid4 loads boottime host_boot is_repo resolve s attended
      else execute_plain s attended
  end.

(** ** Closing and continuing *)

(** [repair_close] *)
Definition repair_close (s : session) : W json :=
  _ ← lease;
  if operation_of s =? "gpt-reserve" then gpt_repair root_path uuid4 loads boottime s
  else
    basis ← has_recovery_basis s;
    if negb basis then close_unused s
    else
      plan ← wlift (operation_steps (se_request s));
      rs ← seen (journal_rows s);
      android ← wlift (android_intents rs);
      _ ← demand (length android <=? 1)%nat "multiple Android transfer intents";
      later ← wlift (later_android android plan);
      values ← try_reconstruct s (negb later) "a later A intent selects recovery closure" plan;
      match values with
      | Some vs => _ ← record_all s plan vs; close s plan false
      | None =>
          name ← wlift (match android with
                        | [d] => let* v := idx d "step" in
                                 match v with JStr n => Ok n | _ => Err PyTypeError end
                        | _ => Err (SessionError "no completed normal sequence or unique A recovery")
                        end);
          let plan := [step3 name "transfer" "A"; step3 "recovery-health" "health" "A"] in
          vs ← reconstruct s plan;
          _ ← record_all s plan vs;
          close s plan true
      end.

(** [resume] *)
Definition resume (s : session) (attended : bool) (statement : option string) : W json :=
  match phases_of (operation_of s) with
  | Some ph => phased_resume root_path uuid4 loads boottime host_boot exc_text transfer_failure
                 is_repo resolve ph s attended
  | None =>
      _ ← demand (operation_of s =? "gpt-reserve")
            "only the phased GPT operation has an attended continuation";
      gpt_resume root_path uuid4 loads boottime host_boot is_repo resolve s attended statement
  end.

(** [prepare_operation]: a directory and its request; [operation-*] are the
    directories next to the grant. *)
Definition operation_dirs (grant_dir : string) (fs : hostfs) : list string :=
  names_by (λ d, match strip_prefix (grant_dir ++ "/operation-") d with
                 | Some rest => negb (contains "/" rest)
                 | None => false
                 end) (hf_dirs fs).

Definition prepare_operation (grant_dir grant_name operation : string) (reentry hud : bool) : W string :=
  _ ← wlift (steps operation reentry hud false);
  v ← seen (λ fs, read loads fs grant_dir grant_name);
  grant ← wlift (match v with JObj g => Ok g | _ => Err PyTypeError end);
  _ ← live_grant_of boottime host_boot grant false;
  _ ← lease;
  _ ← seen require_no_f1_owner;
  _ ← seen (λ fs, nreq (negb (present fs grant_dir "closed.json")) "native task grant is closed");
  existing ← seen (λ fs, Ok (length (operation_dirs grant_dir fs)));
  _ ← demand (Z.of_nat existing <? 10000)%Z "native task selection count exceeds bound";
  let directory := grant_dir ++ "/operation-" ++ fmt_0d 4 (S existing) in
  _ ← onfs (mkdir directory);
  value ← onad (ad_prepare operation grant reentry hud);
  receipt ← seen (λ fs, pin root_path fs grant_dir grant_name);
  _ ← onfs (publish root_path uuid4 directory "operation.json" (JObj (dict_update value
        [("schema", JStr SCHEMA); ("operation", JStr operation); ("reentry", JBool reentry);
         ("hud", JBool hud); ("grant", receipt)])));
  mret directory.
End Session.
