(* ===== verification/NativeTheory.v ===== *)
(** * What a native session leaves in place

    Frame lemmas for the session: no operation removes or changes a file of a
    journal once it is published ([grows]), and only an intent and an effect
    extend the trace ([quiet]). *)

From stdpp Require Import base list strings gmap sorting.
From Stdlib Require Import ZArith Lia Ascii.
From S2P Require Import Prelude PyStr Dir Json Digest HostFs Registry NativeRecords NativeSteps NativeWorld NativeCore NativeClaims NativeDrive NativePhased NativeSession.
Open Scope string_scope.

(** ** The names of the journal's files *)

Lemma journal_name_free i : (i < 2052)%nat → publish_temp_re (journal_name i) = false.
Proof.
  assert (Hall : forallb (λ i, negb (publish_temp_re (journal_name i))) (seq 0 2052) = true)
    by (vm_compute; reflexivity).
  intros Hi. rewrite forallb_forall in Hall. apply negb_true_iff, Hall, in_seq. lia.
Qed.

(** ** Files that stay *)

Section Grows.
Variable dir : string.

(** Every published file of [dir] is still there; staging files come and go. *)
Definition grows (fs fs' : hostfs) : Prop :=
  ∀ n nd, publish_temp_re n = false → lstat fs dir n = Some nd → lstat fs' dir n = Some nd.

#[export] Instance grows_preorder : PreOrder grows.
Proof. split; [by intros fs n nd|]. intros f1 f2 f3 H1 H2 n nd Ht Hl. auto. Qed.

Lemma grows_dirs fs fs' : hf_dirs fs' = hf_dirs fs → grows fs fs'.
Proof. intros Hd n nd _. unfold lstat, entries. by rewrite Hd. Qed.

Lemma grows_with_dir fs fs' d m : d ≠ dir → hf_dirs fs' = hf_dirs (with_dir fs d m) → grows fs fs'.
Proof.
  intros Hd Hf n nd _. unfold lstat, entries. rewrite Hf. cbn. by rewrite lookup_insert_ne.
Qed.

(** A durable step that writes under [name] in [d]: elsewhere, or in a staging file, or
    under a name that is free *)
Definition may_write (fs : hostfs) (d name : string) : Prop :=
  d ≠ dir ∨ publish_temp_re name = true ∨ lstat fs d name = None.

Lemma grows_put fs fs' d name nd :
  may_write fs d name → hf_dirs fs' = hf_dirs (put fs d name nd) → grows fs fs'.
Proof.
  intros Hw Hf n nd' Ht Hl. destruct (decide (d = dir)) as [->|Hne].
  - change (lstat fs' dir n) with (default ∅ (hf_dirs fs' !! dir) !! n). rewrite Hf.
    change (entries (put fs dir name nd) dir !! n = Some nd').
    rewrite entries_put, decide_True by done. rewrite lookup_insert_ne; [done|].
    intros ->. destruct Hw as [?|[?|Hn]]; [done|congruence|congruence].
  - by eapply grows_with_dir.
Qed.

Lemma grows_del fs fs' d name :
  d ≠ dir ∨ publish_temp_re name = true → hf_dirs fs' = hf_dirs (del fs d name) → grows fs fs'.
Proof.
  intros Hw Hf n nd' Ht Hl. destruct (decide (d = dir)) as [->|Hne].
  - change (lstat fs' dir n) with (default ∅ (hf_dirs fs' !! dir) !! n). rewrite Hf.
    change (entries (del fs dir name) dir !! n = Some nd').
    rewrite entries_del, decide_True by done. rewrite lookup_delete_ne; [done|].
    intros ->. destruct Hw as [?|?]; [done|congruence].
  - by eapply grows_with_dir.
Qed.

(** ** Programs that keep the published files *)

Definition mgrows {A} (m : M A) : Prop := ∀ fs, grows fs (m fs).2.

Lemma mgrows_hoare {A} (m : M A) :
  (∀ f0, hoare (λ fs, fs = f0) m (λ _, grows f0) (λ _, grows f0)) → mgrows m.
Proof. intros H fs. specialize (H fs fs eq_refl). by destruct (m fs) as [[a|e] fs']. Qed.

Lemma mgrows_bind {A B} (m : M A) (k : A → M B) :
  mgrows m → (∀ a, mgrows (k a)) → mgrows (m ≫= k).
Proof.
  intros Hm Hk fs. specialize (Hm fs). unfold mbind, M_bind.
  destruct (m fs) as [[a|e] fs']; cbn in *; [|done]. etrans; [done|apply Hk].
Qed.
Lemma mgrows_lift {A} (r : result A) : mgrows (lift r).
Proof. by intros fs. Qed.
Lemma mgrows_reading {A} (f : hostfs → result A) : mgrows (reading f).
Proof. by intros fs. Qed.
Lemma mgrows_raise {A} e : mgrows (@raise A e).
Proof. by intros fs. Qed.
Lemma mgrows_ret {A} (a : A) : mgrows (mret a).
Proof. by intros fs. Qed.
Lemma mgrows_getfs : mgrows getfs.
Proof. by intros fs. Qed.
Lemma mgrows_tick : mgrows tick.
Proof.
  intros fs. destruct (tick_cases fs) as [(fs' & -> & Hd)|[-> _]]; [|done]. by apply grows_dirs.
Qed.

Lemma mgrows_create d name mode b :
  d ≠ dir ∨ publish_temp_re name = true → mgrows (create_file d name mode b).
Proof.
  intros Hw. apply mgrows_hoare. intros f0.
  assert (may_write f0 d name) by (destruct Hw; unfold may_write; auto).
  apply hoare_create_file; intros fs fs'; intros; subst; [by apply grows_dirs|..];
    by eapply grows_put.
Qed.

Lemma mgrows_unlink d name :
  d ≠ dir ∨ publish_temp_re name = true → mgrows (unlink d name).
Proof.
  intros Hw. apply mgrows_hoare. intros f0.
  apply hoare_unlink; intros fs fs'; intros; subst; [by apply grows_dirs|by eapply grows_del].
Qed.

Lemma mgrows_rename_noreplace d from to :
  d ≠ dir ∨ publish_temp_re from = true → mgrows (rename_noreplace d from to).
Proof.
  intros Hw fs. unfold rename_noreplace, mbind, M_bind at 1, getfs. unfold present.
  destruct (lstat fs d to) as [n0|] eqn:Ht.
  { apply (mgrows_bind _ (λ _, raise _)); [by apply mgrows_unlink|intros; apply mgrows_raise]. }
  revert fs Ht. assert (H : ∀ f0, lstat f0 d to = None →
    hoare (λ fs, fs = f0) (rename_over d from to) (λ _, grows f0) (λ _, grows f0)).
  { intros f0 Hn. apply hoare_rename_over; intros fs; intros; subst; [done|by apply grows_dirs|].
    etrans; [by apply (grows_del f0 (del f0 d from) d from)|].
    eapply grows_put; [|done]. destruct (decide (d = dir)) as [->|]; [|by left]. right; right.
    unfold lstat. rewrite entries_del, decide_True by done. unfold lstat in Hn.
    destruct (decide (from = to)) as [->|]; [by rewrite lookup_delete_eq|by rewrite lookup_delete_ne]. }
  intros fs Ht. specialize (H fs Ht fs eq_refl). by destruct (rename_over d from to fs) as [[]].
Qed.

Lemma mgrows_with_dir d f : d ≠ dir → mgrows (update (λ fs, with_dir fs d (f fs))).
Proof. intros Hd fs. by eapply grows_with_dir. Qed.
End Grows.

#[export] Hint Resolve mgrows_lift mgrows_reading mgrows_raise mgrows_ret mgrows_getfs mgrows_tick
  mgrows_create mgrows_unlink mgrows_rename_noreplace mgrows_with_dir : grows.

(** Walks through a program on the file system. *)
Ltac mgrows :=
  repeat first
    [ progress intros
    | progress cbv zeta
    | solve [auto with grows]
    | apply mgrows_bind
    | match goal with |- mgrows _ (match ?x with _ => _ end) => destruct x end ].

(** ** Publication and the owner sentinel *)

Section Publish.
Context `{Digest}.
Variable root_path : string.
Variable uuid4 : hostfs → string.
Variable loads : string → result json.
Hypothesis uuid_hex : ∀ fs, publish_temp_re (staging uuid4 fs) = true.
Variable dir : string.

Lemma mgrows_publish d name value : mgrows dir (publish root_path uuid4 d name value).
Proof.
  unfold publish. do 2 (apply mgrows_bind; [auto with grows|intros _]).
  apply mgrows_bind; [auto with grows|intros fs].
  destruct (present fs d (staging uuid4 fs)); [auto with grows|].
  apply mgrows_bind; [apply mgrows_create; auto|intros _].
  apply mgrows_bind; [apply mgrows_rename_noreplace; auto|intros _]. auto with grows.
Qed.

#[local] Hint Resolve mgrows_publish : grows.

Lemma mgrows_append maximum d boottime event data :
  mgrows dir (append_row root_path uuid4 loads maximum d boottime event data).
Proof. unfold append_row. mgrows. Qed.

Lemma mgrows_mkdir d : mgrows dir (mkdir d).
Proof.
  unfold mkdir. intros fs. unfold mbind, M_bind, getfs. destruct (hf_dirs fs !! d) eqn:E; [done|].
  destruct (tick_cases fs) as [(fs1 & -> & Hd)|[-> _]]; [|done].
  intros n nd _ Hl. unfold lstat, entries in *. cbn. rewrite Hd.
  destruct (decide (d = dir)) as [->|]; [by rewrite E in Hl|by rewrite lookup_insert_ne].
Qed.

Lemma mgrows_mkdirs d : mgrows dir (mkdirs d).
Proof.
  intros fs n nd _. unfold mkdirs, update, lstat. cbn. rewrite entries_with_dir. by case_decide; subst.
Qed.

Hypothesis not_research : dir ≠ RESEARCH.

Lemma mgrows_begin_owner run_dir binding : mgrows dir (begin_f1_owner run_dir binding).
Proof. unfold begin_f1_owner. mgrows. Qed.
Lemma mgrows_retire_owner run_dir binding : mgrows dir (retire_f1_owner run_dir binding).
Proof. unfold retire_f1_owner. mgrows. Qed.
End Publish.
#[export] Hint Resolve mgrows_publish mgrows_append mgrows_mkdir mgrows_mkdirs mgrows_begin_owner
  mgrows_retire_owner : grows.

(** ** Quiet programs *)

Section Quiet.
Context `{Digest} `{Adapter}.
Variable dir : string.

(** The published files stay and the trace does not move. *)
Definition still (w w' : world) : Prop := grows dir (w_fs w) (w_fs w') ∧ w_trace w' = w_trace w.

#[export] Instance still_preorder : PreOrder still.
Proof.
  split; [by split|]. intros w1 w2 w3 [Hg1 Ht1] [Hg2 Ht2]. split; [by etrans|congruence].
Qed.

Definition quiet {A} (m : W A) : Prop := ∀ w, still w (m w).2.

Lemma quiet_bind {A B} (m : W A) (k : A → W B) :
  quiet m → (∀ a, quiet (k a)) → quiet (m ≫= k).
Proof.
  intros Hm Hk w. specialize (Hm w). unfold mbind, W_bind.
  destruct (m w) as [[a|e] w']; cbn in *; [|done]. etrans; [done|apply Hk].
Qed.
Lemma quiet_ret {A} (a : A) : quiet (mret a).
Proof. by intros w. Qed.
Lemma quiet_wraise {A} e : quiet (@wraise _ A e).
Proof. by intros w. Qed.
Lemma quiet_wlift {A} (r : result A) : quiet (wlift r).
Proof. by intros w. Qed.
Lemma quiet_ask {A} (f : world → result A) : quiet (ask f).
Proof. by intros w. Qed.
Lemma quiet_seen {A} (f : hostfs → result A) : quiet (seen f).
Proof. by intros w. Qed.
Lemma quiet_demand b msg : quiet (demand b msg).
Proof. by intros w. Qed.
Lemma quiet_onad {A} (f : ad_state → result A * ad_state) : quiet (onad f).
Proof. by intros w. Qed.
Lemma quiet_move u : quiet (move u).
Proof. by intros w. Qed.
Lemma quiet_clock boottime : quiet (clock boottime).
Proof. by intros w. Qed.
Lemma quiet_onfs {A} (m : M A) : mgrows dir m → quiet (onfs m).
Proof. intros Hm w. split; [|done]. apply Hm. Qed.

Lemma quiet_caught {A} (m : W A) : quiet m → quiet (caught m).
Proof.
  intros Hm w. specialize (Hm w). unfold caught. destruct (m w) as [[a|e] w']; [done|]. by destruct e.
Qed.

Lemma quiet_mapW {A B} (f : A → W B) l : (∀ x, quiet (f x)) → quiet (mapW f l).
Proof.
  intros Hf. induction l as [|x l IH]; [apply quiet_ret|].
  apply quiet_bind; [done|intros y]. apply quiet_bind; [done|intros ys]. apply quiet_ret.
Qed.
End Quiet.

#[export] Hint Resolve quiet_ret quiet_wraise quiet_wlift quiet_ask quiet_seen quiet_demand quiet_onad
  quiet_move quiet_clock : quiet.
#[export] Hint Extern 1 (quiet _ (onfs _)) => apply quiet_onfs; solve [auto with grows] : quiet.

(** Walks through a program of the session. *)
Ltac quiet :=
  repeat first
    [ progress intros
    | progress cbv zeta
    | solve [auto with quiet]
    | apply quiet_bind
    | apply quiet_mapW
    | apply quiet_caught
    | match goal with |- quiet _ (match ?x with _ => _ end) => destruct x end ].

Section SessionQuiet.
Context `{Digest} `{Adapter}.
Variable root_path : string.
Variable uuid4 : hostfs → string.
Variable loads : string → result json.
Variable boottime : nat → Z.
Variable host_boot : string.
Hypothesis uuid_hex : ∀ fs, publish_temp_re (staging uuid4 fs) = true.
Variable dir : string.
Hypothesis not_research : dir ≠ RESEARCH.
#[local] Hint Resolve mgrows_publish mgrows_append mgrows_begin_owner mgrows_retire_owner : grows.
Notation quiet := (quiet dir).

(** *** Reading and closing *)

Lemma quiet_append s event data : quiet (journal_append root_path uuid4 loads boottime s event data).
Proof. unfold journal_append. quiet. Qed.
Lemma quiet_live_grant s recovery : quiet (live_grant boottime host_boot s recovery).
Proof. unfold live_grant, live_grant_of. quiet. Qed.
Lemma quiet_check s recovery : quiet (check root_path boottime host_boot s recovery).
Proof. unfold check, request_of. quiet. Qed.
Lemma quiet_has_effect s : quiet (has_effect root_path loads s).
Proof. unfold has_effect. quiet. Qed.
#[local] Hint Resolve quiet_append quiet_live_grant quiet_check quiet_has_effect : quiet.
Lemma quiet_basis s : quiet (has_recovery_basis root_path loads s).
Proof. unfold has_recovery_basis. quiet. Qed.
Lemma quiet_consumed s : quiet (consumed loads s).
Proof. unfold consumed, request_of. quiet. Qed.
Lemma quiet_unused_value s rs : quiet (unused_value root_path s rs).
Proof. unfold unused_value. quiet. Qed.
Lemma quiet_require_owner s : quiet (require_owner root_path s).
Proof. unfold require_owner. quiet. Qed.
Lemma quiet_retire_owner s : quiet (retire_owner root_path s).
Proof. unfold retire_owner. quiet. Qed.
#[local] Hint Resolve quiet_basis quiet_consumed quiet_unused_value quiet_require_owner
  quiet_retire_owner : quiet.
Lemma quiet_unused s : quiet (unused root_path loads s).
Proof. unfold unused. quiet. Qed.
#[local] Hint Resolve quiet_unused : quiet.
Lemma quiet_close_unused s : quiet (close_unused root_path uuid4 loads s).
Proof. unfold close_unused, request_of. quiet. Qed.

Lemma quiet_charge s d : quiet (sibling_charge root_path loads s d).
Proof. unfold sibling_charge, request_of. quiet. Qed.
Lemma quiet_total_charge s ds : quiet (total_charge root_path loads s ds).
Proof.
  induction ds as [|d ds IH]; [apply quiet_ret|].
  apply quiet_bind; [apply quiet_charge|intros n]. apply quiet_bind; [done|intros m]. apply quiet_ret.
Qed.
#[local] Hint Resolve quiet_total_charge : quiet.
Lemma quiet_consume s : quiet (consume root_path uuid4 loads boottime host_boot s).
Proof. unfold consume, request_of. quiet. Qed.

(** *** Claims and the GPT state *)

Lemma quiet_intended s name : quiet (intended root_path loads s name).
Proof. unfold intended. quiet. Qed.
Lemma quiet_gpt_claim s : quiet (gpt_claim s).
Proof. unfold gpt_claim, configuration, request_at. quiet. Qed.
Lemma quiet_ext4_claim s : quiet (ext4_claim s).
Proof. unfold ext4_claim, configuration, request_at. quiet. Qed.
#[local] Hint Resolve quiet_close_unused quiet_consume quiet_intended quiet_gpt_claim quiet_ext4_claim : quiet.
Lemma quiet_recovery_steps s : quiet (recovery_steps root_path loads s).
Proof. unfold recovery_steps, reset_intended. quiet. Qed.
Lemma quiet_claim_gpt s step : quiet (claim_gpt root_path uuid4 loads boottime s step).
Proof. unfold claim_gpt, request_of, request_at, operation_receipt, gpt_intended. quiet. Qed.
Lemma quiet_claim_ext4 s step : quiet (claim_ext4 root_path uuid4 boottime s step).
Proof. unfold claim_ext4, request_of, request_at, operation_receipt. quiet. Qed.
#[local] Hint Resolve quiet_recovery_steps quiet_claim_gpt quiet_claim_ext4 : quiet.
Lemma quiet_proved s name : quiet (proved root_path loads s name).
Proof. unfold proved. quiet. Qed.
#[local] Hint Resolve quiet_proved : quiet.
Lemma quiet_proved_gpt s name : quiet (proved_gpt root_path loads s name).
Proof. unfold proved_gpt. quiet. Qed.
#[local] Hint Resolve quiet_proved_gpt : quiet.
Lemma quiet_android_basis s : quiet (android_basis root_path loads s).
Proof. unfold android_basis, gpt_intended, reset_intended. quiet. Qed.
#[local] Hint Resolve quiet_android_basis : quiet.
Lemma quiet_terminal_covers s selected effects : quiet (terminal_covers root_path loads s selected effects).
Proof. unfold terminal_covers, request_of. quiet. Qed.
#[local] Hint Resolve quiet_terminal_covers : quiet.

(** *** Results and closing *)

Lemma quiet_record_result s step v :
  quiet (record_result root_path uuid4 loads boottime s step v).
Proof. unfold record_result. quiet. Qed.
#[local] Hint Resolve quiet_record_result : quiet.
Lemma quiet_result s step v : quiet (result_ root_path uuid4 loads boottime s step v).
Proof. unfold result_, try_. quiet. Qed.
#[local] Hint Resolve quiet_result : quiet.
Lemma quiet_completed_step s rs step : quiet (completed_step root_path loads s rs step).
Proof. unfold completed_step. quiet. Qed.
#[local] Hint Resolve quiet_completed_step : quiet.
Lemma quiet_completed s selected : quiet (completed root_path loads s selected).
Proof. unfold completed. quiet. Qed.
#[local] Hint Resolve quiet_completed : quiet.
Lemma quiet_close s selected recovered : quiet (close root_path uuid4 loads s selected recovered).
Proof. unfold close, request_of. quiet. Qed.
Lemma quiet_reconstruct s plan : quiet (reconstruct s plan).
Proof. unfold reconstruct. quiet. Qed.
#[local] Hint Resolve quiet_close quiet_reconstruct : quiet.
Lemma quiet_record_all s plan vs : quiet (record_all root_path uuid4 loads boottime s plan vs).
Proof. unfold record_all. quiet. Qed.
Lemma quiet_try_reconstruct s b msg plan : quiet (try_reconstruct s b msg plan).
Proof. unfold try_reconstruct, except. quiet. Qed.
#[local] Hint Resolve quiet_record_all quiet_try_reconstruct : quiet.

(** *** Programs that only observe *)

Lemma quiet_run_passive s step recovery p :
  passive p → quiet (run_prog root_path uuid4 loads boottime host_boot s step recovery CNone CNone p).
Proof.
  assert (Hg : ∀ b p, guarded false false b p → b = false →
    quiet (run_prog root_path uuid4 loads boottime host_boot s step recovery CNone CNone p));
    [|by intros Hp; apply (Hg false)].
  clear p. induction 1 as [b v|b e|b u k _ IH|u k _ IH|b k _ IH|b d k _ IH|b d k _ IH|b k _ IH];
    intros Hb; cbn [run_prog invoke]; try done; quiet.
Qed.
Lemma quiet_preflight s : quiet (preflight root_path uuid4 loads boottime host_boot s).
Proof.
  unfold preflight. apply quiet_bind; [apply quiet_run_passive, ad_preflight_passive|quiet].
Qed.

(** *** The coordinators *)

Lemma quiet_started s step : quiet (started root_path loads s step).
Proof. unfold started. quiet. Qed.
Lemma quiet_ph_cleanup ph s : quiet (ph_cleanup ph s).
Proof. unfold ph_cleanup, cleanup. quiet. Qed.
Lemma quiet_prepare ph s : quiet (prepare_automatic_return ph s).
Proof. unfold prepare_automatic_return. quiet. Qed.
Lemma quiet_pause ph s : quiet (pause root_path uuid4 boottime ph s).
Proof. unfold pause. quiet. Qed.
#[local] Hint Resolve quiet_preflight quiet_started quiet_ph_cleanup quiet_prepare quiet_pause : quiet.
Lemma quiet_stopped exc_text transfer_failure ph s e :
  quiet (stopped root_path uuid4 loads boottime exc_text transfer_failure ph s e).
Proof. unfold stopped. quiet. Qed.
Lemma quiet_start_guard s attended m1 m2 :
  quiet (start_guard root_path loads boottime host_boot s attended m1 m2).
Proof. unfold start_guard. quiet. Qed.
Lemma quiet_retire_network ph s : quiet (retire_network root_path loads ph s).
Proof. unfold retire_network. quiet. Qed.

Lemma quiet_recovering s : quiet (recovering root_path loads s).
Proof. unfold recovering. quiet. Qed.
Lemma quiet_publishing {A} step (m : W A) : quiet m → quiet (publishing step m).
Proof. intros Hm. unfold publishing, except. quiet. Qed.
Lemma quiet_publish_at d name v : quiet (publish_at root_path uuid4 d name v).
Proof. unfold publish_at. quiet. Qed.
Lemma quiet_read_receipt r : quiet (read_receipt root_path loads r).
Proof. unfold read_receipt. quiet. Qed.
Lemma quiet_physical_context s step msg : quiet (physical_context root_path loads s step msg).
Proof. unfold physical_context. quiet. Qed.
#[local] Hint Resolve quiet_recovering quiet_publishing quiet_publish_at quiet_read_receipt
  quiet_physical_context : quiet.
Lemma quiet_record_setup s receipt : quiet (record_setup_pending root_path uuid4 loads boottime host_boot s receipt).
Proof. unfold record_setup_pending, configuration. quiet. Qed.
#[local] Hint Resolve quiet_record_setup : quiet.
Lemma quiet_record_attempts s l : quiet (record_attempts root_path uuid4 loads boottime host_boot s l).
Proof.
  induction l as [|a l IH]; [apply quiet_ret|]. cbn [record_attempts]. unfold configuration, except. quiet.
Qed.
#[local] Hint Resolve quiet_record_attempts : quiet.
Lemma quiet_reconstruct_setup s : quiet (reconstruct_setup_pending root_path uuid4 loads boottime host_boot s).
Proof. unfold reconstruct_setup_pending, except. quiet. Qed.
Lemma quiet_operator_record s step physical statement :
  quiet (operator_record root_path uuid4 loads boottime s step physical statement).
Proof. unfold operator_record, file_present, pin_at. quiet. Qed.
Lemma quiet_departure_record s step context recovery :
  quiet (departure_record root_path uuid4 loads boottime host_boot s step context recovery).
Proof.
  unfold departure_record, file_present, pin_at. quiet. apply quiet_run_passive, ad_wait_passive.
Qed.
#[local] Hint Resolve quiet_reconstruct_setup quiet_operator_record quiet_departure_record : quiet.
Lemma quiet_finish_physical s step statement recovery :
  quiet (finish_physical root_path uuid4 loads boottime host_boot s step statement recovery).
Proof. unfold finish_physical, file_present. quiet. Qed.
Lemma quiet_setup_stage s step statement :
  quiet (setup_stage root_path uuid4 loads boottime host_boot s step statement).
Proof. unfold setup_stage, file_present, operation_receipt. quiet. Qed.
Lemma quiet_was_reset s : quiet (was_reset root_path loads s).
Proof. unfold was_reset, reset_intended. quiet. Qed.
Lemma quiet_gpt_close s plan recovery : quiet (gpt_close root_path uuid4 loads s plan recovery).
Proof. unfold gpt_close. quiet. Qed.
Lemma quiet_select_recovery s : quiet (select_recovery root_path uuid4 loads boottime s).
Proof. unfold select_recovery, except. quiet. Qed.
Lemma quiet_gpt_reconstruct s : quiet (gpt_reconstruct s).
Proof. unfold gpt_reconstruct, except. quiet. Qed.
Lemma quiet_repair_steps s plan : quiet (repair_steps root_path uuid4 loads boottime s plan).
Proof.
  induction plan as [|step plan IH]; [apply quiet_ret|]. cbn [repair_steps]. unfold except. quiet.
Qed.
#[local] Hint Resolve quiet_gpt_close quiet_repair_steps : quiet.
Lemma quiet_gpt_repair s : quiet (gpt_repair root_path uuid4 loads boottime s).
Proof. unfold gpt_repair. quiet. Qed.
End SessionQuiet.
#[export] Hint Resolve quiet_append quiet_live_grant quiet_check quiet_has_effect quiet_basis
  quiet_consumed quiet_unused_value quiet_require_owner quiet_retire_owner quiet_unused
  quiet_close_unused quiet_total_charge quiet_consume quiet_result quiet_completed quiet_close
  quiet_reconstruct quiet_record_all quiet_try_reconstruct quiet_intended quiet_recovery_steps
  quiet_claim_gpt quiet_claim_ext4 quiet_android_basis quiet_preflight quiet_started quiet_ph_cleanup
  quiet_prepare quiet_pause quiet_stopped quiet_start_guard quiet_retire_network quiet_recovering
  quiet_publish_at quiet_record_setup quiet_finish_physical quiet_setup_stage quiet_was_reset
  quiet_gpt_close quiet_select_recovery quiet_gpt_reconstruct quiet_gpt_repair : quiet.
