(* ===== verification/NativeReplay.v ===== *)
(** * The invariant of a native session

    Every step the adapter was allowed to act on has its intent in the journal,
    no step was allowed twice, and every effect happened under the last
    permission given. *)

From stdpp Require Import base list strings gmap sorting.
From Stdlib Require Import ZArith Lia Ascii.
From S2P Require Import Prelude PyStr Dir Json Digest HostFs Registry NativeRecords NativeSteps NativeWorld NativeCore NativeClaims NativeDrive NativePhased NativeSession NativeTheory.
Open Scope string_scope.

(** ** Traces *)

Definition grants (t : list tev) : list string :=
  omap (λ e, match e with TGrant x => Some x | TEffect _ => None end) t.
Definition effects (t : list tev) : list string :=
  omap (λ e, match e with TEffect x => Some x | TGrant _ => None end) t.

(** Every effect belongs to the step of the last permission. *)
Definition covered (t : list tev) : Prop :=
  ∀ t1 x t2, t = (t1 ++ TEffect x :: t2)%list → last (grants t1) = Some x.

Lemma covered_nil : covered [].
Proof. intros t1 x t2 H. by destruct t1. Qed.

Lemma covered_snoc t e :
  covered t → (∀ x, e = TEffect x → last (grants t) = Some x) → covered (t ++ [e])%list.
Proof.
  intros Hc He t1 x t2 Heq. destruct t2 as [|e' t2 _] using rev_ind.
  - apply app_inj_tail in Heq as [<- ->]. by apply He.
  - rewrite app_comm_cons, app_assoc in Heq. apply app_inj_tail in Heq as [Heq _]. by eapply Hc.
Qed.

Lemma grants_snoc t e : grants (t ++ [e])%list
  = (grants t ++ match e with TGrant x => [x] | TEffect _ => [] end)%list.
Proof. unfold grants. rewrite omap_app. by destruct e. Qed.

Lemma covered_grants t x : covered t → x ∈ effects t → x ∈ grants t.
Proof.
  intros Hc (e & Hin & He)%list_elem_of_omap. destruct e as [y|y]; [done|]. injection He as ->.
  apply list_elem_of_split in Hin as (t1 & t2 & ->). specialize (Hc t1 x t2 eq_refl).
  unfold grants. rewrite omap_app, elem_of_app. left.
  apply last_Some_elem_of in Hc. done.
Qed.

Lemma covered_effects t : covered t → grants t = [] → effects t = [].
Proof.
  intros Hc Hg. destruct (effects t) as [|x l] eqn:E; [done|].
  assert (Hx : x ∈ grants t) by (apply covered_grants; [done|rewrite E; left]).
  rewrite Hg in Hx. by apply elem_of_nil in Hx.
Qed.

(** ** Triples over worlds *)

Section Triples.
Context `{Adapter}.
Variable dir : string.

Definition wspec {A} (P : world → Prop) (m : W A) (Q : A → world → Prop) (E : world → Prop) : Prop :=
  ∀ w, P w → match m w with (Ok a, w') => Q a w' | (Err _, w') => E w' end.

Lemma wspec_bind {A B} P (m : W A) (k : A → W B) Q R E :
  wspec P m Q E → (∀ a, wspec (Q a) (k a) R E) → wspec P (m ≫= k) R E.
Proof.
  intros Hm Hk w HP. unfold mbind, W_bind. specialize (Hm w HP).
  destruct (m w) as [[a|e] w']; [by apply Hk|done].
Qed.

Lemma wspec_post {A} P (m : W A) (Q Q' : A → world → Prop) E :
  wspec P m Q E → (∀ a w, Q a w → Q' a w) → wspec P m Q' E.
Proof.
  intros Hm HQ w HP. specialize (Hm w HP). destruct (m w) as [[a|e] w']; auto.
Qed.

Lemma wspec_pre {A} (P P' : world → Prop) (m : W A) Q E :
  wspec P' m Q E → (∀ w, P w → P' w) → wspec P m Q E.
Proof. intros Hm HP w Hw. by apply Hm, HP. Qed.

Definition stable (P : world → Prop) : Prop := ∀ w w', still dir w w' → P w → P w'.

Lemma wspec_quiet {A} (P E : world → Prop) (m : W A) :
  stable P → (∀ w, P w → E w) → quiet dir m → wspec P m (λ _, P) E.
Proof.
  intros Hs HE Hq w HP. specialize (Hq w).
  destruct (m w) as [[a|e] w']; [by eapply Hs|eapply HE, Hs; eauto].
Qed.

(** A program whose every end keeps [P] *)
Definition holds {A} (P : world → Prop) (m : W A) : Prop := wspec P m (λ _, P) P.

Lemma holds_bind {A B} P (m : W A) (k : A → W B) :
  holds P m → (∀ a, holds P (k a)) → holds P (m ≫= k).
Proof. intros Hm Hk. by eapply wspec_bind. Qed.
Lemma holds_quiet {A} P (m : W A) : stable P → quiet dir m → holds P m.
Proof. intros Hs Hq. by apply wspec_quiet. Qed.
Lemma holds_end {A} P (m : W A) w : holds P m → P w → P (m w).2.
Proof. intros Hm HP. specialize (Hm w HP). by destruct (m w) as [[]]. Qed.

Lemma holds_caught {A} P (m : W A) : holds P m → holds P (caught m).
Proof.
  intros Hm w HP. specialize (Hm w HP). unfold caught.
  destruct (m w) as [[a|e] w']; [done|]. by destruct e.
Qed.
End Triples.

(** ** Rows and the files they come from *)

Section Rows.
Context `{Digest}.
Variable root_path : string.
Variable uuid4 : hostfs → string.
Variable loads : string → result json.

Lemma read_lstat fs dir n nd v :
  lstat fs dir n = Some nd → read loads fs dir n = Ok v → read_body loads (nd_body nd) = Ok v.
Proof.
  unfold read, read_bytes. intros ->. intros (b & Hb & Hv)%rbind_Ok. rsimp. done.
Qed.

(** Every published file of a journal that reads well is one of its rows. *)
Lemma rows_member maximum fs dir rs n nd :
  rows root_path loads maximum fs dir = Ok rs → lstat fs dir n = Some nd →
  publish_temp_re n = false → ∃ row, read_body loads (nd_body nd) = Ok (JObj row) ∧ row ∈ rs.
Proof.
  unfold rows, journal_state. intros (st & Hst & [= <-])%rbind_Ok Hl Ht. rsimp.
  assert (Hin : (n, nd) ∈ listing_by (λ n, negb (publish_temp_re n)) (entries fs dir)).
  { apply listing_by_elem. split; [done|]. by rewrite Ht. }
  revert Hin. refine (foldM_ind _ (λ pre st, (n, nd) ∈ pre → ∃ row,
    read_body loads (nd_body nd) = Ok (JObj row) ∧ row ∈ st.1) _ _ _ _ _ Hst); [by intros ?%elem_of_nil|].
  intros pre x s1 s2 IH Hstep. unfold rows_step in Hstep.
  apply rbind_Ok in Hstep as ([] & _ & Hstep). apply rbind_Ok in Hstep as (v & Hread & Hstep).
  destruct v as [| | | | | | |d]; rsimp. cbn.
  rewrite elem_of_app, list_elem_of_singleton. intros [Hp|<-].
  - destruct (IH Hp) as (row & Hr & Hin). exists row. split; [done|]. apply elem_of_app. by left.
  - exists d. split; [by eapply read_lstat|]. apply elem_of_app. right. by left.
Qed.

Lemma anyR_elem {A} (f : A → result bool) l x : x ∈ l → f x = Ok true → anyR f l ≠ Ok false.
Proof.
  induction 1 as [x l|x y l Hin IH]; intros Hx; simpl.
  - by rewrite Hx.
  - destruct (f y) as [[|]|]; simpl; [done|by apply IH|done].
Qed.

Lemma publish_Ok dir name v fs r fs' :
  publish root_path uuid4 dir name v fs = (Ok r, fs') →
  ∃ nd, lstat fs' dir name = Some nd ∧ nd_body nd = BText v.
Proof.
  assert (Hh : hoare (λ _, True) (publish root_path uuid4 dir name v)
    (λ _ fs', ∃ nd, lstat fs' dir name = Some nd ∧ nd_body nd = BText v) (λ _ _, True)).
  { unfold publish. do 2 (eapply hoare_bind; [apply (hoare_lift _ _ (λ _ _, True)); intros; by case_match|intros ?; cbn beta]).
    eapply hoare_bind; [by apply (hoare_getfs _ (λ _ _, True))|intros fs0].
    destruct (present fs0 dir (staging uuid4 fs0)); [by apply hoare_raise|].
    set (stg := staging uuid4 fs0).
    eapply hoare_bind;
      [apply (hoare_create_file _ _ _ _ _ (λ _ fs, ∃ nd, lstat fs dir stg = Some nd ∧ nd_body nd = BText v));
       [done..|]|intros ?; cbn beta].
    { intros fs1 fs2 nd _ (_ & _ & _ & Hb) Hd. exists nd. split; [by eapply lstat_put|done]. }
    eapply (hoare_bind _ _ _ (λ _ fs, ∃ nd, lstat fs dir name = Some nd ∧ nd_body nd = BText v));
      [|intros ?; apply hoare_reading; intros fs1 H1; by case_match].
    unfold rename_noreplace. eapply (hoare_bind _ _ _ (λ f1 fs1, f1 = fs1 ∧
      ∃ nd, lstat fs1 dir stg = Some nd ∧ nd_body nd = BText v)); [by apply hoare_getfs|].
    intros fs1. destruct (present fs1 dir name) eqn:Hp.
    - eapply hoare_bind; [|intros ?; apply hoare_raise; done].
      apply (hoare_unlink _ _ _ (λ _ _, True)); done.
    - apply hoare_rename_over; [done..|]. intros f1 f2 nd [<- (nd' & Hl & Hb)] Hl' Hd.
      exists nd. split; [by eapply lstat_put|]. congruence. }
  intros Hp. specialize (Hh fs I). by rewrite Hp in Hh.
Qed.
End Rows.

(** ** The invariant *)

Section Invariant.
Context `{Digest} `{Adapter}.
Variable root_path : string.
Variable uuid4 : hostfs → string.
Variable loads : string → result json.
Variable boottime : nat → Z.
Variable host_boot : string.
Hypothesis uuid_hex : ∀ fs, publish_temp_re (staging uuid4 fs) = true.
Variable s : session.
Notation dir := (journal_dir s).
Hypothesis not_research : dir ≠ RESEARCH.

Notation stable := (stable dir).
Notation quiet := (quiet dir).
Notation journal_rows := (journal_rows root_path loads s).
Notation journal_append := (journal_append root_path uuid4 loads boottime s).
Notation check := (check root_path boottime host_boot s).
Notation consume := (consume root_path uuid4 loads boottime host_boot s).
Notation intent := (intent root_path uuid4 loads boottime host_boot s).
Notation run_prog := (run_prog root_path uuid4 loads boottime host_boot s).

(** A published file of the journal whose row, if it can be read, is the intent of [x] *)
Definition intent_file (fs : hostfs) (x : string) : Prop :=
  ∃ n nd, publish_temp_re n = false ∧ lstat fs dir n = Some nd
    ∧ ∀ row, read_body loads (nd_body nd) = Ok (JObj row) → row_of_step "effect-intent" x row = Ok true.

Definition Inv (w : world) : Prop :=
  NoDup (grants (w_trace w)) ∧ covered (w_trace w)
  ∧ ∀ x, x ∈ grants (w_trace w) → intent_file (w_fs w) x.

Lemma intent_file_grows fs fs' x : grows dir fs fs' → intent_file fs x → intent_file fs' x.
Proof. intros Hg (n & nd & Ht & Hl & Hr). exists n, nd. auto. Qed.

Lemma stable_Inv : stable Inv.
Proof.
  intros w w' [Hg Ht] (Hn & Hc & Hf). unfold Inv. rewrite Ht. split_and!; [done..|].
  intros x Hx. eapply intent_file_grows; [exact Hg|auto].
Qed.

(** A step allowed before is found in the journal again. *)
Lemma replay_refused w x rs :
  Inv w → journal_rows (w_fs w) = Ok rs →
  anyR (row_of_step "effect-intent" x) rs = Ok false → x ∉ grants (w_trace w).
Proof.
  intros (_ & _ & Hf) Hrs Hany Hx. destruct (Hf x Hx) as (n & nd & Ht & Hl & Hr).
  destruct (rows_member _ _ _ _ _ _ _ _ Hrs Hl Ht) as (row & Hrow & Hin).
  by apply (anyR_elem _ _ _ Hin (Hr row Hrow)).
Qed.

(** The row of an intent, read back *)
Lemma intent_row_read i prev b step extra row :
  read_body loads (BText (journal_row i prev b "effect-intent"
    (step_of_row step ++ extra))) = Ok (JObj row) →
  NoDup (keys (step_of_row step ++ extra)) →
  row_of_step "effect-intent" (sp_name step) row = Ok true.
Proof.
  unfold read_body. intros ([] & _ & Hr)%rbind_Ok Hnd. apply rbind_Ok in Hr as ([] & _ & Hr).
  unfold journal_row in Hr. rewrite norm_JObj in Hr. injection Hr as <-.
  set (row := [_; _; _; _; _; _]).
  assert (Hk : NoDup (keys row)) by (apply (bool_decide_unpack _); vm_compute; exact I).
  assert (He : fld (norm_dict row) "event" = JStr "effect-intent") by (by rewrite fld_norm_dict).
  assert (Hd : fld (norm_dict row) "data" = JObj (norm_dict (step_of_row step ++ extra)))
    by (by rewrite fld_norm_dict, <- norm_JObj).
  unfold row_of_step, event_is, row_data. rewrite He, Hd.
  unfold idx. rewrite dget_norm_dict by done. simpl. by rewrite String.eqb_refl.
Qed.

Lemma append_intent_file step extra w r w' :
  NoDup (keys (step_of_row step ++ extra)) →
  journal_append "effect-intent" (step_of_row step ++ extra) w = (Ok r, w') →
  intent_file (w_fs w') (sp_name step).
Proof.
  intros Hnd. unfold NativeCore.journal_append, mbind, W_bind, seen.
  destruct (journal_rows _) as [rs|]; [|done]. unfold clock, onfs. cbn zeta.
  set (now := boottime _). destruct (0 <? now)%Z; [|done]. cbn beta iota zeta.
  set (fs := w_fs _). destruct (append_row _ _ _ _ _ now _ _ fs) as [r' fs'] eqn:Ha.
  cbn. intros [= -> <-]. cbn. revert Ha. unfold append_row, mbind, M_bind, reading, lift.
  destruct (journal_state _ _ _ fs _) as [[rows prev]|]; [|done]. cbn beta iota zeta.
  unfold nreq, require. destruct (_ <? MAX_ROWS)%nat eqn:Hi; [|done].
  destruct (match length _ with O => _ | S _ => _ end) as [p|]; [|done].
  destruct (0 <? _)%Z; [|done]. intros Hp%publish_Ok. destruct Hp as (nd & Hl & Hb).
  apply Nat.ltb_lt in Hi. exists (journal_name (length rows)), nd.
  split_and!; [by apply journal_name_free; eapply Nat.lt_le_trans; [exact Hi|apply Nat.leb_le; vm_compute]|done|].
  rewrite Hb. intros row Hr. by eapply intent_row_read.
Qed.

(** ** The intent *)

Lemma wspec_journal_rows P (E : world → Prop) :
  (∀ w, P w → E w) →
  wspec P (seen journal_rows) (λ rs w, P w ∧ journal_rows (w_fs w) = Ok rs) E.
Proof.
  intros HE w HP. unfold seen. destruct (journal_rows (w_fs w)) eqn:Er; [done|auto].
Qed.

Lemma wspec_pure {A} (φ : Prop) P (m : W A) Q E :
  (φ → wspec P m Q E) → wspec (λ w, φ ∧ P w) m Q E.
Proof. intros Hm w [Hφ HP]. by apply Hm. Qed.

Definition fresh_step (step : Step) (w : world) : Prop :=
  Inv w ∧ sp_name step ∉ grants (w_trace w).
Definition recorded (step : Step) (w : world) : Prop :=
  fresh_step step w ∧ intent_file (w_fs w) (sp_name step).

Lemma stable_fresh step : stable (fresh_step step).
Proof.
  intros w w' Hs [Hi Hx]. split; [by eapply stable_Inv|]. by rewrite (proj2 Hs).
Qed.
Lemma stable_recorded step : stable (recorded step).
Proof.
  intros w w' Hs [Hf Hi]. split; [by eapply stable_fresh|].
  eapply intent_file_grows; [exact (proj1 Hs)|done].
Qed.

(** The last permission is the step's own. *)
Definition granted (step : Step) (w : world) : Prop :=
  Inv w ∧ last (grants (w_trace w)) = Some (sp_name step).
Lemma stable_granted step : stable (granted step).
Proof. intros w w' Hs [Hi Hl]. split; [by eapply stable_Inv|]. by rewrite (proj2 Hs). Qed.

Lemma emit_grant step :
  wspec (recorded step) (emit (TGrant (sp_name step))) (λ _, granted step) Inv.
Proof.
  intros w [[(Hn & Hc & Hf) Hx] Hi]. unfold emit, granted, Inv. cbn. rewrite grants_snoc.
  split; [|by rewrite last_snoc]. split_and!.
  - apply NoDup_app. split_and!; [done| |apply NoDup_singleton].
    by intros y Hy ->%list_elem_of_singleton.
  - by apply covered_snoc.
  - intros x [Hin| ->%list_elem_of_singleton]%elem_of_app; auto.
Qed.

Lemma append_intent step extra :
  NoDup (keys (step_of_row step ++ extra)) →
  wspec (fresh_step step) (journal_append "effect-intent" (step_of_row step ++ extra))
    (λ _, recorded step) Inv.
Proof.
  intros Hnd w Hw.
  assert (Hq : quiet (journal_append "effect-intent" (step_of_row step ++ extra)))
    by (apply quiet_append; done).
  specialize (Hq w). pose proof (stable_fresh step _ _ Hq Hw) as Hw'.
  destruct (journal_append _ _ w) as [[r|e] w'] eqn:Ha; [|apply Hw'].
  split; [done|]. by eapply append_intent_file.
Qed.

Lemma intent_spec step recovery d :
  wspec Inv (intent step recovery d) (λ _, granted step) Inv.
Proof.
  pose proof stable_Inv as HsI. pose proof (stable_fresh step) as HsF.
  assert (HF : ∀ w, fresh_step step w → Inv w) by (by intros w [? _]).
  unfold NativeDrive.intent.
  eapply wspec_bind; [apply (wspec_quiet dir); [done..|by apply quiet_check]|intros ?].
  eapply wspec_bind; [apply (wspec_quiet dir); [done..|by apply quiet_unused]|intros closed].
  eapply wspec_bind; [apply (wspec_quiet dir); [done..|quiet]|intros ?].
  eapply wspec_bind; [by apply wspec_journal_rows|intros rs].
  eapply (wspec_bind _ _ _ (λ b w, Inv w ∧ anyR (row_of_step "effect-intent" (sp_name step)) rs = Ok b
    ∧ journal_rows (w_fs w) = Ok rs)).
  { intros w [Hi Hr]. unfold wlift. by destruct (anyR _ _). }
  intros replay. eapply (wspec_bind _ _ _ (λ _, fresh_step step)).
  { intros w (Hi & Hany & Hr). destruct replay; [done|]. cbn. split; [done|].
    by eapply replay_refused. }
  intros ?.
  assert (Hb : ∀ A B (m : W A) (k : A → W B) Q,
    quiet m → (∀ a, wspec (fresh_step step) (k a) Q Inv) → wspec (fresh_step step) (m ≫= k) Q Inv).
  { intros A B m k Q Hm Hk. by eapply wspec_bind; [apply (wspec_quiet dir)|]. }
  apply Hb; [destruct recovery; quiet|intros ?].
  apply Hb; [quiet|intros ?]. apply Hb; [quiet|intros ?].
  apply Hb; [unfold request_of; quiet|intros op]. apply Hb; [quiet|intros ?]. apply Hb; [destruct d; quiet|intros extra].
  eapply wspec_bind; [apply append_intent|intros r].
  { by apply (bool_decide_unpack _); vm_compute. }
  eapply wspec_bind; [apply (wspec_quiet dir); [apply stable_recorded|by intros w [[? _] _]|]|intros ?].
  { destruct d; quiet. }
  eapply wspec_bind; [apply emit_grant|intros ?]. by intros w Hw.
Qed.

(** ** The adapter's program *)

(** [b]: the step has its intent, so effects are its own *)
Definition during (step : Step) (b : bool) (w : world) : Prop :=
  if b then granted step w else Inv w.

Lemma during_Inv step b w : during step b w → Inv w.
Proof. by destruct b; [intros [? _]|]. Qed.
Lemma stable_during step b : stable (during step b).
Proof. destruct b; [apply stable_granted|apply stable_Inv]. Qed.
Lemma granted_during step b w : granted step w → during step b w.
Proof. by destruct b; [|intros [? _]]. Qed.
#[local] Hint Resolve during_Inv stable_during granted_during stable_Inv : core.

Lemma invoke_spec step recovery c d b :
  wspec (during step b) (invoke root_path uuid4 loads boottime host_boot s step recovery c d)
    (λ _, during step (b || is_intent c)) Inv.
Proof.
  destruct c; cbn [invoke is_intent]; rewrite ?orb_false_r.
  - rewrite orb_true_r. eapply wspec_pre; [apply intent_spec|apply during_Inv].
  - apply (wspec_quiet dir); [done|apply during_Inv|quiet].
  - apply (wspec_quiet dir); [done|apply during_Inv|quiet].
Qed.

Lemma emit_effect step u :
  wspec (during step true) (_ ← onfs tick; _ ← emit (TEffect (sp_name step)); move u)
    (λ _, during step true) Inv.
Proof.
  assert (Hq : quiet (onfs tick)) by quiet.
  intros w Hw. specialize (Hq w). pose proof (stable_during step true _ _ Hq Hw) as Hg.
  unfold mbind, W_bind. destruct (onfs tick w) as [[[]|e] w']; [|apply Hg].
  destruct Hg as [(Hn & Hc & Hf) Hl]. unfold emit, move, during, granted, Inv. cbn in *.
  rewrite !grants_snoc, app_nil_r. split; [|done]. split_and!; [done| |done].
  apply covered_snoc; [done|]. by intros x [= <-].
Qed.

Lemma run_prog_spec step recovery main extra b p :
  guarded (is_intent main) (is_intent extra) b p →
  wspec (during step b) (run_prog step recovery main extra p) (λ _, Inv) Inv.
Proof.
  induction 1 as [b v|b e|b u k _ IH|u k _ IH|b k _ IH|b d k _ IH|b d k _ IH|b k _ IH];
    cbn [NativeDrive.run_prog].
  - by intros w ?%during_Inv.
  - by intros w ?%during_Inv.
  - eapply wspec_bind; [apply (wspec_quiet dir); [done|apply during_Inv|quiet]|done].
  - intros w Hw. pose proof (emit_effect step u w Hw) as He. revert He.
    unfold mbind, W_bind. destruct (onfs tick w) as [[[]|e] w']; [|done].
    cbn. intros He. by apply IH.
  - eapply wspec_bind; [apply (wspec_quiet dir); [done|apply during_Inv|quiet]|done].
  - eapply wspec_bind; [apply invoke_spec|intros r; cbn beta; apply IH].
  - eapply wspec_bind; [apply invoke_spec|intros r; cbn beta; apply IH].
  - eapply wspec_bind; [apply (wspec_quiet dir); [done|apply during_Inv|quiet]|done].
Qed.

(** ** The operations *)

Notation holds := (holds Inv).

Lemma holds_q {A} (m : W A) : quiet m → holds m.
Proof. by apply holds_quiet. Qed.

Lemma holds_perform step recovery :
  holds (perform root_path uuid4 loads boottime host_boot s step recovery).
Proof.
  unfold perform. do 4 (apply holds_bind; [apply holds_q; quiet|intros ?]).
  apply holds_bind; [|intros v; apply holds_q; quiet].
  eapply wspec_pre; [apply (run_prog_spec _ _ _ _ false)|done]. apply ad_perform_guarded.
Qed.
Lemma holds_intent step recovery d : holds (intent step recovery d).
Proof. eapply wspec_post; [apply intent_spec|]. by intros a w [? _]. Qed.
#[local] Hint Resolve holds_perform holds_intent : holds.

Ltac holds :=
  repeat first
    [ progress intros
    | progress cbv zeta
    | solve [auto with holds]
    | solve [apply holds_q; quiet]
    | apply holds_bind
    | apply holds_caught
    | match goal with |- NativeReplay.holds _ (match ?x with _ => _ end) => destruct x end ].

Lemma holds_recover_transfer android :
  holds (recover_transfer root_path uuid4 loads boottime host_boot s android).
Proof. unfold recover_transfer. holds. Qed.
#[local] Hint Resolve holds_recover_transfer : holds.
Lemma holds_recover_android attended :
  holds (recover_android root_path uuid4 loads boottime host_boot s attended).
Proof. unfold recover_android. holds. Qed.
#[local] Hint Resolve holds_recover_android : holds.

(** *** Coordinators with a physical pause *)

Lemma holds_continue_step step recovery :
  holds (continue_step root_path uuid4 loads boottime host_boot s step recovery).
Proof. unfold continue_step. holds. Qed.
#[local] Hint Resolve holds_continue_step : holds.
Lemma holds_walk ph allow plan :
  holds (walk root_path uuid4 loads boottime host_boot ph s allow plan).
Proof. induction plan as [|step plan IH]; cbn [walk]; holds. Qed.
#[local] Hint Resolve holds_walk : holds.

Section Calls.
Variable exc_text : pyexc → string.
Variable transfer_failure : pyexc → json.
Variable is_repo : bool.
Variable resolve : string → string.

Lemma holds_phased_body ph attended :
  holds (phased_body root_path uuid4 loads boottime host_boot exc_text transfer_failure is_repo resolve
           ph s attended).
Proof. unfold phased_body, lease. holds. Qed.
#[local] Hint Resolve holds_phased_body : holds.
Lemma holds_phased_execute ph attended :
  holds (phased_execute root_path uuid4 loads boottime host_boot exc_text transfer_failure is_repo resolve
           ph s attended).
Proof. unfold phased_execute, finally. holds. Qed.
Lemma holds_phased_resume ph attended :
  holds (phased_resume root_path uuid4 loads boottime host_boot exc_text transfer_failure is_repo resolve
           ph s attended).
Proof. unfold phased_resume, lease. holds. Qed.

(** *** The GPT coordinator *)

Lemma holds_begin_physical step recovery :
  holds (begin_physical root_path uuid4 loads boottime host_boot s step recovery).
Proof. unfold begin_physical, operation_receipt. holds. Qed.
#[local] Hint Resolve holds_begin_physical : holds.
Lemma holds_walk_step recovery step statement :
  holds (walk_step root_path uuid4 loads boottime host_boot s recovery step statement).
Proof. unfold walk_step, file_present, physical_stage. holds. Qed.
#[local] Hint Resolve holds_walk_step : holds.
Lemma holds_gpt_walk recovery plan statement :
  holds (gpt_walk root_path uuid4 loads boottime host_boot s recovery plan statement).
Proof. revert statement. induction plan as [|step plan IH]; intros; cbn [gpt_walk]; holds. Qed.
#[local] Hint Resolve holds_gpt_walk : holds.
Lemma holds_gpt_stopped e recovery attended :
  holds (gpt_stopped root_path uuid4 loads boottime host_boot s e recovery attended).
Proof. unfold gpt_stopped, gpt_intended. holds. Qed.
#[local] Hint Resolve holds_gpt_stopped : holds.
Lemma holds_walk_or_stop m plan recovery attended :
  holds m → holds (walk_or_stop root_path uuid4 loads boottime host_boot s m plan recovery attended).
Proof. intros Hm. unfold walk_or_stop. holds. Qed.
#[local] Hint Resolve holds_walk_or_stop : holds.
Lemma holds_gpt_execute attended :
  holds (gpt_execute root_path uuid4 loads boottime host_boot is_repo resolve s attended).
Proof. unfold gpt_execute, lease. holds. Qed.
Lemma holds_gpt_resume attended statement :
  holds (gpt_resume root_path uuid4 loads boottime host_boot is_repo resolve s attended statement).
Proof. unfold gpt_resume, lease, file_present. holds. Qed.
Lemma holds_gpt_recover attended :
  holds (gpt_recover root_path uuid4 loads boottime host_boot s attended).
Proof. unfold gpt_recover, file_present, gpt_intended. holds. Qed.
#[local] Hint Resolve holds_phased_execute holds_phased_resume holds_gpt_execute holds_gpt_resume
  holds_gpt_recover : holds.

(** *** Calls *)

Lemma holds_recover_ attended : holds (recover_ root_path uuid4 loads boottime host_boot s attended).
Proof. unfold recover_. holds. Qed.
#[local] Hint Resolve holds_recover_ : holds.
Lemma holds_recover attended :
  holds (recover root_path uuid4 loads boottime host_boot is_repo resolve s attended).
Proof. unfold recover, lease, finally, cleanup. holds. Qed.

Lemma holds_perform_plan plan :
  holds (perform_plan root_path uuid4 loads boottime host_boot s plan).
Proof. induction plan as [|step plan IH]; cbn [perform_plan]; holds. Qed.
#[local] Hint Resolve holds_perform_plan : holds.
Lemma holds_run_plan plan :
  holds (run_plan root_path uuid4 loads boottime host_boot s plan).
Proof. unfold run_plan. holds. Qed.
#[local] Hint Resolve holds_run_plan : holds.
Lemma holds_stop_or_recover plan attended e at_step :
  holds (stop_or_recover root_path uuid4 loads boottime host_boot s plan attended e at_step).
Proof. unfold stop_or_recover. holds. Qed.
#[local] Hint Resolve holds_stop_or_recover : holds.
Lemma holds_execute_plain attended :
  holds (execute_plain root_path uuid4 loads boottime host_boot is_repo resolve s attended).
Proof. unfold execute_plain, lease, request_of. holds. Qed.
#[local] Hint Resolve holds_execute_plain : holds.

Lemma holds_execute attended :
  holds (execute root_path uuid4 loads boottime host_boot exc_text transfer_failure is_repo resolve s attended).
Proof. unfold execute. holds. Qed.
Lemma holds_resume attended statement :
  holds (resume root_path uuid4 loads boottime host_boot exc_text transfer_failure is_repo resolve
           s attended statement).
Proof. unfold resume. holds. Qed.
Lemma holds_repair_close :
  holds (repair_close root_path uuid4 loads boottime is_repo resolve s).
Proof. unfold repair_close, lease. holds. Qed.
End Calls.
End Invariant.
