(* ===== verification/NativeJournal.v ===== *)
(** * The journal of a native session

    Appending is atomic: after any crash the journal reads as the rows before
    or as those rows and exactly the new one, and a normal return means the
    new one is there.

    A permission is given only while the session owns the global owner sentinel,
    and, outside recovery, only for an operation that was consumed. *)

From stdpp Require Import base list strings gmap sorting.
From Stdlib Require Import ZArith Lia Ascii.
From S2P Require Import Prelude PyStr Dir Json Digest HostFs Registry RegistryCrash RegistryProps NativeRecords NativeSteps NativeWorld NativeCore NativeClaims NativeDrive NativePhased NativeSession NativeTheory NativeReplay.
Open Scope string_scope.

(** ** Names *)

Definition journal_step_ok (i : nat) : bool :=
  String.leb (journal_name i) (journal_name (S i)) && negb (journal_name i =? journal_name (S i)).

Lemma journal_steps_ok : forallb journal_step_ok (seq 0 2052) = true.
Proof. vm_compute. reflexivity. Qed.

Lemma journal_step i : (i < 2052)%nat →
  String.le (journal_name i) (journal_name (S i)) ∧ journal_name i ≠ journal_name (S i).
Proof.
  intros Hi. pose proof journal_steps_ok as Hall. rewrite forallb_forall in Hall.
  assert (Hs : journal_step_ok i = true) by (apply Hall, in_seq; lia).
  unfold journal_step_ok in Hs. bsimp. split; [unfold String.le; by rewrite H|].
  by apply String.eqb_neq.
Qed.

Lemma journal_name_le i j : (i ≤ j)%nat → (j ≤ 2052)%nat → String.le (journal_name i) (journal_name j).
Proof.
  induction 1 as [|j Hij IH]; intros Hj; [done|].
  transitivity (journal_name j); [apply IH; lia|apply journal_step; lia].
Qed.

Lemma journal_name_inj i j : (i < j)%nat → (j ≤ 2052)%nat → journal_name i ≠ journal_name j.
Proof.
  intros Hij Hj Heq. destruct (journal_step i) as [Hle Hne]; [lia|]. apply Hne.
  apply (anti_symm String.le); [done|]. rewrite Heq. apply journal_name_le; lia.
Qed.

#[local] Opaque MAX_NATIVE_RECORD.

Section Journal.
Context `{Digest}.
Variable root_path : string.
Variable uuid4 : hostfs → string.
Variable loads : string → result json.
Variable maximum : nat.
Hypothesis maximum_ok : (maximum ≤ 2052)%nat.
Variable dir : string.

Notation journal_state := (journal_state root_path loads maximum).
Notation rows_step := (rows_step root_path loads).
Notation publish := (publish root_path uuid4).

(** ** What a journal that reads well consists of *)

Definition files (fs : hostfs) : list (string * node) :=
  listing_by (λ n, negb (publish_temp_re n)) (entries fs dir).
Definition staged (fs : hostfs) : list (string * node) := listing_by publish_temp_re (entries fs dir).

Lemma rows_step_Ok fs st f st' :
  rows_step fs dir st f = Ok st' →
  f.1 = journal_name (length st.1) ∧ ∃ row, st' = ((st.1 ++ [row])%list, st'.2).
Proof.
  unfold NativeRecords.rows_step. intros ([] & Hn & Hs)%rbind_Ok. unfold nreq in Hn.
  apply require_Ok in Hn. bsimp. apply rbind_Ok in Hs as (v & _ & Hs).
  destruct v as [| | | | | | |d]; rsimp; try done. cbn. eauto.
Qed.

Lemma fold_names fs l st :
  foldM (rows_step fs dir) ([], JNull) l = Ok st →
  l.*1 = map journal_name (seq 0 (length l)) ∧ length st.1 = length l.
Proof.
  apply (foldM_ind _ (λ pre st, pre.*1 = map journal_name (seq 0 (length pre)) ∧ length st.1 = length pre));
    [done|].
  intros pre x s1 s2 [Hm Hl] (Hx & row & ->)%rows_step_Ok. cbn.
  rewrite fmap_app, !length_app, Hm, Hl, Nat.add_1_r, seq_S, map_app. cbn.
  rewrite Hx, Hl. split; [done|lia].
Qed.

Lemma journal_state_Ok fs st :
  journal_state fs dir = Ok st ↔
  Forall (λ f, staging_entry f = Ok tt) (staged fs) ∧ (length (files fs) ≤ maximum)%nat
  ∧ foldM (rows_step fs dir) ([], JNull) (files fs) = Ok st.
Proof.
  unfold NativeRecords.journal_state. rewrite rbind_unit, forM_Ok, rbind_unit.
  unfold nreq. rewrite require_Ok, Nat.leb_le. done.
Qed.

(** Reading depends on the files alone. *)
Lemma read_same fs fs' n : lstat fs dir n = lstat fs' dir n →
  read loads fs dir n = read loads fs' dir n ∧ pin root_path fs dir n = pin root_path fs' dir n.
Proof. intros Hl. unfold read, pin, read_bytes. by rewrite Hl. Qed.

Lemma fold_same fs fs' l st :
  (∀ f, f ∈ l → lstat fs dir f.1 = lstat fs' dir f.1) →
  foldM (rows_step fs dir) st l = foldM (rows_step fs' dir) st l.
Proof.
  revert st. induction l as [|f l IH]; intros st Hall; [done|]. cbn [foldM].
  assert (Hs : rows_step fs dir st f = rows_step fs' dir st f).
  { unfold NativeRecords.rows_step. destruct (read_same fs fs' f.1) as [-> ->]; [|done].
    apply Hall. left. }
  rewrite Hs. destruct (rows_step fs' dir st f); [|done]. apply IH. intros g Hg. apply Hall. by right.
Qed.

Lemma files_lstat fs f : f ∈ files fs → lstat fs dir f.1 = Some f.2 ∧ publish_temp_re f.1 = false.
Proof.
  destruct f as [n nd]. intros [Hl Hp]%listing_by_elem. split; [done|]. by apply negb_true_iff.
Qed.

(** ** Staging files do not matter *)

Lemma put_entries fs fs' n nd :
  hf_dirs fs' = hf_dirs (put fs dir n nd) → entries fs' dir = <[n := nd]> (entries fs dir).
Proof.
  intros Hd. unfold entries at 1. rewrite Hd.
  change (entries (put fs dir n nd) dir = <[n := nd]> (entries fs dir)).
  by rewrite entries_put, decide_True.
Qed.

Lemma state_dirs fs fs' : hf_dirs fs' = hf_dirs fs → journal_state fs' dir = journal_state fs dir.
Proof.
  intros Hd. assert (He : entries fs' dir = entries fs dir) by (unfold entries; by rewrite Hd).
  unfold NativeRecords.journal_state. rewrite He. destruct (forM _ _); [|done]. cbn.
  destruct (nreq _ _); [|done]. cbn. apply fold_same. intros f _. unfold lstat. by rewrite He.
Qed.

Lemma state_staging fs fs' st n nd :
  journal_state fs dir = Ok st → publish_temp_re n = true → lstat fs dir n = None →
  staging_entry (n, nd) = Ok tt → hf_dirs fs' = hf_dirs (put fs dir n nd) →
  journal_state fs' dir = Ok st.
Proof.
  rewrite !journal_state_Ok. intros (Hst & Hlen & Hf) Ht Hl Hn Hd.
  pose proof (put_entries _ _ _ _ Hd) as He.
  assert (Hfs : files fs' = files fs).
  { unfold files. rewrite He. apply listing_by_insert_other; [by rewrite Ht|done]. }
  rewrite Hfs. split_and!; [|done|].
  - apply Forall_forall. intros [n' nd'] [Hl' Ht']%listing_by_elem. rewrite He in Hl'.
    destruct (decide (n' = n)) as [->|Hne]; [by rewrite lookup_insert_eq in Hl'; injection Hl' as <-|].
    rewrite lookup_insert_ne in Hl' by done. rewrite Forall_forall in Hst. apply Hst.
    by apply listing_by_elem.
  - rewrite <- Hf. apply fold_same. intros f [_ Hp]%files_lstat. unfold lstat. rewrite He.
    rewrite lookup_insert_ne; [done|]. intros ->. congruence.
Qed.

(** ** The next file *)

Lemma next_free fs st :
  journal_state fs dir = Ok st → (length st.1 < maximum)%nat →
  lstat fs dir (journal_name (length st.1)) = None
  ∧ Forall (λ n, String.le n (journal_name (length st.1)))
      (names_by (λ n, negb (publish_temp_re n)) (entries fs dir)).
Proof.
  intros (_ & _ & Hf)%journal_state_Ok Hlen. apply fold_names in Hf as [Hm Hl].
  unfold files in *. rewrite listing_by_names in Hm. rewrite Hm, <- Hl. split.
  - destruct (lstat _ _ _) as [nd|] eqn:E; [|done]. exfalso.
    assert (Hin : journal_name (length st.1) ∈ names_by (λ n, negb (publish_temp_re n)) (entries fs dir)).
    { apply names_by_elem. split; [by eexists|]. rewrite journal_name_free by lia. done. }
    rewrite Hm, <- Hl in Hin. apply list_elem_of_In, in_map_iff in Hin as (i & Hi & Hin).
    apply in_seq in Hin. apply (journal_name_inj i (length st.1)); [lia..|done].
  - apply Forall_forall. intros n Hn%list_elem_of_In. apply in_map_iff in Hn as (i & <- & Hi).
    apply in_seq in Hi. apply journal_name_le; lia.
Qed.

Lemma state_snoc fs fs' st nd st' :
  journal_state fs dir = Ok st → (length st.1 < maximum)%nat →
  hf_dirs fs' = hf_dirs (put fs dir (journal_name (length st.1)) nd) →
  rows_step fs' dir st (journal_name (length st.1), nd) = Ok st' →
  journal_state fs' dir = Ok st'.
Proof.
  intros Hs Hlen Hd Hstep. destruct (next_free _ _ Hs Hlen) as [Hfree Hall].
  pose proof (put_entries _ _ _ _ Hd) as He. set (name := journal_name _) in *.
  assert (Hp : publish_temp_re name = false) by (apply journal_name_free; lia).
  assert (Hfs : files fs' = (files fs ++ [(name, nd)])%list).
  { unfold files. rewrite He. apply listing_by_insert_last; [done|by rewrite Hp|done]. }
  apply journal_state_Ok in Hs as (Hst & Hle & Hf). apply journal_state_Ok.
  pose proof (fold_names _ _ _ Hf) as [_ Hl]. rewrite Hfs. split_and!.
  - unfold staged. rewrite He, listing_by_insert_other; [done..|]. done.
  - rewrite length_app. cbn. lia.
  - rewrite foldM_snoc, <- (fold_same fs fs'), Hf; [done|].
    intros f [Hl' _]%files_lstat. unfold lstat in *. rewrite He, lookup_insert_ne; [done|].
    intros ->. by rewrite Hl' in Hfree.
Qed.

(** The receipt a journal ends with is the one of its last file. *)
Lemma state_previous fs st :
  journal_state fs dir = Ok st →
  match length st.1 with O => st.2 = JNull | S i => pin root_path fs dir (journal_name i) = Ok st.2 end.
Proof.
  intros (_ & _ & Hf)%journal_state_Ok. revert Hf.
  apply (foldM_ind _ (λ _ st, match length st.1 with O => st.2 = JNull
    | S i => pin root_path fs dir (journal_name i) = Ok st.2 end)); [done|].
  intros _ x s1 s2 _ Hstep. pose proof (rows_step_Ok _ _ _ _ Hstep) as (Hn & _ & _).
  revert Hstep. unfold NativeRecords.rows_step. intros ([] & _ & Hs)%rbind_Ok.
  apply rbind_Ok in Hs as (v & _ & Hs). destruct v as [| | | | | | |d]; try discriminate Hs.
  apply rbind_Ok in Hs as ([] & _ & Hs). apply rbind_Ok in Hs as (rc & Hrc & [= <-]). cbn.
  rewrite length_app, Nat.add_1_r. by rewrite <- Hn.
Qed.

Lemma pin_same_norm fs d n v : pin root_path fs d n = Ok v → py_eqb (norm v) v = true.
Proof.
  unfold pin. intros (b & _ & [= <-])%rbind_Ok. unfold receipt_of.
  generalize (path_of root_path d n) (Z.of_nat (body_size b)) (hexdigest (bytes_of b)).
  intros p z h.
  change (norm _) with (JObj [("path", JStr p); ("sha256", JStr h); ("size", JInt z)]).
  cbn. rewrite !String.eqb_refl. cbn. unfold num_eqb. cbn. by rewrite Z.eqb_refl.
Qed.

(** ** Publication *)

Hypothesis uuid_hex : ∀ fs, publish_temp_re (staging uuid4 fs) = true.

Definition small (v : json) : Prop := finite v = true ∧ (body_size (BText v) ≤ MAX_NATIVE_RECORD)%nat.

(** What a publication under a free name can leave: all of it, nothing, or a staging file. *)
Definition published (name : string) (v : json) (f0 fs : hostfs) : Prop :=
  ∃ nd, fresh M400 (BText v) nd ∧ hf_dirs fs = hf_dirs (put f0 dir name nd) ∧ small v.
Definition unpublished (f0 fs : hostfs) : Prop :=
  hf_dirs fs = hf_dirs f0
  ∨ ∃ n nd b, fresh M400 b nd ∧ (body_size b ≤ MAX_NATIVE_RECORD)%nat ∧ publish_temp_re n = true
      ∧ lstat f0 dir n = None ∧ hf_dirs fs = hf_dirs (put f0 dir n nd).

Lemma body_size_text v : (0 < body_size (BText v))%nat.
Proof. unfold body_size, bytes_of, text_of. rewrite str_length_app. cbn. lia. Qed.

Lemma pin_fresh fs n nd v : lstat fs dir n = Some nd → fresh M400 (BText v) nd → small v →
  read_bytes fs dir n = Ok (BText v) ∧ pin root_path fs dir n = Ok (receipt_of root_path dir n (BText v)).
Proof.
  intros Hl (Hk & _ & Hn & Hb) [_ Hs].
  assert (Hr : read_bytes fs dir n = Ok (BText v)).
  { unfold read_bytes. rewrite Hl, Hk, Hn, Hb. pose proof (body_size_text v) as H0.
    apply Nat.ltb_lt in H0. apply Nat.leb_le in Hs. by rewrite H0, Hs. }
  split; [done|]. unfold pin. by rewrite Hr.
Qed.

Section Publishing.
Variables (f0 : hostfs) (stg name : string) (v : json).
Hypothesis stg_temp : publish_temp_re stg = true.
Hypothesis stg_free : lstat f0 dir stg = None.
Hypothesis name_free : lstat f0 dir name = None.
Hypothesis name_pub : publish_temp_re name = false.
Hypothesis v_small : small v.

Definition staged_with (fs : hostfs) : Prop :=
  ∃ nd, fresh M400 (BText v) nd ∧ hf_dirs fs = hf_dirs (put f0 dir stg nd).

Lemma staged_unpublished fs : staged_with fs → unpublished f0 fs.
Proof.
  intros (nd & Hf & Hd). right. exists stg, nd, (BText v). by destruct v_small.
Qed.

Lemma create_staging :
  hoare (λ fs, fs = f0) (create_file dir stg M400 (BText v)) (λ _, staged_with) (λ _, unpublished f0).
Proof.
  apply hoare_create_file; [by intros fs fs' ->; left| |].
  - intros fs fs' nd -> Hf Hd _. right. exists stg, nd, (BRaw "").
    split_and!; [done|apply Nat.le_0_l|done..].
  - intros fs fs' nd -> Hf Hd. by exists nd.
Qed.

Lemma rename_staging :
  hoare staged_with (rename_noreplace dir stg name) (λ _, published name v f0) (λ _, unpublished f0).
Proof.
  intros fs Hst. pose proof Hst as (nd & Hf & Hd).
  assert (Hnone : lstat fs dir name = None).
  { unfold lstat. rewrite (put_entries _ _ _ _ Hd), lookup_insert_ne; [done|]. congruence. }
  unfold rename_noreplace, mbind, M_bind, getfs. unfold present. rewrite Hnone.
  revert fs Hst nd Hf Hd Hnone. assert (Hr : hoare staged_with (rename_over dir stg name)
    (λ _, published name v f0) (λ _, unpublished f0)); [|intros fs Hst nd _ _ _; exact (Hr fs Hst)].
  apply hoare_rename_over.
  - intros fs (nd & _ & Hd) Hn. by rewrite (lstat_put _ _ _ _ _ Hd) in Hn.
  - intros fs fs' Hst Hd _. apply staged_unpublished. destruct Hst as (nd & ? & ?).
    exists nd. split; [done|congruence].
  - intros fs fs' nd' (nd & Hf & Hd) Hl Hd'. rewrite (lstat_put _ _ _ _ _ Hd) in Hl.
    injection Hl as <-. exists nd. split_and!; [done| |apply v_small..].
    exact (rename_dirs _ _ _ _ _ _ _ stg_free Hd Hd').
Qed.
End Publishing.

Lemma publish_cases name v f0 :
  lstat f0 dir name = None → publish_temp_re name = false →
  match publish dir name v f0 with
  | (Ok r, fs) => published name v f0 fs ∧ r = receipt_of root_path dir name (BText v)
  | (Err _, fs) => unpublished f0 fs
  end.
Proof.
  intros Hfree Hpub.
  assert (Hh : hoare (λ fs, fs = f0) (publish dir name v)
    (λ r fs, published name v f0 fs ∧ r = receipt_of root_path dir name (BText v))
    (λ _ fs, unpublished f0 fs)); [|exact (Hh f0 eq_refl)].
  unfold NativeRecords.publish.
  destruct (canonical v) as [c|] eqn:Ec; [|by intros fs ->; left].
  eapply hoare_lift_Ok; [done|].
  destruct (body_size (BText v) <=? MAX_NATIVE_RECORD)%nat eqn:Es; [|by intros fs ->; left].
  eapply hoare_lift_Ok; [done|].
  assert (Hsm : small v).
  { split; [|by apply Nat.leb_le]. unfold canonical in Ec. by destruct (finite v). }
  eapply (hoare_bind _ _ _ (λ fs fs', fs = f0 ∧ fs' = f0)); [by apply hoare_getfs|].
  intros fs0. apply hoare_pure. intros ->.
  destruct (present f0 dir (staging uuid4 f0)) eqn:Hst; [by intros fs ->; left|].
  assert (Hs0 : lstat f0 dir (staging uuid4 f0) = None)
    by (unfold present in Hst; by case_match).
  eapply hoare_bind; [apply create_staging; auto|intros ?].
  eapply hoare_bind; [apply rename_staging; auto|intros ?].
  apply hoare_reading. intros fs (nd & Hf & Hd & _).
  destruct (pin_fresh fs name nd v (lstat_put _ _ _ _ _ Hd) Hf Hsm) as [_ ->].
  split; [|done]. by exists nd.
Qed.

(** ** Appending *)

(** The row [append] publishes, as it reads back *)
Definition row_dict (i : nat) (prev : json) (boottime : Z) (event : string) (data : dict) : dict :=
  norm_dict [("schema", JStr SCHEMA); ("sequence", JInt (Z.of_nat i)); ("previous", prev);
             ("boottime_ns", JInt boottime); ("event", JStr event); ("data", JObj data)].

Lemma row_follows_new rs prev boottime event data :
  (0 < boottime)%Z → (∀ r, last rs = Some r → (boot_of r ≤ boottime)%Z) →
  py_eqb (norm prev) prev = true →
  row_follows rs prev (row_dict (length rs) prev boottime event data) = true.
Proof.
  intros Hpos Hmono Hprev. unfold row_dict. set (d := [_; _; _; _; _; _]).
  assert (Hk : NoDup (keys d)) by (apply (bool_decide_unpack _); vm_compute; exact I).
  unfold row_follows, boot_of in *.
  rewrite !fld_norm_dict by done.
  change (fld d "schema") with (JStr SCHEMA). change (fld d "sequence") with (JInt (Z.of_nat (length rs))).
  change (fld d "previous") with prev. change (fld d "boottime_ns") with (JInt boottime).
  change (fld d "event") with (JStr event). change (fld d "data") with (JObj data).
  rewrite (norm_JObj data), Hprev. cbn [norm strict_int int_of is_str].
  assert (Hkm : keys_match (norm_dict d) ROW_KEYS = true) by reflexivity. rewrite Hkm.
  rewrite Z.eqb_refl. apply Z.ltb_lt in Hpos. rewrite Hpos.
  destruct (last rs) as [r|] eqn:El; [|done]. specialize (Hmono r eq_refl). apply Z.leb_le in Hmono.
  cbn in *. by rewrite Hmono.
Qed.

(** Reading the published row extends the state by it. *)
Lemma rows_step_new fs st nd boottime event data :
  lstat fs dir (journal_name (length st.1)) = Some nd →
  fresh M400 (BText (journal_row (length st.1) st.2 boottime event data)) nd →
  small (journal_row (length st.1) st.2 boottime event data) →
  json_nodup (journal_row (length st.1) st.2 boottime event data) = true →
  row_follows st.1 st.2 (row_dict (length st.1) st.2 boottime event data) = true →
  rows_step fs dir st (journal_name (length st.1), nd)
  = Ok ((st.1 ++ [row_dict (length st.1) st.2 boottime event data])%list,
        receipt_of root_path dir (journal_name (length st.1))
          (BText (journal_row (length st.1) st.2 boottime event data))).
Proof.
  intros Hl Hf Hsm Hnd Hfollow. destruct (pin_fresh _ _ _ _ Hl Hf Hsm) as [Hr Hp].
  unfold NativeRecords.rows_step. cbn [fst]. rewrite String.eqb_refl. cbn [nreq require rbind].
  unfold read. rewrite Hr. cbn [rbind]. unfold read_body, nreq. rewrite Hnd, (proj1 Hsm). cbn [require rbind].
  unfold journal_row at 1. rewrite norm_JObj. fold (row_dict (length st.1) st.2 boottime event data).
  rewrite Hfollow, Hp. done.
Qed.

Lemma append_cases fs st boottime event data :
  journal_state fs dir = Ok st →
  json_nodup (JObj data) = true →
  (∀ r, last st.1 = Some r → (boot_of r ≤ boottime)%Z) →
  match append_row root_path uuid4 loads maximum dir boottime event data fs with
  | (Ok r, fs') =>
      journal_state fs' dir = Ok ((st.1 ++ [row_dict (length st.1) st.2 boottime event data])%list, r)
  | (Err _, fs') => journal_state fs' dir = Ok st
  end.
Proof.
  intros Hs Hnd Hmono. unfold append_row, mbind, M_bind, reading, lift. rewrite Hs. cbn beta iota zeta.
  unfold nreq, require at 1. destruct (length st.1 <? maximum)%nat eqn:Hlt; [|done].
  apply Nat.ltb_lt in Hlt. pose proof (state_previous _ _ Hs) as Hprev.
  assert (Hp : match length st.1 with O => Ok JNull | S i => pin root_path fs dir (journal_name i) end = Ok st.2
    ∧ py_eqb (norm st.2) st.2 = true ∧ json_nodup st.2 = true).
  { destruct (length st.1); [by rewrite Hprev|]. rewrite Hprev. split; [done|].
    split; [by eapply pin_same_norm|]. unfold pin in Hprev.
    apply rbind_Ok in Hprev as (b & _ & [= <-]). done. }
  destruct Hp as (-> & Heq & Hndp). unfold require. destruct (0 <? boottime)%Z eqn:Hpos; [|done].
  apply Z.ltb_lt in Hpos. destruct (next_free _ _ Hs Hlt) as [Hfree _].
  pose proof (publish_cases (journal_name (length st.1))
    (journal_row (length st.1) st.2 boottime event data) fs Hfree) as Hpub.
  destruct (publish dir _ _ fs) as [[r|e] fs'].
  - destruct Hpub as [(nd & Hf & Hd & Hsm) ->]; [apply journal_name_free; lia|].
    eapply state_snoc; [done..|]. eapply rows_step_new; [by eapply lstat_put|done..| |].
    + unfold journal_row. rewrite json_nodup_obj. cbn [forallb snd].
      rewrite Hndp, Hnd. reflexivity.
    + by apply row_follows_new.
  - destruct Hpub as [Hd|(n & nd & b & (Hk & _ & Hn & Hb) & Hsz & Ht & Hl & Hd)];
      [apply journal_name_free; lia|by rewrite (state_dirs _ _ Hd)|].
    eapply state_staging; [done..| |done]. unfold staging_entry. cbn. rewrite Hk, Hn, Hb.
    apply Nat.leb_le in Hsz. by rewrite Hsz.
Qed.
End Journal.

(** ** What holds whenever a step may act *)

Section Owner.
Context `{Digest} `{Adapter}.
Variable root_path : string.
Variable uuid4 : hostfs → string.
Variable loads : string → result json.
Variable boottime : nat → Z.
Variable host_boot : string.
Hypothesis uuid_hex : ∀ fs, publish_temp_re (staging uuid4 fs) = true.
Variable s : session.

Notation require_owner := (require_owner root_path s).
Notation consume := (consume root_path uuid4 loads boottime host_boot s).
Notation intent := (intent root_path uuid4 loads boottime host_boot s).
Notation any := (λ _ : world, True).

Definition owned (w : world) : Prop :=
  require_f1_owner (w_fs w) (se_path root_path s) (se_binding s) = Ok tt.
Definition consumed_file (w : world) : Prop :=
  is_Some (lstat (w_fs w) (se_dir s) "consumed.json").

Lemma stable_owned : stable RESEARCH owned.
Proof.
  intros w w' [Hg _] Ho. unfold owned, require_f1_owner in *.
  apply rbind_Ok in Ho as (b & Hb & Ho). destruct (read_regular_some _ _ _ _ Hb) as [nd Hl].
  rewrite (Hg OWNER_NAME nd) by done. rewrite <- Hl, Hb. exact Ho.
Qed.
Lemma stable_consumed_file : stable (se_dir s) consumed_file.
Proof. intros w w' [Hg _] [nd Hl]. exists nd. by apply Hg. Qed.

(** Anything, then a program that establishes [P] *)
Lemma any_bind {A B} (P : world → Prop) (m : W A) (k : A → W B) :
  (∀ a, wspec any (k a) (λ _, P) any) → wspec any (m ≫= k) (λ _, P) any.
Proof. intros Hk. eapply wspec_bind; [|exact Hk]. intros w _. by destruct (m w) as [[]]. Qed.

Lemma then_quiet {A} (P : world → Prop) dir (m : W A) :
  stable dir P → quiet dir m → wspec P m (λ _, P) any.
Proof. intros Hs Hq. by apply (wspec_quiet dir). Qed.

Lemma owner_required_after : wspec any require_owner (λ _, owned) any.
Proof. intros w _. unfold NativeCore.require_owner, seen. by destruct (require_f1_owner _ _ _) as [[]|] eqn:E. Qed.

Hypothesis path_length : (String.length (se_path root_path s) ≤ 4096)%nat.

Lemma consume_owned : wspec any consume (λ _, owned) any.
Proof.
  unfold NativeCore.consume. apply any_bind. intros already.
  destruct already; [apply owner_required_after|].
  do 6 (apply any_bind; intros ?).
  eapply (wspec_bind _ _ _ (λ _, owned)).
  { destruct (present _ RESEARCH OWNER_NAME); [apply owner_required_after|].
    intros w _. unfold onfs. destruct (begin_f1_owner _ _ (w_fs w)) as [[[]|] fs'] eqn:Eb; [|done].
    by apply (begin_requires _ _ _ _ path_length Eb). }
  intros ?. apply (then_quiet owned RESEARCH); [apply stable_owned|unfold request_of; quiet].
Qed.

(** The stage of [intent] that settles the ownership *)
Lemma owned_stage (recovery : bool) :
  wspec any (if recovery then _ ← require_owner; basis ← has_recovery_basis root_path loads s;
               demand basis "no original effect or native attempt exists to recover"
             else consume) (λ _, owned) any.
Proof.
  destruct recovery; [|apply consume_owned].
  eapply wspec_bind; [apply owner_required_after|intros ?].
  apply (then_quiet owned RESEARCH); [apply stable_owned|quiet].
Qed.

Lemma consume_recorded :
  se_dir s ≠ RESEARCH → wspec any consume (λ _, consumed_file) any.
Proof.
  intros Hdir. unfold NativeCore.consume. eapply (wspec_bind _ _ _ (λ b w, b = true → consumed_file w)).
  { intros w _. unfold consumed, mbind, W_bind at 1, ask. cbn beta iota.
    unfold consumed_file, present. destruct (lstat (w_fs w) (se_dir s) "consumed.json") as [nd|] eqn:El; [|done].
    unfold W_bind, seen, request_of, wlift, demand, nreq, require.
    destruct (read _ _ _ _); [|done]. destruct (idx _ _); [|done]. destruct (py_eqb _ _); [|done].
    intros _. cbn. by rewrite El. }
  intros []; [apply wspec_pre with (P' := consumed_file); [|auto]|].
  { apply (then_quiet consumed_file (se_dir s)); [apply stable_consumed_file|quiet]. }
  apply wspec_pre with (P' := any); [|done].
  do 8 (apply any_bind; intros ?).
  eapply (wspec_bind _ _ _ (λ _ : json, consumed_file)); [|by intros ? w].
  intros w _. unfold onfs. destruct (publish _ _ _ _ _ (w_fs w)) as [[r|] fs'] eqn:Ep; [|done].
  apply publish_Ok in Ep as (nd & Hl & _). by exists nd.
Qed.

(** What the middle of [intent] establishes and keeps, the intent keeps. *)
Lemma intent_after (P : world → Prop) dir step (recovery : bool) d :
  stable dir P →
  wspec any (if recovery then _ ← require_owner; basis ← has_recovery_basis root_path loads s;
               demand basis "no original effect or native attempt exists to recover"
             else consume) (λ _, P) any →
  (∀ w w', w_fs w' = w_fs w → P w → P w') →
  wspec any (intent step recovery d) (λ _, P) any.
Proof.
  intros Hs Hm Hfs. unfold NativeDrive.intent. do 6 (apply any_bind; intros ?).
  assert (Hb : ∀ A B (m : W A) (k : A → W B), quiet dir m → (∀ a, wspec P (k a) (λ _, P) any) →
    wspec P (m ≫= k) (λ _, P) any).
  { intros A B m k Hq Hk. by eapply wspec_bind; [apply (then_quiet P dir)|]. }
  eapply wspec_bind.
  { destruct recovery; [exact Hm|]. apply any_bind. intros ?. exact Hm. }
  intros ?. do 5 (apply Hb; [unfold request_of; quiet|intros ?]).
  apply Hb; [quiet|intros ?]. apply Hb; [quiet|intros ?].
  eapply (wspec_bind _ _ _ (λ _, P)); [|by intros ? w HP].
  intros w HP. by apply (Hfs w).
Qed.
End Owner.
