(* ===== verification/NativeProps.v ===== *)
(** * The native session never replays an effect

    The sessions a host can go through ([reachable]): any calls of [execute],
    [recover], [repair_close] and [resume], each possibly cut by a power loss,
    with anything happening in between to the adapter, the clock and every file
    that is not a published file of the session's journal. *)

From stdpp Require Import base list strings gmap sorting.
From Stdlib Require Import ZArith Lia Ascii.
From S2P Require Import Prelude PyStr Dir Json Digest HostFs Registry NativeRecords NativeSteps NativeWorld NativeCore NativeClaims NativeDrive NativePhased NativeSession NativeTheory NativeReplay NativeJournal.
Open Scope string_scope.

(** ** Reading only *)

Section ReadOnly.
Context `{Digest} `{Adapter}.

Definition keeps_fs {A} (m : W A) : Prop := ∀ w, w_fs (m w).2 = w_fs w.

Lemma keeps_fs_bind {A B} (m : W A) (k : A → W B) :
  keeps_fs m → (∀ a, keeps_fs (k a)) → keeps_fs (m ≫= k).
Proof.
  intros Hm Hk w. specialize (Hm w). unfold mbind, W_bind.
  destruct (m w) as [[a|e] w']; cbn in *; [|done]. rewrite <- Hm. apply Hk.
Qed.
Lemma keeps_fs_mapW {A B} (f : A → W B) l : (∀ x, keeps_fs (f x)) → keeps_fs (mapW f l).
Proof.
  intros Hf. induction l as [|x l IH]; [by intros w|].
  apply keeps_fs_bind; [done|intros y]. apply keeps_fs_bind; [done|by intros ys w].
Qed.
End ReadOnly.

Ltac reads :=
  repeat first
    [ progress intros
    | progress cbv zeta
    | apply keeps_fs_bind
    | solve [intros ?; reflexivity]
    | apply keeps_fs_mapW
    | match goal with |- keeps_fs (match ?x with _ => _ end) => destruct x end ].

(** ** Names *)

Lemma py_eqb_JStr v a : py_eqb v (JStr a) = true → v = JStr a.
Proof.
  destruct v; cbn; try done. by intros ->%String.eqb_eq.
Qed.

Lemma py_eqb_names l (ns : list string) :
  py_eqb (JList l) (JList (map JStr ns)) = true → l = map JStr ns.
Proof.
  revert ns. induction l as [|v l IH]; intros [|n ns]; try done.
  cbn [map]. intros Heq. change (py_eqb v (JStr n) && py_eqb (JList l) (JList (map JStr ns)) = true) in Heq.
  apply andb_true_iff in Heq as [Hv Hl]. f_equal; [by apply py_eqb_JStr|by apply IH].
Qed.

Lemma mapR_elem {A B} (f : A → result B) l ys x : mapR f l = Ok ys → x ∈ l → ∃ y, f x = Ok y ∧ y ∈ ys.
Proof.
  intros Hm Hin. revert ys Hm. induction Hin as [x l|x y l Hin IH]; intros ys Hm; cbn in Hm; rsimp.
  - eexists. split; [done|left].
  - edestruct IH as (z & Hz & Hin'); [done|]. exists z. split; [done|by right].
Qed.

Lemma filterR_elem {A} (f : A → result bool) l ys y :
  filterR f l = Ok ys → y ∈ ys → y ∈ l ∧ f y = Ok true.
Proof.
  revert ys. induction l as [|x l IH]; intros ys Hf Hin; cbn in Hf; [rsimp; by apply elem_of_nil in Hin|].
  apply rbind_Ok in Hf as (b & Hb & Hf). apply rbind_Ok in Hf as (r & Hr & [= <-]).
  destruct b; [apply elem_of_cons in Hin as [->|Hin]; [split; [left|done]|]|];
    (destruct (IH _ Hr Hin) as [? ?]; split; [by right|done]).
Qed.

Lemma is_str_true v a : is_str v a = true → v = JStr a.
Proof. destruct v; cbn; try done. by intros ->%String.eqb_eq. Qed.

Lemma intent_name_elem rs names x row :
  intent_names rs = Ok names → row ∈ rs → row_of_step "effect-intent" x row = Ok true → JStr x ∈ names.
Proof.
  unfold intent_names. intros Hn Hin. unfold row_of_step.
  destruct (event_is "effect-intent" row) eqn:He; [|done].
  intros (v & Hv & [= Hx])%rbind_Ok. apply is_str_true in Hx as ->.
  destruct (mapR_elem _ _ _ (row_data row) Hn) as (y & Hy & Hyin); [|congruence].
  unfold intent_data. apply list_elem_of_In, in_map, list_elem_of_In, list_elem_of_filter. done.
Qed.

(** ** The sessions a host can go through *)

Section Props.
Context `{Digest} `{Adapter}.
Variable root_path : string.
Variable uuid4 : hostfs → string.
Variable loads : string → result json.
Variable boottime : nat → Z.
Variable host_boot : string.
Variable exc_text : pyexc → string.
Variable transfer_failure : pyexc → json.
Variable is_repo : bool.
Variable resolve : string → string.

Inductive call := Execute | Recover | RepairClose | Resume (statement : option string).

Definition run_call (s : session) (c : call) (attended : bool) : W json :=
  match c with
  | Execute => execute root_path uuid4 loads boottime host_boot exc_text transfer_failure
                 is_repo resolve s attended
  | Recover => recover root_path uuid4 loads boottime host_boot is_repo resolve s attended
  | RepairClose => repair_close root_path uuid4 loads boottime is_repo resolve s
  | Resume statement => resume root_path uuid4 loads boottime host_boot exc_text transfer_failure
                          is_repo resolve s attended statement
  end.

Inductive reachable (s : session) : world → Prop :=
  | r_start w : w_trace w = [] → reachable s w
  | r_call w c attended : reachable s w → reachable s (run_call s c attended w).2
  | r_host w w' : reachable s w → still (journal_dir s) w w' → reachable s w'.

(** The journal is not the directory of the owner sentinel, and the identifiers of
    staging files are hexadecimal. *)
Definition ordinary (s : session) : Prop :=
  journal_dir s ≠ RESEARCH ∧ ∀ fs, publish_temp_re (staging uuid4 fs) = true.

Notation journal_rows := (journal_rows root_path loads).

Lemma reachable_Inv s w : ordinary s → reachable s w → Inv loads s w.
Proof.
  intros (Hdir & Huuid). induction 1 as [w Ht|w c attended _ IH|w w' _ IH Hs].
  - unfold Inv. rewrite Ht. split_and!; [constructor|apply covered_nil|by intros x ?%elem_of_nil].
  - eapply holds_end; [|exact IH]. destruct c; cbn [run_call].
    + by apply holds_execute.
    + by apply holds_recover.
    + by apply holds_repair_close.
    + by apply holds_resume.
  - by eapply stable_Inv.
Qed.

(** Every step allowed so far has its row. *)
Lemma granted_row s w rs x :
  Inv loads s w → journal_rows s (w_fs w) = Ok rs → x ∈ grants (w_trace w) →
  ∃ row, row ∈ rs ∧ row_of_step "effect-intent" x row = Ok true.
Proof.
  intros (_ & _ & Hf) Hrs Hx. destruct (Hf x Hx) as (n & nd & Ht & Hl & Hr).
  destruct (rows_member _ _ _ _ _ _ _ _ Hrs Hl Ht) as (row & Hrow & Hin). eauto.
Qed.

(** C1. Never a replay: whatever sequence of calls, power losses and repairs a session
    goes through, no step is allowed to touch the device twice; each effect on the
    device belongs to the step allowed last; and whenever the journal can be read, the
    intent of every step ever allowed is in it. *)
Theorem no_replay s w :
  ordinary s → reachable s w →
  NoDup (grants (w_trace w)) ∧ covered (w_trace w)
  ∧ ∀ rs x, journal_rows s (w_fs w) = Ok rs → x ∈ grants (w_trace w) →
      ∃ row, row ∈ rs ∧ row_of_step "effect-intent" x row = Ok true.
Proof.
  intros Ho Hw%reachable_Inv; [|done]. pose proof Hw as (Hn & Hc & _).
  split_and!; [done..|]. intros rs x. by apply granted_row.
Qed.

Lemma has_effect_false s w w' :
  Inv loads s w → has_effect root_path loads s w = (Ok false, w') → grants (w_trace w) = [] ∧ w' = w.
Proof.
  intros Hi. unfold has_effect, mbind, W_bind, seen.
  destruct (journal_rows s (w_fs w)) as [rs|] eqn:Hrs; [|done]. intros [= Hex <-].
  split; [|done]. destruct (grants (w_trace w)) as [|x l] eqn:E; [done|]. exfalso.
  destruct (granted_row s w rs x Hi Hrs) as (row & Hin & Hrow); [rewrite E; left|].
  unfold row_of_step in Hrow. destruct (event_is "effect-intent" row) eqn:He; [|done].
  assert (Ht : existsb (event_is "effect-intent") rs = true).
  { apply existsb_exists. exists row. split; [by apply list_elem_of_In|done]. }
  congruence.
Qed.

(** C32. An operation is closed as unused, and its global owner released, only when the
    device was never touched: no step was ever allowed to act and no effect happened. *)
Theorem unused_never_dispatched s w r w' :
  ordinary s → reachable s w →
  close_unused root_path uuid4 loads s w = (Ok r, w') →
  effects (w_trace w') = [] ∧ grants (w_trace w') = [].
Proof.
  intros Ho Hw%reachable_Inv Hc; [|done]. destruct Ho as (Hdir & Huuid).
  assert (Hq : quiet (journal_dir s) (close_unused root_path uuid4 loads s)) by quiet.
  specialize (Hq w). rewrite Hc in Hq. destruct Hq as [_ Ht]. cbn in Ht. rewrite Ht.
  cut (grants (w_trace w) = []).
  { intros Hg. split; [|done]. apply covered_effects; [apply Hw|done]. }
  revert Hc. unfold close_unused, has_recovery_basis, mbind, W_bind at 1.
  unfold W_bind at 1. destruct (has_effect root_path loads s w) as [[b|e] w1] eqn:He; [|done].
  destruct b; [done|]. by apply has_effect_false in He as [? _].
Qed.


(** ** The normal terminal *)

Lemma mapW_end {A B} (f : A → W B) l ys w w' :
  mapW f l w = (Ok ys, w') → ∀ x, x ∈ l → ∃ y w1 w2, f x w1 = (Ok y, w2).
Proof.
  revert ys w w'. induction l as [|x l IH]; intros ys w w'; [by intros _ x ?%elem_of_nil|].
  cbn [mapW]. unfold mbind, W_bind.
  destruct (f x w) as [[y|e] w1] eqn:Hx; [|done].
  destruct (mapW f l w1) as [[ys'|e] w2] eqn:Hl; [|done].
  intros _ z [->|Hz]%elem_of_cons; [eauto|by eapply IH].
Qed.

(** A completed step has its completion in the journal. *)
Lemma completed_rows s selected vs w w' :
  completed root_path loads s selected w = (Ok vs, w') →
  ∃ rs, journal_rows s (w_fs w) = Ok rs ∧ w_fs w' = w_fs w ∧ w_trace w' = w_trace w
    ∧ ∀ step, step ∈ selected →
        ∃ row, row ∈ rs ∧ row_of_step "step-complete" (sp_name step) row = Ok true.
Proof.
  intros Hc.
  assert (Hfs : keeps_fs (completed root_path loads s selected)).
  { unfold completed. reads. }
  assert (Hq : quiet "" (completed root_path loads s selected)) by quiet.
  specialize (Hfs w). specialize (Hq w). rewrite Hc in Hfs, Hq. cbn in Hfs.
  revert Hc. unfold completed, mbind, W_bind at 1, seen.
  destruct (journal_rows s (w_fs w)) as [rs|e] eqn:Hrs; [|done]. unfold W_bind at 1.
  destruct (mapW (completed_step root_path loads s rs) selected w) as [[ys|e] w1] eqn:Hm; [|done].
  intros _. exists rs. split_and!; [done|done|exact (proj2 Hq)|].
  intros step Hin. destruct (mapW_end _ _ _ _ _ Hm step Hin) as (y & w2 & w3 & Hs).
  revert Hs. unfold completed_step, mbind, W_bind at 1, wlift.
  destruct (filterR _ rs) as [ms|e] eqn:Hf; [|done].
  destruct ms as [|m [|]]; [done| |done]. intros _. exists m.
  apply (filterR_elem _ _ _ _ Hf). left.
Qed.

(** The names of the steps a normal terminal must account for, in plan order *)
Definition effectful_names (s : session) (selected : list Step) : list string :=
  map sp_name (filter (λ st, effectful (operation_of s) st = true) selected).

(** The accounting of the effects, which follows the reading of the completed steps *)
Lemma close_effects s selected w t w' :
  close root_path uuid4 loads s selected false w = (Ok t, w') →
  ∃ rs, journal_rows s (w_fs w) = Ok rs
    ∧ intent_names rs = Ok (map JStr (effectful_names s selected))
    ∧ ∀ step, step ∈ selected →
        ∃ row, row ∈ rs ∧ row_of_step "step-complete" (sp_name step) row = Ok true.
Proof.
  unfold close, mbind, W_bind at 1.
  destruct (completed root_path loads s selected w) as [[vs|e] w1] eqn:Hc; [|done].
  apply completed_rows in Hc as (rs & Hrs & Hfs & _ & Hall).
  unfold W_bind at 1, request_of, wlift. destruct (idx (se_request s) "operation") as [op|]; [|done].
  set (m := if is_str op "storage-census" && negb false then _ else _ : W unit).
  assert (Hk : keeps_fs m) by (unfold m, consumed, request_of; reads).
  specialize (Hk w1). clearbody m. unfold W_bind at 1. destruct (m w1) as [[[]|e] w2]; [|done].
  cbn [snd] in Hk.
  unfold W_bind at 1, seen. rewrite Hk, Hfs, Hrs. cbn beta iota zeta.
  unfold W_bind at 1. unfold W_bind at 1. destruct (intent_names rs) as [names|e] eqn:En; [|done].
  unfold demand, wlift, nreq, require.
  destruct (py_eqb _ _) eqn:Heq; [|done]. intros _. exists rs. split_and!; [done| |done].
  rewrite En. f_equal. apply py_eqb_names. unfold effectful_names. by rewrite map_map.
Qed.

(** C33. A normal terminal accounts for everything: when an operation closes normally, the
    intents in its journal are the effectful steps of the plan, once each and in order,
    every step of the plan is recorded as complete, and no effect of any other step
    happened to the device. *)
Theorem close_accounts s selected w t w' :
  ordinary s → reachable s w →
  close root_path uuid4 loads s selected false w = (Ok t, w') →
  (∃ rs, journal_rows s (w_fs w) = Ok rs
    ∧ intent_names rs = Ok (map JStr (effectful_names s selected))
    ∧ ∀ step, step ∈ selected →
        ∃ row, row ∈ rs ∧ row_of_step "step-complete" (sp_name step) row = Ok true)
  ∧ ∀ x, x ∈ effects (w_trace w') → x ∈ effectful_names s selected.
Proof.
  intros Ho Hw%reachable_Inv Hc; [|done]. destruct Ho as (Hdir & Huuid).
  assert (Hq : quiet (journal_dir s) (close root_path uuid4 loads s selected false)) by quiet.
  specialize (Hq w). rewrite Hc in Hq. destruct Hq as [_ Ht]. cbn in Ht. rewrite Ht.
  pose proof (close_effects _ _ _ _ _ Hc) as (rs & Hrs & Hn & Hall). split; [eauto|].
  intros x Hx. apply covered_grants in Hx; [|apply Hw].
  destruct (granted_row s w rs x Hw Hrs Hx) as (row & Hin & Hrow).
  apply (intent_name_elem _ _ _ _ Hn Hin) in Hrow.
  apply list_elem_of_fmap in Hrow as (y & [= ->] & Hy). done.
Qed.

(** C34. Whenever an intent is granted, this session is the recorded owner of the global
    sentinel, so no other operation can be granted one, and outside recovery the
    operation has consumed its budget. *)
Theorem grant_owned s step recovery d w r w' :
  ordinary s → se_dir s ≠ RESEARCH → (String.length (se_path root_path s) ≤ 4096)%nat →
  intent root_path uuid4 loads boottime host_boot s step recovery d w = (Ok r, w') →
  require_f1_owner (w_fs w') (se_path root_path s) (se_binding s) = Ok tt
  ∧ (recovery = false → present (w_fs w') (se_dir s) "consumed.json" = true).
Proof.
  intros (_ & Huuid) Hdir Hlen Hi. split.
  - pose proof (intent_after root_path uuid4 loads boottime host_boot Huuid s
      (owned root_path s) RESEARCH step recovery d) as Ha.
    specialize (Ha (stable_owned root_path s) ltac:(by apply owned_stage)).
    specialize (Ha ltac:(intros v v' Hv; unfold owned; by rewrite Hv) w I). by rewrite Hi in Ha.
  - intros ->.
    pose proof (intent_after root_path uuid4 loads boottime host_boot Huuid s
      (consumed_file s) (se_dir s) step false d) as Ha.
    specialize (Ha (stable_consumed_file s) ltac:(by apply consume_recorded)).
    specialize (Ha ltac:(intros v v' Hv; unfold consumed_file; by rewrite Hv) w I).
    rewrite Hi in Ha. destruct Ha as [nd Hl]. unfold present. by rewrite Hl.
Qed.
End Props.

(** ** The plans *)

Definition plan_ok (operation : string) (plan : list Step) : bool :=
  bool_decide (NoDup (map sp_name plan))
  && forallb (λ st, Bool.eqb (acquires operation st) (effectful operation st)
                    && negb (is_intent (main_callback operation st) && is_intent (extra_callback operation st)))
       plan
  && match last plan with
     | Some st => negb (is_download (sp_ending st)) && elem_str (sp_action st) ["observe"; "health"]
     | None => false
     end.

Definition flags : list (bool * bool * bool) :=
  [(false, false, false); (false, false, true); (false, true, false); (false, true, true);
   (true, false, false); (true, false, true); (true, true, false); (true, true, true)].

Lemma plans_checked :
  forallb (λ op, forallb (λ f, match steps op f.1.1 f.1.2 f.2 with
                               | Ok plan => plan_ok op plan | Err _ => true end) flags) OPERATIONS = true.
Proof. vm_compute. reflexivity. Qed.

Lemma plan_ok_steps operation reentry hud native plan :
  steps operation reentry hud native = Ok plan → plan_ok operation plan = true.
Proof.
  intros Hs. pose proof plans_checked as Hall. rewrite forallb_forall in Hall.
  assert (Hop : In operation OPERATIONS).
  { revert Hs. unfold steps. intros ([] & Hop & _)%rbind_Ok. unfold nreq in Hop.
    apply require_Ok, existsb_exists in Hop as (x & Hx & ->%String.eqb_eq). done. }
  specialize (Hall operation Hop). cbn beta in Hall. rewrite forallb_forall in Hall.
  specialize (Hall (reentry, hud, native)). cbn [fst snd] in Hall. rewrite Hs in Hall. apply Hall.
  destruct reentry, hud, native; cbn; tauto.
Qed.

(** C35. Every plan an operation can select is one the session can complete: its steps have
    different names, a step can acquire an intent exactly when the normal terminal
    expects one of it, no step can acquire two, and the last step leaves the device
    observed or healthy, not in Download mode. *)
Theorem plans_account request plan operation :
  operation_steps request = Ok plan → fld request "operation" = JStr operation →
  NoDup (map sp_name plan)
  ∧ (∀ st, st ∈ plan → acquires operation st = effectful operation st
       ∧ ¬ (main_callback operation st = CIntent ∧ extra_callback operation st = CIntent))
  ∧ ∃ st, last plan = Some st ∧ is_download (sp_ending st) = false ∧ sp_action st ∈ ["observe"; "health"].
Proof.
  intros Hs Hop. assert (Hok : plan_ok operation plan = true).
  { revert Hs. unfold operation_steps. destruct (reboot_selected request) eqn:Hr.
    - intros [= <-]. unfold reboot_selected, namespace_in in Hr. rewrite Hop in Hr.
      apply andb_true_iff in Hr as [->%String.eqb_eq _]. vm_compute. reflexivity.
    - unfold fld in Hop. unfold idx. destruct (dget "operation" request) as [v|]; [|done].
      cbn in Hop. subst v. cbn [rbind]. intros (re & _ & Hs)%rbind_Ok.
      apply rbind_Ok in Hs as (h & _ & Hs). destruct re; try done. destruct h; try done.
      by eapply plan_ok_steps. }
  unfold plan_ok in Hok. apply andb_true_iff in Hok as [[Hnd Hall]%andb_true_iff Hlast].
  rewrite forallb_forall in Hall. split_and!; [by apply bool_decide_eq_true in Hnd| |].
  - intros st Hst%list_elem_of_In. specialize (Hall st Hst).
    apply andb_true_iff in Hall as [Heq Hone%negb_true_iff].
    split; [by apply eqb_prop|]. intros [Hm Hx]. by rewrite Hm, Hx in Hone.
  - destruct (last plan) as [st|]; [|done]. apply andb_true_iff in Hlast as [Hd%negb_true_iff Ha].
    exists st. split_and!; [done|done|].
    apply existsb_exists in Ha as (x & Hx & ->%String.eqb_eq). by apply list_elem_of_In.
Qed.
