(* ===== verification/NativeExamples.v ===== *)
(** * The native session evaluated

    Sessions on a host with an activated registry, with the cheap digest and an
    adapter that does the least its contract allows: an Android exit run to its
    terminal, cut by a power loss at its first effect and recovered, or closed
    unused after its preflight, and a GPT reservation with its three physical
    pauses; the witnesses of the session's theorems. *)

From stdpp Require Import base list strings gmap sorting.
From Stdlib Require Import ZArith Lia Ascii.
From S2P Require Import Prelude PyStr Dir Json Digest HostFs Registry RegistryExamples NativeRecords NativeSteps NativeWorld NativeCore NativeClaims NativeDrive NativePhased NativeSession NativeTheory NativeReplay NativeJournal NativeProps.
Open Scope string_scope.

#[local] Existing Instance checksum_digest.

(** ** An adapter *)

Definition effect_once : prog nat :=
  PEffect S (λ n, PDone (JObj [("done", JInt (Z.of_nat n)); ("proof", JObj [])])).
Definition fixed_plan : detail nat := Plain (Some [("plan", JStr "fixed")]).
Definition act (operation : string) (step : Step) : prog nat :=
  match main_callback operation step, extra_callback operation step with
  | CIntent, _ => PGuard (PDispatch fixed_plan (λ _, effect_once))
  | _, CIntent => PGuard (PExtra fixed_plan (λ _, effect_once))
  | _, _ => PGuard (PDone (JObj [("observed", JStr (sp_name step))]))
  end.

Lemma act_guarded operation step :
  guarded (is_intent (main_callback operation step)) (is_intent (extra_callback operation step)) false
    (act operation step).
Proof.
  unfold act, effect_once.
  destruct (main_callback operation step), (extra_callback operation step); cbn;
    repeat (constructor; intros).
Qed.

Program Definition fixed_adapter (preflight_ok : bool) : Adapter := {|
  ad_state := nat;
  ad_check := λ _ _ _, Ok tt;
  ad_native_attempt_started := λ n _, (0 <? n)%nat;
  ad_configuration := λ _ _, Ok [("target", JStr "s22plus")];
  ad_preflight := λ _, if preflight_ok then PGuard (PDone JNull)
                       else PFail (PyOSError "No such device");
  ad_perform := λ operation step _, act operation step;
  ad_prepare := λ _ _ _ _ n, (Ok [], n);
  ad_claim := λ _ _ _ n, (Ok tt, n);
  ad_validate_result := λ _ _ _ _, Ok tt;
  ad_validate_sequence := λ _ _ _ _, Ok tt;
  ad_recover_step_result := λ _ _ _, Err (PyKeyError "raw proof");
  ad_recover_transfer_result := λ _ _ _, Err (PyKeyError "raw proof");
  ad_final_protocol_completed := λ _ _ _, false;
  ad_terminal := λ _ _ _ _ _, Ok [("state", JStr "PASS")];
  ad_admit := λ _ _ n, (Ok tt, n);
  ad_cleanup := λ _ n, (Ok JNull, n);
  ad_return_request := λ _ n, (Ok JNull, n);
  ad_usb_snapshot := λ _ n, (Ok (JStr "usb"), n);
  ad_wait_departure := λ before _ deadline,
    PGuard (PDone (JObj [("before", before); ("departed", JBool true); ("deadline_ns", deadline);
                         ("observed_ns", JInt 999)]));
  ad_setup_pending := λ _, None;
  ad_setup_attempts := λ _, [];
  ad_missing_su_setup := λ _ _ _, Err (PyKeyError "raw proof");
  ad_userdata_sectors := λ _ _, Ok 0%Z
|}.
Next Obligation. intros [] ?; repeat constructor. Qed.
Next Obligation. intros ? before folder deadline. repeat constructor. Qed.
Next Obligation. intros ? operation step ?. apply act_guarded. Qed.

(** ** Operations *)

Definition TASK : string := "workspace/private/native".
Definition OPERATION : string := TASK ++ "/operation-0001".

Definition grant : json := JObj
  [("schema", JStr SCHEMA); ("host_boot", JStr "boot"); ("opened_ns", JInt 1); ("deadline_ns", JInt 1000);
   ("operation_budget", JInt 2); ("recovery_mode", JStr "attended")].
Definition grant_receipt : json := receipt_of "/srv/lab" TASK "grant.json" (BText grant).
Definition image : json := JObj
  [("ap", JStr "native ap"); ("gpt", JObj [("proposal", JObj [("sha256", JStr (hexdigest "proposal"))])])].
Definition request (operation : string) : json := JObj
  [("schema", JStr SCHEMA); ("operation", JStr operation); ("reentry", JBool false);
   ("hud", JBool false); ("N", image); ("grant", grant_receipt)].

Definition host (operation : string) : hostfs := {|
  hf_dirs := <[TASK := {[ "grant.json" := file M400 31 (BText grant) ]}]>
            (<[OPERATION := {[ "operation.json" := file M400 32 (BText (request operation)) ]}]>
            (<[OPERATION ++ "/journal" := ∅]> (hf_dirs fs0)));
  hf_dev := 64; hf_next_ino := 40; hf_power := None |}.

Definition uuid : hostfs → string := λ _, "0123456789abcdef0123456789abcdef".
Definition no_loads : string → result json := λ _, Err (PyValueError "Expecting value").
Definition ticks (n : nat) : Z := Z.of_nat n + 10.

Definition session_of (operation : string) : session :=
  ok {| se_dir := ""; se_grant_dir := ""; se_request := []; se_binding := ""; se_grant := [] |}
     (open_session "/srv/lab" no_loads (host operation) OPERATION).

Section Runs.
Variable preflight_ok : bool.
#[local] Instance the_adapter : Adapter := fixed_adapter preflight_ok.

Definition start (operation : string) (power : option nat) : world :=
  {| w_fs := with_power (host operation) power; w_ad := 0%nat; w_clock := 0; w_trace := [] |}.
Definition call_of (operation : string) (c : call) : W json :=
  run_call "/srv/lab" uuid no_loads ticks "boot" (λ _, "") (λ _, JNull) false id
    (session_of operation) c true.
End Runs.

(** ** Runs *)

Definition trace_of {P} (r : result json * world (H:=the_adapter P)) : list tev := w_trace r.2.
Definition restore {P} (w : world (H:=the_adapter P)) : world (H:=the_adapter P) :=
  {| w_fs := with_power (w_fs w) None; w_ad := w_ad w; w_clock := w_clock w; w_trace := w_trace w |}.

Definition full_run := call_of true "android-exit" Execute (start true "android-exit" None).
Definition cut_run := call_of true "android-exit" Execute (start true "android-exit" (Some 15%nat)).
Definition recovered_run := call_of true "android-exit" Recover (restore cut_run.2).
Definition unused_run := call_of false "android-exit" Execute (start false "android-exit" None).

Example full_run_ok : is_ok full_run.1 = true ∧ trace_of full_run
  = [TGrant "native-start"; TEffect "native-start"; TGrant "install-android"; TEffect "install-android"].
Proof. vm_compute. done. Qed.

Example recovered_run_ok : cut_run.1 = Err PowerLoss ∧ is_ok recovered_run.1 = true
  ∧ trace_of recovered_run = [TGrant "native-start"; TEffect "native-start";
                              TGrant "recover-android"; TEffect "recover-android"].
Proof. vm_compute. done. Qed.

(** A finished operation cannot be executed again. *)
Example second_execute :
  (call_of true "android-exit" Execute full_run.2).1
  = Err (SessionError "native operation already started; use H0 close or recovery").
Proof. vm_compute. reflexivity. Qed.

(** The GPT reservation waits for the operator three times. *)
Definition gpt := "gpt-reserve".
Definition gpt1 := call_of true gpt Execute (start true gpt None).
Definition gpt2 := call_of true gpt (Resume (Some "restarted")) gpt1.2.
Definition gpt3 := call_of true gpt (Resume (Some "reset done")) gpt2.2.
Definition gpt4 := call_of true gpt (Resume (Some "setup done")) gpt3.2.

Definition state_of (r : result json) : json :=
  match r with Ok (JObj d) => JList [fld d "state"; fld d "action"] | _ => JNull end.

Example gpt_run_waits :
  (state_of gpt1.1, state_of gpt2.1, state_of gpt3.1, is_ok gpt4.1)
  = (JList [JStr "AWAITING_OPERATOR_ACTION"; JStr "restart-native"],
     JList [JStr "AWAITING_OPERATOR_ACTION"; JStr "stock-factory-reset"],
     JList [JStr "AWAITING_OPERATOR_ACTION"; JStr "android-setup"], true)
  ∧ grants (trace_of gpt4)
    = ["gpt-apply"; "gpt-restart"; "factory-reset"; "gpt-android-start"; "install-android"; "android-reboot"].
Proof. vm_compute. done. Qed.

Notation reach P op := (reachable (H0:=the_adapter P) "/srv/lab" uuid no_loads ticks "boot" (λ _, "")
  (λ _, JNull) false id (session_of op)).

Lemma reach_call P op w c : reach P op w → reach P op (call_of P op c w).2.
Proof. apply r_call. Qed.
Lemma reach_restored P op w : reach P op w → reach P op (restore w).
Proof. intros Hw. eapply r_host; [exact Hw|]. split; [by intros n nd|done]. Qed.
Lemma reach_start P op power : reach P op (start P op power).
Proof. by apply r_start. Qed.

Lemma recovered_reachable : reach true "android-exit" recovered_run.2.
Proof.
  exact (reach_call _ _ _ Recover (reach_restored _ _ _ (reach_call _ _ _ Execute (reach_start _ _ _)))).
Qed.

(** ** Witnesses *)

Definition exit_session : session := session_of "android-exit".
Lemma exit_ordinary : ordinary uuid exit_session.
Proof. split; [apply String.eqb_neq; vm_compute; reflexivity|intros fs; vm_compute; reflexivity]. Qed.

Lemma no_replay_witness :
  grants (trace_of recovered_run) = ["native-start"; "recover-android"]
  ∧ NoDup (grants (trace_of recovered_run)).
Proof.
  split; [vm_compute; reflexivity|].
  exact (proj1 (no_replay _ _ _ _ _ _ _ _ _ _ _ exit_ordinary recovered_reachable)).
Defined.

Lemma unused_run_reachable : reach false "android-exit" unused_run.2.
Proof. exact (reach_call _ _ _ Execute (reach_start _ _ None)). Qed.

Definition close_unused_run :=
  close_unused (H0:=the_adapter false) "/srv/lab" uuid no_loads exit_session unused_run.2.

Lemma unused_never_dispatched_witness :
  is_ok close_unused_run.1 = true ∧ effects (w_trace close_unused_run.2) = [].
Proof.
  split; [vm_compute; reflexivity|].
  destruct close_unused_run as [[r|e] w'] eqn:Hc; [|by vm_compute in Hc]. unfold close_unused_run in Hc.
  exact (proj1 (unused_never_dispatched _ _ _ _ _ _ _ _ _ _ _ _ _
    exit_ordinary unused_run_reachable Hc)).
Defined.

Definition exit_plan : list Step :=
  ok [] (steps "android-exit" false false false).
Definition close_run :=
  close (H0:=the_adapter true) "/srv/lab" uuid no_loads exit_session exit_plan false full_run.2.

Lemma full_run_reachable : reach true "android-exit" full_run.2.
Proof. exact (reach_call _ _ _ Execute (reach_start _ _ None)). Qed.

Lemma close_accounts_witness :
  is_ok close_run.1 = true ∧ effectful_names exit_session exit_plan
    = ["native-start"; "install-android"]
  ∧ ∀ x, x ∈ effects (w_trace close_run.2) →
      x ∈ effectful_names exit_session exit_plan.
Proof.
  split; [vm_compute; reflexivity|]. split; [vm_compute; reflexivity|].
  destruct close_run as [[r|e] w'] eqn:Hc; [|by vm_compute in Hc]. unfold close_run in Hc.
  exact (proj2 (close_accounts _ _ _ _ _ _ _ _ _ _ _ _ _ _
    exit_ordinary full_run_reachable Hc)).
Defined.



Definition native_start : Step := match exit_plan with st :: _ => st | [] => step3 "" "" "" end.
Definition grant_run :=
  intent (H0:=the_adapter true) "/srv/lab" uuid no_loads ticks "boot" exit_session native_start false
    fixed_plan (start true "android-exit" None).

Lemma grant_owned_witness :
  sp_name native_start = "native-start" ∧ is_ok grant_run.1 = true
  ∧ require_f1_owner (w_fs grant_run.2) (se_path "/srv/lab" exit_session) (se_binding exit_session) = Ok tt.
Proof.
  split; [vm_compute; reflexivity|]. split; [vm_compute; reflexivity|].
  destruct grant_run as [[r|e] w'] eqn:Hc; [|by vm_compute in Hc]. unfold grant_run in Hc.
  refine (proj1 (grant_owned _ _ _ _ _ _ _ _ _ _ _ _ exit_ordinary _ _ Hc)).
  - apply String.eqb_neq. vm_compute. reflexivity.
  - apply Nat.leb_le. vm_compute. reflexivity.
Defined.

Definition gpt_request : dict := [("operation", JStr gpt); ("reentry", JBool false); ("hud", JBool false)].
Definition gpt_plan : list Step := ok [] (operation_steps gpt_request).

Lemma plans_account_witness :
  (5 <= length gpt_plan)%nat ∧ NoDup (map sp_name gpt_plan).
Proof.
  split; [apply Nat.leb_le; vm_compute; reflexivity|].
  refine (proj1 (plans_account gpt_request gpt_plan gpt _ _)); vm_compute; reflexivity.
Defined.
