(* ===== verification/Console.v ===== *)
(** * The root console: wire codec and host session

    [s22plus_root_console_v1.py]: the authenticated frames exchanged with the
    native init of the device, the incremental decoder, the state a session keeps
    of requests and responses, the live session that sends and polls, and the
    replay that derives the same state from the retained streams.  What a derived
    session class overrides is the record [session_class]. *)

From stdpp Require Import base list strings gmap.
From Stdlib Require Import ZArith NArith Lia Ascii.
From S2P Require Import Prelude PyStr Json Digest Bytes.
Open Scope string_scope.
Open Scope Z_scope.

(** ** Constants *)

Definition EXEC : Z := 32.
Definition STATUS : Z := 33.
Definition CANCEL : Z := 34.
Definition CONTROL : Z := 35.
Definition ACK : Z := 160.
Definition OUTPUT : Z := 161.
Definition EXIT : Z := 162.
Definition STATUS_REPLY : Z := 163.
Definition CONTROL_ACK : Z := 164.
Definition FAULT : Z := 165.
Definition READY : Z := 166.
Definition DOMAIN : string := "S22PLUS-FYG8-ROOT-CONSOLE-v1".
Definition MAX_PAYLOAD : Z := 1055.
Definition RAW_CAPTURE_MAXIMUM : Z := 80 * 1024 * 1024.
Definition SESSION_RX_LIMIT : Z := RAW_CAPTURE_MAXIMUM - 64 * 1024.
Definition OUTPUT_LIMIT : Z := 1024 * 1024.
Definition OUTPUT_FRAME_LIMIT : Z := 2048.
Definition MAX_COMMAND_RX_BYTES : Z := OUTPUT_LIMIT + OUTPUT_FRAME_LIMIT * (16 + 12 + 32) + 80 + 76 + 72.

Definition zlen (s : string) : Z := Z.of_nat (String.length s).
Definition perr (b : bool) (msg : string) : result unit := Prelude.require b (ProtocolError msg).
Definition verr (b : bool) (msg : string) : result unit := Prelude.require b (PyValueError msg).

(** ** Frames *)

(** The identity a session authenticates with *)
Record ident := { id_key : string; id_run : string; id_nonce : string }.
Definition ident_ok (i : ident) : bool :=
  (zlen (id_key i) =? 32) && (zlen (id_run i) =? 16) && (zlen (id_nonce i) =? 32).

(** An authenticated frame: kind, sequence number and body *)
Record wframe := Fr { fr_kind : Z; fr_seq : Z; fr_body : string }.

Section Codec.
Context `{Digest}.
Variable i : ident.

Definition tag (sequence kind : Z) (body : string) : result string :=
  do* verr (ident_ok i) "invalid session identity sizes" in
  do* Prelude.require ((0 <=? sequence) && (sequence <? 4294967296)) PyStructError in
  do* verr ((0 <=? kind) && (kind <? 256)) "bytes must be in range(0, 256)" in
  Ok (hmac (id_key i) (DOMAIN ++ id_run i ++ id_nonce i ++ le 4 sequence ++ le 1 kind ++ body)).

Definition head (kind size sequence : Z) : string := "S328" ++ le 1 1 ++ le 1 kind ++ le 2 size ++ le 4 sequence.

Definition frame (sequence kind : Z) (body : string) : result string :=
  let* signature := tag sequence kind body in
  let payload := (body ++ signature)%string in
  do* verr (zlen payload <=? MAX_PAYLOAD) "payload too large" in
  let h := head kind (zlen payload) sequence in
  Ok (h ++ le 4 (Z.of_N (crc32 (h ++ payload))) ++ payload)%string.

(** ** Commands *)

Definition has_nul (s : string) : bool := contains (String nul "") s.

Definition command (cmd cwd : string) (timeout_ms : Z) : result string :=
  do* verr ((1 <=? zlen cmd) && (zlen cmd <=? 767) && negb (has_nul cmd))
        "command must be 1..767 non-NUL bytes" in
  do* verr (startswith "/" cwd && (zlen cwd <=? 255) && negb (has_nul cwd))
        "cwd must be an absolute non-NUL path of at most 255 bytes" in
  do* verr ((1 <=? timeout_ms) && (timeout_ms <=? 300000)) "timeout outside finite command budget" in
  let body := (le 4 timeout_ms ++ le 2 (zlen cwd) ++ cwd ++ cmd)%string in
  do* verr (zlen body + 32 <=? MAX_PAYLOAD) "combined command and cwd exceed wire budget" in
  Ok body.

Definition in_kinds (kind : Z) (l : list Z) : bool := existsb (Z.eqb kind) l.

Definition validate_request (kind : Z) (body : string) : result unit :=
  do* verr (in_kinds kind [EXEC; STATUS; CANCEL; CONTROL]) "unknown request" in
  do* verr (negb (in_kinds kind [STATUS; CONTROL]) || (zlen body =? 0)) "unexpected request body" in
  do* verr (negb (kind =? CANCEL) || (zlen body =? 4) && negb (unle body =? 0))
        "CANCEL requires a nonzero command identity" in
  if kind =? EXEC then
    do* verr (8 <=? zlen body) "invalid EXEC body" in
    let budget := unle (stake 4 body) in
    let cwd_size := Z.to_nat (unle (stake 2 (sdrop 4 body))) in
    let* again := command (sdrop (6 + cwd_size) body) (stake cwd_size (sdrop 6 body)) budget in
    verr (again =? body)%string "noncanonical EXEC body"
  else Ok tt.

(** ** The decoder *)

(** The fields of a complete header *)
Definition header_ok (p : string) : bool :=
  (stake 4 p =? "S328")%string && (unle (stake 1 (sdrop 4 p)) =? 1)
  && (32 <=? unle (stake 2 (sdrop 6 p))) && (unle (stake 2 (sdrop 6 p)) <=? MAX_PAYLOAD).
Definition header_size (p : string) : nat := Z.to_nat (unle (stake 2 (sdrop 6 p))).

(** One complete frame at the head of the pending bytes *)
Definition take_frame (p : string) : result wframe :=
  let size := header_size p in
  let payload := stake size (sdrop 16 p) in
  let body := stake (size - 32) payload in
  let signature := sdrop (size - 32) payload in
  let kind := unle (stake 1 (sdrop 5 p)) in
  let seq := unle (stake 4 (sdrop 8 p)) in
  do* perr (Z.of_N (crc32 (stake 12 p ++ payload)) =? unle (stake 4 (sdrop 12 p))) "frame CRC mismatch" in
  let* expected := tag seq kind body in
  do* perr (signature =? expected)%string "frame authentication mismatch" in
  Ok (Fr kind seq body).

(** The loop of [feed], with what is left in [pending] when it raises too *)
Fixpoint feed_loop (fuel : nat) (p : string) (frames : list wframe) : result (list wframe) * string :=
  match fuel with
  | O => (Ok frames, p)
  | S fuel' =>
      if (String.length p <? 16)%nat then (Ok frames, p)
      else if negb (header_ok p) then (Err (ProtocolError "invalid frame header"), p)
      else if (String.length p <? 16 + header_size p)%nat then (Ok frames, p)
      else
        let rest := sdrop (16 + header_size p) p in
        match take_frame p with
        | Ok f => feed_loop fuel' rest (frames ++ [f])%list
        | Err e => (Err e, rest)
        end
  end.

(** [feed]: every round takes at least sixteen bytes, so their number bounds the rounds. *)
Definition feed (pending data : string) : result (list wframe) * string :=
  let p := (pending ++ data)%string in feed_loop (S (String.length p)) p [].

(** ** The state of a session *)

Record st := {
  st_requests : gmap Z Z;
  st_bodies : gmap Z string;
  st_responses : gset Z;
  st_accepted : gset Z;
  st_rejected : gset Z;
  st_outputs : gmap Z (Z * Z);
  st_terminals : gset Z;
  st_pending : option Z;
  st_control : option Z;
  st_faulted : bool;
  st_finished : bool;
  st_ready : option (list Z);
  st_last : option (Z * Z * Z)        (** [_last_terminal] of the derived class *)
}.

(** [_replay_state] *)
Definition st0 : st := {|
  st_requests := ∅; st_bodies := ∅; st_responses := ∅; st_accepted := ∅; st_rejected := ∅;
  st_outputs := ∅; st_terminals := ∅; st_pending := None; st_control := None; st_faulted := false;
  st_finished := false; st_ready := None; st_last := None |}.

Definition set_ready (s : st) (fields : list Z) : st :=
  {| st_requests := st_requests s; st_bodies := st_bodies s; st_responses := st_responses s;
     st_accepted := st_accepted s; st_rejected := st_rejected s; st_outputs := st_outputs s;
     st_terminals := st_terminals s; st_pending := st_pending s; st_control := st_control s;
     st_faulted := st_faulted s; st_finished := st_finished s; st_ready := Some fields;
     st_last := st_last s |}.
Definition set_output (s : st) (seq ordinal total : Z) : st :=
  {| st_requests := st_requests s; st_bodies := st_bodies s; st_responses := st_responses s;
     st_accepted := st_accepted s; st_rejected := st_rejected s;
     st_outputs := <[seq := (ordinal, total)]> (st_outputs s);
     st_terminals := st_terminals s; st_pending := st_pending s; st_control := st_control s;
     st_faulted := st_faulted s; st_finished := st_finished s; st_ready := st_ready s;
     st_last := st_last s |}.
(** [self.responses.add(seq)], and the pending request is answered *)
Definition answer (s : st) (seq : Z) : st :=
  {| st_requests := st_requests s; st_bodies := st_bodies s; st_responses := {[ seq ]} ∪ st_responses s;
     st_accepted := st_accepted s; st_rejected := st_rejected s; st_outputs := st_outputs s;
     st_terminals := st_terminals s;
     st_pending := if decide (st_pending s = Some seq) then None else st_pending s;
     st_control := st_control s; st_faulted := st_faulted s; st_finished := st_finished s;
     st_ready := st_ready s; st_last := st_last s |}.
Definition add_terminal (s : st) (seq : Z) : st :=
  {| st_requests := st_requests s; st_bodies := st_bodies s; st_responses := st_responses s;
     st_accepted := st_accepted s; st_rejected := st_rejected s; st_outputs := st_outputs s;
     st_terminals := {[ seq ]} ∪ st_terminals s; st_pending := st_pending s;
     st_control := st_control s; st_faulted := st_faulted s; st_finished := st_finished s;
     st_ready := st_ready s; st_last := st_last s |}.
Definition add_accepted (s : st) (seq : Z) : st :=
  {| st_requests := st_requests s; st_bodies := st_bodies s; st_responses := st_responses s;
     st_accepted := {[ seq ]} ∪ st_accepted s; st_rejected := st_rejected s; st_outputs := st_outputs s;
     st_terminals := st_terminals s; st_pending := st_pending s; st_control := st_control s;
     st_faulted := st_faulted s; st_finished := st_finished s; st_ready := st_ready s;
     st_last := st_last s |}.
Definition add_rejected (s : st) (seq : Z) : st :=
  {| st_requests := st_requests s; st_bodies := st_bodies s; st_responses := st_responses s;
     st_accepted := st_accepted s; st_rejected := {[ seq ]} ∪ st_rejected s; st_outputs := st_outputs s;
     st_terminals := st_terminals s; st_pending := st_pending s; st_control := st_control s;
     st_faulted := st_faulted s; st_finished := st_finished s; st_ready := st_ready s;
     st_last := st_last s |}.
Definition set_faulted (s : st) : st :=
  {| st_requests := st_requests s; st_bodies := st_bodies s; st_responses := st_responses s;
     st_accepted := st_accepted s; st_rejected := st_rejected s; st_outputs := st_outputs s;
     st_terminals := st_terminals s; st_pending := st_pending s; st_control := st_control s;
     st_faulted := true; st_finished := st_finished s; st_ready := st_ready s; st_last := st_last s |}.
Definition set_finished (s : st) : st :=
  {| st_requests := st_requests s; st_bodies := st_bodies s; st_responses := st_responses s;
     st_accepted := st_accepted s; st_rejected := st_rejected s; st_outputs := st_outputs s;
     st_terminals := st_terminals s; st_pending := st_pending s; st_control := st_control s;
     st_faulted := st_faulted s; st_finished := true; st_ready := st_ready s; st_last := st_last s |}.

Definition output_of (s : st) (seq : Z) : Z * Z := default (0, 0) (st_outputs s !! seq).
Definition bit (flags mask : Z) : bool := negb (Z.land flags mask =? 0).

(** ** Responses *)

Definition json_words (l : list Z) : json := JList (map JInt l).

Definition ready_fields_ok (fields : list Z) : bool :=
  bool_decide (take 6 fields = [1; 600000; 300000; 1048576; 767; 255]).

Definition on_ready (s : st) (seq : Z) (body : string) : result (st * option json) :=
  do* perr (match st_ready s with None => true | Some _ => false end && (seq =? 2) && (zlen body =? 32))
        "duplicate or invalid native READY" in
  let fields := words32 8 body in
  do* perr (ready_fields_ok fields) "native resource profile differs" in
  Ok (set_ready s fields, Some (JObj [("event", JStr "ready"); ("fields", json_words fields)])).

Definition on_output (s : st) (request seq : Z) (body : string) : result (st * option json) :=
  do* perr ((request =? EXEC) && (13 <=? zlen body) && bool_decide (seq ∉ st_terminals s)
            && bool_decide (seq ∈ st_accepted s)) "output outside command lifecycle" in
  match words32 3 (stake 12 body) with
  | [identity; ordinal; stream] =>
      let old := output_of s seq in
      do* perr ((identity =? seq) && (ordinal =? old.1 + 1) && in_kinds stream [1; 2])
            "output identity/order/stream mismatch" in
      do* perr (ordinal <=? OUTPUT_FRAME_LIMIT) "command output frame bound exceeded" in
      let total := old.2 + (zlen body - 12) in
      do* perr (total <=? 1048576) "command output bound exceeded" in
      Ok (set_output s seq ordinal total, None)
  | _ => Err PyStructError
  end.

(** The wait status of a terminal: an exit code, a signal, or nothing *)
Definition wait_status_ok (status : Z) : bool :=
  (Z.land status 4294901760 =? 0)                                     (* 0xffff0000 *)
  && negb (Z.land status 127 =? 127)
  && negb (bit status 127 && bit status 65280).                       (* 0x7f, 0xff00 *)

Definition exit_flags_ok (control : option Z) (flags status error dropped : Z) : result unit :=
  let signed_error := signed32 error in
  do* perr ((Z.land flags (Z.lnot 511) =? 0) && Bool.eqb (bit flags 16) (signed_error <? 0)
            && (signed_error <=? 0)) "invalid terminal flags or exec errno" in
  do* perr (Bool.eqb (negb (dropped =? 0)) (bit flags 4)) "truncation/count mismatch" in
  do* (if bit flags 64 then
         perr ((status =? 0) && bit flags 8) "unavailable wait status has a value"
       else perr (wait_status_ok status) "invalid terminal wait status") in
  do* perr (negb (bit flags 256) || (error =? 0) && bit flags 8) "invalid unknown exec state" in
  perr (negb (bit flags 32)
        || match control with Some _ => true | None => false end && bit flags 8 && bit flags 128)
    "unjoined CONTROL interruption".

Definition on_exit (s : st) (request seq : Z) (body : string) : result (st * option json) :=
  do* perr ((request =? EXEC) && (zlen body =? 28) && bool_decide (seq ∉ st_terminals s)
            && bool_decide (seq ∉ st_rejected s)) "duplicate or invalid terminal" in
  match words32 7 body with
  | [identity; flags; status; error; total; dropped; ordinal] =>
      do* perr ((identity =? seq) && bool_decide ((ordinal, total) = output_of s seq))
            "terminal/output mismatch" in
      do* exit_flags_ok (st_control s) flags status error dropped in
      let* s' :=
        if bool_decide (seq ∈ st_accepted s) then Ok s
        else
          do* perr ((flags =? 16) && (status =? 0) && (total =? 0) && (dropped =? 0) && (ordinal =? 0))
                "terminal without accepted EXEC or pre-spawn failure" in
          do* perr (bool_decide (seq ∉ st_responses s)) "duplicate EXEC response" in
          Ok (answer s seq) in
      Ok (add_terminal s' seq,
          Some (JObj [("event", JStr "terminal"); ("sequence", JInt seq); ("flags", JInt flags);
                      ("wait_status", JInt status); ("wait_status_available", JBool (negb (bit flags 64)));
                      ("exec_state_available", JBool (negb (bit flags 256)));
                      ("exec_errno", JInt (signed32 error)); ("output_bytes", JInt total);
                      ("dropped_bytes", JInt dropped); ("output_frames", JInt ordinal)]))
  | _ => Err PyStructError
  end.

(** The acknowledgement a request expects; another kind is a [KeyError]. *)
Definition expected_ack (request : Z) : result Z :=
  if request =? EXEC then Ok ACK
  else if request =? CANCEL then Ok ACK
  else if request =? STATUS then Ok STATUS_REPLY
  else if request =? CONTROL then Ok CONTROL_ACK
  else Err (PyKeyError "request").

(** [self.accepted - self.terminals] is not empty *)
Definition running (s : st) : bool := negb (bool_decide (st_accepted s ⊆ st_terminals s)).

(** The supervisor fields of an acknowledgement *)
Definition supervisor_ok (s : st) (request seq identity active blocked flags total last : Z)
    : result unit :=
  do* perr (in_kinds active [0; 1] && in_kinds blocked [0; 1] && (Z.land flags (Z.lnot 511) =? 0)
            && (total <=? 1048576)) "invalid supervisor state fields" in
  do* perr ((identity =? 0) || bool_decide (st_requests s !! identity = Some EXEC))
        "unknown current command" in
  do* perr ((last =? 0) || bool_decide (last ∈ st_terminals s)) "unobserved last terminal" in
  perr ((active =? 0)
        || bool_decide (identity ∈ st_accepted s) && bool_decide (identity ∉ st_terminals s)
        || (request =? EXEC) && (identity =? seq)) "active command was not accepted".

(** What the disposition means for each request *)
Definition disposition_step (s : st) (request seq identity disposition active blocked flags total dropped last : Z)
    : result st :=
  if request =? EXEC then
    if disposition =? 0 then
      do* perr ((identity =? seq) && negb (active =? 0) && (blocked =? 0) && (flags =? 0) && (total =? 0)
                && (dropped =? 0)) "invalid EXEC acceptance" in
      do* perr (negb (running s)) "overlapping accepted commands" in
      Ok (add_accepted s seq)
    else if disposition =? 1 then
      do* perr ((negb (active =? 0) || negb (blocked =? 0)) && negb (identity =? seq))
            "invalid EXEC rejection" in
      Ok (add_rejected s seq)
    else Err (ProtocolError "invalid EXEC disposition")
  else if request =? CANCEL then
    match st_bodies s !! seq with
    | None => Err (PyKeyError "request_bodies")
    | Some b =>
        let target := unle b in
        if disposition =? 0 then
          do* perr ((target =? identity) && negb (active =? 0) && bit flags 1) "invalid CANCEL acceptance" in
          Ok s
        else if disposition =? 1 then
          do* perr ((target =? last) && bool_decide (target ∈ st_terminals s)) "invalid completed CANCEL" in
          Ok s
        else if disposition =? 2 then
          do* perr (negb ((target =? identity) && negb (active =? 0) || (target =? last)))
                "invalid stale CANCEL" in
          Ok s
        else Err (ProtocolError "invalid CANCEL disposition")
    end
  else
    do* perr ((disposition =? 0)
              && negb ((request =? CONTROL) && (negb (active =? 0) || (blocked =? 0))))
          "invalid STATUS/CONTROL acknowledgement" in
    Ok s.

Definition response_row (seq kind : Z) (fields : list Z) : json :=
  JObj [("event", JStr "response"); ("sequence", JInt seq); ("kind", JInt kind); ("fields", json_words fields)].

Definition on_ack (s : st) (request kind seq : Z) (body : string) : result (st * option json) :=
  let* expected := expected_ack request in
  do* perr ((kind =? expected) && (zlen body =? 32)) "unexpected acknowledgement" in
  do* perr (bool_decide (seq ∉ st_responses s)) "duplicate acknowledgement" in
  match words32 8 body with
  | [identity; disposition; active; blocked; flags; total; dropped; last] =>
      do* supervisor_ok s request seq identity active blocked flags total last in
      let* s1 := disposition_step s request seq identity disposition active blocked flags total dropped last in
      do* perr (negb ((request =? CONTROL) && running s1)) "CONTROL lacks command terminal evidence" in
      let s2 := if request =? CONTROL then set_finished s1 else s1 in
      Ok (answer s2 seq, Some (response_row seq kind (words32 8 body)))
  | _ => Err PyStructError
  end.

Definition on_fault (s : st) (seq : Z) (body : string) : result (st * option json) :=
  do* perr ((zlen body =? 8) && bool_decide (words32 2 body = [seq; 1]) && negb (st_faulted s))
        "invalid overload fault" in
  Ok (set_faulted s, Some (JObj [("event", JStr "overload"); ("sequence", JInt seq);
                                 ("command_admission_closed", JBool true)])).

(** [_validate]: the new state, and the record for the evidence journal *)
Definition validate (s : st) (f : wframe) : result (st * option json) :=
  let kind := fr_kind f in let seq := fr_seq f in let body := fr_body f in
  do* perr (negb (st_finished s)) "response after CONTROL ACK" in
  if kind =? READY then on_ready s seq body
  else
    do* perr (match st_ready s with Some _ => true | None => false end) "response before native READY" in
    match st_requests s !! seq with
    | None => Err (ProtocolError "response has no durable request")
    | Some request =>
        if kind =? OUTPUT then on_output s request seq body
        else if kind =? EXIT then on_exit s request seq body
        else if in_kinds kind [ACK; STATUS_REPLY; CONTROL_ACK] then on_ack s request kind seq body
        else if kind =? FAULT then on_fault s seq body
        else Err (ProtocolError "unknown response type")
    end.

End Codec.
