(* ===== verification/ConsoleSession.v ===== *)
(** * The live root console session, and its replay

    [Session] of [s22plus_root_console_v1.py]: [send] and [poll] on an
    environment that decides what every system call does, with the private
    evidence they write first; [replay] and [replay_prefix], which derive the
    lifecycle again from the retained streams alone. *)

From stdpp Require Import base list strings gmap.
From Stdlib Require Import ZArith NArith Lia Ascii.
From S2P Require Import Prelude PyStr Json Digest Bytes Console.
Open Scope string_scope.
Open Scope Z_scope.

(** What a class derived from [Session] overrides; [sc_may_send] is the check its
    [send] makes before the inherited one. *)
Record session_class := {
  sc_validate_request : Z → string → result unit;
  sc_terminal_request : Z → bool;
  sc_may_send : st → string → Z → result unit;
  sc_validate : st → wframe → result (st * option json)
}.

Definition root_class : session_class := {|
  sc_validate_request := validate_request;
  sc_terminal_request := λ kind, kind =? CONTROL;
  sc_may_send := λ _ _ _, Ok tt;
  sc_validate := validate
|}.

(** [self.requests[seq] = kind], the body, and the control sequence or the pending request *)
Definition note_request (c : session_class) (live : bool) (s : st) (kind seq : Z) (body : string) : st :=
  {| st_requests := <[seq := kind]> (st_requests s); st_bodies := <[seq := body]> (st_bodies s);
     st_responses := st_responses s; st_accepted := st_accepted s; st_rejected := st_rejected s;
     st_outputs := st_outputs s; st_terminals := st_terminals s;
     st_pending := if live && negb (sc_terminal_request c kind) then Some seq else st_pending s;
     st_control := if sc_terminal_request c kind then Some seq else st_control s;
     st_faulted := st_faulted s; st_finished := st_finished s; st_ready := st_ready s;
     st_last := st_last s |}.

(** ** The live session *)

Record live := {
  lv_st : st;
  lv_stopped : bool;
  lv_pending : string;                 (** the decoder's pending bytes *)
  lv_raw : Z;                          (** [raw_count] *)
  lv_sequence : Z;
  lv_journal : list json;              (** [journal.jsonl] *)
  lv_files : list (Z * string);        (** [request-*.bin] *)
  lv_rx : string;                      (** [rx.bin], and what [on_rx] received *)
  lv_tx : string;
  lv_wire : string;                    (** the bytes the transport took *)
  lv_faults : option nat               (** evidence writes that still succeed *)
}.

Definition L (A : Type) : Type := live → result A * live.
#[export] Instance L_ret : MRet L := λ A a l, (Ok a, l).
#[export] Instance L_bind : MBind L := λ A B k m l,
  match m l with (Ok a, l') => k a l' | (Err e, l') => (Err e, l') end.
Definition lraise {A} (e : pyexc) : L A := λ l, (Err e, l).
Definition llift {A} (r : result A) : L A := λ l, (r, l).
Definition lget {A} (f : live → A) : L A := λ l, (Ok (f l), l).
Definition lset (f : live → live) : L unit := λ l, (Ok tt, f l).

Definition with_st (s : st) (l : live) : live :=
  {| lv_st := s; lv_stopped := lv_stopped l; lv_pending := lv_pending l; lv_raw := lv_raw l;
     lv_sequence := lv_sequence l; lv_journal := lv_journal l; lv_files := lv_files l; lv_rx := lv_rx l;
     lv_tx := lv_tx l; lv_wire := lv_wire l; lv_faults := lv_faults l |}.
Definition stop (l : live) : live :=
  {| lv_st := lv_st l; lv_stopped := true; lv_pending := lv_pending l; lv_raw := lv_raw l;
     lv_sequence := lv_sequence l; lv_journal := lv_journal l; lv_files := lv_files l; lv_rx := lv_rx l;
     lv_tx := lv_tx l; lv_wire := lv_wire l; lv_faults := lv_faults l |}.
Definition with_pending (p : string) (l : live) : live :=
  {| lv_st := lv_st l; lv_stopped := lv_stopped l; lv_pending := p; lv_raw := lv_raw l;
     lv_sequence := lv_sequence l; lv_journal := lv_journal l; lv_files := lv_files l; lv_rx := lv_rx l;
     lv_tx := lv_tx l; lv_wire := lv_wire l; lv_faults := lv_faults l |}.
Definition with_faults (n : option nat) (l : live) : live :=
  {| lv_st := lv_st l; lv_stopped := lv_stopped l; lv_pending := lv_pending l; lv_raw := lv_raw l;
     lv_sequence := lv_sequence l; lv_journal := lv_journal l; lv_files := lv_files l; lv_rx := lv_rx l;
     lv_tx := lv_tx l; lv_wire := lv_wire l; lv_faults := n |}.
Definition add_row (row : json) (l : live) : live :=
  {| lv_st := lv_st l; lv_stopped := lv_stopped l; lv_pending := lv_pending l; lv_raw := lv_raw l;
     lv_sequence := lv_sequence l; lv_journal := (lv_journal l ++ [row])%list; lv_files := lv_files l;
     lv_rx := lv_rx l; lv_tx := lv_tx l; lv_wire := lv_wire l; lv_faults := lv_faults l |}.
Definition add_file (seq : Z) (body : string) (l : live) : live :=
  {| lv_st := lv_st l; lv_stopped := lv_stopped l; lv_pending := lv_pending l; lv_raw := lv_raw l;
     lv_sequence := lv_sequence l; lv_journal := lv_journal l;
     lv_files := (lv_files l ++ [(seq, body)])%list;
     lv_rx := lv_rx l; lv_tx := lv_tx l; lv_wire := lv_wire l; lv_faults := lv_faults l |}.
Definition add_rx (data : string) (l : live) : live :=
  {| lv_st := lv_st l; lv_stopped := lv_stopped l; lv_pending := lv_pending l;
     lv_raw := lv_raw l + zlen data; lv_sequence := lv_sequence l; lv_journal := lv_journal l;
     lv_files := lv_files l; lv_rx := lv_rx l ++ data; lv_tx := lv_tx l; lv_wire := lv_wire l;
     lv_faults := lv_faults l |}.
Definition add_tx (data : string) (l : live) : live :=
  {| lv_st := lv_st l; lv_stopped := lv_stopped l; lv_pending := lv_pending l; lv_raw := lv_raw l;
     lv_sequence := lv_sequence l; lv_journal := lv_journal l; lv_files := lv_files l; lv_rx := lv_rx l;
     lv_tx := lv_tx l ++ data; lv_wire := lv_wire l; lv_faults := lv_faults l |}.
Definition add_wire (data : string) (l : live) : live :=
  {| lv_st := lv_st l; lv_stopped := lv_stopped l; lv_pending := lv_pending l; lv_raw := lv_raw l;
     lv_sequence := lv_sequence l; lv_journal := lv_journal l; lv_files := lv_files l; lv_rx := lv_rx l;
     lv_tx := lv_tx l; lv_wire := lv_wire l ++ data; lv_faults := lv_faults l |}.
Definition next_request (s : st) (l : live) : live :=
  {| lv_st := s; lv_stopped := lv_stopped l; lv_pending := lv_pending l; lv_raw := lv_raw l;
     lv_sequence := lv_sequence l + 1; lv_journal := lv_journal l; lv_files := lv_files l;
     lv_rx := lv_rx l; lv_tx := lv_tx l; lv_wire := lv_wire l; lv_faults := lv_faults l |}.

(** One durable write of evidence: [os.write] and [os.fsync] *)
Definition tick : L unit := λ l,
  match lv_faults l with
  | None => (Ok tt, l)
  | Some (S n) => (Ok tt, with_faults (Some n) l)
  | Some O => (Err (PyOSError "No space left on device"), l)
  end.
Definition record (row : json) : L unit := _ ← tick; lset (add_row row).

(** [except BaseException: self.stopped = True; raise] *)
Definition or_stop {A} (m : L A) : L A := λ l,
  match m l with (Ok a, l') => (Ok a, l') | (Err e, l') => (Err e, stop l') end.

Section Live.
Context `{Digest}.
Variable i : ident.
Variable c : session_class.

(** [Session.__init__] after the evidence directory was made *)
Definition open_live (faults : option nat) : live := {|
  lv_st := st0; lv_stopped := false; lv_pending := ""; lv_raw := 0; lv_sequence := 3;
  lv_journal := [JObj [("event", JStr "session"); ("run_id_sha256", JStr (hexdigest (id_run i)));
                       ("nonce_sha256", JStr (hexdigest (id_nonce i)))]];
  lv_files := []; lv_rx := ""; lv_tx := ""; lv_wire := ""; lv_faults := faults |}.

(** ** Sending *)

(** What the transport does with a write: nothing yet, some bytes, an error *)
Inductive delivery := Blocked | Wrote (n : nat) | WriteError (e : pyexc).
(** One round of the delivery loop: the clock, the guard before the write, the write *)
Record wtry := { wt_now : Z; wt_guard : option pyexc; wt_write : delivery }.

(** The loop of [send].  Without another round the process is interrupted inside it. *)
Fixpoint deliver (deadline : Z) (wire : string) (tries : list wtry) : L unit :=
  match wire with
  | "" => mret tt
  | _ =>
      match tries with
      | [] => lraise (PyRuntimeError "KeyboardInterrupt")
      | t :: tries' =>
          if deadline <=? wt_now t then lraise (PyTimeoutError "request delivery uncertain")
          else
            match wt_guard t, wt_write t with
            | Some e, _ => lraise e
            | None, Blocked => deliver deadline wire tries'
            | None, WriteError e => lraise e
            | None, Wrote O => lraise (PyOSError "request delivery failed")
            | None, Wrote n =>
                _ ← lset (add_wire (stake n wire));
                _ ← tick;
                _ ← lset (add_tx (stake n wire));
                deliver deadline (sdrop n wire) tries'
            end
      end
  end.

Definition intent_row (seq kind : Z) (body : string) : json :=
  JObj [("event", JStr "intent"); ("sequence", JInt seq); ("kind", JInt kind);
        ("body_sha256", JStr (hexdigest body))].
Definition sent_row (seq : Z) : json := JObj [("event", JStr "sent"); ("sequence", JInt seq)].

(** The checks of [send] before anything is written *)
Definition send_guard (l : live) (kind : Z) (body : string) : result string :=
  do* sc_may_send c (lv_st l) (lv_pending l) kind in
  do* perr (negb (lv_stopped l)) "session stopped; replay forbidden" in
  do* perr (match st_ready (lv_st l) with Some _ => true | None => false end) "native READY not observed" in
  do* sc_validate_request c kind body in
  do* perr (match st_control (lv_st l) with None => true | Some _ => false end) "CONTROL already submitted" in
  do* perr ((kind =? CONTROL)
            || match st_pending (lv_st l) with None => true | Some _ => false end
               && negb (st_faulted (lv_st l))) "normal request window unavailable" in
  do* perr (lv_sequence l <? 4294967295) "request sequence exhausted" in
  frame i (lv_sequence l) kind body.

Definition send (kind : Z) (body : string) (now timeout : Z) (tries : list wtry) : L Z :=
  wire ← (λ l, (send_guard l kind body, l));
  or_stop
    (seq ← lget lv_sequence;
     _ ← tick;
     _ ← lset (add_file seq body);
     _ ← record (intent_row seq kind body);
     s ← lget lv_st;
     _ ← lset (next_request (note_request c true s kind seq body));
     _ ← deliver (now + timeout) wire tries;
     _ ← record (sent_row seq);
     mret seq).

(** ** Polling *)

Inductive reading := RBlocked | RClosed | RData (data : string) | RError (e : pyexc).

(** [for kind, seq, body in values: self._validate(kind, seq, body)] *)
Fixpoint accept_all (frames : list wframe) : L unit :=
  match frames with
  | [] => mret tt
  | f :: frames' =>
      s ← lget lv_st;
      r ← llift (sc_validate c s f);
      _ ← lset (with_st r.1);
      _ ← match r.2 with Some row => record row | None => mret tt end;
      accept_all frames'
  end.

Definition feed_live (data : string) : L (list wframe) := λ l,
  let r := feed i (lv_pending l) data in (r.1, with_pending r.2 l).

Definition poll (r : reading) : L (list wframe) :=
  stopped ← lget lv_stopped;
  if stopped : bool then lraise (ProtocolError "session stopped")
  else
    match r with
    | RBlocked => mret []
    | RClosed => or_stop (lraise (PyEOFError "transport closed; no reconnect"))
    | RError e => or_stop (lraise e)
    | RData data =>
        or_stop
          (count ← lget lv_raw;
           _ ← llift (perr (count + zlen data <=? SESSION_RX_LIMIT) "session capture limit exceeded");
           _ ← tick;
           _ ← lset (add_rx data);
           values ← feed_live data;
           _ ← accept_all values;
           l ← lget id;
           _ ← llift (perr (negb (st_finished (lv_st l) && negb (lv_pending l =? "")%string))
                        "trailing bytes after CONTROL ACK");
           mret values)
    end.

(** ** What an owner does with a session *)

Inductive act :=
  | ASend (kind : Z) (body : string) (now timeout : Z) (tries : list wtry)
  | APoll (r : reading)
  | AClose.

Definition step (l : live) (a : act) : live :=
  match a with
  | ASend kind body now timeout tries => (send kind body now timeout tries l).2
  | APoll r => (poll r l).2
  | AClose => stop l
  end.
Definition run (faults : option nat) (acts : list act) : live := foldl step (open_live faults) acts.

(** ** Replay *)

Fixpoint replay_requests (expected : Z) (s : st) (outgoing : list wframe) : result st :=
  match outgoing with
  | [] => Ok s
  | f :: outgoing' =>
      do* perr ((fr_seq f =? expected) && match st_control s with None => true | Some _ => false end)
            "retained request order or post-CONTROL request differs" in
      do* sc_validate_request c (fr_kind f) (fr_body f) in
      replay_requests (expected + 1) (note_request c false s (fr_kind f) (fr_seq f) (fr_body f)) outgoing'
  end.

Definition replay_responses (s : st) (incoming : list wframe) : result st :=
  foldM (λ s f, let* r := sc_validate c s f in Ok r.1) s incoming.

(** [any(seq not in state.responses and kind != EXEC for seq, kind in state.requests.items())] *)
Definition unanswered (s : st) : bool :=
  existsb (λ kv, negb (kv.2 =? EXEC) && negb (bool_decide (kv.1 ∈ st_responses s)))
    (map_to_list (st_requests s)).

Definition replay (rx tx : string) : result (st * list wframe) :=
  let out := feed i "" tx in
  let* outgoing := out.1 in
  let inc := feed i "" rx in
  let* incoming := inc.1 in
  do* perr ((out.2 =? "")%string && (inc.2 =? "")%string) "partial retained root frame" in
  let* s := replay_requests 3 st0 outgoing in
  let* s' := replay_responses s incoming in
  do* perr (st_finished s') "retained CONTROL ACK absent" in
  do* perr (negb (unanswered s')) "unanswered retained normal request" in
  Ok (s', incoming).
End Live.

(** ** The diagnostic replay of a prefix *)

(** [except (ValueError, struct.error)] *)
Definition diagnosed (e : pyexc) : option (string * string) :=
  match e with
  | PyValueError m => Some ("ValueError", m)
  | ProtocolError m => Some ("ProtocolError", m)
  | SessionError m => Some ("SessionError", m)
  | PyUnicodeError => Some ("UnicodeError", "")
  | PyStructError => Some ("error", "")
  | _ => None
  end.

Section Prefix.
Context `{Digest}.
Variable i : ident.
Variable c : session_class.

(** One round: a complete frame of the rest of the stream, and the state after it *)
Definition prefix_frame (rest : string) : result (wframe * nat) :=
  do* perr (16 <=? String.length rest)%nat "partial header" in
  do* perr (header_ok rest) "invalid header" in
  let size := (16 + header_size rest)%nat in
  do* perr (size <=? String.length rest)%nat "partial payload" in
  let r := feed i "" (stake size rest) in
  let* decoded := r.1 in
  match decoded with
  | [f] => do* perr (r.2 =? "")%string "noncanonical frame boundary" in Ok (f, size)
  | _ => Err (ProtocolError "noncanonical frame boundary")
  end.

Definition prefix_request (expected : Z) (s : st) (f : wframe) : result st :=
  do* perr ((fr_seq f =? expected) && match st_control s with None => true | Some _ => false end)
        "request order" in
  do* sc_validate_request c (fr_kind f) (fr_body f) in
  Ok (note_request c false s (fr_kind f) (fr_seq f) (fr_body f)).
Definition prefix_response (s : st) (f : wframe) : result st :=
  let* r := sc_validate c s f in Ok r.1.

(** What the loop over one stream leaves: the state, the events, the offset and the tail *)
Record prefix_end := {
  pe_st : st; pe_events : list wframe; pe_offset : nat; pe_tail : option (string * string)
}.

Fixpoint prefix_loop (fuel : nat) (tx : bool) (rest : string) (offset : nat) (expected : Z)
    (s : st) (events : list wframe) : result prefix_end :=
  let ends tail := {| pe_st := s; pe_events := events; pe_offset := offset; pe_tail := tail |} in
  match fuel, rest with
  | O, _ | _, "" => Ok (ends None)
  | S fuel', _ =>
      let r := let* fn := prefix_frame rest in
               let* s' := (if tx then prefix_request expected s fn.1 else prefix_response s fn.1) in
               Ok (fn, s') in
      match r with
      | Ok (f, n, s') =>
          prefix_loop fuel' tx (sdrop n rest) (offset + n) (expected + 1) s'
            (if tx then events else events ++ [f])%list
      | Err e =>
          match diagnosed e with Some t => Ok (ends (Some t)) | None => Err e end
      end
  end.

Definition prefix_stream (tx : bool) (raw : string) (s : st) : result prefix_end :=
  prefix_loop (S (String.length raw)) tx raw 0 3 s [].

Definition tail_row (raw : string) (e : prefix_end) (t : string * string) : json :=
  JObj [("offset", JInt (Z.of_nat (pe_offset e)));
        ("remaining", JInt (zlen raw - Z.of_nat (pe_offset e)));
        ("error_type", JStr t.1); ("reason", JStr (stake 256 t.2))].

Definition replay_prefix (rx tx : string) : result (st * list wframe * json) :=
  do* perr ((zlen rx <=? RAW_CAPTURE_MAXIMUM) && (zlen tx <=? 65536)) "diagnostic stream bounds differ" in
  let* t := prefix_stream true tx st0 in
  let* r := prefix_stream false rx (pe_st t) in
  let tails := (match pe_tail t with Some x => [("tx", tail_row tx t x)] | None => [] end
                ++ match pe_tail r with Some x => [("rx", tail_row rx r x)] | None => [] end)%list in
  Ok (pe_st r, pe_events r,
      JObj [("valid_prefix_bytes", JObj [("tx", JInt (Z.of_nat (pe_offset t)));
                                         ("rx", JInt (Z.of_nat (pe_offset r)))]);
            ("tails", JObj tails); ("session_completion_proved", JBool false)]).
End Prefix.
