(* ===== verification/ConsoleCodec.v ===== *)
(** * The frames of the root console

    The decoder accepts exactly the concatenations of encoded frames: what it
    returns are the frames the stream is made of, whatever the pieces it arrives
    in, and what it keeps is a proper prefix of the next frame. *)

From stdpp Require Import base list strings gmap.
From Stdlib Require Import ZArith NArith Lia Ascii.
From S2P Require Import Prelude PyStr Json Digest Bytes Console ConsoleSession.
Open Scope string_scope.
Open Scope Z_scope.

Lemma zlen_app a b : zlen (a ++ b) = zlen a + zlen b.
Proof. unfold zlen. rewrite str_length_app. lia. Qed.
Lemma zlen_nonneg a : 0 ≤ zlen a.
Proof. unfold zlen. lia. Qed.
Lemma zlen_le n z : zlen (le n z) = Z.of_nat n.
Proof. unfold zlen. by rewrite le_length. Qed.

(** Cutting a field off the front *)
Lemma cut_field n s : (n ≤ String.length s)%nat → ∃ a b, s = a ++ b ∧ String.length a = n.
Proof. intros Hn. exists (stake n s), (sdrop n s). by rewrite stake_sdrop, stake_length. Qed.

Section Frames.
Context `{Digest}.
Variable i : ident.
Hypothesis Hi : ident_ok i = true.

(** A frame the wire can carry *)
Definition encodable (f : wframe) : Prop :=
  0 ≤ fr_kind f < 256 ∧ 0 ≤ fr_seq f < 4294967296 ∧ zlen (fr_body f) + 32 ≤ MAX_PAYLOAD.

Definition signature (f : wframe) : string :=
  hmac (id_key i) (DOMAIN ++ id_run i ++ id_nonce i ++ le 4 (fr_seq f) ++ le 1 (fr_kind f) ++ fr_body f).
Definition payload (f : wframe) : string := fr_body f ++ signature f.
Definition header (f : wframe) : string := head (fr_kind f) (zlen (payload f)) (fr_seq f).
Definition wire (f : wframe) : string :=
  header f ++ le 4 (Z.of_N (crc32 (header f ++ payload f))) ++ payload f.
Fixpoint wires (fs : list wframe) : string :=
  match fs with [] => "" | f :: fs' => wire f ++ wires fs' end.

Lemma tag_ok kind seq body : 0 ≤ kind < 256 → 0 ≤ seq < 4294967296 →
  tag i seq kind body = Ok (signature (Fr kind seq body)).
Proof.
  intros Hk Hq. unfold tag, verr. rewrite Hi. cbn [Prelude.require rbind].
  replace (_ && _) with true by (symmetry; apply andb_true_iff; split; lia). cbn [Prelude.require rbind].
  by replace (_ && _) with true by (symmetry; apply andb_true_iff; split; lia).
Qed.
Lemma tag_inv kind seq body x : tag i seq kind body = Ok x →
  0 ≤ kind < 256 ∧ 0 ≤ seq < 4294967296 ∧ x = signature (Fr kind seq body).
Proof.
  unfold tag. intros ([] & _ & Ht)%rbind_Ok. apply rbind_Ok in Ht as ([] & Hq & Ht).
  apply rbind_Ok in Ht as ([] & Hk & [= <-]). apply require_Ok in Hk, Hq. bsimp. done.
Qed.
Lemma signature_length f : String.length (signature f) = 32%nat.
Proof. apply hmac_length. Qed.
Lemma payload_zlen f : zlen (payload f) = zlen (fr_body f) + 32.
Proof. unfold payload. rewrite zlen_app. unfold zlen at 2. rewrite signature_length. lia. Qed.

(** [frame] produces [wire]. *)
Lemma frame_wire f : encodable f → frame i (fr_seq f) (fr_kind f) (fr_body f) = Ok (wire f).
Proof.
  intros (Hk & Hq & Hb). pose proof (payload_zlen f) as Hp. destruct f as [k q b].
  unfold frame. cbn [fr_seq fr_kind fr_body] in *. rewrite tag_ok by done. cbn [rbind].
  change (b ++ signature (Fr k q b)) with (payload (Fr k q b)).
  unfold verr, Prelude.require. rewrite Hp.
  replace (zlen b + 32 <=? MAX_PAYLOAD) with true by (symmetry; lia). rewrite <- Hp. reflexivity.
Qed.
Lemma frame_inv seq kind body w :
  frame i seq kind body = Ok w → w = wire (Fr kind seq body) ∧ encodable (Fr kind seq body).
Proof.
  pose proof (payload_zlen (Fr kind seq body)) as Hz. cbn [fr_body] in Hz.
  unfold frame. intros (x & (Hk & Hq & ->)%tag_inv & Hf)%rbind_Ok. cbv zeta in Hf.
  change (body ++ signature (Fr kind seq body)) with (payload (Fr kind seq body)) in Hf.
  apply rbind_Ok in Hf as ([] & Hp & [= <-]). split; [done|].
  apply require_Ok in Hp. rewrite Hz in Hp. split_and!; cbn; lia.
Qed.

(** ** Reading a frame back *)

Section Front.
Variables (f : wframe) (rest : string).
Hypothesis Hf : encodable f.
Notation p := (wire f ++ rest).

Lemma payload_small : 32 ≤ zlen (payload f) ≤ MAX_PAYLOAD.
Proof. rewrite payload_zlen. destruct Hf as (_ & _ & Hb). pose proof (zlen_nonneg (fr_body f)). lia. Qed.

Lemma front_size : unle (stake 2 (sdrop 6 p)) = zlen (payload f).
Proof.
  change (unle (stake 2 (le 2 (zlen (payload f))
    ++ (le 4 (fr_seq f) ++ le 4 (Z.of_N (crc32 (header f ++ payload f))) ++ payload f) ++ rest))
    = zlen (payload f)).
  rewrite stake_app by apply le_length. apply unle_le_small.
  pose proof payload_small as Hp. unfold MAX_PAYLOAD in Hp. cbn. lia.
Qed.
Lemma front_kind : unle (stake 1 (sdrop 5 p)) = fr_kind f.
Proof.
  change (unle (stake 1 (le 1 (fr_kind f) ++ sdrop 6 p)) = fr_kind f).
  rewrite stake_app by apply le_length. apply unle_le_small. destruct Hf as (Hk & _). cbn. lia.
Qed.
Lemma front_seq : unle (stake 4 (sdrop 8 p)) = fr_seq f.
Proof.
  change (unle (stake 4 (le 4 (fr_seq f) ++ sdrop 12 p)) = fr_seq f).
  rewrite stake_app by apply le_length. apply unle_le_small. destruct Hf as (_ & Hq & _). cbn. lia.
Qed.
Lemma front_crc : unle (stake 4 (sdrop 12 p)) = Z.of_N (crc32 (header f ++ payload f)).
Proof.
  change (unle (stake 4 (le 4 (Z.of_N (crc32 (header f ++ payload f))) ++ sdrop 16 p))
    = Z.of_N (crc32 (header f ++ payload f))).
  rewrite stake_app by apply le_length. apply unle_le_small.
  pose proof (crc_run_word CRC_ONES (header f ++ payload f)) as Hw.
  assert (Hc : word32 (crc32 (header f ++ payload f))) by (apply lxor_word; [by apply Hw|done]).
  unfold word32 in Hc. change (256 ^ Z.of_nat 4) with 4294967296. lia.
Qed.

Lemma front_header : header_ok p = true.
Proof.
  unfold header_ok. rewrite front_size. pose proof payload_small.
  change (stake 4 p =? "S328")%string with true. change (unle (stake 1 (sdrop 4 p)) =? 1) with true.
  cbn [andb]. apply andb_true_iff. split; apply Z.leb_le; lia.
Qed.
Lemma front_header_size : header_size p = String.length (payload f).
Proof. unfold header_size. rewrite front_size. unfold zlen. lia. Qed.
Lemma front_rest : sdrop 16 p = payload f ++ rest.
Proof. reflexivity. Qed.
Lemma wire_length : String.length (wire f) = (16 + String.length (payload f))%nat.
Proof. reflexivity. Qed.
Lemma front_head : stake 12 p = header f.
Proof. reflexivity. Qed.

Lemma front_take : take_frame i p = Ok f.
Proof.
  unfold take_frame. rewrite front_header_size, front_crc, front_kind, front_seq, front_head, front_rest.
  rewrite stake_app by done. unfold perr, Prelude.require. rewrite Z.eqb_refl. cbn [rbind].
  assert (Hl : (String.length (payload f) - 32)%nat = String.length (fr_body f)).
  { unfold payload. rewrite str_length_app, signature_length. lia. }
  rewrite Hl. unfold payload. rewrite stake_app, sdrop_app by done. 
  destruct Hf as (Hk & Hq & _). destruct f as [k q b]. cbn [fr_body fr_kind fr_seq] in *.
  rewrite tag_ok by done. cbn [rbind]. by rewrite String.eqb_refl.
Qed.
Lemma front_drop : sdrop (16 + header_size p) p = rest.
Proof. rewrite front_header_size. apply sdrop_app, wire_length. Qed.
Lemma front_long : (16 + header_size p ≤ String.length p)%nat.
Proof. rewrite front_header_size, str_length_app, wire_length. lia. Qed.
End Front.

(** The fields of a string that has a whole header *)
Lemma header_fields m v k z q x r :
  String.length m = 4%nat → String.length v = 1%nat → String.length k = 1%nat →
  String.length z = 2%nat → String.length q = 4%nat → String.length x = 4%nat →
  let p := m ++ v ++ k ++ z ++ q ++ x ++ r in
  (stake 4 p = m ∧ stake 1 (sdrop 4 p) = v ∧ stake 1 (sdrop 5 p) = k ∧ stake 2 (sdrop 6 p) = z)
  ∧ (stake 4 (sdrop 8 p) = q ∧ stake 4 (sdrop 12 p) = x ∧ sdrop 16 p = r
     ∧ stake 12 p = m ++ v ++ k ++ z ++ q).
Proof.
  intros Hm Hv Hk Hz Hq Hx.
  repeat match goal with
  | H : String.length ?s = S _ |- _ => destruct s as [|? s]; [discriminate H|]; injection H as H
  | H : String.length ?s = O |- _ => destruct s; [clear H|discriminate H]
  end.
  split_and!; reflexivity.
Qed.

Lemma header_cut p : (16 ≤ String.length p)%nat → ∃ m v k z q x r,
  p = m ++ v ++ k ++ z ++ q ++ x ++ r
  ∧ (String.length m = 4 ∧ String.length v = 1 ∧ String.length k = 1)%nat
  ∧ (String.length z = 2 ∧ String.length q = 4 ∧ String.length x = 4)%nat.
Proof.
  intros Hl.
  destruct (cut_field 4 p) as (m & p1 & -> & Hm); [lia|]. rewrite str_length_app in Hl.
  destruct (cut_field 1 p1) as (v & p2 & -> & Hv); [lia|]. rewrite str_length_app in Hl.
  destruct (cut_field 1 p2) as (k & p3 & -> & Hk); [lia|]. rewrite str_length_app in Hl.
  destruct (cut_field 2 p3) as (z & p4 & -> & Hz); [lia|]. rewrite str_length_app in Hl.
  destruct (cut_field 4 p4) as (q & p5 & -> & Hq); [lia|]. rewrite str_length_app in Hl.
  destruct (cut_field 4 p5) as (x & r & -> & Hx); [lia|].
  exists m, v, k, z, q, x, r. done.
Qed.

Lemma unle1_range n s : String.length s = n → 0 ≤ unle s < 256 ^ Z.of_nat n.
Proof. intros <-. apply unle_range. Qed.

(** What [take_frame] accepts is an encoded frame. *)
Lemma take_wire p f :
  header_ok p = true → (16 + header_size p ≤ String.length p)%nat → take_frame i p = Ok f →
  encodable f ∧ p = wire f ++ sdrop (16 + header_size p) p.
Proof.
  intros Hh Hl Ht.
  destruct (header_cut p) as (m & v & k & z & q & x & r & -> & (Hm & Hv & Hk) & Hz & Hq & Hx); [lia|].
  destruct (header_fields m v k z q x r Hm Hv Hk Hz Hq Hx) as ((Em & Ev & Ek & Ez) & Eq & Ex & Er & Eh).
  unfold header_ok in Hh. rewrite Em, Ev, Ez in Hh. bsimp. subst m.
  assert (v = le 1 1) as -> by (apply unle_inj; [done|]; by rewrite unle_le_small by (cbn; lia)).
  unfold take_frame in Ht. unfold header_size in *. rewrite Ez, Ek, Eq, Ex, Er, Eh in Ht. rewrite Ez in *.
  set (size := Z.to_nat (unle z)) in *.
  assert (Hsize : Z.of_nat size = unle z) by (unfold size; lia).
  rewrite !str_length_app in Hl.
  apply rbind_Ok in Ht as ([] & Hc & Ht). apply rbind_Ok in Ht as (e & He & Ht).
  apply rbind_Ok in Ht as ([] & Hs & [= <-]). apply require_Ok in Hc, Hs.
  apply Z.eqb_eq in Hc. apply String.eqb_eq in Hs. apply tag_inv in He as (_ & _ & ->).
  set (pl := stake size r) in *.
  assert (Hpl : String.length pl = size).
  { apply stake_length. cbn [String.length le] in Hl. lia. }
  set (f := Fr (unle k) (unle q) (stake (size - 32) pl)) in *.
  assert (Hpay : payload f = pl).
  { unfold payload. rewrite <- Hs. cbn [f fr_body]. apply stake_sdrop. }
  pose proof (unle1_range 1 k Hk) as Rk. pose proof (unle1_range 4 q Hq) as Rq. cbn in Rk, Rq.
  assert (Hhead : header f = "S328" ++ le 1 1 ++ k ++ z ++ q).
  { unfold header, head. cbn [f fr_kind fr_seq]. rewrite Hpay.
    replace (zlen pl) with (unle z) by (unfold zlen; lia).
    by rewrite (le_unle 1 k), (le_unle 2 z), (le_unle 4 q). }
  split.
  - split_and!; cbn [f fr_kind fr_seq fr_body]; try lia.
    unfold zlen. rewrite stake_length by lia. lia.
  - unfold wire. rewrite Hhead, Hpay, <- Hhead. rewrite Hhead, Hc, (le_unle 4 x) by done.
    rewrite sdrop_plus, Er. rewrite <- !str_app_assoc.
    by rewrite <- (stake_sdrop size r) at 1.
Qed.

(** ** The decoder *)

(** Bytes that wait for more: no complete header, or a good one of an incomplete frame *)
Definition stuck (p : string) : Prop :=
  (String.length p < 16)%nat
  ∨ (header_ok p = true ∧ (String.length p < 16 + header_size p)%nat).

Lemma stuck_nil : stuck "".
Proof. left. cbn. lia. Qed.

(** The header of a stream is in its first sixteen bytes. *)
Lemma header_app p r : (16 ≤ String.length p)%nat →
  header_ok (p ++ r) = header_ok p ∧ header_size (p ++ r) = header_size p.
Proof.
  intros Hl. destruct (header_cut p Hl) as (m & v & k & z & q & x & s & -> & (Hm & Hv & Hk) & Hz & Hq & Hx).
  destruct (header_fields m v k z q x s Hm Hv Hk Hz Hq Hx) as ((Em & Ev & Ek & Ez) & _).
  destruct (header_fields m v k z q x (s ++ r) Hm Hv Hk Hz Hq Hx) as ((Em' & Ev' & Ek' & Ez') & _).
  rewrite <- !str_app_assoc. unfold header_ok, header_size. by rewrite Em, Ev, Ez, Em', Ev', Ez'.
Qed.

Lemma feed_loop_sound fuel p acc fs q :
  (String.length p < fuel)%nat → feed_loop i fuel p acc = (Ok fs, q) →
  ∃ fs', fs = (acc ++ fs')%list ∧ Forall encodable fs' ∧ p = wires fs' ++ q ∧ stuck q.
Proof.
  revert p acc. induction fuel as [|fuel IH]; intros p acc Hl; [lia|]. cbn [feed_loop].
  destruct (String.length p <? 16)%nat eqn:E1.
  { intros [= <- <-]. apply Nat.ltb_lt in E1. exists []. rewrite app_nil_r. by repeat split; [|left]. }
  apply Nat.ltb_ge in E1. destruct (header_ok p) eqn:Eh; [|done]. cbn [negb].
  destruct (String.length p <? 16 + header_size p)%nat eqn:E2.
  { intros [= <- <-]. apply Nat.ltb_lt in E2. exists []. rewrite app_nil_r. by repeat split; [|right]. }
  apply Nat.ltb_ge in E2. destruct (take_frame i p) as [f|e] eqn:Et; [|done].
  destruct (take_wire p f Eh E2 Et) as [Hf Hp]. intros Hr.
  apply IH in Hr as (fs' & -> & Hall & Hrest & Hq); [|rewrite sdrop_length; lia].
  exists (f :: fs'). rewrite <- app_assoc. split_and!; [done|by constructor| |done].
  cbn [wires]. rewrite <- str_app_assoc, <- Hrest. exact Hp.
Qed.

Lemma feed_loop_complete fuel fs q acc :
  Forall encodable fs → stuck q → (String.length (wires fs ++ q) < fuel)%nat →
  feed_loop i fuel (wires fs ++ q) acc = (Ok (acc ++ fs)%list, q).
Proof.
  intros Hall Hq. revert fuel acc. induction Hall as [|f fs Hf _ IH]; intros fuel acc Hl.
  - destruct fuel as [|fuel]; [lia|]. cbn [wires feed_loop]. rewrite app_nil_r.
    change ("" ++ q) with q in *. destruct Hq as [Hs|[Hh Hs]].
    + by apply Nat.ltb_lt in Hs as ->.
    + destruct (String.length q <? 16)%nat; [done|]. rewrite Hh. cbn [negb]. by apply Nat.ltb_lt in Hs as ->.
  - destruct fuel as [|fuel]; [lia|]. cbn [wires] in *. rewrite <- str_app_assoc in *.
    cbn [feed_loop]. pose proof (front_long f (wires fs ++ q) Hf) as Hlong.
    assert (E1 : (String.length (wire f ++ wires fs ++ q) <? 16)%nat = false) by (apply Nat.ltb_ge; lia).
    assert (E2 : (String.length (wire f ++ wires fs ++ q)
                  <? 16 + header_size (wire f ++ wires fs ++ q))%nat = false) by (apply Nat.ltb_ge; lia).
    rewrite E1, (front_header f _ Hf), E2. cbn [negb].
    rewrite (front_take f _ Hf), (front_drop f _ Hf).
    rewrite str_length_app, wire_length in Hl.
    rewrite (IH fuel (acc ++ [f])%list) by lia. by rewrite <- app_assoc.
Qed.

(** [feed] splits its input into whole frames and bytes that wait. *)
Lemma feed_exact pending data fs q :
  feed i pending data = (Ok fs, q)
  ↔ pending ++ data = wires fs ++ q ∧ Forall encodable fs ∧ stuck q.
Proof.
  unfold feed. split.
  - intros Hf. apply feed_loop_sound in Hf as (fs' & -> & Hall & Hp & Hq); [done|lia].
  - intros (Hp & Hall & Hq). rewrite Hp. by rewrite feed_loop_complete by (try done; lia).
Qed.

Lemma wires_app a b : wires (a ++ b) = wires a ++ wires b.
Proof. induction a as [|f a IH]; [done|]. cbn [app wires]. by rewrite IH, str_app_assoc. Qed.

(** A cut anywhere in a stream of frames leaves frames and waiting bytes. *)
Lemma stream_cut a b fs q :
  a ++ b = wires fs ++ q → Forall encodable fs → stuck q →
  ∃ fs1 fs2 q1, fs = (fs1 ++ fs2)%list ∧ a = wires fs1 ++ q1 ∧ stuck q1 ∧ q1 ++ b = wires fs2 ++ q.
Proof.
  intros He Hall Hq. revert a He. induction Hall as [|f fs Hf _ IH]; intros a He.
  - exists [], [], a. split_and!; try done. cbn [wires] in He. change ("" ++ q) with q in He. subst q.
    destruct (decide (String.length a < 16)%nat) as [Hl|Hl]; [by left|right].
    destruct (header_app a b) as [Eh Es]; [lia|].
    destruct Hq as [Hs|[Hh Hs]]; rewrite str_length_app in Hs; [lia|].
    rewrite Eh in Hh. rewrite Es in Hs. split; [done|lia].
  - cbn [wires] in He. rewrite <- str_app_assoc in He.
    destruct (decide (String.length a < String.length (wire f))%nat) as [Hl|Hl].
    + exists [], (f :: fs), a. split_and!; try done; [|cbn [wires]; by rewrite <- str_app_assoc].
      destruct (decide (String.length a < 16)%nat) as [Hl'|Hl']; [by left|right].
      destruct (app_cut a b (wire f) (wires fs ++ q)) as (m & Hw & _); [lia|done|].
      destruct (header_app a m) as [Eh Es]; [lia|]. rewrite <- Hw in Eh, Es.
      rewrite <- Eh, <- Es. pose proof (front_header f "" Hf) as H1.
      pose proof (front_header_size f "" Hf) as H2. rewrite str_app_nil in H1, H2.
      rewrite H1, H2, <- wire_length. done.
    + destruct (app_cut (wire f) (wires fs ++ q) a b) as (m & -> & Hm); [lia|done|].
      destruct (IH m (eq_sym Hm)) as (fs1 & fs2 & q1 & -> & -> & Hq1 & Hr).
      exists (f :: fs1), fs2, q1. split_and!; [done|cbn [wires]; by rewrite <- str_app_assoc|done|done].
Qed.

(** Feeding a stream in pieces *)
Definition feed_step (d : list wframe * string) (data : string) : result (list wframe * string) :=
  let r := feed i d.2 data in let* fs := r.1 in Ok (d.1 ++ fs, r.2)%list.
Definition feeds (pieces : list string) : result (list wframe * string) := foldM feed_step ([], "") pieces.

Fixpoint stream_bytes (pieces : list string) : string :=
  match pieces with [] => "" | p :: ps => p ++ stream_bytes ps end.

Lemma feeds_sound pieces acc p fs q :
  foldM feed_step (acc, p) pieces = Ok (fs, q) → stuck p →
  ∃ fs', fs = (acc ++ fs')%list ∧ p ++ stream_bytes pieces = wires fs' ++ q ∧ Forall encodable fs' ∧ stuck q.
Proof.
  revert acc p. induction pieces as [|d ps IH]; intros acc p; cbn [foldM stream_bytes].
  - intros [= -> ->] Hp. exists []. by rewrite app_nil_r, str_app_nil.
  - intros Hr Hp. unfold feed_step at 1 in Hr. cbn [fst snd] in Hr.
    destruct (feed i p d) as [[fs1|e] p1] eqn:Ef; [|done]. cbn [fst snd rbind] in Hr.
    apply feed_exact in Ef as (He & Hall & Hp1). apply IH in Hr as (fs2 & -> & He2 & Hall2 & Hq); [|done].
    exists (fs1 ++ fs2)%list. rewrite app_assoc, wires_app. split_and!; [done| |by apply Forall_app|done].
    by rewrite <- (str_app_assoc (wires fs1)), <- He2, !str_app_assoc, He.
Qed.

Lemma feeds_complete pieces acc p fs q :
  p ++ stream_bytes pieces = wires fs ++ q → Forall encodable fs → stuck q →
  foldM feed_step (acc, p) pieces = Ok (acc ++ fs, q)%list ∨ (pieces = [] ∧ fs ≠ []).
Proof.
  revert acc p fs. induction pieces as [|d ps IH]; intros acc p fs He Hall Hq; cbn [foldM stream_bytes] in *.
  - destruct fs as [|f fs]; [|by right]. left. rewrite str_app_nil in He. by rewrite He, app_nil_r.
  - left. rewrite str_app_assoc in He.
    destruct (stream_cut _ _ _ _ He Hall Hq) as (fs1 & fs2 & q1 & -> & He1 & Hq1 & He2).
    apply Forall_app in Hall as [Hall1 Hall2].
    assert (Ef : feed i p d = (Ok fs1, q1)) by (by apply feed_exact).
    unfold feed_step at 1. cbn [fst snd]. rewrite Ef. cbn [fst snd rbind].
    destruct (IH (acc ++ fs1)%list q1 fs2 He2 Hall2 Hq) as [->|[-> Hne]]; [by rewrite app_assoc|].
    exfalso. cbn [stream_bytes] in He2. rewrite str_app_nil in He2. subst q1.
    destruct fs2 as [|f fs2]; [done|]. apply Forall_cons in Hall2 as [Hf _].
    cbn [wires] in Hq1. rewrite <- str_app_assoc in Hq1.
    pose proof (front_long f (wires fs2 ++ q) Hf). destruct Hq1 as [?|[_ ?]]; lia.
Qed.

(** ** Corruption *)

(** A whole frame that is refused *)
Lemma feed_refused p e :
  header_ok p = true → (16 + header_size p ≤ String.length p)%nat → take_frame i p = Err e →
  feed i "" p = (Err e, sdrop (16 + header_size p) p).
Proof.
  intros Hok Hl Ht. unfold feed. change ("" ++ p) with p. cbn [feed_loop].
  rewrite (proj2 (Nat.ltb_ge (String.length p) 16)) by lia. rewrite Hok. cbn [negb].
  by rewrite (proj2 (Nat.ltb_ge (String.length p) (16 + header_size p))), Ht by lia.
Qed.

(** The frame with other bytes in its payload *)
Lemma corrupted_refused f a w w' b rest :
  encodable f → payload f = a ++ w ++ b →
  String.length w' = String.length w → (String.length w ≤ 4)%nat → w' ≠ w →
  feed i "" ((header f ++ le 4 (Z.of_N (crc32 (header f ++ payload f))) ++ a ++ w' ++ b) ++ rest)
  = (Err (ProtocolError "frame CRC mismatch"), rest).
Proof.
  intros Hf Hp Hl H4 Hne.
  assert (Hxl : String.length (le 4 (Z.of_N (crc32 (header f ++ payload f)))) = 4%nat) by apply le_length.
  assert (Hxv : unle (le 4 (Z.of_N (crc32 (header f ++ payload f)))) = Z.of_N (crc32 (header f ++ payload f))).
  { apply unle_le_small. assert (Hc : word32 (crc32 (header f ++ payload f))) by (apply lxor_word; [by apply crc_run_word|done]).
    unfold word32 in Hc. change (256 ^ Z.of_nat 4) with 4294967296. lia. }
  set (x := le 4 (Z.of_N (crc32 (header f ++ payload f)))) in *. clearbody x.
  set (pl := a ++ w' ++ b). assert (Hpl : String.length pl = String.length (payload f)).
  { unfold pl. rewrite Hp, !str_length_app. lia. }
  assert (Hz : zlen pl = zlen (payload f)) by (unfold zlen; by rewrite Hpl).
  set (p := (header f ++ x ++ pl) ++ rest).
  destruct (header_fields "S328" (le 1 1) (le 1 (fr_kind f)) (le 2 (zlen (payload f))) (le 4 (fr_seq f)) x (pl ++ rest))
    as ((Em & Ev & _ & Ez) & _ & Ex & Er & Eh); try apply le_length; [done|done|].
  assert (Ep : "S328" ++ le 1 1 ++ le 1 (fr_kind f) ++ le 2 (zlen (payload f)) ++ le 4 (fr_seq f) ++ x ++ pl ++ rest = p).
  { unfold p, header, head. by rewrite <- !str_app_assoc. }
  rewrite Ep in *. pose proof (payload_small f Hf) as Hsm. unfold MAX_PAYLOAD in Hsm.
  assert (Hsize : unle (stake 2 (sdrop 6 p)) = zlen (payload f)) by (rewrite Ez; apply unle_le_small; cbn; lia).
  assert (Hhs : header_size p = String.length pl) by (unfold header_size; rewrite Hsize, <- Hz; unfold zlen; lia).
  assert (Hok : header_ok p = true).
  { unfold header_ok. rewrite Em, Ev, Hsize, String.eqb_refl. change (unle (le 1 1) =? 1) with true. cbn [andb].
    unfold MAX_PAYLOAD. apply andb_true_iff. split; apply Z.leb_le; lia. }
  assert (Htake : take_frame i p = Err (ProtocolError "frame CRC mismatch")).
  { unfold take_frame. rewrite Hhs, Er, Ex, Eh, stake_app by done.
    change ("S328" ++ le 1 1 ++ le 1 (fr_kind f) ++ le 2 (zlen (payload f)) ++ le 4 (fr_seq f)) with (header f).
    unfold perr, Prelude.require. replace (_ =? unle x) with false; [done|]. symmetry. apply Z.eqb_neq.
    rewrite Hxv. intros Hc. apply N2Z.inj in Hc. rewrite Hp in Hc. unfold pl in Hc. rewrite !str_app_assoc in Hc.
    rewrite <- !(str_app_assoc _ _ b) in Hc. revert Hc. apply crc32_burst; [done|lia|done]. }
  assert (Hlen : String.length p = (16 + String.length pl + String.length rest)%nat).
  { unfold p. rewrite !str_length_app, Hxl. change (String.length (header f)) with 12%nat. lia. }
  rewrite (feed_refused p _ Hok) by (try exact Htake; lia). f_equal. rewrite sdrop_plus, Er. by apply sdrop_app.
Qed.
End Frames.
