(* ===== verification/ConsoleLife.v ===== *)
(** * The lifecycle of console requests

    The abstract machine of a session ([machine]): a command is accepted,
    rejected or fails before it starts; an accepted one produces numbered output
    and one terminal; every request is answered once.  [validate] refines it, and
    the invariant [wf] of the machine bounds what one command can send. *)

From stdpp Require Import base list strings gmap.
From Stdlib Require Import ZArith NArith Lia Ascii.
From S2P Require Import Prelude PyStr Json Digest Bytes Console ConsoleSession.
Open Scope string_scope.
Open Scope Z_scope.

(** ** The abstract machine *)

Inductive machine (s : st) : wframe → st → Prop :=
  | m_ready body fields :
      st_ready s = None →
      machine s (Fr READY 2 body) (set_ready s fields)
  | m_output seq body :
      st_requests s !! seq = Some EXEC → seq ∈ st_accepted s → seq ∉ st_terminals s →
      13 ≤ zlen body →
      (output_of s seq).1 + 1 ≤ OUTPUT_FRAME_LIMIT →
      (output_of s seq).2 + (zlen body - 12) ≤ OUTPUT_LIMIT →
      machine s (Fr OUTPUT seq body)
        (set_output s seq ((output_of s seq).1 + 1) ((output_of s seq).2 + (zlen body - 12)))
  | m_exit seq body :
      st_requests s !! seq = Some EXEC → seq ∈ st_accepted s → seq ∉ st_terminals s →
      zlen body = 28 →
      machine s (Fr EXIT seq body) (add_terminal s seq)
  | m_failed seq body :
      st_requests s !! seq = Some EXEC → seq ∉ st_accepted s → seq ∉ st_terminals s →
      seq ∉ st_rejected s → seq ∉ st_responses s → zlen body = 28 →
      machine s (Fr EXIT seq body) (add_terminal (answer s seq) seq)
  | m_accept seq body :
      st_requests s !! seq = Some EXEC → seq ∉ st_responses s → running s = false →
      zlen body = 32 →
      machine s (Fr ACK seq body) (answer (add_accepted s seq) seq)
  | m_reject seq body :
      st_requests s !! seq = Some EXEC → seq ∉ st_responses s → zlen body = 32 →
      machine s (Fr ACK seq body) (answer (add_rejected s seq) seq)
  | m_answer kind seq request body :
      st_requests s !! seq = Some request → request ≠ EXEC → seq ∉ st_responses s → kind ≠ READY →
      machine s (Fr kind seq body) (answer s seq)
  | m_finish kind seq request body :
      st_requests s !! seq = Some request → request ≠ EXEC → seq ∉ st_responses s →
      kind ≠ READY → running s = false →
      machine s (Fr kind seq body) (answer (set_finished s) seq)
  | m_fault seq request body :
      st_requests s !! seq = Some request → st_faulted s = false → zlen body = 8 →
      machine s (Fr FAULT seq body) (set_faulted s).

(** States that differ at most in the pending request and the last terminal *)
Record same (s t : st) : Prop := {
  same_requests : st_requests s = st_requests t;
  same_bodies : st_bodies s = st_bodies t;
  same_responses : st_responses s = st_responses t;
  same_accepted : st_accepted s = st_accepted t;
  same_rejected : st_rejected s = st_rejected t;
  same_outputs : st_outputs s = st_outputs t;
  same_terminals : st_terminals s = st_terminals t;
  same_control : st_control s = st_control t;
  same_faulted : st_faulted s = st_faulted t;
  same_finished : st_finished s = st_finished t;
  same_ready : st_ready s = st_ready t
}.
Lemma same_refl s : same s s.
Proof. by split. Qed.

(** What one response does: a step of the machine of an unfinished session, after READY *)
Definition moved (s : st) (f : wframe) (s' : st) : Prop :=
  st_finished s = false ∧ (fr_kind f = READY ∨ is_Some (st_ready s) ∨ ∃ n, n ∈ st_responses s)
  ∧ ∃ t, machine s f t ∧ same s' t.

(** ** [validate] refines the machine *)

Lemma zlen_eqb b n : (zlen b =? n) = true → zlen b = n.
Proof. apply Z.eqb_eq. Qed.

Ltac checks :=
  repeat match goal with
  | H : rbind (perr _ _) _ = Ok _ |- _ =>
      let u := fresh "u" in let Hu := fresh "Hc" in
      apply rbind_Ok in H as (u & Hu & H); apply require_Ok in Hu; clear u
  | H : rbind (if ?b then _ else _) _ = Ok _ |- _ => let E := fresh "E" in destruct b eqn:E
  | H : rbind _ _ = Ok _ |- _ =>
      let x := fresh "x" in let Hx := fresh "Hx" in apply rbind_Ok in H as (x & Hx & H)
  | H : Ok _ = Ok _ |- _ => injection H as H; subst
  | H : (_, _) = (_, _) |- _ => injection H as H; subst
  | H : Err _ = Ok _ |- _ => discriminate H
  end; bsimp.

Lemma output_machine s request seq body s' r :
  st_requests s !! seq = Some request → on_output s request seq body = Ok (s', r) →
  machine s (Fr OUTPUT seq body) s'.
Proof.
  intros Hreq. unfold on_output. intros Ho. apply rbind_Ok in Ho as ([] & Hc & Ho). apply require_Ok in Hc.
  destruct (words32 3 (stake 12 body)) as [|identity [|ordinal [|stream [|? ?]]]]; try done.
  checks. subst. by apply m_output.
Qed.

Lemma exit_machine s request seq body s' r :
  st_requests s !! seq = Some request → on_exit s request seq body = Ok (s', r) →
  machine s (Fr EXIT seq body) s'.
Proof.
  intros Hreq. unfold on_exit. intros Ho. apply rbind_Ok in Ho as ([] & Hc & Ho). apply require_Ok in Hc.
  destruct (words32 7 body) as [|? [|flags [|status [|error [|total [|dropped [|ordinal [|? ?]]]]]]]]; try done.
  checks; bsimp; subst request; [by apply m_exit|by apply m_failed].
Qed.

Lemma fault_machine s request seq body s' r :
  st_requests s !! seq = Some request → on_fault s seq body = Ok (s', r) →
  machine s (Fr FAULT seq body) s'.
Proof. intros Hreq. unfold on_fault. intros Ho. checks. by eapply m_fault. Qed.

Lemma disposition_machine s request seq identity d active blocked flags total dropped last s1 :
  disposition_step s request seq identity d active blocked flags total dropped last = Ok s1 →
  request = EXEC ∧ (s1 = add_accepted s seq ∧ running s = false ∨ s1 = add_rejected s seq)
  ∨ request ≠ EXEC ∧ s1 = s.
Proof.
  unfold disposition_step. intros Hd. destruct (request =? EXEC) eqn:E1.
  - apply Z.eqb_eq in E1. left. split; [done|].
    destruct (d =? 0); [checks; by left|]. destruct (d =? 1); [checks; by right|done].
  - apply Z.eqb_neq in E1. right. split; [done|]. destruct (request =? CANCEL).
    + destruct (st_bodies s !! seq); [|done]. cbv zeta in Hd.
      destruct (d =? 0); [by checks|]. destruct (d =? 1); [by checks|]. destruct (d =? 2); by checks.
    + by checks.
Qed.

Lemma expected_ack_kind request kind : expected_ack request = Ok kind → request = EXEC → kind = ACK.
Proof. intros He ->. unfold expected_ack in He. cbn in He. by injection He. Qed.

Lemma expected_ack_not_ready request kind : expected_ack request = Ok kind → kind ≠ READY.
Proof.
  unfold expected_ack. destruct (request =? EXEC); [by intros [= <-]|].
  destruct (request =? CANCEL); [by intros [= <-]|]. destruct (request =? STATUS); [by intros [= <-]|].
  destruct (request =? CONTROL); [by intros [= <-]|done].
Qed.

Lemma ack_machine s request kind seq body s' r :
  st_requests s !! seq = Some request → on_ack s request kind seq body = Ok (s', r) →
  machine s (Fr kind seq body) s'.
Proof.
  intros Hreq. unfold on_ack. intros Ho. apply rbind_Ok in Ho as (expected & Hexp & Ho).
  apply rbind_Ok in Ho as ([] & Hc & Ho). apply require_Ok in Hc. bsimp. subst kind.
  apply rbind_Ok in Ho as ([] & Hn & Ho). apply require_Ok in Hn. bsimp.
  destruct (words32 8 body) as [|identity [|d [|active [|blocked [|flags [|total [|dropped [|last [|? ?]]]]]]]]];
    try done.
  apply rbind_Ok in Ho as ([] & _ & Ho). apply rbind_Ok in Ho as (s1 & Hd & Ho).
  apply rbind_Ok in Ho as ([] & Hrun & Ho). apply require_Ok, negb_true_iff in Hrun.
  injection Ho as <- <-.
  apply disposition_machine in Hd as [[-> Hcase]|[Hne ->]].
  - pose proof (expected_ack_kind _ _ Hexp eq_refl) as ->. change (EXEC =? CONTROL) with false in *.
    destruct Hcase as [[-> Hr]| ->]; [by apply m_accept|by apply m_reject].
  - pose proof (expected_ack_not_ready _ _ Hexp) as Hk. destruct (request =? CONTROL); [|by eapply m_answer].
    eapply m_finish; [done..|]. exact Hrun.
Qed.

Lemma ready_machine s seq body s' r :
  on_ready s seq body = Ok (s', r) → machine s (Fr READY seq body) s'.
Proof.
  unfold on_ready. intros Ho. checks. bsimp. subst seq. apply m_ready. by destruct (st_ready s).
Qed.

Lemma validate_exact s f s' r :
  validate s f = Ok (s', r) →
  st_finished s = false ∧ (fr_kind f = READY ∨ is_Some (st_ready s)) ∧ machine s f s'.
Proof.
  unfold validate. destruct f as [kind seq body]. cbn [fr_kind fr_seq fr_body]. intros Hv.
  apply rbind_Ok in Hv as ([] & Hf & Hv). apply require_Ok, negb_true_iff in Hf. split; [done|].
  destruct (kind =? READY) eqn:Ek.
  { apply Z.eqb_eq in Ek as ->. split; [by left|]. by eapply ready_machine. }
  apply rbind_Ok in Hv as ([] & Hr & Hv). apply require_Ok in Hr.
  split; [right; destruct (st_ready s); [by eexists|done]|].
  destruct (st_requests s !! seq) as [request|] eqn:Hreq; [|done].
  destruct (kind =? OUTPUT) eqn:E1; [apply Z.eqb_eq in E1 as ->; by eapply output_machine|].
  destruct (kind =? EXIT) eqn:E2; [apply Z.eqb_eq in E2 as ->; by eapply exit_machine|].
  destruct (in_kinds kind [ACK; STATUS_REPLY; CONTROL_ACK]); [by eapply ack_machine|].
  destruct (kind =? FAULT) eqn:E3; [apply Z.eqb_eq in E3 as ->; by eapply fault_machine|done].
Qed.

Lemma validate_machine s f s' r : validate s f = Ok (s', r) → moved s f s'.
Proof. intros (Hf & Hr & Hm)%validate_exact. split_and!; [done|by destruct Hr; auto|]. exists s'. split; [done|apply same_refl]. Qed.

(** The pending request stays until it is answered. *)
Definition settled (s s' : st) : Prop :=
  st_pending s' = st_pending s
  ∨ st_pending s' = None ∧ ∀ n, st_pending s = Some n → n ∈ st_responses s'.

Lemma answer_settled s t n :
  st_pending t = (if decide (st_pending s = Some n) then None else st_pending s) → n ∈ st_responses t →
  settled s t.
Proof.
  unfold settled. intros -> Hn. destruct (decide (st_pending s = Some n)) as [->|Hne]; [right|by left].
  split; [done|]. by intros m [= <-].
Qed.
Lemma validate_settled s f s' r : validate s f = Ok (s', r) → settled s s'.
Proof. intros (_ & _ & Hm)%validate_exact. destruct Hm; try (by left); apply (answer_settled s _ seq); cbn; set_solver. Qed.

(** ** Knowing more requests

    [grows s t]: [t] knows at least the requests of [s], and exactly them once the
    control request of [s] was sent; the responses seen are the same.  A response
    that [s] accepts, [t] accepts too: this is what makes a replay, which knows all
    the requests in advance, agree with the live session. *)

Record grows (s t : st) : Prop := {
  gr_requests : st_requests s ⊆ st_requests t;
  gr_bodies : st_bodies s ⊆ st_bodies t;
  gr_control : ∀ n, st_control s = Some n →
    st_control t = Some n ∧ st_requests t = st_requests s ∧ st_bodies t = st_bodies s;
  gr_responses : st_responses t = st_responses s;
  gr_accepted : st_accepted t = st_accepted s;
  gr_rejected : st_rejected t = st_rejected s;
  gr_outputs : st_outputs t = st_outputs s;
  gr_terminals : st_terminals t = st_terminals s;
  gr_faulted : st_faulted t = st_faulted s;
  gr_finished : st_finished t = st_finished s;
  gr_ready : st_ready t = st_ready s;
  gr_last : st_last t = st_last s
}.

Section Grows.
Variables s t : st.
Hypothesis Hg : grows s t.

Lemma grows_output n : output_of t n = output_of s n.
Proof. unfold output_of. by rewrite (gr_outputs _ _ Hg). Qed.
Lemma grows_running : running t = running s.
Proof. unfold running. by rewrite (gr_accepted _ _ Hg), (gr_terminals _ _ Hg). Qed.
Lemma grows_request n q : st_requests s !! n = Some q → st_requests t !! n = Some q.
Proof. intros Hn. eapply lookup_weaken; [done|]. by apply (gr_requests _ _ Hg). Qed.

(** Changes of the response side alone keep the relation. *)
Ltac side := destruct Hg; split; cbn; try done; congruence.

Lemma grows_answer n : grows (answer s n) (answer t n).
Proof. side. Qed.
Lemma grows_terminal n : grows (add_terminal s n) (add_terminal t n).
Proof. side. Qed.
Lemma grows_accepted n : grows (add_accepted s n) (add_accepted t n).
Proof. side. Qed.
Lemma grows_rejected n : grows (add_rejected s n) (add_rejected t n).
Proof. side. Qed.
Lemma grows_finished : grows (set_finished s) (set_finished t).
Proof. side. Qed.
Lemma grows_set_output n o k : grows (set_output s n o k) (set_output t n o k).
Proof. side. Qed.
Lemma grows_set_ready l : grows (set_ready s l) (set_ready t l).
Proof. side. Qed.
Lemma grows_set_faulted : grows (set_faulted s) (set_faulted t).
Proof. side. Qed.

(** The conclusion of the lemmas below *)
Definition follows {R} (m : result (st * R)) (s' : st) (r : R) : Prop :=
  ∃ t', m = Ok (t', r) ∧ grows s' t'.

Lemma ready_grows seq body s' r : on_ready s seq body = Ok (s', r) → follows (on_ready t seq body) s' r.
Proof.
  unfold on_ready, follows. rewrite (gr_ready _ _ Hg). intros Ho.
  rgo Ho as [] E1. rgo Ho as [] E2. injection Ho as <- <-. eexists. split; [done|apply grows_set_ready].
Qed.

Lemma output_grows request seq body s' r :
  on_output s request seq body = Ok (s', r) → follows (on_output t request seq body) s' r.
Proof.
  unfold on_output, follows. rewrite (gr_terminals _ _ Hg), (gr_accepted _ _ Hg), grows_output. intros Ho.
  rgo Ho as [] E1. destruct (words32 3 (stake 12 body)) as [|a [|b [|d [|? ?]]]]; try done.
  rgo Ho as [] E2. rgo Ho as [] E3. rgo Ho as [] E4. injection Ho as <- <-.
  eexists. split; [done|apply grows_set_output].
Qed.

Lemma fault_grows seq body s' r : on_fault s seq body = Ok (s', r) → follows (on_fault t seq body) s' r.
Proof.
  unfold on_fault, follows. rewrite (gr_faulted _ _ Hg). intros Ho.
  rgo Ho as [] E1. injection Ho as <- <-. eexists. split; [done|apply grows_set_faulted].
Qed.

Lemma flags_grows flags status error dropped u :
  exit_flags_ok (st_control s) flags status error dropped = Ok u →
  exit_flags_ok (st_control t) flags status error dropped = Ok u.
Proof.
  unfold exit_flags_ok. intros Ho. rgo Ho as [] E1. rgo Ho as [] E2. rgo Ho as [] E3. rgo Ho as [] E4.
  apply require_Ok in Ho. apply require_Ok. apply orb_true_iff in Ho as [->|Ho]; [done|].
  destruct (st_control s) as [n|] eqn:Ec; [|done].
  destruct (gr_control _ _ Hg n Ec) as [-> _]. by rewrite Ho, orb_true_r.
Qed.

Lemma exit_grows request seq body s' r :
  on_exit s request seq body = Ok (s', r) → follows (on_exit t request seq body) s' r.
Proof.
  unfold on_exit, follows.
  rewrite (gr_terminals _ _ Hg), (gr_rejected _ _ Hg), grows_output, (gr_accepted _ _ Hg), (gr_responses _ _ Hg).
  intros Ho. rgo Ho as [] E1.
  destruct (words32 7 body) as [|a [|flags [|status [|error [|total [|dropped [|ordinal [|? ?]]]]]]]]; try done.
  rgo Ho as [] E2. apply rbind_Ok in Ho as ([] & E3 & Ho). rewrite (flags_grows _ _ _ _ _ E3). cbn [rbind].
  destruct (bool_decide (seq ∈ st_accepted s)); cbn [rbind] in *.
  - injection Ho as <- <-. eexists. split; [done|apply grows_terminal].
  - apply rbind_Ok in Ho as (s1 & E4 & Ho). rgo E4 as [] E5. rgo E4 as [] E6. injection E4 as <-.
    injection Ho as <- <-. eexists. split; [done|]. split; cbn; try apply Hg; by rewrite ?(gr_responses _ _ Hg), ?(gr_terminals _ _ Hg).
Qed.

Lemma supervisor_grows request seq identity active blocked flags total last u :
  supervisor_ok s request seq identity active blocked flags total last = Ok u →
  supervisor_ok t request seq identity active blocked flags total last = Ok u.
Proof.
  unfold supervisor_ok. rewrite (gr_terminals _ _ Hg), (gr_accepted _ _ Hg). intros Ho.
  rgo Ho as [] E1. apply rbind_Ok in Ho as ([] & E2 & Ho).
  assert (E2' : (identity =? 0) || bool_decide (st_requests t !! identity = Some EXEC) = true).
  { apply require_Ok, orb_true_iff in E2 as [->|E2]; [done|].
    apply bool_decide_eq_true, grows_request in E2. by rewrite bool_decide_eq_true_2, orb_true_r. }
  rewrite E2'. cbn [perr Prelude.require rbind]. exact Ho.
Qed.

Lemma disposition_grows request seq identity d active blocked flags total dropped last s1 :
  disposition_step s request seq identity d active blocked flags total dropped last = Ok s1 →
  ∃ t1, disposition_step t request seq identity d active blocked flags total dropped last = Ok t1 ∧ grows s1 t1.
Proof.
  unfold disposition_step. rewrite grows_running, (gr_terminals _ _ Hg). intros Ho.
  destruct (request =? EXEC).
  - destruct (d =? 0); [|destruct (d =? 1); [|done]].
    + rgo Ho as [] E1. rgo Ho as [] E2. injection Ho as <-. eexists. split; [done|apply grows_accepted].
    + rgo Ho as [] E1. injection Ho as <-. eexists. split; [done|apply grows_rejected].
  - destruct (request =? CANCEL).
    + destruct (st_bodies s !! seq) as [b|] eqn:Eb; [|done].
      rewrite (lookup_weaken _ _ _ _ Eb (gr_bodies _ _ Hg)). cbv zeta in *.
      destruct (d =? 0); [|destruct (d =? 1); [|destruct (d =? 2); [|done]]];
        rgo Ho as [] E1; injection Ho as <-; by eexists.
    + rgo Ho as [] E1. injection Ho as <-. by eexists.
Qed.

End Grows.

Lemma ack_grows s t request kind seq body s' r :
  grows s t → on_ack s request kind seq body = Ok (s', r) → follows (on_ack t request kind seq body) s' r.
Proof.
  intros Hg. unfold on_ack, follows. rewrite (gr_responses _ _ Hg). intros Ho.
  rgo Ho as expected E1. rgo Ho as [] E2. rgo Ho as [] E3.
  destruct (words32 8 body) as [|identity [|d [|active [|blocked [|flags [|total [|dropped [|last [|? ?]]]]]]]]];
    try done.
  apply rbind_Ok in Ho as ([] & E4 & Ho). rewrite (supervisor_grows _ _ Hg _ _ _ _ _ _ _ _ _ E4). cbn [rbind].
  apply rbind_Ok in Ho as (s1 & E5 & Ho).
  destruct (disposition_grows _ _ Hg _ _ _ _ _ _ _ _ _ _ _ E5) as (t1 & -> & Hg1). cbn [rbind].
  rewrite (grows_running _ _ Hg1). rgo Ho as [] E6. injection Ho as <- <-. eexists. split; [done|].
  apply grows_answer. destruct (request =? CONTROL); [by apply grows_finished|done].
Qed.

Lemma validate_grows s t f s' r :
  grows s t → validate s f = Ok (s', r) → follows (validate t f) s' r.
Proof.
  intros Hg. unfold validate. rewrite (gr_finished _ _ Hg), (gr_ready _ _ Hg). intros Ho.
  apply rbind_Ok in Ho as ([] & E1 & Ho). rewrite E1. cbn [rbind].
  destruct (fr_kind f =? READY); [by eapply ready_grows|].
  apply rbind_Ok in Ho as ([] & E2 & Ho). rewrite E2. cbn [rbind].
  destruct (st_requests s !! fr_seq f) as [request|] eqn:Er; [|done].
  rewrite (grows_request _ _ Hg _ _ Er).
  destruct (fr_kind f =? OUTPUT); [by eapply output_grows|].
  destruct (fr_kind f =? EXIT); [by eapply exit_grows|].
  destruct (in_kinds _ _); [by eapply ack_grows|].
  destruct (fr_kind f =? FAULT); [by eapply fault_grows|done].
Qed.

(** ** Histories *)

(** The request that ends the session is the one the state names. *)
Definition joined (c : session_class) (s : st) : Prop :=
  ∀ n k, st_requests s !! n = Some k → sc_terminal_request c k = true → st_control s = Some n.

(** What a session class promises: its responses are steps of the machine, accepted
    whatever other requests are known, and its requests have kinds of one byte. *)
Class SessionLaws (c : session_class) := {
  sl_moved : ∀ s f s' r, sc_validate c s f = Ok (s', r) → moved s f s';
  sl_settled : ∀ s f s' r, sc_validate c s f = Ok (s', r) → settled s s';
  sl_grows : ∀ s t f s' r, joined c s → grows s t → sc_validate c s f = Ok (s', r) →
    follows (sc_validate c t f) s' r;
  sl_kind : ∀ kind body, sc_validate_request c kind body = Ok tt → 0 ≤ kind < 256
}.

Lemma in_kinds_elem kind l : in_kinds kind l = true → kind ∈ l.
Proof. unfold in_kinds. intros (x & Hx & ->%Z.eqb_eq)%existsb_exists. by apply list_elem_of_In. Qed.

Lemma request_kind kind body : validate_request kind body = Ok tt → kind ∈ [EXEC; STATUS; CANCEL; CONTROL].
Proof. unfold validate_request. intros ([] & Hk & _)%rbind_Ok. by apply require_Ok, in_kinds_elem in Hk. Qed.

#[export] Instance root_laws : SessionLaws root_class.
Proof.
  split.
  - intros s f s' r. apply validate_machine.
  - intros s f s' r. apply validate_settled.
  - intros s t f s' r _. apply validate_grows.
  - intros kind body Hk%request_kind. set_unfold in Hk. unfold EXEC, STATUS, CANCEL, CONTROL in Hk. lia.
Qed.

(** What happened to a session so far: requests sent and responses accepted *)
Inductive event := Req (f : wframe) | Resp (f : wframe).

Definition reqs (evs : list event) : list wframe :=
  omap (λ e, match e with Req f => Some f | Resp _ => None end) evs.
Definition resps (evs : list event) : list wframe :=
  omap (λ e, match e with Resp f => Some f | Req _ => None end) evs.

Lemma reqs_app a b : reqs (a ++ b) = (reqs a ++ reqs b)%list.
Proof. apply omap_app. Qed.
Lemma resps_app a b : resps (a ++ b) = (resps a ++ resps b)%list.
Proof. apply omap_app. Qed.

Lemma reqs_resp evs f : reqs (evs ++ [Resp f]) = reqs evs.
Proof. rewrite reqs_app. cbn. apply app_nil_r. Qed.
Lemma resps_req evs f : resps (evs ++ [Req f]) = resps evs.
Proof. rewrite resps_app. cbn. apply app_nil_r. Qed.

Section Life.
Variable c : session_class.
Variable live : bool.
Notation note s f := (note_request c live s (fr_kind f) (fr_seq f) (fr_body f)).

Inductive history : list event → st → Prop :=
  | h_init : history [] st0
  | h_request evs s f :
      history evs s → fr_seq f = 3 + Z.of_nat (length (reqs evs)) → st_control s = None →
      fr_kind f = CONTROL ∨ st_pending s = None →
      history (evs ++ [Req f]) (note s f)
  | h_response evs s f s' r :
      history evs s → sc_validate c s f = Ok (s', r) → history (evs ++ [Resp f]) s'.

Context `{!SessionLaws c}.

(** ** The invariant *)

Record wf (s : st) : Prop := {
  wf_exec : ∀ n, n ∈ st_accepted s ∪ st_rejected s ∪ st_terminals s → st_requests s !! n = Some EXEC;
  wf_answered : st_accepted s ∪ st_rejected s ∪ st_terminals s ⊆ st_responses s;
  wf_asked : ∀ n, n ∈ st_responses s → is_Some (st_requests s !! n);
  wf_apart : (st_accepted s ∪ st_terminals s) ## st_rejected s;
  wf_outputs : ∀ n o t, st_outputs s !! n = Some (o, t) →
    n ∈ st_accepted s ∧ 1 ≤ o ≤ OUTPUT_FRAME_LIMIT ∧ o ≤ t ≤ OUTPUT_LIMIT;
  wf_one : ∀ a b, a ∈ st_accepted s ∖ st_terminals s → b ∈ st_accepted s ∖ st_terminals s → a = b;
  wf_finished : st_finished s = true → st_accepted s ⊆ st_terminals s
}.

Lemma wf_same s t : same s t → wf t → wf s.
Proof.
  intros [] []. split; repeat match goal with H : _ s = _ t |- _ => rewrite H in *; clear H end; eauto.
Qed.

Lemma running_false s : running s = false ↔ st_accepted s ⊆ st_terminals s.
Proof. unfold running. rewrite negb_false_iff. apply bool_decide_eq_true. Qed.

Lemma output_of_wf s n : wf s → 0 ≤ (output_of s n).1 ≤ OUTPUT_FRAME_LIMIT ∧ 0 ≤ (output_of s n).2 ≤ OUTPUT_LIMIT.
Proof.
  intros Hw. unfold output_of. destruct (st_outputs s !! n) as [[o t]|] eqn:E; cbn.
  - apply (wf_outputs s Hw) in E. lia.
  - unfold OUTPUT_FRAME_LIMIT, OUTPUT_LIMIT. lia.
Qed.

Lemma machine_wf s f t : wf s → st_finished s = false → machine s f t → wf t.
Proof.
  intros Hw Hf Hm. pose proof Hw as [Hex Hans Hask Hap Hout Hone Hfin].
  destruct Hm as [?|n body Hr Ha Ht Hb Ho1 Ho2|n body Hr Ha Ht Hb|n body Hr Ha Ht Hj Hn Hb
    |n body Hr Hn Hrun Hb|n body Hr Hn Hb|k n q body Hr Hne Hn Hk|k n q body Hr Hne Hn Hk Hrun|n q body Hr Hfa Hb].
  - by split.
  - split; cbn; try done.
    intros m o t [[<- [= <- <-]]|[Hne Hm]]%lookup_insert_Some; [|by apply Hout].
    pose proof (output_of_wf s n Hw). split; [done|]. unfold output_of in *.
    destruct (st_outputs s !! n) as [[o t]|] eqn:E; cbn in *; [|lia]. apply Hout in E. lia.
  - split; cbn; [|set_solver|done|set_solver|done|set_solver|set_solver].
    intros m Hm. destruct (decide (m = n)) as [->|]; [done|apply Hex; set_solver].
  - split; cbn; [|set_solver| |set_solver|done|set_solver|set_solver];
      intros m Hm; destruct (decide (m = n)) as [->|];
      [done|apply Hex; set_solver|by eexists|apply Hask; set_solver].
  - apply running_false in Hrun. split; cbn; [|set_solver| | |..].
    + intros m Hm. destruct (decide (m = n)) as [->|]; [done|apply Hex; set_solver].
    + intros m Hm. destruct (decide (m = n)) as [->|]; [by eexists|apply Hask; set_solver].
    + set_solver.
    + intros m o t E. destruct (Hout m o t E). set_solver.
    + set_solver.
    + intros E. congruence.
  - split; cbn; [|set_solver| |set_solver|done|done|done].
    + intros m Hm. destruct (decide (m = n)) as [->|]; [done|apply Hex; set_solver].
    + intros m Hm. destruct (decide (m = n)) as [->|]; [by eexists|apply Hask; set_solver].
  - split; cbn; try done; [set_solver|].
    intros m Hm. destruct (decide (m = n)) as [->|]; [by eexists|apply Hask; set_solver].
  - apply running_false in Hrun. split; cbn; try done; [set_solver|].
    intros m Hm. destruct (decide (m = n)) as [->|]; [by eexists|apply Hask; set_solver].
  - by split.
Qed.

(** ** Requests *)

(** The requests a history made, in order from sequence number 3 *)
Definition asked (evs : list event) (s : st) : Prop :=
  ∀ n, st_requests s !! n =
    (if (3 <=? n) then fr_kind <$> reqs evs !! Z.to_nat (n - 3) else None).

Lemma note_wf s f : wf s → st_requests s !! fr_seq f = None → wf (note s f).
Proof.
  intros [] Hn. split; cbn; try done.
  - intros n Hin. rewrite lookup_insert_ne; [auto|]. intros <-. rewrite wf_exec0 in Hn; done.
  - intros n Hin. destruct (wf_asked0 n Hin) as [q Hq]. exists q. rewrite lookup_insert_ne; [done|].
    intros <-. congruence.
Qed.

Lemma machine_keeps s f t : machine s f t →
  st_requests t = st_requests s ∧ st_bodies t = st_bodies s ∧ st_control t = st_control s.
Proof. by destruct 1. Qed.
Lemma moved_keeps s f t : moved s f t →
  st_requests t = st_requests s ∧ st_bodies t = st_bodies s ∧ st_control t = st_control s.
Proof.
  intros (_ & _ & u & Hm%machine_keeps & Hs). destruct Hs.
  rewrite same_requests0, same_bodies0, same_control0. done.
Qed.

Lemma history_asked evs s : history evs s → asked evs s.
Proof.
  induction 1 as [|evs s f _ IH Hq _ _|evs s f s' r _ IH Hv].
  - intros n. cbn. by destruct (3 <=? n).
  - intros n. cbn [st_requests note_request]. rewrite reqs_app.
    destruct (decide (n = fr_seq f)) as [->|Hne].
    + rewrite lookup_insert_eq, Hq. replace (3 <=? 3 + Z.of_nat (length (reqs evs))) with true by lia.
      rewrite lookup_app_r by lia. cbn [reqs omap list_omap].
      by replace (Z.to_nat _ - _)%nat with 0%nat by lia.
    + rewrite lookup_insert_ne by done. rewrite IH. destruct (3 <=? n) eqn:E; [|done].
      destruct (decide (Z.to_nat (n - 3) < length (reqs evs))%nat) as [Hl|Hl].
      * by rewrite lookup_app_l.
      * rewrite lookup_ge_None_2 by lia. rewrite lookup_app_r by lia.
        rewrite lookup_ge_None_2; [done|]. cbn. lia.
  - intros n. rewrite reqs_resp. apply sl_moved, moved_keeps in Hv as (-> & _). apply IH.
Qed.

Lemma history_fresh evs s : history evs s → st_requests s !! (3 + Z.of_nat (length (reqs evs))) = None.
Proof.
  intros Hh%history_asked. rewrite Hh. destruct (3 <=? _); [|done].
  by rewrite lookup_ge_None_2 by lia.
Qed.

Lemma wf_init : wf st0.
Proof.
  split; cbn; try set_solver; try done.
Qed.

Lemma history_wf evs s : history evs s → wf s.
Proof.
  induction 1 as [|evs s f Hh IH Hq _ _|evs s f s' r _ IH Hv].
  - apply wf_init.
  - apply note_wf; [done|]. rewrite Hq. by apply history_fresh.
  - apply sl_moved in Hv as (Hf & _ & t & Hm & Hs). apply (wf_same _ t Hs). by eapply machine_wf.
Qed.

Lemma history_joined evs s : history evs s → joined c s.
Proof.
  induction 1 as [|evs s f Hh IH Hq Hc _|evs s f s' r Hh IH Hv]; intros n k Hn Ht.
  - cbn in Hn. by rewrite lookup_empty in Hn.
  - cbn [note_request st_requests st_control] in *.
    apply lookup_insert_Some in Hn as [[<- <-]|[_ Hn]]; [by rewrite Ht|].
    pose proof (IH n k Hn Ht). congruence.
  - apply sl_moved, moved_keeps in Hv as (E1 & _ & E3). rewrite E1 in Hn. rewrite E3. by eapply IH.
Qed.

(** A request without an answer is the pending one, or the one that ends the session. *)
Lemma history_pending evs s n k :
  live = true → sc_terminal_request c CONTROL = true → history evs s → st_requests s !! n = Some k → n ∉ st_responses s →
  st_pending s = Some n ∨ st_control s = Some n.
Proof.
  intros Hlive Hctl Hh. revert n k. induction Hh as [|evs s f Hh IH Hq Hc Hw|evs s f s' r Hh IH Hv]; intros n k Hn Hr.
  - cbn in Hn. by rewrite lookup_empty in Hn.
  - cbn [note_request st_requests st_responses st_pending st_control] in *. rewrite Hlive. cbn [andb].
    apply lookup_insert_Some in Hn as [[<- <-]|[Hne Hn]].
    { destruct (sc_terminal_request c (fr_kind f)); [by right|by left]. }
    destruct (IH n k Hn Hr) as [Hp|Hp]; [|congruence]. destruct Hw as [Hk|Hw]; [|congruence].
    rewrite Hk, Hctl. by left.
  - destruct (moved_keeps _ _ _ (sl_moved _ _ _ _ Hv)) as (E1 & _ & E3). rewrite E1 in Hn. rewrite E3.
    assert (Hsub : n ∉ st_responses s).
    { intros Hin. apply Hr. apply sl_moved in Hv as (_ & _ & t & Hm & Hs). rewrite (same_responses _ _ Hs).
      destruct Hm; cbn; set_solver. }
    destruct (IH n k Hn Hsub) as [Hp|Hp]; [|by right]. left.
    destruct (sl_settled _ _ _ _ Hv) as [->|[_ Hw]]; [done|]. by destruct (Hr (Hw n Hp)).
Qed.

(** Requests are numbered from three, and only the last can end the session. *)
Lemma history_numbered evs s k f : history evs s → reqs evs !! k = Some f → fr_seq f = 3 + Z.of_nat k.
Proof.
  intros Hh. revert k f. induction Hh as [|evs s g Hh IH Hq Hc _|evs s g s' r Hh IH Hv]; intros k f Hf.
  - done.
  - rewrite reqs_app in Hf. apply lookup_app_Some in Hf as [Hf|[Hl Hf]]; [by apply IH|].
    cbn [reqs omap list_omap] in Hf. apply list_lookup_singleton_Some in Hf as [Hz <-]. lia.
  - rewrite reqs_resp in Hf. by apply IH.
Qed.

Lemma history_terminal_last evs s k f :
  history evs s → reqs evs !! k = Some f → sc_terminal_request c (fr_kind f) = true → S k = length (reqs evs).
Proof.
  intros Hh. revert k f. induction Hh as [|evs s g Hh IH Hq Hc _|evs s g s' r Hh IH Hv]; intros k f Hf Ht.
  - done.
  - rewrite reqs_app in *. cbn [reqs omap list_omap] in *. rewrite length_app. cbn [length].
    apply lookup_app_Some in Hf as [Hf|[Hl Hf]].
    + exfalso. assert (Hn : st_requests s !! fr_seq f = Some (fr_kind f)).
      { rewrite (history_asked _ _ Hh), (history_numbered _ _ _ _ Hh Hf). rewrite (proj2 (Z.leb_le 3 (3 + Z.of_nat k))) by lia.
        replace (Z.to_nat (3 + Z.of_nat k - 3)) with k by lia. by rewrite Hf. }
      pose proof (history_joined _ _ Hh _ _ Hn Ht). congruence.
    + apply list_lookup_singleton_Some in Hf as [Hz _]. lia.
  - rewrite reqs_resp in *. by apply (IH k f).
Qed.

(** Nothing is answered before READY. *)
Lemma history_ready evs s n : history evs s → n ∈ st_responses s → is_Some (st_ready s).
Proof.
  intros Hh. revert n. induction Hh as [|evs s g Hh IH Hq Hc _|evs s g s' r Hh IH Hv]; intros n Hn.
  - cbn in Hn. set_solver.
  - by apply (IH n).
  - destruct (sl_moved _ _ _ _ Hv) as (_ & Hr & t & Hm & Hs). rewrite (same_ready _ _ Hs).
    rewrite (same_responses _ _ Hs) in Hn. clear Hv Hs.
    assert (Hs : fr_kind g = READY ∨ is_Some (st_ready s)).
    { destruct Hr as [?|[?|[m Hm']]]; [by left|by right|right; by apply (IH m)]. }
    destruct Hs as [Hk|Hs]; [|destruct Hm; try done; cbn; by eexists].
    destruct Hm; cbn in Hk; try done; cbn; by eexists.
Qed.

(** ** What one command costs *)

(** The bytes of the frames of a request, with their headers and tags *)
Definition frame_cost (n : Z) (f : wframe) : Z :=
  if fr_seq f =? n then 16 + zlen (fr_body f) + 32 else 0.
Fixpoint cost (n : Z) (fs : list wframe) : Z :=
  match fs with [] => 0 | f :: fs' => frame_cost n f + cost n fs' end.

Lemma cost_snoc n fs f : cost n (fs ++ [f]) = cost n fs + frame_cost n f.
Proof. induction fs as [|g fs IH]; cbn [app cost]; [lia|]. rewrite IH. lia. Qed.

Definition one (b : bool) (n : Z) : Z := if b then n else 0.
(** What a state allows a command to have cost *)
Definition allowance (s : st) (n : Z) : Z :=
  60 * (output_of s n).1 + (output_of s n).2 + one (bool_decide (n ∈ st_responses s)) 80
  + one (bool_decide (n ∈ st_terminals s)) 76 + one (st_faulted s) 56.

Lemma machine_cost s f t n :
  wf s → st_requests s !! n = Some EXEC → n ≠ 2 → machine s f t →
  frame_cost n f + allowance s n ≤ allowance t n.
Proof.
  intros Hw Hn H2 Hm. unfold frame_cost, allowance.
  destruct Hm as [?|m body Hr Ha Ht Hb Ho1 Ho2|m body Hr Ha Ht Hb|m body Hr Ha Ht Hj Hq Hb
    |m body Hr Hq Hrun Hb|m body Hr Hq Hb|k m q body Hr Hne Hq Hk|k m q body Hr Hne Hq Hk Hrun|m q body Hr Hfa Hb];
    cbn [fr_seq fr_body].
  all: try (destruct (decide (m = n)) as [->|Hmn];
            [try congruence; rewrite Z.eqb_refl|replace (m =? n) with false by (symmetry; by apply Z.eqb_neq)]).
  all: unfold output_of; cbn -[Z.mul Z.add Z.eqb].
  1: { replace (2 =? n) with false by (symmetry; apply Z.eqb_neq; lia). lia. }
  all: rewrite ?lookup_insert_eq, ?lookup_insert_ne by done; cbn [fst snd from_option id].
  all: destruct (st_faulted s); try done; clear Hw.
  all: repeat case_bool_decide; cbn [one]; first [lia | exfalso; set_solver].
Qed.

Lemma machine_seq s f t : machine s f t → fr_seq f = 2 ∨ is_Some (st_requests s !! fr_seq f).
Proof. destruct 1; cbn [fr_seq]; [by left|right; by eexists..]. Qed.

Lemma history_from_3 evs s n : history evs s → is_Some (st_requests s !! n) → 3 ≤ n.
Proof.
  intros Hh%history_asked [q Hq]. rewrite Hh in Hq. destruct (3 <=? n) eqn:E; [lia|done].
Qed.

Lemma history_unasked evs s n :
  history evs s → n ≠ 2 → st_requests s !! n = None → cost n (resps evs) = 0.
Proof.
  intros Hh H2. induction Hh as [|evs s f Hh IH _ _ _|evs s f s' r Hh IH Hv]; intros Hn; [done| |].
  - rewrite resps_req. apply IH. cbn [note_request st_requests] in Hn. by apply lookup_insert_None in Hn as [? _].
  - apply sl_moved in Hv as (_ & _ & t & Hm & Hs). destruct (machine_keeps _ _ _ Hm) as (Hk & _).
    rewrite (same_requests _ _ Hs), Hk in Hn. rewrite resps_app. cbn [resps omap list_omap].
    rewrite cost_snoc, IH by done. unfold frame_cost.
    replace (fr_seq f =? n) with false; [lia|]. symmetry. apply Z.eqb_neq. intros Hg.
    apply machine_seq in Hm as [Hm|[q Hm]]; congruence.
Qed.

Lemma allowance_nonneg s n : wf s → 0 ≤ allowance s n.
Proof.
  intros Hw. unfold allowance, one. pose proof (output_of_wf s n Hw).
  repeat case_match; lia.
Qed.

Lemma history_cost evs s n :
  history evs s → st_requests s !! n = Some EXEC → cost n (resps evs) ≤ allowance s n.
Proof.
  intros Hh. induction Hh as [|evs s f Hh IH Hq Hc Hw0|evs s f s' r Hh IH Hv]; intros Hn.
  - cbn in Hn. by rewrite lookup_empty in Hn.
  - assert (Hw : wf (note s f)) by (apply (history_wf _ _ (h_request _ _ _ Hh Hq Hc Hw0))).
    rewrite resps_req. cbn [note_request st_requests] in Hn.
    apply lookup_insert_Some in Hn as [[<- _]|[_ Hn]]; [|by apply IH].
    rewrite (history_unasked _ _ _ Hh); [by apply allowance_nonneg|lia|rewrite Hq; by apply history_fresh].
  - apply sl_moved in Hv as (Hf & _ & t & Hm & Hs). destruct (machine_keeps _ _ _ Hm) as (Hk & _).
    rewrite (same_requests _ _ Hs), Hk in Hn.
    assert (H2 : n ≠ 2) by (pose proof (history_from_3 _ _ n Hh (mk_is_Some _ _ Hn)); lia).
    pose proof (machine_cost _ _ _ _ (history_wf _ _ Hh) Hn H2 Hm).
    rewrite resps_app. cbn [resps omap list_omap]. rewrite cost_snoc. specialize (IH Hn).
    replace (allowance s' n) with (allowance t n); [lia|].
    unfold allowance, output_of. by rewrite (same_outputs _ _ Hs), (same_responses _ _ Hs),
      (same_terminals _ _ Hs), (same_faulted _ _ Hs).
Qed.

(** The bound of the source on the bytes one command can make the device send *)
Lemma allowance_bound s n : wf s → allowance s n ≤ MAX_COMMAND_RX_BYTES.
Proof.
  intros Hw. unfold allowance, one. pose proof (output_of_wf s n Hw) as [Ho Ht].
  unfold MAX_COMMAND_RX_BYTES, OUTPUT_LIMIT, OUTPUT_FRAME_LIMIT in *. repeat case_match; lia.
Qed.
End Life.
