(* ===== verification/ConsoleReplay.v ===== *)
(** * What a live session leaves behind

    The invariant of a live session on any environment: its state has a history
    whose requests are the frames on the wire and whose responses are the frames
    received, and each request was recorded before its first byte left.  A replay
    of the retained streams follows the same history. *)

From stdpp Require Import base list strings gmap.
From Stdlib Require Import ZArith NArith Lia Ascii.
From S2P Require Import Prelude PyStr Json Digest Bytes Console ConsoleSession ConsoleCodec ConsoleLife.
Open Scope string_scope.
Open Scope Z_scope.

#[local] Arguments ConsoleCodec.wire : simpl never.

Section Live.
Context `{Digest}.
Variable i : ident.
Hypothesis Hi : ident_ok i = true.
Variable c : session_class.
Context `{!SessionLaws c}.

Notation wires := (wires i).
Notation history := (history c true).

(** The evidence of a request *)
Definition recorded (l : live) (f : wframe) : Prop :=
  intent_row (fr_seq f) (fr_kind f) (fr_body f) ∈ lv_journal l ∧ (fr_seq f, fr_body f) ∈ lv_files l.
(** A request that a replay accepts *)
Definition sound (f : wframe) : Prop :=
  encodable f ∧ sc_validate_request c (fr_kind f) (fr_body f) = Ok tt.

Record inv (evs : list event) (l : live) : Prop := {
  iv_history : history evs (lv_st l);
  iv_requests : Forall sound (reqs evs);
  iv_recorded : Forall (recorded l) (reqs evs);
  iv_wire : ∃ rest, wires (reqs evs) = lv_wire l ++ rest ∧ (lv_stopped l = false → rest = "");
  iv_tx : ∃ rest, lv_wire l = lv_tx l ++ rest ∧ (lv_stopped l = false → rest = "");
  iv_rx : ∃ rest, lv_rx l = wires (resps evs) ++ rest
            ∧ (lv_stopped l = false → rest = lv_pending l ∧ stuck rest);
  iv_responses : Forall encodable (resps evs);
  iv_sequence : lv_stopped l = false → lv_sequence l = 3 + Z.of_nat (length (reqs evs));
  iv_finished : lv_stopped l = false → st_finished (lv_st l) = true → lv_pending l = "";
  iv_raw : lv_raw l = zlen (lv_rx l) ∧ lv_raw l ≤ SESSION_RX_LIMIT
}.

Lemma inv_open faults : inv [] (open_live i faults).
Proof.
  split; cbn; try done.
  - constructor.
  - by exists "".
  - by exists "".
  - exists "". split; [done|]. split; [done|apply stuck_nil].
Qed.

Lemma inv_stop evs l : inv evs l → inv evs (stop l).
Proof.
  intros []. split; cbn; try done.
  - destruct iv_wire0 as (r & ? & _). by exists r.
  - destruct iv_tx0 as (r & ? & _). by exists r.
  - destruct iv_rx0 as (r & ? & _). by exists r.
Qed.

Lemma inv_faults evs l n : inv evs (with_faults n l) ↔ inv evs l.
Proof. split; intros []; by split. Qed.

(** ** Evidence *)

Lemma live_tick_cases l : (∃ n, tick l = (Ok tt, with_faults n l)) ∨ (∃ e, tick l = (Err e, l)).
Proof.
  unfold tick. destruct (lv_faults l) as [[|n]|] eqn:E; [right; by eexists|left; by eexists|left].
  exists None. f_equal. destruct l; cbn in *; by subst.
Qed.

Lemma inv_row evs l row : inv evs l → inv evs (add_row row l).
Proof.
  intros []. split; cbn; try done.
  eapply Forall_impl; [done|]. intros f [Hj Hf]. split; [|done]. cbn. apply elem_of_app. by left.
Qed.
Lemma inv_file evs l seq body : inv evs l → inv evs (add_file seq body l).
Proof.
  intros []. split; cbn; try done.
  eapply Forall_impl; [done|]. intros f [Hj Hf]. split; [done|]. cbn. apply elem_of_app. by left.
Qed.

Lemma record_cases row l :
  (∃ n, record row l = (Ok tt, add_row row (with_faults n l))) ∨ (∃ e, record row l = (Err e, l)).
Proof.
  unfold record, mbind, L_bind. destruct (live_tick_cases l) as [[n ->]|[e ->]]; [left; by eexists|right; by eexists].
Qed.

(** ** Delivery *)

(** What delivering [w] may leave *)
Record delivered (w : string) (l l' : live) (sent seen : string) : Prop := {
  dl_wire : lv_wire l' = lv_wire l ++ sent;
  dl_tx : lv_tx l' = lv_tx l ++ seen;
  dl_part : ∃ rest, w = sent ++ rest;
  dl_seen : ∃ rest, sent = seen ++ rest;
  dl_rest : lv_st l' = lv_st l ∧ lv_stopped l' = lv_stopped l ∧ lv_pending l' = lv_pending l
    ∧ lv_raw l' = lv_raw l ∧ lv_sequence l' = lv_sequence l ∧ lv_journal l' = lv_journal l
    ∧ lv_files l' = lv_files l ∧ lv_rx l' = lv_rx l
}.

Lemma deliver_spec deadline w tries l r l' :
  deliver deadline w tries l = (r, l') →
  ∃ sent seen, delivered w l l' sent seen ∧ (r = Ok tt → sent = w ∧ seen = w).
Proof.
  revert w l. induction tries as [|t tries IH]; intros w l.
  - destruct w as [|a w]; cbn; intros [= <- <-]; exists "", ""; (split; [|done]).
    + split; cbn; try (by rewrite str_app_nil); try (by eexists); done.
    + split; cbn; try (by rewrite str_app_nil); try (by eexists); done.
  - destruct w as [|a w].
    { cbn. intros [= <- <-]. exists "", "". split; [|done].
      split; cbn; try (by rewrite str_app_nil); try (by eexists); done. }
    assert (Hnone : ∀ e, (Err e, l) = (r, l') → ∃ sent seen,
      delivered (String a w) l l' sent seen ∧ (r = Ok tt → sent = String a w ∧ seen = String a w)).
    { intros e [= <- <-]. exists "", "". split; [|done].
      split; cbn; try (by rewrite str_app_nil); try (by eexists); done. }
    cbn [deliver]. destruct (deadline <=? wt_now t); [by apply Hnone|].
    destruct (wt_guard t); [by apply Hnone|].
    destruct (wt_write t) as [|n|e]; [apply IH| |by apply Hnone].
    destruct n as [|n]; [by apply Hnone|].
    set (part := stake (S n) (String a w)). set (rest := sdrop (S n) (String a w)).
    assert (Hw : String a w = part ++ rest) by (symmetry; apply stake_sdrop).
    clearbody part rest. unfold mbind, L_bind, lset. destruct (live_tick_cases (add_wire part l)) as [[k ->]|[e ->]].
    + intros Hd. apply IH in Hd as (sent & seen & [] & Hok). exists (part ++ sent), (part ++ seen).
      destruct dl_part0 as [x Hx], dl_seen0 as [y Hy]. split.
      * split; cbn in *; [by rewrite dl_wire0, str_app_assoc|by rewrite dl_tx0, str_app_assoc| | |done].
        { exists x. by rewrite Hw, Hx at 1; rewrite str_app_assoc. }
        { exists y. by rewrite Hy, str_app_assoc. }
      * intros Hr. destruct (Hok Hr) as [-> ->]. by rewrite <- Hw.
    + intros [= <- <-]. exists part, "". split; [|done].
      split; cbn; [done|by rewrite str_app_nil|by eexists|by eexists|done].
Qed.

Lemma inv_delivered evs l f l' sent seen :
  inv evs l → lv_stopped l = false → sound f → recorded l f →
  fr_seq f = 3 + Z.of_nat (length (reqs evs)) → st_control (lv_st l) = None →
  fr_kind f = CONTROL ∨ st_pending (lv_st l) = None →
  delivered (wire i f)
    (next_request (note_request c true (lv_st l) (fr_kind f) (fr_seq f) (fr_body f)) l) l' sent seen →
  inv (evs ++ [Req f]) (stop l')
  ∧ (sent = wire i f ∧ seen = wire i f → inv (evs ++ [Req f]) l').
Proof.
  intros [] Hs Hf Hrec Hq Hc Hwin [Hw Ht [x Hx] [y Hy] (Est & Estop & Ep & Eraw & Eseq & Ej & Efi & Erx)].
  cbn in *. destruct iv_wire0 as (r1 & Hr1 & Hz1). rewrite (Hz1 Hs), str_app_nil in Hr1.
  destruct iv_tx0 as (r2 & Hr2 & Hz2). rewrite (Hz2 Hs), str_app_nil in Hr2.
  assert (Hh : history (evs ++ [Req f]) (lv_st l')) by (rewrite Est; by apply h_request).
  assert (Hreqs : reqs (evs ++ [Req f]) = (reqs evs ++ [f])%list) by apply reqs_app.
  assert (Hres : resps (evs ++ [Req f]) = resps evs) by apply resps_req.
  assert (Hrec' : Forall (recorded l') (reqs evs ++ [f])).
  { apply Forall_app. split; [|apply Forall_singleton; split; rewrite ?Ej, ?Efi; apply Hrec].
    eapply Forall_impl; [done|]. intros g [??]. split; by rewrite ?Ej, ?Efi. }
  assert (Hso : Forall sound (reqs evs ++ [f])) by (apply Forall_app; split; [done|by apply Forall_singleton]).
  assert (Hwires : wires (reqs evs ++ [f]) = lv_wire l' ++ x).
  { rewrite wires_app, Hr1, Hw. cbn [ConsoleCodec.wires]. by rewrite str_app_nil, Hx, str_app_assoc. }
  assert (Htx : lv_wire l' = lv_tx l' ++ y) by (by rewrite Hw, Ht, Hr2, Hy, str_app_assoc).
  rewrite <- Eraw in iv_raw0.
  split.
  - split; cbn; rewrite ?Hreqs, ?Hres, ?Erx; try done; [by exists x|by exists y|].
    destruct iv_rx0 as (r3 & Hr3 & _). by exists r3.
  - intros [-> ->].
    assert (x = "") as ->.
    { destruct (app_split (wire i f) "" (wire i f) x) as [_ Hn]; [done| |done]. by rewrite str_app_nil. }
    assert (y = "") as ->.
    { destruct (app_split (wire i f) "" (wire i f) y) as [_ Hn]; [done| |done]. by rewrite str_app_nil. }
    split; rewrite ?Hreqs, ?Hres, ?Erx, ?Estop, ?Ep; try done.
    + by exists "".
    + by exists "".
    + intros _. rewrite Eseq, iv_sequence0 by done. rewrite length_app. cbn. lia.
    + rewrite Est. apply iv_finished0.
Qed.

(** ** Sending *)

Lemma send_guard_inv l kind body w :
  send_guard i c l kind body = Ok w →
  lv_stopped l = false ∧ st_control (lv_st l) = None
  ∧ (kind = CONTROL ∨ st_pending (lv_st l) = None) ∧ w = wire i (Fr kind (lv_sequence l) body)
  ∧ sound (Fr kind (lv_sequence l) body).
Proof.
  unfold send_guard. intros ([] & _ & Hg)%rbind_Ok.
  apply rbind_Ok in Hg as ([] & H1 & Hg). apply rbind_Ok in Hg as ([] & _ & Hg).
  apply rbind_Ok in Hg as ([] & H2 & Hg). apply rbind_Ok in Hg as ([] & H3 & Hg).
  apply rbind_Ok in Hg as ([] & H4 & Hg). apply rbind_Ok in Hg as ([] & _ & Hg).
  apply require_Ok, negb_true_iff in H1. apply require_Ok in H3, H4.
  apply frame_inv in Hg as [-> He].
  split_and!; [done|by destruct (st_control _)| |done|done].
  apply orb_true_iff in H4 as [H4|H4]; [left; lia|right]. by destruct (st_pending _).
Qed.

(** What a call of [send] leaves, and what it returns *)
Lemma send_spec evs l kind body now timeout tries x l' :
  inv evs l → send i c kind body now timeout tries l = (x, l') →
  (inv evs l' ∧ (∀ n, x ≠ Ok n))
  ∨ (inv (evs ++ [Req (Fr kind (lv_sequence l) body)]) l' ∧ ∀ n, x = Ok n → n = lv_sequence l ∧ lv_stopped l' = false).
Proof.
  intros Hl. unfold send, mbind at 1, L_bind at 1.
  destruct (send_guard i c l kind body) as [w|e] eqn:Eg; [|intros [= <- <-]; by left].
  apply send_guard_inv in Eg as (Hs & Hc & Hwin & -> & Hf). set (f := Fr kind (lv_sequence l) body) in *.
  assert (Hq : fr_seq f = 3 + Z.of_nat (length (reqs evs))) by (by apply (iv_sequence _ _ Hl)).
  unfold or_stop, mbind, L_bind, lget, lset, mret, L_ret.
  destruct (live_tick_cases l) as [[n ->]|[e ->]]; [|intros [= <- <-]; left; split; [by apply inv_stop|done]].
  set (l1 := add_file (lv_sequence l) body (with_faults n l)).
  assert (Hl1 : inv evs l1) by (by apply inv_file, inv_faults).
  destruct (record_cases (intent_row (lv_sequence l) kind body) l1) as [[m ->]|[e ->]];
    [|intros [= <- <-]; left; split; [by apply inv_stop|done]].
  set (l2 := add_row (intent_row (lv_sequence l) kind body) (with_faults m l1)).
  assert (Hl2 : inv evs l2) by (by apply inv_row, inv_faults).
  assert (Hrec : recorded l2 f).
  { split; cbn; apply elem_of_app; right; by left. }
  destruct (deliver _ _ _ _) as [d l3] eqn:Ed.
  apply deliver_spec in Ed as (sent & seen & Hd & Hok).
  destruct (inv_delivered evs l2 f l3 sent seen Hl2 Hs Hf Hrec Hq Hc Hwin Hd) as [Hstop Hall].
  destruct d as [[]|e]; [|intros [= <- <-]; by right]. specialize (Hall (Hok eq_refl)).
  assert (Hns : lv_stopped l3 = false) by (destruct Hd as [_ _ _ _ (_ & -> & _)]; exact Hs).
  destruct (record_cases (sent_row (lv_sequence l)) l3) as [[k ->]|[e ->]]; [|intros [= <- <-]; by right].
  intros [= <- <-]. right. split; [by apply inv_row, inv_faults|]. by intros n' [= <-].
Qed.

(** ** Polling *)

Record received (l l' : live) : Prop := {
  rc_same : lv_stopped l' = lv_stopped l ∧ lv_pending l' = lv_pending l ∧ lv_raw l' = lv_raw l
    ∧ lv_sequence l' = lv_sequence l ∧ lv_files l' = lv_files l ∧ lv_rx l' = lv_rx l
    ∧ lv_tx l' = lv_tx l ∧ lv_wire l' = lv_wire l;
  rc_journal : ∃ rows, lv_journal l' = (lv_journal l ++ rows)%list
}.

Lemma accept_all_spec evs fs l r l' :
  history evs (lv_st l) → accept_all c fs l = (r, l') →
  ∃ fs1 fs2, fs = (fs1 ++ fs2)%list ∧ history (evs ++ map Resp fs1) (lv_st l') ∧ received l l'
    ∧ (r = Ok tt → fs2 = []).
Proof.
  revert evs l. induction fs as [|f fs IH]; intros evs l Hh; cbn [accept_all].
  - intros [= <- <-]. exists [], []. cbn. rewrite app_nil_r. split_and!; try done.
    split; [done|]. exists []. by rewrite app_nil_r.
  - unfold mbind at 1, L_bind at 1, lget. unfold mbind at 1, L_bind at 1, llift.
    destruct (sc_validate c (lv_st l) f) as [[s' row]|e] eqn:Ev.
    2: { intros [= <- <-]. exists [], (f :: fs). cbn. rewrite app_nil_r. split_and!; try done.
         split; [done|]. exists []. by rewrite app_nil_r. }
    assert (Hh' : history (evs ++ [Resp f]) s') by (by eapply h_response).
    unfold mbind at 1, L_bind at 1, lset. cbn [fst snd].
    assert (Hgo : ∀ l1, lv_st l1 = s' → received l l1 → accept_all c fs l1 = (r, l') →
      ∃ fs1 fs2, f :: fs = (fs1 ++ fs2)%list ∧ history (evs ++ map Resp fs1) (lv_st l') ∧ received l l'
        ∧ (r = Ok tt → fs2 = [])).
    { intros l1 E1 [R1 [x1 J1]] Ha. subst s'.
      destruct (IH _ _ Hh' Ha) as (fs1 & fs2 & -> & Hhist & [R2 [x2 J2]] & Hr).
      exists (f :: fs1), fs2. cbn [map]. rewrite <- app_assoc in Hhist. split_and!; try done.
      split; [|exists (x1 ++ x2)%list; by rewrite J2, J1, app_assoc].
      destruct R1 as (?&?&?&?&?&?&?&?), R2 as (?&?&?&?&?&?&?&?). by split_and!; etrans. }
    unfold mbind at 1, L_bind at 1. destruct row as [row|].
    + destruct (record_cases row (with_st s' l)) as [[n ->]|[e ->]].
      * apply Hgo; [done|]. split; [done|by eexists].
      * intros [= <- <-]. exists [f], fs. split_and!; try done. split; [done|].
        exists []. by rewrite app_nil_r.
    + cbn. apply Hgo; [done|]. split; [done|]. exists []. by rewrite app_nil_r.
Qed.

Lemma resps_map evs fs : resps (evs ++ map Resp fs) = (resps evs ++ fs)%list.
Proof. rewrite resps_app. f_equal. induction fs as [|f fs IH]; [done|]. cbn. by f_equal. Qed.
Lemma reqs_map evs fs : reqs (evs ++ map Resp fs) = reqs evs.
Proof. rewrite reqs_app. induction fs as [|f fs IH]; cbn; [by rewrite app_nil_r|exact IH]. Qed.

(** Bytes were recorded: the stream grew, and what follows the accepted frames too. *)
Lemma inv_data evs l data p :
  inv evs l → zlen data + lv_raw l ≤ SESSION_RX_LIMIT → inv evs (stop (with_pending p (add_rx data l))).
Proof.
  intros [] Hl. split; cbn; try done.
  - destruct iv_wire0 as (r & ? & _). by exists r.
  - destruct iv_tx0 as (r & ? & _). by exists r.
  - destruct iv_rx0 as (r & -> & _). exists (r ++ data). by rewrite str_app_assoc.
  - destruct iv_raw0 as [Er ?]. rewrite zlen_app. lia.
Qed.

(** Frames were decoded from them and some accepted, in order. *)
Lemma inv_frames evs l data fs1 fs2 p l' :
  inv evs l → lv_stopped l = false → zlen data + lv_raw l ≤ SESSION_RX_LIMIT →
  feed i (lv_pending l) data = (Ok (fs1 ++ fs2)%list, p) →
  history (evs ++ map Resp fs1) (lv_st l') → received (with_pending p (add_rx data l)) l' →
  inv (evs ++ map Resp fs1) (stop l')
  ∧ (fs2 = [] → (st_finished (lv_st l') = true → p = "") → inv (evs ++ map Resp fs1) l').
Proof.
  intros [] Hs Hl Hfd Hh [(Rs & Rp & Rr & Rq & Rf & Rx & Rt & Rw) [rows Rj]]. cbn in *.
  apply feed_exact in Hfd as (He & Hall & Hp); [|done]. apply Forall_app in Hall as [Hall1 _].
  destruct iv_rx0 as (rest & Erx & Hrest). destruct (Hrest Hs) as [-> _].
  assert (Hrx : lv_rx l' = wires (resps evs ++ fs1) ++ wires fs2 ++ p).
  { rewrite Rx, Erx. rewrite <- str_app_assoc, He, !wires_app, <- !str_app_assoc. done. }
  assert (Hrec : Forall (recorded l') (reqs evs)).
  { eapply Forall_impl; [done|]. intros f [Hj Hf]. split; [rewrite Rj; apply elem_of_app; by left|by rewrite Rf]. }
  assert (Hraw : lv_raw l' = zlen (lv_rx l') ∧ lv_raw l' ≤ SESSION_RX_LIMIT).
  { rewrite Rr, Rx, zlen_app. destruct iv_raw0. lia. }
  split; [split|intros -> Hfin; split]; cbn; rewrite ?reqs_map, ?resps_map, ?Rw, ?Rt, ?Rs, ?Rq, ?Rp; try done;
    try (by apply Forall_app).
  - destruct iv_wire0 as (r & ? & _). by exists r.
  - destruct iv_tx0 as (r & ? & _). by exists r.
  - by exists (wires fs2 ++ p).
  - exists p. split; [by rewrite Hrx|done].
Qed.

(** What a call of [poll] leaves: the frames it accepted, all of those it returns *)
Lemma poll_spec evs l r x l' :
  inv evs l → poll i c r l = (x, l') →
  ∃ fs, inv (evs ++ map Resp fs) l' ∧ ∀ gs, x = Ok gs → gs = fs ∧ lv_stopped l' = false.
Proof.
  intros Hl. assert (Hnil : ∀ l1, inv evs l1 → inv (evs ++ map Resp []) l1) by (intros; by rewrite app_nil_r).
  assert (Hstop : ∀ e : pyexc, (Err e, stop l) = (x, l') →
    ∃ fs, inv (evs ++ map Resp fs) l' ∧ ∀ gs, x = Ok gs → gs = fs ∧ lv_stopped l' = false).
  { intros e [= <- <-]. exists []. split; [by apply Hnil, inv_stop|done]. }
  unfold poll, mbind at 1, L_bind at 1, lget.
  destruct (lv_stopped l) eqn:Hs; [intros [= <- <-]; exists []; split; [by apply Hnil|done]|].
  destruct r as [| |data|e]; [|by apply Hstop| |by apply Hstop].
  { intros [= <- <-]. exists []. split; [by apply Hnil|]. by intros gs [= <-]. }
  unfold or_stop, mbind, L_bind, lget, llift, lset, mret, L_ret.
  destruct (perr (lv_raw l + zlen data <=? SESSION_RX_LIMIT) _) as [[]|e] eqn:El;
    [apply require_Ok, Z.leb_le in El|by apply Hstop].
  destruct (live_tick_cases l) as [[n ->]|[e ->]]; [|by apply Hstop].
  set (l1 := with_faults n l). assert (Hl1 : inv evs l1) by (by apply inv_faults).
  assert (Hlim : zlen data + lv_raw l1 ≤ SESSION_RX_LIMIT) by (cbn; lia).
  unfold feed_live. change (lv_pending (add_rx data l1)) with (lv_pending l1).
  destruct (feed i (lv_pending l1) data) as [[fs|e] p] eqn:Ef; cbn [fst snd];
    [|intros [= <- <-]; exists []; split; [by apply Hnil, inv_data|done]].
  destruct (accept_all c fs (with_pending p (add_rx data l1))) as [r l2] eqn:Ea.
  pose proof (accept_all_spec evs _ (with_pending p (add_rx data l1)) _ _ (iv_history _ _ Hl1) Ea) as (fs1 & fs2 & -> & Hh & Hr & Hok).
  destruct (inv_frames evs l1 data fs1 fs2 p l2 Hl1 Hs Hlim Ef Hh Hr) as [Hst Hall].
  destruct r as [[]|e]; [|intros [= <- <-]; by exists fs1]. rewrite (Hok eq_refl), app_nil_r.
  destruct (perr _ _) as [[]|e] eqn:Et; intros [= <- <-]; exists fs1; [|done]. destruct Hr as [(Hss & Hp & _) _].
  split; [|intros gs [= <-]; split; [done|by rewrite Hss]]. apply Hall; [by apply Hok|].
  intros Hfin. cbn [id] in Et. apply require_Ok, negb_true_iff, andb_false_iff in Et as [Et|Et]; [congruence|].
  apply negb_false_iff, String.eqb_eq in Et. change (lv_pending l2 = p) in Hp. by rewrite <- Hp.
Qed.

Lemma run_inv faults acts : ∃ evs, inv evs (run i c faults acts).
Proof.
  unfold run. assert (Hgo : ∀ l evs, inv evs l → ∃ evs', inv evs' (foldl (step i c) l acts)).
  { induction acts as [|a acts IH]; intros l evs Hl; [by exists evs|]. cbn [foldl].
    destruct a as [kind body now timeout tries|r|]; cbn [step].
    - destruct (send i c kind body now timeout tries l) as [x l'] eqn:E.
      destruct (send_spec evs l _ _ _ _ _ _ _ Hl E) as [[Hl' _]|[Hl' _]]; by eapply IH.
    - destruct (poll i c r l) as [x l'] eqn:E.
      destruct (poll_spec evs l r _ _ Hl E) as (fs & Hl' & _). by eapply IH.
    - eapply IH. by apply inv_stop. }
  eapply Hgo, inv_open.
Qed.

(** A stopped session sends nothing and stays stopped. *)
Lemma stopped_step l a : lv_stopped l = true → lv_wire (step i c l a) = lv_wire l ∧ lv_stopped (step i c l a) = true.
Proof.
  intros Hs. destruct a as [kind body now timeout tries|r|]; cbn [step]; [| |done].
  - unfold send. set (k := λ wire : string, _).
    assert (He : ∃ e, send_guard i c l kind body = Err e).
    { unfold send_guard. destruct (sc_may_send c _ _ _); [cbn [rbind]|by eexists]. rewrite Hs. by eexists. }
    destruct He as [e He]. unfold mbind, L_bind. rewrite He. split; [done|exact Hs].
  - unfold poll, mbind, L_bind, lget. rewrite Hs. split; [done|exact Hs].
Qed.
Lemma stopped_silent l : lv_stopped l = true → ∀ acts, lv_wire (foldl (step i c) l acts) = lv_wire l.
Proof.
  intros Hs acts. revert l Hs. induction acts as [|a acts IH]; intros l Hs; [done|]. cbn [foldl].
  destruct (stopped_step l a Hs) as [Hw Hs']. by rewrite IH.
Qed.

(** ** The replay *)

Lemma replay_requests_snoc n s a f :
  replay_requests c n s (a ++ [f]) =
    let* s' := replay_requests c n s a in replay_requests c (n + Z.of_nat (length a)) s' [f].
Proof.
  revert n s. induction a as [|g a IH]; intros n s; cbn [app length].
  - cbn [replay_requests rbind]. by rewrite Z.add_0_r.
  - cbn [replay_requests]. destruct (perr _ _) as [[]|e]; [|done]. cbn [rbind].
    destruct (sc_validate_request c (fr_kind g) (fr_body g)) as [[]|e]; [|done]. cbn [rbind].
    rewrite IH. by replace (n + 1 + Z.of_nat (length a)) with (n + Z.of_nat (S (length a))) by lia.
Qed.

(** The response side of a state that has seen no response *)
Record unheard (t : st) : Prop := {
  uh_responses : st_responses t = ∅; uh_accepted : st_accepted t = ∅; uh_rejected : st_rejected t = ∅;
  uh_outputs : st_outputs t = ∅; uh_terminals : st_terminals t = ∅; uh_faulted : st_faulted t = false;
  uh_finished : st_finished t = false; uh_ready : st_ready t = None; uh_last : st_last t = None
}.
(** [t] knows the requests of [s]. *)
Record knows (s t : st) : Prop := {
  kn_requests : st_requests t = st_requests s;
  kn_bodies : st_bodies t = st_bodies s;
  kn_control : st_control t = st_control s
}.

Lemma requests_replayed evs s :
  history evs s → Forall sound (reqs evs) →
  ∃ t, replay_requests c 3 st0 (reqs evs) = Ok t ∧ knows s t ∧ unheard t.
Proof.
  induction 1 as [|evs s f Hh IH Hq Hc _|evs s f s' r Hh IH Hv]; intros Hall.
  - eexists. split; [done|]. by split; split.
  - rewrite (reqs_app evs [Req f]) in *. cbn [reqs omap list_omap] in *. apply Forall_app in Hall as [Hall [[_ Hf] _]%Forall_cons].
    destruct (IH Hall) as (t & Ht & [K1 K2 K3] & Hu). rewrite replay_requests_snoc, Ht. cbn [rbind replay_requests].
    rewrite K3, Hc, Hq, Z.eqb_refl. cbn [andb perr Prelude.require rbind]. rewrite Hf. cbn [rbind].
    eexists. split; [done|]. split; [split; cbn; by rewrite ?K1, ?K2, ?K3, <- ?Hq|]. destruct Hu. by split.
  - rewrite reqs_resp in *. destruct (IH Hall) as (t & Ht & [K1 K2 K3] & Hu). exists t. split_and!; [done| |done].
    apply sl_moved, moved_keeps in Hv as (E1 & E2 & E3). split; congruence.
Qed.

(** [t] knows the requests of [s] and perhaps later ones. *)
Record ahead (s t : st) : Prop := {
  ah_requests : st_requests s ⊆ st_requests t;
  ah_bodies : st_bodies s ⊆ st_bodies t;
  ah_control : ∀ n, st_control s = Some n → knows s t
}.

Lemma responses_keep t fs t' : replay_responses c t fs = Ok t' → knows t t'.
Proof.
  unfold replay_responses. revert t. induction fs as [|f fs IH]; intros t; cbn [foldM].
  - by intros [= ->].
  - intros (t1 & (x & Hx & [= <-])%rbind_Ok & Hr)%rbind_Ok. apply IH in Hr as [K1 K2 K3]. destruct x as [t1 r].
    apply sl_moved, moved_keeps in Hx as (E1 & E2 & E3). cbn [fst] in *. split; congruence.
Qed.

Lemma replay_responses_snoc t a f :
  replay_responses c t (a ++ [f]) =
    let* t' := replay_responses c t a in let* r := sc_validate c t' f in Ok r.1.
Proof.
  unfold replay_responses. revert t. induction a as [|g a IH]; intros t; cbn [foldM app].
  - cbn [rbind]. by destruct (sc_validate c t f).
  - destruct (sc_validate c t g); [cbn [rbind]; apply IH|done].
Qed.

Lemma note_bodies evs s n : history evs s → st_bodies s !! n = None ↔ st_requests s !! n = None.
Proof.
  induction 1 as [|evs s f Hh IH Hq Hc _|evs s f s' r Hh IH Hv]; cbn.
  - done.
  - by rewrite !lookup_insert_None, IH.
  - apply sl_moved, moved_keeps in Hv as (-> & -> & _). done.
Qed.

(** A state ahead of the session follows its history. *)
Lemma responses_followed evs s t :
  history evs s → ahead s t → unheard t →
  ∃ t', replay_responses c t (resps evs) = Ok t' ∧ grows s t'.
Proof.
  intros Hh. induction Hh as [|evs s f Hh IH Hq Hc _|evs s f s' r Hh IH Hv]; intros [A1 A2 A3] Hu.
  - exists t. split; [done|]. destruct Hu. split; cbn; try done.
  - rewrite resps_req. assert (Hn : st_requests s !! fr_seq f = None) by (rewrite Hq; by eapply history_fresh).
    cbn [note_request st_requests st_bodies st_control] in *.
    destruct IH as (t' & Ht & Hg); [|done|].
    { split; [| |intros n E; congruence].
      - etrans; [by apply insert_subseteq|done].
      - etrans; [apply insert_subseteq, (note_bodies evs s), Hn; exact Hh|done]. }
    exists t'. split; [done|]. apply responses_keep in Ht as [K1 K2 K3].
    destruct Hg. split; cbn; rewrite ?K1, ?K2, ?K3; try done. intros n E. destruct (A3 n E) as [K4 K5 K6]. cbn in *. by rewrite ?K4, ?K5, ?K6.
  - destruct (moved_keeps _ _ _ (sl_moved _ _ _ _ Hv)) as (E1 & E2 & E3). rewrite E1, E2 in *.
    destruct IH as (t' & Ht & Hg); [split; [done|done|]; intros n E|done|].
    { destruct (A3 n) as [K1 K2 K3]; [congruence|]. split; congruence. }
    destruct (sl_grows _ _ _ _ _ (history_joined _ _ _ _ Hh) Hg Hv) as (t2 & Ht2 & Hg2).
    exists t2. split; [|done]. rewrite resps_app. cbn [resps omap list_omap].
    by rewrite replay_responses_snoc, Ht; cbn [rbind]; rewrite Ht2.
Qed.

Lemma grows_same s t : grows s t → knows s t → same t s.
Proof. intros [] []. by split. Qed.

(** The requests and responses of a history, replayed *)
Lemma history_replayed evs s :
  history evs s → Forall sound (reqs evs) →
  ∃ t t', replay_requests c 3 st0 (reqs evs) = Ok t ∧ replay_responses c t (resps evs) = Ok t' ∧ same t' s.
Proof.
  intros Hh Hall. destruct (requests_replayed evs s Hh Hall) as (t & Ht & Hk & Hu).
  destruct (responses_followed evs s t) as (t' & Ht' & Hg); [done|destruct Hk as [K1 K2 K3]; by split; rewrite ?K1, ?K2|done|].
  exists t, t'. split_and!; [done|done|]. apply grows_same; [done|].
  destruct Hk, (responses_keep _ _ _ Ht'). split; congruence.
Qed.

Lemma same_unanswered s t : same s t → unanswered s = unanswered t.
Proof. intros []. unfold unanswered. by rewrite same_requests, same_responses. Qed.

(** The replay of a finished session *)
Lemma replay_inv evs l :
  inv evs l → lv_stopped l = false → st_finished (lv_st l) = true →
  ∃ s, same s (lv_st l) ∧ lv_rx l = wires (resps evs)
    ∧ replay i c (lv_rx l) (lv_tx l)
      = do* perr (negb (unanswered (lv_st l))) "unanswered retained normal request" in Ok (s, resps evs).
Proof.
  intros Hl Hs Hf. destruct (history_replayed _ _ (iv_history _ _ Hl) (iv_requests _ _ Hl)) as (t & t' & Ht & Ht' & Hsame).
  destruct (iv_wire _ _ Hl) as (r1 & Hw & Z1). rewrite (Z1 Hs), str_app_nil in Hw.
  destruct (iv_tx _ _ Hl) as (r2 & Hx & Z2). rewrite (Z2 Hs), str_app_nil in Hx.
  destruct (iv_rx _ _ Hl) as (r3 & Hr & Z3). destruct (Z3 Hs) as [-> _].
  rewrite (iv_finished _ _ Hl Hs Hf), str_app_nil in Hr.
  assert (F1 : feed i "" (lv_tx l) = (Ok (reqs evs), "")).
  { apply feed_exact; [done|]. rewrite <- Hx, <- Hw, str_app_nil. split_and!; [done| |apply stuck_nil].
    eapply Forall_impl; [apply (iv_requests _ _ Hl)|]. by intros f []. }
  assert (F2 : feed i "" (lv_rx l) = (Ok (resps evs), "")).
  { apply feed_exact; [done|]. rewrite Hr, str_app_nil. split_and!; [done|apply Hl|apply stuck_nil]. }
  exists t'. split_and!; [done|done|]. unfold replay. rewrite F1, F2. cbn [fst snd rbind].
  cbn [String.eqb andb perr Prelude.require rbind]. rewrite Ht. cbn [rbind]. rewrite Ht'. cbn [rbind].
  rewrite (same_finished _ _ Hsame), Hf. cbn [perr Prelude.require rbind].
  by rewrite (same_unanswered _ _ Hsame).
Qed.

(** What a replay accepts *)
Lemma replay_inversion rx tx s fs :
  replay i c rx tx = Ok (s, fs) →
  ∃ gs t, tx = wires gs ∧ rx = wires fs ∧ Forall encodable gs ∧ Forall encodable fs
    ∧ replay_requests c 3 st0 gs = Ok t ∧ replay_responses c t fs = Ok s
    ∧ st_finished s = true ∧ unanswered s = false.
Proof.
  unfold replay. destruct (feed i "" tx) as [ro po] eqn:Eo. destruct (feed i "" rx) as [ri pi] eqn:Ei.
  cbn [fst snd]. intros (gs & -> & Hp)%rbind_Ok. apply rbind_Ok in Hp as (inc & -> & Hp).
  apply rbind_Ok in Hp as ([] & Hn & Hp). apply require_Ok in Hn. bsimp. subst po pi.
  apply rbind_Ok in Hp as (t & H1 & Hp). apply rbind_Ok in Hp as (s2 & H2 & Hp).
  apply rbind_Ok in Hp as ([] & Hf%require_Ok & Hp). apply rbind_Ok in Hp as ([] & Hu%require_Ok & [= -> ->]).
  apply feed_exact in Eo as (Eo & Ao & _); [|done]. apply feed_exact in Ei as (Ei & Ai & _); [|done].
  rewrite str_app_nil in Eo, Ei. change ("" ++ ?x) with x in Eo, Ei. bsimp. by exists gs, t.
Qed.
End Live.
