(* ===== verification/ConsolePrefix.v ===== *)
(** * The diagnostic replay of a prefix

    [replay_prefix] reads each stream frame by frame up to the first bad tail.
    What it accepts is a concatenation of encoded frames that a complete replay
    would have accepted too; within the bounds it never raises for a session
    class whose checks raise diagnosed errors alone; and on streams that a
    complete replay accepts it finds the same state and no tail. *)

From stdpp Require Import base list strings gmap.
From Stdlib Require Import ZArith NArith Lia Ascii.
From S2P Require Import Prelude PyStr Json Digest Bytes Console ConsoleSession ConsoleCodec ConsoleLife ConsoleReplay.
Open Scope string_scope.
Open Scope Z_scope.

#[local] Arguments ConsoleCodec.wire : simpl never.

(** ** Diagnosed errors *)

(** A computation whose errors [replay_prefix] turns into a tail *)
Definition tame {A} (m : result A) : Prop := ∀ e, m = Err e → is_Some (diagnosed e).

Lemma tame_ok {A} (a : A) : tame (Ok a).
Proof. done. Qed.
Lemma tame_perr b msg : tame (perr b msg).
Proof. unfold tame, perr, Prelude.require. destruct b; [done|]. intros e [= <-]. by eexists. Qed.
Lemma tame_verr b msg : tame (verr b msg).
Proof. unfold tame, verr, Prelude.require. destruct b; [done|]. intros e [= <-]. by eexists. Qed.
Lemma tame_bind {A B} (m : result A) (k : A → result B) :
  tame m → (∀ a, m = Ok a → tame (k a)) → tame (rbind m k).
Proof. intros Hm Hk. destruct m as [a|e]; cbn [rbind]; [by apply Hk|]. intros e' [= <-]. by apply Hm. Qed.
Lemma tame_proto {A} msg : tame (Err (A := A) (ProtocolError msg)).
Proof. intros e [= <-]. by eexists. Qed.
Lemma tame_struct {A} : tame (Err (A := A) PyStructError).
Proof. intros e [= <-]. by eexists. Qed.
Lemma tame_struct_req b : tame (Prelude.require b PyStructError).
Proof. unfold Prelude.require. destruct b; [done|]. apply tame_struct. Qed.

Create HintDb tame discriminated.
#[export] Hint Resolve tame_ok tame_perr tame_verr tame_proto tame_struct tame_struct_req : tame.

Ltac tame_step :=
  lazymatch goal with
  | |- tame (rbind _ _) => apply tame_bind; [|intros ? ?]
  | |- tame (match ?x with _ => _ end) => let E := fresh "E" in destruct x eqn:E
  | |- _ => solve [auto with tame]
  end.

Section Codec.
Context `{Digest}.
Variable i : ident.

Lemma tag_tame seq kind body : tame (tag i seq kind body).
Proof. unfold tag. repeat tame_step. Qed.
Hint Resolve tag_tame : tame.

Lemma take_frame_tame p : tame (take_frame i p).
Proof. unfold take_frame. repeat tame_step. Qed.

Lemma feed_tame pending data : tame (feed i pending data).1.
Proof.
  unfold feed. set (fuel := S _). generalize (pending ++ data) as p, (@nil wframe) as acc, fuel.
  intros p acc n. clear fuel. revert p acc. induction n as [|n IH]; intros p acc; cbn [feed_loop]; [done|].
  destruct (String.length p <? 16)%nat; [done|]. destruct (header_ok p); cbn [negb fst]; [|apply tame_proto].
  destruct (String.length p <? _)%nat; [done|].
  pose proof (take_frame_tame p) as Ht. destruct (take_frame i p) as [f|e]; [apply IH|]. cbn [fst].
  intros e' [= <-]. by apply Ht.
Qed.

Lemma prefix_frame_tame rest : tame (prefix_frame i rest).
Proof.
  unfold prefix_frame. do 3 tame_step; [by auto with tame..|]. apply tame_bind; [apply feed_tame|].
  intros fs Hfs. repeat tame_step.
Qed.
End Codec.

Lemma command_tame cmd cwd t : tame (command cmd cwd t).
Proof. unfold command. repeat tame_step. Qed.
Lemma validate_request_tame kind body : tame (validate_request kind body).
Proof.
  unfold validate_request. repeat first [apply command_tame|tame_step].
Qed.

(** The requests a class admits are known by their kinds, and have bodies. *)
Definition known (kinds : list Z) (s : st) : Prop :=
  ∀ n q, st_requests s !! n = Some q → q ∈ kinds ∧ is_Some (st_bodies s !! n).

(** The laws of the diagnostic replay *)
Class PrefixLaws (c : session_class) (kinds : list Z) := {
  pl_request : ∀ kind body, tame (sc_validate_request c kind body);
  pl_kind : ∀ kind body, sc_validate_request c kind body = Ok tt → kind ∈ kinds;
  pl_response : ∀ s f, known kinds s → tame (sc_validate c s f)
}.

Definition root_kinds : list Z := [EXEC; STATUS; CANCEL; CONTROL].

Lemma expected_ack_tame q : q ∈ root_kinds → tame (expected_ack q).
Proof.
  unfold root_kinds. rewrite !elem_of_cons. intros Hq. destruct_or! Hq; try (subst; apply tame_ok).
  by apply elem_of_nil in Hq.
Qed.

Lemma exit_tame s q seq body : tame (on_exit s q seq body).
Proof. unfold on_exit, exit_flags_ok. repeat tame_step. Qed.
Lemma output_tame s q seq body : tame (on_output s q seq body).
Proof. unfold on_output. repeat tame_step. Qed.
Lemma ready_tame s seq body : tame (on_ready s seq body).
Proof. unfold on_ready. repeat tame_step. Qed.
Lemma fault_tame s seq body : tame (on_fault s seq body).
Proof. unfold on_fault. repeat tame_step. Qed.
Lemma ack_tame s q k seq body :
  q ∈ root_kinds → is_Some (st_bodies s !! seq) → tame (on_ack s q k seq body).
Proof.
  intros Hq [b Hb]. unfold on_ack. apply tame_bind; [by apply expected_ack_tame|]. intros expected _.
  unfold supervisor_ok, disposition_step. rewrite Hb. repeat tame_step.
Qed.
#[export] Hint Resolve exit_tame output_tame ready_tame fault_tame : tame.

Lemma validate_tame s f : known root_kinds s → tame (validate s f).
Proof.
  intros Hk. unfold validate. cbv zeta. tame_step; [by auto with tame|]. tame_step; [by auto with tame|].
  tame_step; [by auto with tame|]. destruct (st_requests s !! fr_seq f) as [q|] eqn:Eq; [|apply tame_proto].
  destruct (Hk _ _ Eq) as [Hq Hb]. pose proof (ack_tame s q (fr_kind f) (fr_seq f) (fr_body f) Hq Hb).
  repeat tame_step.
Qed.

#[export] Instance root_prefix : PrefixLaws root_class root_kinds.
Proof.
  split; [apply validate_request_tame|apply request_kind|apply validate_tame].
Qed.

(** ** One frame, and the loop *)

Section Prefix.
Context `{Digest}.
Variable i : ident.
Hypothesis Hi : ident_ok i = true.
Notation wire := (wire i).
Notation wires := (wires i).

Lemma prefix_frame_sound rest f n :
  prefix_frame i rest = Ok (f, n) → encodable f ∧ rest = wire f ++ sdrop n rest ∧ n = String.length (wire f).
Proof.
  unfold prefix_frame. intros ([] & _ & Hp)%rbind_Ok. apply rbind_Ok in Hp as ([] & Hh & Hp).
  set (k := (16 + header_size rest)%nat) in Hp. clearbody k.
  apply rbind_Ok in Hp as ([] & Hl & Hp). apply require_Ok, Nat.leb_le in Hl.
  apply rbind_Ok in Hp as (fs & Hfs & Hp). destruct fs as [|g [|? ?]]; [done| |done].
  apply rbind_Ok in Hp as ([] & Hq & [= -> <-]). apply require_Ok, String.eqb_eq in Hq.
  destruct (feed i "" _) as [r q] eqn:Ef. cbn [fst snd] in *. subst r q.
  apply feed_exact in Ef as (He & Hall & _); [|done]. apply Forall_cons in Hall as [Hf _]. split; [done|].
  cbn [ConsoleCodec.wires] in He. rewrite !str_app_nil in He. change ("" ++ ?x) with x in He.
  rewrite <- He, stake_sdrop. split; [done|]. by rewrite stake_length.
Qed.

Lemma prefix_frame_complete f rest :
  encodable f → prefix_frame i (wire f ++ rest) = Ok (f, String.length (wire f)).
Proof.
  intros Hf. unfold prefix_frame. pose proof (front_long i f rest Hf) as Hl.
  rewrite (front_header i f rest Hf). pose proof (front_header_size i f rest Hf) as Hs.
  replace (16 <=? _)%nat with true by (symmetry; apply Nat.leb_le; lia).
  replace (16 + header_size _ <=? _)%nat with true by (symmetry; by apply Nat.leb_le).
  cbn [perr Prelude.require rbind]. rewrite Hs, <- (wire_length i), stake_app by done.
  assert (Ef : feed i "" (wire f) = (Ok [f], "")).
  { apply feed_exact; [done|]. cbn [ConsoleCodec.wires]. rewrite !str_app_nil.
    split_and!; [done|by apply Forall_singleton|apply stuck_nil]. }
  by rewrite Ef.
Qed.

Variable c : session_class.

Lemma prefix_request_replay n s f s' :
  prefix_request c n s f = Ok s' ↔ replay_requests c n s [f] = Ok s'.
Proof.
  unfold prefix_request. cbn [replay_requests].
  split; intros ([] & Hc%require_Ok & Hr)%rbind_Ok; apply rbind_Ok; (exists tt; split; [by apply require_Ok|done]).
Qed.

(** What the loop has consumed, as a replay of it *)
Definition consumed (tx : bool) (n : Z) (s : st) (fs : list wframe) : result st :=
  if tx then replay_requests c n s fs else replay_responses c s fs.
Definition prefix_one (tx : bool) (n : Z) (s : st) (f : wframe) : result st :=
  if tx then prefix_request c n s f else prefix_response c s f.

Lemma consumed_cons tx n s f fs s' :
  consumed tx n s (f :: fs) = Ok s' ↔ ∃ s1, prefix_one tx n s f = Ok s1 ∧ consumed tx (n + 1) s1 fs = Ok s'.
Proof.
  unfold consumed, prefix_one. destruct tx.
  - setoid_rewrite prefix_request_replay. cbn [replay_requests]. split.
    + intros ([] & Hc & Hr)%rbind_Ok. apply rbind_Ok in Hr as ([] & Hv & Hr). eexists. split; [|exact Hr].
      apply rbind_Ok. exists tt. split; [exact Hc|]. by rewrite Hv.
    + intros (s1 & Hs & Hr). apply rbind_Ok in Hs as ([] & Hc & Hs). apply rbind_Ok. exists tt. split; [done|].
      apply rbind_Ok in Hs as ([] & Hv & [= <-]). by rewrite Hv.
  - unfold replay_responses, prefix_response. cbn [foldM]. apply rbind_Ok.
Qed.

Definition ends (s : st) (events : list wframe) (offset : nat) (t : option (string * string)) : prefix_end :=
  {| pe_st := s; pe_events := events; pe_offset := offset; pe_tail := t |}.

Lemma prefix_loop_eq fuel tx rest offset n s events :
  rest ≠ "" →
  prefix_loop i c (S fuel) tx rest offset n s events =
    match (let* fn := prefix_frame i rest in let* s' := prefix_one tx n s fn.1 in Ok (fn, s')) with
    | Ok (f, k, s') => prefix_loop i c fuel tx (sdrop k rest) (offset + k) (n + 1) s'
                         (if tx then events else events ++ [f])%list
    | Err e => match diagnosed e with Some t => Ok (ends s events offset (Some t)) | None => Err e end
    end.
Proof. destruct rest; [done|]. by destruct tx. Qed.

(** What the loop accepts *)
Lemma prefix_loop_sound fuel tx rest offset n s events e :
  (String.length rest < fuel)%nat → prefix_loop i c fuel tx rest offset n s events = Ok e →
  ∃ fs q, Forall encodable fs ∧ rest = wires fs ++ q ∧ pe_offset e = (offset + String.length (wires fs))%nat
    ∧ consumed tx n s fs = Ok (pe_st e) ∧ pe_events e = (if tx then events else events ++ fs)%list
    ∧ (pe_tail e = None ↔ q = "").
Proof.
  revert rest offset n s events. induction fuel as [|fuel IH]; intros rest offset n s events Hl; [lia|].
  assert (Hnil : ∀ t, (t = None ↔ rest = "") → Ok (ends s events offset t) = Ok e →
    ∃ fs q, Forall encodable fs ∧ rest = wires fs ++ q ∧ pe_offset e = (offset + String.length (wires fs))%nat
    ∧ consumed tx n s fs = Ok (pe_st e) ∧ pe_events e = (if tx then events else events ++ fs)%list
    ∧ (pe_tail e = None ↔ q = "")).
  { intros t Ht [= <-]. exists [], rest. cbn. rewrite app_nil_r. split_and!; try done; [by destruct tx..]. }
  destruct (decide (rest = "")) as [->|Hne]; [by apply (Hnil None)|].
  rewrite prefix_loop_eq by done.
  destruct (prefix_frame i rest) as [[f k]|x] eqn:Ef; cbn [rbind fst].
  2: { destruct (diagnosed x); [|done]. apply Hnil. by split. }
  destruct (prefix_one tx n s f) as [s1|x] eqn:E1; cbn [rbind].
  2: { destruct (diagnosed x); [|done]. apply Hnil. by split. }
  apply prefix_frame_sound in Ef as (Hf & Hrest & Hk). intros Hgo.
  apply IH in Hgo as (fs & q & Hall & Hr & Ho & Hc & He & Ht); 
    [|pose proof (f_equal String.length Hrest) as Hlen; rewrite str_length_app, (wire_length i) in Hlen; lia].
  exists (f :: fs), q. split_and!; [by constructor| | | | |done].
  - cbn [ConsoleCodec.wires]. rewrite Hrest at 1. by rewrite Hr, str_app_assoc.
  - cbn [ConsoleCodec.wires]. rewrite str_length_app, Ho, Hk. lia.
  - apply consumed_cons. by exists s1.
  - rewrite He. destruct tx; [done|]. by rewrite <- app_assoc.
Qed.

(** A complete stream leaves no tail. *)
Lemma prefix_loop_complete fuel tx fs offset n s events s' :
  Forall encodable fs → (String.length (wires fs) < fuel)%nat → consumed tx n s fs = Ok s' →
  prefix_loop i c fuel tx (wires fs) offset n s events =
    Ok (ends s' (if tx then events else events ++ fs)%list (offset + String.length (wires fs)) None).
Proof.
  intros Hall. revert fuel offset n s events. induction Hall as [|f fs Hf _ IH]; intros fuel offset n s events Hl Hc.
  - destruct fuel as [|fuel]; [cbn in Hl; lia|]. cbn. rewrite Nat.add_0_r, app_nil_r. unfold ends.
    destruct tx; injection Hc as <-; reflexivity.
  - destruct fuel as [|fuel]; [lia|]. apply consumed_cons in Hc as (s1 & H1 & Hc).
    rewrite prefix_loop_eq by done. cbn [ConsoleCodec.wires] in *.
    rewrite (prefix_frame_complete f _ Hf). cbn [rbind fst]. rewrite H1. cbn [rbind].
    rewrite sdrop_app by done. rewrite str_length_app in Hl.
    assert (Hl' : (String.length (wires fs) < fuel)%nat) by (rewrite (wire_length i) in Hl; lia).
    rewrite (IH _ _ _ _ _ Hl' Hc).
    unfold ends. do 2 f_equal; [destruct tx; [done|by rewrite <- app_assoc]|rewrite str_length_app; lia].
Qed.

(** A response whose check raises something else than a diagnosed error raises it. *)
Lemma prefix_loop_raises fuel fs f rest offset n s events s1 e :
  Forall encodable fs → encodable f → (String.length (wires (fs ++ [f]) ++ rest) < fuel)%nat →
  replay_responses c s fs = Ok s1 → sc_validate c s1 f = Err e → diagnosed e = None →
  prefix_loop i c fuel false (wires (fs ++ [f]) ++ rest) offset n s events = Err e.
Proof.
  intros Hall Hf Hl Hr Hv Hd. revert fuel offset n s events Hl Hr.
  induction Hall as [|g fs Hg _ IH]; intros fuel offset n s events Hl Hr; (destruct fuel as [|fuel]; [lia|]);
    rewrite prefix_loop_eq by done; cbn [app ConsoleCodec.wires] in *; rewrite <- str_app_assoc in *.
  - rewrite (prefix_frame_complete f _ Hf). cbn [rbind fst]. injection Hr as ->.
    unfold prefix_one, prefix_response. rewrite Hv. cbn [rbind]. by rewrite Hd.
  - rewrite (prefix_frame_complete g _ Hg). cbn [rbind fst]. rewrite str_length_app, (wire_length i) in Hl.
    apply rbind_Ok in Hr as (s2 & H1 & Hr). unfold prefix_one, prefix_response. rewrite H1. cbn [rbind].
    rewrite sdrop_app by done. apply IH; [lia|done].
Qed.

(** ** The whole diagnostic replay *)

Context (kinds : list Z) `{!PrefixLaws c kinds} `{!SessionLaws c}.

Lemma prefix_one_known tx n s f s' : known kinds s → prefix_one tx n s f = Ok s' → known kinds s'.
Proof.
  intros Hk. unfold prefix_one. destruct tx.
  - unfold prefix_request. intros ([] & _ & Hr)%rbind_Ok. apply rbind_Ok in Hr as ([] & Hv & [= <-]).
    intros m q. cbn [note_request st_requests st_bodies]. rewrite lookup_insert_Some.
    intros [[<- <-]|[Hne Hm]]; [rewrite lookup_insert_eq; split; [by eapply pl_kind|by eexists]|].
    rewrite lookup_insert_ne by done. by apply Hk.
  - unfold prefix_response. intros ([s1 r] & Hv & [= <-])%rbind_Ok.
    apply sl_moved, moved_keeps in Hv as (E1 & E2 & _). intros m q. cbn [fst]. rewrite E1, E2. apply Hk.
Qed.

Lemma prefix_one_tame tx n s f : known kinds s → tame (prefix_one tx n s f).
Proof.
  intros Hk. unfold prefix_one, prefix_request, prefix_response. destruct tx.
  - apply tame_bind; [apply tame_perr|]. intros _ _. apply tame_bind; [apply pl_request|]. intros _ _. apply tame_ok.
  - apply tame_bind; [by apply pl_response|]. intros r _. apply tame_ok.
Qed.

Lemma prefix_loop_total fuel tx rest offset n s events :
  known kinds s → ∃ e, prefix_loop i c fuel tx rest offset n s events = Ok e ∧ known kinds (pe_st e).
Proof.
  revert rest offset n s events. induction fuel as [|fuel IH]; intros rest offset n s events Hk.
  { eexists. by split. }
  destruct (decide (rest = "")) as [->|Hne]; [eexists; by split|].
  rewrite prefix_loop_eq by done. pose proof (prefix_frame_tame i rest) as H1.
  destruct (prefix_frame i rest) as [[f k]|x]; cbn [rbind fst].
  2: { destruct (H1 x eq_refl) as [t ->]. eexists. by split. }
  pose proof (prefix_one_tame tx n s f Hk) as H2. destruct (prefix_one tx n s f) as [s1|x] eqn:E1; cbn [rbind].
  - apply IH. by eapply prefix_one_known.
  - destruct (H2 x eq_refl) as [t ->]. eexists. by split.
Qed.

Lemma known_init : known kinds st0.
Proof. intros n q. cbn. by rewrite lookup_empty. Qed.

(** The two streams a diagnostic replay read *)
Lemma replay_prefix_cases rx tx :
  zlen rx ≤ RAW_CAPTURE_MAXIMUM → zlen tx ≤ 65536 →
  ∃ s fs gs q r v, replay_prefix i c rx tx = Ok (s, gs, v)
    ∧ (Forall encodable fs ∧ tx = wires fs ++ q ∧ Forall encodable gs ∧ rx = wires gs ++ r)
    ∧ (∃ s1, replay_requests c 3 st0 fs = Ok s1 ∧ replay_responses c s1 gs = Ok s).
Proof.
  intros Hr Ht. unfold replay_prefix, prefix_stream.
  replace (_ && _) with true by (symmetry; apply andb_true_iff; split; lia). cbn [perr Prelude.require rbind].
  destruct (prefix_loop_total (S (String.length tx)) true tx 0 3 st0 [] known_init) as (t & Et & Hk). rewrite Et.
  cbn [rbind]. destruct (prefix_loop_total (S (String.length rx)) false rx 0 3 (pe_st t) [] Hk) as (u & Eu & _).
  rewrite Eu. cbn [rbind].
  apply prefix_loop_sound in Et as (fs & q & F1 & F2 & _ & F3 & _); [|lia].
  apply prefix_loop_sound in Eu as (gs & r & G1 & G2 & _ & G3 & G4 & _); [|lia]. cbn [app] in G4. rewrite G4.
  exists (pe_st u), fs, gs, q, r. eexists. split; [done|]. split_and!; [done..|]. by exists (pe_st t).
Qed.

(** The report of a diagnostic replay without a tail *)
Definition whole_report (rx tx : string) : json :=
  JObj [("valid_prefix_bytes", JObj [("tx", JInt (zlen tx)); ("rx", JInt (zlen rx))]);
        ("tails", JObj []); ("session_completion_proved", JBool false)].

Lemma replay_prefix_whole rx tx s fs :
  zlen rx ≤ RAW_CAPTURE_MAXIMUM → zlen tx ≤ 65536 → replay i c rx tx = Ok (s, fs) →
  replay_prefix i c rx tx = Ok (s, fs, whole_report rx tx).
Proof.
  intros Hr Ht (out & s1 & -> & -> & Ao & Ai & H1 & H2 & _)%replay_inversion; [|done].
  unfold replay_prefix, prefix_stream.
  replace (_ && _) with true by (symmetry; apply andb_true_iff; split; lia). cbn [perr Prelude.require rbind].
  rewrite (prefix_loop_complete _ true out _ _ _ _ s1 Ao) by (try done; lia). cbn [rbind pe_st ends].
  rewrite (prefix_loop_complete _ false fs _ _ _ _ s Ai) by (try done; lia). reflexivity.
Qed.
End Prefix.
