(* ===== verification/TextRecords.v ===== *)
(** * Text records of the device tools

    The fixed tools of the native image print one record per line.  What their
    readers use of Python's [bytes]: [fullmatch] of a pattern that alternates fixed
    words and groups of digits, [splitlines], [partition] and [int] of a group.  The
    language of a pattern is the relation [matches]; the matcher decides it. *)

From stdpp Require Import base list strings.
From Stdlib Require Import ZArith Lia Ascii.
From S2P Require Import Prelude PyStr PyText Bytes.
Open Scope string_scope.

(** ** Patterns *)

Inductive part :=
  | Word (w : string)
  | Digits (p : ascii → bool) (lo : nat) (hi : option nat).
(** [[0-9]+], [[lo-hi]] and [[0-9]{1,n}] *)
Definition number : part := Digits is_digit 1 None.
Definition one_of (lo hi : ascii) : part := Digits (char_between lo hi) 1 (Some 1%nat).
Definition number_to (n : nat) : part := Digits is_digit 1 (Some n).

Definition within (n lo : nat) (hi : option nat) : bool :=
  (lo <=? n)%nat && match hi with Some h => (n <=? h)%nat | None => true end.

(** A text of the language of a pattern, with its groups *)
Inductive matches : list part → string → list string → Prop :=
  | m_end : matches [] "" []
  | m_word w ps s gs : matches ps s gs → matches (Word w :: ps) (w ++ s) gs
  | m_digits p lo hi ps d s gs :
      all_chars p d = true → within (String.length d) lo hi = true →
      matches ps s gs → matches (Digits p lo hi :: ps) (d ++ s) (d :: gs).

Fixpoint span (p : ascii → bool) (s : string) : string * string :=
  match s with
  | "" => ("", "")
  | String c s' => if p c then (String c (span p s').1, (span p s').2) else ("", s)
  end.

(** [re.fullmatch] *)
Fixpoint fullmatch (ps : list part) (s : string) : option (list string) :=
  match ps with
  | [] => if s =? "" then Some [] else None
  | Word w :: ps' => if startswith w s then fullmatch ps' (sdrop (String.length w) s) else None
  | Digits p lo hi :: ps' =>
      let d := span p s in
      if within (String.length d.1) lo hi then option_map (cons d.1) (fullmatch ps' d.2) else None
  end.

(** Every group is followed by the end or by a word that cannot continue it, so
    there is one way to match. *)
Definition stops (p : ascii → bool) (ps : list part) : bool :=
  match ps with
  | [] => true
  | Word (String c _) :: _ => negb (p c)
  | _ => false
  end.
Fixpoint separated (ps : list part) : bool :=
  match ps with
  | [] => true
  | Word _ :: ps' => separated ps'
  | Digits p _ _ :: ps' => stops p ps' && separated ps'
  end.

Lemma span_app p d s :
  all_chars p d = true → match s with "" => True | String c _ => p c = false end → span p (d ++ s) = (d, s).
Proof.
  intros Hd Hs. induction d as [|c d IH]; cbn in *.
  - destruct s as [|c s]; [done|]. cbn. by rewrite Hs.
  - apply andb_true_iff in Hd as [Hc Hd]. by rewrite Hc, IH.
Qed.
Lemma span_spec p s : s = (span p s).1 ++ (span p s).2 ∧ all_chars p (span p s).1 = true.
Proof.
  induction s as [|c s [IH IHd]]; cbn; [done|]. destruct (p c) eqn:E; [|done]. cbn. by rewrite <- IH, E.
Qed.

Lemma matches_stop p ps s gs :
  stops p ps = true → matches ps s gs → match s with "" => True | String c _ => p c = false end.
Proof.
  intros Hs Hm. destruct Hm as [|w ps s gs _|]; [done| |done].
  destruct w as [|c w]; [done|]. cbn in *. by apply negb_true_iff.
Qed.

(** The matcher decides the language of a separated pattern, and finds its groups. *)
Lemma fullmatch_iff ps s gs : separated ps = true → fullmatch ps s = Some gs ↔ matches ps s gs.
Proof.
  intros Hsep. split.
  - revert s gs. induction ps as [|[w|p lo hi] ps IH]; cbn in *; intros s gs.
    + destruct (String.eqb_spec s "") as [->|]; [|done]. intros [= <-]. constructor.
    + destruct (startswith w s) eqn:E; [|done]. apply prefix_exists in E as [t ->].
      rewrite sdrop_app by done. intros Hf. constructor. by apply IH.
    + apply andb_true_iff in Hsep as [_ Hsep]. destruct (within _ lo hi) eqn:E; [|done].
      destruct (span_spec p s) as [Es Ed]. destruct (fullmatch ps (span p s).2) as [gs'|] eqn:Ef; [|done].
      cbn. intros [= <-]. rewrite Es at 1. constructor; [done..|]. by apply IH.
  - intros Hm. revert Hsep. induction Hm as [|w ps s gs Hm IH|p lo hi ps d s gs Hd Hw Hm IH]; cbn; intros Hsep.
    + done.
    + unfold startswith. rewrite prefix_app, sdrop_app by done. by apply IH.
    + apply andb_true_iff in Hsep as [Hst Hsep].
      rewrite span_app by (done || by eapply matches_stop). cbn [fst snd]. by rewrite Hw, IH.
Qed.

(** ** Lines *)

Definition return_char : ascii := "013"%char.

(** [bytes.splitlines()]: a line ends with LF, CR or CR LF *)
Fixpoint bytes_lines (s : string) : list string :=
  match s with
  | "" => []
  | String c s' =>
      if (c =? newline)%char then "" :: bytes_lines s'
      else if (c =? return_char)%char then
        match s' with
        | String d s'' => if (d =? newline)%char then "" :: bytes_lines s'' else "" :: bytes_lines s'
        | "" => [""]
        end
      else match bytes_lines s' with
           | l :: ls => String c l :: ls
           | [] => [String c ""]
           end
  end.

(** A text without a line boundary *)
Definition one_line (s : string) : bool :=
  all_chars (λ c, negb ((c =? newline)%char || (c =? return_char)%char)) s.

Lemma bytes_lines_cons l s : one_line l = true → bytes_lines (l ++ nl ++ s) = l :: bytes_lines s.
Proof.
  induction l as [|c l IH]; [done|]. cbn -[nl]. intros [Hc Hl]%andb_true_iff.
  apply negb_true_iff, orb_false_iff in Hc as [-> ->]. by rewrite IH.
Qed.

(** Lines written one after the other are read back. *)
Fixpoint unlines (ls : list string) : string :=
  match ls with [] => "" | l :: ls' => l ++ nl ++ unlines ls' end.
Lemma bytes_lines_unlines ls : Forall (λ l, one_line l = true) ls → bytes_lines (unlines ls) = ls.
Proof. induction 1 as [|l ls Hl _ IH]; [done|]. cbn [unlines]. by rewrite bytes_lines_cons, IH. Qed.

Lemma bytes_lines_nonempty s : s ≠ "" → bytes_lines s ≠ [].
Proof.
  destruct s as [|c s]; [done|]. intros _. cbn. destruct (_ =? _)%char; [done|].
  destruct (_ =? _)%char; [destruct s as [|d s]; [done|]; by destruct (_ =? _)%char|].
  by destruct (bytes_lines s).
Qed.

Lemma bytes_lines_length s l : l ∈ bytes_lines s → (String.length l ≤ String.length s)%nat.
Proof.
  remember (String.length s) as n eqn:E. revert s l E.
  induction n as [n IH] using lt_wf_ind. intros s l -> Hl. destruct s as [|c s]; [by apply not_elem_of_nil in Hl|].
  cbn in *. assert (IH' : ∀ t, (String.length t ≤ String.length s)%nat → l ∈ bytes_lines t → (String.length l ≤ String.length s)%nat).
  { intros t Ht Hlt. pose proof (IH (String.length t) ltac:(lia) t l eq_refl Hlt). lia. }
  destruct (c =? newline)%char.
  { apply elem_of_cons in Hl as [->|Hl]; [cbn; lia|]. apply IH' in Hl; [lia|done]. }
  destruct (c =? return_char)%char.
  { destruct s as [|d s]; [apply list_elem_of_singleton in Hl as ->; cbn; lia|].
    destruct (d =? newline)%char; (apply elem_of_cons in Hl as [->|Hl]; [cbn; lia|]; apply IH' in Hl; cbn in *; lia). }
  destruct (bytes_lines s) as [|l' ls] eqn:E; [apply list_elem_of_singleton in Hl as ->; cbn; lia|].
  apply elem_of_cons in Hl as [->|Hl].
  - assert (l' ∈ bytes_lines s) as Hl' by (rewrite E; left).
    pose proof (IH (String.length s) ltac:(lia) s l' eq_refl Hl'). cbn. lia.
  - assert (l ∈ bytes_lines s) as Hl' by (rewrite E; by right).
    pose proof (IH (String.length s) ltac:(lia) s l eq_refl Hl'). lia.
Qed.

(** [s.partition(sep)], [None] where the separator does not occur *)
Fixpoint partition (sep s : string) : option (string * string) :=
  if startswith sep s then Some ("", sdrop (String.length sep) s)
  else match s with
       | "" => None
       | String c s' => match partition sep s' with Some (a, b) => Some (String c a, b) | None => None end
       end.

Lemma partition_Some sep s a b : partition sep s = Some (a, b) → s = a ++ sep ++ b.
Proof.
  revert a. induction s as [|c s IH]; intros a; cbn [partition].
  - destruct (startswith sep "") eqn:E; [|done]. apply prefix_exists in E as [t E].
    destruct sep; [|discriminate E]. by intros [= <- <-].
  - destruct (startswith sep (String c s)) eqn:E.
    + apply prefix_exists in E as [t E]. rewrite E, sdrop_app by done. by intros [= <- <-].
    + destruct (partition sep s) as [[a' b']|]; [|done]. intros [= <- <-]. cbn. f_equal. by apply IH.
Qed.

(** ** Numerals *)

(** [tuple(map(int, match.groups()))] *)
Fixpoint ints (gs : list string) : result (list Z) :=
  match gs with
  | [] => Ok []
  | g :: gs' => let* n := int_digits g in let* ns := ints gs' in Ok (n :: ns)
  end.

(** A line is a record of a pattern with these numbers. *)
Definition denotes (ps : list part) (line : string) (ns : list Z) : Prop :=
  ∃ gs, matches ps line gs ∧ ints gs = Ok ns.

(** Reading a record: the matcher, then the numbers *)
Definition read_record (ps : list part) (line : string) (e : pyexc) : result (list Z) :=
  match fullmatch ps line with Some gs => ints gs | None => Err e end.

Lemma read_record_iff ps line e ns : separated ps = true → read_record ps line e = Ok ns ↔ denotes ps line ns.
Proof.
  intros Hs. unfold read_record, denotes. split.
  - destruct (fullmatch ps line) as [gs|] eqn:E; [|done]. apply fullmatch_iff in E; [|done]. eauto.
  - intros (gs & Hm & Hi). apply fullmatch_iff in Hm; [|done]. by rewrite Hm.
Qed.

Lemma matches_length ps line gs : matches ps line gs → Forall (λ g, (String.length g ≤ String.length line)%nat) gs.
Proof.
  induction 1 as [|w ps s gs _ IH|p lo hi ps d s gs _ _ _ IH]; [done|..].
  - eapply Forall_impl; [exact IH|]. intros g Hg. cbn in *. rewrite str_length_app. lia.
  - constructor; [rewrite str_length_app; lia|].
    eapply Forall_impl; [exact IH|]. intros g Hg. cbn in *. rewrite str_length_app. lia.
Qed.

(** Short numerals have a value. *)
Lemma ints_short gs : Forall (λ g, (String.length g ≤ INT_MAX_STR_DIGITS)%nat) gs → ∃ ns, ints gs = Ok ns.
Proof.
  induction 1 as [|g gs Hg _ [ns IH]]; [by eexists|]. exists (digits_val 0 g :: ns). cbn.
  unfold int_digits. apply Nat.leb_le in Hg. by rewrite Hg, IH.
Qed.

(** Everything [int] raises of digits is a [ValueError]. *)
Lemma ints_error gs e : ints gs = Err e → ∃ m, e = PyValueError m.
Proof.
  induction gs as [|g gs IH]; [done|]. cbn. unfold int_digits. destruct (_ <=? _)%nat; cbn.
  - destruct (ints gs) as [ns|e']; cbn; [done|]. intros [= <-]. by apply IH.
  - intros [= <-]. eauto.
Qed.
