(* ===== verification/Health.v ===== *)
(** * The fixed native health check

    [s22plus_native_baseline_health_v1.py]: the one command that proves a healthy
    arrival, what it must print, and [validate_console], which reads the accepted
    responses of a session for it. *)

From stdpp Require Import base list strings gmap.
From Stdlib Require Import ZArith NArith Lia Ascii.
From S2P Require Import Prelude PyStr Json Digest Bytes Console ConsoleSession.
Open Scope string_scope.
Open Scope Z_scope.

Definition dq : string := String (ascii_of_nat 34) "".
Definition newline : string := String (ascii_of_nat 10) "".
Definition zero_byte : string := String (ascii_of_nat 0) "".

Definition COMMAND : string :=
  "printf 'NB1\n'; /bin/busybox id -u; /bin/busybox id -g; "
  ++ "/bin/busybox awk '/^PPid:/{print $2}' /proc/$$/status; "
  ++ "test -r /proc/1/status && test -d /sys/devices && test -c /dev/null && "
  ++ "/bin/busybox awk '$2==" ++ dq ++ "/proc" ++ dq ++ "&&$3==" ++ dq ++ "proc" ++ dq ++ "{p=1} "
  ++ "$2==" ++ dq ++ "/sys" ++ dq ++ "&&$3==" ++ dq ++ "sysfs" ++ dq ++ "{s=1} "
  ++ "$2==" ++ dq ++ "/dev" ++ dq ++ "&&($3==" ++ dq ++ "tmpfs" ++ dq ++ "||$3==" ++ dq ++ "devtmpfs" ++ dq ++ "){d=1} "
  ++ "END{if(p&&s&&d)print " ++ dq ++ "MOUNTS" ++ dq ++ ";else exit 1}' /proc/mounts && "
  ++ "printf 'COMPLETE\000OUT\n' && printf 'COMPLETE\000ERR\n' >&2".

Definition STDOUT : string :=
  "NB1" ++ newline ++ "0" ++ newline ++ "0" ++ newline ++ "1" ++ newline ++ "MOUNTS" ++ newline
  ++ "COMPLETE" ++ zero_byte ++ "OUT" ++ newline.
Definition STDERR : string := "COMPLETE" ++ zero_byte ++ "ERR" ++ newline.
Definition COMMAND_BODY : string := match command COMMAND "/" 15000 with Ok b => b | Err _ => "" end.

Lemma command_body_ok : command COMMAND "/" 15000 = Ok COMMAND_BODY.
Proof. vm_compute. reflexivity. Qed.

(** ** Reading the responses *)

(** What [validate_console] reads of a session *)
Record view := {
  vw_ready : option (list Z);
  vw_requests : gmap Z Z;
  vw_bodies : gmap Z string;
  vw_accepted : gset Z;
  vw_faulted : bool
}.
Definition view_of (s : st) : view := {|
  vw_ready := st_ready s; vw_requests := st_requests s; vw_bodies := st_bodies s;
  vw_accepted := st_accepted s; vw_faulted := st_faulted s |}.

(** [streams], [terminal] and [status] *)
Record heard := {
  hd_out : string; hd_err : string; hd_terminal : option (list Z); hd_status : option (list Z)
}.
Definition heard0 : heard := {| hd_out := ""; hd_err := ""; hd_terminal := None; hd_status := None |}.

(** [struct.unpack] of [n] words *)
Definition unpack (n : nat) (body : string) : result (list Z) :=
  if zlen body =? 4 * Z.of_nat n then Ok (words32 n body) else Err PyStructError.

Definition is_frame (f : wframe) (kind seq : Z) : bool := (fr_kind f =? kind) && (fr_seq f =? seq).

Definition hear (h : heard) (f : wframe) : result heard :=
  let body := fr_body f in
  if is_frame f OUTPUT 3 then
    let* w := unpack 1 (stake 4 (sdrop 8 body)) in
    let data := sdrop 12 body in
    match w with
    | [1] => Ok {| hd_out := hd_out h ++ data; hd_err := hd_err h; hd_terminal := hd_terminal h;
                   hd_status := hd_status h |}
    | [2] => Ok {| hd_out := hd_out h; hd_err := hd_err h ++ data; hd_terminal := hd_terminal h;
                   hd_status := hd_status h |}
    | _ => Err (PyKeyError "streams")
    end
  else if is_frame f EXIT 3 then
    let* w := unpack 7 body in
    Ok {| hd_out := hd_out h; hd_err := hd_err h; hd_terminal := Some w; hd_status := hd_status h |}
  else if is_frame f STATUS_REPLY 4 then
    match hd_terminal h with
    | None => Err (PyValueError "STATUS precedes command terminal")
    | Some _ =>
        let* w := unpack 8 body in
        Ok {| hd_out := hd_out h; hd_err := hd_err h; hd_terminal := hd_terminal h; hd_status := Some w |}
    end
  else Ok h.

Definition terminal_clean (t : option (list Z)) : bool :=
  match t with
  | Some [a; b; d; e; _; dropped; _] => (a =? 3) && (b =? 0) && (d =? 0) && (e =? 0) && (dropped =? 0)
  | _ => false
  end.

Definition idle_status : list Z := [3; 0; 0; 0; 0; zlen STDOUT + zlen STDERR; 0; 3].

Definition validate_console (v : view) (events : list wframe) : result unit :=
  do* verr (bool_decide (vw_ready v = Some [1; 600000; 300000; 1048576; 767; 255; 0; 0]))
        "native READY credentials/profile differ" in
  do* verr (bool_decide (vw_requests v !! 5 = None) || bool_decide (vw_requests v !! 5 = Some CONTROL))
        "native departure request differs" in
  let requests := delete 5 (vw_requests v) in
  do* verr (bool_decide (requests = <[3 := EXEC]> {[ 4 := STATUS ]})) "native health command/request profile differs" in
  let* body := match vw_bodies v !! 3 with Some b => Ok b | None => Err (PyKeyError "3") end in
  do* verr (body =? COMMAND_BODY)%string "native health command/request profile differs" in
  let* h := foldM hear heard0 events in
  do* verr (bool_decide (3 ∈ vw_accepted v) && negb (vw_faulted v) && terminal_clean (hd_terminal h)
            && (hd_out h =? STDOUT)%string && (hd_err h =? STDERR)%string) "native command health is unproved" in
  verr (bool_decide (hd_status h = Some idle_status)) "fresh idle STATUS differs".

(** ** What it establishes *)

(** The payloads of one output stream of a command, in order *)
Fixpoint stream_of (n stream : Z) (events : list wframe) : string :=
  match events with
  | [] => ""
  | f :: events' =>
      if is_frame f OUTPUT n && (unle (stake 4 (sdrop 8 (fr_body f))) =? stream)
      then sdrop 12 (fr_body f) ++ stream_of n stream events'
      else stream_of n stream events'
  end.

Lemma stream_cons n k f events :
  stream_of n k (f :: events) =
    (if is_frame f OUTPUT n && (unle (stake 4 (sdrop 8 (fr_body f))) =? k) then sdrop 12 (fr_body f) else "")
    ++ stream_of n k events.
Proof. cbn [stream_of]. by destruct (_ && _). Qed.

Lemma unpack_Ok n body w : unpack n body = Ok w ↔ zlen body = 4 * Z.of_nat n ∧ w = words32 n body.
Proof.
  unfold unpack. destruct (_ =? _) eqn:E; [apply Z.eqb_eq in E|apply Z.eqb_neq in E]; split; try done.
  - by intros [= <-].
  - by intros [_ ->].
  - by intros [? _].
Qed.

(** The frames of a kind and a sequence number *)
Definition reports (events : list wframe) (kind seq : Z) (w : list Z) : Prop :=
  ∃ f, f ∈ events ∧ is_frame f kind seq = true ∧ words32 (length w) (fr_body f) = w.

Lemma reports_here f events kind seq n :
  is_frame f kind seq = true → reports (f :: events) kind seq (words32 n (fr_body f)).
Proof. intros Hf. exists f. rewrite words32_length. split_and!; [by left|done|done]. Qed.
Lemma reports_later f events kind seq w : reports events kind seq w → reports (f :: events) kind seq w.
Proof. intros (g & ? & ? & ?). exists g. split_and!; [by right|done|done]. Qed.

(** A status read after a terminal *)
Definition status_after (t : option (list Z)) (events : list wframe) (w : list Z) : Prop :=
  ∃ pre f post, events = (pre ++ f :: post)%list ∧ reports [f] STATUS_REPLY 4 w
    ∧ (t ≠ None ∨ ∃ x, reports pre EXIT 3 x).

(** What the loop collected *)
Record collected (h : heard) (events : list wframe) (h' : heard) : Prop := {
  cl_out : hd_out h' = hd_out h ++ stream_of 3 1 events;
  cl_err : hd_err h' = hd_err h ++ stream_of 3 2 events;
  cl_terminal : ∀ w, hd_terminal h' = Some w → hd_terminal h = Some w ∨ reports events EXIT 3 w;
  cl_status : ∀ w, hd_status h' = Some w →
    hd_status h = Some w ∨ status_after (hd_terminal h) events w
}.

Lemma hear_collects h f h' : hear h f = Ok h' → collected h [f] h'.
Proof.
  unfold hear. cbv zeta. destruct (is_frame f OUTPUT 3) eqn:Eo.
  - intros (w & [_ ->]%unpack_Ok & Hr)%rbind_Ok. cbn [words32] in Hr.
    set (k := unle (stake 4 (stake 4 (sdrop 8 (fr_body f))))) in *.
    assert (Ek : unle (stake 4 (sdrop 8 (fr_body f))) = k) by (unfold k; by rewrite stake_stake).
    destruct (decide (k = 1)) as [E|E1]; [|destruct (decide (k = 2)) as [E|E2]].
    + rewrite E in *. injection Hr as <-.
      split; cbn [hd_out hd_err hd_terminal hd_status]; try (by left); rewrite stream_cons, Eo, Ek; cbn;
        by rewrite ?str_app_nil.
    + rewrite E in *. injection Hr as <-.
      split; cbn [hd_out hd_err hd_terminal hd_status]; try (by left); rewrite stream_cons, Eo, Ek; cbn;
        by rewrite ?str_app_nil.
    + exfalso. destruct k as [|[[?|?|]|[?|?|]|]|?]; done.
  - destruct (is_frame f EXIT 3) eqn:Ee.
    { intros (w & [_ ->]%unpack_Ok & [= <-])%rbind_Ok.
      split; cbn; rewrite ?Eo; cbn; rewrite ?str_app_nil; try done; [|by left].
      intros w [= <-]. right. by apply (reports_here f [] EXIT 3 7). }
    destruct (is_frame f STATUS_REPLY 4) eqn:Es.
    { destruct (hd_terminal h) as [t|] eqn:Et; [|done]. intros (w & [_ ->]%unpack_Ok & [= <-])%rbind_Ok.
      split; cbn; rewrite ?Eo; cbn; rewrite ?str_app_nil, ?Et; try done; [by left|].
      intros w [= <-]. right. exists [], f, []. split_and!; [done|by apply (reports_here f [] STATUS_REPLY 4 8)|by left]. }
    intros [= <-]. split; cbn; rewrite ?Eo; cbn; rewrite ?str_app_nil; try done; by left.
Qed.

Lemma stream_app n k a b : stream_of n k (a ++ b) = stream_of n k a ++ stream_of n k b.
Proof. induction a as [|f a IH]; [done|]. cbn [app]. by rewrite !stream_cons, IH, str_app_assoc. Qed.

Lemma reports_app_l a b kind seq w : reports a kind seq w → reports (a ++ b) kind seq w.
Proof. intros (f & ? & ? & ?). exists f. rewrite elem_of_app. auto. Qed.
Lemma reports_app_r a b kind seq w : reports b kind seq w → reports (a ++ b) kind seq w.
Proof. intros (f & ? & ? & ?). exists f. rewrite elem_of_app. auto. Qed.

Lemma collected_app h h1 h2 a b : collected h a h1 → collected h1 b h2 → collected h (a ++ b) h2.
Proof.
  intros [A1 A2 A3 A4] [B1 B2 B3 B4]. split.
  - by rewrite B1, A1, stream_app, str_app_assoc.
  - by rewrite B2, A2, stream_app, str_app_assoc.
  - intros w [Hw|Hw]%B3; [|right; by apply reports_app_r].
    destruct (A3 w Hw); [by left|right; by apply reports_app_l].
  - intros w [Hw|(pre & f & post & -> & Hf & Ht)]%B4.
    + destruct (A4 w Hw) as [?|(pre & f & post & -> & Hf & Ht)]; [by left|right].
      exists pre, f, (post ++ b)%list. split_and!; [by rewrite <- app_assoc|done|done].
    + right. exists (a ++ pre)%list, f, post. split_and!; [by rewrite <- app_assoc|done|].
      destruct Ht as [Ht|[x Hx]]; [|right; exists x; by apply reports_app_r].
      destruct (hd_terminal h1) as [w1|] eqn:E1; [|done].
      destruct (A3 w1 eq_refl) as [->|Hx]; [by left|right]. exists w1. by apply reports_app_l.
Qed.

Lemma collected_nil h : collected h [] h.
Proof. split; cbn; try (by left); by rewrite str_app_nil. Qed.

Lemma hear_all events h h' : foldM hear h events = Ok h' → collected h events h'.
Proof.
  revert h. induction events as [|f events IH]; intros h; cbn [foldM].
  - intros [= <-]. apply collected_nil.
  - intros (h1 & H1%hear_collects & H2%IH)%rbind_Ok. by apply (collected_app _ _ _ [f] events H1).
Qed.

(** The facts of a healthy arrival *)
Record healthy (v : view) (events : list wframe) : Prop := {
  hl_ready : vw_ready v = Some [1; 600000; 300000; 1048576; 767; 255; 0; 0];
  hl_command : vw_requests v !! 3 = Some EXEC ∧ vw_bodies v !! 3 = Some COMMAND_BODY ∧ 3 ∈ vw_accepted v;
  hl_others : ∀ n k, vw_requests v !! n = Some k → n = 3 ∧ k = EXEC ∨ n = 4 ∧ k = STATUS ∨ n = 5 ∧ k = CONTROL;
  hl_fault : vw_faulted v = false;
  hl_streams : stream_of 3 1 events = STDOUT ∧ stream_of 3 2 events = STDERR;
  hl_terminal : ∃ total ordinal, reports events EXIT 3 [3; 0; 0; 0; total; 0; ordinal];
  hl_idle : status_after None events idle_status
}.

Lemma requests_profile (m : gmap Z Z) :
  delete 5 m = <[3 := EXEC]> {[ 4 := STATUS ]} → m !! 5 = None ∨ m !! 5 = Some CONTROL →
  m !! 3 = Some EXEC ∧ ∀ n k, m !! n = Some k → n = 3 ∧ k = EXEC ∨ n = 4 ∧ k = STATUS ∨ n = 5 ∧ k = CONTROL.
Proof.
  intros Hm H5. split.
  - rewrite <- (lookup_delete_ne m 5 3) by done. by rewrite Hm, lookup_insert_eq.
  - intros n k Hn. destruct (decide (n = 5)) as [->|Hne].
    { right. right. destruct H5 as [H5|H5]; [congruence|]. split; congruence. }
    rewrite <- (lookup_delete_ne m 5 n), Hm in Hn by done.
    apply lookup_insert_Some in Hn as [[<- <-]|[_ Hn]]; [by left|].
    apply lookup_singleton_Some in Hn as [<- <-]. right. by left.
Qed.

Lemma terminal_clean_inv t : terminal_clean t = true → ∃ total ordinal, t = Some [3; 0; 0; 0; total; 0; ordinal].
Proof.
  destruct t as [[|a [|b [|d [|e [|t [|dr [|o [|? ?]]]]]]]]|]; try done. cbn. intros Ht. bsimp. subst. by eexists _, _.
Qed.

Lemma validate_console_healthy v events : validate_console v events = Ok tt → healthy v events.
Proof.
  unfold validate_console. intros ([] & H1%require_Ok & Hv)%rbind_Ok.
  apply rbind_Ok in Hv as ([] & H2%require_Ok & Hv). apply rbind_Ok in Hv as ([] & H3%require_Ok & Hv).
  apply rbind_Ok in Hv as (b & Hb & Hv). apply rbind_Ok in Hv as ([] & H4%require_Ok & Hv).
  apply rbind_Ok in Hv as (h & Hh & Hv). apply rbind_Ok in Hv as ([] & H5%require_Ok & Hv).
  apply require_Ok, bool_decide_eq_true in Hv. apply bool_decide_eq_true in H1, H3.
  apply orb_true_iff in H2. rewrite !bool_decide_eq_true in H2.
  destruct (vw_bodies v !! 3) as [b'|] eqn:Eb; [|done]. injection Hb as ->. apply String.eqb_eq in H4. subst b.
  destruct (requests_profile _ H3 H2) as [E3 Eo]. apply hear_all in Hh as [C1 C2 C3 C4]. bsimp.
  destruct (terminal_clean_inv (hd_terminal h)) as (t & o & Et); [done|].
  split; try done.
  - by rewrite <- H4, <- H0, C1, C2.
  - exists t, o. destruct (C3 _ Et) as [?|?]; done.
  - by destruct (C4 _ Hv) as [?|?].
Qed.
