(* ===== verification/ConsoleKinds.v ===== *)
(** * Derived console sessions

    The classes that override [Session]: the clean detach of
    [s22plus_native_baseline_protocol_v1.py] and the PID1 transition of
    [s22plus_switch_root_protocol_v1.py].  Both satisfy [SessionLaws], so what is
    proved of a session holds of them.  A session that ended with a detach is idle. *)

From stdpp Require Import base list strings gmap.
From Stdlib Require Import ZArith NArith Lia Ascii.
From S2P Require Import Prelude PyStr Json Digest Bytes Console ConsoleSession ConsoleCodec ConsoleLife ConsolePrefix Health.
Open Scope string_scope.
Open Scope Z_scope.

Definition DETACH : Z := 36.
Definition DETACH_ACK : Z := 167.
Definition REQUEST : Z := 37.
Definition ACCEPTED : Z := 168.

Definition set_last (s : st) (x : Z * Z * Z) : st :=
  {| st_requests := st_requests s; st_bodies := st_bodies s; st_responses := st_responses s;
     st_accepted := st_accepted s; st_rejected := st_rejected s; st_outputs := st_outputs s;
     st_terminals := st_terminals s; st_pending := st_pending s; st_control := st_control s;
     st_faulted := st_faulted s; st_finished := st_finished s; st_ready := st_ready s; st_last := Some x |}.

(** [self.responses.add(seq); self.finished = True] *)
Definition finish (s : st) (seq : Z) : st :=
  {| st_requests := st_requests s; st_bodies := st_bodies s; st_responses := {[ seq ]} ∪ st_responses s;
     st_accepted := st_accepted s; st_rejected := st_rejected s; st_outputs := st_outputs s;
     st_terminals := st_terminals s; st_pending := st_pending s; st_control := st_control s;
     st_faulted := st_faulted s; st_finished := true; st_ready := st_ready s; st_last := st_last s |}.

(** [max(self.terminals, default=0)] *)
Definition max_terminal (s : st) : Z :=
  match elements (st_terminals s) with [] => 0 | x :: l => foldr Z.max x l end.

(** ** The clean detach *)

Definition detach_validate_request (kind : Z) (body : string) : result unit :=
  if kind =? DETACH then verr (body =? "")%string "DETACH has no payload" else validate_request kind body.

Definition detach_terminal (kind : Z) : bool := in_kinds kind [CONTROL; DETACH].

Definition detach_may_send (s : st) (pending : string) (kind : Z) : result unit :=
  perr (negb ((kind =? DETACH)
              && (match st_pending s with Some _ => true | None => false end || st_faulted s || running s
                  || negb (pending =? "")%string
                  || negb (bool_decide (st_last s = Some (max_terminal s, 0, 0))))))
    "DETACH requires a complete idle session".

(** The inherited check, after which a terminal is remembered.  ([_last_terminal] is
    set after the record, whose failure stops the session; nothing reads it then.) *)
Definition with_last (s : st) (f : wframe) : result (st * option json) :=
  let* r := validate s f in
  if fr_kind f =? EXIT then
    match words32 7 (fr_body f) with
    | [_; flags; _; _; _; dropped; _] => Ok (set_last r.1 (fr_seq f, flags, dropped), r.2)
    | _ => Err PyStructError
    end
  else Ok r.

(** Other requests than commands and detaches are answered. *)
Definition others_answered (s : st) : bool :=
  forallb (λ kv, in_kinds kv.2 [EXEC; DETACH] || bool_decide (kv.1 ∈ st_responses s))
    (map_to_list (st_requests s)).

Definition detach_joined (s : st) (seq : Z) (body : string) : bool :=
  negb (st_finished s) && match st_ready s with Some _ => true | None => false end
  && bool_decide (st_requests s !! seq = Some DETACH) && bool_decide (st_control s = Some seq)
  && bool_decide (seq ∉ st_responses s) && (zlen body =? 32) && negb (st_faulted s) && negb (running s).

Definition detach_idle (s : st) (fields : list Z) : bool :=
  match fields with
  | [identity; disposition; active; blocked; flags; total; dropped; last] =>
      (disposition =? 0) && (active =? 0) && (blocked =? 1) && (flags =? 0) && (dropped =? 0)
      && (identity =? last) && bool_decide (last ∈ st_terminals s) && bool_decide (last ∈ st_accepted s)
      && (last =? max_terminal s) && (total =? (output_of s last).2)
      && bool_decide (st_last s = Some (last, 0, 0)) && others_answered s
  | _ => false
  end.

Definition detach_validate (s : st) (f : wframe) : result (st * option json) :=
  if negb (fr_kind f =? DETACH_ACK) then with_last s f
  else
    do* perr (detach_joined s (fr_seq f) (fr_body f)) "unjoined clean DETACH acknowledgement" in
    let fields := words32 8 (fr_body f) in
    do* perr (detach_idle s fields) "DETACH lacks exact idle terminal state" in
    Ok (finish s (fr_seq f), Some (response_row (fr_seq f) (fr_kind f) fields)).

Definition detach_class : session_class := {|
  sc_validate_request := detach_validate_request;
  sc_terminal_request := detach_terminal;
  sc_may_send := detach_may_send;
  sc_validate := detach_validate
|}.

(** ** The PID1 transition *)

Definition srequire (b : bool) (msg : string) : result unit := Prelude.require b (SessionError msg).

Definition switch_validate_request (kind : Z) (body : string) : result unit :=
  if kind =? REQUEST then srequire (body =? "")%string "fixed transition has no request body"
  else validate_request kind body.

Definition switch_requests : gmap Z Z := <[3 := EXEC]> (<[4 := STATUS]> {[ 5 := REQUEST ]}).

Definition switch_idle (s : st) (seq : Z) (body : string) : bool :=
  negb (st_finished s) && (seq =? 5) && bool_decide (st_requests s = switch_requests)
  && bool_decide (st_accepted s = st_terminals s) && bool_decide (st_terminals s = {[ 3 ]})
  && bool_decide (st_responses s = {[ 3; 4 ]}) && (zlen body =? 32)
  && bool_decide (words32 8 body = [3; 0; 0; 1; 0; zlen STDOUT + zlen STDERR; 0; 3]).

Definition switch_validate (s : st) (f : wframe) : result (st * option json) :=
  if negb (fr_kind f =? ACCEPTED) then detach_validate s f
  else
    do* srequire (switch_idle s (fr_seq f) (fr_body f))
          "PID1 transition lacks exact idle native health and unique terminal acceptance" in
    do* srequire (bool_decide (st_last s = Some (3, 0, 0))) "transition follows a failed command" in
    Ok (finish s (fr_seq f), Some (response_row (fr_seq f) (fr_kind f) (words32 8 (fr_body f)))).

Definition switch_class : session_class := {|
  sc_validate_request := switch_validate_request;
  sc_terminal_request := λ kind, kind =? REQUEST;
  sc_may_send := detach_may_send;
  sc_validate := switch_validate
|}.

(** ** The laws *)

Lemma with_last_inv s f s' r :
  with_last s f = Ok (s', r) → ∃ t, validate s f = Ok (t, r) ∧ same s' t ∧ st_pending s' = st_pending t.
Proof.
  unfold with_last. intros ([t r'] & Hv & Hr)%rbind_Ok. cbn [fst snd] in Hr. exists t.
  destruct (fr_kind f =? EXIT).
  - destruct (words32 7 (fr_body f)) as [|? [|? [|? [|? [|? [|? [|? [|? ?]]]]]]]]; try done.
    injection Hr as <- <-. done.
  - injection Hr as <- <-. split_and!; [done|apply same_refl|done].
Qed.

Lemma with_last_grows s t f s' r :
  grows s t → with_last s f = Ok (s', r) → follows (with_last t f) s' r.
Proof.
  intros Hg. unfold with_last, follows. intros ([u q] & Hv & Hr)%rbind_Ok.
  destruct (validate_grows _ _ _ _ _ Hg Hv) as (v & -> & Hg'). cbn [rbind fst snd] in *.
  destruct (fr_kind f =? EXIT).
  - destruct (words32 7 (fr_body f)) as [|? [|? [|? [|? [|? [|? [|? [|? ?]]]]]]]]; try done.
    injection Hr as <- <-. eexists. split; [done|]. destruct Hg'. by split.
  - injection Hr as <- <-. by eexists.
Qed.

Lemma running_idle s : negb (running s) = true → running s = false.
Proof. apply negb_true_iff. Qed.

(** Ending a session is a step of the machine. *)
Lemma finish_moved s f q :
  st_finished s = false → (is_Some (st_ready s) ∨ ∃ n, n ∈ st_responses s) →
  st_requests s !! fr_seq f = Some q → q ≠ EXEC → fr_seq f ∉ st_responses s → fr_kind f ≠ READY →
  running s = false → moved s f (finish s (fr_seq f)).
Proof.
  intros Hf Hr Hq Hne Hn Hk Hrun. split_and!; [done|by right|].
  exists (answer (set_finished s) (fr_seq f)). split; [|by split].
  destruct f as [k n b]. by eapply m_finish.
Qed.

Lemma with_last_moved s f s' r : with_last s f = Ok (s', r) → moved s f s'.
Proof.
  intros (t & Hv%validate_machine & Hs & _)%with_last_inv. destruct Hv as (Hf & Hr & u & Hm & Hs').
  split_and!; [done..|]. exists u. split; [done|]. destruct Hs, Hs'. split; congruence.
Qed.
Lemma with_last_settled s f s' r : with_last s f = Ok (s', r) → settled s s'.
Proof.
  intros (t & Hv%validate_settled & Hs & Hp)%with_last_inv. unfold settled in *.
  by rewrite Hp, (same_responses _ _ Hs).
Qed.

Lemma detach_ack s f s' r :
  fr_kind f = DETACH_ACK → detach_validate s f = Ok (s', r) →
  s' = finish s (fr_seq f) ∧ detach_joined s (fr_seq f) (fr_body f) = true
  ∧ detach_idle s (words32 8 (fr_body f)) = true
  ∧ r = Some (response_row (fr_seq f) (fr_kind f) (words32 8 (fr_body f))).
Proof.
  intros Hk. unfold detach_validate. rewrite Hk. cbn [Z.eqb Pos.eqb negb DETACH_ACK].
  intros ([] & H1%require_Ok & Hr)%rbind_Ok. apply rbind_Ok in Hr as ([] & H2%require_Ok & [= <- <-]). done.
Qed.
Lemma detach_other s f : fr_kind f ≠ DETACH_ACK → detach_validate s f = with_last s f.
Proof. intros Hk. unfold detach_validate. by replace (fr_kind f =? DETACH_ACK) with false by lia. Qed.

Lemma detach_moved s f s' r : detach_validate s f = Ok (s', r) → moved s f s'.
Proof.
  destruct (decide (fr_kind f = DETACH_ACK)) as [Hk|Hk]; [|rewrite detach_other by done; apply with_last_moved].
  intros (-> & Hj & _)%detach_ack; [|done]. unfold detach_joined in Hj. bsimp.
  eapply finish_moved; [done| |done|done|done|by rewrite Hk|done].
  left. by destruct (st_ready s); [eexists|].
Qed.
Lemma detach_settled s f s' r : detach_validate s f = Ok (s', r) → settled s s'.
Proof.
  destruct (decide (fr_kind f = DETACH_ACK)) as [Hk|Hk]; [|rewrite detach_other by done; apply with_last_settled].
  intros (-> & _)%detach_ack; [|done]. by left.
Qed.

Lemma grows_max s t : grows s t → max_terminal t = max_terminal s.
Proof. intros Hg. unfold max_terminal. by rewrite (gr_terminals _ _ Hg). Qed.

Lemma detach_grows s t f s' r :
  grows s t → detach_validate s f = Ok (s', r) → follows (detach_validate t f) s' r.
Proof.
  intros Hg. destruct (decide (fr_kind f = DETACH_ACK)) as [Hk|Hk].
  2: { rewrite !detach_other by done. by apply with_last_grows. }
  intros (-> & Hj & Hi & ->)%detach_ack; [|done].
  assert (Hc : st_control s = Some (fr_seq f)) by (unfold detach_joined in Hj; bsimp; done).
  destruct (gr_control _ _ Hg _ Hc) as (Ec & Er & Eb).
  assert (Hj' : detach_joined t (fr_seq f) (fr_body f) = true).
  { rewrite <- Hj. unfold detach_joined. rewrite (grows_running _ _ Hg), Er, Ec, Hc.
    by rewrite (gr_finished _ _ Hg), (gr_ready _ _ Hg), (gr_responses _ _ Hg), (gr_faulted _ _ Hg). }
  assert (Hi' : detach_idle t (words32 8 (fr_body f)) = true).
  { rewrite <- Hi. unfold detach_idle, others_answered.
    destruct (words32 8 (fr_body f)) as [|? [|? [|? [|? [|? [|? [|? [|? [|? ?]]]]]]]]]; try done.
    rewrite (grows_max _ _ Hg), (grows_output _ _ Hg), Er.
    by rewrite (gr_terminals _ _ Hg), (gr_accepted _ _ Hg), (gr_last _ _ Hg), (gr_responses _ _ Hg). }
  exists (finish t (fr_seq f)). split; [|split; cbn; try apply Hg; by rewrite ?(gr_responses _ _ Hg)].
  unfold detach_validate. replace (fr_kind f =? DETACH_ACK) with true by lia. by rewrite Hj', Hi'.
Qed.

Lemma detach_request_kind kind body :
  detach_validate_request kind body = Ok tt → kind ∈ DETACH :: root_kinds.
Proof.
  unfold detach_validate_request. destruct (kind =? DETACH) eqn:E; [apply Z.eqb_eq in E as ->; by left|].
  intros Hk%request_kind. by right.
Qed.
Lemma small_kinds kind l : kind ∈ l → forallb (λ k, (0 <=? k) && (k <? 256)) l = true → 0 ≤ kind < 256.
Proof.
  intros Hin Hall. apply list_elem_of_In in Hin. rewrite forallb_forall in Hall. specialize (Hall _ Hin). lia.
Qed.

#[export] Instance detach_laws : SessionLaws detach_class.
Proof.
  split.
  - apply detach_moved.
  - apply detach_settled.
  - intros s t f s' r _. apply detach_grows.
  - intros kind body Hk%detach_request_kind. by eapply small_kinds.
Qed.

Lemma switch_accepted s f s' r :
  fr_kind f = ACCEPTED → switch_validate s f = Ok (s', r) →
  s' = finish s (fr_seq f) ∧ switch_idle s (fr_seq f) (fr_body f) = true ∧ st_last s = Some (3, 0, 0)
  ∧ r = Some (response_row (fr_seq f) (fr_kind f) (words32 8 (fr_body f))).
Proof.
  intros Hk. unfold switch_validate. rewrite Hk. cbn [Z.eqb Pos.eqb negb ACCEPTED].
  intros ([] & H1%require_Ok & Hr)%rbind_Ok. apply rbind_Ok in Hr as ([] & H2%require_Ok & [= <- <-]).
  by apply bool_decide_eq_true in H2.
Qed.
Lemma switch_other s f : fr_kind f ≠ ACCEPTED → switch_validate s f = detach_validate s f.
Proof. intros Hk. unfold switch_validate. by replace (fr_kind f =? ACCEPTED) with false by lia. Qed.

Lemma switch_idle_inv s seq body :
  switch_idle s seq body = true →
  st_finished s = false ∧ seq = 5 ∧ st_requests s = switch_requests ∧ st_accepted s = st_terminals s
  ∧ st_responses s = {[ 3; 4 ]}.
Proof. unfold switch_idle. intros Hi. bsimp. done. Qed.

Lemma switch_moved s f s' r : switch_validate s f = Ok (s', r) → moved s f s'.
Proof.
  destruct (decide (fr_kind f = ACCEPTED)) as [Hk|Hk]; [|rewrite switch_other by done; apply detach_moved].
  intros (-> & Hi & _)%switch_accepted; [|done]. apply switch_idle_inv in Hi as (Hf & Hq & Hr & Ha & Hres).
  eapply (finish_moved _ _ REQUEST); rewrite ?Hq, ?Hr, ?Hres, ?Hk; try done.
  - right. exists 3. rewrite elem_of_union, !elem_of_singleton. by left.
  - apply running_false. by rewrite Ha.
Qed.
Lemma switch_settled s f s' r : switch_validate s f = Ok (s', r) → settled s s'.
Proof.
  destruct (decide (fr_kind f = ACCEPTED)) as [Hk|Hk]; [|rewrite switch_other by done; apply detach_settled].
  intros (-> & _)%switch_accepted; [|done]. by left.
Qed.

Lemma switch_grows s t f s' r :
  joined switch_class s → grows s t → switch_validate s f = Ok (s', r) → follows (switch_validate t f) s' r.
Proof.
  intros Hj Hg. destruct (decide (fr_kind f = ACCEPTED)) as [Hk|Hk].
  2: { rewrite !switch_other by done. by apply detach_grows. }
  intros (-> & Hi & Hl & ->)%switch_accepted; [|done].
  assert (Hc : st_control s = Some 5).
  { apply (Hj 5 REQUEST); [|done]. by apply switch_idle_inv in Hi as (_ & _ & -> & _). }
  destruct (gr_control _ _ Hg _ Hc) as (_ & Er & _).
  assert (Hi' : switch_idle t (fr_seq f) (fr_body f) = true).
  { rewrite <- Hi. unfold switch_idle. rewrite Er.
    by rewrite (gr_finished _ _ Hg), (gr_accepted _ _ Hg), (gr_terminals _ _ Hg), (gr_responses _ _ Hg). }
  exists (finish t (fr_seq f)). split; [|split; cbn; try apply Hg; by rewrite ?(gr_responses _ _ Hg)].
  unfold switch_validate. replace (fr_kind f =? ACCEPTED) with true by lia.
  by rewrite Hi', (gr_last _ _ Hg), Hl.
Qed.

#[export] Instance switch_laws : SessionLaws switch_class.
Proof.
  split; [apply switch_moved|apply switch_settled|apply switch_grows|].
  intros kind body Hk. cbn in Hk. unfold switch_validate_request in Hk.
  destruct (kind =? REQUEST) eqn:E; [apply Z.eqb_eq in E as ->; unfold REQUEST; lia|].
  apply request_kind in Hk. by eapply small_kinds.
Qed.

(** ** After a clean detach *)

(** Nothing of the session is left open, and its last command ended well. *)
Record idle (s : st) : Prop := {
  id_answered : ∀ n k, st_requests s !! n = Some k → n ∈ st_responses s;
  id_terminals : st_accepted s ⊆ st_terminals s;
  id_fault : st_faulted s = false;
  id_pending : st_pending s = None;
  id_last : ∃ n, st_last s = Some (n, 0, 0) ∧ n = max_terminal s ∧ n ∈ st_accepted s ∩ st_terminals s
}.

(** A validation of another kind ends no session but with CONTROL. *)
Lemma validate_finishes s f s' r :
  validate s f = Ok (s', r) → st_finished s' = true →
  st_requests s !! fr_seq f = Some CONTROL ∧ fr_kind f = CONTROL_ACK.
Proof.
  unfold validate. intros ([] & Hf%require_Ok%negb_true_iff & Hv)%rbind_Ok.
  destruct (fr_kind f =? READY).
  { unfold on_ready in Hv. apply rbind_Ok in Hv as ([] & _ & Hv). apply rbind_Ok in Hv as ([] & _ & [= <- <-]).
    cbn. congruence. }
  apply rbind_Ok in Hv as ([] & _ & Hv). destruct (st_requests s !! fr_seq f) as [q|] eqn:Eq; [|done].
  destruct (fr_kind f =? OUTPUT).
  { unfold on_output in Hv. apply rbind_Ok in Hv as ([] & _ & Hv).
    destruct (words32 3 _) as [|? [|? [|? [|? ?]]]]; try done. cbv zeta in Hv.
    apply rbind_Ok in Hv as ([] & _ & Hv). apply rbind_Ok in Hv as ([] & _ & Hv).
    apply rbind_Ok in Hv as ([] & _ & [= <- <-]). cbn. congruence. }
  destruct (fr_kind f =? EXIT).
  { unfold on_exit in Hv. apply rbind_Ok in Hv as ([] & _ & Hv).
    destruct (words32 7 _) as [|? [|? [|? [|? [|? [|? [|? [|? ?]]]]]]]]; try done.
    apply rbind_Ok in Hv as ([] & _ & Hv). apply rbind_Ok in Hv as ([] & _ & Hv).
    apply rbind_Ok in Hv as (s1 & H1 & [= <- <-]). cbn. destruct (bool_decide _); [by injection H1 as <-; congruence|].
    apply rbind_Ok in H1 as ([] & _ & H1). apply rbind_Ok in H1 as ([] & _ & [= <-]). cbn. congruence. }
  destruct (in_kinds _ _).
  { unfold on_ack in Hv. apply rbind_Ok in Hv as (e & He & Hv). apply rbind_Ok in Hv as ([] & Hk%require_Ok & Hv).
    apply rbind_Ok in Hv as ([] & _ & Hv).
    destruct (words32 8 (fr_body f)) as [|? [|? [|? [|? [|? [|? [|? [|? [|? ?]]]]]]]]]; try done.
    apply rbind_Ok in Hv as ([] & _ & Hv). apply rbind_Ok in Hv as (s1 & Hd & Hv).
    apply rbind_Ok in Hv as ([] & _ & [= <- <-]). destruct (q =? CONTROL) eqn:Ec.
    { apply Z.eqb_eq in Ec. subst q. injection He as <-. bsimp. done. }
    cbn. apply disposition_machine in Hd as [[_ [[-> _]| ->]]|[_ ->]]; cbn; congruence. }
  destruct (fr_kind f =? FAULT); [|done].
  unfold on_fault in Hv. apply rbind_Ok in Hv as ([] & _ & [= <- <-]). cbn. congruence.
Qed.

Lemma detach_idle_state s f s' r :
  fr_kind f = DETACH_ACK → detach_validate s f = Ok (s', r) → st_pending s = None →
  (∀ n k, st_requests s !! n = Some k → n ∉ st_responses s → st_pending s = Some n ∨ st_control s = Some n) →
  idle s'.
Proof.
  intros Hk (-> & Hj & Hi & _)%detach_ack Hp Hopen; [|done].
  unfold detach_joined in Hj. unfold detach_idle in Hi. bsimp.
  destruct (words32 8 (fr_body f)) as [|? [|? [|? [|? [|? [|? [|? [|n [|? ?]]]]]]]]]; try done. bsimp.
  split; cbn; try done.
  - intros m k Hm. destruct (decide (m ∈ st_responses s)) as [?|Hn]; [set_solver|].
    destruct (Hopen m k Hm Hn) as [?|?]; [congruence|]. assert (m = fr_seq f) by congruence. set_solver.
  - by apply running_false.
  - exists n. split_and!; [done|done|set_solver].
Qed.

(** Whether the session was ended by a detach *)
Definition detaching (s : st) : Prop := ∃ n, st_control s = Some n ∧ st_requests s !! n = Some DETACH.

Lemma detach_pending evs s : history detach_class true evs s → detaching s → st_pending s = None.
Proof.
  induction 1 as [|evs s f Hh IH Hq Hc Hw|evs s f s' r Hh IH Hv]; intros (n & Hn & Hr).
  - done.
  - cbn [note_request st_control st_requests st_pending sc_terminal_request detach_class] in *.
    destruct (detach_terminal (fr_kind f)) eqn:Et; [|congruence]. injection Hn as <-.
    rewrite lookup_insert_eq in Hr. injection Hr as Hr. cbn. destruct Hw as [Hw|Hw]; [|done].
    unfold CONTROL, DETACH in *. congruence.
  - cbn [sc_validate detach_class] in Hv. destruct (moved_keeps _ _ _ (detach_moved _ _ _ _ Hv)) as (E1 & _ & E3).
    destruct (detach_settled _ _ _ _ Hv) as [->|[-> _]]; [|done]. apply IH. exists n. by rewrite <- E1, <- E3.
Qed.

Lemma detach_finished evs s :
  history detach_class true evs s → st_finished s = true → is_Some (st_control s).
Proof.
  induction 1 as [|evs s f Hh IH Hq Hc Hw|evs s f s' r Hh IH Hv]; intros Hf; [done|cbn in *|].
  - destruct (IH Hf) as [n Hn]. congruence.
  - cbn [sc_validate detach_class] in Hv. destruct (moved_keeps _ _ _ (detach_moved _ _ _ _ Hv)) as (_ & _ & ->).
    destruct (decide (fr_kind f = DETACH_ACK)) as [Hk|Hk].
    + apply detach_ack in Hv as (_ & Hj & _); [|done]. unfold detach_joined in Hj. bsimp. by eexists.
    + rewrite detach_other in Hv by done. apply with_last_inv in Hv as (t & Hv & Hs & _).
      rewrite (same_finished _ _ Hs) in Hf. destruct (validate_finishes _ _ _ _ Hv Hf) as [Hctl _].
      pose proof (history_joined _ _ _ _ Hh _ _ Hctl eq_refl). by eexists.
Qed.

Lemma detach_history_idle evs s :
  history detach_class true evs s → st_finished s = true → detaching s → idle s.
Proof.
  intros Hh. destruct Hh as [|evs s f Hh Hq Hc Hw|evs s f s' r Hh Hv]; intros Hf Hd.
  - done.
  - cbn in Hf. destruct (detach_finished _ _ Hh Hf) as [n Hn]. congruence.
  - cbn [sc_validate detach_class] in Hv.
    destruct (moved_keeps _ _ _ (detach_moved _ _ _ _ Hv)) as (E1 & _ & E3).
    assert (Hd0 : detaching s) by (destruct Hd as (n & Hn & Hr); exists n; by rewrite <- E1, <- E3).
    destruct (decide (fr_kind f = DETACH_ACK)) as [Hk|Hk].
    + eapply detach_idle_state; [done|done|by eapply detach_pending|].
      intros n k Hn Hr. by eapply (history_pending detach_class true).
    + exfalso. rewrite detach_other in Hv by done. apply with_last_inv in Hv as (t & Hv & Hs & _).
      rewrite (same_finished _ _ Hs) in Hf. destruct (validate_finishes _ _ _ _ Hv Hf) as [Hctl _].
      pose proof (history_joined _ _ _ _ Hh _ _ Hctl eq_refl) as Hj.
      destruct Hd0 as (n & Hn & Hr). assert (n = fr_seq f) by congruence. subst n.
      rewrite Hctl in Hr. unfold CONTROL, DETACH in Hr. congruence.
Qed.

(** The last response of a finished session is the acknowledgement of its ending. *)
Lemma detach_last evs s pre f :
  history detach_class true evs s → st_finished s = true → resps evs = (pre ++ [f])%list →
  fr_kind f = CONTROL_ACK ∨ fr_kind f = DETACH_ACK.
Proof.
  intros Hh. induction Hh as [|evs s g Hh IH Hq Hc Hw|evs s g s' r Hh IH Hv]; intros Hf He; [done| |].
  - rewrite resps_req in He. by apply IH.
  - rewrite resps_app in He. cbn [resps omap list_omap] in He. apply app_inj_tail in He as [_ ->].
    cbn [sc_validate detach_class] in Hv. destruct (decide (fr_kind f = DETACH_ACK)) as [Hk|Hk]; [by right|left].
    rewrite detach_other in Hv by done. apply with_last_inv in Hv as (t & Hv & Hs & _).
    rewrite (same_finished _ _ Hs) in Hf. by apply (validate_finishes _ _ _ _ Hv Hf).
Qed.

(** A detached session has no request without an answer. *)
Lemma idle_answered s : idle s → unanswered s = false.
Proof.
  intros Hi. unfold unanswered. apply not_true_is_false. intros ([n k] & Hin & Hb)%existsb_exists. cbn in Hb.
  apply list_elem_of_In, elem_of_map_to_list in Hin. bsimp. by apply (id_answered _ Hi) in Hin.
Qed.
