(* ===== verification/ConsoleProps.v ===== *)
(** * Properties of the root console

    The decoder, the lifecycle of commands, what a session sends and records, the
    replay of its streams and the clean detach.

    A session that runs one command and ends it with CONTROL, one that detaches, a
    frame with a changed payload, and streams that the diagnostic replay reads are
    evaluated with the cheap digest: they are the witnesses of the theorems. *)

From stdpp Require Import base list strings gmap.
From Stdlib Require Import ZArith NArith Lia Ascii.
From S2P Require Import Prelude PyStr Json Digest Bytes Console ConsoleSession ConsoleCodec ConsoleLife ConsoleReplay ConsolePrefix ConsoleKinds.
Open Scope string_scope.
Open Scope Z_scope.

#[local] Arguments ConsoleCodec.wire : simpl never.

(** ** The decoder *)

(** C19. Fed a stream in any pieces, the decoder returns exactly the frames that [frame]
    encodes and the stream is made of, and keeps what waits for more bytes. *)
Theorem decoder_exact `{Digest} i (Hi : ident_ok i = true) :
  (∀ pieces fs q, feeds i pieces = Ok (fs, q)
     ↔ stream_bytes pieces = wires i fs ++ q ∧ Forall encodable fs ∧ stuck q)
  ∧ ∀ f w, frame i (fr_seq f) (fr_kind f) (fr_body f) = Ok w ↔ encodable f ∧ w = wire i f.
Proof.
  split.
  - intros pieces fs q. unfold feeds. split.
    + intros Hf. destruct (feeds_sound i Hi pieces [] "" fs q Hf stuck_nil) as (fs' & -> & He & ? & ?). done.
    + intros (He & Hall & Hq). destruct (feeds_complete i Hi pieces [] "" fs q He Hall Hq) as [->|[-> Hne]]; [done|].
      destruct fs as [|f fs]; [done|]. exfalso. apply (f_equal String.length) in He. cbn [stream_bytes wires] in He.
      rewrite !str_length_app, (wire_length i) in He. cbn in He. lia.
  - intros f w. split.
    + intros Hw. destruct f as [k s b]. by apply frame_inv in Hw as [-> ?].
    + intros [Hf ->]. by apply frame_wire.
Qed.

(** A frame whose payload was changed in a few adjacent bytes *)
Definition corrupted `{Digest} (i : ident) (f : wframe) (a w b : string) : string :=
  header i f ++ le 4 (Z.of_N (crc32 (header i f ++ payload i f))) ++ a ++ w ++ b.

(** A frame whose payload differs in up to four adjacent bytes is refused by its CRC,
    and the bytes after it are kept. *)
Theorem corrupt_payload_refused `{Digest} i f a w w' b rest :
  encodable f → payload i f = a ++ w ++ b →
  String.length w' = String.length w → (String.length w ≤ 4)%nat → w' ≠ w →
  feed i "" (corrupted i f a w' b ++ rest) = (Err (ProtocolError "frame CRC mismatch"), rest).
Proof. exact (corrupted_refused i f a w w' b rest). Qed.

(** ** Commands *)

Section Runs.
Context `{Digest}.
Variable i : ident.
Hypothesis Hi : ident_ok i = true.
Context (c : session_class) `{!SessionLaws c}.

(** C11. Whatever the device and the owner do, only issued commands are accepted, rejected
    or finished; none is both accepted and rejected; at most one runs at a time, none
    after the session finished; nothing is answered before READY. *)
Theorem command_lifecycle faults acts :
  let s := lv_st (run i c faults acts) in
  (∀ n, n ∈ st_accepted s ∪ st_rejected s ∪ st_terminals s → st_requests s !! n = Some EXEC ∧ n ∈ st_responses s)
  ∧ (st_accepted s ∪ st_terminals s) ## st_rejected s
  ∧ (∀ a b, a ∈ st_accepted s ∖ st_terminals s → b ∈ st_accepted s ∖ st_terminals s → a = b)
  ∧ (st_finished s = true → st_accepted s ⊆ st_terminals s)
  ∧ (∀ n, n ∈ st_responses s → is_Some (st_ready s) ∧ is_Some (st_requests s !! n)).
Proof.
  intros s. destruct (run_inv i Hi c faults acts) as [evs Hinv]. fold s.
  pose proof (iv_history _ _ _ _ Hinv) as Hh. fold s in Hh. destruct (history_wf _ _ _ _ Hh).
  split_and!; try done.
  - intros n Hn. split; [by apply wf_exec|set_solver].
  - intros n Hn. split; [by eapply history_ready|by apply wf_asked].
Qed.

(** The responses of one command, with their headers and tags, never exceed
    [MAX_COMMAND_RX_BYTES], however the device behaves. *)
Theorem command_bytes_bounded faults acts n :
  let l := run i c faults acts in
  st_requests (lv_st l) !! n = Some EXEC →
  ∃ fs rest, lv_rx l = wires i fs ++ rest ∧ (lv_stopped l = false → rest = lv_pending l)
    ∧ cost n fs ≤ MAX_COMMAND_RX_BYTES.
Proof.
  intros l Hn. destruct (run_inv i Hi c faults acts) as [evs Hinv]. fold l in Hinv.
  pose proof (iv_history _ _ _ _ Hinv) as Hh. destruct (iv_rx _ _ _ _ Hinv) as (rest & Erx & Hrest).
  exists (resps evs), rest. split_and!; [done|intros Hs; by apply Hrest|].
  pose proof (history_cost _ _ _ _ _ Hh Hn). pose proof (allowance_bound (lv_st l) n (history_wf _ _ _ _ Hh)). lia.
Qed.

(** C18. Every byte a session puts on the wire is of requests numbered from three, each
    with its body and its intent recorded first; at most the last one ends the session;
    and a stopped session sends nothing more. *)
Theorem sends_recorded faults acts :
  let l := run i c faults acts in
  (∃ fs rest, wires i fs = lv_wire l ++ rest ∧ (lv_stopped l = false → rest = "" ∧ lv_tx l = lv_wire l)
     ∧ Forall (recorded l) fs ∧ Forall (sound c) fs ∧ (∀ k f, fs !! k = Some f → fr_seq f = 3 + Z.of_nat k)
     ∧ ∀ k f, fs !! k = Some f → sc_terminal_request c (fr_kind f) = true → S k = length fs)
  ∧ (lv_stopped l = true → ∀ acts', lv_wire (foldl (step i c) l acts') = lv_wire l).
Proof.
  intros l. split; [|apply stopped_silent].
  destruct (run_inv i Hi c faults acts) as [evs Hinv]. fold l in Hinv.
  pose proof (iv_history _ _ _ _ Hinv) as Hh.
  destruct (iv_wire _ _ _ _ Hinv) as (rest & Hw & Hz). destruct (iv_tx _ _ _ _ Hinv) as (rest' & Ht & Hz').
  exists (reqs evs), rest. split_and!; [done| |apply Hinv|apply Hinv| |].
  - intros Hs. split; [by apply Hz|]. by rewrite Ht, (Hz' Hs), str_app_nil.
  - intros k f. by apply (history_numbered _ _ _ _ k f Hh).
  - intros k f. by apply (history_terminal_last _ _ _ _ k f Hh).
Qed.

(** C10. The replay of the streams of a finished session reaches its state and its frames;
    it refuses them only when a request other than a command has no answer. *)
Theorem replay_agrees faults acts :
  let l := run i c faults acts in
  lv_stopped l = false → st_finished (lv_st l) = true →
  ∃ s fs, same s (lv_st l) ∧ lv_rx l = wires i fs
    ∧ replay i c (lv_rx l) (lv_tx l)
      = if unanswered (lv_st l) then Err (ProtocolError "unanswered retained normal request") else Ok (s, fs).
Proof.
  intros l Hs Hf. destruct (run_inv i Hi c faults acts) as [evs Hinv]. fold l in Hinv.
  destruct (replay_inv i Hi c evs l Hinv Hs Hf) as (s & Hsame & Hrx & Hr).
  exists s, (resps evs). rewrite Hr. by destruct (unanswered (lv_st l)).
Qed.
End Runs.

(** ** The diagnostic replay *)

(** C40. Within its bounds the diagnostic replay of a root console never raises: it returns
    the state of complete frames at the head of each stream; and where the complete
    replay succeeds it finds the same state, all the bytes and no tail. *)
Theorem prefix_never_raises `{Digest} i (Hi : ident_ok i = true) rx tx :
  zlen rx ≤ RAW_CAPTURE_MAXIMUM → zlen tx ≤ 65536 →
  (∃ s fs gs q r v, replay_prefix i root_class rx tx = Ok (s, gs, v)
     ∧ (Forall encodable fs ∧ tx = wires i fs ++ q ∧ Forall encodable gs ∧ rx = wires i gs ++ r)
     ∧ ∃ s1, replay_requests root_class 3 st0 fs = Ok s1 ∧ replay_responses root_class s1 gs = Ok s)
  ∧ ∀ s fs, replay i root_class rx tx = Ok (s, fs) →
      replay_prefix i root_class rx tx = Ok (s, fs, whole_report rx tx).
Proof.
  intros Hr Ht. split.
  - apply (replay_prefix_cases i Hi root_class root_kinds rx tx Hr Ht).
  - intros s fs. by apply (replay_prefix_whole i Hi root_class).
Qed.

(** ** The clean detach *)

(** A session that finished with a detach is idle: every request is answered, every
    accepted command has its terminal, nothing is pending or faulted, and the last
    command ended with clean flags and nothing dropped. *)
Theorem detach_is_idle `{Digest} i (Hi : ident_ok i = true) faults acts :
  let s := lv_st (run i detach_class faults acts) in
  st_finished s = true → detaching s → idle s.
Proof.
  intros s Hf Hd. destruct (run_inv i Hi detach_class faults acts) as [evs Hinv].
  by apply (detach_history_idle evs), Hd; [apply Hinv|].
Qed.

(** ** A diagnostic replay that raises *)

Definition ready_fields : list Z := [1; 600000; 300000; 1048576; 767; 255; 0; 0].

(** The diagnostic replay of a session that can detach raises: an authenticated
    acknowledgement of kind [ACK] for a DETACH request is a [KeyError], which is not
    turned into a tail. *)
Theorem detach_prefix_raises `{Digest} i (Hi : ident_ok i = true) :
  replay_prefix i detach_class (wires i [Fr READY 2 (unwords32 ready_fields); Fr ACK 3 ""]) (wires i [Fr DETACH 3 ""])
  = Err (PyKeyError "request").
Proof.
  set (ready := Fr READY 2 (unwords32 ready_fields)). set (ack := Fr ACK 3 ""). set (detach := Fr DETACH 3 "").
  assert (Er : encodable ready) by (vm_compute; split_and!; congruence).
  assert (Ea : encodable ack) by (vm_compute; split_and!; congruence).
  assert (Ed : encodable detach) by (vm_compute; split_and!; congruence).
  assert (Hlen : ∀ f, zlen (wire i f) = 48 + zlen (fr_body f)).
  { intros f. unfold zlen. rewrite (wire_length i). unfold payload. rewrite str_length_app, (signature_length i). lia. }
  unfold replay_prefix, prefix_stream.
  assert (Hz : (zlen (wires i [ready; ack]) <=? RAW_CAPTURE_MAXIMUM) && (zlen (wires i [detach]) <=? 65536) = true).
  { cbn [wires]. rewrite !zlen_app, !Hlen. reflexivity. }
  rewrite Hz. cbn [perr Prelude.require rbind].
  rewrite (prefix_loop_complete i Hi detach_class _ true [detach] 0 3 st0 []
    (note_request detach_class false st0 DETACH 3 "")) by (try done; try lia; by apply Forall_singleton).
  cbn [rbind pe_st ends]. rewrite <- (str_app_nil (wires i [ready; ack])).
  rewrite (prefix_loop_raises i Hi detach_class _ [ready] ack "" 0 3 _ []
    (set_ready (note_request detach_class false st0 DETACH 3 "") ready_fields) (PyKeyError "request"));
    try done; [by apply Forall_singleton|apply Nat.lt_succ_diag_r].
Qed.

(** ** The root console evaluated *)

#[local] Existing Instance checksum_digest.

Fixpoint repeat_char (n : nat) (c : ascii) : string := match n with O => "" | S n' => String c (repeat_char n' c) end.

Definition lab : ident :=
  {| id_key := repeat_char 32 "k"; id_run := repeat_char 16 "r"; id_nonce := repeat_char 32 "n" |}.

(** ** Responses *)

Definition ready_frame : wframe := Fr READY 2 (unwords32 [1; 600000; 300000; 1048576; 767; 255; 0; 0]).
Definition accepted_frame (n : Z) : wframe := Fr ACK n (unwords32 [n; 0; 1; 0; 0; 0; 0; 0]).
Definition output_frame (n ordinal stream : Z) (data : string) : wframe := Fr OUTPUT n (unwords32 [n; ordinal; stream] ++ data).
Definition exit_frame (n total frames : Z) : wframe := Fr EXIT n (unwords32 [n; 0; 0; 0; total; 0; frames]).
Definition supervisor (last total : Z) (blocked : bool) : string :=
  unwords32 [last; 0; 0; if blocked then 1 else 0; 0; total; 0; last].

(** ** A session *)

Definition sending (kind : Z) (body : string) : act :=
  ASend kind body 0 2 [{| wt_now := 0; wt_guard := None; wt_write := Blocked |};
                       {| wt_now := 1; wt_guard := None; wt_write := Wrote 20 |};
                       {| wt_now := 1; wt_guard := None; wt_write := Wrote 2000 |}].
Definition hearing (fs : list wframe) : act := APoll (RData (wires lab fs)).
Definition id_body : string := match command "id" "/" 1000 with Ok b => b | Err _ => "" end.

Definition one_command (ending ack : Z) : list act :=
  [hearing [ready_frame]; sending EXEC id_body; APoll RBlocked;
   hearing [accepted_frame 3; output_frame 3 1 1 "uid=0"]; hearing [exit_frame 3 5 1];
   sending ending ""; hearing [Fr ack 4 (supervisor 3 5 true)]].

Notation controlled := (run lab root_class None (one_command CONTROL CONTROL_ACK)).
Notation detached := (run lab detach_class None (one_command DETACH DETACH_ACK)).
Notation cut := (run lab root_class (Some 5%nat) (one_command CONTROL CONTROL_ACK)).

(** Hypotheses are evaluated, and the theorem's conclusion is used as it stands. *)
Ltac evaluated := vm_compute; reflexivity.

Lemma decoder_exact_witness :
  ident_ok lab = true ∧ ∀ fs q, feeds lab ["S328"; "rest"] = Ok (fs, q)
    ↔ stream_bytes ["S328"; "rest"] = wires lab fs ++ q ∧ Forall encodable fs ∧ stuck q.
Proof. split; [reflexivity|]. exact (proj1 (decoder_exact lab eq_refl) ["S328"; "rest"]). Defined.

(** A command acknowledged with another last word *)
Lemma corrupt_payload_refused_witness :
  feed lab "" (corrupted lab (accepted_frame 3) (unwords32 [3; 0; 1; 0; 0; 0; 0]) (unwords32 [7])
                 (signature lab (accepted_frame 3)) ++ "next")
  = (Err (ProtocolError "frame CRC mismatch"), "next").
Proof.
  apply (corrupt_payload_refused lab (accepted_frame 3) (unwords32 [3; 0; 1; 0; 0; 0; 0]) (unwords32 [0]) (unwords32 [7])
           (signature lab (accepted_frame 3)) "next").
  - vm_compute. split_and!; congruence.
  - vm_compute. reflexivity.
  - vm_compute. reflexivity.
  - vm_compute. lia.
  - vm_compute. congruence.
Defined.

Lemma command_lifecycle_witness :
  ident_ok lab = true ∧ bool_decide (st_accepted (lv_st controlled) = {[ 3 ]}) = true
  ∧ ∀ a b, a ∈ st_accepted (lv_st controlled) ∖ st_terminals (lv_st controlled) →
           b ∈ st_accepted (lv_st controlled) ∖ st_terminals (lv_st controlled) → a = b.
Proof.
  split; [reflexivity|]. split; [vm_compute; reflexivity|].
  pose proof (command_lifecycle lab eq_refl root_class None (one_command CONTROL CONTROL_ACK)) as Hl.
  cbv zeta in Hl. exact (proj1 (proj2 (proj2 Hl))).
Defined.

Lemma command_bytes_bounded_witness :
  st_requests (lv_st controlled) !! 3 = Some EXEC
  ∧ ∃ fs rest, lv_rx controlled = wires lab fs ++ rest ∧ (lv_stopped controlled = false → rest = lv_pending controlled)
      ∧ cost 3 fs ≤ MAX_COMMAND_RX_BYTES.
Proof.
  pose proof (command_bytes_bounded lab eq_refl root_class None (one_command CONTROL CONTROL_ACK) 3) as Hb.
  cbv zeta in Hb. assert (Hr : st_requests (lv_st controlled) !! 3 = Some EXEC) by evaluated.
  exact (conj Hr (Hb Hr)).
Defined.

Lemma sends_recorded_witness :
  lv_stopped cut = true
  ∧ ∀ acts', lv_wire (foldl (step lab root_class) cut acts')
             = lv_wire cut.
Proof.
  pose proof (sends_recorded lab eq_refl root_class (Some 5%nat) (one_command CONTROL CONTROL_ACK)) as Hs.
  cbv zeta in Hs. assert (Hc : lv_stopped cut = true) by evaluated. exact (conj Hc (proj2 Hs Hc)).
Defined.

Lemma replay_agrees_witness :
  lv_stopped controlled = false ∧ st_finished (lv_st controlled) = true ∧ unanswered (lv_st controlled) = false
  ∧ ∃ s fs, same s (lv_st controlled) ∧ lv_rx controlled = wires lab fs
      ∧ replay lab root_class (lv_rx controlled) (lv_tx controlled)
        = if unanswered (lv_st controlled) then Err (ProtocolError "unanswered retained normal request") else Ok (s, fs).
Proof.
  pose proof (replay_agrees lab eq_refl root_class None (one_command CONTROL CONTROL_ACK)) as Hr. cbv zeta in Hr.
  assert (Hs : lv_stopped controlled = false) by evaluated.
  assert (Hf : st_finished (lv_st controlled) = true) by evaluated.
  assert (Hu : unanswered (lv_st controlled) = false) by evaluated.
  exact (conj Hs (conj Hf (conj Hu (Hr Hs Hf)))).
Defined.

Lemma prefix_never_raises_witness :
  ident_ok lab = true ∧ zlen (lv_rx controlled) ≤ RAW_CAPTURE_MAXIMUM ∧ zlen (lv_tx controlled) ≤ 65536
  ∧ ∀ s fs, replay lab root_class (lv_rx controlled) (lv_tx controlled) = Ok (s, fs) →
      replay_prefix lab root_class (lv_rx controlled) (lv_tx controlled)
      = Ok (s, fs, whole_report (lv_rx controlled) (lv_tx controlled)).
Proof.
  assert (Hr : zlen (lv_rx controlled) ≤ RAW_CAPTURE_MAXIMUM) by (vm_compute; congruence).
  assert (Ht : zlen (lv_tx controlled) ≤ 65536) by (vm_compute; congruence).
  pose proof (prefix_never_raises lab eq_refl (lv_rx controlled) (lv_tx controlled) Hr Ht) as Hp.
  exact (conj eq_refl (conj Hr (conj Ht (proj2 Hp)))).
Defined.

Lemma detach_is_idle_witness :
  st_finished (lv_st detached) = true ∧ detaching (lv_st detached) ∧ idle (lv_st detached).
Proof.
  assert (Hd : detaching (lv_st detached)) by (exists 4; split; vm_compute; reflexivity).
  assert (Hf : st_finished (lv_st detached) = true) by evaluated.
  pose proof (detach_is_idle lab eq_refl None (one_command DETACH DETACH_ACK)) as Hi. cbv zeta in Hi.
  exact (conj Hf (conj Hd (Hi Hf Hd))).
Defined.

Lemma detach_prefix_raises_witness :
  ident_ok lab = true
  ∧ replay_prefix lab detach_class (wires lab [ready_frame; Fr ACK 3 ""]) (wires lab [Fr DETACH 3 ""])
    = Err (PyKeyError "request").
Proof. exact (conj eq_refl (detach_prefix_raises lab eq_refl)). Defined.
