(* ===== verification/WireV3.v ===== *)
(** * The resident handshake codec

    [s22plus_native_wire_v3.py]: the frames of the handshake, which carry a CRC and
    whose authentication is in the payload, the authentication tags, the
    diagnostic frames and the kernel boot identity. *)

From stdpp Require Import base list strings.
From Stdlib Require Import ZArith NArith Lia Ascii.
From S2P Require Import Prelude PyStr Json Digest Bytes Console ConsoleCodec.
Open Scope string_scope.
Open Scope Z_scope.

(** [any(value)] of bytes *)
Definition nonzero_bytes (s : string) : bool := negb (all_chars (λ c, (c =? nul)%char) s).

Definition exact_bytes (value : string) (size : Z) (nonzero : bool) : result string :=
  do* verr ((zlen value =? size) && (negb nonzero || nonzero_bytes value)) "native wire byte identity differs" in
  Ok value.

Definition validate_nonce (nonce : string) : result string := exact_bytes nonce 32 true.

Section Codec.
Context `{Digest}.

Definition wtag (domain key run nonce tail : string) : result string :=
  let* k := exact_bytes key 32 false in
  let* r := exact_bytes run 16 false in
  let* n := validate_nonce nonce in
  Ok (hmac k (domain ++ r ++ n ++ tail)).

Definition compute_open_tag (key run nonce : string) : result string :=
  wtag "S22PLUS-FYG8-P328-AUTH-OPEN-v1" key run nonce "".
Definition compute_ready_tag (key run nonce : string) : result string :=
  wtag "S22PLUS-FYG8-P328-AUTH-READY-v1" key run nonce "".

Definition encode_frame (f : wframe) : result string :=
  do* verr ((0 <=? fr_kind f) && (fr_kind f <=? 255) && (0 <=? fr_seq f) && (fr_seq f <=? 4294967295)
            && (zlen (fr_body f) <=? MAX_PAYLOAD)) "native frame fields differ" in
  let prefix := head (fr_kind f) (zlen (fr_body f)) (fr_seq f) in
  Ok (prefix ++ le 4 (Z.of_N (crc32_from (crc32 prefix) (fr_body f))) ++ fr_body f).

(** The fields of [HEADER.unpack] *)
Definition hd_magic (raw : string) : string := stake 4 raw.
Definition hd_version (raw : string) : Z := unle (stake 1 (sdrop 4 raw)).
Definition hd_kind (raw : string) : Z := unle (stake 1 (sdrop 5 raw)).
Definition hd_size (raw : string) : Z := unle (stake 2 (sdrop 6 raw)).
Definition hd_sequence (raw : string) : Z := unle (stake 4 (sdrop 8 raw)).
Definition hd_crc (raw : string) : Z := unle (stake 4 (sdrop 12 raw)).

Definition decode_frame (raw : string) : result wframe :=
  do* verr (16 <=? String.length raw)%nat "native frame is short" in
  let payload := sdrop 16 raw in
  do* verr ((hd_magic raw =? "S328")%string && (hd_version raw =? 1) && (hd_size raw =? zlen payload)
            && (hd_size raw <=? MAX_PAYLOAD)
            && (hd_crc raw =? Z.of_N (crc32_from (crc32 (stake 12 raw)) payload))) "native framing or CRC differs" in
  Ok (Fr (hd_kind raw) (hd_sequence raw) payload).

Definition expect_frame (f : wframe) (kind seq : Z) : result string :=
  do* verr ((fr_kind f =? kind) && (fr_seq f =? seq)) "native frame order differs" in Ok (fr_body f).

(** [parse_diagnostic_frame]: the stage and its code *)
Definition parse_diagnostic (f : wframe) (expected : Z) : result (Z * Z) :=
  let* payload := expect_frame f 134 0 in
  let* payload := exact_bytes payload 8 false in
  let stage := unle (stake 4 payload) in
  let code := signed32 (unle (sdrop 4 payload)) in
  do* verr (negb (negb (stage =? expected) || negb (in_kinds stage [0; 1; 2])
                  || (stage <? 2) && negb (code =? 0)
                  || (stage =? 2) && negb ((-4095 <=? code) && (code <=? 64))))
        "native diagnostic order or fields differ" in
  Ok (stage, code).

(** [Codec.__init__]: the domain of the boot identity *)
Definition is_digit_char (c : ascii) : bool := (48 <=? of_byte c) && (of_byte c <=? 57).
Definition namespace_re (s : string) : bool :=
  match s with
  | String c s' => (c =? "p")%char && all_chars is_digit_char s' && (3 <=? zlen s') && (zlen s' <=? 6)
  | "" => false
  end.
Definition upper_char (c : ascii) : ascii :=
  if (97 <=? of_byte c) && (of_byte c <=? 122) then byte_of (of_byte c - 32) else c.
Fixpoint upper (s : string) : string :=
  match s with "" => "" | String c s' => String (upper_char c) (upper s') end.

Definition boot_domain (namespace : string) : result string :=
  do* verr (namespace_re namespace) "native namespace differs" in
  Ok ("S22PLUS-FYG8-" ++ upper namespace ++ "-AUTH-KERNEL-BOOT-ID-v2").

Definition decode_boot_id (domain : string) (f : wframe) (key run nonce : string) : result string :=
  let* payload := expect_frame f 135 2 in
  let* payload := exact_bytes payload 64 false in
  let* boot := exact_bytes (stake 32 payload) 32 true in
  let* expected := wtag domain key run nonce (le 4 2 ++ boot) in
  do* verr (sdrop 32 payload =? expected)%string "native kernel boot authentication differs" in
  Ok boot.

(** ** Round trip *)

Definition sendable (f : wframe) : Prop :=
  0 ≤ fr_kind f ≤ 255 ∧ 0 ≤ fr_seq f ≤ 4294967295 ∧ zlen (fr_body f) ≤ MAX_PAYLOAD.

(** What [encode_frame] produces *)
Definition encoded (f : wframe) : string :=
  let h := head (fr_kind f) (zlen (fr_body f)) (fr_seq f) in
  h ++ le 4 (Z.of_N (crc32 (h ++ fr_body f))) ++ fr_body f.

Lemma encode_frame_Ok f raw : encode_frame f = Ok raw ↔ sendable f ∧ raw = encoded f.
Proof.
  unfold encode_frame, sendable, encoded, verr. rewrite crc32_app. split.
  - intros ([] & Hc%require_Ok & [= <-])%rbind_Ok. bsimp. split; [lia|done].
  - intros [Hf ->]. apply rbind_Ok. exists tt. split; [apply require_Ok|done].
    repeat (apply andb_true_iff; split); lia.
Qed.

Lemma encoded_length f : String.length (encoded f) = (16 + String.length (fr_body f))%nat.
Proof. reflexivity. Qed.

(** The fields of a stream that starts with an encoded frame *)
Lemma encoded_fields f rest :
  sendable f →
  let p := encoded f ++ rest in
  (hd_magic p = "S328" ∧ hd_version p = 1 ∧ hd_kind p = fr_kind f)
  ∧ (hd_size p = zlen (fr_body f) ∧ hd_sequence p = fr_seq f)
  ∧ hd_crc p = Z.of_N (crc32 (stake 12 p ++ fr_body f)) ∧ sdrop 16 p = fr_body f ++ rest.
Proof.
  intros (Hk & Hq & Hb). cbv zeta. destruct f as [k q b]. cbn [fr_kind fr_seq fr_body] in *.
  set (h := head k (zlen b) q). set (x := le 4 (Z.of_N (crc32 (h ++ b)))).
  assert (Hp : encoded (Fr k q b) ++ rest = "S328" ++ le 1 1 ++ le 1 k ++ le 2 (zlen b) ++ le 4 q ++ x ++ (b ++ rest)).
  { unfold encoded. cbn [fr_kind fr_seq fr_body]. fold h x. unfold h, head. by rewrite <- !str_app_assoc. }
  rewrite Hp.
  destruct (header_fields "S328" (le 1 1) (le 1 k) (le 2 (zlen b)) (le 4 q) x (b ++ rest)) as ((Em & Ev & Ek & Ez) & Eq & Ex & Er & Eh);
    try reflexivity.
  unfold hd_magic, hd_version, hd_kind, hd_size, hd_sequence, hd_crc. rewrite Em, Ev, Ek, Ez, Eq, Ex, Er, Eh.
  pose proof (zlen_nonneg b). unfold MAX_PAYLOAD in Hb.
  rewrite !unle_le_small by (cbn; lia). split_and!; try done. unfold x. rewrite unle_le_small; [done|].
  assert (Hc : word32 (crc32 (h ++ b))) by (apply lxor_word; [by apply crc_run_word|done]).
  unfold word32 in Hc. change (256 ^ Z.of_nat 4) with 4294967296. lia.
Qed.

Lemma frame_decoded f : sendable f → decode_frame (encoded f) = Ok f.
Proof.
  intros Hf. destruct (encoded_fields f "" Hf) as ((Em & Ev & Ek) & (Ez & Eq) & Ex & Er).
  rewrite !str_app_nil in *. unfold decode_frame, verr. rewrite encoded_length.
  rewrite Em, Ev, Ek, Ez, Eq, Ex, Er, crc32_app. apply rbind_Ok. exists tt. split; [by apply require_Ok|].
  apply rbind_Ok. exists tt. split; [apply require_Ok|by destruct f].
  destruct Hf as (_ & _ & Hb). rewrite !Z.eqb_refl, String.eqb_refl. cbn [andb]. rewrite andb_true_r. lia.
Qed.

Lemma decode_inv raw f : decode_frame raw = Ok f → sendable f ∧ raw = encoded f.
Proof.
  unfold decode_frame. intros ([] & Hl%require_Ok%Nat.leb_le & Hd)%rbind_Ok.
  apply rbind_Ok in Hd as ([] & Hc%require_Ok & Hf). rewrite crc32_app in Hc.
  assert (Ef : f = Fr (hd_kind raw) (hd_sequence raw) (sdrop 16 raw)) by congruence. subst f. clear Hf.
  destruct (header_cut raw Hl) as (m & v & k & z & q & x & r & -> & (Hm & Hv & Hk) & Hz & Hq & Hx).
  destruct (header_fields m v k z q x r Hm Hv Hk Hz Hq Hx) as ((Em & Ev & Ek & Ez) & Eq & Ex & Er & Eh).
  unfold hd_magic, hd_version, hd_kind, hd_size, hd_sequence, hd_crc in *.
  rewrite ?Em, ?Ev, ?Ek, ?Ez, ?Eq, ?Ex, ?Er, ?Eh in *. bsimp. subst m.
  assert (v = le 1 1) as -> by (apply unle_inj; [done|]; by rewrite unle_le_small by (cbn; lia)).
  pose proof (unle1_range 1 k Hk) as Rk. pose proof (unle1_range 4 q Hq) as Rq. cbn in Rk, Rq.
  assert (Hhead : head (unle k) (zlen r) (unle q) = "S328" ++ le 1 1 ++ k ++ z ++ q).
  { unfold head. replace (zlen r) with (unle z) by done. by rewrite (le_unle 1 k), (le_unle 2 z), (le_unle 4 q). }
  split.
  - split_and!; cbn [fr_kind fr_seq fr_body]; lia.
  - unfold encoded. cbn [fr_kind fr_seq fr_body]. rewrite Hhead.
    match goal with E : unle x = _ |- _ => rewrite <- E end.
    rewrite (le_unle 4 x) by done. by rewrite <- !str_app_assoc.
Qed.

(** The tag of a whole identity *)
Lemma wtag_Ok domain key run nonce tail x :
  wtag domain key run nonce tail = Ok x ↔
  (zlen key = 32 ∧ zlen run = 16 ∧ zlen nonce = 32 ∧ nonzero_bytes nonce = true)
  ∧ x = hmac key (domain ++ run ++ nonce ++ tail).
Proof.
  unfold wtag, validate_nonce, exact_bytes, verr. split.
  - intros (k & (? & H1%require_Ok & [= <-])%rbind_Ok & Hr)%rbind_Ok.
    apply rbind_Ok in Hr as (r & (? & H2%require_Ok & [= <-])%rbind_Ok & Hr).
    apply rbind_Ok in Hr as (n & (? & H3%require_Ok & [= <-])%rbind_Ok & [= <-]).
    bsimp. cbn [negb orb] in *. done.
  - intros [(H1 & H2 & H3 & H4) ->]. rewrite H1, H2, H3, H4. reflexivity.
Qed.
End Codec.
