(* ===== verification/Handshake.v ===== *)
(** * The authenticated handshake

    [Progress], [IO] and [handshake] of [s22plus_native_console_observer_v1.py],
    with the lifetime frame and the sender of [s22plus_native_baseline_protocol_v1.py].
    The handshake is written once against the interface [Channel]; the retained
    streams and the live descriptor are its two instances. *)

From stdpp Require Import base list strings.
From Stdlib Require Import ZArith NArith Lia Ascii.
From S2P Require Import Prelude PyStr Json Digest Bytes Console ConsoleSession ConsoleCodec WireV3.
Open Scope string_scope.
Open Scope Z_scope.

(** ** The identity of an image *)

Record image_identity := { im_namespace : string; im_run_hex : string }.

Definition lower_hex (c : ascii) : bool :=
  is_digit_char c || (97 <=? of_byte c) && (of_byte c <=? 102).
(** [identity] of [s22plus_native_observation_v3.py] *)
Definition identity_ok (im : image_identity) : bool :=
  namespace_re (im_namespace im) && all_chars lower_hex (im_run_hex im) && (zlen (im_run_hex im) =? 32).
Definition image_id (namespace run_hex : string) : result image_identity :=
  let im := {| im_namespace := namespace; im_run_hex := run_hex |} in
  do* Prelude.require (identity_ok im) (SessionError "native image wire identity differs") in Ok im.
(** [bytes.fromhex(identity.run_id_hex)] of a checked identity *)
Definition run_of (im : image_identity) : string := unhex (im_run_hex im).

(** ** Progress *)

(** ENTER and RETURN of a stage *)
Definition stages (l : list Z) : list (Z * Z) := flat_map (λ s, [(s, 0); (s, 1)]) l.
Definition zrange (a b : Z) : list Z := map (λ k, a + Z.of_nat k) (seq 0 (Z.to_nat (b - a))).

Definition EXPECTED : list (Z * Z) :=
  [(1, 0)]
  ++ flat_map (λ index, (if index =? 4 then stages [30; 31; 32] else [])
                         ++ stages (zrange (10 + 3 * index) (13 + 3 * index)))%list (zrange 0 5)
  ++ [(33, 0); (33, 1); (1, 1)] ++ stages [60; 61; 62].
Definition CACHED_PROGRESS : list (Z * Z) := [(64, 1); (60, 0); (60, 1); (61, 0); (61, 1); (62, 0); (62, 1)].

Definition INFO_FRAME : Z := 140.
Definition INFO_SEQUENCE : Z := 768.
Definition BOOT_LIMIT_MS : Z := 900000.
Definition AUTH_LIMIT : Z := 8.

(** The authenticated lifetime of a boot *)
Record lifetime := { lt_ordinal : Z; lt_cached : bool; lt_elapsed : Z }.

(** [pg_info] is absent from the plain class and empty at first in the derived one. *)
Record progress := {
  pg_lifetime : bool;
  pg_info : option lifetime;
  pg_expected : list (Z * Z);
  pg_records : list (Z * Z * Z);
  pg_failure : option (Z * Z);
  pg_terminal : bool
}.
Definition progress0 (lifetime : bool) : progress := {|
  pg_lifetime := lifetime; pg_info := None; pg_expected := EXPECTED; pg_records := []; pg_failure := None;
  pg_terminal := false |}.

Section Progress.
Context `{Digest}.
Variable im : image_identity.

Definition progress_domain : string := "S22PLUS-FYG8-" ++ upper (im_namespace im) ++ "-PROGRESS-v1".
Definition info_domain : string := "S22PLUS-FYG8-" ++ upper (im_namespace im) ++ "-BASELINE-INFO-v1".

Definition progress_tag (key nonce : string) (sequence : Z) (head : string) : string :=
  hmac key (progress_domain ++ run_of im ++ nonce ++ le 4 sequence ++ head).
Definition info_tag (key nonce head : string) : string :=
  hmac key (info_domain ++ run_of im ++ nonce ++ le 4 INFO_SEQUENCE ++ head).

(** The fields of [struct.unpack('<HBBi', payload[:8])] *)
Definition pf_stage (p : string) : Z := unle (stake 2 p).
Definition pf_event (p : string) : Z := unle (stake 1 (sdrop 2 p)).
Definition pf_reserved (p : string) : Z := unle (stake 1 (sdrop 3 p)).
Definition pf_code (p : string) : Z := signed32 (unle (stake 4 (sdrop 4 p))).

Definition add_record (g : progress) (stage event code : Z) (failure : option (Z * Z)) (terminal : bool) : progress :=
  {| pg_lifetime := pg_lifetime g; pg_info := pg_info g; pg_expected := pg_expected g;
     pg_records := (pg_records g ++ [(stage, event, code)])%list; pg_failure := failure; pg_terminal := terminal |}.

(** [console.Progress.accept] *)
Definition accept_stage (g : progress) (f : wframe) (key nonce : string) : result progress :=
  let payload := fr_body f in
  let ordinal := Z.of_nat (length (pg_records g)) in
  do* verr (negb (pg_terminal g || (49 <=? ordinal) || negb (fr_kind f =? 139) || negb (fr_seq f =? 256 + ordinal)
                  || negb (zlen payload =? 40))) "native preparation framing/ordinal differs" in
  do* verr (progress_tag key nonce (fr_seq f) (stake 8 payload) =? sdrop 8 payload)%string
        "native preparation authentication differs" in
  let stage := pf_stage payload in let event := pf_event payload in let code := pf_code payload in
  do* verr (negb (negb (pf_reserved payload =? 0) || negb (in_kinds event [0; 1; 4])
                  || negb ((-4095 <=? code) && (code <=? 0)))) "native preparation fields differ" in
  if event =? 4 then
    do* verr (match pg_failure g with Some (_, c) => (stage =? 255) && (code =? c) | None => false end)
          "native preparation terminal is not joined" in
    Ok (add_record g stage event code (pg_failure g) true)
  else
    do* verr (match pg_failure g with Some _ => false | None => true end
              && bool_decide (pg_expected g !! length (pg_records g) = Some (stage, event)))
          "native preparation order differs" in
    do* verr (negb ((event =? 0) && negb (code =? 0))) "native ENTER has a return value" in
    Ok (add_record g stage event code (if code =? 0 then pg_failure g else Some (stage, code)) (pg_terminal g)).

(** The first frame of the derived class *)
Definition accept_info (g : progress) (f : wframe) (key nonce : string) : result progress :=
  let payload := fr_body f in
  do* verr ((fr_kind f =? INFO_FRAME) && (fr_seq f =? INFO_SEQUENCE) && (zlen payload =? 64))
        "baseline authenticated lifetime frame differs" in
  do* verr (sdrop 32 payload =? info_tag key nonce (stake 32 payload))%string
        "baseline lifetime authentication differs" in
  let version := unle (stake 4 payload) in
  let ordinal := unle (stake 4 (sdrop 4 payload)) in
  let maximum := unle (stake 4 (sdrop 8 payload)) in
  let cached := unle (stake 4 (sdrop 12 payload)) in
  let elapsed := unle (stake 8 (sdrop 16 payload)) in
  let limit := unle (stake 8 (sdrop 24 payload)) in
  do* verr (negb (negb (version =? 1) || negb ((1 <=? ordinal) && (ordinal <=? AUTH_LIMIT))
                  || negb (maximum =? AUTH_LIMIT) || negb (cached =? if 1 <? ordinal then 1 else 0)
                  || negb (limit =? BOOT_LIMIT_MS) || negb (elapsed <? limit)))
        "baseline lifetime fields differ" in
  Ok {| pg_lifetime := pg_lifetime g;
        pg_info := Some {| lt_ordinal := ordinal; lt_cached := negb (cached =? 0); lt_elapsed := elapsed |};
        pg_expected := if negb (cached =? 0) then CACHED_PROGRESS else EXPECTED;
        pg_records := pg_records g; pg_failure := pg_failure g; pg_terminal := pg_terminal g |}.

Definition accept_progress (g : progress) (f : wframe) (key nonce : string) : result progress :=
  if pg_lifetime g && match pg_info g with None => true | Some _ => false end
  then accept_info g f key nonce else accept_stage g f key nonce.

Definition progress_ready (g : progress) : bool :=
  (negb (pg_lifetime g) || match pg_info g with Some _ => true | None => false end)
  && (length (pg_records g) =? length (pg_expected g))%nat
  && match pg_failure g with None => true | Some _ => false end.

(** [Progress.projection], of either class *)
Definition record_json (r : Z * Z * Z) : json :=
  JObj [("stage", JInt r.1.1); ("event", JInt r.1.2); ("code", JInt r.2)].
Definition failure_json (f : option (Z * Z)) : json :=
  match f with Some (stage, code) => JObj [("stage", JInt stage); ("code", JInt code)] | None => JNull end.
Definition info_json (i : option lifetime) : json :=
  match i with
  | Some t => JObj [("version", JInt 1); ("authentication_ordinal", JInt (lt_ordinal t));
                    ("authentication_limit", JInt AUTH_LIMIT); ("preparation_cached", JBool (lt_cached t));
                    ("elapsed_ms", JInt (lt_elapsed t)); ("limit_ms", JInt BOOT_LIMIT_MS)]
  | None => JNull
  end.
Definition progress_projection (g : progress) : json :=
  JObj ([("schema", JStr ("s22plus-fyg8-" ++ im_namespace im ++ "-preparation-progress-v1"));
         ("records", JList (map record_json (pg_records g))); ("failure", failure_json (pg_failure g));
         ("complete", JBool (progress_ready g))]
        ++ if pg_lifetime g then [("baseline_info", info_json (pg_info g))] else []).
End Progress.

(** ** The exchange *)

Record audit := {
  au_stage : string;
  au_banner : bool;
  au_diagnostics : list (Z * Z);
  au_retries : Z;
  au_nonce : string;
  au_challenge : bool;
  au_ready : bool;
  au_authenticated : bool;
  au_boot : string
}.
Definition audit0 : audit := {|
  au_stage := "not-started"; au_banner := false; au_diagnostics := []; au_retries := 0; au_nonce := "";
  au_challenge := false; au_ready := false; au_authenticated := false; au_boot := "" |}.

Definition au_at (stage : string) (a : audit) : audit :=
  {| au_stage := stage; au_banner := au_banner a; au_diagnostics := au_diagnostics a; au_retries := au_retries a;
     au_nonce := au_nonce a; au_challenge := au_challenge a; au_ready := au_ready a;
     au_authenticated := au_authenticated a; au_boot := au_boot a |}.
Definition au_bannered (a : audit) : audit :=
  {| au_stage := au_stage a; au_banner := true; au_diagnostics := au_diagnostics a; au_retries := au_retries a;
     au_nonce := au_nonce a; au_challenge := au_challenge a; au_ready := au_ready a;
     au_authenticated := au_authenticated a; au_boot := au_boot a |}.
Definition au_diagnosed (d : Z * Z) (a : audit) : audit :=
  {| au_stage := au_stage a; au_banner := au_banner a; au_diagnostics := (au_diagnostics a ++ [d])%list;
     au_retries := au_retries a; au_nonce := au_nonce a; au_challenge := au_challenge a; au_ready := au_ready a;
     au_authenticated := au_authenticated a; au_boot := au_boot a |}.
Definition au_retried (n : Z) (a : audit) : audit :=
  {| au_stage := au_stage a; au_banner := au_banner a; au_diagnostics := au_diagnostics a; au_retries := n;
     au_nonce := au_nonce a; au_challenge := au_challenge a; au_ready := au_ready a;
     au_authenticated := au_authenticated a; au_boot := au_boot a |}.
Definition au_nonced (nonce : string) (a : audit) : audit :=
  {| au_stage := au_stage a; au_banner := au_banner a; au_diagnostics := au_diagnostics a;
     au_retries := au_retries a; au_nonce := nonce; au_challenge := au_challenge a; au_ready := au_ready a;
     au_authenticated := au_authenticated a; au_boot := au_boot a |}.
Definition au_challenged (a : audit) : audit :=
  {| au_stage := au_stage a; au_banner := au_banner a; au_diagnostics := au_diagnostics a;
     au_retries := au_retries a; au_nonce := au_nonce a; au_challenge := true; au_ready := au_ready a;
     au_authenticated := au_authenticated a; au_boot := au_boot a |}.
Definition au_admitted (a : audit) : audit :=
  {| au_stage := au_stage a; au_banner := au_banner a; au_diagnostics := au_diagnostics a;
     au_retries := au_retries a; au_nonce := au_nonce a; au_challenge := au_challenge a; au_ready := true;
     au_authenticated := true; au_boot := au_boot a |}.
Definition au_booted (boot : string) (a : audit) : audit :=
  {| au_stage := au_stage a; au_banner := au_banner a; au_diagnostics := au_diagnostics a;
     au_retries := au_retries a; au_nonce := au_nonce a; au_challenge := au_challenge a; au_ready := au_ready a;
     au_authenticated := au_authenticated a; au_boot := boot |}.

(** What the handshake asks of its transport: the next bytes, and a frame sent *)
Class Channel (C : Type) := {
  ch_read : nat → C → result string * C;
  ch_send : wframe → C → result unit * C
}.

Record exchange (C : Type) := Ex { ex_chan : C; ex_audit : audit; ex_prep : progress }.
Arguments Ex {C} _ _ _.
Arguments ex_chan {C} _.
Arguments ex_audit {C} _.
Arguments ex_prep {C} _.

Definition X (C A : Type) : Type := exchange C → result A * exchange C.
#[export] Instance X_ret {C} : MRet (X C) := λ A a x, (Ok a, x).
#[export] Instance X_bind {C} : MBind (X C) := λ A B k m x,
  match m x with (Ok a, x') => k a x' | (Err e, x') => (Err e, x') end.
Definition xlift {C A} (r : result A) : X C A := λ x, (r, x).
Definition xaudit {C} (g : audit → audit) : X C unit := λ x, (Ok tt, Ex (ex_chan x) (g (ex_audit x)) (ex_prep x)).
Definition xnonce {C} : X C string := λ x, (Ok (au_nonce (ex_audit x)), x).
Definition xprep {C} : X C progress := λ x, (Ok (ex_prep x), x).
Definition xset {C} (g : progress) : X C unit := λ x, (Ok tt, Ex (ex_chan x) (ex_audit x) g).
Definition xread {C} `{Channel C} (n : nat) : X C string := λ x,
  let r := ch_read n (ex_chan x) in (r.1, Ex r.2 (ex_audit x) (ex_prep x)).
Definition xsend {C} `{Channel C} (f : wframe) : X C unit := λ x,
  let r := ch_send f (ex_chan x) in (r.1, Ex r.2 (ex_audit x) (ex_prep x)).

Section Handshake.
Context `{Digest} {C : Type} `{!Channel C}.
Variables (im : image_identity) (domain key : string).

(** [IO.frame] and [IO.expect] *)
Definition xframe : X C wframe :=
  h ← xread 16;
  let size := hd_size h in
  _ ← xlift (verr (size <=? MAX_PAYLOAD) "native handshake frame bound");
  payload ← xread (Z.to_nat size);
  xlift (decode_frame (h ++ payload)).
Definition xexpect (kind seq : Z) : X C string := f ← xframe; xlift (expect_frame f kind seq).

Definition banner : string := "S22PLUS-FYG8-E3:" ++ im_run_hex im ++ String (ascii_of_nat 10) "".

Definition xdiagnostic (stage : Z) : X C Z :=
  f ← xframe;
  d ← xlift (parse_diagnostic f stage);
  _ ← xaudit (au_diagnosed d);
  mret d.2.

Definition xaccept : X C unit :=
  f ← xframe;
  nonce ← xnonce;
  g ← xprep;
  g' ← xlift (accept_progress im g f key nonce);
  xset g'.

(** [while not self.preparation.terminal] *)
Fixpoint xterminal (fuel : nat) : X C unit :=
  match fuel with
  | O => xlift (Err (PyRuntimeError "fuel"))
  | S fuel' => g ← xprep; if pg_terminal g : bool then mret tt else _ ← xaccept; xterminal fuel'
  end.
(** [while not self.preparation.ready()] *)
Fixpoint xprepare (fuel : nat) : X C unit :=
  match fuel with
  | O => xlift (Err (PyRuntimeError "fuel"))
  | S fuel' =>
      g ← xprep;
      if progress_ready g : bool then mret tt
      else
        _ ← xaccept;
        g' ← xprep;
        match pg_failure g' with
        | Some _ => _ ← xterminal fuel'; xlift (Err (PyValueError "native preparation failed"))
        | None => xprepare fuel'
        end
  end.

(** At most the lifetime frame and forty-nine records are accepted. *)
Definition prep_fuel : nat := 52.

Definition handshake : X C unit :=
  _ ← xaudit (au_at "open-write");
  _ ← xsend (Fr 1 0 (run_of im));
  _ ← xaudit (au_at "banner-read");
  b ← xread (String.length banner);
  _ ← xlift (verr (b =? banner)%string "native banner differs");
  _ ← xaudit au_bannered;
  _ ← xdiagnostic 0;
  _ ← xdiagnostic 1;
  retries ← xdiagnostic 2;
  _ ← xaudit (au_retried retries);
  _ ← xlift (verr ((0 <=? retries) && (retries <=? 64)) "native RNG diagnostic differs");
  nonce ← xexpect 133 0;
  _ ← xaudit (au_nonced nonce);
  _ ← xlift (validate_nonce nonce);
  _ ← xaudit au_challenged;
  opened ← xlift (compute_open_tag key (run_of im) nonce);
  _ ← xsend (Fr 4 1 opened);
  answer ← xexpect 129 1;
  expected ← xlift (compute_ready_tag key (run_of im) nonce);
  _ ← xlift (verr (answer =? expected)%string "native AUTH READY differs");
  _ ← xaudit au_admitted;
  f ← xframe;
  boot ← xlift (decode_boot_id domain f key (run_of im) nonce);
  _ ← xaudit (au_booted boot);
  _ ← xaudit (au_at "root-preparation");
  _ ← xprepare prep_fuel;
  xaudit (au_at "root-console").
End Handshake.

(** ** Retained streams *)

(** What is left of the two streams, and the positions *)
Record retained := Rt { rt_rx : string; rt_rpos : nat; rt_tx : string; rt_tpos : nat }.

Definition retained_read (n : nat) (r : retained) : result string * retained :=
  let part := stake n (rt_rx r) in
  let r' := Rt (sdrop n (rt_rx r)) (rt_rpos r + String.length part) (rt_tx r) (rt_tpos r) in
  (if (String.length part =? n)%nat then Ok part else Err (PyEOFError "partial retained native RX"), r').

Definition retained_send `{Digest} (f : wframe) (r : retained) : result unit * retained :=
  match encode_frame f with
  | Err e => (Err e, r)
  | Ok raw =>
      let part := stake (String.length raw) (rt_tx r) in
      let r' := Rt (rt_rx r) (rt_rpos r) (sdrop (String.length raw) (rt_tx r)) (rt_tpos r + String.length part) in
      (verr (part =? raw)%string "retained native handshake TX differs", r')
  end.

#[export] Instance retained_channel `{Digest} : Channel retained :=
  {| ch_read := retained_read; ch_send := retained_send |}.

(** ** The live descriptor *)

(** One round of the read loop: the clock, then what [select] and [os.read] report.
    [os.read] returns at most the bytes asked for. *)
Record rtry := { rt_now : Z; rt_read : reading }.

Record wireio := {
  wi_deadline : Z;
  wi_in : list rtry;
  wi_out : list wtry;
  wi_rx : string;                  (** captured *)
  wi_tx : string;
  wi_wire : string;                (** what the transport took *)
  wi_faults : option nat           (** captures that still succeed *)
}.

Definition wi_took (ins : list rtry) (w : wireio) : wireio :=
  {| wi_deadline := wi_deadline w; wi_in := ins; wi_out := wi_out w; wi_rx := wi_rx w; wi_tx := wi_tx w;
     wi_wire := wi_wire w; wi_faults := wi_faults w |}.
Definition wi_gave (outs : list wtry) (w : wireio) : wireio :=
  {| wi_deadline := wi_deadline w; wi_in := wi_in w; wi_out := outs; wi_rx := wi_rx w; wi_tx := wi_tx w;
     wi_wire := wi_wire w; wi_faults := wi_faults w |}.
Definition wi_capture_rx (s : string) (n : option nat) (w : wireio) : wireio :=
  {| wi_deadline := wi_deadline w; wi_in := wi_in w; wi_out := wi_out w; wi_rx := wi_rx w ++ s; wi_tx := wi_tx w;
     wi_wire := wi_wire w; wi_faults := n |}.
Definition wi_put (s : string) (w : wireio) : wireio :=
  {| wi_deadline := wi_deadline w; wi_in := wi_in w; wi_out := wi_out w; wi_rx := wi_rx w; wi_tx := wi_tx w;
     wi_wire := wi_wire w ++ s; wi_faults := wi_faults w |}.
Definition wi_capture_tx (s : string) (n : option nat) (w : wireio) : wireio :=
  {| wi_deadline := wi_deadline w; wi_in := wi_in w; wi_out := wi_out w; wi_rx := wi_rx w; wi_tx := wi_tx w ++ s;
     wi_wire := wi_wire w; wi_faults := n |}.

(** One capture: the number left, or the failure of the writer *)
Definition spend (faults : option nat) : option (option nat) :=
  match faults with None => Some None | Some (S n) => Some (Some n) | Some O => None end.

(** The loop of [read], over the rounds of the environment *)
Fixpoint read_rounds (size : nat) (got : string) (tries : list rtry) (w : wireio) : result string * wireio :=
  if (size <=? String.length got)%nat then (Ok got, wi_took tries w)
  else
    match tries with
    | [] => (Err (PyRuntimeError "KeyboardInterrupt"), wi_took [] w)
    | t :: tries' =>
        if wi_deadline w <=? rt_now t then
          (Err (PyTimeoutError "original native handshake deadline"), wi_took tries' w)
        else
          match rt_read t with
          | RBlocked => read_rounds size got tries' w
          | RClosed => (Err (PyEOFError "native transport closed"), wi_took tries' w)
          | RError e => (Err e, wi_took tries' w)
          | RData data =>
              let part := stake (size - String.length got) data in
              if (part =? "")%string then (Err (PyEOFError "native transport closed"), wi_took tries' w)
              else
                match spend (wi_faults w) with
                | None => (Err (PyOSError "No space left on device"), wi_took tries' w)
                | Some n => read_rounds size (got ++ part) tries' (wi_capture_rx part n w)
                end
          end
    end.
Definition live_read (n : nat) (w : wireio) : result string * wireio := read_rounds n "" (wi_in w) w.

(** The loop of the derived [send] *)
Fixpoint send_rounds (raw : string) (tries : list wtry) (w : wireio) : result unit * wireio :=
  if (raw =? "")%string then (Ok tt, wi_gave tries w)
  else
    match tries with
    | [] => (Err (PyRuntimeError "KeyboardInterrupt"), wi_gave [] w)
    | t :: tries' =>
        if wi_deadline w <=? wt_now t then
          (Err (PyTimeoutError "baseline original handshake deadline"), wi_gave tries' w)
        else
          match wt_guard t, wt_write t with
          | Some e, _ => (Err e, wi_gave tries' w)
          | None, Blocked => send_rounds raw tries' w
          | None, WriteError e => (Err e, wi_gave tries' w)
          | None, Wrote O => (Err (PyOSError "baseline handshake delivery uncertain"), wi_gave tries' w)
          | None, Wrote n =>
              let part := stake n raw in
              match spend (wi_faults w) with
              | None => (Err (PyOSError "No space left on device"), wi_gave tries' (wi_put part w))
              | Some k => send_rounds (sdrop n raw) tries' (wi_capture_tx part k (wi_put part w))
              end
          end
    end.
Definition live_send `{Digest} (f : wframe) (w : wireio) : result unit * wireio :=
  match encode_frame f with
  | Err e => (Err e, w)
  | Ok raw => send_rounds raw (wi_out w) w
  end.

#[export] Instance live_channel `{Digest} : Channel wireio :=
  {| ch_read := live_read; ch_send := live_send |}.
