(* ===== verification/HandshakeTheory.v ===== *)
(** * What a handshake establishes

    A handshake that a live descriptor completed, replayed on the captured
    streams, completes with the same audit and preparation and consumes exactly
    what was captured.  A handshake on retained streams that completes read one
    fixed grammar of authenticated frames. *)

From stdpp Require Import base list strings.
From Stdlib Require Import ZArith NArith Lia Ascii.
From S2P Require Import Prelude PyStr Json Digest Bytes Console ConsoleSession ConsoleCodec WireV3 Handshake.
Open Scope string_scope.
Open Scope Z_scope.

(** ** Live and retained *)

Section Replay.
Context `{Digest}.

(** A computation on the live descriptor is matched on the captured streams. *)
Definition replays {A} (ml : X wireio A) (mr : X retained A) : Prop :=
  ∀ w a p r w' a' p', ml (Ex w a p) = (r, Ex w' a' p') →
  ∃ x y, wi_rx w' = wi_rx w ++ x ∧ wi_tx w' = wi_tx w ++ y
    ∧ ∀ v, r = Ok v → ∀ rx tx n m,
        mr (Ex (Rt (x ++ rx) n (y ++ tx) m) a p)
        = (Ok v, Ex (Rt rx (n + String.length x) tx (m + String.length y)) a' p').

Lemma replays_silent {A} (ml : X wireio A) (mr : X retained A) :
  (∀ w a p, ∃ r a' p', ml (Ex w a p) = (r, Ex w a' p') ∧ ∀ c, mr (Ex c a p) = (r, Ex c a' p')) → replays ml mr.
Proof.
  intros Hs w a p r w' a' p' Hm. destruct (Hs w a p) as (r0 & a0 & p0 & E & Er). rewrite E in Hm.
  injection Hm as <- <- <- <-. exists "", "". rewrite !str_app_nil. split_and!; [done..|].
  intros v -> rx tx n m. rewrite Er. cbn. by rewrite !Nat.add_0_r.
Qed.

Lemma replays_ret {A} (v : A) : replays (mret v) (mret v).
Proof. apply replays_silent. intros w a p. by exists (Ok v), a, p. Qed.
Lemma replays_lift {A} (r : result A) : replays (xlift r) (xlift r).
Proof. apply replays_silent. intros w a p. by exists r, a, p. Qed.
Lemma replays_audit g : replays (xaudit g) (xaudit g).
Proof. apply replays_silent. intros w a p. by eexists _, _, _. Qed.
Lemma replays_nonce : replays xnonce xnonce.
Proof. apply replays_silent. intros w a p. by eexists _, _, _. Qed.
Lemma replays_prep : replays xprep xprep.
Proof. apply replays_silent. intros w a p. by eexists _, _, _. Qed.
Lemma replays_set g : replays (xset g) (xset g).
Proof. apply replays_silent. intros w a p. by eexists _, _, _. Qed.

Lemma replays_bind {A B} (ml : X wireio A) (mr : X retained A) (kl : A → X wireio B) (kr : A → X retained B) :
  replays ml mr → (∀ v, replays (kl v) (kr v)) → replays (v ← ml; kl v) (v ← mr; kr v).
Proof.
  intros Hm Hk w a p r w' a' p'. unfold mbind, X_bind.
  destruct (ml (Ex w a p)) as [[v|e] [w1 a1 p1]] eqn:E1; destruct (Hm _ _ _ _ _ _ _ E1) as (x & y & Ex1 & Ey1 & Hr).
  - intros E2. destruct (Hk v _ _ _ _ _ _ _ E2) as (x2 & y2 & Ex2 & Ey2 & Hr2).
    exists (x ++ x2), (y ++ y2). split_and!; [by rewrite Ex2, Ex1, str_app_assoc|by rewrite Ey2, Ey1, str_app_assoc|].
    intros u Hu rx tx n m. rewrite <- !str_app_assoc, (Hr v eq_refl), (Hr2 u Hu), !str_length_app.
    by rewrite !Nat.add_assoc.
  - intros [= <- <- <- <-]. exists x, y. by split_and!.
Qed.

Lemma read_rounds_capture size got tries w r w' :
  read_rounds size got tries w = (r, w') →
  ∃ x, wi_rx w' = wi_rx w ++ x ∧ wi_tx w' = wi_tx w
    ∧ ∀ v, r = Ok v → v = got ++ x ∧ ((String.length got ≤ size)%nat → String.length v = size).
Proof.
  revert got w. induction tries as [|t tries IH]; intros got w; cbn [read_rounds].
  all: destruct (size <=? String.length got)%nat eqn:Es.
  all: try (intros [= <- <-]; exists ""; cbn; rewrite !str_app_nil; split_and!; [done..|];
            intros v [= <-]; apply Nat.leb_le in Es; split; [done|lia]).
  - intros [= <- <-]. exists "". cbn. by rewrite !str_app_nil.
  - assert (Hnone : ∀ e, (Err e, wi_took tries w) = (r, w') → ∃ x, wi_rx w' = wi_rx w ++ x ∧ wi_tx w' = wi_tx w
      ∧ ∀ v, r = Ok v → v = got ++ x ∧ ((String.length got ≤ size)%nat → String.length v = size)).
    { intros e [= <- <-]. exists "". cbn. by rewrite !str_app_nil. }
    destruct (wi_deadline w <=? rt_now t); [apply Hnone|].
    destruct (rt_read t) as [| |data|e]; [apply IH|apply Hnone| |apply Hnone].
    set (part := stake (size - String.length got) data). cbv zeta.
    destruct (part =? "")%string; [apply Hnone|]. destruct (spend (wi_faults w)) as [n|]; [|apply Hnone].
    intros Hr. destruct (IH _ _ Hr) as (x & Ex & Et & Hv). exists (part ++ x). cbn in Ex, Et.
    split_and!; [by rewrite Ex, str_app_assoc|done|]. intros v Hok. destruct (Hv v Hok) as [-> Hl].
    split; [by rewrite str_app_assoc|]. intros Hgot. apply Hl. rewrite str_length_app.
    apply Nat.leb_gt in Es. unfold part. pose proof (stake_length_le (size - String.length got) data). lia.
Qed.

Lemma replays_read n : replays (xread n) (xread n).
Proof.
  intros w a p r w' a' p' Hr. unfold xread in Hr. cbn in Hr. unfold live_read in Hr.
  destruct (read_rounds n "" (wi_in w) w) as [r0 w0] eqn:E. cbn in Hr. injection Hr as <- <- <- <-.
  destruct (read_rounds_capture _ _ _ _ _ _ E) as (x & Ex & Et & Hv). exists x, "". rewrite str_app_nil.
  split_and!; [done|done|]. intros v -> rx tx k m. destruct (Hv v eq_refl) as [-> Hl]. cbn in Hl.
  unfold xread. cbn [ch_read retained_channel ex_chan]. unfold retained_read.
  cbn [rt_rx rt_rpos rt_tx rt_tpos fst snd ex_audit ex_prep].
  rewrite stake_app, sdrop_app by (apply Hl; lia).
  replace (String.length x =? n)%nat with true by (symmetry; apply Nat.eqb_eq, Hl; lia).
  cbn. by rewrite Nat.add_0_r.
Qed.

Lemma send_rounds_capture raw tries w r w' :
  send_rounds raw tries w = (r, w') →
  ∃ y, wi_tx w' = wi_tx w ++ y ∧ wi_rx w' = wi_rx w ∧ (r = Ok tt → y = raw).
Proof.
  revert raw w. induction tries as [|t tries IH]; intros raw w; cbn [send_rounds].
  all: destruct (raw =? "")%string eqn:Es.
  all: try (intros [= <- <-]; exists ""; cbn; rewrite !str_app_nil; split_and!; [done..|];
            by apply String.eqb_eq in Es).
  - intros [= <- <-]. exists "". cbn. by rewrite !str_app_nil.
  - assert (Hnone : ∀ e w1, wi_tx w1 = wi_tx w → wi_rx w1 = wi_rx w → (Err e, wi_gave tries w1) = (r, w') →
      ∃ y, wi_tx w' = wi_tx w ++ y ∧ wi_rx w' = wi_rx w ∧ (r = Ok tt → y = raw)).
    { intros e w1 Ht Hx [= <- <-]. exists "". cbn. by rewrite !str_app_nil. }
    destruct (wi_deadline w <=? wt_now t); [by apply Hnone|]. destruct (wt_guard t); [by apply Hnone|].
    destruct (wt_write t) as [|[|n]|e]; [apply IH|by apply Hnone| |by apply Hnone].
    cbv zeta. destruct (spend (wi_faults w)) as [k|]; [|by apply Hnone].
    intros Hr. destruct (IH _ _ Hr) as (y & Ey & Ex & Hok). exists (stake (S n) raw ++ y). cbn [wi_tx wi_rx wi_capture_tx wi_put] in *.
    split_and!; [by rewrite Ey, str_app_assoc|done|]. intros Hv. rewrite (Hok Hv). apply stake_sdrop.
Qed.

Lemma replays_send f : replays (xsend f) (xsend f).
Proof.
  intros w a p r w' a' p' Hr. unfold xsend in *. cbn [ch_send live_channel retained_channel ex_chan ex_audit ex_prep] in *.
  unfold live_send, retained_send in *. destruct (encode_frame f) as [raw|e] eqn:Ee; cbn [fst snd] in *.
  2: { injection Hr as <- <- <- <-. exists "", "". by rewrite !str_app_nil. }
  destruct (send_rounds raw (wi_out w) w) as [r0 w0] eqn:E. cbn [fst snd] in Hr. injection Hr as <- <- <- <-.
  destruct (send_rounds_capture _ _ _ _ _ E) as (y & Ey & Ex & Hok). exists "", y. rewrite str_app_nil.
  split_and!; [done|done|]. intros [] Hv rx tx n m. rewrite (Hok Hv). cbn [rt_rx rt_rpos rt_tx rt_tpos].
  rewrite stake_app, sdrop_app by done. unfold verr, Prelude.require. rewrite String.eqb_refl.
  change ("" ++ rx) with rx. cbn [String.length]. by rewrite Nat.add_0_r.
Qed.

Hint Resolve replays_ret replays_lift replays_audit replays_nonce replays_prep replays_set replays_read
  replays_send : replays.
Ltac replays := repeat first [solve [auto with replays] | apply replays_bind; [|intros ?]].

Variables (im : image_identity) (domain key : string).

Lemma replays_frame : replays xframe xframe.
Proof. unfold xframe. replays. Qed.
Hint Resolve replays_frame : replays.
Lemma replays_expect kind seq : replays (xexpect kind seq) (xexpect kind seq).
Proof. unfold xexpect. replays. Qed.
Lemma replays_diagnostic stage : replays (xdiagnostic stage) (xdiagnostic stage).
Proof. unfold xdiagnostic. replays. Qed.
Lemma replays_accept : replays (xaccept im key) (xaccept im key).
Proof. unfold xaccept. replays. Qed.
Hint Resolve replays_expect replays_diagnostic replays_accept : replays.
Lemma replays_terminal fuel : replays (xterminal im key fuel) (xterminal im key fuel).
Proof.
  induction fuel as [|fuel IH]; cbn [xterminal]; [replays|]. apply replays_bind; [replays|]. intros g.
  destruct (pg_terminal g); replays.
Qed.
Hint Resolve replays_terminal : replays.
Lemma replays_prepare fuel : replays (xprepare im key fuel) (xprepare im key fuel).
Proof.
  induction fuel as [|fuel IH]; cbn [xprepare]; [replays|]. apply replays_bind; [replays|]. intros g.
  destruct (progress_ready g); [replays|]. apply replays_bind; [replays|]. intros _.
  apply replays_bind; [replays|]. intros g'. destruct (pg_failure g'); replays.
Qed.
Hint Resolve replays_prepare : replays.

Lemma replays_handshake : replays (handshake im domain key) (handshake im domain key).
Proof. unfold handshake. replays. Qed.
End Replay.

(** ** The preparation loop returns *)

(** Frames that can still be accepted *)
Definition remaining (g : progress) : nat :=
  (49 - length (pg_records g)) + (if pg_lifetime g && match pg_info g with None => true | Some _ => false end then 1 else 0).

Section Fuel.
Context `{Digest} {C : Type} `{!Channel C}.
Variables (im : image_identity) (key : string).

Lemma accept_remaining g f nonce g' :
  accept_progress im g f key nonce = Ok g' → (remaining g = S (remaining g'))%nat ∧ pg_lifetime g' = pg_lifetime g.
Proof.
  unfold accept_progress, remaining. destruct (pg_lifetime g) eqn:El; cbn [andb].
  - destruct (pg_info g) as [info|] eqn:Ei.
    + unfold accept_stage. intros ([] & Hc%require_Ok & Hr)%rbind_Ok. bsimp. apply rbind_Ok in Hr as ([] & _ & Hr).
      assert (Hl : (length (pg_records g) < 49)%nat) by lia.
      destruct (_ =? 4); repeat (apply rbind_Ok in Hr as ([] & _ & Hr)); injection Hr as <-; cbn;
        rewrite El, Ei, length_app; cbn; split; [lia|done|lia|done].
    + unfold accept_info. intros Hr. repeat (apply rbind_Ok in Hr as ([] & _ & Hr)). injection Hr as <-. cbn.
      rewrite El. cbn. split; [lia|done].
  - unfold accept_stage. intros ([] & Hc%require_Ok & Hr)%rbind_Ok. bsimp. apply rbind_Ok in Hr as ([] & _ & Hr).
    assert (Hl : (length (pg_records g) < 49)%nat) by lia.
    destruct (_ =? 4); repeat (apply rbind_Ok in Hr as ([] & _ & Hr)); injection Hr as <-; cbn;
      rewrite El, length_app; cbn; split; [lia|done|lia|done].
Qed.

Lemma xaccept_remaining (x x' : exchange C) :
  xaccept im key x = (Ok tt, x') → (remaining (ex_prep x) = S (remaining (ex_prep x')))%nat.
Proof.
  unfold xaccept, mbind, X_bind, xnonce, xprep, xlift, xset.
  assert (Hf : ∀ y r y', xframe y = (r, y') → ex_prep y' = ex_prep y).
  { intros y r y'. unfold xframe, mbind, X_bind, xread, xlift.
    destruct (ch_read 16 (ex_chan y)) as [[h|e] c1]; cbn; [|by intros [= <- <-]].
    destruct (verr _ _); cbn; [|by intros [= <- <-]].
    destruct (ch_read _ c1) as [[b|e] c2]; cbn; by intros [= <- <-]. }
  destruct (xframe x) as [[f|e] x1] eqn:E; [|done]. apply Hf in E. rewrite <- E.
  destruct (accept_progress _ _ _ _ _) as [g'|e] eqn:Ea; [|done]. intros [= <-]. cbn.
  by apply accept_remaining in Ea as [-> _].
Qed.

Lemma xterminal_fuel fuel k (x : exchange C) :
  (remaining (ex_prep x) < fuel)%nat → xterminal im key (fuel + k) x = xterminal im key fuel x.
Proof.
  revert x. induction fuel as [|fuel IH]; intros x Hl; [lia|]. cbn [xterminal Nat.add].
  unfold mbind, X_bind, xprep. destruct (pg_terminal (ex_prep x)); [done|].
  destruct (xaccept im key x) as [[[]|e] x'] eqn:E; [|done]. apply xaccept_remaining in E. apply IH. lia.
Qed.

(** More fuel changes nothing. *)
Lemma xprepare_fuel fuel k (x : exchange C) :
  (remaining (ex_prep x) < fuel)%nat → xprepare im key (fuel + k) x = xprepare im key fuel x.
Proof.
  revert x. induction fuel as [|fuel IH]; intros x Hl; [lia|]. cbn [xprepare Nat.add].
  unfold mbind, X_bind, xprep. destruct (progress_ready (ex_prep x)); [done|].
  destruct (xaccept im key x) as [[[]|e] x'] eqn:E; [|done]. apply xaccept_remaining in E.
  destruct (pg_failure (ex_prep x')); [|apply IH; lia].
  by rewrite xterminal_fuel by lia.
Qed.

Lemma remaining_start lifetime : (remaining (progress0 lifetime) < prep_fuel)%nat.
Proof. destruct lifetime; cbn; unfold prep_fuel; lia. Qed.
End Fuel.

(** ** What a preparation accepts *)

Section Grammar.
Context `{Digest}.
Variables (im : image_identity) (key nonce : string).

Definition accepts (g : progress) (fs : list wframe) : result progress :=
  foldM (λ g f, accept_progress im g f key nonce) g fs.

(** The lifetime a boot may declare *)
Definition lifetime_ok (t : lifetime) : Prop :=
  1 ≤ lt_ordinal t ≤ AUTH_LIMIT ∧ lt_cached t = (1 <? lt_ordinal t) ∧ 0 ≤ lt_elapsed t < BOOT_LIMIT_MS.
Definition schedule (g : progress) : list (Z * Z) :=
  match pg_info g with Some t => if lt_cached t then CACHED_PROGRESS else EXPECTED | None => EXPECTED end.

(** Without a failure, the records are the schedule so far, each with code zero. *)
Record prepared (g : progress) : Prop := {
  pd_info : ∀ t, pg_info g = Some t → lifetime_ok t;
  pd_expected : pg_expected g = schedule g;
  pd_first : pg_lifetime g = true → pg_info g = None → pg_records g = [];
  pd_records : pg_failure g = None →
    pg_records g = map (λ se, (se.1, se.2, 0)) (take (length (pg_records g)) (schedule g))
}.

Lemma prepared_start b : prepared (progress0 b).
Proof. by split. Qed.

Lemma accept_info_prepared g f g' : pg_records g = [] → accept_info im g f key nonce = Ok g' → prepared g'.
Proof.
  intros Hn. unfold accept_info. intros ([] & Hc%require_Ok & Hr)%rbind_Ok.
  apply rbind_Ok in Hr as ([] & _ & Hr). apply rbind_Ok in Hr as ([] & Hf%require_Ok & Hg).
  set (elapsed := unle (stake 8 (sdrop 16 (fr_body f)))) in *.
  assert (0 ≤ elapsed) by (unfold elapsed; apply unle_range).
  set (ordinal := unle (stake 4 (sdrop 4 (fr_body f)))) in *.
  set (cached := unle (stake 4 (sdrop 12 (fr_body f)))) in *. clearbody elapsed ordinal cached.
  injection Hg as <-. bsimp. split; cbn; try done; [|by rewrite Hn].
  intros t [= <-]. unfold lifetime_ok. cbn [lt_ordinal lt_cached lt_elapsed]. subst cached.
  split_and!; [lia|lia| |lia|lia]. by destruct (1 <? _).
Qed.

Lemma accept_stage_prepared g f g' : prepared g → accept_stage im g f key nonce = Ok g' →
  (pg_lifetime g = true → pg_info g ≠ None) → prepared g'.
Proof.
  intros [P1 P2 P3 P4]. unfold accept_stage. intros ([] & Hc%require_Ok & Hr)%rbind_Ok Hi.
  apply rbind_Ok in Hr as ([] & _ & Hr). cbv zeta in Hr. apply rbind_Ok in Hr as ([] & _ & Hr).
  destruct (_ =? 4).
  - apply rbind_Ok in Hr as ([] & Hj%require_Ok & [= <-]). split; cbn; try done.
    + intros Hl Hn. by destruct (Hi Hl).
    + intros Hf. by rewrite Hf in Hj.
  - apply rbind_Ok in Hr as ([] & Hj%require_Ok & Hr). apply rbind_Ok in Hr as ([] & _ & [= <-]). bsimp.
    split; cbn; try done.
    + intros Hl Hn. by destruct (Hi Hl).
    + destruct (pf_code (fr_body f) =? 0) eqn:E0; [|done]. apply Z.eqb_eq in E0. intros Hf.
      rewrite length_app. cbn [length]. rewrite Nat.add_1_r.
      match goal with |- context [schedule ?x] => change (schedule x) with (schedule g) end.
      rewrite P2 in *. erewrite take_S_r by done. rewrite map_app. cbn [map fst snd].
      rewrite E0. f_equal. by apply P4.
Qed.

Lemma accept_prepared g f g' : prepared g → accept_progress im g f key nonce = Ok g' → prepared g'.
Proof.
  intros Hp. unfold accept_progress. destruct (pg_lifetime g && _) eqn:E.
  - apply andb_true_iff in E as [El Ei]. apply accept_info_prepared. apply (pd_first g Hp El). by destruct (pg_info g).
  - intros Ha. eapply accept_stage_prepared; [done|done|]. intros Hl Hn. by rewrite Hl, Hn in E.
Qed.

(** A ready preparation ran its whole schedule. *)
Lemma ready_complete g fs g' :
  prepared g → accepts g fs = Ok g' → progress_ready g' = true →
  pg_records g' = map (λ se, (se.1, se.2, 0)) (schedule g')
  ∧ (pg_lifetime g' = true → ∃ t, pg_info g' = Some t ∧ lifetime_ok t).
Proof.
  intros Hp Ha Hr. assert (Hp' : prepared g').
  { revert g Hp Ha. unfold accepts. induction fs as [|f fs IH]; intros g Hp; cbn [foldM].
    - by intros [= <-].
    - intros (g1 & Hg1 & Ha)%rbind_Ok. apply (IH g1); [|done]. by eapply accept_prepared. }
  unfold progress_ready in Hr. apply andb_true_iff in Hr as [Hr H3]. apply andb_true_iff in Hr as [H1 H2].
  destruct Hp' as [P1 P2 P3 P4]. apply Nat.eqb_eq in H2. split.
  - rewrite P4 by (by destruct (pg_failure g')). by rewrite H2, P2, firstn_all.
  - intros Hl. rewrite Hl in H1. destruct (pg_info g') as [t|]; [|done]. exists t. split; [done|by apply P1].
Qed.

Lemma accepts_lifetime g fs g' : accepts g fs = Ok g' → pg_lifetime g' = pg_lifetime g.
Proof.
  unfold accepts. revert g. induction fs as [|f fs IH]; intros g; cbn [foldM]; [by intros [= <-]|].
  intros (g1 & Hg1 & Ha)%rbind_Ok. rewrite (IH _ Ha). by eapply accept_remaining.
Qed.
End Grammar.

(** ** The grammar of a retained handshake *)

(** A bind that returned *)
Lemma xbind_Ok {C A B} (m : X C A) (k : A → X C B) x b x'' :
  (v ← m; k v) x = (Ok b, x'') ↔ ∃ v x', m x = (Ok v, x') ∧ k v x' = (Ok b, x'').
Proof.
  unfold mbind, X_bind. split.
  - destruct (m x) as [[v|e] x'] eqn:E; [|done]. intros Hk. by exists v, x'.
  - intros (v & x' & -> & Hk). done.
Qed.
Lemma xlift_Ok {C A} (r : result A) (x : exchange C) a x' : xlift r x = (Ok a, x') ↔ r = Ok a ∧ x' = x.
Proof. unfold xlift. split; [by intros [= -> ->]|by intros [-> ->]]. Qed.

Fixpoint encodeds `{Digest} (fs : list wframe) : string :=
  match fs with [] => "" | f :: fs' => encoded f ++ encodeds fs' end.

Section Retained.
Context `{Digest}.

(** From [x] to [x'] the bytes [s] were received and [t] sent. *)
Record passed (s t : string) (x x' : exchange retained) : Prop := {
  ps_rx : rt_rx (ex_chan x) = s ++ rt_rx (ex_chan x');
  ps_tx : rt_tx (ex_chan x) = t ++ rt_tx (ex_chan x');
  ps_rpos : rt_rpos (ex_chan x') = (rt_rpos (ex_chan x) + String.length s)%nat;
  ps_tpos : rt_tpos (ex_chan x') = (rt_tpos (ex_chan x) + String.length t)%nat
}.

Lemma passed_refl x x' : ex_chan x' = ex_chan x → passed "" "" x x'.
Proof. intros E. split; rewrite E; try done; cbn; lia. Qed.
Lemma passed_trans s t s' t' x y z : passed s t x y → passed s' t' y z → passed (s ++ s') (t ++ t') x z.
Proof.
  intros [A1 A2 A3 A4] [B1 B2 B3 B4]. split.
  - by rewrite A1, B1, str_app_assoc.
  - by rewrite A2, B2, str_app_assoc.
  - rewrite B3, A3, str_length_app. lia.
  - rewrite B4, A4, str_length_app. lia.
Qed.

(** The audit and the preparation are kept. *)
Definition quiet (x x' : exchange retained) : Prop := ex_audit x' = ex_audit x ∧ ex_prep x' = ex_prep x.

Lemma xread_Ok n x v x' :
  xread n x = (Ok v, x') → passed v "" x x' ∧ String.length v = n ∧ quiet x x'.
Proof.
  unfold xread. cbn [ch_read retained_channel]. unfold retained_read. cbn [fst snd].
  destruct (String.length (stake n (rt_rx (ex_chan x))) =? n)%nat eqn:El; [|done]. apply Nat.eqb_eq in El.
  intros [= <- <-]. split_and!; [|done|done]. split; cbn.
  - by rewrite stake_sdrop.
  - done.
  - done.
  - lia.
Qed.

Lemma xsend_Ok f x x' :
  xsend f x = (Ok tt, x') → passed "" (encoded f) x x' ∧ sendable f ∧ quiet x x'.
Proof.
  unfold xsend. cbn [ch_send retained_channel]. unfold retained_send.
  destruct (encode_frame f) as [raw|e] eqn:Ee; [|done]. apply encode_frame_Ok in Ee as [Hs Hraw]. cbn [fst snd].
  rewrite <- Hraw. clear Hraw.
  destruct (verr _ _) as [[]|e] eqn:Ev; [|done]. apply require_Ok, String.eqb_eq in Ev. intros [= <-].
  split_and!; [|done|done]. split; cbn [ex_chan rt_rx rt_tx rt_rpos rt_tpos String.length].
  - done.
  - etrans; [symmetry; apply (stake_sdrop (String.length raw))|]. by rewrite Ev.
  - lia.
  - by rewrite Ev.
Qed.

Lemma xframe_Ok x f x' :
  xframe x = (Ok f, x') → passed (encoded f) "" x x' ∧ sendable f ∧ quiet x x'.
Proof.
  unfold xframe. intros (h & x1 & (P1 & L1 & Q1 & Q1')%xread_Ok & Hx)%xbind_Ok.
  apply xbind_Ok in Hx as ([] & x2 & [_ ->]%xlift_Ok & Hx).
  apply xbind_Ok in Hx as (b & x3 & (P2 & L2 & Q2 & Q2')%xread_Ok & Hx).
  apply xlift_Ok in Hx as [(Hs & He)%decode_inv ->]. rewrite <- He.
  split_and!; [by eapply (passed_trans h "" b "")|done|split; congruence].
Qed.

Lemma xexpect_Ok kind seq x body x' :
  xexpect kind seq x = (Ok body, x') →
  passed (encoded (Fr kind seq body)) "" x x' ∧ quiet x x'.
Proof.
  unfold xexpect. intros (f & x1 & (P1 & S1 & Q1)%xframe_Ok & Hx)%xbind_Ok.
  apply xlift_Ok in Hx as [Hf ->]. unfold expect_frame in Hf.
  apply rbind_Ok in Hf as ([] & Hc%require_Ok & [= <-]). bsimp. destruct f as [k q b]. cbn in *. by subst.
Qed.

Lemma exact_bytes_Ok v n nz u : exact_bytes v n nz = Ok u ↔ u = v ∧ zlen v = n ∧ (nz = true → nonzero_bytes v = true).
Proof.
  unfold exact_bytes. split.
  - intros ([] & Hc%require_Ok & [= <-])%rbind_Ok. apply andb_true_iff in Hc as [Hl Hn].
    apply Z.eqb_eq in Hl. split_and!; [done|done|]. intros ->. exact Hn.
  - intros (-> & <- & Hn). apply rbind_Ok. exists tt. split; [|done]. apply require_Ok.
    rewrite Z.eqb_refl. destruct nz; [|done]. by rewrite Hn.
Qed.

(** The frame of a diagnostic *)
Definition diagnostic_frame (stage code : Z) : wframe := Fr 134 0 (le 4 stage ++ le 4 (code mod 4294967296)).

Lemma signed_mod n : 0 ≤ n < 4294967296 → signed32 n mod 4294967296 = n.
Proof.
  intros Hn. unfold signed32. destruct (n <? 2147483648) eqn:E.
  - apply Z.mod_small. lia.
  - rewrite <- (Z.mod_add _ 1) by lia. rewrite Z.mod_small; lia.
Qed.

Lemma parse_diagnostic_Ok f stage d :
  parse_diagnostic f stage = Ok d → f = diagnostic_frame stage d.2 ∧ d.1 = stage.
Proof.
  unfold parse_diagnostic, expect_frame. intros (b & (? & Hc%require_Ok & [= <-])%rbind_Ok & Hp)%rbind_Ok.
  apply rbind_Ok in Hp as (b & (-> & Hl & _)%exact_bytes_Ok & Hp).
  apply rbind_Ok in Hp as ([] & Hf%require_Ok & Hd). bsimp.
  destruct f as [k q b]. cbn [fr_kind fr_seq fr_body] in *. subst k q.
  destruct (cut_field 4 b) as (u & v & -> & Hu); [unfold zlen in Hl; lia|].
  rewrite stake_app, sdrop_app in * by done. assert (Hv : String.length v = 4%nat).
  { unfold zlen in Hl. rewrite str_length_app in Hl. lia. }
  injection Hd as <-. cbn [fst snd]. split; [|done]. unfold diagnostic_frame.
  pose proof (unle_range v) as Rv. rewrite Hv in Rv. change (256 ^ Z.of_nat 4) with 4294967296 in Rv.
  rewrite signed_mod by done. subst stage. by rewrite (le_unle 4 u), (le_unle 4 v).
Qed.

Lemma xdiagnostic_Ok stage x code x' :
  xdiagnostic stage x = (Ok code, x') →
  passed (encoded (diagnostic_frame stage code)) "" x x' ∧ ex_prep x' = ex_prep x
  ∧ ex_audit x' = au_diagnosed (stage, code) (ex_audit x).
Proof.
  unfold xdiagnostic. intros (f & x1 & (P1 & S1 & Q1 & Q2)%xframe_Ok & Hx)%xbind_Ok.
  apply xbind_Ok in Hx as (d & x2 & [[-> <-]%parse_diagnostic_Ok ->]%xlift_Ok & Hx).
  apply xbind_Ok in Hx as ([] & x3 & [= <-] & [= <- <-]). cbn. split_and!; [|done|by rewrite Q1; destruct d].
  destruct P1. by split.
Qed.

Variables (im : image_identity) (domain key : string).

Lemma xaccept_Ok x x' :
  xaccept im key x = (Ok tt, x') →
  ∃ f, passed (encoded f) "" x x' ∧ ex_audit x' = ex_audit x
    ∧ accept_progress im (ex_prep x) f key (au_nonce (ex_audit x)) = Ok (ex_prep x').
Proof.
  unfold xaccept. intros (f & x1 & (P1 & S1 & Q1 & Q2)%xframe_Ok & Hx)%xbind_Ok.
  apply xbind_Ok in Hx as (n & x2 & [= <- <-] & Hx). apply xbind_Ok in Hx as (g & x3 & [= <- <-] & Hx).
  apply xbind_Ok in Hx as (g' & x4 & [Ha ->]%xlift_Ok & [= <-]). exists f. cbn. rewrite <- Q1, <- Q2.
  split_and!; [|done|done]. destruct P1. by split.
Qed.

Lemma xprepare_Ok fuel x x' :
  xprepare im key fuel x = (Ok tt, x') →
  ∃ fs, passed (encodeds fs) "" x x' ∧ ex_audit x' = ex_audit x
    ∧ accepts im key (au_nonce (ex_audit x)) (ex_prep x) fs = Ok (ex_prep x') ∧ progress_ready (ex_prep x') = true.
Proof.
  revert x. induction fuel as [|fuel IH]; intros x; cbn [xprepare]; [done|].
  intros (g & x1 & [= <- <-] & Hx)%xbind_Ok. destruct (progress_ready (ex_prep x)) eqn:Er.
  { injection Hx as <-. exists []. split_and!; [by apply passed_refl|done|done|done]. }
  apply xbind_Ok in Hx as ([] & x2 & (f & Pf & Qf & Hf)%xaccept_Ok & Hx).
  apply xbind_Ok in Hx as (g & x3 & [= <- <-] & Hx). destruct (pg_failure (ex_prep x2)).
  { apply xbind_Ok in Hx as (? & ? & _ & Hx). by apply xlift_Ok in Hx as [? _]. }
  apply IH in Hx as (fs & Pfs & Qfs & Hfs & Hr). exists (f :: fs). split_and!; [|congruence| |done].
  - by apply (passed_trans (encoded f) "" (encodeds fs) "" x x2).
  - unfold accepts in *. cbn [foldM]. rewrite Hf. cbn [rbind]. by rewrite Qf in Hfs.
Qed.

(** ** The transcript *)

Definition boot_tag (nonce boot : string) : string :=
  hmac key (domain ++ run_of im ++ nonce ++ le 4 2 ++ boot).
Definition open_tag (nonce : string) : string :=
  hmac key ("S22PLUS-FYG8-P328-AUTH-OPEN-v1" ++ run_of im ++ nonce).
Definition ready_tag (nonce : string) : string :=
  hmac key ("S22PLUS-FYG8-P328-AUTH-READY-v1" ++ run_of im ++ nonce).

Definition greeting (retries : Z) (nonce : string) : string :=
  banner im ++ encoded (diagnostic_frame 0 0) ++ encoded (diagnostic_frame 1 0)
  ++ encoded (diagnostic_frame 2 retries) ++ encoded (Fr 133 0 nonce).
Definition admission (nonce boot : string) : string :=
  encoded (Fr 129 1 (ready_tag nonce)) ++ encoded (Fr 135 2 (boot ++ boot_tag nonce boot)).
Definition handshake_tx (nonce : string) : string := encoded (Fr 1 0 (run_of im)) ++ encoded (Fr 4 1 (open_tag nonce)).

(** What the handshake read and wrote, and what it knows after *)
Record authenticated (x x' : exchange retained) (retries : Z) (nonce boot : string) (fs : list wframe) : Prop := {
  at_passed : passed (greeting retries nonce ++ admission nonce boot ++ encodeds fs) (handshake_tx nonce) x x';
  at_key : zlen key = 32 ∧ zlen (run_of im) = 16;
  at_nonce : zlen nonce = 32 ∧ nonzero_bytes nonce = true;
  at_boot : zlen boot = 32 ∧ nonzero_bytes boot = true;
  at_retries : 0 ≤ retries ≤ 64;
  at_audit : au_nonce (ex_audit x') = nonce ∧ au_boot (ex_audit x') = boot
    ∧ au_authenticated (ex_audit x') = true ∧ au_stage (ex_audit x') = "root-console";
  at_prep : accepts im key nonce (ex_prep x) fs = Ok (ex_prep x') ∧ progress_ready (ex_prep x') = true
}.

Ltac xgo H v x E := apply xbind_Ok in H as (v & x & E & H).

(** The audit changes and the checks pass no bytes. *)
Lemma xaudit_Ok (g : audit → audit) (x x' : exchange retained) u :
  xaudit g x = (Ok u, x') → passed "" "" x x' ∧ ex_prep x' = ex_prep x ∧ ex_audit x' = g (ex_audit x).
Proof. unfold xaudit. intros [= _ <-]. split_and!; [by apply passed_refl|done..]. Qed.

Lemma xdiagnostic_zero stage (x : exchange retained) code x' :
  stage = 0 ∨ stage = 1 → xdiagnostic stage x = (Ok code, x') → code = 0.
Proof.
  intros Hs. unfold xdiagnostic. intros H'. xgo H' f x1 E1. xgo H' d x2 E2. xgo H' u x3 E3.
  injection H' as <- <-. apply xlift_Ok in E2 as [Hp _]. unfold parse_diagnostic in Hp.
  apply rbind_Ok in Hp as (? & _ & Hp). apply rbind_Ok in Hp as (? & _ & Hp).
  apply rbind_Ok in Hp as ([] & Hf%require_Ok & [= <-]). bsimp. cbn [snd].
  match goal with H : (_ <? 2) && _ = false |- _ => apply andb_false_iff in H as [H|H] end; bsimp; [|done].
  destruct Hs; subst stage; lia.
Qed.

Lemma expect_boot f nonce boot : decode_boot_id domain f key (run_of im) nonce = Ok boot →
  f = Fr 135 2 (boot ++ boot_tag nonce boot) ∧ zlen boot = 32 ∧ nonzero_bytes boot = true.
Proof.
  unfold decode_boot_id, expect_frame. intros (b & (? & Hc%require_Ok & [= <-])%rbind_Ok & Hp)%rbind_Ok.
  apply rbind_Ok in Hp as (b & (-> & Hl & _)%exact_bytes_Ok & Hp).
  apply rbind_Ok in Hp as (b & (Eb & Hb & Hn)%exact_bytes_Ok & Hp).
  apply rbind_Ok in Hp as (t & (_ & ->)%wtag_Ok & Hp). apply rbind_Ok in Hp as ([] & Ht%require_Ok & [= <-]).
  bsimp. split_and!; [|by rewrite Eb|rewrite Eb; by apply Hn].
  destruct f as [k q p]. cbn [fr_kind fr_seq fr_body] in *. subst k q. f_equal.
  unfold boot_tag. rewrite <- Ht. by rewrite Eb, stake_sdrop.
Qed.

(** The first half: OPEN, the banner, the diagnostics and the challenge *)
Definition greet : X retained string :=
  _ ← xaudit (au_at "open-write");
  _ ← xsend (Fr 1 0 (run_of im));
  _ ← xaudit (au_at "banner-read");
  b ← xread (String.length (banner im));
  _ ← xlift (verr (b =? banner im)%string "native banner differs");
  _ ← xaudit au_bannered;
  _ ← xdiagnostic 0;
  _ ← xdiagnostic 1;
  retries ← xdiagnostic 2;
  _ ← xaudit (au_retried retries);
  _ ← xlift (verr ((0 <=? retries) && (retries <=? 64)) "native RNG diagnostic differs");
  xexpect 133 0.

Lemma greet_Ok x nonce x' :
  greet x = (Ok nonce, x') →
  ∃ retries, passed (greeting retries nonce) (encoded (Fr 1 0 (run_of im))) x x' ∧ 0 ≤ retries ≤ 64
    ∧ ex_prep x' = ex_prep x.
Proof.
  unfold greet. intros Hg. xgo Hg u1 x1 E1. xgo Hg u2 x2 E2. xgo Hg u3 x3 E3. xgo Hg b x4 E4. xgo Hg u4 x5 E5.
  xgo Hg u6 x6 E6. xgo Hg c0 x7 E7. xgo Hg c1 x8 E8. xgo Hg retries x9 E9. xgo Hg u10 x10 E10. xgo Hg u11 x11 E11.
  pose proof (xdiagnostic_zero 0 _ _ _ (or_introl eq_refl) E7) as ->.
  pose proof (xdiagnostic_zero 1 _ _ _ (or_intror eq_refl) E8) as ->. destruct u2.
  apply xaudit_Ok in E1 as (P1 & Q1 & _). apply xsend_Ok in E2 as (P2 & _ & _ & Q2).
  apply xaudit_Ok in E3 as (P3 & Q3 & _). apply xread_Ok in E4 as (P4 & _ & _ & Q4).
  apply xlift_Ok in E5 as [Eb ->]. apply require_Ok, String.eqb_eq in Eb. subst b.
  apply xaudit_Ok in E6 as (P6 & Q6 & _). apply xdiagnostic_Ok in E7 as (P7 & Q7 & _), E8 as (P8 & Q8 & _), E9 as (P9 & Q9 & _).
  apply xaudit_Ok in E10 as (P10 & Q10 & _). apply xlift_Ok in E11 as [Er ->]. apply require_Ok in Er. bsimp.
  apply xexpect_Ok in Hg as (P12 & _ & Q12).
  exists retries. split_and!; [|lia|lia|congruence].
  pose proof (passed_trans _ _ _ _ _ _ _ P1 (passed_trans _ _ _ _ _ _ _ P2 (passed_trans _ _ _ _ _ _ _ P3
    (passed_trans _ _ _ _ _ _ _ P4 (passed_trans _ _ _ _ _ _ _ P6 (passed_trans _ _ _ _ _ _ _ P7
    (passed_trans _ _ _ _ _ _ _ P8 (passed_trans _ _ _ _ _ _ _ P9 (passed_trans _ _ _ _ _ _ _ P10 P12))))))))) as Hp.
  change ("" ++ ?x) with x in Hp. by rewrite !str_app_nil in Hp.
Qed.

Lemma handshake_greet x :
  handshake im domain key x =
  (nonce ← greet;
   _ ← xaudit (au_nonced nonce);
   _ ← xlift (validate_nonce nonce);
   _ ← xaudit au_challenged;
   opened ← xlift (compute_open_tag key (run_of im) nonce);
   _ ← xsend (Fr 4 1 opened);
   answer ← xexpect 129 1;
   expected ← xlift (compute_ready_tag key (run_of im) nonce);
   _ ← xlift (verr (answer =? expected)%string "native AUTH READY differs");
   _ ← xaudit au_admitted;
   f ← xframe;
   boot ← xlift (decode_boot_id domain f key (run_of im) nonce);
   _ ← xaudit (au_booted boot);
   _ ← xaudit (au_at "root-preparation");
   _ ← xprepare im key prep_fuel;
   xaudit (au_at "root-console")) x.
Proof.
  unfold handshake, greet, mbind, X_bind.
  repeat match goal with
  | |- context [match ?m with _ => _ end] =>
      lazymatch m with context [match _ with _ => _ end] => fail | _ => destruct m as [[?|?] ?]; [|reflexivity] end
  end; reflexivity.
Qed.

(** A handshake that completes read the transcript of one exchange. *)
Lemma handshake_transcript x x' :
  handshake im domain key x = (Ok tt, x') →
  ∃ retries nonce boot fs, authenticated x x' retries nonce boot fs.
Proof.
  rewrite handshake_greet. intros Hx. xgo Hx nonce x1 E1. xgo Hx u2 x2 E2. xgo Hx n x3 E3. xgo Hx u4 x4 E4.
  xgo Hx opened x5 E5. xgo Hx u6 x6 E6. xgo Hx reply x7 E7. xgo Hx expected x8 E8. xgo Hx u9 x9 E9.
  xgo Hx u10 x10 E10. xgo Hx f x11 E11. xgo Hx boot x12 E12. xgo Hx u13 x13 E13. xgo Hx u14 x14 E14.
  xgo Hx u15 x15 E15. destruct u6, u15.
  apply greet_Ok in E1 as (retries & P1 & Hr & Q1). apply xaudit_Ok in E2 as (P2 & Q2 & A2).
  apply xlift_Ok in E3 as [(-> & Hn & Hz)%exact_bytes_Ok ->]. specialize (Hz eq_refl).
  apply xaudit_Ok in E4 as (P4 & Q4 & A4). apply xlift_Ok in E5 as [[(Hk & Hrun & _) ->]%wtag_Ok ->].
  apply xsend_Ok in E6 as (P6 & _ & A6 & Q6). apply xexpect_Ok in E7 as (P7 & A7 & Q7).
  apply xlift_Ok in E8 as [[_ ->]%wtag_Ok ->]. apply xlift_Ok in E9 as [Eq ->].
  apply require_Ok, String.eqb_eq in Eq. subst reply. apply xaudit_Ok in E10 as (P10 & Q10 & A10).
  apply xframe_Ok in E11 as (P11 & _ & A11 & Q11). apply xlift_Ok in E12 as [(-> & Hb & Hbz)%expect_boot ->].
  apply xaudit_Ok in E13 as (P13 & Q13 & A13). apply xaudit_Ok in E14 as (P14 & Q14 & A14).
  apply xprepare_Ok in E15 as (fs & P15 & A15 & Hacc & Hready). apply xaudit_Ok in Hx as (P16 & Q16 & A16).
  assert (Hnonce : au_nonce (ex_audit x14) = nonce).
  { rewrite A14, A13. cbn. rewrite A11, A10. cbn. rewrite A7, A6, A4, A2. done. }
  exists retries, nonce, boot, fs. split; [|done..| |].
  - pose proof (passed_trans _ _ _ _ _ _ _ P1 (passed_trans _ _ _ _ _ _ _ P2 (passed_trans _ _ _ _ _ _ _ P4
      (passed_trans _ _ _ _ _ _ _ P6 (passed_trans _ _ _ _ _ _ _ P7 (passed_trans _ _ _ _ _ _ _ P10
      (passed_trans _ _ _ _ _ _ _ P11 (passed_trans _ _ _ _ _ _ _ P13 (passed_trans _ _ _ _ _ _ _ P14
      (passed_trans _ _ _ _ _ _ _ P15 P16)))))))))) as Hp.
    change ("" ++ ?y) with y in Hp. rewrite !str_app_nil in Hp. unfold admission, handshake_tx.
    rewrite <- !str_app_assoc. exact Hp.
  - rewrite A16. cbn. rewrite A15, A14, A13. cbn. rewrite A11, A10. cbn. by rewrite A7, A6, A4, A2.
  - rewrite Q16. split; [|done]. rewrite Hnonce in Hacc. by rewrite <- Q1, <- Q2, <- Q4, <- Q6, <- Q7, <- Q10, <- Q11, <- Q13, <- Q14.
Qed.
End Retained.
