(* ===== verification/Arrival.v ===== *)
(** * A native arrival, derived again from its retained streams

    [s22plus_native_baseline_protocol_v1.py]: [replay_one], which authenticates a
    handshake, finds the end of the console session, replays it and projects the
    fixed health receipt; [fresh_same_boot] and [check_freshness], which join an
    arrival to the one before it. *)

From stdpp Require Import base list strings gmap.
From Stdlib Require Import ZArith NArith Lia Ascii.
From S2P Require Import Prelude PyStr Json Digest Bytes Console ConsoleSession ConsoleCodec ConsoleKinds Health WireV3 Handshake.
Open Scope string_scope.
Open Scope Z_scope.

(** ** The end of the console session *)

(** The loop of [_root_end] on the rest of the stream, [size] bytes after its start *)
Fixpoint root_scan (fuel : nat) (rest : string) (size : Z) (kinds : list Z) : result Z :=
  match fuel with
  | O => Err (PyValueError "baseline terminal frame absent")
  | S fuel' =>
      if (rest =? "")%string then Err (PyValueError "baseline terminal frame absent")
      else
        do* verr (16 <=? String.length rest)%nat "partial baseline root header" in
        do* verr (header_ok rest) "baseline root framing differs" in
        let n := (16 + header_size rest)%nat in
        do* verr (n <=? String.length rest)%nat "partial baseline root payload" in
        if in_kinds (unle (stake 1 (sdrop 5 rest))) kinds then Ok (size + Z.of_nat n)
        else
          do* verr (size + Z.of_nat n <=? SESSION_RX_LIMIT) "baseline root stream limit" in
          root_scan fuel' (sdrop n rest) (size + Z.of_nat n) kinds
  end.

(** [_root_end], relative to its offset *)
Definition root_end (rest : string) (kinds : list Z) : result Z :=
  root_scan (S (String.length rest)) rest 0 kinds.

(** ** Fixed health *)

Fixpoint until_status (events : list wframe) : result (list wframe) :=
  match events with
  | [] => Err PyStopIteration
  | f :: events' =>
      if is_frame f STATUS_REPLY 4 then Ok [f]
      else let* l := until_status events' in Ok (f :: l)
  end.

Definition health_view (s : st) (prefix : list wframe) : view := {|
  vw_ready := st_ready s;
  vw_requests := filter (λ kv : Z * Z, kv.1 ≤ 4) (st_requests s);
  vw_bodies := st_bodies s;
  vw_accepted := st_accepted s;
  vw_faulted := existsb (λ f, fr_kind f =? FAULT) prefix |}.

Definition fixed_health (s : st) (events : list wframe) : result unit :=
  let* prefix := until_status events in
  validate_console (health_view s prefix) prefix.

(** ** Commands *)

(** The requests in the order they were made: the sequence numbers from three up *)
Definition request_order (s : st) : list Z :=
  filter (λ n, is_Some (st_requests s !! n)) (zrange 3 (3 + Z.of_nat (size (st_requests s)))).

Definition first_exit (n : Z) (events : list wframe) : option (list Z) :=
  (λ f, words32 7 (fr_body f)) <$> List.find (λ f, is_frame f EXIT n) events.

Section Arrival.
Context `{Digest}.

(** [dict(size=len(data), sha256=digest(data))] *)
Record ident_of := { io_size : Z; io_sha : string }.
Definition identify (data : string) : ident_of := {| io_size := zlen data; io_sha := hexdigest data |}.

Record command_row := {
  cr_sequence : Z; cr_timeout : Z; cr_cwd : ident_of; cr_command : ident_of;
  cr_stdout : ident_of; cr_stderr : ident_of; cr_terminal : option (list Z);
  cr_accepted : bool; cr_rejected : bool
}.

Definition row_of (s : st) (events : list wframe) (n : Z) : command_row :=
  let body := default "" (st_bodies s !! n) in
  let cwd_size := Z.to_nat (unle (stake 2 (sdrop 4 body))) in
  {| cr_sequence := n;
     cr_timeout := unle (stake 4 body);
     cr_cwd := identify (stake cwd_size (sdrop 6 body));
     cr_command := identify (sdrop (6 + cwd_size) body);
     cr_stdout := identify (stream_of n 1 events);
     cr_stderr := identify (stream_of n 2 events);
     cr_terminal := first_exit n events;
     cr_accepted := bool_decide (n ∈ st_accepted s);
     cr_rejected := bool_decide (n ∈ st_rejected s) |}.

(** [command_rows] *)
Definition command_rows (s : st) (events : list wframe) : list command_row :=
  map (row_of s events) (filter (λ n, st_requests s !! n = Some EXEC) (request_order s)).

(** ** The observation class *)

(** A fixed extra command: [EXTRA_PROFILE].  Times are in milliseconds. *)
Record extra_profile := {
  xp_body : string;
  xp_key : string;
  xp_project : string → string → option (list Z) → bool → result json;
  xp_mutates : bool;
  xp_admission : Z;
  xp_settle : Z;
  xp_observation : Z
}.
(** What a class derived from [IO] sets *)
Record io_class := {
  ic_hud_body : string;
  ic_decode_hud : string → string → result json;
  ic_hud_settle : Z;
  ic_source_profile : json;
  ic_extra : option extra_profile
}.

Record arrival := {
  ar_run : string;
  ar_ending : Z;
  ar_terminal_sequence : option Z;
  ar_boot_sha : string;
  ar_nonce_sha : string;
  ar_preparation : progress;
  ar_info : lifetime;
  ar_ready : list Z;
  ar_commands : list command_row;
  ar_request_count : nat;
  ar_settled : bool;                 (** [all_commands_terminal_or_rejected] *)
  ar_rx : ident_of;
  ar_tx : ident_of;
  ar_hud_requested : bool;
  ar_hud_complete : bool;
  ar_hud : option json;
  ar_source_profile : json;
  ar_extra : option (string * json)
}.

Fixpoint ordered (events : list wframe) : bool :=
  match events with
  | f :: (g :: _) as rest => (fr_seq f <=? fr_seq g) && ordered rest
  | _ => true
  end.

(** [max(requests)] *)
Definition max_request (s : st) : result Z :=
  match (map_to_list (st_requests s)).*1 with
  | [] => Err (PyValueError "max() iterable argument is empty")
  | n :: l => Ok (foldr Z.max n l)
  end.

(** The fixed request profile: the ending, and whether an optional command was asked *)
Definition request_profile (k : io_class) (s : st) : result (Z * bool) :=
  let* m := max_request s in
  let* ending := match st_requests s !! m with Some e => Ok e | None => Err (PyKeyError "requests") end in
  do* verr (in_kinds ending [CONTROL; DETACH]) "baseline ending differs" in
  let requests := delete m (st_requests s) in
  let optional := requests !! 5 in
  do* verr (match ic_extra k with Some _ => ending =? DETACH | None => true end)
        "fixed storage census raw ending is not DETACH" in
  let expected := match ic_extra k with Some x => xp_body x | None => ic_hud_body k end in
  do* verr (bool_decide (delete 5 requests = <[3 := EXEC]> {[ 4 := STATUS ]})) "baseline fixed request profile differs" in
  do* verr (bool_decide (optional = None) || bool_decide (optional = Some EXEC)) "baseline fixed request profile differs" in
  do* verr (bool_decide (optional = None) || bool_decide (st_bodies s !! 5 = Some expected))
        "baseline fixed request profile differs" in
  Ok (ending, negb (bool_decide (optional = None))).

(** [_projection] *)
Definition projection (k : io_class) (im : image_identity) (a : audit) (g : progress) (s : st)
    (events : list wframe) (rx tx : string) : result arrival :=
  do* verr (ordered events) "baseline retained response phase order differs" in
  do* fixed_health s events in
  let* eo := request_profile k s in
  let* info := match pg_info g with Some t => Ok t | None => Err PyTypeError end in
  do* verr (negb ((eo.1 =? DETACH) && (AUTH_LIMIT <=? lt_ordinal info)))
        "native terminal has no future authentication slot" in
  let* ready := match st_ready s with Some r => Ok r | None => Err PyTypeError end in
  let rows := command_rows s events in
  let out := stream_of 5 1 events in let err := stream_of 5 2 events in
  let terminal := first_exit 5 events in
  let clean := match terminal with
               | Some [a5; b; d; e; _; dropped; _] =>
                   (a5 =? 5) && (b =? 0) && (d =? 0) && (e =? 0) && (dropped =? 0) && (err =? "")%string
               | _ => false
               end in
  let complete := eo.2 && clean in
  let plain := match ic_extra k with None => true | Some _ => false end in
  let* hud := if complete && plain then let* v := ic_decode_hud k out (im_run_hex im) in Ok (Some v) else Ok None in
  let* extra := match ic_extra k with
                | None => Ok None
                | Some x => let* v := xp_project x out err terminal eo.2 in Ok (Some (xp_key x, v))
                end in
  Ok {| ar_run := im_run_hex im; ar_ending := eo.1; ar_terminal_sequence := st_control s;
        ar_boot_sha := hexdigest (au_boot a); ar_nonce_sha := hexdigest (au_nonce a);
        ar_preparation := g; ar_info := info; ar_ready := ready; ar_commands := rows;
        ar_request_count := size (st_requests s);
        ar_settled := forallb (λ r, match cr_terminal r with Some _ => true | None => cr_rejected r end) rows;
        ar_rx := identify rx; ar_tx := identify tx;
        ar_hud_requested := eo.2 && plain; ar_hud_complete := complete && plain; ar_hud := hud;
        ar_source_profile := ic_source_profile k; ar_extra := extra |}.

(** ** [replay_one] *)

Definition session_ident (key run nonce : string) : ident := {| id_key := key; id_run := run; id_nonce := nonce |}.

Definition TERMINAL_RX : list Z := [CONTROL_ACK; DETACH_ACK].
Definition TERMINAL_TX : list Z := [CONTROL; DETACH].

(** The handshake, the boundaries and the replay of the session between them, for a
    session class and the frames that end it *)
Record joined := {
  jn_exchange : exchange retained; jn_state : st; jn_events : list wframe; jn_rend : Z; jn_tend : Z
}.
Definition replay_joined (c : session_class) (kinds_rx kinds_tx : list Z) (im : image_identity) (domain key rx tx : string)
    : result joined :=
  let hs := handshake im domain key (Ex (Rt rx 0 tx 0) audit0 (progress0 true)) in
  let* _ := hs.1 in
  let x := hs.2 in
  let* rsize := root_end (rt_rx (ex_chan x)) kinds_rx in
  let* tsize := root_end (rt_tx (ex_chan x)) kinds_tx in
  let i := session_ident key (run_of im) (au_nonce (ex_audit x)) in
  let* r := replay i c (stake (Z.to_nat rsize) (rt_rx (ex_chan x))) (stake (Z.to_nat tsize) (rt_tx (ex_chan x))) in
  Ok {| jn_exchange := x; jn_state := r.1; jn_events := r.2;
        jn_rend := Z.of_nat (rt_rpos (ex_chan x)) + rsize; jn_tend := Z.of_nat (rt_tpos (ex_chan x)) + tsize |}.

Definition replay_one (k : io_class) (im : image_identity) (domain key rx tx : string)
    : result (arrival * Z * Z) :=
  do* verr ((zlen rx <=? RAW_CAPTURE_MAXIMUM) && (zlen tx <=? 65536)) "baseline raw stream bounds differ" in
  let* j := replay_joined detach_class TERMINAL_RX TERMINAL_TX im domain key rx tx in
  let x := jn_exchange j in
  let* v := projection k im (ex_audit x) (ex_prep x) (jn_state j) (jn_events j)
              (stake (Z.to_nat (jn_rend j)) rx) (stake (Z.to_nat (jn_tend j)) tx) in
  Ok (v, jn_rend j, jn_tend j).

(** ** Freshness *)

(** What the next arrival is compared with *)
Record tail := {
  tl_run : string; tl_boot : string; tl_nonce : string; tl_info : lifetime; tl_detached : bool
}.
Definition tail_of (v : arrival) : tail := {|
  tl_run := ar_run v; tl_boot := ar_boot_sha v; tl_nonce := ar_nonce_sha v; tl_info := ar_info v;
  tl_detached := ar_ending v =? DETACH |}.

Definition fresh_same_boot (previous current : tail) (seen : list string) : result unit :=
  verr (negb (negb (tl_run previous =? tl_run current)%string || negb (tl_boot previous =? tl_boot current)%string
              || (tl_nonce previous =? tl_nonce current)%string || bool_decide (tl_nonce current ∈ seen)
              || negb (lt_ordinal (tl_info current) =? lt_ordinal (tl_info previous) + 1)
              || (lt_elapsed (tl_info current) <? lt_elapsed (tl_info previous))
              || negb (tl_detached previous)))
    "clean same-boot native reauthentication is unproved".

(** [check_freshness] of [s22plus_native_observation_v3.py] *)
Definition check_freshness (previous : option tail) (first_boot : bool) (seen_nonces seen_boots : list string)
    (current : tail) : result unit :=
  do* srequire (negb (bool_decide (tl_nonce current ∈ seen_nonces))) "native nonce was already used" in
  if first_boot then
    srequire (match previous with None => true | Some _ => false end && (lt_ordinal (tl_info current) =? 1)
              && negb (bool_decide (tl_boot current ∈ seen_boots)))
      "new installation did not prove a fresh first native boot"
  else
    match previous with
    | None => Err (SessionError "native reentry has no previous closed authenticated tail")
    | Some p => fresh_same_boot p current seen_nonces
    end.
End Arrival.
