(* ===== verification/GptProfile.v ===== *)
(** * Evidence of the GPT commands

    [s22plus_native_gpt_profile_v1.py]: the geometry of the sealed partition vectors,
    the decoder of what the fixed GPT command of the image printed, and the projection
    of its result into an arrival.

    The decoder accepts exactly the outputs of one completed command: the declared
    transition of the sealed vectors, the whole target vector read back, and a log of
    exactly the block copies in a fixed order; the projection never raises. *)

From stdpp Require Import base list strings.
From Stdlib Require Import ZArith Lia Ascii.
From S2P Require Import Prelude PyStr PyText Json Digest Bytes HostFs F1Schema Registry NativeRecords NativeSteps Console TextRecords Arrival.
Open Scope string_scope.
Open Scope Z_scope.


Definition SCHEMA : string := "s22plus-native-gpt-proof-v1".
Definition PROFILE : string := "thermal-v3-reconnect-ufs-drain-gpt-v1".
Definition BYTES : Z := 61440.
Definition OLD_USER : Z := (62305271 - 3726848) * 8.
Definition NEW_USER : Z := (28750592 - 3726848) * 8.
Definition NATIVE_SECTORS : Z := 128 * 1024 ^ 3 / 512.
Definition ANDROID32_USER : Z := 32 * 1024 ^ 3 / 512.
Definition LBAS : list Z := [62305272; 62305279; 3; 1].
(** [LBAS[2:]+LBAS[:2]] *)
Definition REVERSED : list Z := [3; 1; 62305272; 62305279].

Inductive vector := Original | Proposed.
#[export] Instance vector_eq_dec : EqDecision vector.
Proof. solve_decision. Defined.
Definition vector_name (v : vector) : string := match v with Original => "original" | Proposed => "proposed" end.

(** The command, its mode and the vector it ends with *)
Definition SELECTIONS : list (string * (string * Z * vector)) :=
  [("gpt-original", ("observe", 0, Original)); ("gpt-proposed", ("observe", 0, Proposed));
   ("gpt-apply", ("apply", 1, Proposed)); ("gpt-restore", ("restore", 2, Original));
   ("gpt-after-reset", ("after-reset", 0, Proposed));
   ("gpt-after-original-reset", ("after-original-reset", 0, Original))].
Definition AFTER_RESET : list string := ["gpt-after-reset"; "gpt-after-original-reset"].

Definition RESULT : list part :=
  [Word "GPT1_RESULT mode="; one_of "0" "2"; Word " status="; number; Word " io_errno="; number;
   Word " close_errno="; number; Word " writes="; number; Word " completed="; number; Word " skipped="; number;
   Word " last_read_kind="; one_of "0" "2"; Word " userdata_sectors="; number; Word " native_sectors="; number;
   Word " filesystem_errno="; number].
Definition EVENT : list part :=
  [Word "GPT1_STEP event="; one_of "1" "3"; Word " ordinal="; one_of "0" "3"; Word " lba="; number_to 8].
Definition DATA_MARK : string := "GPT1_DATA bytes=61440" ++ nl.
Definition F2FS_MARK : string := "GPT1_F2FS bytes=216" ++ nl.
Definition END_MARK : string := "GPT1_END" ++ nl.

(** ** Sealed vectors *)

Record sealed := { se_original : string; se_proposed : string }.
Definition vector_of (s : sealed) (v : vector) : string :=
  match v with Original => se_original s | Proposed => se_proposed s end.

Definition zslice (at_ size : Z) (s : string) : string := stake (Z.to_nat size) (sdrop (Z.to_nat at_) s).
Definition u32 (at_ : Z) (s : string) : Z := unle (zslice at_ 4 s).
Definition u64 (at_ : Z) (s : string) : Z := unle (zslice at_ 8 s).

(** [decode('utf-16-le')], [None] for a lone surrogate *)
Fixpoint utf16 (s : string) : option (list Z) :=
  match s with
  | "" => Some []
  | String a (String b s') =>
      let u := of_byte a + 256 * of_byte b in
      if (55296 <=? u) && (u <? 56320) then
        match s' with
        | String c (String d s'') =>
            let v := of_byte c + 256 * of_byte d in
            if (56320 <=? v) && (v <? 57344)
            then option_map (cons (65536 + (u - 55296) * 1024 + (v - 56320))) (utf16 s'') else None
        | _ => None
        end
      else if (56320 <=? u) && (u <? 57344) then None
      else option_map (cons u) (utf16 s')
  | String _ "" => None
  end.
(** [rstrip('\0')] *)
Fixpoint strip_zeros (l : list Z) : list Z :=
  match l with
  | [] => []
  | x :: l' => match strip_zeros l' with
               | [] => if x =? 0 then [] else [x]
               | r => x :: r
               end
  end.
Definition code_points (s : string) : list Z := map of_byte (String.list_ascii_of_string s).

Record shape := { sh_userdata : Z; sh_first : Z; sh_native : Z }.
#[export] Instance shape_eq_dec : EqDecision shape.
Proof. solve_decision. Defined.

(** The native extent a userdata size allows *)
Definition allowed (user : Z) : option (Z * Z) :=
  if user =? OLD_USER then Some (0, 0)
  else if user =? NEW_USER then Some (28750592, NATIVE_SECTORS)
  else if user =? ANDROID32_USER then Some (12115456, (62305024 - 12115456) * 8)
  else None.

Definition declared_layout (user low high last size : Z) (native : string) : result bool :=
  if negb (bool_decide (allowed user = Some (low, size))) then Ok false
  else if size =? 0 then Ok true
  else if negb ((high =? 62305023) && (low =? last + 1)) then Ok false
  else match utf16 (zslice 56 72 native) with
       | None => Err PyUnicodeError
       | Some cs => Ok (bool_decide (strip_zeros cs = code_points "native_data"))
       end.

Definition geometry (data : string) : result shape :=
  do* nreq (zlen data =? BYTES) "sealed GPT byte count differs" in
  let entry := zslice (8192 + 39 * 128) 128 data in
  let first := u64 32 entry in
  let last := u64 40 entry in
  do* nreq ((first =? 3726848) && (first <=? last)) "sealed userdata extent differs" in
  let native := zslice (8192 + 40 * 128) 128 data in
  let low := u64 32 native in
  let high := u64 40 native in
  let size := if all_chars (λ c, (c =? nul)%char) native then 0 else (high - low + 1) * 8 in
  let user := (last - first + 1) * 8 in
  let* ok := declared_layout user low high last size native in
  do* nreq ok "sealed userdata/native geometry is not a declared layout" in
  Ok {| sh_userdata := user; sh_first := low; sh_native := size |}.

Definition transition (s : sealed) : result (shape * shape) :=
  let* old := geometry (se_original s) in
  let* new := geometry (se_proposed s) in
  let pair := (sh_userdata old, sh_userdata new) in
  do* nreq (bool_decide (pair = (OLD_USER, NEW_USER)) || bool_decide (pair = (NEW_USER, ANDROID32_USER)))
        "sealed GPT transition is not the fixed reservation or 32 GiB successor" in
  Ok (old, new).

(** ** The F2FS superblock prefix *)

Section Digests.
Context `{Digest}.

Definition f2fs_geometry (data : string) (userdata_sectors : Z) : result json :=
  do* nreq ((userdata_sectors =? OLD_USER) || (userdata_sectors =? NEW_USER) || (userdata_sectors =? ANDROID32_USER))
        "F2FS selected partition size differs" in
  do* nreq ((zlen data =? 216) && (stake 108 data =? sdrop 108 data)%string) "F2FS geometry copies differ" in
  let first := stake 108 data in
  do* nreq (u32 0 first =? 4076150800) "F2FS magic differs" in     (* 0xF2F52010 *)
  let sector := u32 8 first in
  let per_block := u32 12 first in
  let block := u32 16 first in
  let per_segment := u32 20 first in
  let count := u64 36 first in
  let segments := u32 48 first in
  let segment0 := u32 72 first in
  do* nreq (((sector =? 9) || (sector =? 12)) && (per_block =? 12 - sector) && (block =? 12) && (per_segment =? 9)
            && (count =? (userdata_sectors * 512 - 16384) / 4096)
            && (0 <? segment0 + segments * 512) && (segment0 + segments * 512 <=? count))
        "F2FS geometry is not the new userdata size" in
  Ok (JObj [("status", JStr "PASS_GEOMETRY_ONLY"); ("block_size", JInt 4096); ("block_count", JInt count);
            ("requested_bytes", JInt (count * 4096)); ("segment_count", JInt segments);
            ("segment0_block", JInt segment0); ("copies_agree", JBool true);
            ("raw_geometry", JObj [("size", JInt (zlen data)); ("sha256", JStr (hexdigest data))]);
            ("complete_filesystem_health_proved", JBool false)]).

(** ** The output of the command *)

Record proof := {
  gp_selection : string; gp_mode : Z; gp_kind : vector; gp_metadata : string;
  gp_userdata : Z; gp_native : Z; gp_writes : Z; gp_skipped : Z; gp_filesystem : option json
}.
Definition proof_fields (p : proof) : dict :=
  [("status", JStr "PASS_EXACT_GPT"); ("selection", JStr (gp_selection p)); ("mode", JInt (gp_mode p));
   ("final_pair", JStr (vector_name (gp_kind p)));
   ("full_metadata", JObj [("size", JInt BYTES); ("sha256", JStr (hexdigest (gp_metadata p)))]);
   ("userdata_sectors", JInt (gp_userdata p)); ("native_sectors", JInt (gp_native p));
   ("writes", JInt (gp_writes p)); ("skipped", JInt (gp_skipped p));
   ("filesystem", default JNull (gp_filesystem p)); ("original_duplicate_guids_preserved", JBool true)].

(** The loop over the four blocks *)
Fixpoint copy_log (n : nat) (ordinal : Z) (events : list (list Z)) (order : list Z) (writes skips : Z)
    : result (list (list Z) * list Z * Z * Z) :=
  match n with
  | O => Ok (events, order, writes, skips)
  | S n' =>
      match events with
      | [] => Err (SessionError "GPT event sequence is incomplete")
      | [event; number; lba] :: rest =>
          do* nreq (number =? ordinal) "GPT event ordinal differs" in
          if event =? 3 then copy_log n' (ordinal + 1) rest (order ++ [lba]) writes (skips + 1)
          else match rest with
               | next :: rest' =>
                   do* nreq ((event =? 1) && bool_decide (next = [2; ordinal; lba]))
                         "GPT write intent/completion pair differs" in
                   copy_log n' (ordinal + 1) rest' (order ++ [lba]) (writes + 1) skips
               | [] => Err (SessionError "GPT write intent/completion pair differs")
               end
      | _ :: _ => Err (PyValueError "not enough values to unpack")
      end
  end.

Definition check_log (mode : Z) (events : list (list Z)) (writes completed skipped : Z) : result unit :=
  if mode =? 0 then
    nreq (bool_decide (events = []) && bool_decide ((writes, completed, skipped) = (0, 0, 0)))
      "read-only GPT command reported writes"
  else
    do* nreq ((writes + skipped =? 4) && (negb (mode =? 1) || bool_decide ((writes, skipped) = (4, 0))))
          "GPT block completion count differs" in
    let* r := copy_log 4 0 events [] 0 0 in
    let '(rest, order, actual_writes, actual_skips) := r in
    do* nreq (bool_decide (rest = []) && (bool_decide (order = LBAS) || bool_decide (order = REVERSED))
              && bool_decide ((actual_writes, actual_skips) = (writes, skipped)))
          "GPT event order or counts differ" in
    nreq (negb (mode =? 1) || bool_decide (order = LBAS)) "GPT apply copy order differs".

Fixpoint read_events (lines : list string) : result (list (list Z)) :=
  match lines with
  | [] => Ok []
  | l :: ls =>
      let* e := read_record EVENT l (SessionError "GPT event record differs") in
      let* es := read_events ls in Ok (e :: es)
  end.

Definition final_kind (v : vector) : Z := match v with Original => 1 | Proposed => 2 end.
Definition pair_of (s : shape) : Z * Z := (sh_userdata s, sh_native s).

Definition F2FS_SIZE : nat := (String.length F2FS_MARK + 216)%nat.
(** What follows the vector: the F2FS prefix after a reset, then the end mark *)
Definition read_tail (selection : string) (user : Z) (tail : string) : result (option json) :=
  let* r := if elem_str selection AFTER_RESET then
              do* nreq (startswith F2FS_MARK tail && (String.length tail =? F2FS_SIZE + 9)%nat) "F2FS prefix framing differs" in
              let* fs := f2fs_geometry (stake 216 (sdrop (String.length F2FS_MARK) tail)) user in
              Ok (Some fs, sdrop F2FS_SIZE tail)
            else Ok (None, tail) in
  do* nreq (r.2 =? END_MARK)%string "GPT trailing bytes differ" in
  Ok r.1.

Definition decode (stdout selection : string) (s : sealed) : result proof :=
  match assoc selection SELECTIONS with
  | None => Err (SessionError "GPT output bound differs")
  | Some (_, mode, kind) =>
      do* nreq (zlen stdout <=? 65536) "GPT output bound differs" in
      let* pb := match partition DATA_MARK stdout with
                 | Some (prefix, body) =>
                     do* nreq ((zlen prefix <=? 4096) && endswith nl prefix) "GPT result framing differs" in
                     Ok (prefix, body)
                 | None => Err (SessionError "GPT result framing differs")
                 end in
      let lines := bytes_lines pb.1 in
      let body := pb.2 in
      let* values := read_record RESULT (List.last lines "") (SessionError "GPT result record differs") in
      match values with
      | [actual; status; error; close; writes; completed; skipped; final; user; native; fs_error] =>
          do* nreq (bool_decide ((actual, status, error, close, fs_error) = (mode, 0, 0, 0, 0))
                    && (final =? final_kind kind) && (writes =? completed))
                "GPT command did not report a complete successful final read" in
          let* on := transition s in
          let '(old, new) := on in
          let selected := if elem_str selection ["gpt-proposed"; "gpt-after-reset"] then new else old in
          do* nreq (bool_decide ((user, native) = pair_of selected)
                    || (selection =? "gpt-restore")%string && bool_decide ((user, native) = pair_of new))
                "kernel partition geometry differs" in
          let data := stake (Z.to_nat BYTES) body in
          do* nreq (data =? vector_of s kind)%string "complete GPT bytes differ from the sealed target" in
          let* filesystem := read_tail selection user (sdrop (Z.to_nat BYTES) body) in
          let* events := read_events (removelast lines) in
          do* check_log mode events writes completed skipped in
          Ok {| gp_selection := selection; gp_mode := mode; gp_kind := kind; gp_metadata := data;
                gp_userdata := user; gp_native := native; gp_writes := writes; gp_skipped := skipped;
                gp_filesystem := filesystem |}
      | _ => Err (PyValueError "not enough values to unpack")
      end
  end.

(** ** [Profile] *)

(** The text of a [ValueError]; [None] for another exception.  ([UnicodeDecodeError] is
    a [ValueError]; its text is not modelled.) *)
Definition value_error_text (e : pyexc) : option string :=
  match e with
  | SessionError m | PyValueError m | ProtocolError m => Some m
  | PyUnicodeError => Some ""
  | _ => None
  end.

Definition project (selection : string) (s : sealed) (stdout stderr : string) (terminal : option (list Z))
    (requested : bool) : result json :=
  let row data := JObj [("size", JInt (zlen data)); ("sha256", JStr (hexdigest data))] in
  let value status more :=
    JObj ([("schema", JStr SCHEMA); ("status", JStr status); ("selection", JStr selection);
           ("requested", JBool requested); ("stdout", row stdout); ("stderr", row stderr);
           ("grants_device_authority", JBool false)] ++ more) in
  let no_proof reason := Ok (value "NO_PROOF" [("reason", JStr reason)]) in
  if negb requested then no_proof "ORIGINAL_OBSERVATION_BUDGET_INSUFFICIENT"
  else
    let completed := match terminal with
                     | Some (a :: b :: c :: d :: total :: dropped :: _) =>
                         bool_decide ((a, b, c, d) = (5, 0, 0, 0)) && (total =? zlen stdout) && (dropped =? 0)
                         && (stderr =? "")%string
                     | _ => false
                     end in
    if negb completed then no_proof "GPT_COMMAND_DID_NOT_COMPLETE_SUCCESSFULLY"
    else match decode stdout selection s with
         | Err e => match value_error_text e with Some m => no_proof m | None => Err e end
         | Ok p => Ok (value "PASS_EXACT_GPT" (drop 2 (proof_fields p)))
         end.

(** ** The sealed vectors of an image *)

(** [for row in v] *)
Definition iterate (v : json) : result (list json) :=
  match v with
  | JList l => Ok l
  | JObj d => Ok (map JStr (keys d))
  | JStr t => Ok (if (t =? "")%string then [] else [JStr t])
  | _ => Err PyTypeError
  end.
Fixpoint column (k : string) (rows : list json) : result (list json) :=
  match rows with
  | [] => Ok []
  | r :: rows' => let* x := item r k in let* xs := column k rows' in Ok (x :: xs)
  end.
(** [a and b], whose second part may raise *)
Definition both (a b : result bool) : result bool := let* x := a in if x then b else Ok false.
Definition is_item (v : json) (k : string) (w : json) : result bool := let* x := item v k in Ok (py_eqb x w).

Section Vectors.
Variables (root_path : string) (loads : string → result json) (fs : hostfs).

Fixpoint parts_of (kind : vector) (rows : list json) : result (list string) :=
  match rows with
  | [] => Ok []
  | r :: rows' =>
      let* receipt := item r (vector_name kind) in
      let* at_ := verify root_path fs receipt in
      let* b := read_bytes fs at_.1 at_.2 in
      let* bs := parts_of kind rows' in Ok (bytes_of b :: bs)
  end.
Definition vector_parts (kind : vector) (rows : list json) : result string :=
  let* parts := parts_of kind rows in
  do* nreq (bool_decide (map zlen parts = [24576; 36864])) "GPT bound byte lengths differ" in
  Ok (String.concat "" parts).

Definition BOUND_REGIONS : list json :=
  [JList [JStr "primary-six"; JInt 0]; JList [JStr "backup-nine"; JInt 62305271]].

Definition vectors (binding : json) : result sealed :=
  match binding with
  | JObj b =>
      do* nreq (keys_match b ["proposal"; "regions"; "layout"]) "GPT image binding differs" in
      let* at_ := verify root_path fs (fld b "proposal") in
      let* value := read loads fs at_.1 at_.2 in
      let* joined := both (is_item value "schema" (JStr "s22plus-native-gpt-layout-construction-h0-v1"))
        (both (is_item value "status" (JStr "PASS_H0_EXACT_LAYOUT_CONSTRUCTION"))
        (both (is_item value "regions" (fld b "regions"))
        (both (is_item value "layout" (fld b "layout"))
              (let* changed := item value "changed_blocks" in
               let* rows := iterate changed in
               let* lbas := column "lba" rows in
               Ok (py_eqb (JList lbas) (JList (map JInt [1; 3; 62305272; 62305279]))))))) in
      do* nreq joined "GPT image does not join its sealed proposal" in
      let* rows := iterate (fld b "regions") in
      let* named := (fix go rows := match rows with
                     | [] => Ok []
                     | r :: rows' => let* n := item r "name" in let* l := item r "first_lba" in
                                     let* rest := go rows' in Ok (JList [n; l] :: rest)
                     end) rows in
      do* nreq (py_eqb (JList named) (JList BOUND_REGIONS)) "GPT bound regions differ" in
      let* original := vector_parts Original rows in
      let* proposed := vector_parts Proposed rows in
      let s := {| se_original := original; se_proposed := proposed |} in
      let* on := transition s in
      let '(old, new) := on in
      let* layout := item value "layout" in
      let* exact := both (is_item layout "native_size_bytes" (JInt (sh_native new * 512)))
        (both (is_item layout "userdata_new_size_bytes" (JInt (sh_userdata new * 512)))
        (both (is_item layout "native_first_lba" (JInt (sh_first new)))
              (is_item layout "native_last_lba" (JInt 62305023)))) in
      do* nreq exact "proposal layout differs from its exact vectors" in
      do* (if sh_userdata new =? ANDROID32_USER then
             let* bound := both (is_item layout "construction" (JStr "resize-existing-native-32g-v1"))
               (both (let* v := item layout "predecessor_native_identity_preserved" in Ok (is_true v))
               (both (is_item layout "userdata_original_size_bytes" (JInt (sh_userdata old * 512)))
               (both (is_item layout "native_original_size_bytes" (JInt (sh_native old * 512)))
                     (is_item layout "native_original_first_lba" (JInt (sh_first old)))))) in
             nreq bound "32 GiB successor does not bind the current reserved predecessor"
           else Ok tt) in
      Ok s
  | _ => Err (SessionError "GPT image binding differs")
  end.

(** [Profile(image, selection)]; the times of an [extra_profile] are in milliseconds, and
    the profile has no observation time of its own. *)
Definition Profile (profile run_id_hex : string) (gpt : json) (selection : string) : result extra_profile :=
  match (if (profile =? PROFILE)%string then assoc selection SELECTIONS else None) with
  | None => Err (SessionError "GPT command image/selection differs")
  | Some (command_name, mode, _) =>
      do* nreq ((String.length run_id_hex =? 32)%nat && all_chars is_hex run_id_hex)
            "GPT command image/selection differs" in
      let* s := vectors gpt in
      let* body := command ("exec /s22-display --gpt-" ++ command_name ++ " " ++ run_id_hex) "/s22-root-work" 15000 in
      Ok {| xp_body := body; xp_key := "gpt"; xp_project := project selection s;
            xp_mutates := (mode =? 1) || (mode =? 2); xp_admission := 17000; xp_settle := 0;
            xp_observation := 60000 |}
  end.
End Vectors.
End Digests.


(** ** What GPT evidence proves *)

Lemma Ok_inj {A} (a b : A) : Ok a = Ok b → a = b.
Proof. by intros [= ->]. Qed.

(** ** The log of the copies *)

(** The events of copies from ordinal [n] on: an intent and a completion where the block
    was written, one event where it was left *)
Fixpoint log_of (n : Z) (steps : list (Z * bool)) : list (list Z) :=
  match steps with
  | [] => []
  | (lba, true) :: r => [1; n; lba] :: [2; n; lba] :: log_of (n + 1) r
  | (lba, false) :: r => [3; n; lba] :: log_of (n + 1) r
  end.
Fixpoint written (steps : list (Z * bool)) : Z :=
  match steps with [] => 0 | (_, b) :: r => (if b then 1 else 0) + written r end.
Fixpoint left_alone (steps : list (Z * bool)) : Z :=
  match steps with [] => 0 | (_, b) :: r => (if b then 0 else 1) + left_alone r end.

Lemma written_total steps : written steps + left_alone steps = Z.of_nat (length steps).
Proof. induction steps as [|[l []] r IH]; cbn [written left_alone length]; lia. Qed.
Lemma left_alone_nonneg steps : 0 ≤ left_alone steps.
Proof. induction steps as [|[l []] r IH]; cbn [left_alone]; lia. Qed.
Lemma all_written steps : left_alone steps = 0 → steps = map (λ l, (l, true)) steps.*1.
Proof.
  induction steps as [|[l []] r IH]; cbn [left_alone]; intros Hk; [done| |].
  - cbn. f_equal. apply IH. lia.
  - pose proof (left_alone_nonneg r). lia.
Qed.

Lemma copied_eq {A B} (a : A) (b b' : B) (w w' k k' : Z) :
  b = b' → w = w' → k = k' → (a, b, w, k) = (a, b', w', k').
Proof. by intros -> -> ->. Qed.

Lemma copy_log_iff n o events order w k out :
  copy_log n o events order w k = Ok out ↔
  ∃ steps rest, length steps = n ∧ events = (log_of o steps ++ rest)%list
    ∧ out = (rest, (order ++ steps.*1)%list, w + written steps, k + left_alone steps).
Proof.
  revert o events order w k out. induction n as [|n IH]; intros o events order w k out; cbn [copy_log].
  { split.
    - intros [= <-]. exists [], events. cbn. rewrite app_nil_r, !Z.add_0_r. done.
    - intros ([|] & rest & ? & -> & ->); [|done]. cbn. by rewrite app_nil_r, !Z.add_0_r. }
  split.
  - destruct events as [|[|e [|nu [|lba [|]]]] rest]; try done.
    intros [Hn Hc]%rbind_unit. apply require_Ok, Z.eqb_eq in Hn as ->.
    destruct (Z.eqb_spec e 3) as [->|].
    + apply IH in Hc as (steps & rest' & <- & -> & ->). exists ((lba, false) :: steps), rest'.
      split_and!; [done..|]. apply copied_eq; [by rewrite <- (assoc_L (++)%list)|cbn [written left_alone]; lia..].
    + destruct rest as [|nx rest]; [done|]. apply rbind_unit in Hc as [Hp Hc].
      apply require_Ok, andb_true_iff in Hp as [->%Z.eqb_eq ->%bool_decide_eq_true].
      apply IH in Hc as (steps & rest' & <- & -> & ->). exists ((lba, true) :: steps), rest'.
      split_and!; [done..|]. apply copied_eq; [by rewrite <- (assoc_L (++)%list)|cbn [written left_alone]; lia..].
  - intros ([|[lba b] steps] & rest & Hl & -> & ->); [done|]. injection Hl as Hl.
    assert (Hr : ∀ b' w' k', copy_log n (o + 1) (log_of (o + 1) steps ++ rest) (order ++ [lba]) w' k'
      = Ok (rest, (order ++ ((lba, b') :: steps).*1)%list, w' + written steps, k' + left_alone steps)).
    { intros b' w' k'. apply IH. exists steps, rest. cbn. rewrite <- (assoc_L (++)%list). done. }
    destruct b; cbn; rewrite Z.eqb_refl; cbn.
    + rewrite bool_decide_true by done. cbn. rewrite (Hr true). f_equal. apply copied_eq; [done|cbn [written left_alone]; lia..].
    + rewrite (Hr false). f_equal. apply copied_eq; [done|cbn [written left_alone]; lia..].
Qed.

(** The log, the writes and the skipped blocks of each mode: nothing; all four blocks
    in the order that keeps the backup valid first; any of them, from either end. *)
Inductive logged : Z → list (list Z) → Z → Z → Prop :=
  | logged_observe : logged 0 [] 0 0
  | logged_apply : logged 1 (log_of 0 (map (λ l, (l, true)) LBAS)) 4 0
  | logged_restore steps :
      steps.*1 = LBAS ∨ steps.*1 = REVERSED → logged 2 (log_of 0 steps) (written steps) (left_alone steps).

Lemma check_log_iff mode events writes skipped :
  mode = 0 ∨ mode = 1 ∨ mode = 2 →
  check_log mode events writes writes skipped = Ok tt ↔ logged mode events writes skipped.
Proof.
  intros Hm. unfold check_log. split.
  - destruct Hm as [->|Hm].
    { intros Hc%require_Ok. apply andb_true_iff in Hc as [->%bool_decide_eq_true Hc%bool_decide_eq_true]. injection Hc as -> _ ->. constructor. }
    replace (mode =? 0) with false by lia. intros [Hc Hr]%rbind_unit. apply require_Ok in Hc.
    apply rbind_Ok in Hr as (out & Hl & Hr). apply copy_log_iff in Hl as (steps & rest & Hlen & He & ->).
    cbn in Hr. apply rbind_unit in Hr as [Hr Ho]. apply require_Ok in Hr. apply require_Ok in Ho.
    rewrite !andb_true_iff, orb_true_iff, !bool_decide_eq_true in Hr. destruct Hr as [[-> Hord] [= <- <-]].
    rewrite app_nil_r in He. subst events. destruct Hm as [->| ->]; [|by constructor].
    cbn in Hc, Ho. rewrite andb_true_iff, bool_decide_eq_true in Hc. destruct Hc as [_ [= Hw Hk]].
    apply bool_decide_eq_true in Ho. pose proof (all_written _ Hk) as Hs. rewrite Ho in Hs. rewrite Hw, Hk, Hs. constructor.
  - intros [| |steps Hs]; [done|done|].
    assert (Hlen : length steps = 4%nat).
    { rewrite <- (length_fmap fst). by destruct Hs as [-> | ->]. }
    assert (Hl : copy_log 4 0 (log_of 0 steps) [] 0 0 = Ok ([], steps.*1, written steps, left_alone steps)).
    { apply copy_log_iff. exists steps, []. split_and!; [done|by rewrite app_nil_r|]. apply copied_eq; [done|lia|lia]. }
    rewrite Hl, written_total, Hlen. cbn [rbind Prelude.require nreq].
    rewrite (bool_decide_true ([] = [])), (bool_decide_true ((written steps, left_alone steps) = (written steps, left_alone steps))) by done.
    destruct Hs as [-> | ->]; reflexivity.
Qed.

Section Digests.
Context `{Digest}.

(** ** The whole output *)

Definition reported (selection : string) (old new : shape) (pair : Z * Z) : Prop :=
  pair = pair_of (if elem_str selection ["gpt-proposed"; "gpt-after-reset"] then new else old)
  ∨ selection = "gpt-restore" ∧ pair = pair_of new.

(** What follows the vector *)
Inductive tail_of (selection : string) (user : Z) : string → option json → Prop :=
  | tail_plain : elem_str selection AFTER_RESET = false → tail_of selection user END_MARK None
  | tail_reset data fs :
      elem_str selection AFTER_RESET = true → f2fs_geometry data user = Ok fs →
      tail_of selection user (F2FS_MARK ++ data ++ END_MARK) (Some fs).

Inductive evidence (s : sealed) (stdout selection : string) : proof → Prop :=
  | evidence_of command mode kind old new prefix lines result events user native writes skipped rest fs :
      assoc selection SELECTIONS = Some (command, mode, kind) →
      zlen stdout ≤ 65536 →
      partition DATA_MARK stdout = Some (prefix, vector_of s kind ++ rest) →
      zlen prefix ≤ 4096 → endswith nl prefix = true →
      bytes_lines prefix = (lines ++ [result])%list →
      Forall2 (denotes EVENT) lines events →
      denotes RESULT result [mode; 0; 0; 0; writes; writes; skipped; final_kind kind; user; native; 0] →
      transition s = Ok (old, new) →
      reported selection old new (user, native) →
      tail_of selection user rest fs →
      logged mode events writes skipped →
      evidence s stdout selection
        {| gp_selection := selection; gp_mode := mode; gp_kind := kind; gp_metadata := vector_of s kind;
           gp_userdata := user; gp_native := native; gp_writes := writes; gp_skipped := skipped;
           gp_filesystem := fs |}.

Lemma selection_mode selection command mode kind :
  assoc selection SELECTIONS = Some (command, mode, kind) → mode = 0 ∨ mode = 1 ∨ mode = 2.
Proof.
  unfold SELECTIONS. cbn [assoc]. repeat (destruct (String.eqb _ _); [intros [= _ <- _]; lia|]). done.
Qed.

Lemma read_events_iff lines events : read_events lines = Ok events ↔ Forall2 (denotes EVENT) lines events.
Proof.
  split.
  - revert events. induction lines as [|l lines IH]; intros events; cbn; [by intros [= <-]|].
    intros (e & He & (es & Hes & [= <-])%rbind_Ok)%rbind_Ok. constructor; [|by apply IH].
    by eapply read_record_iff.
  - induction 1 as [|l e lines events Hd _ IH]; [done|]. cbn.
    rewrite (proj2 (read_record_iff EVENT l _ e eq_refl) Hd). cbn. by rewrite IH.
Qed.

Lemma geometry_length data sh : geometry data = Ok sh → String.length data = Z.to_nat BYTES.
Proof. intros [Hl _]%rbind_unit. apply require_Ok, Z.eqb_eq in Hl. unfold zlen in Hl. lia. Qed.
Lemma transition_length s r kind : transition s = Ok r → String.length (vector_of s kind) = Z.to_nat BYTES.
Proof.
  intros (o & Ho & (n & Hn & _)%rbind_Ok)%rbind_Ok. destruct kind; by eapply geometry_length.
Qed.

Lemma f2fs_length data user fs : f2fs_geometry data user = Ok fs → String.length data = 216%nat.
Proof.
  intros [_ [Hl _]%rbind_unit]%rbind_unit. apply require_Ok, andb_true_iff in Hl as [Hl%Z.eqb_eq _].
  unfold zlen in Hl. lia.
Qed.

Lemma read_tail_iff selection user rest fs :
  read_tail selection user rest = Ok fs ↔ tail_of selection user rest fs.
Proof.
  unfold read_tail. split.
  - intros (r & Hr & [He Hf]%rbind_unit)%rbind_Ok. apply require_Ok, String.eqb_eq in He. injection Hf as <-.
    destruct (elem_str selection AFTER_RESET) eqn:E.
    + apply rbind_unit in Hr as [Hc Hr]. apply rbind_Ok in Hr as (v & Hv & Hr).
      assert (r = (Some v, sdrop F2FS_SIZE rest)) as -> by congruence.
      apply require_Ok, andb_true_iff in Hc as [Hp _]. apply prefix_exists in Hp as [t ->].
      cbn [snd fst] in *. unfold F2FS_SIZE in He. rewrite sdrop_plus, sdrop_app in He by done. rewrite sdrop_app in Hv by done.
      rewrite <- (stake_sdrop 216 t), He. by constructor.
    + injection Hr as <-. cbn in *. subst rest. by constructor.
  - intros [E|data v E Hv]; rewrite E; cbn [rbind fst snd].
    + by rewrite String.eqb_refl.
    + pose proof (f2fs_length _ _ _ Hv) as Hl. unfold startswith. rewrite prefix_app.
      rewrite (proj2 (Nat.eqb_eq _ _)) by (unfold F2FS_SIZE; rewrite !str_length_app, Hl; cbn; lia). cbn [andb nreq Prelude.require rbind].
      rewrite sdrop_app, stake_app by done. rewrite Hv. cbn [rbind fst snd].
      unfold F2FS_SIZE. by rewrite sdrop_plus, !sdrop_app.
Qed.

Lemma gpt_decode_iff stdout selection s p : decode stdout selection s = Ok p ↔ evidence s stdout selection p.
Proof.
  unfold decode. split.
  - destruct (assoc selection SELECTIONS) as [[[command mode] kind]|] eqn:Es; [|done].
    intros [Hb (pb & Hp & Hd)%rbind_Ok]%rbind_unit. apply require_Ok, Z.leb_le in Hb.
    destruct (partition DATA_MARK stdout) as [[prefix body]|] eqn:Ep; [|done].
    apply rbind_unit in Hp as [Hp [= <-]]. apply require_Ok, andb_true_iff in Hp as [Hpl%Z.leb_le Hpe].
    cbn [fst snd] in Hd. apply rbind_Ok in Hd as (values & Hv & Hd).
    destruct (exists_last (bytes_lines_nonempty prefix ltac:(by intros ->))) as (lines & result & El).
    rewrite El, last_last, removelast_last in *. apply read_record_iff in Hv; [|done].
    do 11 (destruct values as [|? values]; [done|]). destruct values; [|done].
    apply rbind_unit in Hd as [Hc Hd]. apply require_Ok in Hc.
    rewrite !andb_true_iff, bool_decide_eq_true, !Z.eqb_eq in Hc. destruct Hc as [[[= -> -> -> -> ->] ->] <-].
    apply rbind_Ok in Hd as ([old new] & Ht & Hd). apply rbind_unit in Hd as [Hu Hd]. apply require_Ok in Hu.
    apply rbind_unit in Hd as [Hx Hd]. apply require_Ok, String.eqb_eq in Hx.
    apply rbind_Ok in Hd as (fs & Hfs & Hd). apply rbind_Ok in Hd as (events & He & Hd).
    apply rbind_unit in Hd as [Hk Hd]. apply Ok_inj in Hd as <-. rewrite Hx.
    apply read_tail_iff in Hfs. apply read_events_iff in He.
    eapply evidence_of; try done.
    + by rewrite <- Hx, stake_sdrop.
    + unfold reported. rewrite orb_true_iff, andb_true_iff, !bool_decide_eq_true, String.eqb_eq in Hu. exact Hu.
    + apply check_log_iff; [by eapply selection_mode|done].
  - intros Hev. destruct Hev as [command mode kind old new prefix lines result events user native writes skipped
      rest fs Es Hb Ep Hpl Hpe El He Hv Ht Hu Hfs Hk].
    rewrite Es, (proj2 (Z.leb_le _ _) Hb). cbn [nreq Prelude.require rbind]. rewrite Ep, (proj2 (Z.leb_le _ _) Hpl), Hpe.
    cbn [andb nreq Prelude.require rbind fst snd]. rewrite El, last_last, removelast_last.
    rewrite (proj2 (read_record_iff RESULT result _ _ eq_refl) Hv). cbn [rbind].
    rewrite bool_decide_true, !Z.eqb_refl by done. cbn [andb nreq Prelude.require rbind]. rewrite Ht. cbn [rbind].
    assert (Hu' : bool_decide ((user, native) = pair_of (if elem_str selection ["gpt-proposed"; "gpt-after-reset"] then new else old))
                  || (selection =? "gpt-restore")%string && bool_decide ((user, native) = pair_of new) = true).
    { rewrite orb_true_iff, andb_true_iff, !bool_decide_eq_true, String.eqb_eq. exact Hu. }
    rewrite Hu'. cbn [nreq Prelude.require rbind].
    pose proof (transition_length s _ kind Ht) as Hl. rewrite stake_app, sdrop_app by done.
    rewrite String.eqb_refl. cbn [nreq Prelude.require rbind].
    rewrite (proj2 (read_tail_iff _ _ _ _) Hfs). cbn [rbind]. rewrite (proj2 (read_events_iff _ _) He). cbn [rbind].
    rewrite (proj2 (check_log_iff mode events writes skipped (selection_mode _ _ _ _ Es)) Hk). done.
Qed.

(** ** The projection *)

(** Only [ValueError]s are raised. *)
Definition raises_values {A} (r : result A) : Prop :=
  match r with Ok _ => True | Err e => is_Some (value_error_text e) end.
Lemma raises_bind {A B} (m : result A) (k : A → result B) :
  raises_values m → (∀ a, raises_values (k a)) → raises_values (let* a := m in k a).
Proof. destruct m as [a|e]; cbn; auto. Qed.
Lemma raises_nreq b msg : raises_values (nreq b msg).
Proof. destruct b; cbn; by eauto. Qed.
Lemma raises_verr b msg : raises_values (verr b msg).
Proof. destruct b; cbn; by eauto. Qed.
Lemma raises_ints gs : raises_values (ints gs).
Proof.
  destruct (ints gs) as [ns|e] eqn:E; [done|]. destruct (ints_error _ _ E) as [m ->]. by eexists.
Qed.
Lemma raises_record ps l e : is_Some (value_error_text e) → raises_values (read_record ps l e).
Proof. intros He. unfold read_record. destruct (fullmatch ps l) as [gs|]; [apply raises_ints|exact He]. Qed.

Ltac raises :=
  repeat first
    [ exact I | by eexists | apply raises_nreq | apply raises_verr | apply raises_record; by eexists | apply raises_bind; [|intros ?]
    | match goal with
      | |- raises_values (if ?b then _ else _) => destruct b
      | |- raises_values (match ?x with _ => _ end) => destruct x
      end ].

Lemma raises_geometry data : raises_values (geometry data).
Proof. unfold geometry, declared_layout. cbv zeta. raises. Qed.
Lemma raises_transition s : raises_values (transition s).
Proof. unfold transition. cbv zeta. repeat (apply raises_bind; [apply raises_geometry|intros ?]). raises. Qed.
Lemma raises_f2fs data user : raises_values (f2fs_geometry data user).
Proof. unfold f2fs_geometry. cbv zeta. raises. Qed.
Lemma raises_tail selection user rest : raises_values (read_tail selection user rest).
Proof.
  unfold read_tail. apply raises_bind; [|intros ?; raises]. destruct (elem_str _ _); [|done].
  apply raises_bind; [raises|intros ?]. apply raises_bind; [apply raises_f2fs|done].
Qed.
Lemma raises_events lines : raises_values (read_events lines).
Proof. induction lines as [|l lines IH]; cbn; [done|]. raises. exact IH. Qed.
Lemma raises_copies n o events order w k : raises_values (copy_log n o events order w k).
Proof.
  revert o events order w k. induction n as [|n IH]; intros o events order w k; cbn [copy_log]; [done|].
  destruct events as [|[|e [|nu [|lba [|]]]] rest]; try by eexists.
  apply raises_bind; [apply raises_nreq|intros ?]. destruct (e =? 3); [apply IH|].
  destruct rest as [|nx rest]; [by eexists|]. apply raises_bind; [apply raises_nreq|intros ?; apply IH].
Qed.
Lemma raises_log mode events w c k : raises_values (check_log mode events w c k).
Proof.
  unfold check_log. destruct (mode =? 0); [apply raises_nreq|].
  apply raises_bind; [apply raises_nreq|intros ?]. apply raises_bind; [apply raises_copies|intros [[[? ?] ?] ?]].
  apply raises_bind; [apply raises_nreq|intros ?; apply raises_nreq].
Qed.

Lemma raises_gpt_decode stdout selection s : raises_values (decode stdout selection s).
Proof.
  unfold decode. destruct (assoc _ _) as [[[c mode] kind]|]; [|by eexists].
  apply raises_bind; [apply raises_nreq|intros ?]. apply raises_bind.
  { destruct (partition _ _) as [[prefix body]|]; [|by eexists]. apply raises_bind; [apply raises_nreq|done]. }
  intros [prefix body]. apply raises_bind; [apply raises_record; by eexists|intros values].
  do 11 (destruct values as [|? values]; [by eexists|]). destruct values; [|by eexists].
  apply raises_bind; [apply raises_nreq|intros ?].
  apply raises_bind; [apply raises_transition|intros [old new]].
  repeat (apply raises_bind; [apply raises_nreq|intros ?]).
  apply raises_bind; [apply raises_tail|intros ?]. apply raises_bind; [apply raises_events|intros ?].
  apply raises_bind; [apply raises_log|done].
Qed.

(** The command ran to its end as command 5, with nothing lost or on the error stream. *)
Definition clean_exit (terminal : option (list Z)) (stdout stderr : string) : Prop :=
  stderr = "" ∧ ∃ last, terminal = Some (5 :: 0 :: 0 :: 0 :: zlen stdout :: 0 :: last).

(** C15. The projection of a GPT command never raises, and it reports a pass exactly when
    the command was requested, ended cleanly and its output is the evidence of a whole
    run: a declared transition of the sealed vectors, the kernel's partition sizes, the
    target vector read back byte for byte, nothing after it but the fixed tail, and a
    log of exactly the block copies of the mode - none for an observation, all four in
    the fixed order for an application, four from either end for a restoration.  Every
    field of that evidence is then a field of the report. *)
Theorem gpt_projection_exact selection s stdout stderr terminal requested :
  ∃ v, project selection s stdout stderr terminal requested = Ok (JObj v) ∧
    (fld v "status" = JStr "PASS_EXACT_GPT"
     ↔ requested = true ∧ clean_exit terminal stdout stderr
       ∧ ∃ p, evidence s stdout selection p ∧ ∀ k x, (k, x) ∈ proof_fields p → fld v k = x).
Proof.
  unfold project. destruct requested; cbn [negb].
  2: { eexists. split; [reflexivity|]. split; [done|]. by intros [? _]. }
  match goal with |- context [if negb ?b then _ else _] => destruct b eqn:Ec end; cbn [negb].
  2: { eexists. split; [reflexivity|]. split; [done|]. intros (_ & [-> [last ->]] & _).
       rewrite bool_decide_true, !Z.eqb_refl in Ec by done. done. }
  assert (Hc : clean_exit terminal stdout stderr).
  { destruct terminal as [[|a [|b [|c [|d [|n [|m l]]]]]]|]; try done.
    rewrite !andb_true_iff, bool_decide_eq_true, !Z.eqb_eq, String.eqb_eq in Ec.
    destruct Ec as [[[[= -> -> -> ->] ->] ->] ->]. split; [done|by exists l]. }
  pose proof (raises_gpt_decode stdout selection s) as Hr. pose proof (gpt_decode_iff stdout selection s) as Hd.
  destruct (decode stdout selection s) as [p|e].
  - eexists. split; [reflexivity|]. split; [|done]. intros _. split_and!; [done..|]. exists p.
    split; [by apply Hd|]. assert (gp_selection p = selection) as Hs.
    { by destruct (proj1 (Hd p) eq_refl). }
    intros k x Hk. unfold proof_fields in Hk. rewrite Hs in Hk.
    repeat (apply elem_of_cons in Hk as [[= -> ->]|Hk]; [reflexivity|]). by apply not_elem_of_nil in Hk.
  - destruct Hr as [m Hm]. rewrite Hm. eexists. split; [reflexivity|]. split; [done|].
    intros (_ & _ & p & Hp & _). apply Hd in Hp. done.
Qed.

(** A profile is built on a declared transition only, and mutates in two modes. *)
Lemma vectors_declared root_path loads fs binding s :
  vectors root_path loads fs binding = Ok s → ∃ old new, transition s = Ok (old, new).
Proof.
  unfold vectors. destruct binding as [| | | | | | |b]; try done.
  intros (_ & _ & (at_ & _ & (value & _ & (j & _ & (_ & _ & (rows & _ & (named & _ & Hv)%rbind_Ok)%rbind_Ok)%rbind_Ok)%rbind_Ok)%rbind_Ok)%rbind_Ok)%rbind_Ok.
  apply rbind_unit in Hv as [_ (o & _ & (p & _ & ([old new] & Ht & Hv)%rbind_Ok)%rbind_Ok)%rbind_Ok].
  apply rbind_Ok in Hv as (layout & _ & (exact & _ & (_ & _ & (_ & _ & Hv)%rbind_Ok)%rbind_Ok)%rbind_Ok).
  apply Ok_inj in Hv as <-. by eexists _, _.
Qed.

Lemma profile_declared root_path loads fs profile run gpt selection x :
  Profile root_path loads fs profile run gpt selection = Ok x →
  ∃ s old new, transition s = Ok (old, new) ∧ xp_project x = project selection s
    ∧ (xp_mutates x = true ↔ selection = "gpt-apply" ∨ selection = "gpt-restore").
Proof.
  unfold Profile. destruct (profile =? PROFILE)%string; [|done].
  destruct (assoc selection SELECTIONS) as [[[c mode] kind]|] eqn:Es; [|done].
  intros (_ & _ & (s & Hs & (body & _ & Hx)%rbind_Ok)%rbind_Ok)%rbind_Ok. apply Ok_inj in Hx as <-.
  apply vectors_declared in Hs as (old & new & Ht). exists s, old, new. split_and!; [done..|]. cbn.
  revert Es. unfold SELECTIONS. cbn [assoc].
  repeat (match goal with |- context [(?a =? ?b)%string] => destruct (String.eqb_spec a b) as [Ee|?] end;
          [subst selection; intros Ee; injection Ee as _ <- _; cbn; split;
           [intros ?; first [discriminate|by left|by right]|intros [? | ?]; first [reflexivity|discriminate]]|]).
  done.
Qed.
End Digests.

(** ** An application and a restoration evaluated *)

#[local] Existing Instance checksum_digest.

Definition utf16_ascii (s : string) : string :=
  String.concat "" (map (λ c, String c (String nul "")) (String.list_ascii_of_string s)).
Definition vector_with (last low high : Z) (name : string) : string :=
  nuls (Z.to_nat 13216) ++ le 8 3726848 ++ le 8 last ++ nuls 80
  ++ nuls 32 ++ le 8 low ++ le 8 high ++ nuls 8 ++ name ++ nuls (Z.to_nat (48072 - zlen name)).
Definition reservation : sealed := {|
  se_original := vector_with 62305270 0 0 "";
  se_proposed := vector_with 28750591 28750592 62305023 (utf16_ascii "native_data") |}.

Definition step (event ordinal lba : string) : string :=
  "GPT1_STEP event=" ++ event ++ " ordinal=" ++ ordinal ++ " lba=" ++ lba ++ nl.
Definition copy (ordinal lba : string) : string := step "1" ordinal lba ++ step "2" ordinal lba.
Definition report (mode writes skipped kind user native : string) : string :=
  "GPT1_RESULT mode=" ++ mode ++ " status=0 io_errno=0 close_errno=0 writes=" ++ writes ++ " completed=" ++ writes
  ++ " skipped=" ++ skipped ++ " last_read_kind=" ++ kind ++ " userdata_sectors=" ++ user
  ++ " native_sectors=" ++ native ++ " filesystem_errno=0" ++ nl.

Definition applied : string :=
  copy "0" "62305272" ++ copy "1" "62305279" ++ copy "2" "3" ++ copy "3" "1"
  ++ report "1" "4" "0" "2" "468627384" "0" ++ DATA_MARK ++ se_proposed reservation ++ END_MARK.
Definition restored : string :=
  step "3" "0" "3" ++ copy "1" "1" ++ copy "2" "62305272" ++ step "3" "3" "62305279"
  ++ report "2" "2" "2" "1" "200189952" "268435456" ++ DATA_MARK ++ se_original reservation ++ END_MARK.

Definition status_of (r : result json) : json := match r with Ok (JObj v) => fld v "status" | _ => JNull end.
Definition reason_of (r : result json) : json := match r with Ok (JObj v) => fld v "reason" | _ => JNull end.
Definition run_of (selection stdout : string) : result json :=
  project selection reservation stdout "" (Some [5; 0; 0; 0; zlen stdout; 0; 0]) true.

Example application_passes : status_of (run_of "gpt-apply" applied) = JStr "PASS_EXACT_GPT".
Proof. vm_compute. reflexivity. Qed.
Example restoration_passes : status_of (run_of "gpt-restore" restored) = JStr "PASS_EXACT_GPT".
Proof. vm_compute. reflexivity. Qed.
(** The log of a restoration is not one of an application. *)
Example restoration_is_no_application :
  reason_of (run_of "gpt-apply" restored) = JStr "GPT command did not report a complete successful final read".
Proof. vm_compute. reflexivity. Qed.
