(* ===== verification/Ext4Profile.v ===== *)
(** * Evidence of the filesystem commands

    [s22plus_native_ext4_profile_v1.py]: the decoder of what the fixed filesystem
    helper of the image printed - a stage line per step, the framed output of the
    formatter and the checker, and one result record - and its projection into an
    arrival.

    The decoder accepts exactly the outputs of a whole run: every step of the selection
    once and in order, the formatter silent, the checker's five passes and its summary
    with the fixed number of files, and a result record of the complete outcome; the
    projection never raises. *)

From stdpp Require Import base list strings.
From Stdlib Require Import ZArith NArith Lia Ascii.
From S2P Require Import Prelude PyStr PyText Json Digest Bytes Console TextRecords Arrival GptProfile.
Open Scope string_scope.
Open Scope Z_scope.


Definition SCHEMA : string := "s22plus-native-ext4-v1".
Definition FIRST_LBA : Z := 12115456.
Definition LAST_LBA : Z := 62305023.
Definition BLOCK_COUNT : Z := LAST_LBA - FIRST_LBA + 1.
Definition WITNESS : string :=
  stake (Z.to_nat 4096) ("S22PLUS_NATIVE_EXT4_V1" ++ nl
    ++ String.concat "" (map (λ i, le 1 (Z.land (Z.of_nat i * 17 + 31) 255)) (seq 0 (Z.to_nat 4096)))).
Definition READER_PROFILE : string := "thermal-v3-reconnect-ufs-drain-ext4-reader-v1".
Definition INITIALIZER_PROFILE : string := "thermal-v3-reconnect-ufs-drain-ext4-initialize-v1".
(** [SELECTIONS] with their indices *)
Definition SELECTIONS : list (string * Z) :=
  [("filesystem-inspect", 0); ("filesystem-initialize", 1); ("filesystem-verify", 2)].

Definition flag : part := one_of "0" "1".
Definition RESULT : list part :=
  [Word "FS1_RESULT mode="; one_of "0" "2"; Word " status="; flag; Word " last="; number; Word " failed="; number;
   Word " errno="; number; Word " formatted="; flag; Word " mounted="; flag; Word " witness="; flag;
   Word " synced="; flag; Word " unmounted="; flag; Word " cleanup_attempted="; flag; Word " cleanup_failed="; flag;
   Word " cleanup_errno="; number; Word " helper_reaped="; flag; Word " helper_status="; number;
   Word " blocks="; number].
Definition SUMMARY : list part :=
  [Word "S22DEBIAN: "; number; Word "/"; number; Word " files ("; number; Word "."; one_of "0" "9";
   Word "% non-contiguous), "; number; Word "/"; number; Word " blocks"].
Definition CHECKER_STDERR : string := "e2fsck 1.47.2 (1-Jan-2025)" ++ nl.
Definition PASSES : list string :=
  ["Pass 1: Checking inodes, blocks, and sizes"; "Pass 2: Checking directory structure";
   "Pass 3: Checking directory connectivity"; "Pass 4: Checking reference counts";
   "Pass 5: Checking group summary information"].

(** The values of a complete run *)
Definition wanted (mode : Z) : list Z :=
  if mode =? 0 then [0; 0; 1; 0; 0; 0; 0; 0; 0; 0; 0; 0; 0; 0; 0; BLOCK_COUNT]
  else let fresh := if mode =? 1 then 1 else 0 in
       [mode; 0; 9; 0; 0; fresh; 1; 1; fresh; 1; 0; 0; 0; 1; 0; BLOCK_COUNT].
Definition steps_of (mode : Z) : list Z :=
  if mode =? 0 then [1] else if mode =? 1 then [1; 2; 3; 4; 5; 6; 7; 8; 9] else [1; 3; 4; 5; 6; 8; 9].

Definition step_line (step : Z) : string := "FS1_STEP step=" ++ str_of_Z step ++ " errno=0".
Definition begin_line (tool : string) : string := "FS1_TOOL_BEGIN tool=" ++ tool.
Definition end_line (tool : string) : string := "FS1_TOOL_END tool=" ++ tool ++ " status=0 reaped=1".

(** ** The sections *)

(** The lines before the end line, and the lines from it on *)
Fixpoint tool_output (end_ : string) (lines : list string) : result (list string * list string) :=
  match lines with
  | [] => Ok ([], [])
  | l :: rest =>
      if (l =? end_)%string then Ok ([], lines)
      else if startswith "FS1_" l then Err (PyValueError "unexpected filesystem record inside tool output")
      else let* r := tool_output end_ rest in Ok (l :: r.1, r.2)
  end.

Definition SUMMARY_ERROR : pyexc := PyValueError "filesystem checker geometry or fixed-file count differs".
(** [int(used) != ... or not int(used) <= int(total) or ...]: a later number is read only
    where the earlier ones are right. *)
Definition check_counts (mode : Z) (groups : list string) : result unit :=
  match groups with
  | [used; total; _; _; allocated; blocks] =>
      let* u := int_digits used in
      do* Prelude.require (u =? (if mode =? 1 then 11 else 12)) SUMMARY_ERROR in
      let* t := int_digits total in
      do* Prelude.require (u <=? t) SUMMARY_ERROR in
      let* b := int_digits blocks in
      do* Prelude.require (b =? BLOCK_COUNT) SUMMARY_ERROR in
      let* a := int_digits allocated in
      Prelude.require ((0 <? a) && (a <? BLOCK_COUNT)) SUMMARY_ERROR
  | _ => Err (PyValueError "not enough values to unpack")
  end.

Definition check_summary (mode : Z) (actual : list string) : result unit :=
  match (if (length actual =? 6)%nat && bool_decide (take 5 actual = PASSES)
         then fullmatch SUMMARY (List.last actual "") else None) with
  | None => Err (PyValueError "filesystem checker summary differs")
  | Some groups => check_counts mode groups
  end.

Definition tool_of (step : Z) : option string :=
  if step =? 2 then Some "format" else if step =? 4 then Some "check" else None.

(** One tool: its name and output, and the lines after its end line *)
Definition read_tool (mode : Z) (tool : string) (lines : list string)
    : result ((string * string) * list string) :=
  match lines with
  | l :: rest =>
      do* verr (l =? begin_line tool)%string "filesystem tool start differs" in
      let* o := tool_output (end_line tool) rest in
      match o.2 with
      | [] => Err (PyValueError "filesystem tool has no successful reaped terminal")
      | _ :: after =>
          let output := String.concat nl o.1 in
          do* verr (negb ((tool =? "format")%string && negb (output =? "")%string))
                "quiet formatter produced unexpected output" in
          do* (if (tool =? "check")%string then check_summary mode o.1 else Ok tt) in
          Ok ((tool, output), after)
      end
  | [] => Err (PyValueError "filesystem tool start differs")
  end.

Fixpoint read_steps (mode : Z) (steps : list Z) (lines : list string)
    : result (list (string * string) * list string) :=
  match steps with
  | [] => Ok ([], lines)
  | step :: steps' =>
      let* t := match tool_of step with
                | Some tool => let* r := read_tool mode tool lines in Ok ([r.1], r.2)
                | None => Ok ([], lines)
                end in
      match t.2 with
      | l :: rest =>
          do* verr (l =? step_line step)%string "filesystem stage order or outcome differs" in
          let* r := read_steps mode steps' rest in Ok ((t.1 ++ r.1)%list, r.2)
      | [] => Err (PyValueError "filesystem stage order or outcome differs")
      end
  end.

(** ** The whole output *)

Record proof := { fp_selection : string; fp_mode : Z; fp_tools : list (string * string) }.

Section Digests.
Context `{Digest}.

Definition proof_fields (p : proof) : dict :=
  let mode := fp_mode p in
  [("status", JStr (if mode =? 0 then "PASS_PARTITION_BINDING"
                    else if mode =? 1 then "PASS_INITIALIZED_WRITTEN_CLEAN_UNMOUNT"
                    else "PASS_READONLY_WITNESS_CLEAN_UNMOUNT"));
   ("selection", JStr (fp_selection p)); ("block_count", JInt BLOCK_COUNT);
   ("witness_sha256", if mode =? 0 then JNull else JStr (hexdigest WITNESS));
   ("formatted", JBool (mode =? 1)); ("clean_unmounted", JBool (negb (mode =? 0)));
   ("tools", JList (map (λ t, JObj [("tool", JStr t.1); ("stdout_sha256", JStr (hexdigest t.2))]) (fp_tools p)));
   ("fresh_boot_proved", JBool false)].

Definition decode (stdout stderr selection : string) : result proof :=
  match assoc selection SELECTIONS with
  | None => Err (PyValueError "filesystem proof types differ")
  | Some mode =>
      do* verr ((zlen stdout <=? 32768) && (zlen stderr <=? 8192) && endswith nl stdout)
            "filesystem proof is truncated or oversized" in
      let lines := bytes_lines stdout in
      let* values := read_record RESULT (List.last lines "") (PyValueError "complete filesystem result is absent") in
      do* verr (bool_decide (values = wanted mode)) "filesystem command did not prove the selected complete outcome" in
      do* verr (stderr =? (if (mode =? 0)%Z then "" else CHECKER_STDERR))%string "unexpected filesystem tool diagnostics" in
      let* r := read_steps mode (steps_of mode) lines in
      do* verr (length r.2 =? 1)%nat "filesystem proof has extra records" in
      Ok {| fp_selection := selection; fp_mode := mode; fp_tools := r.1 |}
  end.

(** ** [Profile] *)

Definition project (selection stdout stderr : string) (terminal : option (list Z)) (requested : bool) : result json :=
  let row data := JObj [("size", JInt (zlen data)); ("sha256", JStr (hexdigest data))] in
  let value status more :=
    JObj ([("schema", JStr SCHEMA); ("status", JStr status); ("selection", JStr selection);
           ("requested", JBool requested); ("stdout", row stdout); ("stderr", row stderr);
           ("grants_device_authority", JBool false)] ++ more) in
  let no_proof reason := Ok (value "NO_PROOF" [("reason", JStr reason)]) in
  if negb requested then no_proof "ORIGINAL_OBSERVATION_BUDGET_INSUFFICIENT"
  else
    let completed := match terminal with
                     | Some (a :: b :: c :: d :: total :: dropped :: _) =>
                         bool_decide ((a, b, c, d) = (5, 0, 0, 0)) && (total =? zlen stdout + zlen stderr) && (dropped =? 0)
                     | _ => false
                     end in
    if negb completed then no_proof "FILESYSTEM_COMMAND_DID_NOT_COMPLETE_SUCCESSFULLY"
    else match decode stdout stderr selection with
         | Err e => match value_error_text e with Some m => no_proof m | None => Err e end
         | Ok p => Ok (value (match fld (proof_fields p) "status" with JStr t => t | _ => "" end)
                             (drop 2 (proof_fields p)))
         end.

(** [Profile(image, selection)] *)
Definition Profile (profile run_id_hex selection : string) : result extra_profile :=
  do* verr (match assoc selection SELECTIONS with Some _ => true | None => false end
            && elem_str profile [READER_PROFILE; INITIALIZER_PROFILE]
            && (String.length run_id_hex =? 32)%nat && all_chars is_hex run_id_hex)
        "filesystem image or command selection differs" in
  let mutates := (selection =? "filesystem-initialize")%string in
  let inspects := (selection =? "filesystem-inspect")%string in
  do* verr (Bool.eqb (profile =? INITIALIZER_PROFILE)%string mutates)
        "filesystem command is outside the compiled image role" in
  let name := sdrop (String.length "filesystem-") selection in
  let* body := command ("exec /s22-fs " ++ name ++ " " ++ run_id_hex) "/s22-root-work"
                 (if inspects then 15000 else 240000) in
  Ok {| xp_body := body; xp_key := "filesystem"; xp_project := project selection; xp_mutates := mutates;
        xp_admission := if inspects then 17000 else 245000; xp_settle := 0;
        xp_observation := if inspects then 60000 else 300000 |}.
End Digests.


(** ** What filesystem evidence proves *)

(** ** Scripts *)

(** The summary of a clean filesystem that holds the fixed number of files *)
Definition clean_summary (mode : Z) (line : string) : Prop :=
  ∃ used total whole tenth allocated blocks t a,
    matches SUMMARY line [used; total; whole; tenth; allocated; blocks]
    ∧ int_digits used = Ok (if mode =? 1 then 11 else 12) ∧ int_digits total = Ok t
    ∧ int_digits allocated = Ok a ∧ int_digits blocks = Ok BLOCK_COUNT
    ∧ (if mode =? 1 then 11 else 12) ≤ t ∧ 0 < a < BLOCK_COUNT.

(** What a tool may print: the formatter nothing, or one empty line; the checker its passes and summary *)
Inductive tool_printed (mode : Z) : string → list string → Prop :=
  | formatter_quiet : tool_printed mode "format" []
  | formatter_blank : tool_printed mode "format" [""]
  | checker_clean line : clean_summary mode line → tool_printed mode "check" (PASSES ++ [line])%list.

(** The lines of a step, and the tools it ran *)
Inductive step_lines (mode step : Z) : list string → list (string * string) → Prop :=
  | step_plain : tool_of step = None → step_lines mode step [step_line step] []
  | step_tool tool out :
      tool_of step = Some tool → tool_printed mode tool out →
      step_lines mode step (begin_line tool :: out ++ [end_line tool; step_line step])
        [(tool, String.concat nl out)].
Inductive script (mode : Z) : list Z → list string → list (string * string) → Prop :=
  | script_end : script mode [] [] []
  | script_step step steps ls tools ls' tools' :
      step_lines mode step ls tools → script mode steps ls' tools' →
      script mode (step :: steps) (ls ++ ls') (tools ++ tools').

Lemma check_summary_iff mode out :
  check_summary mode out = Ok tt ↔ ∃ line, out = (PASSES ++ [line])%list ∧ clean_summary mode line.
Proof.
  unfold check_summary. split.
  - destruct (_ && _) eqn:E; [|done]. apply andb_true_iff in E as [El%Nat.eqb_eq Et%bool_decide_eq_true].
    do 6 (destruct out as [|? out]; [done|]). destruct out; [|done]. cbn in Et. injection Et as -> -> -> -> ->.
    cbn [List.last]. destruct (fullmatch SUMMARY _) as [gs|] eqn:Ef; [|done].
    apply fullmatch_iff in Ef; [|done]. unfold check_counts.
    do 6 (destruct gs as [|? gs]; [done|]). destruct gs; [|done].
    intros (u & Hu & [Hu'%require_Ok%Z.eqb_eq (t & Ht & [Ht'%require_Ok (b & Hb & [Hb'%require_Ok%Z.eqb_eq (a & Ha & Hc%require_Ok)%rbind_Ok]%rbind_unit)%rbind_Ok]%rbind_unit)%rbind_Ok]%rbind_unit)%rbind_Ok.
    subst u b. eexists. split; [reflexivity|]. do 8 eexists. split_and!; try done; lia.
  - intros (line & -> & used & total & whole & tenth & allocated & blocks & t & a & Hm & Hu & Ht & Ha & Hb & Hl & Hl').
    change (List.last (PASSES ++ [line]) "") with line. cbn [length PASSES app andb Nat.eqb].
    rewrite bool_decide_true by done. apply (fullmatch_iff SUMMARY) in Hm as ->; [|done]. unfold check_counts.
    rewrite Hu. cbn [rbind]. rewrite Z.eqb_refl. cbn [Prelude.require rbind]. rewrite Ht. cbn [rbind].
    rewrite (proj2 (Z.leb_le _ _) Hl). cbn [Prelude.require rbind]. rewrite Hb. cbn [rbind]. rewrite Z.eqb_refl.
    cbn [Prelude.require rbind]. rewrite Ha. cbn [rbind].
    rewrite (proj2 (Z.ltb_lt 0 a)), (proj2 (Z.ltb_lt a BLOCK_COUNT)) by lia. done.
Qed.

(** The tool's lines are the ones before its end line, and none of them is a record. *)
Definition plain_line (end_ l : string) : Prop := l ≠ end_ ∧ startswith "FS1_" l = false.
Lemma tool_output_iff end_ lines out l after :
  tool_output end_ lines = Ok (out, l :: after) ↔ l = end_ ∧ lines = (out ++ end_ :: after)%list ∧ Forall (plain_line end_) out.
Proof.
  split.
  - revert out. induction lines as [|x lines IH]; intros out; cbn; [done|].
    destruct (String.eqb_spec x end_) as [->|Hx]; [by intros [= <- <- <-]|].
    destruct (startswith "FS1_" x) eqn:E; [done|]. intros ([o r] & Ho & [= <- ->])%rbind_Ok.
    apply IH in Ho as (-> & -> & Ho). split_and!; [done..|]. by constructor.
  - intros (-> & -> & Ho). induction Ho as [|x out [Hx E] _ IH]; cbn; [by rewrite String.eqb_refl|].
    apply String.eqb_neq in Hx. by rewrite Hx, E, IH.
Qed.

Lemma summary_plain mode line end_ : clean_summary mode line → startswith "FS1_" end_ = true → plain_line end_ line.
Proof.
  intros (? & ? & ? & ? & ? & ? & ? & ? & Hm & _) He. assert (E : startswith "FS1_" line = false).
  { inversion Hm. done. }
  split; [|done]. intros ->. by rewrite E in He.
Qed.

Lemma printed_plain mode tool out : tool_printed mode tool out → Forall (plain_line (end_line tool)) out.
Proof.
  intros [| |line Hl].
  - done.
  - repeat constructor. done.
  - apply Forall_app. split; [repeat constructor; done|].
    apply Forall_singleton. by eapply summary_plain.
Qed.

Lemma concat_empty sep out : sep ≠ "" → String.concat sep out = "" → out = [] ∨ out = [""].
Proof.
  intros Hs. destruct out as [|x [|y out]]; cbn; [by left|intros ->; by right|].
  destruct x; [|done]. cbn. by destruct sep.
Qed.

Lemma read_tool_iff mode step tool lines t after :
  tool_of step = Some tool →
  read_tool mode tool lines = Ok (t, after) ↔
  ∃ out, tool_printed mode tool out ∧ lines = (begin_line tool :: out ++ end_line tool :: after)%list
    ∧ t = (tool, String.concat nl out).
Proof.
  intros Htool. assert (Ht : tool = "format" ∨ tool = "check").
  { unfold tool_of in Htool. destruct (step =? 2); [left|destruct (step =? 4); [right|done]]; congruence. }
  unfold read_tool. split.
  - destruct lines as [|l lines]; [done|]. intros [Hb%require_Ok%String.eqb_eq (o & Ho & Hr)%rbind_Ok]%rbind_unit.
    destruct o as [out [|e rest]]; [done|]. cbn [fst snd] in Hr. apply tool_output_iff in Ho as (-> & -> & _).
    apply rbind_unit in Hr as [Hq [Hc [= <- <-]]%rbind_unit]. apply require_Ok, negb_true_iff in Hq.
    exists out. split_and!; [|by rewrite Hb|done]. destruct Ht as [-> | ->]; cbn in Hq, Hc.
    + apply negb_false_iff, String.eqb_eq, concat_empty in Hq as [-> | ->]; [constructor..|done].
    + apply check_summary_iff in Hc as (line & -> & Hl). by constructor.
  - intros (out & Hp & -> & ->). rewrite String.eqb_refl. cbn [verr Prelude.require rbind].
    pose proof (printed_plain _ _ _ Hp) as Hpl.
    rewrite (proj2 (tool_output_iff (end_line tool) _ out _ after) (conj eq_refl (conj eq_refl Hpl))).
    cbn [rbind fst snd]. destruct Hp as [| |line Hl]; [done..|].
    cbn [String.eqb Ascii.eqb Bool.eqb andb negb verr Prelude.require rbind].
    rewrite (proj2 (check_summary_iff mode _)) by eauto. done.
Qed.

Lemma read_steps_iff mode steps lines tools rest :
  read_steps mode steps lines = Ok (tools, rest) ↔ ∃ ls, lines = (ls ++ rest)%list ∧ script mode steps ls tools.
Proof.
  revert lines tools. induction steps as [|step steps IH]; intros lines tools; cbn [read_steps].
  { split; [intros [= <- <-]; exists []; split; [done|constructor]|].
    intros (ls & -> & Hs). by inversion Hs. }
  split.
  - intros ([ts lines'] & Ht & Hr)%rbind_Ok. cbn [fst snd] in Hr. destruct lines' as [|l lines']; [done|].
    apply rbind_unit in Hr as [Hl%require_Ok%String.eqb_eq ([ts' rest'] & Hr & [= <- ->])%rbind_Ok].
    apply IH in Hr as (ls & -> & Hs). destruct (tool_of step) as [tool|] eqn:Et.
    + apply rbind_Ok in Ht as ([t after] & Ht & [= <- Ha]). cbn in Ha. subst after.
      apply (read_tool_iff mode step) in Ht as (out & Hp & -> & ->); [|done].
      eexists (_ ++ ls)%list. split; [|econstructor; [by eapply step_tool|done]]. subst l. cbn. by rewrite <- !(assoc_L (++)%list).
    + injection Ht as <- ->. eexists ([_] ++ ls)%list. split; [cbn; by rewrite Hl|].
      econstructor; [by eapply step_plain|done].
  - intros (ls & -> & Hs). inversion Hs as [|? ? ls1 ts1 ls2 ts2 Hst Hs2 E1 E2 E3]. subst.
    assert (Hr : read_steps mode steps (ls2 ++ rest) = Ok (ts2, rest)) by (apply IH; eauto).
    inversion Hst as [Et|tool out Et Hp]; subst; rewrite Et; cbn [rbind fst snd app].
    + rewrite String.eqb_refl. cbn [verr Prelude.require rbind]. by rewrite Hr.
    + rewrite (proj2 (read_tool_iff mode step tool _ (tool, String.concat nl out) (step_line step :: ls2 ++ rest) Et)).
      2: { exists out. split_and!; [done| |done]. by rewrite <- !(assoc_L (++)%list). }
      cbn [rbind fst snd]. rewrite String.eqb_refl. cbn [verr Prelude.require rbind]. by rewrite Hr.
Qed.

(** ** The whole output *)

Section Digests.
Context `{Digest}.

Inductive evidence (stdout stderr selection : string) : proof → Prop :=
  | evidence_of mode body result tools :
      assoc selection SELECTIONS = Some mode →
      zlen stdout ≤ 32768 → endswith nl stdout = true →
      bytes_lines stdout = (body ++ [result])%list →
      script mode (steps_of mode) body tools →
      denotes RESULT result (wanted mode) →
      stderr = (if mode =? 0 then "" else CHECKER_STDERR) →
      evidence stdout stderr selection {| fp_selection := selection; fp_mode := mode; fp_tools := tools |}.

Lemma filesystem_decode_iff stdout stderr selection p :
  decode stdout stderr selection = Ok p ↔ evidence stdout stderr selection p.
Proof.
  unfold decode. split.
  - destruct (assoc selection SELECTIONS) as [mode|] eqn:Es; [|done].
    intros [Hb%require_Ok (values & Hv & [Hw%require_Ok%bool_decide_eq_true [He%require_Ok%String.eqb_eq
      ([tools rest] & Hs & [Hl%require_Ok%Nat.eqb_eq [= <-]]%rbind_unit)%rbind_Ok]%rbind_unit]%rbind_unit)%rbind_Ok]%rbind_unit.
    apply andb_true_iff in Hb as [[Hb%Z.leb_le _]%andb_true_iff Hn].
    apply read_steps_iff in Hs as (body & Eb & Hs). cbn in Hl. destruct rest as [|result [|]]; [done| |done].
    rewrite Eb, last_last in Hv. apply read_record_iff in Hv; [|done]. subst values. by eapply evidence_of.
  - intros [mode body result tools Es Hb Hn Eb Hs Hd He]. rewrite Es, (proj2 (Z.leb_le _ _) Hb), Hn.
    replace (zlen stderr <=? 8192) with true by (subst stderr; by destruct (mode =? 0)).
    cbn [andb verr Prelude.require rbind]. rewrite Eb, last_last.
    rewrite (proj2 (read_record_iff RESULT result _ _ eq_refl) Hd). cbn [rbind].
    rewrite bool_decide_true by done. cbn [verr Prelude.require rbind].
    rewrite (proj2 (String.eqb_eq _ _) He). cbn [verr Prelude.require rbind].
    rewrite (proj2 (read_steps_iff mode _ _ tools [result])) by eauto. done.
Qed.

(** ** The projection *)

Lemma raises_digits s : raises_values (int_digits s).
Proof. unfold int_digits. destruct (_ <=? _)%nat; [done|by eexists]. Qed.
Lemma raises_counts mode gs : raises_values (check_counts mode gs).
Proof.
  unfold check_counts. do 6 (destruct gs as [|? gs]; [by eexists|]). destruct gs; [|by eexists].
  repeat (apply raises_bind; [first [apply raises_digits|apply (raises_verr _ "filesystem checker geometry or fixed-file count differs")]|intros ?]).
  apply (raises_verr _ "filesystem checker geometry or fixed-file count differs").
Qed.
Lemma raises_summary mode out : raises_values (check_summary mode out).
Proof.
  unfold check_summary. destruct (_ && _); [|by eexists].
  destruct (fullmatch _ _) as [gs|]; [apply raises_counts|by eexists].
Qed.
Lemma raises_output end_ lines : raises_values (tool_output end_ lines).
Proof.
  induction lines as [|l lines IH]; cbn; [done|]. destruct (_ =? _)%string; [done|].
  destruct (startswith _ _); [by eexists|]. by apply raises_bind.
Qed.
Lemma raises_tool mode tool lines : raises_values (read_tool mode tool lines).
Proof.
  destruct lines as [|l lines]; cbn; [by eexists|]. apply raises_bind; [apply raises_verr|intros ?].
  apply raises_bind; [apply raises_output|intros [out [|e rest]]]; [by eexists|]. cbn.
  apply raises_bind; [apply raises_verr|intros ?]. apply raises_bind; [|done].
  destruct (_ =? _)%string; [apply raises_summary|done].
Qed.
Lemma raises_steps mode steps lines : raises_values (read_steps mode steps lines).
Proof.
  revert lines. induction steps as [|step steps IH]; intros lines; cbn [read_steps]; [done|].
  apply raises_bind.
  { destruct (tool_of step); [|done]. by apply raises_bind; [apply raises_tool|]. }
  intros [ts [|l rest]]; cbn; [by eexists|]. apply raises_bind; [apply raises_verr|intros ?].
  by apply raises_bind; [apply IH|].
Qed.
Lemma raises_filesystem_decode stdout stderr selection : raises_values (decode stdout stderr selection).
Proof.
  unfold decode. destruct (assoc _ _) as [mode|]; [|by eexists].
  apply raises_bind; [apply raises_verr|intros ?]. apply raises_bind; [apply raises_record; by eexists|intros ?].
  repeat (apply raises_bind; [apply raises_verr|intros ?]). apply raises_bind; [apply raises_steps|intros [? ?]].
  by apply raises_bind; [apply raises_verr|].
Qed.

Definition clean_exit (terminal : option (list Z)) (stdout stderr : string) : Prop :=
  ∃ last, terminal = Some (5 :: 0 :: 0 :: 0 :: zlen stdout + zlen stderr :: 0 :: last).

(** C16. The projection of a filesystem command never raises, and it reports something
    else than no proof exactly when the command was requested, ended cleanly and its
    output is the evidence of a whole run of its selection: each step once and in
    order, the formatter silent, the checker's passes and a summary with the fixed
    number of files, nothing more, and a result record of the complete outcome.  Every
    field of that evidence is then a field of the report. *)
Theorem filesystem_projection_exact selection stdout stderr terminal requested :
  ∃ v, project selection stdout stderr terminal requested = Ok (JObj v) ∧
    (fld v "status" ≠ JStr "NO_PROOF"
     ↔ requested = true ∧ clean_exit terminal stdout stderr
       ∧ ∃ p, evidence stdout stderr selection p ∧ ∀ k x, (k, x) ∈ proof_fields p → fld v k = x).
Proof.
  unfold project. destruct requested; cbn [negb].
  2: { eexists. split; [reflexivity|]. split; [done|]. by intros [? _]. }
  match goal with |- context [if negb ?b then _ else _] => destruct b eqn:Ec end; cbn [negb].
  2: { eexists. split; [reflexivity|]. split; [done|]. intros (_ & [last ->] & _).
       rewrite bool_decide_true, !Z.eqb_refl in Ec by done. done. }
  assert (Hc : clean_exit terminal stdout stderr).
  { destruct terminal as [[|a [|b [|c [|d [|n [|m l]]]]]]|]; try done.
    rewrite !andb_true_iff, bool_decide_eq_true, !Z.eqb_eq in Ec.
    destruct Ec as [[[= -> -> -> ->] ->] ->]. by exists l. }
  pose proof (raises_filesystem_decode stdout stderr selection) as Hr. pose proof (filesystem_decode_iff stdout stderr selection) as Hd.
  destruct (decode stdout stderr selection) as [p|e].
  - eexists. split; [reflexivity|]. assert (fp_selection p = selection) as Hs.
    { by destruct (proj1 (Hd p) eq_refl). }
    split.
    + intros _. split_and!; [done..|]. exists p. split; [by apply Hd|]. intros k x Hk.
      unfold proof_fields in *. rewrite Hs in Hk.
      repeat (apply elem_of_cons in Hk as [[= -> ->]|Hk]; [reflexivity|]). by apply not_elem_of_nil in Hk.
    + intros _. unfold proof_fields. cbn. by destruct (fp_mode p =? 0), (fp_mode p =? 1).
  - destruct Hr as [m Hm]. rewrite Hm. eexists. split; [reflexivity|]. split; [by intros []|].
    intros (_ & _ & p & Hp & _). apply Hd in Hp. done.
Qed.
End Digests.

(** ** An initialization evaluated *)

#[local] Existing Instance checksum_digest.

Definition result_line (mode last fresh written_ reaped : string) : string :=
  "FS1_RESULT mode=" ++ mode ++ " status=0 last=" ++ last ++ " failed=0 errno=0 formatted=" ++ fresh ++ " mounted="
  ++ written_ ++ " witness=" ++ written_ ++ " synced=" ++ fresh ++ " unmounted=" ++ written_
  ++ " cleanup_attempted=0 cleanup_failed=0 cleanup_errno=0 helper_reaped=" ++ reaped
  ++ " helper_status=0 blocks=50189568".
Definition stage (n : string) : string := "FS1_STEP step=" ++ n ++ " errno=0".
Definition summary (used : string) : string :=
  "S22DEBIAN: " ++ used ++ "/3136848 files (0.0% non-contiguous), 1047552/50189568 blocks".
Definition checker (used : string) : list string :=
  ("FS1_TOOL_BEGIN tool=check" :: PASSES ++ [summary used; "FS1_TOOL_END tool=check status=0 reaped=1"])%list.
Definition initialized (used : string) : string := unlines
  ([stage "1"; "FS1_TOOL_BEGIN tool=format"; "FS1_TOOL_END tool=format status=0 reaped=1"; stage "2"; stage "3"]
   ++ checker used ++ [stage "4"; stage "5"; stage "6"; stage "7"; stage "8"; stage "9"; result_line "1" "9" "1" "1" "1"])%list.
Definition report_of (stdout : string) : json * json :=
  match project "filesystem-initialize" stdout CHECKER_STDERR
          (Some [5; 0; 0; 0; zlen stdout + zlen CHECKER_STDERR; 0; 0]) true with
  | Ok (JObj v) => (fld v "status", fld v "reason")
  | _ => (JNull, JNull)
  end.

Example initialization_passes :
  report_of (initialized "11") = (JStr "PASS_INITIALIZED_WRITTEN_CLEAN_UNMOUNT", JNull).
Proof. vm_compute. reflexivity. Qed.
(** One file too many, for an initialization *)
Example foreign_file_refused :
  report_of (initialized "12")
  = (JStr "NO_PROOF", JStr "filesystem checker geometry or fixed-file count differs").
Proof. vm_compute. reflexivity. Qed.
