(* ===== verification/ArrivalTheory.v ===== *)
(** * What a replayed arrival establishes

    The bytes of a live arrival, handshake and console session, replay to the same
    state with the boundary at their very end; an arrival that [replay_one]
    accepts is a transcript of authenticated frames around one healthy session; a
    chain of fresh arrivals is as long as the authentications of a boot at most. *)

From stdpp Require Import base list strings gmap.
From Stdlib Require Import ZArith NArith Lia Ascii.
From S2P Require Import Prelude PyStr Json Digest Bytes Console ConsoleSession ConsoleCodec ConsoleLife ConsoleReplay ConsoleKinds Health WireV3 Handshake HandshakeTheory Arrival.
Open Scope string_scope.
Open Scope Z_scope.

#[local] Arguments ConsoleCodec.wire : simpl never.

(** ** The boundary of a session *)

Section Boundary.
Context `{Digest}.
Variable i : ident.
Hypothesis Hi : ident_ok i = true.
Notation wire := (wire i).
Notation wires := (wires i).

Lemma front_byte f rest : encodable f → unle (stake 1 (sdrop 5 (wire f ++ rest))) = fr_kind f.
Proof. apply front_kind. Qed.

Lemma wires_zlen_nonneg fs : 0 ≤ zlen (wires fs).
Proof. apply zlen_nonneg. Qed.

(** The scan stops after the first frame of a kind it looks for. *)
Lemma root_scan_wires fuel pre f rest size kinds :
  Forall encodable pre → encodable f → Forall (λ g, in_kinds (fr_kind g) kinds = false) pre →
  in_kinds (fr_kind f) kinds = true → size + zlen (wires pre) ≤ SESSION_RX_LIMIT →
  (String.length (wires (pre ++ [f]) ++ rest) < fuel)%nat →
  root_scan fuel (wires (pre ++ [f]) ++ rest) size kinds = Ok (size + zlen (wires (pre ++ [f]))).
Proof.
  intros Hall Hf Hno Hk. revert fuel size. induction Hall as [|g pre Hg _ IH]; intros fuel size Hs Hl.
  - destruct fuel as [|fuel]; [lia|]. cbn [app ConsoleCodec.wires] in *. rewrite str_app_nil in *.
    cbn [root_scan]. change (wire f ++ rest =? "")%string with false. cbv iota.
    pose proof (front_long i f rest Hf) as Hlong. rewrite (front_header i f rest Hf), (front_byte f rest Hf), Hk.
    rewrite (front_header_size i f rest Hf) in *. rewrite str_length_app, (wire_length i) in *.
    replace (16 <=? _)%nat with true by (symmetry; apply Nat.leb_le; lia).
    replace (16 + _ <=? _)%nat with true by (symmetry; apply Nat.leb_le; lia).
    cbn [verr Prelude.require rbind]. unfold zlen. by rewrite (wire_length i).
  - destruct fuel as [|fuel]; [lia|]. apply Forall_cons in Hno as [Hgk Hno].
    cbn [app ConsoleCodec.wires] in *. rewrite <- str_app_assoc in *. set (tl := wires (pre ++ [f]) ++ rest) in *.
    cbn [root_scan]. change (wire g ++ tl =? "")%string with false. cbv iota.
    pose proof (front_long i g tl Hg) as Hlong. rewrite (front_header i g tl Hg), (front_byte g tl Hg), Hgk.
    rewrite (front_header_size i g tl Hg) in *. rewrite str_length_app, (wire_length i) in *.
    rewrite zlen_app in *. assert (Hw : zlen (wire g) = Z.of_nat (16 + String.length (payload i g))).
    { unfold zlen. by rewrite (wire_length i). }
    pose proof (wires_zlen_nonneg pre).
    replace (16 <=? _)%nat with true by (symmetry; apply Nat.leb_le; lia).
    replace (16 + _ <=? _)%nat with true by (symmetry; apply Nat.leb_le; lia).
    replace (_ <=? SESSION_RX_LIMIT) with true by (symmetry; apply Z.leb_le; lia).
    cbn [verr Prelude.require rbind]. rewrite sdrop_app by apply (wire_length i).
    unfold tl. rewrite IH by (try done; lia). f_equal. lia.
Qed.

Lemma root_end_wires pre f rest kinds :
  Forall encodable pre → encodable f → Forall (λ g, in_kinds (fr_kind g) kinds = false) pre →
  in_kinds (fr_kind f) kinds = true → zlen (wires pre) ≤ SESSION_RX_LIMIT →
  root_end (wires (pre ++ [f]) ++ rest) kinds = Ok (zlen (wires (pre ++ [f]))).
Proof. intros. unfold root_end. rewrite root_scan_wires by (try done; lia). done. Qed.

(** What the scan returns is inside the stream. *)
Lemma root_scan_range fuel rest size kinds n :
  root_scan fuel rest size kinds = Ok n → size < n ≤ size + zlen rest.
Proof.
  revert rest size. induction fuel as [|fuel IH]; intros rest size; cbn [root_scan]; [done|].
  destruct (rest =? "")%string; [done|]. intros ([] & _ & Hr)%rbind_Ok. apply rbind_Ok in Hr as ([] & _ & Hr).
  cbv zeta in Hr. apply rbind_Ok in Hr as ([] & Hl%require_Ok%Nat.leb_le & Hr). unfold zlen in *.
  destruct (in_kinds _ _); [injection Hr as <-; lia|]. apply rbind_Ok in Hr as ([] & _ & Hr).
  apply IH in Hr. rewrite sdrop_length in Hr. lia.
Qed.
(** A stream cut where the scan stops ends with a frame of a kind it looks for. *)
Lemma root_scan_last fuel fs rest size kinds :
  Forall encodable fs → root_scan fuel (wires fs ++ rest) size kinds = Ok (size + zlen (wires fs)) → fs ≠ [] →
  ∃ pre f, fs = (pre ++ [f])%list ∧ in_kinds (fr_kind f) kinds = true.
Proof.
  intros Hall. revert fuel size. induction Hall as [|g fs Hg Hall IH]; intros fuel size Hs Hne; [done|].
  destruct fuel as [|fuel]; [done|]. cbn [ConsoleCodec.wires] in *. rewrite <- str_app_assoc in Hs.
  set (tl := wires fs ++ rest) in *. cbn [root_scan] in Hs.
  change (wire g ++ tl =? "")%string with false in Hs. cbv iota in Hs.
  rewrite (front_header i g tl Hg), (front_byte g tl Hg), (front_header_size i g tl Hg), zlen_app in Hs.
  assert (Hw : zlen (wire g) = Z.of_nat (16 + String.length (payload i g))).
  { unfold zlen. by rewrite (wire_length i). }
  apply rbind_Ok in Hs as ([] & _ & Hs). apply rbind_Ok in Hs as ([] & _ & Hs).
  apply rbind_Ok in Hs as ([] & _ & Hs). rewrite <- Hw in Hs.
  destruct (in_kinds (fr_kind g) kinds) eqn:Ek.
  - assert (fs = []) as ->; [|by exists [], g].
    destruct fs as [|h fs]; [done|]. exfalso.
    assert (Hz : zlen (wires (h :: fs)) = 0).
    { apply (f_equal (λ r, match r with Ok z => z | Err _ => 0 end)) in Hs. cbv beta iota in Hs. lia. }
    cbn [ConsoleCodec.wires] in Hz. rewrite zlen_app in Hz. pose proof (zlen_nonneg (wires fs)).
    assert (16 ≤ zlen (wire h)) by (unfold zlen; rewrite (wire_length i); lia). lia.
  - apply rbind_Ok in Hs as ([] & _ & Hs). rewrite sdrop_app in Hs by apply (wire_length i).
    unfold tl in Hs. rewrite Z.add_assoc in Hs.
    destruct fs as [|h fs]; [|destruct (IH fuel _ Hs ltac:(done)) as (pre & f & -> & Hf); by exists (g :: pre), f].
    apply root_scan_range in Hs. change (zlen (wires [])) with 0 in Hs. lia.
Qed.

End Boundary.

(** ** The end of a live session *)

(** How a session class ends: its last frames have the kinds the boundary looks for. *)
Class EndingLaws (c : session_class) (kinds_rx kinds_tx : list Z) := {
  el_rx : ∀ s f s' r, sc_validate c s f = Ok (s', r) → in_kinds (fr_kind f) kinds_rx = true → st_finished s' = true;
  el_tx : ∀ kind, in_kinds kind kinds_tx = sc_terminal_request c kind
}.

Section Ending.
Variables (c : session_class) (kinds_rx kinds_tx : list Z).
Context `{!SessionLaws c} `{!EndingLaws c kinds_rx kinds_tx}.
Notation unending kinds := (Forall (λ g, in_kinds (fr_kind g) kinds = false)).

Lemma history_open evs s :
  history c true evs s → st_finished s = false → unending kinds_rx (resps evs).
Proof.
  induction 1 as [|evs s f Hh IH Hq Hc Hw|evs s f s' r Hh IH Hv]; intros Hf; [constructor| |].
  - rewrite resps_req. by apply IH.
  - rewrite resps_app. apply Forall_app. destruct (sl_moved _ _ _ _ Hv) as (Hs & _). split; [by apply IH|].
    apply Forall_singleton. destruct (in_kinds (fr_kind f) kinds_rx) eqn:E; [|done].
    rewrite (el_rx _ _ _ _ Hv E) in Hf. done.
Qed.

Lemma history_ended evs s :
  history c true evs s → st_finished s = true → ∃ pre f, resps evs = (pre ++ [f])%list ∧ unending kinds_rx pre.
Proof.
  induction 1 as [|evs s f Hh IH Hq Hc Hw|evs s f s' r Hh IH Hv]; intros Hf; [done| |].
  - rewrite resps_req. by apply IH.
  - destruct (sl_moved _ _ _ _ Hv) as (Hs & _). exists (resps evs), f.
    split; [by rewrite resps_app|by apply (history_open _ s)].
Qed.

Lemma history_asking evs s :
  history c true evs s →
  match st_control s with
  | None => unending kinds_tx (reqs evs)
  | Some _ => ∃ pre f, reqs evs = (pre ++ [f])%list ∧ unending kinds_tx pre ∧ in_kinds (fr_kind f) kinds_tx = true
  end.
Proof.
  induction 1 as [|evs s f Hh IH Hq Hc Hw|evs s f s' r Hh IH Hv]; [constructor| |].
  - cbn [note_request st_control]. rewrite reqs_app, Hc in *. rewrite <- (el_tx (fr_kind f)).
    destruct (in_kinds (fr_kind f) kinds_tx) eqn:E.
    + by exists (reqs evs), f.
    + apply Forall_app. split; [done|]. by apply Forall_singleton.
  - rewrite reqs_resp. by destruct (moved_keeps _ _ _ (sl_moved _ _ _ _ Hv)) as (_ & _ & ->).
Qed.
End Ending.

Lemma in_kinds_app kind a b : in_kinds kind (a ++ b) = in_kinds kind a || in_kinds kind b.
Proof. unfold in_kinds. apply existsb_app. Qed.

Lemma in_kinds_ack kind : in_kinds kind TERMINAL_RX = true → kind = CONTROL_ACK ∨ kind = DETACH_ACK.
Proof. unfold in_kinds, TERMINAL_RX. cbn. intros Hk. bsimp. lia. Qed.

(** CONTROL is the only request that a CONTROL acknowledgement answers. *)
Lemma expected_control request : expected_ack request = Ok CONTROL_ACK → request = CONTROL.
Proof.
  unfold expected_ack. destruct (request =? EXEC); [done|]. destruct (request =? CANCEL); [done|].
  destruct (request =? STATUS); [done|]. destruct (request =? CONTROL) eqn:E; [lia|done].
Qed.
Lemma control_ack_finishes s f s' r : validate s f = Ok (s', r) → fr_kind f = CONTROL_ACK → st_finished s' = true.
Proof.
  unfold validate. intros Hv Hk. rewrite Hk in Hv. apply rbind_Ok in Hv as ([] & _ & Hv). cbn in Hv.
  apply rbind_Ok in Hv as ([] & _ & Hv). destruct (st_requests s !! fr_seq f) as [q|]; [|done].
  unfold on_ack in Hv. apply rbind_Ok in Hv as (e & He & Hv). apply rbind_Ok in Hv as ([] & Hc%require_Ok & Hv).
  bsimp. assert (q = CONTROL) as -> by (apply expected_control; congruence).
  apply rbind_Ok in Hv as ([] & _ & Hv).
  destruct (words32 8 (fr_body f)) as [|? [|? [|? [|? [|? [|? [|? [|? [|? ?]]]]]]]]]; try done.
  apply rbind_Ok in Hv as ([] & _ & Hv). apply rbind_Ok in Hv as (s1 & _ & Hv).
  by apply rbind_Ok in Hv as ([] & _ & [= <- <-]).
Qed.

#[export] Instance detach_ending : EndingLaws detach_class TERMINAL_RX TERMINAL_TX.
Proof.
  split; [|done]. intros s f s' r Hv Hk%in_kinds_ack. cbn [sc_validate detach_class] in Hv.
  destruct (decide (fr_kind f = DETACH_ACK)) as [Hd|Hd].
  - by apply detach_ack in Hv as (-> & _).
  - rewrite detach_other in Hv by done. apply with_last_inv in Hv as (t & Hv & Hs & _).
    rewrite (same_finished _ _ Hs). destruct Hk as [Hk|Hk]; [|done]. by eapply control_ack_finishes.
Qed.

(** ** A live arrival replays *)

Section Live.
Context `{Digest}.
Variables (im : image_identity) (domain key : string).

(** A live handshake, replayed on what it captured and whatever follows *)
Lemma live_handshake_replayed w x' :
  wi_rx w = "" → wi_tx w = "" →
  handshake im domain key (Ex w audit0 (progress0 true)) = (Ok tt, x') →
  ∀ rx tx, handshake im domain key (Ex (Rt (wi_rx (ex_chan x') ++ rx) 0 (wi_tx (ex_chan x') ++ tx) 0) audit0 (progress0 true))
    = (Ok tt, Ex (Rt rx (String.length (wi_rx (ex_chan x'))) tx (String.length (wi_tx (ex_chan x'))))
                 (ex_audit x') (ex_prep x')).
Proof.
  intros Hrx Htx Hh rx tx. destruct x' as [w' a p].
  destruct (replays_handshake im domain key _ _ _ _ _ _ _ Hh) as (x & y & Ex & Ey & Hr). cbn [ex_chan ex_audit ex_prep].
  rewrite Hrx in Ex. rewrite Htx in Ey. change ("" ++ ?z) with z in *. rewrite Ex, Ey. by apply Hr.
Qed.

(** The session identity of a completed handshake *)
Lemma handshake_ident (x x' : exchange retained) :
  handshake im domain key x = (Ok tt, x') →
  ident_ok (session_ident key (run_of im) (au_nonce (ex_audit x'))) = true.
Proof.
  intros (retries & nonce & boot & fs & [_ [Hk Hr] [Hn _] _ _ (-> & _) _])%handshake_transcript.
  unfold ident_ok. cbn [id_key id_run id_nonce session_ident]. rewrite Hk, Hr, Hn. done.
Qed.

Context (c : session_class) (kinds_rx kinds_tx : list Z) `{!SessionLaws c} `{!EndingLaws c kinds_rx kinds_tx}.

(** The bytes of a session that ended, after any handshake bytes and before any others *)
Lemma joined_replays_before rx0 tx0 rx1 tx1 a p evs l :
  let i := session_ident key (run_of im) (au_nonce a) in
  ident_ok i = true → inv i c evs l →
  handshake im domain key (Ex (Rt (rx0 ++ (lv_rx l ++ rx1)) 0 (tx0 ++ (lv_tx l ++ tx1)) 0) audit0 (progress0 true))
    = (Ok tt, Ex (Rt (lv_rx l ++ rx1) (String.length rx0) (lv_tx l ++ tx1) (String.length tx0)) a p) →
  lv_stopped l = false → st_finished (lv_st l) = true → is_Some (st_control (lv_st l)) →
  (∀ pre f, resps evs = (pre ++ [f])%list → in_kinds (fr_kind f) kinds_rx = true) →
  zlen (lv_tx l) ≤ SESSION_RX_LIMIT →
  ∃ s, same s (lv_st l) ∧ lv_rx l = wires i (resps evs)
    ∧ replay_joined c kinds_rx kinds_tx im domain key (rx0 ++ (lv_rx l ++ rx1)) (tx0 ++ (lv_tx l ++ tx1))
      = do* perr (negb (unanswered (lv_st l))) "unanswered retained normal request" in
        Ok {| jn_exchange := Ex (Rt (lv_rx l ++ rx1) (String.length rx0) (lv_tx l ++ tx1) (String.length tx0)) a p;
              jn_state := s; jn_events := resps evs;
              jn_rend := zlen (rx0 ++ lv_rx l); jn_tend := zlen (tx0 ++ lv_tx l) |}.
Proof.
  intros i Hi Hinv Hh Hs Hf [n Hc] Hlast Hlt.
  destruct (replay_inv i Hi c evs l Hinv Hs Hf) as (s & Hsame & Hrx & Hrep).
  exists s. split_and!; [done|done|].
  pose proof (iv_history _ _ _ _ Hinv) as Hhist.
  destruct (history_ended c kinds_rx kinds_tx evs _ Hhist Hf) as (pre & f & Er & Hpre).
  pose proof (history_asking c kinds_rx kinds_tx evs _ Hhist) as Ha. rewrite Hc in Ha.
  destruct Ha as (qpre & q & Eq & Hqpre & Hq).
  pose proof (iv_responses _ _ _ _ Hinv) as Hresp. rewrite Er in Hresp. apply Forall_app in Hresp as [Hresp Hfe].
  assert (Hreq : Forall encodable (reqs evs)).
  { eapply Forall_impl; [apply (iv_requests _ _ _ _ Hinv)|]. by intros g []. }
  rewrite Eq in Hreq. apply Forall_app in Hreq as [Hreq Hqe]. apply Forall_cons in Hfe as [Hfe _], Hqe as [Hqe _].
  assert (Htx : lv_tx l = wires i (qpre ++ [q])).
  { destruct (iv_wire _ _ _ _ Hinv) as (r1 & Hw & Z1). rewrite (Z1 Hs), str_app_nil in Hw.
    destruct (iv_tx _ _ _ _ Hinv) as (r2 & Hx & Z2). rewrite (Z2 Hs), str_app_nil in Hx. by rewrite <- Hx, <- Hw, Eq. }
  assert (B1 : root_end (lv_rx l ++ rx1) kinds_rx = Ok (zlen (lv_rx l))).
  { rewrite Hrx, Er. apply (root_end_wires i pre f rx1 kinds_rx); try done; [by eapply Hlast|].
    destruct (iv_raw _ _ _ _ Hinv) as [Eraw Hraw]. rewrite Eraw, Hrx, Er, (wires_app i), zlen_app in Hraw.
    pose proof (zlen_nonneg (wires i [f])). lia. }
  assert (B2 : root_end (lv_tx l ++ tx1) kinds_tx = Ok (zlen (lv_tx l))).
  { rewrite Htx. apply (root_end_wires i qpre q tx1 kinds_tx); try done.
    rewrite Htx, (wires_app i), zlen_app in Hlt. pose proof (zlen_nonneg (wires i [q])). lia. }
  unfold replay_joined. rewrite Hh. cbn [fst snd rbind ex_chan rt_rx rt_tx rt_rpos rt_tpos ex_audit].
  rewrite B1. cbn [rbind]. rewrite B2. cbn [rbind]. unfold zlen at 1 2. rewrite !Nat2Z.id, !stake_app by lia.
  fold i. rewrite Hrep. destruct (unanswered (lv_st l)); [done|]. cbn [negb perr Prelude.require rbind fst snd].
  by rewrite !zlen_app.
Qed.

(** The bytes of a session that ended, after any handshake bytes *)
Lemma joined_replays rx0 tx0 a p evs l :
  let i := session_ident key (run_of im) (au_nonce a) in
  ident_ok i = true → inv i c evs l →
  handshake im domain key (Ex (Rt (rx0 ++ lv_rx l) 0 (tx0 ++ lv_tx l) 0) audit0 (progress0 true))
    = (Ok tt, Ex (Rt (lv_rx l) (String.length rx0) (lv_tx l) (String.length tx0)) a p) →
  lv_stopped l = false → st_finished (lv_st l) = true → is_Some (st_control (lv_st l)) →
  (∀ pre f, resps evs = (pre ++ [f])%list → in_kinds (fr_kind f) kinds_rx = true) →
  zlen (lv_tx l) ≤ SESSION_RX_LIMIT →
  ∃ s, same s (lv_st l) ∧ lv_rx l = wires i (resps evs)
    ∧ replay_joined c kinds_rx kinds_tx im domain key (rx0 ++ lv_rx l) (tx0 ++ lv_tx l)
      = do* perr (negb (unanswered (lv_st l))) "unanswered retained normal request" in
        Ok {| jn_exchange := Ex (Rt (lv_rx l) (String.length rx0) (lv_tx l) (String.length tx0)) a p;
              jn_state := s; jn_events := resps evs;
              jn_rend := zlen (rx0 ++ lv_rx l); jn_tend := zlen (tx0 ++ lv_tx l) |}.
Proof. intros i Hi Hinv Hh. pose proof (joined_replays_before rx0 tx0 "" "" a p evs l Hi Hinv) as Hj. rewrite !str_app_nil in Hj. by apply Hj. Qed.
End Live.

Section Detach.
Context `{Digest}.
Variables (im : image_identity) (domain key : string).

(** A live arrival, from the first byte of its handshake to the end of its session *)
Lemma live_arrival w x' faults acts :
  let i := session_ident key (run_of im) (au_nonce (ex_audit x')) in
  let l := run i detach_class faults acts in
  wi_rx w = "" → wi_tx w = "" →
  handshake im domain key (Ex w audit0 (progress0 true)) = (Ok tt, x') →
  lv_stopped l = false → st_finished (lv_st l) = true → zlen (lv_tx l) ≤ SESSION_RX_LIMIT →
  let rx := wi_rx (ex_chan x') ++ lv_rx l in
  let tx := wi_tx (ex_chan x') ++ lv_tx l in
  ∃ s evs, history detach_class true evs (lv_st l) ∧ same s (lv_st l) ∧ lv_rx l = wires i (resps evs)
    ∧ replay_joined detach_class TERMINAL_RX TERMINAL_TX im domain key rx tx
      = do* perr (negb (unanswered (lv_st l))) "unanswered retained normal request" in
        Ok {| jn_exchange := Ex (Rt (lv_rx l) (String.length (wi_rx (ex_chan x')))
                                    (lv_tx l) (String.length (wi_tx (ex_chan x')))) (ex_audit x') (ex_prep x');
              jn_state := s; jn_events := resps evs; jn_rend := zlen rx; jn_tend := zlen tx |}.
Proof.
  intros i l Hrx Htx Hh Hs Hf Hlt rx tx.
  pose proof (live_handshake_replayed im domain key w x' Hrx Htx Hh (lv_rx l) (lv_tx l)) as Hr.
  pose proof (handshake_ident im domain key _ _ Hr) as Hi. cbn [ex_audit] in Hi.
  destruct (run_inv i Hi detach_class faults acts) as [evs Hinv].
  pose proof (iv_history _ _ _ _ Hinv) as Hhist.
  destruct (joined_replays im domain key detach_class TERMINAL_RX TERMINAL_TX (wi_rx (ex_chan x')) (wi_tx (ex_chan x'))
    (ex_audit x') (ex_prep x') evs l) as (s & Hsame & Hwires & Hj); try done.
  - by apply (detach_finished evs).
  - intros pre f He. destruct (detach_last _ _ _ _ Hhist Hf He) as [->| ->]; done.
  - by exists s, evs.
Qed.
End Detach.

(** ** The requests of a replayed session *)

Section Requests.
Variable c : session_class.

Record requested (fs : list wframe) (t : st) : Prop := {
  rq_sequence : ∀ k f, fs !! k = Some f → fr_seq f = 3 + Z.of_nat k;
  rq_kind : ∀ n, st_requests t !! n = if 3 <=? n then fr_kind <$> fs !! Z.to_nat (n - 3) else None;
  rq_body : ∀ n, st_bodies t !! n = if 3 <=? n then fr_body <$> fs !! Z.to_nat (n - 3) else None;
  rq_valid : Forall (λ f, sc_validate_request c (fr_kind f) (fr_body f) = Ok tt) fs
}.

Lemma requested_next {A} (g : wframe → A) (mm : gmap Z A) (fs : list wframe) f n :
  (∀ n, mm !! n = if 3 <=? n then g <$> fs !! Z.to_nat (n - 3) else None) →
  <[3 + Z.of_nat (length fs) := g f]> mm !! n = if 3 <=? n then g <$> (fs ++ [f])%list !! Z.to_nat (n - 3) else None.
Proof.
  intros Hm. destruct (decide (n = 3 + Z.of_nat (length fs))) as [->|Hne].
  - rewrite lookup_insert_eq. rewrite (proj2 (Z.leb_le 3 (3 + Z.of_nat (length fs)))) by lia.
    rewrite lookup_app_r by lia. by replace (Z.to_nat _ - _)%nat with 0%nat by lia.
  - rewrite lookup_insert_ne by done. rewrite Hm. destruct (3 <=? n) eqn:E; [|done].
    destruct (decide (Z.to_nat (n - 3) < length fs)%nat) as [Hl|Hl]; [by rewrite lookup_app_l|].
    rewrite lookup_ge_None_2 by lia. rewrite lookup_app_r by lia. rewrite lookup_ge_None_2; [done|]. cbn. lia.
Qed.

Lemma requests_known fs t : replay_requests c 3 st0 fs = Ok t → requested fs t.
Proof.
  revert t. induction fs as [|f fs IH] using rev_ind; intros t.
  - intros [= <-]. split; cbn; try done; intros n; try (by destruct n); by destruct (3 <=? n).
  - rewrite replay_requests_snoc. intros (s & Hs & Hr)%rbind_Ok. destruct (IH _ Hs) as [H1 H2 H3 H4].
    cbn [replay_requests] in Hr. apply rbind_Ok in Hr as ([] & Hc%require_Ok & Hr).
    apply rbind_Ok in Hr as ([] & Hv & [= <-]). bsimp. split; cbn [note_request st_requests st_bodies].
    + intros k g [Hk|[Hk [Hz <-]%list_lookup_singleton_Some]]%lookup_app_Some; [by apply H1|]. lia.
    + intros n. replace (fr_seq f) with (3 + Z.of_nat (length fs)) by done. by apply requested_next.
    + intros n. replace (fr_seq f) with (3 + Z.of_nat (length fs)) by done. by apply requested_next.
    + apply Forall_app. split; [done|]. by apply Forall_singleton.
Qed.
End Requests.

(** The largest key *)
Lemma foldr_max_spec n l : (∀ x, x ∈ n :: l → x ≤ foldr Z.max n l) ∧ foldr Z.max n l ∈ n :: l.
Proof.
  induction l as [|y l [IH1 IH2]]; cbn [foldr].
  - split; [|by left]. intros x Hx. apply list_elem_of_singleton in Hx. lia.
  - split.
    + intros x Hx. rewrite !elem_of_cons in Hx. destruct Hx as [->|[->|Hx]]; [|lia|].
      * pose proof (IH1 n ltac:(by left)). lia.
      * pose proof (IH1 x ltac:(by right)). lia.
    + destruct (Z.max_dec y (foldr Z.max n l)) as [->| ->]; [right; by left|].
      apply elem_of_cons in IH2 as [->|IH2]; [by left|right; by right].
Qed.

Lemma max_request_spec fs t c m : requested c fs t → max_request t = Ok m → m = 2 + Z.of_nat (length fs) ∧ (0 < length fs)%nat.
Proof.
  intros [_ Hk _ _] Hm. unfold max_request in Hm.
  assert (Hkey : ∀ n, n ∈ (map_to_list (st_requests t)).*1 ↔ 3 ≤ n < 3 + Z.of_nat (length fs)).
  { intros n. rewrite list_elem_of_fmap. split.
    - intros ([n' k] & -> & Hin%elem_of_map_to_list). cbn. rewrite Hk in Hin. destruct (3 <=? n') eqn:E; [|done].
      apply fmap_Some in Hin as (f & Hf & _). apply lookup_lt_Some in Hf. lia.
    - intros Hn. destruct (lookup_lt_is_Some_2 fs (Z.to_nat (n - 3))) as [f Hf]; [lia|].
      exists (n, fr_kind f). split; [done|]. apply elem_of_map_to_list. rewrite Hk.
      replace (3 <=? n) with true by lia. by rewrite Hf. }
  destruct ((map_to_list (st_requests t)).*1) as [|n l]; [done|]. injection Hm as <-.
  destruct (foldr_max_spec n l) as [H1 H2]. apply Hkey in H2.
  pose proof (H1 (2 + Z.of_nat (length fs)) ltac:(apply Hkey; lia)). lia.
Qed.

(** ** The fixed request profile *)

Section Profile.
Context `{Digest}.
Variable k : io_class.

Definition optional_body : string := match ic_extra k with Some x => xp_body x | None => ic_hud_body k end.

(** The requests of an arrival: the health command, its status, an optional command, the ending *)
Definition profile_requests (body : string) (ending : Z) (optional : bool) : list wframe :=
  [Fr EXEC 3 body; Fr STATUS 4 ""]
  ++ (if optional then [Fr EXEC 5 optional_body; Fr ending 6 ""] else [Fr ending 5 ""]).

(** Requests other than commands and cancellations have no body. *)
Lemma bodiless kind body :
  in_kinds kind [STATUS; CONTROL; DETACH] = true → detach_validate_request kind body = Ok tt → body = "".
Proof.
  unfold detach_validate_request. intros Hk. destruct (kind =? DETACH) eqn:E.
  - intros Hb%require_Ok. by apply String.eqb_eq in Hb.
  - unfold validate_request. intros ([] & _ & Hr)%rbind_Ok. apply rbind_Ok in Hr as ([] & Hb%require_Ok & _).
    assert (Hs : in_kinds kind [STATUS; CONTROL] = true) by (cbn in *; rewrite E in Hk; by rewrite orb_false_r in *).
    rewrite Hs in Hb. cbn in Hb. apply Z.eqb_eq in Hb. unfold zlen in Hb. by destruct body.
Qed.

Lemma ending_kind ending : in_kinds ending [CONTROL; DETACH] = true → in_kinds ending [STATUS; CONTROL; DETACH] = true.
Proof. intros He. change (in_kinds ending ([STATUS] ++ [CONTROL; DETACH]) = true). by rewrite in_kinds_app, He, orb_true_r. Qed.

(** Frames numbered from three, given by their kinds and bodies *)
Lemma frames_eq (fs gs : list wframe) :
  (∀ k f, fs !! k = Some f → fr_seq f = 3 + Z.of_nat k) →
  length fs = length gs ∧ (∀ k g, gs !! k = Some g → fr_seq g = 3 + Z.of_nat k) →
  (∀ k f g, fs !! k = Some f → gs !! k = Some g → fr_kind f = fr_kind g ∧ fr_body f = fr_body g) → fs = gs.
Proof.
  intros Hs [Hl Hs'] He. apply list_eq_same_length with (length gs); [done|done|]. intros n f g Hn Hf Hg.
  destruct (He n f g Hf Hg) as [Hk Hb]. pose proof (Hs n f Hf). pose proof (Hs' n g Hg).
  destruct f, g. cbn in *. by subst.
Qed.

Lemma profile_numbered body ending optional n g :
  profile_requests body ending optional !! n = Some g → fr_seq g = 3 + Z.of_nat n.
Proof. destruct optional, n as [|[|[|[|n]]]]; by intros [= <-]. Qed.

Lemma request_profile_spec fs t ending optional :
  requested detach_class fs t → request_profile k t = Ok (ending, optional) →
  in_kinds ending [CONTROL; DETACH] = true ∧ ∃ body, fs = profile_requests body ending optional.
Proof.
  intros Hr. unfold request_profile. intros (m & Hm & Hp)%rbind_Ok.
  destruct (max_request_spec fs t _ m Hr Hm) as [-> Hl]. clear Hm. set (m := 2 + Z.of_nat (length fs)) in *.
  destruct Hr as [Hseq Hkind Hbody Hvalid].
  apply rbind_Ok in Hp as (e & He & Hp). destruct (st_requests t !! m) as [e'|] eqn:Ee; [|done]. injection He as ->.
  apply rbind_Ok in Hp as ([] & Hend%require_Ok & Hp). cbv zeta in Hp. apply rbind_Ok in Hp as ([] & _ & Hp).
  apply rbind_Ok in Hp as ([] & Hd%require_Ok & Hp). apply bool_decide_eq_true in Hd.
  apply rbind_Ok in Hp as ([] & Ho%require_Ok & Hp). apply rbind_Ok in Hp as ([] & Hb%require_Ok & [= -> <-]).
  split; [done|].
  assert (Hget : ∀ n q, (<[3 := EXEC]> {[ 4 := STATUS ]} : gmap Z Z) !! n = Some q → n ≠ m ∧ st_requests t !! n = Some q).
  { intros n q Hn. rewrite <- Hd in Hn. apply lookup_delete_Some in Hn as [_ Hn].
    by apply lookup_delete_Some in Hn as [? ?]. }
  destruct (Hget 3 EXEC eq_refl) as [_ H3]. destruct (Hget 4 STATUS eq_refl) as [H4m H4].
  assert (H6 : m = 6 ∨ st_requests t !! 6 = None).
  { destruct (decide (m = 6)) as [?|Hne]; [by left|right].
    assert (Hn : (<[3 := EXEC]> {[ 4 := STATUS ]} : gmap Z Z) !! 6 = None) by done.
    rewrite <- Hd in Hn. by rewrite !lookup_delete_ne in Hn by done. }
  rewrite Hkind in H3, H4, Ee, H6. cbn in H3, H4, H6.
  destruct fs as [|f0 [|f1 [|f2 [|f3 [|f4 ?]]]]]; try done.
  - change m with 5 in *. rewrite (lookup_delete_eq (st_requests t) 5) in *.
    change (Some (fr_kind f0) = Some EXEC) in H3. change (Some (fr_kind f1) = Some STATUS) in H4.
    change (Some (fr_kind f2) = Some ending) in Ee. exists (fr_body f0).
    apply Forall_cons in Hvalid as [_ Hvalid]. apply Forall_cons in Hvalid as [V1 Hvalid].
    apply Forall_cons in Hvalid as [V2 _]. cbn in V1, V2.
    apply (frames_eq _ _ Hseq); [split; [done|]; exact (profile_numbered (fr_body f0) ending false)|]. intros [|[|[|?]]] f g [= <-] [= <-]; cbn; (split; [congruence|]); [done|..].
    + apply bodiless in V1; [done|]. by replace (fr_kind f1) with STATUS by congruence.
    + apply bodiless in V2; [done|]. replace (fr_kind f2) with ending by congruence. by apply ending_kind.
  - change m with 6 in *. rewrite (lookup_delete_ne (st_requests t) 6 5) in * by done.
    change (Some (fr_kind f0) = Some EXEC) in H3. change (Some (fr_kind f1) = Some STATUS) in H4.
    change (Some (fr_kind f3) = Some ending) in Ee. exists (fr_body f0).
    rewrite (Hkind 5), (Hbody 5) in *. change (if 3 <=? 5 then ?a <$> _ else _) with (a <$> Some f2) in *. cbn in Ho, Hb |- *.
    apply Forall_cons in Hvalid as [_ Hvalid]. apply Forall_cons in Hvalid as [V1 Hvalid].
    apply Forall_cons in Hvalid as [_ Hvalid]. apply Forall_cons in Hvalid as [V3 _]. cbn in V1, V3.
    apply bool_decide_eq_true in Ho, Hb. injection Ho as Ho. injection Hb as Hb.
    apply (frames_eq _ _ Hseq); [split; [done|]; exact (profile_numbered (fr_body f0) ending true)|]. intros [|[|[|[|?]]]] f g [= <-] [= <-]; cbn; (split; [congruence|]); try done.
    + apply bodiless in V1; [done|]. by replace (fr_kind f1) with STATUS by congruence.
    + apply bodiless in V3; [done|]. replace (fr_kind f3) with ending by congruence. by apply ending_kind.
  - destruct H6 as [H6|H6]; [subst m; cbn [length] in H6; lia|done].
Qed.
End Profile.

(** ** What [replay_one] establishes *)

Section Proved.
Context `{Digest}.
Variables (im : image_identity) (domain key : string).

(** The streams that [replay_joined] accepts *)
Record streams (c : session_class) (kinds_rx : list Z) (rx tx : string) (j : joined) (retries : Z) (nonce boot : string)
    (fs gs : list wframe) : Prop := {
  sm_exchange : authenticated im domain key (Ex (Rt rx 0 tx 0) audit0 (progress0 true)) (jn_exchange j) retries nonce boot fs;
  sm_rx : ∃ rest, rx = (greeting im retries nonce ++ admission im domain key nonce boot ++ encodeds fs
                        ++ wires (session_ident key (run_of im) nonce) (jn_events j)) ++ rest
            ∧ jn_rend j = zlen rx - zlen rest;
  sm_tx : ∃ rest, tx = (handshake_tx im key nonce ++ wires (session_ident key (run_of im) nonce) gs) ++ rest
            ∧ jn_tend j = zlen tx - zlen rest;
  sm_requested : requested c gs (jn_state j);
  sm_frames : Forall encodable gs ∧ Forall encodable (jn_events j);
  sm_replayed : ∃ t, replay_requests c 3 st0 gs = Ok t ∧ replay_responses c t (jn_events j) = Ok (jn_state j);
  sm_finished : st_finished (jn_state j) = true ∧ unanswered (jn_state j) = false;
  sm_last : ∃ pre f, jn_events j = (pre ++ [f])%list ∧ in_kinds (fr_kind f) kinds_rx = true
}.

Lemma replay_joined_streams c kinds_rx kinds_tx rx tx j `{!SessionLaws c} :
  replay_joined c kinds_rx kinds_tx im domain key rx tx = Ok j →
  ∃ retries nonce boot fs gs, streams c kinds_rx rx tx j retries nonce boot fs gs.
Proof.
  unfold replay_joined. destruct (handshake _ _ _ _) as [[[]|e] x] eqn:Eh; [|done]. cbn [fst snd rbind].
  intros (n & Hn & Hj)%rbind_Ok. apply rbind_Ok in Hj as (m & Hm & Hj).
  apply rbind_Ok in Hj as ([s evs] & Hr & [= <-]). cbn [fst snd].
  pose proof (handshake_ident im domain key _ _ Eh) as Hi.
  apply handshake_transcript in Eh as (retries & nonce & boot & fs & Hat).
  pose proof Hat as [[P1 P2 P3 P4] _ _ _ _ (En & _) _]. rewrite En in *. cbn [ex_chan rt_rx rt_tx rt_rpos rt_tpos] in *.
  pose proof (root_scan_range _ _ _ _ _ Hn) as Rn. apply root_scan_range in Hm.
  assert (Hcut : String.length (stake (Z.to_nat n) (rt_rx (ex_chan x))) = Z.to_nat n).
  { apply stake_length. unfold zlen in Rn. lia. }
  assert (Hne : (0 < String.length (stake (Z.to_nat n) (rt_rx (ex_chan x))))%nat) by lia.
  apply replay_inversion in Hr as (gs & t & Ht & Hx & Hge & Hxe & Hq & Hs & Hf & Hu); [|done].
  exists retries, nonce, boot, fs, gs. split; cbn [jn_exchange jn_events jn_state jn_rend jn_tend];
    [done| | | |done|by exists t|done|].
  - exists (sdrop (Z.to_nat n) (rt_rx (ex_chan x))). split.
    + rewrite P1, <- Hx, <- !str_app_assoc. by rewrite stake_sdrop.
    + rewrite P3, P1, zlen_app. unfold zlen in *. rewrite sdrop_length. lia.
  - exists (sdrop (Z.to_nat m) (rt_tx (ex_chan x))). split.
    + rewrite P2, <- Ht, <- !str_app_assoc. by rewrite stake_sdrop.
    + rewrite P4, P2, zlen_app. unfold zlen in *. rewrite sdrop_length. lia.
  - destruct (requests_known c gs t Hq). destruct (responses_keep c _ _ _ Hs).
    split; [done|intros; by rewrite kn_requests|intros; by rewrite kn_bodies|done].
  - rewrite Hx in Hcut. destruct evs as [|e evs]; [exfalso; rewrite Hx in Hne; cbn in Hne; lia|].
    rewrite <- (stake_sdrop (Z.to_nat n) (rt_rx (ex_chan x))), Hx in Hn.
    eapply (root_scan_last _ _ _ _ 0); [exact Hxe| |done]. etrans; [exact Hn|]. f_equal. unfold zlen. lia.
Qed.

(** What a projected receipt vouches for *)
Record vouched (k : io_class) (j : joined) (v : arrival) (prefix : list wframe) : Prop := {
  vc_prefix : until_status (jn_events j) = Ok prefix;
  vc_healthy : healthy (health_view (jn_state j) prefix) prefix;
  vc_info : pg_info (ex_prep (jn_exchange j)) = Some (ar_info v);
  vc_slot : ar_ending v = DETACH → lt_ordinal (ar_info v) < AUTH_LIMIT;
  vc_names : ar_run v = im_run_hex im ∧ ar_nonce_sha v = hexdigest (au_nonce (ex_audit (jn_exchange j)))
    ∧ ar_boot_sha v = hexdigest (au_boot (ex_audit (jn_exchange j)));
  vc_profile : ∃ optional, request_profile k (jn_state j) = Ok (ar_ending v, optional)
}.

Lemma projection_vouched k j rx tx v :
  projection k im (ex_audit (jn_exchange j)) (ex_prep (jn_exchange j)) (jn_state j) (jn_events j) rx tx = Ok v →
  ∃ prefix, vouched k j v prefix.
Proof.
  unfold projection. intros ([] & _ & Hp)%rbind_Ok. apply rbind_Ok in Hp as ([] & Hh & Hp).
  apply rbind_Ok in Hp as ([ending optional] & Hr & Hp). apply rbind_Ok in Hp as (info & Hi & Hp).
  apply rbind_Ok in Hp as ([] & Hs%require_Ok & Hp). apply rbind_Ok in Hp as (ready & _ & Hp). cbv zeta in Hp.
  apply rbind_Ok in Hp as (hud & _ & Hp). apply rbind_Ok in Hp as (extra & _ & [= <-]).
  unfold fixed_health in Hh. apply rbind_Ok in Hh as (prefix & Hpre & Hh).
  exists prefix. split; cbn; try done.
  - by apply validate_console_healthy.
  - destruct (pg_info _); [by injection Hi as ->|done].
  - cbn [fst] in Hs. intros ->. cbn in Hs. bsimp. lia.
  - by exists optional.
Qed.
End Proved.

(** ** A chain of arrivals *)

Lemma fresh_facts a b seen :
  fresh_same_boot a b seen = Ok tt →
  tl_run a = tl_run b ∧ tl_boot a = tl_boot b ∧ tl_nonce b ∉ seen
  ∧ lt_ordinal (tl_info b) = lt_ordinal (tl_info a) + 1 ∧ lt_elapsed (tl_info a) ≤ lt_elapsed (tl_info b)
  ∧ tl_detached a = true.
Proof. unfold fresh_same_boot. intros Hf%require_Ok. bsimp. split_and!; try done; lia. Qed.

(** Each arrival is fresh with respect to all before it. *)
Definition chained (l : list tail) : Prop :=
  ∀ k a b, l !! k = Some a → l !! S k = Some b → fresh_same_boot a b (map tl_nonce (take (S k) l)) = Ok tt.

Lemma chained_ordinal l k a b :
  chained l → l !! 0%nat = Some a → l !! k = Some b →
  lt_ordinal (tl_info b) = lt_ordinal (tl_info a) + Z.of_nat k ∧ tl_boot b = tl_boot a ∧ tl_run b = tl_run a.
Proof.
  intros Hc Ha. revert b. induction k as [|k IH]; intros b Hb.
  - assert (b = a) as -> by congruence. split_and!; [lia|done|done].
  - destruct (lookup_lt_is_Some_2 l k) as [p Hp]; [apply lookup_lt_Some in Hb; lia|].
    destruct (IH p Hp) as (E1 & E2 & E3).
    destruct (fresh_facts _ _ _ (Hc k p b Hp Hb)) as (F1 & F2 & _ & F4 & _). split_and!; [lia|congruence|congruence].
Qed.

Lemma chained_nonces l : chained l → NoDup (map tl_nonce l).
Proof.
  intros Hc. apply NoDup_alt. intros i j x Hi Hj. rewrite list_lookup_fmap in Hi, Hj.
  destruct (l !! i) as [a|] eqn:Ei; [|done]. destruct (l !! j) as [b|] eqn:Ej; [|done].
  injection Hi as Hi. injection Hj as Hj.
  assert (Hw : ∀ i j a b, (i < j)%nat → l !! i = Some a → l !! j = Some b → tl_nonce a ≠ tl_nonce b).
  { clear -Hc. intros i j a b Hij Ei Ej He. destruct j as [|j]; [lia|].
    destruct (lookup_lt_is_Some_2 l j) as [p Hp]; [apply lookup_lt_Some in Ej; lia|].
    destruct (fresh_facts _ _ _ (Hc j p b Hp Ej)) as (_ & _ & Hn & _). apply Hn. rewrite <- He.
    apply list_elem_of_fmap. exists a. split; [done|]. apply elem_of_take. exists i. split; [done|lia]. }
  destruct (lt_eq_lt_dec i j) as [[Hlt|?]|Hlt]; [|done|].
  - destruct (Hw _ _ _ _ Hlt Ei Ej). congruence.
  - destruct (Hw _ _ _ _ Hlt Ej Ei). congruence.
Qed.

Lemma chained_bound l :
  chained l → Forall (λ t, lifetime_ok (tl_info t)) l → Z.of_nat (length l) ≤ AUTH_LIMIT.
Proof.
  intros Hc Hall. destruct l as [|a l]; [done|]. set (full := a :: l) in *.
  destruct (lookup_lt_is_Some_2 full (length l)) as [b Hb]; [cbn; lia|].
  destruct (chained_ordinal full (length l) a b Hc eq_refl Hb) as (E & _).
  pose proof (Forall_lookup_1 _ _ _ _ Hall Hb) as [Hob _].
  pose proof (Forall_lookup_1 _ _ 0%nat a Hall eq_refl) as [Hoa _]. cbn [full length]. lia.
Qed.
