(* ===== verification/SwitchRoot.v ===== *)
(** * The PID1 transition

    [s22plus_switch_root_protocol_v1.py]: the stage records of the new program,
    authenticated in a domain of their own, and the replay that requires the
    complete witness and its accepted return.

    The stage records of one transition form a fixed sequence, with the log of the
    preparation between the second and the third; a witness is the eighth stage and
    its return is accepted once.  A transition that [replay_one] accepts is the
    transcript of one such sequence and of nothing else. *)

From stdpp Require Import base list strings gmap.
From Stdlib Require Import ZArith NArith Lia Ascii.
From S2P Require Import Prelude PyStr Json Digest Bytes Console ConsoleSession ConsoleCodec ConsoleLife ConsoleReplay ConsolePrefix Health ConsoleKinds WireV3 Handshake HandshakeTheory Arrival ArrivalTheory.
Open Scope string_scope.
Open Scope Z_scope.

Definition RECORD : Z := 169.
Definition RETURN : Z := 38.
Definition RETURN_ACK : Z := 170.
Definition SWITCH_DOMAIN : string := "S22PLUS-FYG8-SWITCH-ROOT-v1".
Definition AUTOBOOT_DOMAIN : string := "S22PLUS-FYG8-DEBIAN-AUTOBOOT-v1".
Definition SWITCH_MAXIMUM : Z := 256 * 1039.

Definition stage_name (stage : Z) : option string :=
  match stage with
  | 1 => Some "entered-pid1" | 2 => Some "workers-settled" | 3 => Some "root-admitted"
  | 4 => Some "storage-rechecked" | 5 => Some "ram-witness-ready" | 6 => Some "mounts-moved"
  | 7 => Some "switch-root-exec" | 8 => Some "post-exec-witness" | 9 => Some "download"
  | 10 => Some "preparation-log" | 11 => Some "stopped" | _ => None
  end.
Definition stage_label (stage : Z) : string :=
  match stage with
  | 1 => "actual-pid1" | 2 => "three-workers-reaped" | 3 => "exact-root-checker"
  | 4 => "protected-after-retirement" | 5 => "fixed-ram-witness" | 6 => "mounts-moved-work-unmounted"
  | _ => "busybox-switch-root"
  end.

(** What the owner binds the records to *)
Record switch_config := {
  sc_boot : string;
  sc_witness : string;                (** SHA-256 of the witness, in hexadecimal *)
  sc_readonly : bool;
  sc_settlement : string;
  sc_autoboot : bool
}.
(** The checks of [Records.__init__] *)
Definition switch_config_ok (f : switch_config) : result unit :=
  do* srequire ((sc_settlement f =? "three-workers-reaped")%string || (sc_settlement f =? "early-children-settled")%string)
        "unknown initial userspace settlement" in
  srequire (negb (sc_autoboot f) || negb (sc_readonly f) && (sc_settlement f =? "early-children-settled")%string)
    "automatic transition owner differs".

Section Switch.
Context `{Digest}.
Variables (key run nonce : string).

Definition switch_tag (autoboot : bool) (kind seq : Z) (value : string) : string :=
  hmac key ((if autoboot then AUTOBOOT_DOMAIN else SWITCH_DOMAIN) ++ run ++ nonce ++ le 4 seq ++ le 1 kind ++ value).

Definition switch_encode (kind seq : Z) (value : string) : result string :=
  encode_frame (Fr kind seq (value ++ switch_tag false kind seq value)).

(** [body]: the authenticated value of a frame *)
Definition switch_body (autoboot : bool) (f : wframe) : result string :=
  do* srequire ((32 <=? zlen (fr_body f)) && (zlen (fr_body f) <=? 1023)) "switch frame bound differs" in
  let n := (String.length (fr_body f) - 32)%nat in
  let value := stake n (fr_body f) in
  do* srequire (sdrop n (fr_body f) =? switch_tag autoboot (fr_kind f) (fr_seq f) value)%string
        "switch frame authentication differs" in
  Ok value.

(** The facts of the new program *)
Record switch_proof := {
  sp_major : Z; sp_minor : Z; sp_mounts : Z; sp_flags : Z; sp_mount_sha : string; sp_witness_sha : string
}.
Record switch_row := { sw_sequence : Z; sw_stage : Z; sw_errno : Z; sw_size : Z; sw_sha : string }.

Record records := {
  rd_rows : list switch_row;
  rd_logs : string;
  rd_last : Z;
  rd_proof : option switch_proof;
  rd_stop : option (Z * Z);
  rd_returned : bool
}.
Definition records0 : records :=
  {| rd_rows := []; rd_logs := ""; rd_last := 0; rd_proof := None; rd_stop := None; rd_returned := false |}.

Definition add_switch_row (r : records) (row : switch_row) (logs : string) (last : Z) (proof : option switch_proof)
    (stop : option (Z * Z)) : records :=
  {| rd_rows := (rd_rows r ++ [row])%list; rd_logs := logs; rd_last := last; rd_proof := proof; rd_stop := stop;
     rd_returned := rd_returned r |}.

Definition hex_char (n : Z) : ascii := byte_of (if n <? 10 then 48 + n else 87 + n).
Fixpoint hex_of (s : string) : string :=
  match s with
  | "" => ""
  | String c s' => String (hex_char (Z.shiftr (of_byte c) 4)) (String (hex_char (Z.land (of_byte c) 15)) (hex_of s'))
  end.

(** The proof of stage eight *)
Definition switch_witness (f : switch_config) (data : string) : result switch_proof :=
  do* srequire (zlen data =? 120) "post-exec proof width differs" in
  let word k := unle (stake 4 (sdrop k data)) in
  let field k := stake 32 (sdrop k data) in
  do* srequire ((word 0%nat =? 1) && negb ((word 4%nat =? 0) && (word 8%nat =? 0))
                && (6 <=? word 12%nat) && (word 12%nat <=? 32)
                && (word 112%nat =? if sc_readonly f then 15 else 0)
                && (word 116%nat =? if sc_readonly f then 1 else 0)
                && (field 16%nat =? sc_boot f)%string && (hex_of (field 48%nat) =? sc_witness f)%string
                && nonzero_bytes (field 80%nat)) "post-exec PID/root/boot/executable/mount facts differ" in
  Ok {| sp_major := word 4%nat; sp_minor := word 8%nat; sp_mounts := word 12%nat; sp_flags := word 112%nat;
        sp_mount_sha := hex_of (field 80%nat); sp_witness_sha := hex_of (field 48%nat) |}.

(** The label of a stage *)
Definition expected_label (f : switch_config) (stage : Z) : string :=
  if stage =? 2 then sc_settlement f
  else if (stage =? 1) && sc_autoboot f then "debian-auto-pid1"
  else stage_label stage.

Definition is_none {A} (o : option A) : bool := match o with None => true | Some _ => false end.

(** [Records.accept] *)
Definition accept_record (f : switch_config) (r : records) (fr : wframe) : result records :=
  let* value := switch_body (sc_autoboot f) fr in
  if fr_kind fr =? RETURN_ACK then
    do* srequire (negb (sc_autoboot f) && negb (is_none (rd_proof r)) && negb (rd_returned r) && is_none (rd_stop r)
                  && (fr_seq fr =? 6) && (value =? le 4 1)%string) "unjoined switch return acknowledgement" in
    Ok {| rd_rows := rd_rows r; rd_logs := rd_logs r; rd_last := rd_last r; rd_proof := rd_proof r;
          rd_stop := rd_stop r; rd_returned := true |}
  else
    do* srequire ((fr_kind fr =? RECORD) && negb (rd_returned r) && is_none (rd_proof r) && is_none (rd_stop r)
                  && (fr_seq fr =? 1024 + Z.of_nat (length (rd_rows r)))
                  && (length (rd_rows r) <? 256)%nat && (8 <=? zlen value)) "switch stage ordinal or terminal state differs" in
    let stage := unle (stake 4 value) in
    let error := unle (stake 4 (sdrop 4 value)) in
    let data := sdrop 8 value in
    do* srequire (match stage_name stage with Some _ => true | None => false end && (error <=? 4095))
          "switch stage fields differ" in
    let row := {| sw_sequence := fr_seq fr; sw_stage := stage; sw_errno := error; sw_size := zlen data;
                  sw_sha := hexdigest data |} in
    if stage =? 10 then
      do* srequire ((error =? 0) && (rd_last r =? 2) && (zlen data <=? 768)
                    && (zlen (rd_logs r) + zlen data <=? 128 * 1024)) "preparation log outside its admitted phase" in
      Ok (add_switch_row r row (rd_logs r ++ data) (rd_last r) (rd_proof r) (rd_stop r))
    else if stage =? 11 then
      do* srequire (negb (error =? 0) && (zlen data =? 4) && (unle data =? rd_last r)) "switch stop lacks failed phase" in
      Ok (add_switch_row r row (rd_logs r) (rd_last r) (rd_proof r) (Some (error, rd_last r)))
    else
      do* srequire ((stage =? rd_last r + 1) && (error =? 0) && (stage <=? 8)) "switch stage skipped, repeated or failed" in
      if stage <? 8 then
        do* srequire (data =? expected_label f stage)%string "switch stage payload differs" in
        Ok (add_switch_row r row (rd_logs r) stage (rd_proof r) (rd_stop r))
      else
        let* p := switch_witness f data in
        Ok (add_switch_row r row (rd_logs r) stage (Some p) (rd_stop r)).

(** [Records.projection] *)
Definition proof_json (f : switch_config) (p : switch_proof) : json :=
  JObj ([("pid", JInt 1); ("root_device", JObj [("major", JInt (sp_major p)); ("minor", JInt (sp_minor p))]);
         ("root_type", JStr "ext4"); ("root_flags", JInt (sp_flags p)); ("partition_readonly", JBool (sc_readonly f));
         ("mount_count", JInt (sp_mounts p)); ("mount_sha256", JStr (sp_mount_sha p));
         ("witness_sha256", JStr (sp_witness_sha p)); ("workers_settled", JBool true); ("other_userspace", JInt 0);
         ("descriptor_whitelist", JList (map JInt [0; 1; 2; 3])); ("same_transport", JBool (negb (sc_autoboot f)))]
        ++ if sc_autoboot f then [("channel", JStr "bounded-ram-trace"); ("host_request_required", JBool false)] else []).
Definition row_json (r : switch_row) : json :=
  JObj [("sequence", JInt (sw_sequence r)); ("stage", JStr (default "" (stage_name (sw_stage r))));
        ("errno", JInt (sw_errno r)); ("size", JInt (sw_size r)); ("sha256", JStr (sw_sha r))].
Definition stop_json (s : option (Z * Z)) : json :=
  match s with Some (e, last) => JObj [("errno", JInt e); ("last_stage", JInt last)] | None => JNull end.
Definition records_projection (f : switch_config) (r : records) : json :=
  let proved := negb (is_none (rd_proof r)) in
  JObj [("status", JStr (if proved then "PASS_SWITCH_ROOT_WITNESS" else "NO_PROOF"));
        ("verdict", JStr (if proved then
                            if sc_readonly f then "PROVED_READONLY_HOST_PID1_ROOT_TRANSITION"
                            else "PROVED_WRITABLE_HOST_PID1_ROOT_TRANSITION"
                          else "NO_PROOF"));
        ("pid1_handoff_proved", JBool proved); ("debian_boot_proved", JBool false);
        ("persistent_writes", JBool (negb (sc_readonly f))); ("return_accepted", JBool (rd_returned r));
        ("proof", match rd_proof r with Some p => proof_json f p | None => JNull end);
        ("stages", JList (map row_json (rd_rows r))); ("stop", stop_json (rd_stop r));
        ("preparation_log", JObj [("size", JInt (zlen (rd_logs r))); ("sha256", JStr (hexdigest (rd_logs r)))])].

(** The loop of [replay_one] over what follows the session *)
Fixpoint switch_loop (fuel : nat) (f : switch_config) (r : records) (rest : string) : result records :=
  match fuel with
  | O => Ok r
  | S fuel' =>
      if (rest =? "")%string then Ok r
      else
        do* srequire (16 <=? String.length rest)%nat "partial switch frame header" in
        do* srequire (hd_size rest <=? 1023) "switch frame oversized" in
        let n := (16 + Z.to_nat (hd_size rest))%nat in
        let* fr := decode_frame (stake n rest) in
        let* r' := accept_record f r fr in
        switch_loop fuel' f r' (sdrop n rest)
  end.
Definition switch_records (f : switch_config) (rest : string) : result records :=
  switch_loop (S (String.length rest)) f records0 rest.
End Switch.

Section Replay.
Context `{Digest}.
Variables (im : image_identity) (domain key : string).

Definition switch_config_of (witness boot : string) : switch_config :=
  {| sc_boot := boot; sc_witness := witness; sc_readonly := true; sc_settlement := "three-workers-reaped";
     sc_autoboot := false |}.

(** [replay_one]: the session up to its acceptance, the witness and the exact return.
    It returns the joined session and the records, of which [switch_receipt] is made. *)
Definition switch_replay_one (witness rx tx : string) : result (joined * records) :=
  do* srequire ((zlen rx <=? SWITCH_MAXIMUM + 65536) && (zlen tx <=? 65536)) "switch retained stream bound differs" in
  let* j := replay_joined switch_class [ACCEPTED] [REQUEST] im domain key rx tx in
  do* fixed_health (jn_state j) (jn_events j) in
  let a := ex_audit (jn_exchange j) in
  let* r := switch_records key (run_of im) (au_nonce a) (switch_config_of witness (au_boot a))
              (sdrop (Z.to_nat (jn_rend j)) rx) in
  do* srequire (negb (is_none (rd_proof r)) && rd_returned r) "complete post-exec witness and return ACK required" in
  let* expected := switch_encode key (run_of im) (au_nonce a) RETURN 6 "" in
  do* srequire (sdrop (Z.to_nat (jn_tend j)) tx =? expected)%string
        "switch return is absent, repeated or followed by a new request" in
  Ok (j, r).

Definition identify_json (data : string) : json :=
  JObj [("size", JInt (zlen data)); ("sha256", JStr (hexdigest data))].
(** The receipt of a transition *)
Definition switch_receipt (witness rx tx : string) (j : joined) (r : records) : json :=
  let a := ex_audit (jn_exchange j) in let g := ex_prep (jn_exchange j) in
  JObj [("schema", JStr "s22plus-switch-root-observation-v1"); ("run_id_hex", JStr (im_run_hex im));
        ("native_health_proved", JBool true); ("ending", JStr "download"); ("terminal_sequence", JInt 6);
        ("control_acceptance_observed", JBool true); ("detach_ack_observed", JBool false);
        ("kernel_boot_identity_sha256", JStr (hexdigest (au_boot a))); ("nonce_sha256", JStr (hexdigest (au_nonce a)));
        ("preparation", progress_projection im g); ("baseline_info", info_json (pg_info g));
        ("root_ready", json_words (default [] (st_ready (jn_state j)))); ("hud_requested", JBool false);
        ("switch_root", records_projection (switch_config_of witness (au_boot a)) r);
        ("rx", identify_json rx); ("tx", identify_json tx)].

(** The loop of [replay_prefix]: the records, the bytes consumed and the error, if any.
    [except (ValueError, EOFError)] *)
Fixpoint prefix_records (fuel : nat) (f : switch_config) (nonce : string) (r : records) (rest : string) (n : Z)
    : records * Z * option pyexc :=
  match fuel with
  | O => (r, n, None)
  | S fuel' =>
      if (rest =? "")%string then (r, n, None)
      else
        let size := Z.to_nat (hd_size rest) in
        let step :=
          do* srequire (16 <=? String.length rest)%nat "partial switch prefix header" in
          do* srequire (hd_size rest <=? 1023) "oversized switch prefix" in
          let* fr := decode_frame (stake (16 + size) rest) in
          accept_record key (run_of im) nonce f r fr in
        match step with
        | Ok r' => prefix_records fuel' f nonce r' (sdrop (16 + size) rest) (n + 16 + Z.of_nat size)
        | Err e => (r, n, Some e)
        end
  end.

(** [replay_prefix]: what was proved before a later cut, and never a completion *)
Definition switch_replay_prefix (witness rx tx : string) : result (records * Z * option pyexc) :=
  do* srequire ((zlen rx <=? SWITCH_MAXIMUM + 65536) && (zlen tx <=? 65536)) "switch prefix exceeds capture bounds" in
  let* j := replay_joined switch_class [ACCEPTED] [REQUEST] im domain key rx tx in
  do* fixed_health (jn_state j) (jn_events j) in
  let a := ex_audit (jn_exchange j) in
  let rest := sdrop (Z.to_nat (jn_rend j)) rx in
  let r := prefix_records (S (String.length rest)) (switch_config_of witness (au_boot a)) (au_nonce a) records0 rest (jn_rend j) in
  match r with
  | (rd, n, Some e) => Ok (rd, n, Some e)
  | (rd, n, None) =>
      let returned := sdrop (Z.to_nat (jn_tend j)) tx in
      let tail :=
        let* expected := switch_encode key (run_of im) (au_nonce a) RETURN 6 "" in
        do* srequire (startswith returned expected) "unexpected post-transition request bytes" in
        srequire (negb (rd_returned rd) || (returned =? expected)%string)
          "return ACK lacks a complete original request" in
      match tail with Ok _ => Ok (rd, n, None) | Err e => Ok (rd, n, Some e) end
  end.
End Replay.

(** ** What a PID1 transition establishes *)

#[local] Arguments ConsoleCodec.wire : simpl never.

(** ** The sequence of stages *)

(** The stages reported once stage [last] was reached, with [n] log rows *)
Definition plan (last : Z) (n : nat) : list Z :=
  zrange 1 (Z.min last 2 + 1) ++ replicate n 10 ++ zrange 3 (last + 1).

Lemma zrange_snoc a b : a ≤ b → zrange a (b + 1) = (zrange a b ++ [b])%list.
Proof.
  intros Hab. unfold zrange. replace (Z.to_nat (b + 1 - a)) with (S (Z.to_nat (b - a))) by lia.
  rewrite seq_S, map_app. cbn [map]. do 2 f_equal. lia.
Qed.
Lemma zrange_nil a b : b ≤ a → zrange a b = [].
Proof. intros Hab. unfold zrange. by replace (Z.to_nat (b - a)) with O by lia. Qed.

Lemma plan_next last n : 0 ≤ last → (last < 2 → n = O) → plan (last + 1) n = (plan last n ++ [last + 1])%list.
Proof.
  intros Hl Hn. unfold plan. destruct (decide (last < 2)) as [Hs|Hs].
  - rewrite (Hn Hs). rewrite (zrange_nil 3 (last + 1)), (zrange_nil 3 (last + 1 + 1)) by lia. cbn [replicate app].
    rewrite !app_nil_r. replace (Z.min (last + 1) 2 + 1) with ((Z.min last 2 + 1) + 1) by lia.
    rewrite zrange_snoc by lia. do 2 f_equal. lia.
  - replace (Z.min (last + 1) 2) with (Z.min last 2) by lia. rewrite (zrange_snoc 3 (last + 1)) by lia.
    by rewrite !app_assoc.
Qed.
Lemma plan_log n : plan 2 (S n) = (plan 2 n ++ [10])%list.
Proof.
  unfold plan. rewrite (zrange_nil 3 (2 + 1)) by lia. rewrite !app_nil_r, <- app_assoc. f_equal.
  apply (replicate_cons_app n 10).
Qed.

Section Stages.
Context `{Digest}.
Variables (key run nonce : string) (f : switch_config).
Notation accept := (accept_record key run nonce f).

(** The facts a witness reports are the ones the owner bound. *)
Definition bound_proof (p : switch_proof) : Prop :=
  sp_witness_sha p = sc_witness f ∧ (sp_major p ≠ 0 ∨ sp_minor p ≠ 0) ∧ 6 ≤ sp_mounts p ≤ 32
  ∧ sp_flags p = (if sc_readonly f then 15 else 0).

Record staged (r : records) : Prop := {
  st_rows : ∃ n, (rd_last r < 2 → n = O)
    ∧ map sw_stage (rd_rows r) = (plan (rd_last r) n ++ match rd_stop r with Some _ => [11] | None => [] end)%list;
  st_last : 0 ≤ rd_last r ≤ 8;
  st_witness : ∀ p, rd_proof r = Some p → rd_last r = 8 ∧ rd_stop r = None ∧ bound_proof p;
  st_early : rd_proof r = None → rd_last r < 8;
  st_stop : ∀ e l, rd_stop r = Some (e, l) → 0 < e ≤ 4095 ∧ l = rd_last r;
  st_return : rd_returned r = true → rd_proof r ≠ None;
  st_count : (length (rd_rows r) ≤ 256)%nat;
  st_sequence : ∀ k row, rd_rows r !! k = Some row → sw_sequence row = 1024 + Z.of_nat k;
  st_logs : zlen (rd_logs r) ≤ 128 * 1024
}.

Lemma staged0 : staged records0.
Proof. split; cbn; try done; try lia. exists O. split; [done|reflexivity]. Qed.

Lemma row_sequence (rows : list switch_row) row :
  (∀ k row, rows !! k = Some row → sw_sequence row = 1024 + Z.of_nat k) →
  sw_sequence row = 1024 + Z.of_nat (length rows) →
  ∀ k x, (rows ++ [row])%list !! k = Some x → sw_sequence x = 1024 + Z.of_nat k.
Proof.
  intros Hr Hq k x [Hk|[Hk [Hz <-]%list_lookup_singleton_Some]]%lookup_app_Some; [by apply Hr|]. lia.
Qed.

Lemma switch_witness_bound data p : switch_witness f data = Ok p → bound_proof p.
Proof.
  unfold switch_witness. intros ([] & _ & Hp)%rbind_Ok. cbv zeta in Hp.
  apply rbind_Ok in Hp as ([] & Hc%require_Ok & Hq).
  set (mj := unle (stake 4 (sdrop 4 data))) in *. set (mn := unle (stake 4 (sdrop 8 data))) in *.
  set (mo := unle (stake 4 (sdrop 12 data))) in *. set (fl := unle (stake 4 (sdrop 112 data))) in *.
  set (wi := hex_of (stake 32 (sdrop 48 data))) in *. clearbody mj mn mo fl wi. injection Hq as <-.
  bsimp. unfold bound_proof. cbn. split_and!; try done; lia.
Qed.

Lemma accept_staged r fr r' : staged r → accept r fr = Ok r' → staged r'.
Proof.
  intros [R1 R2 R3 R4 R5 R6 R7 R8 R9]. unfold accept_record. intros (value & _ & Ha)%rbind_Ok.
  destruct (fr_kind fr =? RETURN_ACK).
  { apply rbind_Ok in Ha as ([] & Hc%require_Ok & [= <-]). bsimp.
    split; cbn; try done. intros _ Hn. by rewrite Hn in *. }
  apply rbind_Ok in Ha as ([] & Hc%require_Ok & Ha). cbv zeta in Ha. apply rbind_Ok in Ha as ([] & He%require_Ok & Ha).
  bsimp. set (stage := unle (stake 4 value)) in *. set (error := unle (stake 4 (sdrop 4 value))) in *.
  assert (Hpos : 0 ≤ error) by (unfold error; apply unle_range). clearbody stage error.
  set (data := sdrop 8 value) in *. clearbody data.
  set (row := {| sw_sequence := fr_seq fr; sw_stage := stage; sw_errno := error; sw_size := zlen data; sw_sha := hexdigest data |}) in *.
  assert (Hp : rd_proof r = None) by (by destruct (rd_proof r)).
  assert (Hs : rd_stop r = None) by (by destruct (rd_stop r)).
  assert (Hlen : (length (rd_rows r ++ [row]) ≤ 256)%nat).
  { rewrite length_app. cbn. match goal with H : (_ <? 256)%nat = true |- _ => apply Nat.ltb_lt in H end. lia. }
  pose proof (row_sequence (rd_rows r) row R8 ltac:(done)) as Hseq.
  destruct R1 as (n & Hn & Hrows). rewrite Hs, app_nil_r in Hrows. specialize (R4 Hp).
  destruct (stage =? 10) eqn:E10; [|destruct (stage =? 11) eqn:E11].
  - apply rbind_Ok in Ha as ([] & Hc%require_Ok & [= <-]). bsimp. subst stage.
    assert (E2 : rd_last r = 2) by done.
    split; cbn [add_switch_row rd_rows rd_last rd_stop rd_proof rd_returned rd_logs]; try done; [|rewrite zlen_app; lia].
    exists (S n). rewrite Hs, E2, app_nil_r. split; [lia|]. rewrite map_app, Hrows, E2. by rewrite plan_log.
  - apply rbind_Ok in Ha as ([] & Hc%require_Ok & [= <-]). bsimp. subst stage.
    split; cbn [add_switch_row rd_rows rd_last rd_stop rd_proof rd_returned rd_logs]; try done.
    + exists n. split; [done|]. by rewrite map_app, Hrows.
    + intros p Hq. congruence.
    + intros e l [= <- <-]. split; [lia|done].
  - apply rbind_Ok in Ha as ([] & Hc%require_Ok & Ha). bsimp. subst stage.
    assert (Hgo : ∀ q, (∀ p, q = Some p → rd_last r + 1 = 8 ∧ bound_proof p) → (q = None → rd_last r + 1 < 8) →
      staged (add_switch_row r row (rd_logs r) (rd_last r + 1) q (rd_stop r))).
    { intros q Hq1 Hq2. split; cbn [add_switch_row rd_rows rd_last rd_stop rd_proof rd_returned rd_logs]; try done.
      - exists n. rewrite Hs, app_nil_r. split; [intros; apply Hn; lia|]. rewrite map_app, Hrows, plan_next by (try done; lia). done.
      - lia.
      - intros p Hp'. destruct (Hq1 p Hp') as [? ?]. done.
      - intros e l. congruence.
      - intros Hr. congruence. }
    destruct (rd_last r + 1 <? 8) eqn:E8.
    + apply rbind_Ok in Ha as ([] & _ & [= <-]). apply Hgo; [by rewrite Hp|]. intros _. lia.
    + apply rbind_Ok in Ha as (p & Hw & [= <-]). apply Hgo; [|done]. intros p' [= <-].
      split; [lia|]. by eapply switch_witness_bound.
Qed.
End Stages.

(** ** The retained transition *)

Section Transcript.
Context `{Digest}.
Variables (key run nonce : string) (f : switch_config).
Notation accept := (accept_record key run nonce f).

(** The loop reads whole encoded frames to the end of the stream. *)
Lemma switch_loop_sound fuel r rest r' :
  (String.length rest < fuel)%nat → switch_loop key run nonce fuel f r rest = Ok r' →
  ∃ frs, rest = encodeds frs ∧ foldM accept r frs = Ok r'.
Proof.
  revert r rest. induction fuel as [|fuel IH]; intros r rest Hl; [lia|]. cbn [switch_loop].
  destruct (rest =? "")%string eqn:E.
  { apply String.eqb_eq in E as ->. intros [= <-]. by exists []. }
  intros ([] & Hlen%require_Ok%Nat.leb_le & Hr)%rbind_Ok. apply rbind_Ok in Hr as ([] & _ & Hr). cbv zeta in Hr.
  set (n := (16 + Z.to_nat (hd_size rest))%nat) in *. assert (Hn : (16 ≤ n)%nat) by (unfold n; lia). clearbody n.
  apply rbind_Ok in Hr as (fr & [Hs Hd]%decode_inv & Hr). apply rbind_Ok in Hr as (r1 & Ha & Hr).
  apply IH in Hr as (frs & Hrest & Hfold); [|rewrite sdrop_length; lia].
  exists (fr :: frs). cbn [encodeds foldM]. rewrite Ha. cbn [rbind]. split; [|done].
  by rewrite <- Hd, <- Hrest, stake_sdrop.
Qed.

Lemma records_staged frs r : foldM accept records0 frs = Ok r → staged f r.
Proof.
  assert (Hgo : ∀ r0, staged f r0 → foldM accept r0 frs = Ok r → staged f r); [|apply Hgo, staged0].
  induction frs as [|fr frs IH]; intros r0 Hr; cbn [foldM].
  - by intros [= <-].
  - intros (r1 & Ha & Hf)%rbind_Ok. by apply (IH r1); [eapply accept_staged|].
Qed.
End Transcript.

Section Replay.
Context `{Digest}.
Variables (im : image_identity) (domain key : string).

(** The requests of a transition *)
Definition switch_frames (body : string) : list wframe := [Fr EXEC 3 body; Fr STATUS 4 ""; Fr REQUEST 5 ""].

Lemma switch_bodiless kind body :
  kind = STATUS ∨ kind = REQUEST → switch_validate_request kind body = Ok tt → body = "".
Proof.
  unfold switch_validate_request. intros [->| ->]; cbn [Z.eqb Pos.eqb REQUEST STATUS].
  - unfold validate_request. intros ([] & _ & Hr)%rbind_Ok. apply rbind_Ok in Hr as ([] & Hb%require_Ok & _).
    cbn in Hb. apply Z.eqb_eq in Hb. unfold zlen in Hb. by destruct body.
  - intros Hb%require_Ok. by apply String.eqb_eq in Hb.
Qed.

Lemma switch_requested gs s :
  requested switch_class gs s → st_requests s = switch_requests → ∃ body, gs = switch_frames body.
Proof.
  intros [Hseq Hkind _ Hvalid] Hr.
  assert (Hk : ∀ n, switch_requests !! n = if 3 <=? n then fr_kind <$> gs !! Z.to_nat (n - 3) else None)
    by (intros n; by rewrite <- Hr).
  pose proof (Hk 3) as K3. pose proof (Hk 4) as K4. pose proof (Hk 5) as K5. pose proof (Hk 6) as K6. clear Hk.
  change (Some EXEC = fr_kind <$> gs !! 0%nat) in K3. change (Some STATUS = fr_kind <$> gs !! 1%nat) in K4.
  change (Some REQUEST = fr_kind <$> gs !! 2%nat) in K5. change (None = fr_kind <$> gs !! 3%nat) in K6.
  destruct gs as [|f0 [|f1 [|f2 [|f3 ?]]]]; try done. cbn in K3, K4, K5.
  injection K3 as K3. injection K4 as K4. injection K5 as K5. exists (fr_body f0).
  apply Forall_cons in Hvalid as [_ Hvalid]. apply Forall_cons in Hvalid as [V1 Hvalid].
  apply Forall_cons in Hvalid as [V2 _].
  apply switch_bodiless in V1; [|by left]. apply switch_bodiless in V2; [|by right].
  pose proof (Hseq 0%nat f0 eq_refl). pose proof (Hseq 1%nat f1 eq_refl). pose proof (Hseq 2%nat f2 eq_refl).
  destruct f0, f1, f2. cbn in *. by subst.
Qed.

(** The last response of a joined transition is its acceptance. *)
Lemma switch_joined rx tx j retries nonce boot fs gs :
  streams im domain key switch_class [ACCEPTED] rx tx j retries nonce boot fs gs →
  st_requests (jn_state j) = switch_requests.
Proof.
  intros [_ _ _ _ _ (t & _ & Hr) _ (pre & f & He & Hf)]. rewrite He, replay_responses_snoc in Hr.
  apply rbind_Ok in Hr as (s1 & _ & Hr). apply rbind_Ok in Hr as ([s2 row] & Hv & [= <-]). cbn [fst].
  cbn in Hf. rewrite orb_false_r in Hf. apply Z.eqb_eq in Hf.
  cbn [sc_validate switch_class] in Hv. apply switch_accepted in Hv as (-> & Hi & _); [|done].
  apply switch_idle_inv in Hi as (_ & _ & Hreq & _). exact Hreq.
Qed.

(** A transition accepted from its streams *)
Record transition (witness rx tx : string) (j : joined) (r : records) (retries : Z) (nonce boot : string)
    (fs frs : list wframe) : Prop := {
  tr_exchange : authenticated im domain key (Ex (Rt rx 0 tx 0) audit0 (progress0 true)) (jn_exchange j) retries nonce boot fs;
  tr_rx : rx = (greeting im retries nonce ++ admission im domain key nonce boot ++ encodeds fs
                ++ wires (session_ident key (run_of im) nonce) (jn_events j)) ++ encodeds frs;
  tr_tx : tx = (handshake_tx im key nonce
                ++ wires (session_ident key (run_of im) nonce) (switch_frames COMMAND_BODY))
               ++ encoded (Fr RETURN 6 (switch_tag key (run_of im) nonce false RETURN 6 ""));
  tr_records : foldM (accept_record key (run_of im) nonce (switch_config_of witness boot)) records0 frs = Ok r;
  tr_proof : ∃ p, rd_proof r = Some p ∧ bound_proof (switch_config_of witness boot) p;
  tr_stages : ∃ n, map sw_stage (rd_rows r) = plan 8 n;
  tr_returned : rd_returned r = true;
  tr_healthy : ∃ prefix, until_status (jn_events j) = Ok prefix ∧ healthy (health_view (jn_state j) prefix) prefix
}.

(** What follows the boundary of a joined session *)
Lemma after_boundary s rest n : n = zlen (s ++ rest) - zlen rest → sdrop (Z.to_nat n) (s ++ rest) = rest.
Proof. intros ->. rewrite zlen_app. apply sdrop_app. unfold zlen. lia. Qed.

Lemma switch_replay_transition witness rx tx j r :
  switch_replay_one im domain key witness rx tx = Ok (j, r) →
  ∃ retries nonce boot fs frs, transition witness rx tx j r retries nonce boot fs frs.
Proof.
  unfold switch_replay_one. intros ([] & _ & Hs)%rbind_Ok. apply rbind_Ok in Hs as (j' & Hj & Hs).
  apply (replay_joined_streams im domain key switch_class) in Hj as (retries & nonce & boot & fs & gs & Hm); [|apply _].
  apply rbind_Ok in Hs as ([] & Hh & Hs). apply rbind_Ok in Hs as (r' & Hr & Hs).
  apply rbind_Ok in Hs as ([] & Hp%require_Ok & Hs). apply rbind_Ok in Hs as (expected & He & Hs).
  apply rbind_Ok in Hs as ([] & Ht%require_Ok%String.eqb_eq & [= -> ->]).
  pose proof Hm as [Hat (rest & Erx & Erend) (rest' & Etx & Etend) Hreq _ _ _ _].
  pose proof (at_audit _ _ _ _ _ _ _ _ _ Hat) as (En & Eb & _). rewrite En, Eb in *.
  apply encode_frame_Ok in He as [_ ->].
  rewrite Erx in Hr, Erend at 1. rewrite (after_boundary _ _ _ Erend) in Hr. unfold switch_records in Hr.
  apply switch_loop_sound in Hr as (frs & -> & Hfold); [|lia].
  rewrite Etx in Ht, Etend at 1. rewrite (after_boundary _ _ _ Etend) in Ht. subst rest'.
  unfold fixed_health in Hh. apply rbind_Ok in Hh as (prefix & Hpre & Hh). apply validate_console_healthy in Hh.
  destruct (switch_requested _ _ Hreq (switch_joined _ _ _ _ _ _ _ _ Hm)) as [body Hgs].
  assert (body = COMMAND_BODY) as ->.
  { destruct (hl_command _ _ Hh) as (_ & Hb & _). cbn [vw_bodies health_view] in Hb.
    rewrite (rq_body _ _ _ Hreq), Hgs in Hb. change (Some body = Some COMMAND_BODY) in Hb. by injection Hb. }
  pose proof (records_staged _ _ _ _ _ _ Hfold) as Hst. apply andb_true_iff in Hp as [Hp Hret].
  destruct (rd_proof r) as [p|] eqn:Ep; [|done].
  destruct (st_witness _ _ Hst p Ep) as (E8 & Estop & Hbp). destruct (st_rows _ _ Hst) as (n & _ & Hrows).
  rewrite E8, Estop, app_nil_r in Hrows.
  exists retries, nonce, boot, fs, frs. subst gs. split; try done; [by exists p|by exists n|by exists prefix].
Qed.
End Replay.
