(* ===== verification/ArrivalProps.v ===== *)
(** * Properties of native arrivals

    What a live arrival leaves replays to the same state; what an accepted arrival
    and an accepted PID1 transition are; how long a chain of arrivals can be; and
    what the replay of a prefix can raise.

    A whole arrival with a cached preparation, the same boot asked for a PID1
    transition, and a chain of arrivals are evaluated with the cheap digest: they are
    the witnesses of the theorems. *)

From stdpp Require Import base list strings gmap.
From Stdlib Require Import ZArith NArith Lia Ascii.
From S2P Require Import Prelude PyStr Json Digest Bytes Console ConsoleSession ConsoleCodec ConsoleLife ConsoleReplay ConsolePrefix Health ConsoleKinds ConsoleProps WireV3 Handshake HandshakeTheory Arrival ArrivalTheory SwitchRoot.
Open Scope string_scope.
Open Scope Z_scope.

#[local] Arguments ConsoleCodec.wire : simpl never.

Section Arrivals.
Context `{Digest}.
Variables (im : image_identity) (domain key : string).

(** C5. A live arrival that ended with a detach, whatever the pieces its bytes were read
    and written in, replays from its captured streams: the same handshake facts, the
    same session state, and the boundary at the very end of both streams. *)
Theorem live_arrival_replays w x' faults acts :
  let i := session_ident key (run_of im) (au_nonce (ex_audit x')) in
  let l := run i detach_class faults acts in
  wi_rx w = "" → wi_tx w = "" →
  handshake im domain key (Ex w audit0 (progress0 true)) = (Ok tt, x') →
  lv_stopped l = false → st_finished (lv_st l) = true → detaching (lv_st l) → zlen (lv_tx l) ≤ SESSION_RX_LIMIT →
  let rx := wi_rx (ex_chan x') ++ lv_rx l in
  let tx := wi_tx (ex_chan x') ++ lv_tx l in
  ∃ s evs, same s (lv_st l) ∧ lv_rx l = wires i (resps evs)
    ∧ replay_joined detach_class TERMINAL_RX TERMINAL_TX im domain key rx tx
      = Ok {| jn_exchange := Ex (Rt (lv_rx l) (String.length (wi_rx (ex_chan x')))
                                    (lv_tx l) (String.length (wi_tx (ex_chan x')))) (ex_audit x') (ex_prep x');
              jn_state := s; jn_events := resps evs; jn_rend := zlen rx; jn_tend := zlen tx |}.
Proof.
  intros i l Hrx Htx Hh Hs Hf Hd Hlt rx tx.
  destruct (live_arrival im domain key w x' faults acts Hrx Htx Hh Hs Hf Hlt) as (s & evs & Hhist & Hsame & Hw & Hr).
  exists s, evs. split_and!; [done|done|]. fold i l rx tx in Hr, Hhist. rewrite Hr.
  by rewrite (idle_answered _ (detach_history_idle _ _ Hhist Hf Hd)).
Qed.

(** C6. An arrival that the replay accepts is exactly this: the banner and the challenge,
    the admission with its tags under the installation key and the challenge's nonce, the
    whole preparation, and one console session of fixed requests whose command printed
    the fixed health report, ran to a clean end and left the supervisor idle; nothing
    was sent but those requests, and the receipt names the image, nonce and boot. *)
Theorem arrival_proved k rx tx v rend tend :
  replay_one k im domain key rx tx = Ok (v, rend, tend) →
  ∃ j retries nonce boot fs optional prefix,
    streams im domain key detach_class TERMINAL_RX rx tx j retries nonce boot fs
      (profile_requests k COMMAND_BODY (ar_ending v) optional)
    ∧ in_kinds (ar_ending v) [CONTROL; DETACH] = true
    ∧ vouched im k j v prefix
    ∧ pg_records (ex_prep (jn_exchange j)) = map (λ se, (se.1, se.2, 0)) (schedule (ex_prep (jn_exchange j)))
    ∧ lifetime_ok (ar_info v)
    ∧ ar_nonce_sha v = hexdigest nonce ∧ ar_boot_sha v = hexdigest boot.
Proof.
  unfold replay_one. intros ([] & _ & Hr)%rbind_Ok. apply rbind_Ok in Hr as (j & Hj & Hr).
  apply rbind_Ok in Hr as (v' & Hv & [= -> _ _]).
  apply (replay_joined_streams im domain key detach_class) in Hj as (retries & nonce & boot & fs & gs & Hm); [|apply _].
  apply projection_vouched in Hv as [prefix Hv].
  destruct (vc_profile _ _ _ _ _ Hv) as [optional Hp]. pose proof (sm_requested _ _ _ _ _ _ _ _ _ _ _ _ _ Hm) as Hq.
  destruct (request_profile_spec k gs _ _ _ Hq Hp) as [He [body Hgs]].
  assert (body = COMMAND_BODY) as ->.
  { destruct (hl_command _ _ (vc_healthy _ _ _ _ _ Hv)) as (_ & Hb & _). cbn [vw_bodies health_view] in Hb.
    rewrite (rq_body _ _ _ Hq), Hgs in Hb. unfold profile_requests in Hb.
    change (Some body = Some COMMAND_BODY) in Hb. by injection Hb. }
  subst gs. pose proof (sm_exchange _ _ _ _ _ _ _ _ _ _ _ _ _ Hm) as [_ _ _ _ _ (En & Eb & _) [Ha Hre]].
  destruct (ready_complete im key nonce _ _ _ (prepared_start true) Ha Hre) as [Hrec Hinfo].
  destruct (vc_names _ _ _ _ _ Hv) as (_ & N1 & N2). rewrite En in N1. rewrite Eb in N2.
  exists j, retries, nonce, boot, fs, optional, prefix. split_and!; try done.
  rewrite (vc_info _ _ _ _ _ Hv) in Hinfo. destruct Hinfo as (t & [= <-] & Ht); [|done].
  by rewrite (accepts_lifetime _ _ _ _ _ _ Ha).
Qed.

(** C17. A transition that the replay accepts is one healthy session that asked for the
    transition and nothing else, then the whole sequence of stage records of the new
    program, with the log between the second and the third, the bound witness as the
    eighth, and one return, requested once and acknowledged. *)
Theorem switch_transition witness rx tx j r :
  switch_replay_one im domain key witness rx tx = Ok (j, r) →
  ∃ retries nonce boot fs frs, transition im domain key witness rx tx j r retries nonce boot fs frs.
Proof. apply switch_replay_transition. Qed.
End Arrivals.

(** However many times a boot is authenticated again, each arrival fresh after the one
    before, the chain is no longer than [AUTH_LIMIT]: its nonces all differ, its ordinals
    count up by one, and its boot and run never change. *)
Theorem reauthentication_bounded (l : list tail) :
  chained l → Forall (λ t, lifetime_ok (tl_info t)) l →
  Z.of_nat (length l) ≤ AUTH_LIMIT ∧ NoDup (map tl_nonce l)
  ∧ ∀ k a b, l !! 0%nat = Some a → l !! k = Some b →
      lt_ordinal (tl_info b) = lt_ordinal (tl_info a) + Z.of_nat k ∧ tl_boot b = tl_boot a ∧ tl_run b = tl_run a.
Proof.
  intros Hc Hl. split_and!; [by apply chained_bound|by apply chained_nonces|].
  intros k a b. by apply chained_ordinal.
Qed.

(** ** Native arrivals evaluated *)

#[local] Existing Instance checksum_digest.

(** ** The device *)

Definition image : image_identity := {| im_namespace := "p328"; im_run_hex := "0123456789abcdef0123456789abcdef" |}.
Definition lab_key : string := repeat_char 32 "k".
Definition nonce : string := repeat_char 32 "n".
Definition boot : string := repeat_char 32 "b".
Definition lab_domain : string := match boot_domain (im_namespace image) with Ok d => d | Err _ => "" end.

(** The second authentication of a boot *)
Definition info_head : string := unwords32 [1; 2; AUTH_LIMIT; 1] ++ le 8 1000 ++ le 8 BOOT_LIMIT_MS.
Definition info_frame : wframe := Fr INFO_FRAME INFO_SEQUENCE (info_head ++ info_tag image lab_key nonce info_head).
Definition progress_frame (n : nat) (se : Z * Z) : wframe :=
  let sequence := 256 + Z.of_nat n in
  let h := le 2 se.1 ++ le 1 se.2 ++ le 1 0 ++ le 4 0 in
  Fr 139 sequence (h ++ progress_tag image lab_key nonce sequence h).

Definition device_frames : list wframe :=
  [diagnostic_frame 0 0; diagnostic_frame 1 0; diagnostic_frame 2 3; Fr 133 0 nonce;
   Fr 129 1 (ready_tag image lab_key nonce); Fr 135 2 (boot ++ boot_tag image lab_domain lab_key nonce boot); info_frame]
  ++ imap progress_frame CACHED_PROGRESS.

(** Every frame arrives in two pieces, the first after nothing arrived. *)
Definition arriving (data : string) : rtry := {| rt_now := 1; rt_read := RData data |}.
Definition frame_rounds (f : wframe) : list rtry :=
  [{| rt_now := 0; rt_read := RBlocked |}; arriving (stake 16 (encoded f)); arriving (sdrop 16 (encoded f))].
Definition device : wireio := {|
  wi_deadline := 5;
  wi_in := arriving (banner image) :: flat_map frame_rounds device_frames;
  wi_out := [{| wt_now := 0; wt_guard := None; wt_write := Wrote 9 |}; {| wt_now := 0; wt_guard := None; wt_write := Wrote 2000 |};
             {| wt_now := 0; wt_guard := None; wt_write := Blocked |}; {| wt_now := 0; wt_guard := None; wt_write := Wrote 2000 |}];
  wi_rx := ""; wi_tx := ""; wi_wire := ""; wi_faults := None |}.

Notation greeted := (handshake image lab_domain lab_key (Ex device audit0 (progress0 true))).2.
Notation session := (session_ident lab_key (run_of image) (au_nonce (ex_audit greeted))).

(** ** The session *)

Definition sid : ident := session_ident lab_key (run_of image) nonce.
Definition from_device (fs : list wframe) : act := APoll (RData (wires sid fs)).
Definition report_total : Z := zlen STDOUT + zlen STDERR.
Definition healthy_acts : list act :=
  [from_device [ready_frame]; sending EXEC COMMAND_BODY;
   from_device [accepted_frame 3; output_frame 3 1 1 STDOUT; output_frame 3 2 2 STDERR]; from_device [exit_frame 3 report_total 2];
   sending STATUS ""; from_device [Fr STATUS_REPLY 4 (supervisor 3 report_total false)]].
Definition detaching_acts : list act :=
  (healthy_acts ++ [sending DETACH ""; from_device [Fr DETACH_ACK 5 (supervisor 3 report_total true)]])%list.

Notation console := (run session detach_class None detaching_acts).
Notation rx := (wi_rx (ex_chan greeted) ++ lv_rx console).
Notation tx := (wi_tx (ex_chan greeted) ++ lv_tx console).

Lemma live_arrival_replays_witness :
  lv_stopped console = false ∧ detaching (lv_st console)
  ∧ ∃ s evs, same s (lv_st console) ∧ lv_rx console = wires session (resps evs)
      ∧ replay_joined detach_class TERMINAL_RX TERMINAL_TX image lab_domain lab_key rx tx
        = Ok {| jn_exchange := Ex (Rt (lv_rx console) (String.length (wi_rx (ex_chan greeted)))
                                      (lv_tx console) (String.length (wi_tx (ex_chan greeted))))
                                  (ex_audit greeted) (ex_prep greeted);
                jn_state := s; jn_events := resps evs; jn_rend := zlen rx; jn_tend := zlen tx |}.
Proof.
  pose proof (live_arrival_replays image lab_domain lab_key device greeted None detaching_acts) as Hl. cbv zeta in Hl.
  assert (Hh : handshake image lab_domain lab_key (Ex device audit0 (progress0 true)) = (Ok tt, greeted)) by evaluated.
  assert (Hs : lv_stopped console = false) by evaluated.
  assert (Hf : st_finished (lv_st console) = true) by evaluated.
  assert (Hd : detaching (lv_st console)) by (exists 5; split; evaluated).
  assert (Hz : zlen (lv_tx console) ≤ SESSION_RX_LIMIT) by (vm_compute; congruence).
  exact (conj Hs (conj Hd (Hl eq_refl eq_refl Hh Hs Hf Hd Hz))).
Defined.

(** ** The replayed arrival *)

Definition plain_io : io_class := {|
  ic_hud_body := ""; ic_decode_hud := λ _ _, Ok JNull; ic_hud_settle := 0; ic_source_profile := JNull; ic_extra := None |}.

Lemma arrival_proved_witness :
  match replay_one plain_io image lab_domain lab_key rx tx with
  | Ok (v, rend, tend) =>
      ar_ending v = DETACH
      ∧ ∃ j retries n b fs optional prefix,
          streams image lab_domain lab_key detach_class TERMINAL_RX rx tx j retries n b fs
            (profile_requests plain_io COMMAND_BODY (ar_ending v) optional)
          ∧ in_kinds (ar_ending v) [CONTROL; DETACH] = true
          ∧ vouched image plain_io j v prefix
          ∧ pg_records (ex_prep (jn_exchange j)) = map (λ se, (se.1, se.2, 0)) (schedule (ex_prep (jn_exchange j)))
          ∧ lifetime_ok (ar_info v) ∧ ar_nonce_sha v = hexdigest n ∧ ar_boot_sha v = hexdigest b
  | Err _ => False
  end.
Proof.
  pose proof (arrival_proved image lab_domain lab_key plain_io rx tx) as Hp.
  assert (Hv : match replay_one plain_io image lab_domain lab_key rx tx with
               | Ok (v, _, _) => ar_ending v = DETACH | Err _ => False end) by evaluated.
  destruct (replay_one plain_io image lab_domain lab_key rx tx) as [[[v rend] tend]|e]; [|exact Hv].
  exact (conj Hv (Hp v rend tend eq_refl)).
Defined.

(** ** The transition *)

Definition transition_acts : list act :=
  (healthy_acts ++ [sending REQUEST ""; from_device [Fr ACCEPTED 5 (supervisor 3 report_total true)]])%list.
Notation moving := (run session switch_class None transition_acts).

Definition witness_sha : string := hex_of (repeat_char 32 "w").
Definition witness_data : string :=
  unwords32 [1; 8; 1; 7] ++ boot ++ repeat_char 32 "w" ++ repeat_char 32 "m" ++ unwords32 [15; 1].
Definition switch_frame (kind seq : Z) (value : string) : wframe :=
  Fr kind seq (value ++ switch_tag lab_key (run_of image) nonce false kind seq value).
Definition stage_data (stage : Z) : string :=
  if stage =? 10 then "checked" else if stage =? 8 then witness_data else stage_label stage.
Definition stage_frame (n : nat) (stage : Z) : wframe :=
  switch_frame RECORD (1024 + Z.of_nat n) (unwords32 [stage; 0] ++ stage_data stage).
Definition transition_frames : list wframe :=
  (imap stage_frame [1; 2; 10; 3; 4; 5; 6; 7; 8] ++ [switch_frame RETURN_ACK 6 (le 4 1)])%list.

Notation moved_rx := ((wi_rx (ex_chan greeted) ++ lv_rx moving) ++ encodeds transition_frames).
Notation moved_tx := ((wi_tx (ex_chan greeted) ++ lv_tx moving) ++ encoded (switch_frame RETURN 6 "")).

Lemma switch_transition_witness :
  match switch_replay_one image lab_domain lab_key witness_sha moved_rx moved_tx with
  | Ok (j, r) =>
      map sw_stage (rd_rows r) = [1; 2; 10; 3; 4; 5; 6; 7; 8]
      ∧ ∃ retries n b fs frs, transition image lab_domain lab_key witness_sha moved_rx moved_tx j r retries n b fs frs
  | Err _ => False
  end.
Proof.
  pose proof (switch_transition image lab_domain lab_key witness_sha moved_rx moved_tx) as Hp.
  assert (Hv : match switch_replay_one image lab_domain lab_key witness_sha moved_rx moved_tx with
               | Ok (j, r) => map sw_stage (rd_rows r) = [1; 2; 10; 3; 4; 5; 6; 7; 8] | Err _ => False end) by evaluated.
  destruct (switch_replay_one image lab_domain lab_key witness_sha moved_rx moved_tx) as [[j r]|e]; [|exact Hv].
  exact (conj Hv (Hp j r eq_refl)).
Defined.

(** ** A chain *)

Definition arrived (ordinal : Z) (n : string) : tail := {|
  tl_run := im_run_hex image; tl_boot := boot; tl_nonce := n;
  tl_info := {| lt_ordinal := ordinal; lt_cached := 1 <? ordinal; lt_elapsed := 1000 * ordinal |};
  tl_detached := ordinal <? 3 |}.
Definition chain : list tail := [arrived 1 "a"; arrived 2 "b"; arrived 3 "c"].

Lemma reauthentication_bounded_witness :
  chained chain ∧ Forall (λ t, lifetime_ok (tl_info t)) chain
  ∧ Z.of_nat (length chain) ≤ AUTH_LIMIT ∧ NoDup (map tl_nonce chain)
  ∧ ∀ k a b, chain !! 0%nat = Some a → chain !! k = Some b →
      lt_ordinal (tl_info b) = lt_ordinal (tl_info a) + Z.of_nat k ∧ tl_boot b = tl_boot a ∧ tl_run b = tl_run a.
Proof.
  assert (Hc : chained chain).
  { intros [|[|[|k]]] a b Ha Hb; try discriminate Hb; injection Ha as <-; injection Hb as <-; evaluated. }
  assert (Hl : Forall (λ t, lifetime_ok (tl_info t)) chain).
  { apply Forall_lookup. intros [|[|[|k]]] t Ht; try discriminate Ht; injection Ht as <-; split_and!; vm_compute; congruence. }
  exact (conj Hc (conj Hl (reauthentication_bounded chain Hc Hl))).
Defined.
