(* ===== verification/A90Contract.v ===== *)
(** * Contracts of the A90 resident and switch-root workflows

    [a90_transition_contract_v2.py]: the failure signature, the approval and
    session bindings, the preflight, the successor contracts of a handoff, the
    display proof and the repeated-failure gate.  A dataclass field whose class
    is checked at run time holds either the enum member or another value
    ([dyn]); one the code only checks with [isinstance(v, str)], [type(v) is
    bool] or [type(v) is int] is a [json] value. *)

From stdpp Require Import base list strings.
From Stdlib Require Import ZArith Lia Ascii.
From S2P Require Import Prelude PyStr Json.
Open Scope string_scope.

Abbreviation dyn A := (A + json)%type.

Definition is_upper (c : ascii) : bool := char_between "A" "Z" c.
Definition is_alnum (c : ascii) : bool := is_upper c || is_lower c || is_digit c.
Definition is_identity_char (c : ascii) : bool :=
  is_alnum c || (c =? "_")%char || (c =? ".")%char || (c =? ":")%char
  || (c =? "+")%char || (c =? "-")%char.

(** [IDENTITY_RE.fullmatch] *)
Definition identity_re (s : string) : bool :=
  match s with
  | "" => false
  | String c s' => is_alnum c && all_chars is_identity_char s' && (String.length s' <=? 127)%nat
  end.

(** [isinstance(v, str) and RE.fullmatch(v) is not None] *)
Definition identity_val (v : json) : bool := match v with JStr s => identity_re s | _ => false end.
Definition sha256_val (v : json) : bool := match v with JStr s => sha256_re s | _ => false end.

Definition MAX_ATTENDED_SESSION_DURATION_SEC : Z := 8 * 60 * 60.
Definition MAX_ATTENDED_SESSION_ACTIONS : Z := 32.

Inductive RiskTier :=
  H0_HOST_ONLY | TIER_D1_TRANSIENT_NO_PAYLOAD_CONTROL | F1_BOOT_ONLY_WITH_EXACT_ROLLBACK.
Inductive Workflow := RESIDENT_INSTALL_F1 | SWITCHROOT_EXPERIMENT_D1 | ATTENDED_SESSION_D1.
Inductive SessionAction := SWITCHROOT_EXPERIMENT.
Inductive ProofState := PROVEN | REFUTED | UNAVAILABLE.

#[export] Instance RiskTier_eq_dec : EqDecision RiskTier.
Proof. solve_decision. Defined.
#[export] Instance Workflow_eq_dec : EqDecision Workflow.
Proof. solve_decision. Defined.
#[export] Instance SessionAction_eq_dec : EqDecision SessionAction.
Proof. solve_decision. Defined.
#[export] Instance ProofState_eq_dec : EqDecision ProofState.
Proof. solve_decision. Defined.

(** [isinstance(v, Enum)] and [v is member] *)
Definition is_member {A} (v : dyn A) : bool := match v with inl _ => true | inr _ => false end.
Definition is_exactly {A} `{EqDecision A} (a : A) (v : dyn A) : bool :=
  match v with inl b => bool_decide (b = a) | inr _ => false end.

Fixpoint members {A} (l : list (dyn A)) : list A :=
  match l with
  | [] => []
  | inl a :: l' => a :: members l'
  | inr _ :: l' => members l'
  end.

(** ** Failure signatures *)

Record FailureSignature := {
  fs_workflow : string;
  fs_phase : string;
  fs_class : string;
  fs_effect_started : bool;
  fs_last_proven_boundary : string
}.

#[export] Instance FailureSignature_eq_dec : EqDecision FailureSignature.
Proof. solve_decision. Defined.

(** The constructor with its [__post_init__]. *)
Definition failure_signature (workflow phase failure_class effect_started boundary : json)
    : result FailureSignature :=
  match workflow, phase, failure_class, boundary with
  | JStr w, JStr p, JStr c, JStr b =>
      do* require (forallb identity_re [w; p; c; b])
            (ContractError "failure signature identity is not exact") in
      match effect_started with
      | JBool e => Ok {| fs_workflow := w; fs_phase := p; fs_class := c;
                         fs_effect_started := e; fs_last_proven_boundary := b |}
      | _ => Err (ContractError "failure signature effect_started is not boolean")
      end
  | _, _, _, _ => Err (ContractError "failure signature identity is not exact")
  end.

Definition signature_to_dict (s : FailureSignature) : dict :=
  [("workflow", JStr (fs_workflow s)); ("phase", JStr (fs_phase s));
   ("failure_class", JStr (fs_class s)); ("effect_started", JBool (fs_effect_started s));
   ("last_proven_boundary", JStr (fs_last_proven_boundary s))].

Record ConfirmedRefutation := { cr_action : dyn SessionAction; cr_class : json }.

Definition validate_refutation (r : ConfirmedRefutation) : result unit :=
  do* require (is_member (cr_action r)) (ContractError "confirmed refutation action is not exact") in
  require (match cr_class r with
           | JStr s => identity_re s && endswith "_REFUTED" s
           | _ => false
           end) (ContractError "confirmed refutation class is not exact").

(** ** Approvals and sessions *)

Record ApprovalBinding := {
  ab_approval_id : json;
  ab_workflow : dyn Workflow;
  ab_risk_tier : dyn RiskTier;
  ab_target_profile : json;
  ab_manifest_sha256 : json
}.

Definition expected_tier (w : Workflow) : RiskTier :=
  match w with
  | RESIDENT_INSTALL_F1 => F1_BOOT_ONLY_WITH_EXACT_ROLLBACK
  | SWITCHROOT_EXPERIMENT_D1 => TIER_D1_TRANSIENT_NO_PAYLOAD_CONTROL
  | ATTENDED_SESSION_D1 => TIER_D1_TRANSIENT_NO_PAYLOAD_CONTROL
  end.

Definition validate_approval (b : ApprovalBinding) : result unit :=
  match ab_workflow b, ab_risk_tier b with
  | inl w, inl t =>
      do* require (identity_val (ab_approval_id b))
            (ContractError "approval identity is not exact") in
      do* require (identity_val (ab_target_profile b))
            (ContractError "target profile identity is not exact") in
      do* require (sha256_val (ab_manifest_sha256 b))
            (ContractError "approval manifest SHA256 is not exact") in
      require (bool_decide (t = expected_tier w))
        (ContractError "workflow and risk tier are not namespaced exactly")
  | _, _ => Err (ContractError "approval workflow or tier is not an exact enum")
  end.

Record AttendedSessionBinding := {
  sb_approval_id : json;
  sb_workflow : dyn Workflow;
  sb_risk_tier : dyn RiskTier;
  sb_target_profile : json;
  sb_manifest_sha256 : json;
  sb_resident_boot_sha256 : json;
  sb_rollback_boot_sha256 : json;
  sb_recovery_profile : json;
  sb_device_effect_runner_sha256 : json;
  sb_observer_sha256 : json;
  sb_return_health_profile : json;
  sb_action_allowlist : dyn (list (dyn SessionAction));
  sb_not_before_epoch_sec : json;
  sb_expires_at_epoch_sec : json;
  sb_max_actions : json
}.

(** A tuple of distinct members, not empty *)
Definition allowlist_ok (v : dyn (list (dyn SessionAction))) : bool :=
  match v with
  | inl l =>
      negb (match l with [] => true | _ => false end) && forallb is_member l
      && (length (remove_dups (members l)) =? length l)%nat
  | inr _ => false
  end.

Definition validity_ok (not_before expires : json) : bool :=
  match not_before, expires with
  | JInt a, JInt b =>
      (0 <=? a)%Z && (a <? b)%Z && (b - a <=? MAX_ATTENDED_SESSION_DURATION_SEC)%Z
  | _, _ => false
  end.

Definition budget_ok (v : json) : bool :=
  match v with JInt n => (1 <=? n)%Z && (n <=? MAX_ATTENDED_SESSION_ACTIONS)%Z | _ => false end.

Definition validate_session (b : AttendedSessionBinding) : result unit :=
  do* require (is_exactly ATTENDED_SESSION_D1 (sb_workflow b))
        (ContractError "session workflow is not namespaced exactly") in
  do* require (is_exactly TIER_D1_TRANSIENT_NO_PAYLOAD_CONTROL (sb_risk_tier b))
        (ContractError "session risk tier is not namespaced exactly") in
  do* forM (λ v, require (identity_val v) (ContractError "session identity is not exact"))
        [sb_approval_id b; sb_target_profile b; sb_recovery_profile b;
         sb_return_health_profile b] in
  do* forM (λ v, require (sha256_val v) (ContractError "session SHA256 is not exact"))
        [sb_manifest_sha256 b; sb_resident_boot_sha256 b; sb_rollback_boot_sha256 b;
         sb_device_effect_runner_sha256 b; sb_observer_sha256 b] in
  do* require (allowlist_ok (sb_action_allowlist b))
        (ContractError "session action allowlist is not exact") in
  do* require (validity_ok (sb_not_before_epoch_sec b) (sb_expires_at_epoch_sec b))
        (ContractError "session validity exceeds the eight-hour bound") in
  require (budget_ok (sb_max_actions b))
    (ContractError "session action budget exceeds the 32-action bound").

Definition validate_attended_session_binding (b : dyn AttendedSessionBinding)
    : result AttendedSessionBinding :=
  match b with
  | inl s => do* validate_session s in Ok s
  | inr _ => Err (ContractError "session binding type is not exact")
  end.

Record ObserverRepair := {
  or_previous_sha256 : json;
  or_repaired_sha256 : json;
  or_focused_tests_passed : json;
  or_host_only : json
}.

Definition validate_repair (r : ObserverRepair) : result unit :=
  do* require (sha256_val (or_previous_sha256 r) && sha256_val (or_repaired_sha256 r)
               && negb (py_eqb (or_previous_sha256 r) (or_repaired_sha256 r)))
        (ContractError "observer repair identity is not exact") in
  require (is_true (or_focused_tests_passed r) && is_true (or_host_only r))
    (ContractError "observer repair lacks host-only focused validation").

Record SessionPreflight := {
  sp_operator_attended : json;
  sp_target_identity_matches : json;
  sp_resident_identity_matches : json;
  sp_rollback_ready : json;
  sp_recovery_available : json;
  sp_unattended_resident_d1_qualified : json
}.

Definition validate_preflight (p : SessionPreflight) : result unit :=
  match sp_operator_attended p, sp_target_identity_matches p, sp_resident_identity_matches p,
        sp_rollback_ready p, sp_recovery_available p, sp_unattended_resident_d1_qualified p with
  | JBool att, JBool target, JBool resident, JBool rollback, JBool recovery, JBool unattended =>
      require (negb (Bool.eqb att unattended) && forallb id [target; resident; rollback; recovery])
        (ContractError "session preflight is not safe to continue")
  | _, _, _, _, _, _ => Err (ContractError "session preflight value is not boolean")
  end.

(** ** Successor contracts *)

Record SuccessorContract := {
  sc_domain : json;
  sc_predecessor_owner : json;
  sc_predecessor_release_proof : json;
  sc_successor_owner : json;
  sc_successor_acquisition_proofs : list json;
  sc_visibility_proof : json;
  sc_no_successor_by_design : bool
}.

(** [v is not None and RE.fullmatch(v) is None], which raises on another type *)
Definition visibility_ok (v : json) : result bool :=
  match v with
  | JNull => Ok true
  | JStr s => Ok (identity_re s)
  | _ => Err PyTypeError
  end.

Definition is_nil {A} (l : list A) : bool := match l with [] => true | _ => false end.

Definition validate_successor (c : SuccessorContract) : result unit :=
  do* require (forallb identity_val
                 ([sc_domain c; sc_predecessor_owner c; sc_predecessor_release_proof c;
                   sc_successor_owner c] ++ sc_successor_acquisition_proofs c))
        (ContractError "successor contract identity is not exact") in
  let* visible := visibility_ok (sc_visibility_proof c) in
  do* require visible (ContractError "visibility proof identity is not exact") in
  if sc_no_successor_by_design c then
    require (is_str (sc_successor_owner c) "none" && is_nil (sc_successor_acquisition_proofs c))
      (ContractError "by-design no-successor contract is inconsistent")
  else
    require (negb (is_str (sc_successor_owner c) "none")
             && negb (is_str (sc_predecessor_release_proof c) "")
             && negb (is_nil (sc_successor_acquisition_proofs c)))
      (ContractError "domain lacks release and successor acquisition").

Definition DISPLAY_SUCCESSOR : SuccessorContract := {|
  sc_domain := JStr "display";
  sc_predecessor_owner := JStr "native_init";
  sc_predecessor_release_proof := JStr "native_release";
  sc_successor_owner := JStr "debian_presenter";
  sc_successor_acquisition_proofs :=
    [JStr "drm_master_acquired"; JStr "connector_connected"; JStr "modeset_committed";
     JStr "backlight_enabled"; JStr "dpms_on"];
  sc_visibility_proof := JStr "visible_confirmed";
  sc_no_successor_by_design := false |}.

Definition successor_step (domains : list json) (c : SuccessorContract) : result (list json) :=
  do* validate_successor c in
  do* require (negb (existsb (py_eqb (sc_domain c)) domains))
        (ContractError "successor domain is duplicated") in
  Ok (sc_domain c :: domains).

Definition validate_successor_contracts (contracts : list SuccessorContract)
    : result (list SuccessorContract) :=
  do* require (negb (is_nil contracts))
        (ContractError "at least one handoff domain is required") in
  let* _domains := foldM successor_step [] contracts in
  Ok contracts.

(** ** Display proof *)

Record DisplayProof := {
  dp_native_release : dyn ProofState;
  dp_debian_pid1 : dyn ProofState;
  dp_dropbear : dyn ProofState;
  dp_drm_master_acquired : dyn ProofState;
  dp_connector_connected : dyn ProofState;
  dp_modeset_committed : dyn ProofState;
  dp_backlight_enabled : dyn ProofState;
  dp_dpms_on : dyn ProofState;
  dp_visible_confirmed : dyn ProofState;
  dp_visibility_source : json
}.

Definition mechanical_items (p : DisplayProof) : list (string * dyn ProofState) :=
  [("native_release", dp_native_release p); ("debian_pid1", dp_debian_pid1 p);
   ("dropbear", dp_dropbear p); ("drm_master_acquired", dp_drm_master_acquired p);
   ("connector_connected", dp_connector_connected p);
   ("modeset_committed", dp_modeset_committed p);
   ("backlight_enabled", dp_backlight_enabled p); ("dpms_on", dp_dpms_on p)].

Definition validate_display (p : DisplayProof) : result unit :=
  do* require (forallb is_member ((mechanical_items p).*2 ++ [dp_visible_confirmed p]))
        (ContractError "display proof state is not an exact enum") in
  if is_exactly PROVEN (dp_visible_confirmed p) then
    let* known := in_str_set (dp_visibility_source p) ["operator"; "camera"] in
    require known (ContractError "visible proof requires operator or camera source")
  else
    require (is_null (dp_visibility_source p))
      (ContractError "visibility source is present without visible proof").

Definition first_nonproven (p : DisplayProof) : result (option (string * dyn ProofState)) :=
  do* validate_display p in
  Ok (List.find (λ item, negb (is_exactly PROVEN item.2)) (mechanical_items p)).

(** ** The repeated-failure gate *)

Inductive gate :=
  STOP_AMBIGUOUS_FAILURE_SIGNATURE | STOP_REPEATED_FAILURE_SIGNATURE | ALLOW_FRESH_PREPARATION.

Definition repeated_failure_gate (previous : list (dyn FailureSignature)) : result gate :=
  do* require (forallb is_member previous)
        (ContractError "previous failure signature is not exact") in
  let signatures := members previous in
  match reverse signatures with
  | s1 :: rest =>
      if endswith "_AMBIGUOUS" (fs_class s1) then Ok STOP_AMBIGUOUS_FAILURE_SIGNATURE
      else match rest with
           | s2 :: _ =>
               if bool_decide (s1 = s2) then Ok STOP_REPEATED_FAILURE_SIGNATURE
               else Ok ALLOW_FRESH_PREPARATION
           | [] => Ok ALLOW_FRESH_PREPARATION
           end
  | [] => Ok ALLOW_FRESH_PREPARATION
  end.
