(* ===== verification/A90ContractProps.v ===== *)
(** * What an accepted session, preflight or handoff contract guarantees *)

From stdpp Require Import base list strings.
From Stdlib Require Import ZArith Lia Ascii.
From S2P Require Import Prelude PyStr Json A90Contract.
Open Scope string_scope.

(** ** Validators as predicates *)

Lemma is_exactly_inl {A} `{EqDecision A} (a : A) v : is_exactly a v = true ↔ v = inl a.
Proof.
  destruct v as [b|j]; simpl; [|naive_solver].
  rewrite bool_decide_eq_true. naive_solver.
Qed.

Lemma forall_members {A} (l : list (dyn A)) :
  forallb is_member l = true ↔ l = map inl (members l).
Proof.
  induction l as [|[a|j] l IH]; simpl; [done|..].
  - rewrite IH. split; [by intros <-|by intros [= <-]].
  - split; [done|]. intros H.
    assert (Hl : length (inr j :: l) = length (map (@inl A json) (members l))) by by rewrite <- H.
    assert (length (members l) ≤ length l)%nat.
    { clear. induction l as [|[a|j] l IH]; simpl; lia. }
    rewrite length_map in Hl. simpl in Hl. lia.
Qed.

Lemma members_map {A} (l : list A) : members (map inl l) = l.
Proof. induction l as [|a l IH]; simpl; [done|by rewrite IH]. Qed.

(** The only duplicate-free list over the one action there is. *)
Lemma allowlist_ok_iff v : allowlist_ok v = true ↔ v = inl [inl SWITCHROOT_EXPERIMENT].
Proof.
  split; [|by intros ->]. destruct v as [l|j]; [|done]. simpl. intros H. bsimp.
  match goal with H : forallb is_member l = true |- _ => apply forall_members in H as Hl end.
  rewrite Hl in *. rewrite members_map, length_map in *.
  revert H0 H. generalize (members l) as m. clear. intros m Hd%Nat.eqb_eq Hn.
  assert (Hm : Forall (eq SWITCHROOT_EXPERIMENT) m) by (clear; induction m as [|[] m IH]; [constructor|by constructor]).
  destruct m as [|[] [|[] m]]; [done|done|]. exfalso.
  assert (Hle : ∀ k : list SessionAction, (length (remove_dups k) ≤ length k)%nat).
  { clear. induction k as [|a k IH]; simpl; [done|]. unfold decide_rel. case_match; simpl; lia. }
  assert (Hdup : ∀ a (k : list SessionAction), a ∈ k → remove_dups (a :: k) = remove_dups k).
  { intros a k Hin. cbn [remove_dups]. by destruct (decide_rel elem_of a k). }
  rewrite Hdup in Hd by left. specialize (Hle (SWITCHROOT_EXPERIMENT :: m)). simpl in *. lia.
Qed.

Lemma identity_val_iff v : identity_val v = true ↔ ∃ s, v = JStr s ∧ identity_re s = true.
Proof. destruct v; simpl; naive_solver. Qed.

Lemma sha256_val_iff v : sha256_val v = true ↔ ∃ s, v = JStr s ∧ sha256_re s = true.
Proof. destruct v; simpl; naive_solver. Qed.

Lemma Forall_identity l :
  Forall (λ v, identity_val v = true) l ↔ Forall (λ v, ∃ s, v = JStr s ∧ identity_re s = true) l.
Proof. apply Forall_iff. intros x. apply identity_val_iff. Qed.

Lemma Forall_sha256 l :
  Forall (λ v, sha256_val v = true) l ↔ Forall (λ v, ∃ s, v = JStr s ∧ sha256_re s = true) l.
Proof. apply Forall_iff. intros x. apply sha256_val_iff. Qed.

Lemma require_forM_Ok {A} (p : A → bool) e l u :
  forM (λ v, require (p v) e) l = Ok u ↔ Forall (λ v, p v = true) l.
Proof.
  rewrite forM_Ok. split; intros H; (eapply Forall_impl; [exact H|]); intros x; apply require_Ok.
Qed.

(** ** Sessions *)

(** What an attended session is allowed to be. *)
Record session_valid (b : AttendedSessionBinding) : Prop := {
  sv_workflow : sb_workflow b = inl ATTENDED_SESSION_D1;
  sv_tier : sb_risk_tier b = inl TIER_D1_TRANSIENT_NO_PAYLOAD_CONTROL;
  sv_names : Forall (λ v, ∃ s, v = JStr s ∧ identity_re s = true)
    [sb_approval_id b; sb_target_profile b; sb_recovery_profile b; sb_return_health_profile b];
  sv_hashes : Forall (λ v, ∃ s, v = JStr s ∧ sha256_re s = true)
    [sb_manifest_sha256 b; sb_resident_boot_sha256 b; sb_rollback_boot_sha256 b;
     sb_device_effect_runner_sha256 b; sb_observer_sha256 b];
  sv_actions : sb_action_allowlist b = inl [inl SWITCHROOT_EXPERIMENT];
  sv_window : ∃ t0 t1, sb_not_before_epoch_sec b = JInt t0 ∧ sb_expires_at_epoch_sec b = JInt t1
                       ∧ (0 <= t0 < t1)%Z ∧ (t1 <= t0 + 28800)%Z;
  sv_budget : ∃ n, sb_max_actions b = JInt n ∧ (1 <= n <= 32)%Z
}.

Lemma validity_ok_iff a b :
  validity_ok a b = true ↔
  ∃ t0 t1, a = JInt t0 ∧ b = JInt t1 ∧ (0 <= t0 < t1)%Z ∧ (t1 <= t0 + 28800)%Z.
Proof.
  unfold validity_ok. split.
  - destruct a; try done. destruct b; try done. intros H. bsimp.
    unfold MAX_ATTENDED_SESSION_DURATION_SEC in *. do 2 eexists. repeat split; lia.
  - intros (t0 & t1 & -> & -> & H1 & H2). unfold MAX_ATTENDED_SESSION_DURATION_SEC.
    rewrite !andb_true_iff, !Z.leb_le, Z.ltb_lt. lia.
Qed.

Lemma budget_ok_iff v : budget_ok v = true ↔ ∃ n, v = JInt n ∧ (1 <= n <= 32)%Z.
Proof.
  unfold budget_ok, MAX_ATTENDED_SESSION_ACTIONS. split.
  - destruct v; try done. intros H. bsimp. eexists. split; [done|lia].
  - intros (n & -> & H). rewrite andb_true_iff, !Z.leb_le. lia.
Qed.

Lemma validate_session_iff b : validate_session b = Ok tt ↔ session_valid b.
Proof.
  unfold validate_session.
  rewrite !rbind_unit, !require_Ok, !require_forM_Ok, !is_exactly_inl, allowlist_ok_iff,
    validity_ok_iff, budget_ok_iff, Forall_identity, Forall_sha256.
  split; [by intros (? & ? & ? & ? & ? & ? & ?)|by intros []].
Qed.

(** [validate_attended_session_binding] accepts a binding exactly when it is
    an attended D1 session with well-formed identities and digests, the single
    switch-root action as its allowlist, a validity window of at most eight
    hours and a budget of one to 32 actions; it returns that binding. *)
Theorem session_binding_exact b r :
  validate_attended_session_binding b = Ok r ↔ b = inl r ∧ session_valid r.
Proof.
  destruct b as [b|j]; simpl; [|split; [done|intros [? _]; done]].
  rewrite rbind_unit, validate_session_iff. naive_solver.
Qed.

(** ** Handoffs *)

(** A handoff names what its predecessor releases and what its successor
    acquires, or says that nobody succeeds. *)
Record successor_valid (c : SuccessorContract) : Prop := {
  sc_names : Forall (λ v, ∃ s, v = JStr s ∧ identity_re s = true)
    ([sc_domain c; sc_predecessor_owner c; sc_predecessor_release_proof c; sc_successor_owner c]
     ++ sc_successor_acquisition_proofs c);
  sc_visible : sc_visibility_proof c = JNull ∨
    ∃ s, sc_visibility_proof c = JStr s ∧ identity_re s = true;
  sc_owner : if sc_no_successor_by_design c
    then sc_successor_owner c = JStr "none" ∧ sc_successor_acquisition_proofs c = []
    else sc_successor_owner c ≠ JStr "none" ∧ sc_successor_acquisition_proofs c ≠ []
}.

Lemma is_str_iff v s : is_str v s = true ↔ v = JStr s.
Proof. destruct v; simpl; rewrite ?String.eqb_eq; naive_solver. Qed.

Lemma visibility_ok_iff v :
  visibility_ok v = Ok true ↔ v = JNull ∨ ∃ s, v = JStr s ∧ identity_re s = true.
Proof.
  unfold visibility_ok. split.
  - destruct v; try done; [by left|]. intros [= H]. right. eauto.
  - intros [->|(s & -> & ->)]; done.
Qed.

Lemma is_nil_iff {A} (l : list A) : is_nil l = true ↔ l = [].
Proof. destruct l; naive_solver. Qed.

Lemma forallb_Forall_true {A} (f : A → bool) l : forallb f l = true ↔ Forall (λ x, f x = true) l.
Proof. rewrite forallb_forall, Forall_forall. by setoid_rewrite list_elem_of_In. Qed.

Lemma validate_successor_iff c : validate_successor c = Ok tt ↔ successor_valid c.
Proof.
  unfold validate_successor.
  rewrite rbind_unit, rbind_Ok, require_Ok, forallb_Forall_true, Forall_identity.
  setoid_rewrite rbind_unit. setoid_rewrite require_Ok. split.
  - intros (Hn & [] & Hv & Hb & Ho); [|done]. split; [done|by apply visibility_ok_iff|].
    destruct (sc_no_successor_by_design c); apply require_Ok in Ho; bsimp;
      rewrite <- is_str_iff, <- is_nil_iff; split; congruence.
  - intros [Hn Hv Ho]. split; [done|]. exists true. split; [by apply visibility_ok_iff|].
    split; [done|]. destruct (sc_no_successor_by_design c); apply require_Ok.
    + by destruct Ho as [-> ->].
    + rewrite <- is_str_iff, <- is_nil_iff in Ho. destruct Ho as [H1 H2].
      rewrite !andb_true_iff, !negb_true_iff. split_and!.
      * by destruct is_str.
      * inversion Hn as [|? ? _ Hn1]; subst. inversion Hn1 as [|? ? _ Hn2]; subst.
        inversion Hn2 as [|? ? (s & -> & Hs) _]; subst. by destruct s.
      * by destruct is_nil.
Qed.

Lemma py_eqb_str s v : py_eqb (JStr s) v = true ↔ v = JStr s.
Proof. destruct v; simpl; rewrite ?String.eqb_eq; naive_solver. Qed.

Lemma successor_domain_str c : successor_valid c → ∃ s, sc_domain c = JStr s.
Proof. intros [Hn _ _]. inversion Hn as [|? ? (s & Hs & _) _]; subst. eauto. Qed.

Lemma successor_step_Ok ds c ds' :
  successor_step ds c = Ok ds' ↔
  successor_valid c ∧ negb (existsb (py_eqb (sc_domain c)) ds) = true ∧ ds' = sc_domain c :: ds.
Proof.
  unfold successor_step. rewrite !rbind_unit, require_Ok, validate_successor_iff. naive_solver.
Qed.

(** The domains seen so far, newest first *)
Lemma successor_domains cs ds :
  foldM successor_step [] cs = Ok ds ↔
  Forall successor_valid cs ∧ NoDup (sc_domain <$> cs) ∧ ds = reverse (sc_domain <$> cs).
Proof.
  revert ds. induction cs as [|c cs IH] using rev_ind; intros ds.
  { simpl. split; [intros [= <-]|intros (_ & _ & ->)]; by repeat constructor. }
  rewrite foldM_snoc, rbind_Ok, fmap_app, Forall_app, Forall_singleton, NoDup_app, reverse_app.
  setoid_rewrite successor_step_Ok. setoid_rewrite IH. simpl.
  assert (Hin : successor_valid c →
    negb (existsb (py_eqb (sc_domain c)) (reverse (sc_domain <$> cs))) = true ↔
    sc_domain c ∉ sc_domain <$> cs).
  { intros (s & Hs)%successor_domain_str. rewrite Hs, negb_true_iff, <- not_true_iff_false.
    rewrite existsb_exists. setoid_rewrite py_eqb_str. setoid_rewrite <- list_elem_of_In.
    setoid_rewrite elem_of_reverse. naive_solver. }
  split.
  - intros (d & (Hv & Hnd & ->) & Hc & Hx & ->). split_and!; try done.
    + intros x Hx1 ->%list_elem_of_singleton. by apply Hin in Hx.
    + apply NoDup_singleton.
  - intros ((Hv & Hc) & (Hnd & Hd & _) & ->). eexists. split_and!; eauto.
    apply Hin; [done|]. intros H. by apply (Hd _ H), list_elem_of_singleton.
Qed.

(** A handoff plan is accepted exactly when it names at least one domain, no
    domain twice, and in every domain either a successor other than [none]
    with the proofs it acquires the resource by, or the explicit decision that
    nobody succeeds; it is returned unchanged. *)
Theorem handoff_plan_exact cs r :
  validate_successor_contracts cs = Ok r ↔
  r = cs ∧ cs ≠ [] ∧ NoDup (sc_domain <$> cs) ∧ Forall successor_valid cs.
Proof.
  unfold validate_successor_contracts.
  rewrite rbind_unit, require_Ok, rbind_Ok, negb_true_iff, <- not_true_iff_false, is_nil_iff.
  setoid_rewrite successor_domains. naive_solver.
Qed.

(** The gate lets a fresh preparation start exactly when every earlier outcome
    is a failure signature, the last one is not ambiguous and the last two
    differ: the same failure twice in a row always stops. *)
Theorem gate_exact prev :
  repeated_failure_gate prev = Ok ALLOW_FRESH_PREPARATION ↔
  ∃ sigs, prev = map inl sigs ∧
    (∀ l s, sigs = (l ++ [s])%list → endswith "_AMBIGUOUS" (fs_class s) = false) ∧
    (∀ l s, sigs ≠ (l ++ [s; s])%list).
Proof.
  unfold repeated_failure_gate. rewrite rbind_unit, require_Ok, forall_members. split.
  - intros [Hp Hg]. exists (members prev). split; [done|]. clear Hp.
    split; [intros l s Hl|intros l s Hl]; rewrite Hl in Hg.
    + rewrite reverse_app in Hg. simpl in Hg. by destruct endswith.
    + rewrite reverse_app in Hg. simpl in Hg. destruct endswith; [done|].
      by rewrite bool_decide_true in Hg.
  - intros (sigs & -> & Ha & Hr). rewrite members_map. split; [done|].
    destruct sigs as [|s1 sigs _] using rev_ind; [done|].
    rewrite reverse_app. simpl. rewrite (Ha _ _ eq_refl).
    destruct sigs as [|s2 sigs _] using rev_ind; [done|].
    rewrite reverse_app. simpl. rewrite bool_decide_false; [done|].
    intros ->. by apply (Hr sigs s2); rewrite <- app_assoc.
Qed.
