(* ===== verification/A90Frames.v ===== *)
(** * Observations of a running A90: lines, A90P1 frames, markers, facts

    [a90_observation_pipeline.py].  Raw bytes are decoded to lines with their
    spans, the lines to frames of one command each, and the evidence of a
    display run to facts and one atomic decision.  Every parser refuses what is
    not exact; the parameters are the ones the callers pass. *)

From stdpp Require Import base list strings.
From Stdlib Require Import ZArith Lia Ascii.
From S2P Require Import Prelude PyStr Json Digest A90Contract PyText.
Open Scope string_scope.

Inductive LineEnding := LF | CRLF | EOF.
Inductive FactState := FPROVEN | FREFUTED | FUNKNOWN.
Inductive AtomicDecision := PASS | NO_PROOF.
Inductive FrameTrust := STRUCTURAL_ONLY.
Inductive TransitionReason := ONE_WAY_EXEC_DISCONTINUITY.

#[export] Instance LineEnding_eq_dec : EqDecision LineEnding.
Proof. solve_decision. Defined.
#[export] Instance FactState_eq_dec : EqDecision FactState.
Proof. solve_decision. Defined.

Record DecodedLine := {
  dl_text : string;
  dl_start : nat;
  dl_content_end : nat;
  dl_end : nat;
  dl_ending : LineEnding
}.

Record DecodedText := { dt_length : nat; dt_sha256 : string; dt_lines : list DecodedLine }.

Definition canonical_text (d : DecodedText) : string :=
  String.concat "" (map (λ l, dl_text l ++ nl) (dt_lines d)).

Abbreviation fields := (list (string * string)).

Record A90P1Frame := {
  fr_begin : fields;
  fr_end : fields;
  fr_body : list DecodedLine;
  fr_byte_start : nat;
  fr_byte_end : nat;
  fr_trust : FrameTrust
}.

Record A90P1Transition := {
  tr_begin : fields;
  tr_body : list DecodedLine;
  tr_byte_start : nat;
  tr_byte_end : nat;
  tr_reason : TransitionReason;
  tr_trust : FrameTrust
}.

Record A90P1Transcript := {
  ts_decoded : DecodedText;
  ts_frames : list A90P1Frame;
  ts_transitions : list A90P1Transition;
  ts_outside : list DecodedLine;
  ts_chunk_sizes : list nat
}.

Record ObservationFact := {
  of_name : string;
  of_state : FactState;
  of_evidence_sha256 : option string;
  of_error : option string
}.

Record ObservationDecision := {
  od_decision : AtomicDecision;
  od_signature : option FailureSignature
}.

Definition fail {A} (msg : string) : result A := Err (ObservationContractError msg).

(** ** Lines *)

(** A [str] (whose encoding may hold lone surrogates), a [bytes] or neither *)
Inductive input := InStr (s : string) | InBytes (s : string) | InOther.

Definition as_bytes (v : input) : result string :=
  match v with
  | InBytes s => Ok s
  | InStr s => if utf8_ok s then Ok s else fail "is not valid UTF-8 text"
  | InOther => fail "must be str or bytes"
  end.

Definition cr : ascii := "013"%char.

Definition mk_line (text : string) (start content_end byte_end : nat) (e : LineEnding) : DecodedLine :=
  {| dl_text := text; dl_start := start; dl_content_end := content_end;
     dl_end := byte_end; dl_ending := e |}.

(** The loop over the bytes: [s] is what is left of them, [cur] the bytes since
    [start], [index] the position of [s]. *)
Fixpoint scan_lines (allow_unterminated : bool) (s cur : string) (start index : nat)
    : result (list DecodedLine) :=
  match s with
  | "" =>
      if (start <? index)%nat then
        do* require allow_unterminated (ObservationContractError "is not newline terminated") in
        let* text := decode_utf8 cur in
        Ok [mk_line text start index index EOF]
      else Ok []
  | String c s' =>
      if (c =? newline)%char then
        let* text := decode_utf8 cur in
        let* rest := scan_lines allow_unterminated s' "" (index + 1) (index + 1) in
        Ok (mk_line text start index (index + 1) LF :: rest)
      else if (c =? cr)%char then
        match s' with
        | String d s'' =>
            if (d =? newline)%char then
              let* text := decode_utf8 cur in
              let* rest := scan_lines allow_unterminated s'' "" (index + 2) (index + 2) in
              Ok (mk_line text start index (index + 2) CRLF :: rest)
            else fail "contains bare CR"
        | "" => fail "contains bare CR"
        end
      else scan_lines allow_unterminated s' (cur ++ String c "") start (index + 1)
  end.

Section WithDigest.
Context `{Digest}.

Definition decode_lines (value : input) (allow_unterminated : bool) : result DecodedText :=
  let* raw := as_bytes value in
  do* require (negb (contains (String nul "") raw)) (ObservationContractError "contains NUL") in
  do* require (utf8_ok raw) (ObservationContractError "is not valid UTF-8") in
  let* lines := scan_lines allow_unterminated raw "" 0 0 in
  Ok {| dt_length := String.length raw; dt_sha256 := hexdigest raw; dt_lines := lines |}.
End WithDigest.

(** ** Fields *)

Definition is_command_char (c : ascii) : bool :=
  is_alnum c || (c =? "_")%char || (c =? ".")%char || (c =? "+")%char || (c =? "-")%char.

(** [COMMAND_NAME_RE], [FLAGS_RE], [STATUS_RE], [MODE_RE] and [DEVNO_RE] with [fullmatch] *)
Definition command_name_re (s : string) : bool :=
  negb (s =? "") && all_chars is_command_char s.
Definition flags_re (s : string) : bool :=
  match s with
  | String "0" (String "x" h) =>
      match h with
      | "" => false
      | String c h' => (h =? "0") || (is_nonzero_digit c || char_between "a" "f" c) && all_chars is_hex h'
      end
  | _ => false
  end.
Definition status_re (s : string) : bool :=
  match s with
  | "" => false
  | String c s' => is_lower c && all_chars (λ d, is_lower d || is_digit d || (d =? "-")%char) s'
  end.
Definition positive_re (s : string) : bool :=
  match s with "" => false | String c s' => is_nonzero_digit c && all_chars is_digit s' end.
Definition mode_re (s : string) : bool :=
  match split_once "x" s with
  | Some (w, r) =>
      match split_once "@" r with
      | Some (h, f) => positive_re w && positive_re h && positive_re f
      | None => false
      end
  | None => false
  end.
Definition devno_re (s : string) : bool :=
  match split_once ":" s with
  | Some (a, b) => positive_re a && negb (b =? "") && all_chars is_digit b
  | None => false
  end.

Definition CANONICAL_STATUSES : list string := ["ok"; "error"; "unknown"; "busy"].
Definition BEGIN_PREFIX : string := "A90P1 BEGIN ".
Definition END_PREFIX : string := "A90P1 END ".
Definition BEGIN_KEY_ORDER : list string := ["seq"; "cmd"; "argc"; "flags"].
Definition END_KEY_ORDER : list string :=
  ["seq"; "cmd"; "rc"; "errno"; "duration_ms"; "flags"; "status"].

(** [fields[k]] where the key set was checked *)
Fixpoint fget (k : string) (f : fields) : string :=
  match f with
  | [] => ""
  | (k', v) :: f' => if k =? k' then v else fget k f'
  end.

Definition field_step (f : fields) (token : string) : result fields :=
  do* require (count_char equals token =? 1)%nat
        (ObservationContractError "contains a malformed field") in
  match split_once equals token with
  | Some (k, v) =>
      do* require (negb (k =? "") && negb (v =? "") && negb (elem_str k f.*1))
            (ObservationContractError "fields must be unique and nonempty") in
      Ok (f ++ [(k, v)])%list
  | None => fail "contains a malformed field"
  end.

(** [set(a) == set(b)] *)
Definition same_set (a b : list string) : bool :=
  forallb (λ k, elem_str k b) a && forallb (λ k, elem_str k a) b.

Definition parse_fields (payload : string) (expected : list string) : result fields :=
  let tokens := split_on space payload in
  do* require (forallb (λ t, negb (t =? "")) tokens)
        (ObservationContractError "field spacing is not exact") in
  let* f := foldM field_step [] tokens in
  do* require (same_set f.*1 expected) (ObservationContractError "field set is not exact") in
  do* require (bool_decide (f.*1 = expected))
        (ObservationContractError "field order is not exact") in
  Ok f.

(** [re.fullmatch(v) is None or int(v) <= 0], evaluated left to right *)
Definition nonpositive (v : string) : result bool :=
  if unsigned_decimal_re v then let* n := py_int v in Ok (n <=? 0)%Z else Ok true.

(** [a or b] for a [b] that may raise *)
Definition or_else (a : result bool) (b : result bool) : result bool :=
  let* x := a in if x then Ok true else b.
Definition miss (b : bool) : result bool := Ok (negb b).

Definition validate_begin (f : fields) : result unit :=
  let* bad :=
    or_else (nonpositive (fget "seq" f))
    (or_else (miss (command_name_re (fget "cmd" f)))
    (or_else (nonpositive (fget "argc" f))
    (miss (flags_re (fget "flags" f))))) in
  require (negb bad) (ObservationContractError "A90P1 BEGIN field value is not exact").

Definition rc_incoherent (rc errno : Z) (status : string) : bool :=
  ((0 <=? rc)%Z && negb (errno =? 0)%Z)
  || ((0 <? rc)%Z && negb (status =? "error"))
  || ((rc <? 0)%Z && negb (errno =? - rc)%Z)
  || (elem_str status ["unknown"; "busy"] && (0 <=? rc)%Z)
  || ((status =? "unknown") && negb ((rc =? -2)%Z && (errno =? 2)%Z))
  || ((status =? "busy") && negb ((rc =? -16)%Z && (errno =? 16)%Z)).

Definition validate_end (f : fields) : result unit :=
  let* bad :=
    or_else (nonpositive (fget "seq" f))
    (miss (command_name_re (fget "cmd" f) && signed_decimal_re (fget "rc" f)
           && unsigned_decimal_re (fget "errno" f) && unsigned_decimal_re (fget "duration_ms" f)
           && flags_re (fget "flags" f) && status_re (fget "status" f)
           && elem_str (fget "status" f) CANONICAL_STATUSES)) in
  do* require (negb bad) (ObservationContractError "A90P1 END field value is not exact") in
  let* rc := py_int (fget "rc" f) in
  let* errno := py_int (fget "errno" f) in
  let status := fget "status" f in
  do* require (Bool.eqb (rc =? 0)%Z (status =? "ok"))
        (ObservationContractError "A90P1 END rc/status coherence failed") in
  require (negb (rc_incoherent rc errno status))
    (ObservationContractError "A90P1 END rc/errno coherence failed").

(** ** Frames *)

Section Frames.
Variable expected_command : option string.
Variable one_way_commands : list string.

(** [expected_command is None or cmd == expected_command] *)
Definition command_expected (f : fields) : bool :=
  match expected_command with Some c => fget "cmd" f =? c | None => true end.

Definition mk_transition (bf : fields) (body : list DecodedLine) (start stop : nat) : A90P1Transition :=
  {| tr_begin := bf; tr_body := body; tr_byte_start := start; tr_byte_end := stop;
     tr_reason := ONE_WAY_EXEC_DISCONTINUITY; tr_trust := STRUCTURAL_ONLY |}.

(** A frame without [END] is a transition of a one-way command. *)
Definition one_way (bl : DecodedLine) (bf : fields) (body : list DecodedLine) (stop : nat)
    (missing : string) : result A90P1Transition :=
  do* require (elem_str (fget "cmd" bf) one_way_commands) (ObservationContractError missing) in
  do* require (command_expected bf)
        (ObservationContractError "A90P1 command does not match the issued request") in
  Ok (mk_transition bf body (dl_start bl) stop).

(** The variables of the loop: [st_open] holds [begin_line], [begin_fields] and [body]. *)
Record scan_state := {
  st_frames : list A90P1Frame;
  st_transitions : list A90P1Transition;
  st_outside : list DecodedLine;
  st_open : option (DecodedLine * fields * list DecodedLine)
}.

Definition is_begin (l : DecodedLine) : bool := startswith BEGIN_PREFIX (dl_text l).
Definition is_end (l : DecodedLine) : bool := startswith END_PREFIX (dl_text l).

(** [text[len(prefix):]] *)
Definition after (prefix text : string) : string :=
  String.substring (String.length prefix) (String.length text - String.length prefix) text.

Definition terminated (l : DecodedLine) : bool := negb (bool_decide (dl_ending l = EOF)).

Definition read_begin (l : DecodedLine) : result fields :=
  do* require (terminated l) (ObservationContractError "A90P1 BEGIN is not newline terminated") in
  let* f := parse_fields (after BEGIN_PREFIX (dl_text l)) BEGIN_KEY_ORDER in
  do* validate_begin f in
  Ok f.

Definition read_end (bf : fields) (l : DecodedLine) : result fields :=
  do* require (terminated l) (ObservationContractError "A90P1 END is not newline terminated") in
  let* ef := parse_fields (after END_PREFIX (dl_text l)) END_KEY_ORDER in
  do* validate_end ef in
  do* forM (λ k, require (fget k bf =? fget k ef) (ObservationContractError "A90P1 BEGIN/END mismatch"))
        ["seq"; "cmd"; "flags"] in
  do* require (command_expected ef)
        (ObservationContractError "A90P1 command does not match the issued request") in
  Ok ef.

Definition begin_step (s : scan_state) (l : DecodedLine) : result scan_state :=
  let* next := read_begin l in
  let* ts :=
    match st_open s with
    | Some (bl, bf, body) =>
        let* t := one_way bl bf body (dl_start l) "A90P1 nested BEGIN is ambiguous" in
        Ok (st_transitions s ++ [t])%list
    | None => Ok (st_transitions s)
    end in
  Ok {| st_frames := st_frames s; st_transitions := ts; st_outside := st_outside s;
        st_open := Some (l, next, []) |}.

Definition mk_frame (bl : DecodedLine) (bf ef : fields) (body : list DecodedLine)
    (el : DecodedLine) : A90P1Frame :=
  {| fr_begin := bf; fr_end := ef; fr_body := body; fr_byte_start := dl_start bl;
     fr_byte_end := dl_end el; fr_trust := STRUCTURAL_ONLY |}.

Definition end_step (s : scan_state) (l : DecodedLine) : result scan_state :=
  match st_open s with
  | None => fail "A90P1 END lacks BEGIN"
  | Some (bl, bf, body) =>
      let* ef := read_end bf l in
      Ok {| st_frames := st_frames s ++ [mk_frame bl bf ef body l];
            st_transitions := st_transitions s; st_outside := st_outside s;
            st_open := None |}
  end.

Definition plain_step (s : scan_state) (l : DecodedLine) : scan_state :=
  match st_open s with
  | None =>
      {| st_frames := st_frames s; st_transitions := st_transitions s;
         st_outside := st_outside s ++ [l]; st_open := None |}
  | Some (bl, bf, body) =>
      {| st_frames := st_frames s; st_transitions := st_transitions s;
         st_outside := st_outside s; st_open := Some (bl, bf, body ++ [l])%list |}
  end.

Definition line_step (s : scan_state) (l : DecodedLine) : result scan_state :=
  if is_begin l then begin_step s l
  else if is_end l then end_step s l
  else Ok (plain_step s l).

Definition scan_state0 : scan_state :=
  {| st_frames := []; st_transitions := []; st_outside := []; st_open := None |}.

(** What is still open at the end of the transcript *)
Definition close_state (len : nat) (s : scan_state) : result scan_state :=
  match st_open s with
  | None => Ok s
  | Some (bl, bf, body) =>
      let* t := one_way bl bf body len "A90P1 BEGIN lacks END" in
      Ok {| st_frames := st_frames s; st_transitions := st_transitions s ++ [t];
            st_outside := st_outside s; st_open := None |}
  end.

Definition scan_frames (d : DecodedText) : result scan_state :=
  let* s := foldM line_step scan_state0 (dt_lines d) in
  close_state (dt_length d) s.

Context `{Digest}.

Definition parse_a90p1_chunks (chunks : list string) (require_frames : bool)
    : result A90P1Transcript :=
  do* require (forallb command_name_re one_way_commands)
        (ObservationContractError "A90P1 one-way command set is invalid") in
  let* decoded := decode_lines (InBytes (String.concat "" chunks)) true in
  let* s := scan_frames decoded in
  do* require (negb (require_frames && is_nil (st_frames s)))
        (ObservationContractError "A90P1 transcript has no complete frame") in
  Ok {| ts_decoded := decoded; ts_frames := st_frames s; ts_transitions := st_transitions s;
        ts_outside := st_outside s; ts_chunk_sizes := map String.length chunks |}.

Definition parse_a90p1_transcript (value : input) (require_frames : bool)
    : result A90P1Transcript :=
  let* raw := as_bytes value in
  parse_a90p1_chunks [raw] require_frames.
End Frames.

(** ** Markers *)

Section Markers.
Context `{Digest}.

Definition marker_step (f : fields) (l : DecodedLine) : result fields :=
  do* require (negb (dl_text l =? "") && (count_char equals (dl_text l) =? 1)%nat)
        (ObservationContractError "marker contains an invalid line") in
  match split_once equals (dl_text l) with
  | Some (k, v) =>
      do* require (negb (k =? "") && negb (v =? "") && negb (elem_str k f.*1))
            (ObservationContractError "marker keys must be unique and nonempty") in
      Ok (f ++ [(k, v)])%list
  | None => fail "marker contains an invalid line"
  end.

Definition parse_exact_marker (value : input) : result fields :=
  let* d := decode_lines value false in
  foldM marker_step [] (dt_lines d).

(** [a == b] on dictionaries of strings *)
Definition dict_eqb (a b : fields) : bool :=
  (length a =? length b)%nat &&
  forallb (λ kv, elem_str kv.1 b.*1 && (fget kv.1 b =? kv.2)) a.

(** [NATIVE_RELEASE_SUCCESS_RE.fullmatch]: the digits of [fd_before] are between
    two fixed texts. *)
Definition RELEASE_HEAD : string := "A90D3DISPLAY native_kms_release rc=0 fd_before=".
Definition RELEASE_TAIL : string :=
  "disable_plane_rc=0 disable_crtc_rc=0 munmap_failures=0 rmfb_failures=0 destroy_dumb_failures=0 drop_master_rc=0 close_rc=0 release_complete=1".
Definition release_success_re (s : string) : bool :=
  startswith RELEASE_HEAD s &&
  match split_once space (after RELEASE_HEAD s) with
  | Some (n, rest) => negb (n =? "") && all_chars is_digit n && (rest =? RELEASE_TAIL)
  | None => false
  end.

Definition NATIVE_RELEASE_EXACT_LINES : list string :=
  ["A90D3DISPLAY native_pid1_drm_fd_count=0 observed=0";
   "A90D3DISPLAY other_drm_fd_count=0 observed=0";
   "A90D3DISPLAY native_kms_initialized=0 observed=0";
   "A90D3DISPLAY display_services_restart_blocked=1 corridor=synchronous-handoff"].
Definition NATIVE_RELEASE_MARKER : fields :=
  [("schema", "a90-native-display-release-v1"); ("native_pid1_drm_fd_count", "0");
   ("other_drm_fd_count", "0"); ("native_kms_initialized", "0");
   ("display_services_restart_blocked", "1"); ("release_complete", "1")].

Definition count_lines (p : string → bool) (lines : list string) : nat :=
  length (List.filter p lines).

Definition validate_native_release_evidence (log_text marker_text : input) : result unit :=
  let* d := decode_lines log_text true in
  let lines := map dl_text (dt_lines d) in
  do* require (count_lines release_success_re lines =? 1)%nat
        (ObservationContractError "native KMS release success line is not exact") in
  do* forM (λ r, require (count_lines (String.eqb r) lines =? 1)%nat
                   (ObservationContractError "native release evidence is not exact"))
        NATIVE_RELEASE_EXACT_LINES in
  let* marker := parse_exact_marker marker_text in
  require (dict_eqb marker NATIVE_RELEASE_MARKER)
    (ObservationContractError "native release marker is not exact").

Definition positive_int (v : string) : result Z :=
  let* bad := nonpositive v in
  do* require (negb bad) (ObservationContractError "must be a positive integer") in
  py_int v.

Definition READY_KEYS : list string :=
  ["schema"; "pid1_exe"; "presenter_pid"; "presenter_uid"; "presenter_gid"; "presenter_cap_eff";
   "no_new_privs"; "controlling_vt"; "drm_node"; "drm_node_major_minor"; "drm_master";
   "connector_id"; "crtc_id"; "mode"; "setcrtc_rc"; "native_pid1_drm_fd_count";
   "other_native_drm_fd_count"; "presenter_self_drm_fd_count"; "other_process_drm_fd_count";
   "native_init_process_count"].

Definition ready_fixed (display_uid display_gid : Z) : fields :=
  [("schema", "a90-debian-display-v1"); ("pid1_exe", "/usr/sbin/init");
   ("presenter_uid", str_of_Z display_uid); ("presenter_gid", str_of_Z display_gid);
   ("presenter_cap_eff", "0000000000000000"); ("no_new_privs", "1"); ("controlling_vt", "none");
   ("drm_node", "/dev/dri/card0"); ("drm_master", "1"); ("setcrtc_rc", "0");
   ("native_pid1_drm_fd_count", "0"); ("other_native_drm_fd_count", "0");
   ("presenter_self_drm_fd_count", "1"); ("other_process_drm_fd_count", "0");
   ("native_init_process_count", "0")].

Definition validate_debian_ready_marker (marker_text : input) (display_uid display_gid : Z)
    : result fields :=
  let* marker := parse_exact_marker marker_text in
  do* require (same_set marker.*1 READY_KEYS)
        (ObservationContractError "Debian display-ready marker key set is not exact") in
  do* forM (λ kv, require (fget kv.1 marker =? kv.2)
                    (ObservationContractError "Debian display-ready value is not exact"))
        (ready_fixed display_uid display_gid) in
  let* _pid := positive_int (fget "presenter_pid" marker) in
  let* _connector := positive_int (fget "connector_id" marker) in
  let* _crtc := positive_int (fget "crtc_id" marker) in
  do* require (devno_re (fget "drm_node_major_minor" marker))
        (ObservationContractError "DRM major/minor is not exact") in
  do* require (mode_re (fget "mode" marker))
        (ObservationContractError "display mode is not exact") in
  Ok marker.

Definition validate_bounded_failure_marker (marker_text : input) (max_attempts : Z)
    (ready_absent : bool) : result fields :=
  let* marker := parse_exact_marker marker_text in
  do* require (same_set marker.*1 ["schema"; "attempt"; "rc"])
        (ObservationContractError "display failure marker key set is not exact") in
  let* bad :=
    or_else (miss ((fget "schema" marker =? "a90-debian-display-v1-failure")
                   && (fget "attempt" marker =? str_of_Z max_attempts)
                   && unsigned_decimal_re (fget "rc" marker)))
    (or_else (let* n := py_int (fget "rc" marker) in Ok (n =? 0)%Z)
    (miss ready_absent)) in
  do* require (negb bad)
        (ObservationContractError "bounded display failure evidence is not terminal") in
  Ok marker.

(** ** Facts and the decision *)

Definition fact (name : string) (state : FactState) (evidence : option input)
    (error : option string) : result ObservationFact :=
  let* digest :=
    match evidence with
    | None => Ok None
    | Some e => let* b := as_bytes e in Ok (Some (hexdigest b))
    end in
  Ok {| of_name := name; of_state := state; of_evidence_sha256 := digest; of_error := error |}.

(** [True] proves, [False] refutes, [None] leaves unknown. *)
Definition state_of (v : option bool) : FactState :=
  match v with Some true => FPROVEN | Some false => FREFUTED | None => FUNKNOWN end.

Definition pid1_state (pid1_comm_init proc1_exe_init : option bool) : FactState :=
  match pid1_comm_init, proc1_exe_init with
  | Some true, Some true => FPROVEN
  | Some false, _ | _, Some false => FREFUTED
  | _, _ => FUNKNOWN
  end.

Definition display_state (display_status : string) : FactState :=
  if display_status =? "ready" then FPROVEN
  else if display_status =? "bounded-failure" then FREFUTED
  else FUNKNOWN.

Abbreviation factmap := (list (string * ObservationFact)).

Definition release_fact (handoff_log native_release_marker : input) : result ObservationFact :=
  match validate_native_release_evidence handoff_log native_release_marker with
  | Ok _ => fact "native_release" FPROVEN (Some handoff_log) None
  | Err (ObservationContractError msg) =>
      fact "native_release" FUNKNOWN (Some handoff_log) (Some msg)
  | Err e => Err e
  end.

Definition classify_phase2_display_facts (handoff_log native_release_marker : input)
    (pid1_comm_init proc1_exe_init dropbear_started : option bool) (display_status : string)
    : result factmap :=
  let* release := release_fact handoff_log native_release_marker in
  let* pid1 := fact "debian_pid1" (pid1_state pid1_comm_init proc1_exe_init) None None in
  let* dropbear := fact "dropbear" (state_of dropbear_started) None None in
  let* display := fact "display_acquisition" (display_state display_status) None None in
  Ok [("native_release", release); ("debian_pid1", pid1); ("dropbear", dropbear);
      ("display_acquisition", display)].

Definition classify_phase2_display_run (handoff_log native_release_marker : input)
    (pid1_comm_init proc1_exe_init dropbear_started : option bool) (display_status : string)
    (candidate_return_present : option bool) : result factmap :=
  let* facts := classify_phase2_display_facts handoff_log native_release_marker
                  pid1_comm_init proc1_exe_init dropbear_started display_status in
  let* bounded := fact "bounded_return" (state_of candidate_return_present) None None in
  Ok (facts ++ [("bounded_return", bounded)])%list.
End Markers.

Definition PHASE2_REQUIREMENTS : list (string * string * string) :=
  [("native_release", "HANDOFF_RELEASE", "CANDIDATE_EFFECT_STARTED");
   ("debian_pid1", "DEBIAN_PID1", "NATIVE_RELEASE_PROVEN");
   ("dropbear", "DEBIAN_OBSERVATION", "DEBIAN_PID1_PROVEN");
   ("display_acquisition", "DISPLAY_ACQUISITION", "DROPBEAR_PROVEN");
   ("bounded_return", "RETURN_OBSERVATION", "DISPLAY_ACQUISITION_PROVEN")].

(** [s.upper()] of an ASCII text *)
Definition upper_char (c : ascii) : ascii :=
  if is_lower c then ascii_of_nat (nat_of_ascii c - 32) else c.
Fixpoint upper (s : string) : string :=
  match s with "" => "" | String c s' => String (upper_char c) (upper s') end.

Definition state_value (s : FactState) : string :=
  match s with FPROVEN => "PROVEN" | FREFUTED => "REFUTED" | FUNKNOWN => "UNKNOWN" end.

Fixpoint fact_get (k : string) (f : list (string * ObservationFact)) : option ObservationFact :=
  match f with
  | [] => None
  | (k', v) :: f' => if k =? k' then Some v else fact_get k f'
  end.

Section Decide.
Variable facts : list (string * ObservationFact).
Variable workflow : string.
Variable effect_started : bool.

Fixpoint decide_from (reqs : list (string * string * string)) : result ObservationDecision :=
  match reqs with
  | [] => Ok {| od_decision := PASS; od_signature := None |}
  | (name, phase, prior) :: reqs' =>
      match fact_get name facts with
      | None => Err (PyKeyError name)
      | Some f =>
          do* require (of_name f =? name)
                (ObservationContractError "phase2 display fact identity changed") in
          if bool_decide (of_state f = FPROVEN) then decide_from reqs'
          else
            let* s := failure_signature (JStr workflow) (JStr phase)
                        (JStr (upper name ++ "_" ++ state_value (of_state f)))
                        (JBool effect_started)
                        (JStr (if effect_started then prior else "NO_EFFECT_STARTED")) in
            Ok {| od_decision := NO_PROOF; od_signature := Some s |}
      end
  end.

Definition decide_phase2_display_run : result ObservationDecision :=
  do* require (same_set facts.*1 (map (λ r, r.1.1) PHASE2_REQUIREMENTS))
        (ObservationContractError "phase2 display fact set is not exact") in
  decide_from PHASE2_REQUIREMENTS.
End Decide.

Definition fact_to_dict (f : ObservationFact) : dict :=
  [("name", JStr (of_name f)); ("state", JStr (state_value (of_state f)));
   ("evidence_sha256", match of_evidence_sha256 f with Some h => JStr h | None => JNull end);
   ("error", match of_error f with Some e => JStr e | None => JNull end)].

(** [{name: fact.to_dict() for name, fact in sorted(facts.items())}], the names distinct *)
Definition facts_to_dict (facts : list (string * ObservationFact)) : dict :=
  ksort (map (λ kv, (kv.1, JObj (fact_to_dict kv.2))) facts).
