(* ===== verification/A90FramesTheory.v ===== *)
(** * Lines and frames: the parsers accept exactly a grammar

    [tiles] is the grammar of decoded lines, [segs] the grammar of a transcript
    over lines; the theorems are in [A90FramesProps.v]. *)

From stdpp Require Import base list strings.
From Stdlib Require Import ZArith NArith Lia Ascii.
From S2P Require Import Prelude PyStr Json Digest A90Contract PyText A90Frames.
Open Scope string_scope.

(** ** Lines *)

Definition ending_bytes (e : LineEnding) : string :=
  match e with LF => nl | CRLF => String cr nl | EOF => "" end.
Definition is_text_char (c : ascii) : bool := negb (c =? newline)%char && negb (c =? cr)%char.
Definition clean (t : string) : bool := all_chars is_text_char t.

(** [tiles allow n ls raw]: the lines [ls] follow each other without gap from
    byte [n] on and spell [raw]; their texts hold no line ending, and only the
    last may lack one, where that is allowed and it is not empty. *)
Inductive tiles (allow : bool) : nat → list DecodedLine → string → Prop :=
  | tiles_nil n : tiles allow n [] ""
  | tiles_eof n t :
      allow = true → t ≠ "" → clean t = true →
      tiles allow n [mk_line t n (n + String.length t) (n + String.length t) EOF] t
  | tiles_line n t e ls raw :
      e ≠ EOF → clean t = true →
      tiles allow (n + String.length t + String.length (ending_bytes e)) ls raw →
      tiles allow n
        (mk_line t n (n + String.length t)
           (n + String.length t + String.length (ending_bytes e)) e :: ls)
        (t ++ ending_bytes e ++ raw).

Lemma clean_app a b : clean (a ++ b) = clean a && clean b.
Proof. apply all_chars_app. Qed.

Lemma app_char_assoc a c s : (a ++ String c "") ++ s = a ++ String c s.
Proof. by rewrite <- str_app_assoc. Qed.

Lemma length_snoc a c : String.length (a ++ String c "") = (String.length a + 1)%nat.
Proof. by rewrite str_length_app. Qed.

(** Scanning over text without line endings only moves it to [cur]. *)
Lemma scan_clean allow t s cur start index :
  clean t = true →
  scan_lines allow (t ++ s) cur start index
  = scan_lines allow s (cur ++ t) start (index + String.length t).
Proof.
  revert cur index. induction t as [|c t IH]; intros cur index; simpl.
  - intros _. by rewrite str_app_nil, Nat.add_0_r.
  - intros [Hc Ht]%andb_true_iff. unfold is_text_char in Hc. bsimp.
    rewrite H, H0, IH by done. rewrite app_char_assoc. f_equal. lia.
Qed.

Lemma utf8_newline a b : utf8_ok (a ++ String newline b) = utf8_ok a && utf8_ok b.
Proof. by apply utf8_ok_ascii. Qed.

Lemma utf8_crlf a b :
  utf8_ok (a ++ String cr (String newline b)) = utf8_ok a && utf8_ok b.
Proof. by rewrite utf8_ok_ascii. Qed.

Lemma decode_utf8_ok s : utf8_ok s = true → decode_utf8 s = Ok s.
Proof. unfold decode_utf8. by intros ->. Qed.

(** Whatever tiles the bytes is what the loop returns: no slice of valid UTF-8
    between line endings fails to decode. *)
Lemma scan_of_tiles allow n ls raw :
  tiles allow n ls raw → utf8_ok raw = true → scan_lines allow raw "" n n = Ok ls.
Proof.
  induction 1 as [n|n t Ha Hne Hc|n t e ls raw He Hc _ IH]; intros Hu.
  - simpl. by rewrite Nat.ltb_irrefl.
  - rewrite <- (str_app_nil t) at 1. rewrite scan_clean by done. simpl.
    assert (0 < String.length t)%nat by (destruct t; simpl; [done|lia]).
    rewrite (proj2 (Nat.ltb_lt _ _)), Ha by lia. simpl. by rewrite decode_utf8_ok.
  - rewrite scan_clean by done. destruct e; [..|done]; simpl in *.
    + change (t ++ String newline raw) with (t ++ String newline raw) in Hu.
      rewrite utf8_newline in Hu. bsimp. rewrite decode_utf8_ok by done. simpl.
      rewrite IH by done. done.
    + rewrite utf8_crlf in Hu. bsimp. rewrite decode_utf8_ok by done. simpl.
      rewrite IH by done. done.
Qed.

Lemma tiles_of_scan allow k : ∀ s cur start ls,
  (String.length s ≤ k)%nat → clean cur = true →
  scan_lines allow s cur start (start + String.length cur) = Ok ls →
  tiles allow start ls (cur ++ s).
Proof.
  induction k as [k IH] using lt_wf_ind. intros s cur start ls Hk Hcur.
  destruct s as [|c s]; simpl.
  - destruct (Nat.ltb_spec start (start + String.length cur)) as [Hlt|Hge].
    + intros H. rsimp. unfold decode_utf8 in *. case_match; simplify_eq. rewrite str_app_nil.
      apply tiles_eof; [done| |done]. intros ->. simpl in Hlt. lia.
    + intros [= <-]. destruct cur; [constructor|simpl in Hge; lia].
  - destruct (Ascii.eqb_spec c newline) as [->|Hn]; [|destruct (Ascii.eqb_spec c cr) as [->|Hr]].
    + intros H. rsimp. unfold decode_utf8 in *. case_match; simplify_eq.
      apply (tiles_line allow start _ LF _ s); [done|done|].
      apply (IH (String.length s) ltac:(simpl in Hk; lia) s ""); [done|done|].
      by rewrite Nat.add_0_r.
    + destruct s as [|d s]; [done|]. destruct (Ascii.eqb_spec d newline) as [->|]; [|done].
      intros H. rsimp. unfold decode_utf8 in *. case_match; simplify_eq.
      apply (tiles_line allow start _ CRLF _ s); [done|done|].
      apply (IH (String.length s) ltac:(simpl in Hk; lia) s ""); [done|done|].
      by rewrite Nat.add_0_r.
    + intros H. rewrite <- app_char_assoc. apply (IH (String.length s)); [simpl in Hk; lia|done| |].
      * rewrite clean_app, Hcur. unfold clean. cbn [all_chars andb]. unfold is_text_char.
        by rewrite (proj2 (Ascii.eqb_neq _ _) Hn), (proj2 (Ascii.eqb_neq _ _) Hr).
      * by rewrite length_snoc, Nat.add_assoc.
Qed.

Lemma scan_tiles allow raw ls :
  utf8_ok raw = true → scan_lines allow raw "" 0 0 = Ok ls ↔ tiles allow 0 ls raw.
Proof.
  intros Hu. split; [|intros H; by apply scan_of_tiles].
  intros H. apply (tiles_of_scan allow (String.length raw) raw ""); done.
Qed.

(** ** Frames *)

Section Grammar.
Variable expected_command : option string.
Variable one_way_commands : list string.
Variable len : nat.

(** A line outside every [BEGIN] and [END] *)
Definition plain (l : DecodedLine) : Prop := is_begin l = false ∧ is_end l = false.

(** The command of an open frame may leave without [END]. *)
Definition leaves (bf : fields) : Prop :=
  In (fget "cmd" bf) one_way_commands ∧ command_expected expected_command bf = true.

(** [segs ls F T O]: the lines [ls] are, in order, the frames [F], the one-way
    transitions [T] and the lines [O] outside of both. *)
Inductive segs : list DecodedLine → list A90P1Frame → list A90P1Transition →
                 list DecodedLine → Prop :=
  | segs_nil : segs [] [] [] []
  | segs_outside l ls F T O : plain l → segs ls F T O → segs (l :: ls) F T (l :: O)
  | segs_frame b bf body e ef ls F T O :
      is_begin b = true → read_begin b = Ok bf → Forall plain body →
      is_begin e = false → is_end e = true → read_end expected_command bf e = Ok ef →
      segs ls F T O →
      segs ((b :: body) ++ (e :: ls)) (mk_frame b bf ef body e :: F) T O
  | segs_jump b bf body b' ls F T O :
      is_begin b = true → read_begin b = Ok bf → Forall plain body → leaves bf →
      is_begin b' = true → segs (b' :: ls) F T O →
      segs ((b :: body) ++ (b' :: ls)) F (mk_transition bf body (dl_start b) (dl_start b') :: T) O
  | segs_last b bf body :
      is_begin b = true → read_begin b = Ok bf → Forall plain body → leaves bf →
      segs (b :: body) [] [mk_transition bf body (dl_start b) len] [].

(** *** The loop without its accumulators *)

Definition rmap {A B} (f : A → B) (m : result A) : result B := let* x := m in Ok (f x).

Definition prepend (F : list A90P1Frame) (T : list A90P1Transition) (O : list DecodedLine)
    (s : scan_state) : scan_state :=
  {| st_frames := F ++ st_frames s; st_transitions := T ++ st_transitions s;
     st_outside := O ++ st_outside s; st_open := st_open s |}.

Definition opened (o : option (DecodedLine * fields * list DecodedLine)) : scan_state :=
  {| st_frames := []; st_transitions := []; st_outside := []; st_open := o |}.

Abbreviation step := (line_step expected_command one_way_commands).

Definition runs (s : scan_state) (ls : list DecodedLine) : result scan_state :=
  let* s' := foldM step s ls in close_state expected_command one_way_commands len s'.

Lemma step_prepend F T O s l : step (prepend F T O s) l = rmap (prepend F T O) (step s l).
Proof.
  destruct s as [F0 T0 O0 o]. unfold line_step, begin_step, end_step, plain_step, prepend; simpl.
  destruct (is_begin l); [|destruct (is_end l)].
  - destruct (read_begin l) as [bf|]; [|done]. simpl.
    destruct o as [[[bl bf'] body]|]; [|done]. simpl. destruct one_way; [|done].
    unfold rmap; simpl. by rewrite app_assoc.
  - destruct o as [[[bl bf'] body]|]; [|done]. simpl. destruct read_end; [|done].
    unfold rmap; simpl. by rewrite app_assoc.
  - destruct o as [[[bl bf'] body]|]; unfold rmap; simpl; by rewrite ?app_assoc.
Qed.

Lemma runs_prepend F T O s ls : runs (prepend F T O s) ls = rmap (prepend F T O) (runs s ls).
Proof.
  unfold runs. revert s. induction ls as [|l ls IH]; intros s; simpl.
  - destruct s as [F0 T0 O0 [[[bl bf] body]|]]; [|done]. unfold close_state; simpl.
    destruct one_way; [|done]. unfold rmap, prepend; simpl. by rewrite app_assoc.
  - rewrite step_prepend. destruct (step s l) as [s'|e]; simpl; [apply IH|done].
Qed.

Lemma runs_plain_out l ls :
  plain l → runs (opened None) (l :: ls) = rmap (prepend [] [] [l]) (runs (opened None) ls).
Proof.
  intros [H1 H2]. rewrite <- runs_prepend. unfold runs; simpl. unfold line_step. by rewrite H1, H2.
Qed.

Lemma runs_plain_in bl bf body l ls :
  plain l → runs (opened (Some (bl, bf, body))) (l :: ls)
            = runs (opened (Some (bl, bf, body ++ [l])%list)) ls.
Proof. intros [H1 H2]. unfold runs; simpl. unfold line_step. by rewrite H1, H2. Qed.

Lemma runs_body bl bf body body' ls :
  Forall plain body' →
  runs (opened (Some (bl, bf, body))) (body' ++ ls)
  = runs (opened (Some (bl, bf, body ++ body')%list)) ls.
Proof.
  intros Hb. revert body. induction Hb as [|l body' Hl Hb IH]; intros body.
  - by rewrite app_nil_r.
  - change ((l :: body') ++ ls)%list with (l :: body' ++ ls)%list.
    by rewrite runs_plain_in, IH, <- app_assoc.
Qed.

Lemma runs_begin l ls :
  is_begin l = true →
  runs (opened None) (l :: ls) = let* bf := read_begin l in runs (opened (Some (l, bf, []))) ls.
Proof.
  intros H. unfold runs; simpl. unfold line_step, begin_step. rewrite H.
  by destruct (read_begin l).
Qed.

Lemma runs_end bl bf body l ls :
  is_begin l = false → is_end l = true →
  runs (opened (Some (bl, bf, body))) (l :: ls)
  = let* ef := read_end expected_command bf l in
    rmap (prepend [mk_frame bl bf ef body l] [] []) (runs (opened None) ls).
Proof.
  intros H1 H2. unfold runs at 1; simpl. unfold line_step, end_step. rewrite H1, H2; simpl.
  destruct read_end as [ef|]; [|done]. simpl. by rewrite <- runs_prepend.
Qed.

Lemma one_way_Ok bl bf body stop msg t :
  one_way expected_command one_way_commands bl bf body stop msg = Ok t
  ↔ leaves bf ∧ t = mk_transition bf body (dl_start bl) stop.
Proof.
  unfold one_way, leaves. rewrite !rbind_unit, !require_Ok, elem_str_In. naive_solver.
Qed.

Lemma runs_jump bl bf body l ls s :
  is_begin l = true →
  runs (opened (Some (bl, bf, body))) (l :: ls) = Ok s ↔
  leaves bf ∧
  rmap (prepend [] [mk_transition bf body (dl_start bl) (dl_start l)] [])
    (runs (opened None) (l :: ls)) = Ok s.
Proof.
  intros H. rewrite runs_begin by done. unfold runs at 1; simpl. unfold line_step, begin_step.
  rewrite H; simpl. destruct (read_begin l) as [nf|]; simpl; [|naive_solver].
  destruct one_way as [t|] eqn:E.
  - apply one_way_Ok in E as [Hl ->]. simpl. rewrite <- runs_prepend. unfold runs; simpl. naive_solver.
  - simpl. split; [done|]. intros [Hl _].
    rewrite (proj2 (one_way_Ok _ _ _ _ _ _) (conj Hl eq_refl)) in E. done.
Qed.

Lemma runs_close bl bf body s :
  runs (opened (Some (bl, bf, body))) [] = Ok s ↔
  leaves bf ∧ s = prepend [] [mk_transition bf body (dl_start bl) len] [] (opened None).
Proof.
  unfold runs, close_state; simpl. rewrite rbind_Ok. setoid_rewrite one_way_Ok.
  unfold prepend, opened; simpl. naive_solver.
Qed.

(** *** Both directions *)

Lemma runs_of_segs ls F T O :
  segs ls F T O → runs (opened None) ls = Ok (prepend F T O (opened None)).
Proof.
  induction 1 as [|l ls F T O Hl _ IH|b bf body e ef ls F T O Hb Hr Hbody He1 He2 Hre _ IH
                  |b bf body b' ls F T O Hb Hr Hbody Hlv Hb' _ IH|b bf body Hb Hr Hbody Hlv].
  - done.
  - rewrite runs_plain_out, IH by done. unfold rmap, prepend; simpl. done.
  - simpl. rewrite runs_begin, Hr by done. simpl. rewrite runs_body, runs_end, Hre, IH by done. done.
  - simpl. rewrite runs_begin, Hr by done. simpl. rewrite runs_body by done.
    apply runs_jump; [done|]. split; [done|]. by rewrite IH.
  - rewrite runs_begin, Hr by done. simpl. rewrite <- (app_nil_r body) at 1.
    rewrite runs_body by done. by apply runs_close.
Qed.

(** The lines after an open [BEGIN], up to what closes it *)
Lemma split_body ls :
  ∃ body rest, ls = (body ++ rest)%list ∧ Forall plain body ∧
    match rest with [] => True | l :: _ => ¬ plain l end.
Proof.
  induction ls as [|l ls (body & rest & -> & Hb & Hr)].
  - by exists [], [].
  - destruct (is_begin l) eqn:E1; [|destruct (is_end l) eqn:E2].
    1,2: exists [], (l :: body ++ rest)%list; split_and!; [done|constructor|intros [? ?]; congruence].
    exists (l :: body), rest. split_and!; [done|by constructor|done].
Qed.

Lemma segs_of_runs k : ∀ ls s,
  (length ls ≤ k)%nat → runs (opened None) ls = Ok s →
  segs ls (st_frames s) (st_transitions s) (st_outside s).
Proof.
  induction k as [k IH] using lt_wf_ind. intros [|l ls] s Hk Hrun.
  { injection Hrun as <-. constructor. }
  simpl in Hk. destruct (is_begin l) eqn:E1; [|destruct (is_end l) eqn:E2].
  - rewrite runs_begin in Hrun by done. apply rbind_Ok in Hrun as (bf & Hr & Hrun).
    destruct (split_body ls) as (body & rest & -> & Hb & Hrest).
    rewrite runs_body in Hrun by done. simpl in Hrun. rewrite length_app in Hk.
    destruct rest as [|e rest].
    + apply runs_close in Hrun as [Hlv ->]. rewrite app_nil_r. by constructor.
    + simpl in Hk. destruct (is_begin e) eqn:E3; [|destruct (is_end e) eqn:E4].
      * apply runs_jump in Hrun as [Hlv Hrun]; [|done]. unfold rmap in Hrun. rsimp.
        
        pose proof (IH (length rest + 1)%nat ltac:(lia) (e :: rest) _ ltac:(simpl; lia) H).
        by apply (segs_jump _ _ body).
      * rewrite runs_end in Hrun by done. unfold rmap in Hrun. rsimp.
        
        pose proof (IH (length rest) ltac:(lia) rest _ ltac:(lia) H0). by apply (segs_frame _ _ body).
      * by destruct Hrest.
  - unfold runs in Hrun; simpl in Hrun. unfold line_step in Hrun. by rewrite E1, E2 in Hrun.
  - rewrite runs_plain_out in Hrun by done. unfold rmap in Hrun. rsimp.
    pose proof (IH (length ls) ltac:(lia) ls _ ltac:(lia) H). by apply segs_outside.
Qed.

Lemma runs_segs ls s :
  runs (opened None) ls = Ok s ↔
  segs ls (st_frames s) (st_transitions s) (st_outside s) ∧ st_open s = None.
Proof.
  split.
  - intros H. split; [by apply (segs_of_runs (length ls))|].
    unfold runs in H. apply rbind_Ok in H as (s' & _ & H). unfold close_state in H.
    destruct (st_open s') as [[[? ?] ?]|] eqn:E; [|by injection H as <-].
    apply rbind_Ok in H as (t & _ & H). by injection H as <-.
  - intros [H Ho]. apply runs_of_segs in H. rewrite H. destruct s as [F T O o]. simpl in *. subst.
    unfold prepend; simpl. by rewrite !app_nil_r.
Qed.
End Grammar.

(** Every frame was read from a [BEGIN] and an [END] line of the transcript. *)
Lemma segs_frames cmd ow len ls F T O :
  segs cmd ow len ls F T O →
  Forall (λ f, ∃ b e, In b ls ∧ In e ls ∧ read_begin b = Ok (fr_begin f) ∧
                 read_end cmd (fr_begin f) e = Ok (fr_end f)) F.
Proof.
  induction 1 as [|l ls F T O Hl _ IH|b bf body e ef ls F T O Hb Hr Hbody He1 He2 Hre _ IH
                  |b bf body b' ls F T O Hb Hr Hbody Hlv Hb' _ IH|b bf body Hb Hr Hbody Hlv].
  - constructor.
  - eapply Forall_impl; [exact IH|]. intros f (b & e & ? & ? & ?). exists b, e. simpl; tauto.
  - constructor.
    + exists b, e. rewrite !in_app_iff. simpl. tauto.
    + eapply Forall_impl; [exact IH|]. intros f (b1 & e1 & ? & ? & ?). exists b1, e1.
      rewrite !in_app_iff. simpl. tauto.
  - eapply Forall_impl; [exact IH|]. intros f (b1 & e1 & ? & ? & ?). exists b1, e1.
    rewrite !in_app_iff. tauto.
  - constructor.
Qed.
