(* ===== verification/A90FramesProps.v ===== *)
(** * What the observation parsers guarantee *)

From stdpp Require Import base list strings.
From Stdlib Require Import ZArith NArith Lia Ascii.
From S2P Require Import Prelude PyStr Json Digest A90Contract A90ContractProps PyText A90Frames A90FramesTheory.
Open Scope string_scope.

(** Decoding is exact: [decode_lines] accepts bytes exactly when they hold no
    NUL, are UTF-8 and are tiled by lines ended by LF or CRLF (the last one may
    be open only where the caller allows it), and returns those lines with
    their byte spans and the digest of the bytes; so the bytes are recovered
    from the lines, and no slice of them ever fails to decode. *)
Theorem decode_exact `{Digest} raw allow d :
  decode_lines (InBytes raw) allow = Ok d ↔
  contains (String nul "") raw = false ∧ utf8_ok raw = true ∧
  dt_length d = String.length raw ∧ dt_sha256 d = hexdigest raw ∧
  tiles allow 0 (dt_lines d) raw.
Proof.
  unfold decode_lines. cbn [as_bytes rbind]. rewrite !rbind_unit, !require_Ok, rbind_Ok.
  rewrite negb_true_iff. split.
  - intros (Hn & Hu & ls & Hs & [= <-]). apply scan_tiles in Hs; [done|done].
  - intros (Hn & Hu & Hl & Hd & Ht). split_and!; [done..|]. exists (dt_lines d).
    split; [by apply scan_tiles|]. destruct d; simpl in *. congruence.
Qed.

(** C24. A transcript is accepted exactly when its lines follow the frame grammar:
    lines outside, complete [BEGIN]/[END] frames, and frames cut short by the
    next [BEGIN] or the end of the transcript, these only for the declared
    one-way commands.  The result lists the frames, the transitions and the
    outside lines in their order, however the bytes were split into chunks. *)
Theorem transcript_grammar `{Digest} cmd ow chunks need t :
  parse_a90p1_chunks cmd ow chunks need = Ok t ↔
  forallb command_name_re ow = true ∧
  decode_lines (InBytes (String.concat "" chunks)) true = Ok (ts_decoded t) ∧
  segs cmd ow (dt_length (ts_decoded t)) (dt_lines (ts_decoded t))
    (ts_frames t) (ts_transitions t) (ts_outside t) ∧
  (need = true → ts_frames t ≠ []) ∧ ts_chunk_sizes t = map String.length chunks.
Proof.
  unfold parse_a90p1_chunks. rewrite rbind_unit, require_Ok, rbind_Ok.
  setoid_rewrite rbind_Ok. setoid_rewrite rbind_unit. setoid_rewrite require_Ok.
  unfold scan_frames. split.
  - intros (Ho & d & Hd & s & Hs & Hn & [= <-]). split_and!; simpl; try done.
    + by apply runs_segs in Hs as [Hs _].
    + intros -> Hf. by rewrite Hf in Hn.
  - intros (Ho & Hd & Hs & Hn & Hc). split; [done|]. exists (ts_decoded t). split; [done|].
    exists {| st_frames := ts_frames t; st_transitions := ts_transitions t;
              st_outside := ts_outside t; st_open := None |}.
    split_and!; [by apply runs_segs| |destruct t; simpl in *; congruence].
    simpl. destruct need; [|done]. simpl. destruct (ts_frames t); [by destruct Hn|done].
Qed.

(** ** Fields *)

Definition token_of (kv : string * string) : string := kv.1 ++ String equals kv.2.

(** A key or value holds neither a space nor an equals sign and is not empty. *)
Definition word (s : string) : Prop :=
  s ≠ "" ∧ count_char equals s = 0%nat ∧ count_char space s = 0%nat.

Lemma field_step_Ok f tok f' :
  field_step f tok = Ok f' ↔
  ∃ kv, tok = token_of kv ∧ count_char equals kv.1 = 0%nat ∧ count_char equals kv.2 = 0%nat
        ∧ kv.1 ≠ "" ∧ kv.2 ≠ "" ∧ kv.1 ∉ f.*1 ∧ f' = (f ++ [kv])%list.
Proof.
  unfold field_step. rewrite rbind_unit, require_Ok, Nat.eqb_eq. split.
  - intros [Hc Hs]. destruct (split_once equals tok) as [[k v]|] eqn:E; [|done].
    apply split_once_inv in E as [-> Hk]. rewrite count_char_app in Hc. simpl in Hc.
    apply rbind_unit in Hs as [Hq [= <-]]. apply require_Ok in Hq. bsimp.
    exists (k, v). simpl. split_and!; try done; [lia|by apply String.eqb_neq..|].
    rewrite list_elem_of_In. by apply elem_str_false.
  - intros ([k v] & -> & Hk & Hv & Hk' & Hv' & Hin & ->). simpl in *. unfold token_of; simpl.
    split; [rewrite count_char_app; simpl; lia|]. rewrite split_once_app by done.
    rewrite rbind_unit, require_Ok, !andb_true_iff, !negb_true_iff, elem_str_false, !String.eqb_neq.
    by rewrite <- list_elem_of_In.
Qed.

Lemma fields_loop tokens f :
  foldM field_step [] tokens = Ok f ↔
  tokens = map token_of f ∧ NoDup f.*1 ∧
  Forall (λ kv, kv.1 ≠ "" ∧ kv.2 ≠ "" ∧ count_char equals kv.1 = 0%nat
                ∧ count_char equals kv.2 = 0%nat) f.
Proof.
  revert f. induction tokens as [|tok tokens IH] using rev_ind; intros f.
  { simpl. split.
    - intros [= <-]. split_and!; [done|constructor|constructor].
    - intros (Hm & _). by destruct f. }
  rewrite foldM_snoc, rbind_Ok. setoid_rewrite field_step_Ok. split.
  - intros (g & Hg & kv & -> & ? & ? & ? & ? & Hin & ->). apply IH in Hg as (-> & Hnd & Hall).
    rewrite map_app, fmap_app, NoDup_app, Forall_app, Forall_singleton. split_and!; try done.
    + intros x Hx ->%list_elem_of_singleton. done.
    + apply NoDup_singleton.
  - intros (Hm & Hnd & Hall). destruct f as [|kv f _] using rev_ind; [by destruct tokens|].
    rewrite map_app in Hm. apply app_inj_tail in Hm as [-> ->].
    rewrite fmap_app, NoDup_app in Hnd. rewrite Forall_app, Forall_singleton in Hall.
    exists f. split; [apply IH; tauto|]. exists kv. destruct Hnd as (_ & Hnd & _).
    split_and!; try tauto. intros Hx. by apply (Hnd _ Hx), list_elem_of_singleton.
Qed.

Lemma split_on_none c s : count_char c s = 0%nat → split_on c s = [s].
Proof.
  induction s as [|d s IH]; simpl; [done|]. destruct (Ascii.eqb d c); [done|].
  intros H. by rewrite IH.
Qed.

Lemma split_on_app c a b : count_char c a = 0%nat → split_on c (a ++ String c b) = a :: split_on c b.
Proof.
  induction a as [|d a IH]; simpl; [by rewrite Ascii.eqb_refl|].
  destruct (Ascii.eqb d c); [done|]. intros H. by rewrite IH.
Qed.

Lemma split_on_concat c l :
  l ≠ [] → Forall (λ t, count_char c t = 0%nat) l → split_on c (String.concat (String c "") l) = l.
Proof.
  intros Hne Hall. induction Hall as [|t l Ht Hall IH]; [done|].
  destruct l as [|u l]; [by apply split_on_none|].
  change (String.concat (String c "") (t :: u :: l))
    with (t ++ String c (String.concat (String c "") (u :: l))).
  by rewrite split_on_app, IH.
Qed.

Lemma split_on_parts c s : Forall (λ t, count_char c t = 0%nat) (split_on c s).
Proof.
  induction s as [|d s IH]; simpl; [by repeat constructor|].
  destruct (Ascii.eqb d c) eqn:E; [by constructor|].
  destruct (split_on c s) as [|h t]; [constructor|]. inversion IH; subst.
  constructor; [|done]. simpl. by rewrite E.
Qed.

Lemma token_ne kv : token_of kv ≠ "".
Proof. unfold token_of. by destruct kv as [[|] ?]. Qed.

(** The payload of a frame line is accepted exactly when it is the printed
    list of its fields, [key=value] joined by single spaces in the expected key
    order, with distinct keys and non-empty words on both sides: printing and
    parsing are inverse to each other. *)
Theorem fields_exact payload expected f :
  parse_fields payload expected = Ok f ↔
  payload = String.concat " " (map token_of f) ∧ f ≠ [] ∧ f.*1 = expected ∧ NoDup expected ∧
  Forall (λ kv, word kv.1 ∧ word kv.2) f.
Proof.
  unfold parse_fields. rewrite rbind_unit, require_Ok, rbind_Ok.
  setoid_rewrite rbind_unit. setoid_rewrite rbind_unit. setoid_rewrite require_Ok.
  setoid_rewrite bool_decide_eq_true. setoid_rewrite fields_loop. split.
  - intros (_ & g & (Hm & Hnd & Hall) & _ & He & [= <-]). subst expected.
    pose proof (concat_split_on space payload) as Hp. rewrite Hm in Hp.
    split_and!; [done| |done|done|].
    + intros ->. by apply split_on_nonempty in Hm.
    + pose proof (split_on_parts space payload) as Hs. rewrite Hm in Hs.
      apply Forall_map in Hs. rewrite Forall_forall in *. intros [k v] Hin.
      specialize (Hs _ Hin). destruct (Hall _ Hin) as (? & ? & ? & ?).
      simpl in *. unfold token_of in Hs.
      rewrite count_char_app in Hs. simpl in Hs. unfold word. split_and!; try done; lia.
  - intros (-> & Hne & <- & Hnd & Hall). change " " with (String space "").
    rewrite split_on_concat; [|by destruct f|].
    + split.
      { rewrite forallb_forall. intros t (kv & <- & _)%in_map_iff.
        rewrite negb_true_iff, String.eqb_neq. apply token_ne. }
      exists f. split_and!; try done.
      * eapply Forall_impl; [exact Hall|]. unfold word. tauto.
      * unfold same_set. rewrite andb_true_iff, forallb_forall. split; intros; by apply elem_str_In.
    + apply Forall_map. eapply Forall_impl; [exact Hall|]. intros [k v] [Hk Hv]. unfold word in *.
      unfold token_of. rewrite count_char_app. simpl in *. lia.
Qed.

(** ** Coherence of frames *)

(** The result a frame reports: success, a positive code, or a negative errno,
    with [unknown] and [busy] reserved for one errno each. *)
Inductive outcome : Z → Z → string → Prop :=
  | outcome_ok : outcome 0 0 "ok"
  | outcome_code rc : (0 < rc)%Z → outcome rc 0 "error"
  | outcome_errno rc : (rc < 0)%Z → outcome rc (- rc) "error"
  | outcome_unknown : outcome (-2) 2 "unknown"
  | outcome_busy : outcome (-16) 16 "busy".

Lemma outcome_of rc errno status :
  elem_str status CANONICAL_STATUSES = true →
  Bool.eqb (rc =? 0)%Z (status =? "ok") = true →
  rc_incoherent rc errno status = false → outcome rc errno status.
Proof.
  rewrite elem_str_In. unfold rc_incoherent. intros Hs Hz Hi. bsimp.
  destruct Hs as [<-|[<-|[<-|[<-|[]]]]]; simpl in *; bsimp.
  - destruct (Z.eqb_spec rc 0) as [->|]; [|done]. simpl in *. bsimp.
    destruct (Z.eqb_spec errno 0) as [->|]; [constructor|done].
  - destruct (Z.eqb_spec rc 0) as [->|]; [done|].
    destruct (Z.leb_spec 0 rc); simpl in *; bsimp.
    + destruct (Z.eqb_spec errno 0) as [->|]; [apply outcome_code; lia|done].
    + rewrite (proj2 (Z.ltb_lt rc 0)) in * by lia. simpl in *. bsimp.
      destruct (Z.eqb_spec errno (- rc)) as [->|]; [by apply outcome_errno|done].
  - destruct (Z.eqb_spec rc (-2)) as [->|], (Z.eqb_spec errno 2) as [->|]; try done. constructor.
  - destruct (Z.eqb_spec rc (-16)) as [->|], (Z.eqb_spec errno 16) as [->|]; try done. constructor.
Qed.

Lemma parse_fields_keys payload expected f : parse_fields payload expected = Ok f → f.*1 = expected.
Proof. unfold parse_fields. intros H. rsimp. by eapply bool_decide_eq_true. Qed.

Lemma or_else_false a b : or_else a b = Ok false → a = Ok false ∧ b = Ok false.
Proof. unfold or_else. intros (x & -> & H)%rbind_Ok. by destruct x. Qed.

Lemma nonpositive_false v : nonpositive v = Ok false → ∃ n, py_int v = Ok n ∧ (0 < n)%Z.
Proof.
  unfold nonpositive. destruct unsigned_decimal_re; [|done].
  intros (n & Hn & [= Hz])%rbind_Ok. exists n. split; [done|]. by apply Z.leb_gt.
Qed.

Lemma validate_end_Ok f :
  validate_end f = Ok tt →
  command_name_re (fget "cmd" f) = true ∧
  ∃ seq rc errno, py_int (fget "seq" f) = Ok seq ∧ (0 < seq)%Z ∧
    py_int (fget "rc" f) = Ok rc ∧ py_int (fget "errno" f) = Ok errno ∧
    outcome rc errno (fget "status" f).
Proof.
  unfold validate_end. intros H. apply rbind_Ok in H as (bad & Hb & H).
  apply rbind_unit in H as [Hn H]. apply require_Ok, negb_true_iff in Hn as ->.
  apply or_else_false in Hb as [Hseq [= Hm]]. apply negb_false_iff in Hm. bsimp.
  apply nonpositive_false in Hseq as (seq & Hseq & Hpos).
  apply rbind_Ok in H as (rc & Hrc & H). apply rbind_Ok in H as (errno & He & H).
  apply rbind_unit in H as [Hz Hi]. rewrite require_Ok in *. apply negb_true_iff in Hi.
  split; [done|]. exists seq, rc, errno. split_and!; try done. by apply outcome_of.
Qed.

(** The fields of a frame agree with each other. *)
Record coherent (cmd : option string) (f : A90P1Frame) : Prop := {
  co_begin : (fr_begin f).*1 = BEGIN_KEY_ORDER;
  co_end : (fr_end f).*1 = END_KEY_ORDER;
  co_same k : In k ["seq"; "cmd"; "flags"] → fget k (fr_begin f) = fget k (fr_end f);
  co_expected c : cmd = Some c → fget "cmd" (fr_end f) = c;
  co_command : command_name_re (fget "cmd" (fr_end f)) = true;
  co_outcome : ∃ seq rc errno, py_int (fget "seq" (fr_end f)) = Ok seq ∧ (0 < seq)%Z ∧
    py_int (fget "rc" (fr_end f)) = Ok rc ∧ py_int (fget "errno" (fr_end f)) = Ok errno ∧
    outcome rc errno (fget "status" (fr_end f))
}.

Lemma frame_coherent `{Digest} cmd ow chunks need t f :
  parse_a90p1_chunks cmd ow chunks need = Ok t → In f (ts_frames t) → coherent cmd f.
Proof.
  unfold parse_a90p1_chunks, scan_frames. intros Hp Hf.
  apply rbind_Ok in Hp as (_ & _ & Hp). apply rbind_Ok in Hp as (d & _ & Hp).
  apply rbind_Ok in Hp as (s & Hs & Hp). apply rbind_Ok in Hp as (_ & _ & [= <-]). simpl in Hf.
  apply runs_segs in Hs as [Hs _]. apply segs_frames, List.Forall_forall with (x := f) in Hs; [|done].
  destruct Hs as (b & e & _ & _ & Hb & He). unfold read_begin in Hb. unfold read_end in He.
  apply rbind_unit in Hb as [_ Hb]. apply rbind_Ok in Hb as (bf & Hb & Hb').
  apply rbind_unit in Hb' as [_ [= ->]]. apply rbind_unit in He as [_ He].
  apply rbind_Ok in He as (ef & He & He'). apply rbind_unit in He' as [Hv He'].
  apply rbind_unit in He' as [Hk He']. apply rbind_unit in He' as [Hc [= ->]].
  apply validate_end_Ok in Hv as [Hcmd Ho].
  split; [by apply parse_fields_keys in Hb|by apply parse_fields_keys in He|..|done|done].
  - apply forM_Ok in Hk. rewrite List.Forall_forall in Hk. intros k Hin.
    specialize (Hk k Hin). by apply require_Ok, String.eqb_eq in Hk.
  - intros c ->. by apply require_Ok, String.eqb_eq in Hc.
Qed.

(** Every frame of an accepted transcript is coherent: [BEGIN] and [END] carry
    exactly their keys in order and agree on sequence number, command and flags;
    the sequence number is positive, the command is the one the caller expects,
    and the code, the errno and the status describe one and the same outcome. *)
Theorem frames_coherent `{Digest} cmd ow chunks need t f :
  parse_a90p1_chunks cmd ow chunks need = Ok t → In f (ts_frames t) →
  (fr_begin f).*1 = BEGIN_KEY_ORDER ∧ (fr_end f).*1 = END_KEY_ORDER ∧
  (∀ k, In k ["seq"; "cmd"; "flags"] → fget k (fr_begin f) = fget k (fr_end f)) ∧
  (∀ c, cmd = Some c → fget "cmd" (fr_end f) = c) ∧
  ∃ seq rc errno, py_int (fget "seq" (fr_end f)) = Ok seq ∧ (0 < seq)%Z ∧
    py_int (fget "rc" (fr_end f)) = Ok rc ∧ py_int (fget "errno" (fr_end f)) = Ok errno ∧
    outcome rc errno (fget "status" (fr_end f)).
Proof.
  intros Hp Hf. apply (frame_coherent _ _ _ _ _ _ Hp) in Hf as [H1 H2 H3 H4 _ H5]. by split_and!.
Qed.

(** ** The decision on a display run *)

(** The only exception is the module's own. *)
Definition contained {A} (m : result A) : Prop :=
  match m with Err (ObservationContractError _) | Ok _ => True | Err _ => False end.

Lemma contained_bind {A B} (m : result A) (k : A → result B) :
  contained m → (∀ a, m = Ok a → contained (k a)) → contained (rbind m k).
Proof. destruct m as [a|[]]; simpl; naive_solver. Qed.

Lemma contained_require b msg : contained (require b (ObservationContractError msg)).
Proof. by destruct b. Qed.

Lemma contained_forM {A} (f : A → result unit) l : (∀ x, contained (f x)) → contained (forM f l).
Proof.
  intros Hf. induction l as [|x l IH]; simpl; [done|]. by apply contained_bind.
Qed.

Lemma contained_foldM {A S} (f : S → A → result S) l s :
  (∀ s x, contained (f s x)) → contained (foldM f s l).
Proof.
  intros Hf. revert s. induction l as [|x l IH]; intros s; simpl; [done|]. by apply contained_bind.
Qed.

Lemma scan_contained allow k : ∀ s cur start index,
  (String.length s ≤ k)%nat → utf8_ok (cur ++ s) = true →
  contained (scan_lines allow s cur start index).
Proof.
  induction k as [k IH] using lt_wf_ind. intros [|c s] cur start index Hk Hu; simpl.
  - case_match; [|done]. apply contained_bind; [apply contained_require|]. intros _ _.
    rewrite str_app_nil in Hu. by rewrite decode_utf8_ok.
  - simpl in Hk. destruct (Ascii.eqb_spec c newline) as [->|Hn]; [|destruct (Ascii.eqb_spec c cr) as [->|Hr]].
    + rewrite utf8_newline in Hu. bsimp. rewrite decode_utf8_ok by done. simpl.
      apply contained_bind; [|done]. by apply (IH (String.length s)).
    + destruct s as [|d s]; [done|]. destruct (Ascii.eqb_spec d newline) as [->|]; [|done].
      rewrite utf8_crlf in Hu. bsimp. rewrite decode_utf8_ok by done. simpl.
      apply contained_bind; [|done]. apply (IH (String.length s)); [simpl in Hk; lia|done|done].
    + apply (IH (String.length s)); [lia|done|]. by rewrite app_char_assoc.
Qed.

Lemma decode_contained `{Digest} v allow : contained (decode_lines v allow).
Proof.
  unfold decode_lines. apply contained_bind.
  { destruct v; simpl; try done. by destruct utf8_ok. }
  intros raw _. apply contained_bind; [apply contained_require|]. intros _ _.
  apply contained_bind; [apply contained_require|]. intros [] Hu. apply require_Ok in Hu.
  apply contained_bind; [by apply (scan_contained _ (String.length raw))|done].
Qed.

Lemma marker_contained `{Digest} v : contained (parse_exact_marker v).
Proof.
  unfold parse_exact_marker. apply contained_bind; [apply decode_contained|]. intros d _.
  apply contained_foldM. intros f l. unfold marker_step.
  apply contained_bind; [apply contained_require|]. intros _ _. destruct split_once as [[k w]|]; [|done].
  by apply contained_bind; [apply contained_require|].
Qed.

Lemma release_contained `{Digest} log marker :
  contained (validate_native_release_evidence log marker).
Proof.
  unfold validate_native_release_evidence. apply contained_bind; [apply decode_contained|]. intros d _.
  apply contained_bind; [apply contained_require|]. intros _ _.
  apply contained_bind; [apply contained_forM; intros; apply contained_require|]. intros _ _.
  apply contained_bind; [apply marker_contained|]. intros. apply contained_require.
Qed.

Lemma release_fact_bytes `{Digest} log marker :
  ∃ f, release_fact (InBytes log) marker = Ok f ∧ of_name f = "native_release" ∧
    (of_state f = FPROVEN ↔ validate_native_release_evidence (InBytes log) marker = Ok tt).
Proof.
  unfold release_fact. pose proof (release_contained (InBytes log) marker) as Hc.
  destruct validate_native_release_evidence as [[]|[]]; try done; eexists; by split_and!.
Qed.

(** The decision a list of states calls for: the first that is not proven. *)
Definition unproven (rs : string * string * string * FactState) : bool :=
  negb (bool_decide (rs.2 = FPROVEN)).

Definition signature_of (wf : string) (started : bool) (rs : string * string * string * FactState)
    : FailureSignature :=
  let '(name, phase, prior, st) := rs in
  {| fs_workflow := wf; fs_phase := phase; fs_class := upper name ++ "_" ++ state_value st;
     fs_effect_started := started;
     fs_last_proven_boundary := if started then prior else "NO_EFFECT_STARTED" |}.

Definition decision_of (wf : string) (started : bool)
    (l : list (string * string * string * FactState)) : ObservationDecision :=
  match List.find unproven l with
  | None => {| od_decision := PASS; od_signature := None |}
  | Some rs => {| od_decision := NO_PROOF; od_signature := Some (signature_of wf started rs) |}
  end.

(** The names a requirement can put in a signature are identities. *)
Definition req_ok (r : string * string * string) : bool :=
  identity_re r.1.2 && identity_re r.2 &&
  forallb (λ s, identity_re (upper r.1.1 ++ "_" ++ state_value s)) [FPROVEN; FREFUTED; FUNKNOWN].

Lemma req_ok_class r s : req_ok r = true → identity_re (upper r.1.1 ++ "_" ++ state_value s) = true.
Proof. unfold req_ok. simpl. intros H. bsimp. by destruct s. Qed.

Lemma decide_from_spec facts wf started reqs states :
  identity_re wf = true → forallb req_ok reqs = true →
  Forall2 (λ r s, ∃ f, fact_get r.1.1 facts = Some f ∧ of_name f = r.1.1 ∧ of_state f = s) reqs states →
  decide_from facts wf started reqs = Ok (decision_of wf started (zip reqs states)).
Proof.
  intros Hwf Hreq H.
  induction H as [|[[name phase] prior] s reqs states (f & Hg & Hn & Hs) _ IH]; [done|].
  cbn [forallb] in Hreq. apply andb_true_iff in Hreq as [Hr Hreq]. cbn [fst snd] in *.
  pose proof (req_ok_class _ s Hr) as Hclass. unfold req_ok in Hr. cbn [fst snd] in *. bsimp.
  cbn [decide_from]. rewrite Hg, Hn, String.eqb_refl, Hs. cbn [require rbind].
  unfold decision_of. cbn [zip zip_with List.find]. unfold unproven at 1; cbn [snd].
  destruct (bool_decide_reflect (s = FPROVEN)) as [->|Hne]; cbn [negb].
  { by apply IH. }
  unfold failure_signature. cbn [forallb].
  replace (identity_re (if started then prior else "NO_EFFECT_STARTED")) with true
    by (by destruct started).
  by rewrite Hwf, Hclass, (ltac:(eassumption) : identity_re phase = true).
Qed.

Lemma find_none_iff {A} (p : A → bool) l : List.find p l = None ↔ Forall (λ x, p x = false) l.
Proof.
  induction l as [|x l IH]; simpl; [split; [constructor|done]|].
  rewrite Forall_cons. destruct (p x); naive_solver.
Qed.

(** On bytes the display classification never fails, and the decision on it is
    PASS exactly when the native release is evidenced, both PID 1 witnesses
    hold, dropbear runs, the display is ready and the candidate returned;
    otherwise its signature names the first of the five boundaries, in this
    order, that is not proven. *)
Theorem display_decision `{Digest} log marker comm exe drop status ret wf started :
  identity_re wf = true →
  ∃ facts d st,
    classify_phase2_display_run (InBytes log) (InBytes marker) comm exe drop status ret = Ok facts ∧
    decide_phase2_display_run facts wf started = Ok d ∧
    (st = FPROVEN ↔ validate_native_release_evidence (InBytes log) (InBytes marker) = Ok tt) ∧
    d = decision_of wf started (zip PHASE2_REQUIREMENTS
          [st; pid1_state comm exe; state_of drop; display_state status; state_of ret]) ∧
    (od_decision d = PASS ↔
     st = FPROVEN ∧ comm = Some true ∧ exe = Some true ∧ drop = Some true ∧ status = "ready"
     ∧ ret = Some true).
Proof.
  intros Hwf. unfold classify_phase2_display_run, classify_phase2_display_facts.
  destruct (release_fact_bytes log (InBytes marker)) as (f & -> & Hn & Hst). cbn.
  do 2 eexists. exists (of_state f). split; [done|]. split; [|split; [done|split; [done|]]].
  - unfold decide_phase2_display_run. cbn [map fst]. rewrite rbind_unit. split; [done|].
    apply (decide_from_spec _ _ _ PHASE2_REQUIREMENTS
      [of_state f; pid1_state comm exe; state_of drop; display_state status; state_of ret]);
      [done|vm_compute; done|].
    repeat (apply Forall2_cons; split; [by eexists|]). constructor.
  - unfold decision_of. transitivity (List.find unproven (zip PHASE2_REQUIREMENTS
      [of_state f; pid1_state comm exe; state_of drop; display_state status; state_of ret]) = None).
    { by destruct List.find. }
    rewrite find_none_iff. cbn [zip zip_with PHASE2_REQUIREMENTS]. unfold unproven.
    rewrite !Forall_cons. cbn [snd]. rewrite !negb_false_iff, !bool_decide_eq_true.
    assert (pid1_state comm exe = FPROVEN ↔ comm = Some true ∧ exe = Some true) as ->
      by (destruct comm as [[]|], exe as [[]|]; naive_solver).
    assert (∀ o, state_of o = FPROVEN ↔ o = Some true) as Ho by (intros [[]|]; naive_solver).
    rewrite !Ho. assert (display_state status = FPROVEN ↔ status = "ready") as ->.
    { unfold display_state. destruct (String.eqb_spec status "ready"); [naive_solver|].
      destruct (status =? "bounded-failure"); naive_solver. }
    split; [tauto|]. intros; repeat split; try tauto. constructor.
Qed.
