(* ===== verification/A90Ctl.v ===== *)
(** * One native-init command over the serial bridge

    [a90ctl.py] and the lock of [a90_serial_lock.py]: the wire encoding of a
    command, one exchange with the bridge, and the retry loop around it.  Time
    is in microseconds; what the bridge, the clock and other lock holders do in
    the n-th exchange is the n-th [session] of the environment, and [sent]
    collects what the host began to write to the device. *)

From stdpp Require Import base list strings.
From Stdlib Require Import ZArith Lia Ascii.
From S2P Require Import Prelude PyStr Json Digest Bytes A90Contract PyText A90Frames.
Open Scope string_scope.

Definition BRIDGE_SERIAL_MISSING_TEXT : string := "serial device is not connected".
Definition BRIDGE_BUSY_TEXT : string := "busy: another client is active".
Definition PROMPT : string := "a90:/#".
Definition CMDV1_RETRY_INTERVAL : Z := 500000.
Definition LOCK_POLL_INTERVAL : Z := 50000.

Definition SAFE_RETRY_COMMANDS : list string :=
  ["version"; "status"; "bootstatus"; "selftest"; "pid1guard"; "runtime"; "storage"; "mountsd";
   "helpers"; "userland"; "service"; "netservice"; "rshell"; "diag"; "wifi"; "wififeas";
   "wifiinv"; "logpath"; "hudlog"; "timeline"; "last"; "pwd"; "uname"; "mounts"; "ls"; "cat";
   "stat"; "screenapp"].

(** ** Encoding *)

Definition can_use_legacy_cmdv1_arg (arg : string) : bool :=
  negb (arg =? "") && negb (startswith "#" arg) && negb (has_space arg).

Definition encode_cmdv1x_arg (arg : string) : result string :=
  do* require (negb (contains (String nul "") arg))
        (PyRuntimeError "cmdv1x cannot encode NUL bytes") in
  let* data := (if utf8_ok arg then Ok arg else Err PyUnicodeError) in
  Ok (str_of_nat (String.length data) ++ ":" ++ hex_of data).

Fixpoint map_result {A B} (f : A → result B) (l : list A) : result (list B) :=
  match l with
  | [] => Ok []
  | x :: l' => let* y := f x in let* ys := map_result f l' in Ok (y :: ys)
  end.

Definition encode_cmdv1_line (command : list string) : result string :=
  match command with
  | [] => Err (PyRuntimeError "cmdv1 command is required")
  | name :: _ =>
      do* require (negb (name =? "") && command_name_re name)
            (PyRuntimeError "cmdv1 command name cannot be encoded safely") in
      do* require (negb (existsb (contains (String nul "")) command))
            (PyRuntimeError "cmdv1 cannot encode NUL bytes") in
      if forallb can_use_legacy_cmdv1_arg command then
        Ok ("cmdv1 " ++ String.concat " " command)
      else
        let* args := map_result encode_cmdv1x_arg command in
        Ok ("cmdv1x " ++ String.concat " " args)
  end.

Definition double_input_line (line : string) : string :=
  String.concat "" (map (λ c, c ++ c) (chars line)).

(** [input_mode or os.environ.get(INPUT_MODE_ENV, "normal")]; the environment's
    value is [env_mode] *)
Definition select_mode (env_mode input_mode : option string) : string :=
  match input_mode with
  | Some m => if m =? "" then default "normal" env_mode else m
  | None => default "normal" env_mode
  end.

Definition encode_wire_line (line mode : string) : result string :=
  if mode =? "double" then Ok (double_input_line line)
  else if elem_str mode [""; "normal"; "slow"] then Ok line
  else Err (PyRuntimeError "unsupported A90CTL_INPUT_MODE").

(** ** Reading *)

Definition has_prompt_after_last_end (data : string) : bool :=
  match rfind_tail END_PREFIX data with
  | None => false
  | Some tail => contains (nl ++ PROMPT) tail || contains (String cr PROMPT) tail
  end.

(** What [recv] does next, and how long it takes: a time-out, some bytes (none
    when the peer closed) or an [OSError]. *)
Inductive recv_event := RTimeout | RData (s : string) | RError.

Record read_opts := {
  ro_markers : list string;
  ro_prompt_after_end : bool;
  ro_drain : Z
}.

(** [any(marker in data) and not (END without its prompt)] *)
Definition read_complete (o : read_opts) (data : string) : bool :=
  existsb (λ m, contains m data) (ro_markers o) &&
  negb (ro_prompt_after_end o && contains END_PREFIX data && negb (has_prompt_after_last_end data)).

(** [sock.settimeout(0.25)] *)
Definition READ_TIMEOUT : Z := 250000.

(** The last read after [time.sleep(drain)]; when the script of events ends, it times out. *)
Definition drain (o : read_opts) (now : Z) (evs : list (Z * recv_event)) (data : string)
    : Z * result string :=
  if (0 <? ro_drain o)%Z then
    let now := (now + ro_drain o)%Z in
    match evs with
    | [] => (now + READ_TIMEOUT, Ok data)%Z
    | (dt, RTimeout) :: _ => (now + dt, Ok data)%Z
    | (dt, RData s) :: _ => (now + dt, Ok (data ++ s))%Z
    | (dt, RError) :: _ => (now + dt, Err (PyOSError "recv"))%Z
    end
  else (now, Ok data).

(** When the script of events ends, [recv] only times out, until the deadline is past. *)
Definition timeouts_until (deadline now : Z) : Z :=
  (now + READ_TIMEOUT * ((deadline - now + READ_TIMEOUT - 1) / READ_TIMEOUT))%Z.
Fixpoint read_until (o : read_opts) (deadline now : Z) (evs : list (Z * recv_event)) (data : string)
    : Z * result string :=
  if (now <? deadline)%Z then
    match evs with
    | [] => (timeouts_until deadline now, Ok data)
    | (dt, ev) :: evs' =>
        let now := (now + dt)%Z in
        match ev with
        | RTimeout => read_until o deadline now evs' data
        | RError => (now, Err (PyOSError "recv"))
        | RData s =>
            if s =? "" then (now, Ok data)
            else
              let data := data ++ s in
              if read_complete o data then drain o now evs' data
              else read_until o deadline now evs' data
        end
    end
  else (now, Ok data).

Definition decode_bridge_output (data : string) : result string :=
  if utf8_ok data then Ok data
  else Err (PyRuntimeError "serial bridge output is not valid UTF-8").

(** ** One exchange *)

Record session := {
  ss_lock_free : option Z;            (** when the lock is free; never, if [None] *)
  ss_lock_cost : Z;                   (** writing the lock's metadata *)
  ss_connect : Z * bool;              (** how long to connect, or to an [OSError] *)
  ss_char : nat → Z * option nat;     (** how long to send the n-th character, paced *)
  ss_send : Z * option nat;           (** how long to send the whole line; after an [OSError],
                                          how many bytes were sent *)
  ss_recv : list (Z * recv_event)
}.

Record net := { now : Z; rounds : nat; sent : list string }.

(** [SerialBridgeLock.__enter__] with a time-out: one try per poll interval *)
Fixpoint lock_poll (fuel : nat) (free : option Z) (deadline t : Z) : option (Z * bool) :=
  match fuel with
  | O => None
  | S f =>
      if match free with Some at_ => (at_ <=? t)%Z | None => false end then Some (t, true)
      else if (deadline <=? t)%Z then Some (t, false)
      else lock_poll f free deadline (t + LOCK_POLL_INTERVAL)%Z
  end.
Definition lock_fuel (timeout : Z) : nat := S (S (Z.to_nat (timeout / LOCK_POLL_INTERVAL))).

Record exchange_opts := {
  xo_mode : string;
  xo_char_delay : Z;
  xo_min_budget : Z;
  xo_read : read_opts
}.

(** The paced loop: before each character the deadline must leave room for the
    rest.  Returns the time, what was written and whether it was all. *)
Fixpoint paced_send (s : session) (deadline delay budget t : Z) (index : nat) (cs : list string)
    : Z * string * result unit :=
  match cs with
  | [] => (t, "", Ok tt)
  | c :: cs' =>
      if (deadline - t <? Z.of_nat (length cs) * delay + budget)%Z then
        (t, "", Err (PyTimeoutError "slow serial deadline exhausted during paced send"))
      else
        let '(dt, cut) := ss_char s index in
        match cut with
        | Some k => (t + dt, stake k c, Err (PyOSError "sendall"))%Z
        | None =>
            let '(t', rest, r) := paced_send s deadline delay budget (t + dt + delay)%Z (S index) cs' in
            (t', c ++ rest, r)
        end
  end.

(** What is written and when, or the exception that prevents it *)
Definition send_line (s : session) (o : exchange_opts) (deadline t : Z) (payload : string)
    : Z * string * result unit :=
  if xo_mode o =? "slow" then
    let delay := xo_char_delay o in
    if negb ((0 <=? delay)%Z && (delay <=? 1000000)%Z) then
      (t, "", Err (PyRuntimeError "invalid slow input character delay"))
    else if (deadline - t <? Z.of_nat (length (chars payload)) * delay + xo_min_budget o)%Z then
      (t, "", Err (PyTimeoutError "slow serial deadline lacks full send and read budget"))
    else paced_send s deadline delay (xo_min_budget o) t 0 (chars payload)
  else if (deadline - t <? xo_min_budget o)%Z then
    (t, "", Err (PyTimeoutError "serial deadline lacks minimum read budget before send"))
  else
    let '(dt, cut) := ss_send s in
    match cut with
    | None => (t + dt, payload, Ok tt)%Z
    | Some k => (t + dt, stake k payload, Err (PyOSError "sendall"))%Z
    end.

Definition wrote (st : net) (t : Z) (payload : string) : net :=
  {| now := t; rounds := S (rounds st);
     sent := if payload =? "" then sent st else (sent st ++ [payload])%list |}.

(** The exchange once the line can be written: lock, connect, send, read, decode *)
Definition exchange_locked (s : session) (o : exchange_opts) (timeout deadline : Z) (payload : string)
    (st : net) : result string * net :=
  match lock_poll (lock_fuel timeout) (ss_lock_free s) (now st + timeout)%Z (now st) with
  | None => (Err (SerialBridgeLockBusy "lock poll out of fuel"), st)
  | Some (t, false) =>
      (Err (SerialBridgeLockBusy "serial bridge transaction lock busy"), wrote st t "")
  | Some (t, true) =>
      let t := (t + ss_lock_cost s)%Z in
      if (deadline - t <=? 0)%Z then
        (Err (SerialBridgeLockBusy "lock wait exhausted command timeout"), wrote st t "")
      else
        match ss_connect s with
        | (dt, false) => (Err (PyOSError "create_connection"), wrote st (t + dt)%Z "")
        | (dt, true) =>
            let '(t, written, r) := send_line s o deadline (t + dt)%Z payload in
            match r with
            | Err e => (Err e, wrote st t written)
            | Ok _ =>
                let stop := (t + Z.max 100000 (deadline - t))%Z in
                let '(t, data) := read_until (xo_read o) stop t (ss_recv s) "" in
                (let* raw := data in decode_bridge_output raw, wrote st t written)
            end
        end
  end.

Definition bridge_exchange (s : session) (o : exchange_opts) (timeout : Z) (line : string) (st : net)
    : result string * net :=
  let deadline := (now st + timeout)%Z in
  match encode_wire_line line (xo_mode o) with
  | Err e => (Err e, st)
  | Ok wire_line =>
      if (xo_min_budget o <? 0)%Z || (timeout <? xo_min_budget o)%Z then
        (Err (PyRuntimeError "invalid minimum read budget"), st)
      else
        let prefix := if elem_str (xo_mode o) ["double"; "slow"] then "" else nl in
        exchange_locked s o timeout deadline (prefix ++ wire_line ++ nl) st
  end.

(** ** The protocol *)

Definition text_lines (text : string) : list string :=
  filter (λ l, l ≠ "") (map strip (split_on newline (replace1 cr nl (replace2 cr newline nl text)))).

Definition prompt_only_cmdv1_echo (text : string) : bool :=
  let lines := text_lines text in
  negb (is_nil lines) && elem_str PROMPT lines &&
  forallb (λ l, (l =? PROMPT) || startswith "cmdv1 " l || startswith "cmdv1x " l) lines.

Definition noisy (mode : string) : bool := elem_str mode ["double"; "slow"].

Definition should_retry_cmdv1_exchange (text mode : string) : bool :=
  (strip text =? "") || contains BRIDGE_SERIAL_MISSING_TEXT text || contains BRIDGE_BUSY_TEXT text
  || (noisy mode && prompt_only_cmdv1_echo text)
  || (noisy mode && contains "[err] unknown command:" text).

Record ProtocolResult := { pr_begin : fields; pr_end : fields; pr_text : string }.

(** [int(self.end.get("rc", "1"), 0)] on the decimal texts a frame holds *)
Definition pr_rc (r : ProtocolResult) : result Z :=
  py_int (if elem_str "rc" (pr_end r).*1 then fget "rc" (pr_end r) else "1").
Definition pr_status (r : ProtocolResult) : string :=
  if elem_str "status" (pr_end r).*1 then fget "status" (pr_end r) else "missing".

Definition parse_protocol_output `{Digest} (text : string) : result ProtocolResult :=
  do* require (contains END_PREFIX text) (PyRuntimeError "A90P1 END marker not found") in
  match parse_a90p1_transcript None [] (InStr text) true with
  | Err (ObservationContractError _) => Err (PyRuntimeError "A90P1 strict framing rejected output")
  | Err e => Err e
  | Ok t =>
      match last (ts_frames t) with
      | Some f => Ok {| pr_begin := fr_begin f; pr_end := fr_end f; pr_text := text |}
      | None => Err (PyValueError "tuple index out of range")
      end
  end.

Definition validate_protocol_command (r : ProtocolResult) (command : list string) : result unit :=
  let expected := match command with name :: _ => name | [] => "" end in
  let actual := fget "cmd" (pr_end r) in
  require (negb (negb (expected =? "") && negb (actual =? "") && negb (actual =? expected)))
    (PyRuntimeError "A90P1 command mismatch").

Definition command_allows_retry (command : list string) : bool :=
  match command with name :: _ => elem_str name SAFE_RETRY_COMMANDS | [] => false end.

(** The subclasses of [OSError] *)
Definition is_oserror (e : pyexc) : bool :=
  match e with PyOSError _ | PyTimeoutError _ | SerialBridgeLockBusy _ => true | _ => false end.

(** ** The retry loop *)

Record run_opts := {
  rn_mode : string;
  rn_char_delay : Z;
  rn_min_budget : Z;
  rn_prompt_after_end : bool;
  rn_drain : Z;
  rn_allow_retry : bool
}.

Definition sleep_before_retry (deadline : Z) (st : net) : net :=
  let remaining := (deadline - now st)%Z in
  if (0 <? remaining)%Z then
    {| now := (now st + Z.min CMDV1_RETRY_INTERVAL remaining)%Z; rounds := rounds st; sent := sent st |}
  else st.

Definition markers_of (o : run_opts) : list string :=
  if rn_allow_retry o && noisy (rn_mode o)
  then [END_PREFIX; "[err] unknown command:"; PROMPT]
  else [END_PREFIX].

Definition exchange_of (o : run_opts) : exchange_opts :=
  {| xo_mode := rn_mode o; xo_char_delay := rn_char_delay o; xo_min_budget := rn_min_budget o;
     xo_read := {| ro_markers := markers_of o; ro_prompt_after_end := rn_prompt_after_end o;
                   ro_drain := rn_drain o |} |}.

(** What one answer of the bridge decides *)
Inductive verdict := Return (r : ProtocolResult) | Raise (e : pyexc) | Retry.

Definition return_or_raise (r : result ProtocolResult) : verdict :=
  match r with Ok p => Return p | Err e => Raise e end.

Definition judge `{Digest} (o : run_opts) (command : list string) (answer : result string) : verdict :=
  match answer with
  | Err e => if is_oserror e && rn_allow_retry o then Retry else Raise e
  | Ok text =>
      if contains END_PREFIX text then
        match parse_protocol_output text with
        | Err e => Raise e
        | Ok r =>
            match validate_protocol_command r command with
            | Ok _ => Return r
            | Err e => if rn_allow_retry o && noisy (rn_mode o) then Retry else Raise e
            end
        end
      else if contains BRIDGE_BUSY_TEXT text then
        if rn_allow_retry o then Retry
        else Raise (PyRuntimeError "bridge busy response received after unsafe command send")
      else if negb (rn_allow_retry o) then return_or_raise (parse_protocol_output text)
      else if negb (should_retry_cmdv1_exchange text (rn_mode o)) then
        return_or_raise (parse_protocol_output text)
      else Retry
  end.

(** [None] when the fuel runs out *)
Fixpoint run_loop `{Digest} (fuel : nat) (env : nat → session) (o : run_opts) (command : list string)
    (line : string) (deadline : Z) (st : net) : option (result ProtocolResult * net) :=
  match fuel with
  | O => None
  | S f =>
      if (now st <? deadline)%Z then
        let '(answer, st) :=
          bridge_exchange (env (rounds st)) (exchange_of o) (deadline - now st)%Z line st in
        match judge o command answer with
        | Return r => Some (Ok r, st)
        | Raise e => Some (Err e, st)
        | Retry => run_loop f env o command line deadline (sleep_before_retry deadline st)
        end
      else Some (Err (PyRuntimeError "A90P1 END marker not found before timeout"), st)
  end.

Definition run_fuel (timeout : Z) : nat := S (S (Z.to_nat (timeout / CMDV1_RETRY_INTERVAL))).

Definition run_cmdv1_command `{Digest} (fuel : nat) (env : nat → session) (o : run_opts)
    (timeout : Z) (command : list string) (st : net) : option (result ProtocolResult * net) :=
  match encode_cmdv1_line command with
  | Err e => Some (Err e, st)
  | Ok line => run_loop fuel env o command line (now st + timeout)%Z st
  end.

(** [allow_retry = retry_unsafe or command_allows_retry(command)] *)
Definition options (env_mode input_mode : option string) (char_delay min_budget drain_us : Z)
    (prompt_after_end retry_unsafe : bool) (command : list string) : run_opts :=
  {| rn_mode := select_mode env_mode input_mode; rn_char_delay := char_delay;
     rn_min_budget := min_budget; rn_prompt_after_end := prompt_after_end; rn_drain := drain_us;
     rn_allow_retry := retry_unsafe || command_allows_retry command |}.
