(* ===== verification/A90CtlProps.v ===== *)
(** * What one command over the bridge guarantees *)

From stdpp Require Import base list strings.
From Stdlib Require Import ZArith NArith Lia Ascii.
From S2P Require Import Prelude PyStr Json Digest Bytes A90Contract PyText A90Frames A90FramesTheory A90FramesProps A90Ctl.
Open Scope string_scope.

(** ** The wire line *)

(** What the device reads back from a line: the arguments, split at the spaces,
    or each as [length:hex]. *)
Definition hex_val (c : ascii) : option nat :=
  let n := nat_of_ascii c in
  if is_digit c then Some (n - 48)%nat
  else if char_between "a" "f" c then Some (n - 87)%nat else None.

Fixpoint unhex (s : string) : option string :=
  match s with
  | "" => Some ""
  | String a (String b s') =>
      match hex_val a, hex_val b, unhex s' with
      | Some x, Some y, Some r => Some (String (ascii_of_nat (16 * x + y)) r)
      | _, _, _ => None
      end
  | _ => None
  end.

Definition decode_arg (token : string) : option string :=
  match split_once ":" token with
  | Some (n, h) =>
      match unhex h with
      | Some s => if n =? str_of_nat (String.length s) then Some s else None
      | None => None
      end
  | None => None
  end.

Definition decode_line (line : string) : option (list string) :=
  if startswith "cmdv1 " line then Some (split_on space (after "cmdv1 " line))
  else if startswith "cmdv1x " line then mapM (M:=option) decode_arg (split_on space (after "cmdv1x " line))
  else None.

Lemma hex_val_digit n : (n < 16)%nat → hex_val (hex_digit_of n) = Some n.
Proof. intros H. do 16 (destruct n as [|n]; [reflexivity|]). lia. Qed.

Lemma unhex_hex s : unhex (hex_of s) = Some s.
Proof.
  induction s as [|c s IH]; [done|]. cbn [hex_of unhex]. pose proof (nat_ascii_bounded c) as Hb.
  rewrite !hex_val_digit, IH; [|apply Nat.mod_upper_bound; lia|apply Nat.Div0.div_lt_upper_bound; lia].
  by rewrite <- Nat.div_mod_eq, ascii_nat_embedding.
Qed.

Lemma digits_no_colon s : all_chars is_digit s = true → count_char ":" s = 0%nat ∧ count_char space s = 0%nat.
Proof.
  induction s as [|c s IH]; simpl; [done|]. intros [Hc Hs]%andb_true_iff.
  destruct (IH Hs) as [-> ->]. destruct c as [[] [] [] [] [] [] [] []]; by vm_compute in Hc.
Qed.

Lemma hex_no_space s : count_char space (hex_of s) = 0%nat.
Proof.
  induction s as [|c s IH]; [done|]. cbn [hex_of count_char]. rewrite IH.
  assert (Hd : ∀ n, (n < 16)%nat → (hex_digit_of n =? space)%char = false).
  { intros n Hn. do 16 (destruct n as [|n]; [reflexivity|]). lia. }
  pose proof (nat_ascii_bounded c). rewrite !Hd; [done|apply Nat.mod_upper_bound; lia|].
  apply Nat.Div0.div_lt_upper_bound; lia.
Qed.

Lemma encode_arg_Ok a t :
  encode_cmdv1x_arg a = Ok t → t = str_of_nat (String.length a) ++ ":" ++ hex_of a.
Proof.
  unfold encode_cmdv1x_arg. rewrite rbind_unit. intros [_ H].
  destruct (utf8_ok a); [by injection H as <-|done].
Qed.

Lemma decode_encode_arg a t :
  encode_cmdv1x_arg a = Ok t → decode_arg t = Some a ∧ count_char space t = 0%nat.
Proof.
  intros ->%encode_arg_Ok. destruct (digits_no_colon _ (str_of_nat_digits (String.length a))) as [Hc Hs].
  unfold decode_arg. change (":" ++ hex_of a) with (String ":" (hex_of a)).
  rewrite split_once_app, unhex_hex, String.eqb_refl by done.
  by rewrite count_char_app, Hs; simpl; rewrite hex_no_space.
Qed.

Lemma mapM_encode_args args ts :
  map_result encode_cmdv1x_arg args = Ok ts →
  mapM (M:=option) decode_arg ts = Some args ∧ Forall (λ t, count_char space t = 0%nat) ts
  ∧ length ts = length args.
Proof.
  revert ts. induction args as [|a args IH]; intros ts; simpl; [by intros [= <-]|].
  intros (t & Ht & H)%rbind_Ok. apply rbind_Ok in H as (us & Hus & [= <-]).
  apply decode_encode_arg in Ht as [Ht Hs]. destruct (IH _ Hus) as (H1 & H2 & H3).
  split_and!; [|by constructor|simpl; lia]. simpl. by rewrite Ht, H1.
Qed.

Lemma after_app p s : after p (p ++ s) = s.
Proof.
  unfold after. rewrite str_length_app. replace (_ + _ - _)%nat with (String.length s) by lia.
  apply substring_app.
Qed.

Lemma has_space_count s : has_space s = false → count_char space s = 0%nat.
Proof.
  induction s as [|c s IH]; [done|]. cbn [has_space count_char]. intros [H1 H2]%orb_false_iff.
  rewrite IH by done. destruct (Ascii.eqb_spec c space) as [->|]; [done|done].
Qed.

Lemma decode_encode command line :
  encode_cmdv1_line command = Ok line → decode_line line = Some command.
Proof.
  unfold encode_cmdv1_line. destruct command as [|name args] eqn:E; [done|]. rewrite <- E.
  rewrite !rbind_unit. intros (_ & _ & H). destruct (forallb _ command) eqn:Hl.
  - assert (line = "cmdv1 " ++ String.concat " " command) as -> by congruence.
    unfold decode_line, startswith. rewrite prefix_app, after_app.
    change " " with (String space ""). rewrite split_on_concat; [done|by rewrite E|].
    apply List.Forall_forall. intros a Ha. rewrite forallb_forall in Hl. specialize (Hl a Ha).
    unfold can_use_legacy_cmdv1_arg in Hl. bsimp. by apply has_space_count.
  - apply rbind_Ok in H as (ts & Hts & H).
    assert (line = "cmdv1x " ++ String.concat " " ts) as -> by congruence. destruct (mapM_encode_args _ _ Hts) as (H1 & H2 & H3).
    unfold decode_line, startswith. rewrite prefix_app, after_app.
    change (String.prefix "cmdv1 " ("cmdv1x " ++ _)) with false. cbv iota.
    change " " with (String space ""). rewrite split_on_concat; [done| |done].
    intros ->. by rewrite E in H3.
Qed.

(** No byte that ends a line or a C string *)
Definition is_line_char (c : ascii) : bool :=
  negb (c =? newline)%char && negb (c =? cr)%char && negb (c =? nul)%char.
Definition one_line (s : string) : bool := all_chars is_line_char s.

Lemma one_line_concat l :
  Forall (λ s, one_line s = true) l → one_line (String.concat " " l) = true.
Proof.
  induction 1 as [|s l Hs Hl IH]; [done|]. destruct l as [|t l]; [done|].
  change (String.concat " " (s :: t :: l)) with (s ++ " " ++ String.concat " " (t :: l)).
  unfold one_line in *. by rewrite !all_chars_app, Hs, IH.
Qed.

Lemma all_chars_weaken (p q : ascii → bool) s :
  (∀ c, p c = true → q c = true) → all_chars p s = true → all_chars q s = true.
Proof.
  intros H. induction s as [|c s IH]; simpl; [done|].
  intros [Hc Hs]%andb_true_iff. by rewrite H, IH.
Qed.

Lemma one_line_hex s : one_line (hex_of s) = true.
Proof.
  induction s as [|c s IH]; [done|]. unfold one_line in *. cbn [hex_of all_chars]. rewrite IH.
  assert (Hd : ∀ n, (n < 16)%nat → is_line_char (hex_digit_of n) = true).
  { intros n Hn. do 16 (destruct n as [|n]; [reflexivity|]). lia. }
  pose proof (nat_ascii_bounded c). rewrite !Hd; [done|apply Nat.mod_upper_bound; lia|].
  apply Nat.Div0.div_lt_upper_bound; lia.
Qed.

Lemma one_line_arg a :
  has_space a = false → contains (String nul "") a = false → one_line a = true.
Proof.
  induction a as [|c a IH]; [done|]. cbn [has_space contains].
  intros [H1 H2]%orb_false_iff [H3 H4]%orb_false_iff. unfold one_line in *. cbn [all_chars].
  rewrite IH, andb_true_r by done. cbn [starts_space] in H1. apply orb_false_iff in H1 as [H1 _].
  unfold is_line_char. destruct (Ascii.eqb_spec c newline) as [->|]; [done|].
  destruct (Ascii.eqb_spec c cr) as [->|]; [done|].
  destruct (Ascii.eqb_spec c nul) as [->|]; [|done]. by rewrite (prefix_app (String nul "") a : String.prefix _ (String nul a) = true) in H3.
Qed.

(** A command is encoded only to a single line, with no line end or NUL that
    would start another command, and the device's reading of that line gives the
    argument list back: no two commands share a line. *)
Theorem command_line_exact command line :
  encode_cmdv1_line command = Ok line →
  one_line line = true ∧ decode_line line = Some command ∧
  ∃ name args, command = name :: args ∧ command_name_re name = true.
Proof.
  intros H. split_and!; [|by apply decode_encode|].
  - unfold encode_cmdv1_line in H. destruct command as [|name args] eqn:E; [done|].
    rewrite <- E in H. rewrite !rbind_unit in H. destruct H as (_ & Hn & H).
    apply require_Ok, negb_true_iff in Hn. destruct (forallb _ command) eqn:Hl.
    + assert (line = "cmdv1 " ++ String.concat " " command) as -> by congruence.
      unfold one_line. rewrite all_chars_app. apply one_line_concat.
      apply List.Forall_forall. intros a Ha. rewrite forallb_forall in Hl. specialize (Hl a Ha).
      unfold can_use_legacy_cmdv1_arg in Hl. bsimp. apply one_line_arg; [done|].
      apply not_true_iff_false. intros Hc. rewrite <- not_true_iff_false, existsb_exists in Hn.
      apply Hn. by exists a.
    + apply rbind_Ok in H as (ts & Hts & H).
      assert (line = "cmdv1x " ++ String.concat " " ts) as -> by congruence.
      unfold one_line. rewrite all_chars_app. apply one_line_concat. clear -Hts.
      revert ts Hts. induction command as [|a args IH]; simpl; intros ts; [by intros [= <-]|].
      intros (t & Ht & H)%rbind_Ok. apply rbind_Ok in H as (us & Hus & [= <-]).
      constructor; [|by apply IH]. apply encode_arg_Ok in Ht as ->.
      unfold one_line. rewrite !all_chars_app, one_line_hex, andb_true_r.
      apply (all_chars_weaken is_digit); [|apply str_of_nat_digits].
      intros c. by destruct c as [[] [] [] [] [] [] [] []]; vm_compute.
  - unfold encode_cmdv1_line in H. destruct command as [|name args]; [done|].
    apply rbind_unit in H as [H _]. apply require_Ok in H. bsimp. by exists name, args.
Qed.

(** ** Time *)

(** The clock of the environment does not run backwards. *)
Record session_ok (s : session) : Prop := {
  so_lock : (0 <= ss_lock_cost s)%Z;
  so_connect : (0 <= (ss_connect s).1)%Z;
  so_char : ∀ i, (0 <= (ss_char s i).1)%Z;
  so_send : (0 <= (ss_send s).1)%Z;
  so_recv : Forall (λ e, 0 <= e.1)%Z (ss_recv s)
}.

Lemma drain_time o t evs data t' r :
  Forall (λ e, 0 <= e.1)%Z evs → drain o t evs data = (t', r) → (t <= t')%Z.
Proof.
  intros He. unfold drain. destruct (Z.ltb_spec 0 (ro_drain o)); [|intros [= <- _]; lia].
  destruct He as [|[dt []] evs Hdt _]; intros [= <- _]; simpl in *; unfold READ_TIMEOUT; lia.
Qed.

(** The time-outs end past the deadline, by less than one. *)
Lemma timeouts_until_spec stop t : (t < stop)%Z → (stop <= timeouts_until stop t < stop + READ_TIMEOUT)%Z.
Proof.
  unfold timeouts_until, READ_TIMEOUT. intros Hlt.
  pose proof (Z.div_mod (stop - t + 250000 - 1) 250000 ltac:(lia)).
  pose proof (Z.mod_pos_bound (stop - t + 250000 - 1) 250000 ltac:(lia)). lia.
Qed.

Lemma read_until_time o deadline evs : ∀ t data t' r,
  Forall (λ e, 0 <= e.1)%Z evs → read_until o deadline t evs data = (t', r) → (t <= t')%Z.
Proof.
  induction evs as [|[dt ev] evs IH]; intros t data t' r He; simpl;
    (destruct (Z.ltb_spec t deadline); [|intros [= <- _]; lia]).
  - intros [= <- _]. pose proof (timeouts_until_spec deadline t). lia.
  - inversion He as [|? ? Hdt He']; subst; simpl in *. destruct ev as [|s|].
    + intros H1%IH; [lia|done].
    + destruct (s =? ""); [intros [= <- _]; lia|]. destruct read_complete.
      * intros H1%drain_time; [lia|done].
      * intros H1%IH; [lia|done].
    + intros [= <- _]. lia.
Qed.

Lemma lock_poll_enough fuel : ∀ free deadline t,
  (deadline - t <= (Z.of_nat fuel - 1) * LOCK_POLL_INTERVAL)%Z → (0 < fuel)%nat →
  ∃ t' b, lock_poll fuel free deadline t = Some (t', b) ∧ (t <= t')%Z.
Proof.
  unfold LOCK_POLL_INTERVAL. induction fuel as [|fuel IH]; intros free deadline t Hf Hp; [lia|].
  cbn [lock_poll]. case_match; [by exists t, true|].
  destruct (Z.leb_spec deadline t); [by exists t, false|].
  unfold LOCK_POLL_INTERVAL.
  destruct (IH free deadline (t + 50000)%Z) as (t' & b & -> & Ht); [lia| |].
  { destruct fuel; lia. }
  exists t', b. split; [done|lia].
Qed.

Lemma lock_fuel_enough free timeout t :
  ∃ t' b, lock_poll (lock_fuel timeout) free (t + timeout) t = Some (t', b) ∧ (t <= t')%Z.
Proof.
  apply lock_poll_enough; [|unfold lock_fuel; lia]. unfold lock_fuel, LOCK_POLL_INTERVAL.
  destruct (Z.le_gt_cases 0 timeout) as [H|H].
  - pose proof (Z.div_mod timeout 50000 ltac:(lia)). pose proof (Z.mod_pos_bound timeout 50000 ltac:(lia)).
    rewrite !Nat2Z.inj_succ, Z2Nat.id by (apply Z.div_pos; lia). lia.
  - lia.
Qed.

Lemma prefix_refl s : String.prefix s s = true.
Proof. rewrite <- (str_app_nil s) at 2. apply prefix_app. Qed.
Lemma prefix_trans a b c : String.prefix a b = true → String.prefix b c = true → String.prefix a c = true.
Proof. intros [x ->]%prefix_exists [y ->]%prefix_exists. rewrite <- str_app_assoc. apply prefix_app. Qed.
Lemma stake_prefix n s : String.prefix (stake n s) s = true.
Proof. rewrite <- (stake_sdrop n s) at 2. apply prefix_app. Qed.

(** What is written is the beginning of the line, at most once. *)
Lemma paced_send_prefix s deadline delay budget cs : ∀ t i t' w r,
  session_ok s → (0 <= delay)%Z → paced_send s deadline delay budget t i cs = (t', w, r) →
  (t <= t')%Z ∧ String.prefix w (String.concat "" cs) = true.
Proof.
  induction cs as [|c cs IH]; intros t i t' w r Hs Hd; simpl; [by intros [= <- <- _]|].
  destruct (_ <? _)%Z; [intros [= <- <- _]; split; [lia|by destruct (match cs with [] => _ | _ => _ end)]|].
  pose proof (so_char _ Hs i) as Hi. destruct (ss_char s i) as [dt [k|]]; cbn [fst] in Hi.
  { intros [= <- <- _]. split; [lia|]. apply prefix_trans with c; [apply stake_prefix|].
    destruct cs; [apply prefix_refl|]. simpl. apply prefix_app. }
  destruct paced_send as [[t2 rest] r2] eqn:E. intros [= <- <- <-].
  apply IH in E as [Ht Hp]; [|done|done]. split; [lia|].
  assert (Hc : (match cs with [] => c | _ :: _ => c ++ String.concat "" cs end)
               = c ++ String.concat "" cs).
  { destruct cs; [by rewrite str_app_nil|done]. }
  rewrite Hc. apply prefix_exists in Hp as [z ->]. rewrite str_app_assoc. apply prefix_app.
Qed.

Lemma send_line_prefix s o deadline t payload t' w r :
  session_ok s → send_line s o deadline t payload = (t', w, r) →
  (t <= t')%Z ∧ String.prefix w payload = true.
Proof.
  intros Hs. unfold send_line. destruct (xo_mode o =? "slow").
  - destruct (Z.leb_spec 0 (xo_char_delay o)); simpl; [|intros [= <- <- _]; split; [lia|by destruct payload]].
    destruct (_ <=? _)%Z; simpl; [|intros [= <- <- _]; split; [lia|by destruct payload]].
    destruct (_ <? _)%Z; [intros [= <- <- _]; split; [lia|by destruct payload]|].
    intros E%paced_send_prefix; [|done|done]. by rewrite concat_chars in E.
  - destruct (_ <? _)%Z; [intros [= <- <- _]; split; [lia|by destruct payload]|].
    pose proof (so_send _ Hs) as Hsend. destruct (ss_send s) as [dt [k|]]; cbn [fst] in Hsend; intros [= <- <- _];
      (split; [lia|]); [apply stake_prefix|apply prefix_refl].
Qed.

(** ** One exchange and the loop *)

(** The bytes the exchange writes for a line *)
Definition payload_of (mode line : string) : string :=
  match encode_wire_line line mode with
  | Ok w => (if noisy mode then "" else nl) ++ w ++ nl
  | Err _ => ""
  end.

(** [st'] is later than [st], and at most one more beginning of [p] was written. *)
Definition at_most_one_write (p : string) (st st' : net) : Prop :=
  (now st <= now st')%Z ∧
  ∃ ws, sent st' = (sent st ++ ws)%list ∧ Forall (λ w, String.prefix w p = true) ws ∧ (length ws ≤ 1)%nat.

Lemma wrote_at_most p st t w :
  (now st <= t)%Z → String.prefix w p = true → at_most_one_write p st (wrote st t w).
Proof.
  intros Ht Hw. split; [done|]. simpl. destruct (w =? "").
  - exists []. rewrite app_nil_r. by split_and!; [|constructor|simpl; lia].
  - exists [w]. by split_and!; [|repeat constructor|simpl; lia].
Qed.

Lemma exchange_writes s o timeout line st ans st' :
  session_ok s → bridge_exchange s o timeout line st = (ans, st') →
  at_most_one_write (payload_of (xo_mode o) line) st st'.
Proof.
  intros Hs. unfold bridge_exchange, payload_of.
  assert (Hsame : ∀ p, at_most_one_write p st st).
  { intros p. split; [lia|]. exists []. rewrite app_nil_r. by split_and!; [|constructor|simpl; lia]. }
  destruct encode_wire_line as [w|]; [|by intros [= _ <-]].
  destruct (_ || _)%bool; [by intros [= _ <-]|]. unfold exchange_locked.
  destruct (lock_fuel_enough (ss_lock_free s) timeout (now st)) as (t & b & -> & Ht).
  change (elem_str (xo_mode o) ["double"; "slow"]) with (noisy (xo_mode o)).
  set (p := (if noisy (xo_mode o) then "" else nl) ++ w ++ nl).
  assert (Hnil : String.prefix "" p = true) by by destruct p.
  destruct b; [|intros [= _ <-]; by apply wrote_at_most].
  pose proof (so_lock _ Hs). destruct (_ <=? 0)%Z; [intros [= _ <-]; apply wrote_at_most; [lia|done]|].
  pose proof (so_connect _ Hs) as Hc. destruct (ss_connect s) as [dt []]; cbn [fst] in Hc;
    [|intros [= _ <-]; apply wrote_at_most; [lia|done]].
  destruct send_line as [[t2 wr] r] eqn:E.
  apply send_line_prefix in E as [Ht2 Hp]; [|done].
  destruct r; [|intros [= _ <-]; apply wrote_at_most; [lia|done]].
  destruct read_until as [t3 data] eqn:E2. apply read_until_time in E2; [|apply Hs].
  intros [= _ <-]. apply wrote_at_most; [lia|done].
Qed.

(** *** How late an exchange can end *)

(** What one session may cost: the lock's metadata, the connection, one write to the
    socket and one read from it, each with its own time-out *)
Record costs := { co_lock : Z; co_connect : Z; co_write : Z; co_read : Z }.
Record session_within (c : costs) (s : session) : Prop := {
  sw_lock : (ss_lock_cost s <= co_lock c)%Z;
  sw_connect : ((ss_connect s).1 <= co_connect c)%Z;
  sw_char : ∀ i, ((ss_char s i).1 <= co_write c)%Z;
  sw_send : ((ss_send s).1 <= co_write c)%Z;
  sw_recv : Forall (λ e, e.1 <= co_read c)%Z (ss_recv s);
  sw_signs : (0 <= co_lock c ∧ 0 <= co_connect c ∧ 0 <= co_write c ∧ READ_TIMEOUT <= co_read c)%Z
}.
(** One poll of the lock, one of each of these, the shortest reading, and a last read
    after the drain *)
Definition overhang (c : costs) (drain_us : Z) : Z :=
  (LOCK_POLL_INTERVAL + co_lock c + co_connect c + co_write c + 100000 + 2 * co_read c + Z.max 0 drain_us)%Z.

Lemma overhang_pos c s d : session_within c s → (0 <= overhang c d)%Z.
Proof. intros Hs. pose proof (sw_signs _ _ Hs). assert (0 < LOCK_POLL_INTERVAL)%Z by done. unfold overhang, READ_TIMEOUT in *. lia. Qed.

Lemma read_until_late c o stop evs : ∀ t data t' r,
  Forall (λ e, 0 <= e.1)%Z evs → Forall (λ e, e.1 <= co_read c)%Z evs → (READ_TIMEOUT <= co_read c)%Z →
  read_until o stop t evs data = (t', r) →
  (t' <= Z.max t (stop + 2 * co_read c + Z.max 0 (ro_drain o)))%Z.
Proof.
  assert (Hr : (0 < READ_TIMEOUT)%Z) by done.
  induction evs as [|[dt ev] evs IH]; intros t data t' r Hp Hw Hc; cbn [read_until];
    (destruct (Z.ltb_spec t stop); [|intros [= <- _]; lia]).
  - intros [= <- _]. pose proof (timeouts_until_spec stop t). lia.
  - apply Forall_cons in Hp as [Hp Hps]. apply Forall_cons in Hw as [Hw Hws]. cbn [fst] in *. cbv zeta.
    destruct ev as [|d|].
    + intros Hl%IH; [lia|done..].
    + destruct (d =? ""); [intros [= <- _]; lia|]. destruct (read_complete _ _); [|intros Hl%IH; [lia|done..]].
      unfold drain. destruct (Z.ltb_spec 0 (ro_drain o)); [|intros [= <- _]; lia].
      destruct Hws as [|[dt2 []] evs Hw2 _]; intros [= <- _]; cbn [fst] in *; lia.
    + intros [= <- _]. lia.
Qed.

Lemma lock_poll_late fuel : ∀ free deadline t t' b,
  lock_poll fuel free deadline t = Some (t', b) → (t' <= Z.max t (deadline + LOCK_POLL_INTERVAL))%Z.
Proof.
  unfold LOCK_POLL_INTERVAL. induction fuel as [|fuel IH]; intros free deadline t t' b; [done|]. cbn [lock_poll].
  case_match; [intros [= <- _]; lia|]. destruct (Z.leb_spec deadline t); [intros [= <- _]; lia|].
  intros Hl%IH. unfold LOCK_POLL_INTERVAL in Hl. lia.
Qed.

Lemma paced_send_late c s deadline delay budget cs : ∀ t i t' w r,
  session_within c s → (0 <= delay)%Z → (0 <= budget)%Z →
  paced_send s deadline delay budget t i cs = (t', w, r) → (t' <= Z.max t (deadline + co_write c))%Z.
Proof.
  induction cs as [|ch cs IH]; intros t i t' w r Hs Hd Hb; cbn [paced_send]; [intros [= <- _ _]; lia|].
  destruct (Z.ltb_spec (deadline - t) (Z.of_nat (length (ch :: cs)) * delay + budget)) as [|Hroom]; [intros [= <- _ _]; lia|].
  pose proof (sw_char _ _ Hs i) as Hi. destruct (ss_char s i) as [dt [k|]]; cbn [fst] in Hi; cbn [length] in Hroom.
  { intros [= <- _ _]. nia. }
  destruct (paced_send _ _ _ _ _ _ _) as [[t2 rest] r2] eqn:E. intros [= <- _ _].
  apply IH in E; [|done..]. nia.
Qed.

Lemma send_line_late c s o deadline t payload t' w r :
  session_within c s → (0 <= xo_min_budget o)%Z → send_line s o deadline t payload = (t', w, r) →
  (t' <= Z.max t (deadline + co_write c))%Z.
Proof.
  intros Hs Hb. unfold send_line. destruct (xo_mode o =? "slow").
  - destruct (Z.leb_spec 0 (xo_char_delay o)); cbn [negb andb]; [|intros [= <- _ _]; lia].
    destruct (_ <=? _)%Z; cbn [negb]; [|intros [= <- _ _]; lia].
    destruct (_ <? _)%Z; [intros [= <- _ _]; lia|]. by apply paced_send_late.
  - destruct (Z.ltb_spec (deadline - t) (xo_min_budget o)); [intros [= <- _ _]; lia|].
    pose proof (sw_send _ _ Hs) as Hw. destruct (ss_send s) as [dt [k|]]; intros [= <- _ _]; cbn [fst] in Hw; lia.
Qed.

Lemma exchange_late c s o timeout line st ans st' :
  session_ok s → session_within c s → (0 <= timeout)%Z →
  bridge_exchange s o timeout line st = (ans, st') →
  (now st' <= now st + timeout + overhang c (ro_drain (xo_read o)))%Z.
Proof.
  intros Hs Hw Ht. pose proof (sw_signs _ _ Hw) as (S1 & S2 & S3 & S4). pose proof (so_lock _ Hs) as L0.
  pose proof (sw_lock _ _ Hw) as L1. assert (Hrt : (0 < READ_TIMEOUT)%Z) by done. assert (Hp : (0 < LOCK_POLL_INTERVAL)%Z) by done. unfold overhang.
  unfold bridge_exchange. destruct encode_wire_line as [l|]; [|intros [= _ <-]; lia].
  destruct (Z.ltb_spec (xo_min_budget o) 0) as [|Hb]; cbn [orb]; [intros [= _ <-]; lia|].
  destruct (_ <? _)%Z; [intros [= _ <-]; lia|]. unfold exchange_locked.
  destruct (lock_poll _ _ _ _) as [[t []]|] eqn:El; [| |intros [= _ <-]; lia]; apply lock_poll_late in El;
    [|intros [= _ <-]; cbn [now wrote]; lia].
  destruct (Z.leb_spec (now st + timeout - (t + ss_lock_cost s)) 0); [intros [= _ <-]; cbn [now wrote]; lia|].
  pose proof (sw_connect _ _ Hw) as Hc. destruct (ss_connect s) as [dt []]; cbn [fst] in Hc; [|intros [= _ <-]; cbn [now wrote]; lia].
  destruct (send_line _ _ _ _ _) as [[t2 wr] r] eqn:Es. apply (send_line_late c) in Es; [|done..].
  destruct r; [|intros [= _ <-]; cbn [now wrote]; lia].
  destruct (read_until _ _ _ _ _) as [t3 data] eqn:Er.
  apply (read_until_late c) in Er; [|apply Hs|apply Hw|done]. intros [= _ <-]. cbn [now wrote]. lia.
Qed.

Lemma judge_retry `{Digest} o command ans : judge o command ans = Retry → rn_allow_retry o = true.
Proof.
  unfold judge, return_or_raise. destruct (rn_allow_retry o); [done|]. cbn [negb andb].
  destruct ans as [text|e]; [|by rewrite andb_false_r].
  destruct contains; [destruct parse_protocol_output; [by destruct validate_protocol_command|done]|].
  destruct contains; [done|]. by destruct parse_protocol_output.
Qed.

Lemma sleep_time deadline st :
  sent (sleep_before_retry deadline st) = sent st ∧
  ((deadline <= now (sleep_before_retry deadline st))%Z
   ∨ (now st + CMDV1_RETRY_INTERVAL <= now (sleep_before_retry deadline st))%Z).
Proof.
  unfold sleep_before_retry, CMDV1_RETRY_INTERVAL. destruct (Z.ltb_spec 0 (deadline - now st)); simpl.
  - split; [done|]. destruct (Z.min_spec 500000 (deadline - now st)) as [[_ ->]|[_ ->]]; lia.
  - split; [done|]. lia.
Qed.

(** The loop ends by itself: a retry costs the retry interval. *)
Lemma run_loop_ends `{Digest} fuel env o command line deadline : ∀ st,
  (∀ n, session_ok (env n)) → (0 < fuel)%nat →
  (deadline - now st <= (Z.of_nat fuel - 1) * CMDV1_RETRY_INTERVAL)%Z →
  is_Some (run_loop fuel env o command line deadline st).
Proof.
  unfold CMDV1_RETRY_INTERVAL. induction fuel as [|fuel IH]; intros st Henv Hp Hf; [lia|].
  cbn [run_loop]. destruct (Z.ltb_spec (now st) deadline); [|by eexists].
  destruct bridge_exchange as [ans st1] eqn:E.
  apply exchange_writes in E as [Ht _]; [|done].
  destruct judge; [by eexists|by eexists|].
  destruct (sleep_time deadline st1) as [_ Hn]. unfold CMDV1_RETRY_INTERVAL in Hn.
  apply IH; [done|lia|lia].
Qed.

(** The loop begins no exchange after its deadline. *)
Lemma run_loop_late `{Digest} c fuel env o command line deadline : ∀ st res st',
  (∀ n, session_ok (env n)) → (∀ n, session_within c (env n)) →
  run_loop fuel env o command line deadline st = Some (res, st') →
  (now st' <= Z.max (now st) (deadline + overhang c (rn_drain o)))%Z.
Proof.
  assert (Hp : (0 < LOCK_POLL_INTERVAL)%Z) by done. assert (Hrt : (0 < READ_TIMEOUT)%Z) by done.
  induction fuel as [|fuel IH]; intros st res st' Henv Hw; [done|]. cbn [run_loop].
  destruct (Z.ltb_spec (now st) deadline) as [Hlt|]; [|intros [= _ <-]; lia].
  destruct bridge_exchange as [ans st1] eqn:E.
  apply (exchange_late c) in E; [|done..|lia]. cbn [ro_drain xo_read exchange_of] in E.
  destruct judge; [intros [= _ <-]; lia|intros [= _ <-]; lia|]. intros Hl%IH; [|done..].
  pose proof (sw_signs _ _ (Hw 0%nat)). revert Hl. unfold sleep_before_retry, overhang in *.
  destruct (Z.ltb_spec 0 (deadline - now st1)); cbn [now]; lia.
Qed.

(** The writes of the loop *)
Lemma run_loop_writes `{Digest} fuel env o command line deadline : ∀ st res st',
  (∀ n, session_ok (env n)) →
  run_loop fuel env o command line deadline st = Some (res, st') →
  ∃ ws, sent st' = (sent st ++ ws)%list ∧
    Forall (λ w, String.prefix w (payload_of (rn_mode o) line) = true) ws ∧
    (rn_allow_retry o = false → (length ws ≤ 1)%nat) ∧
    (ws = [] ∨ (Z.of_nat (length ws) - 1) * CMDV1_RETRY_INTERVAL < deadline - now st)%Z.
Proof.
  unfold CMDV1_RETRY_INTERVAL. induction fuel as [|fuel IH]; intros st res st' Henv; [done|].
  cbn [run_loop]. destruct (Z.ltb_spec (now st) deadline) as [Hlt|];
    [|intros [= _ <-]; exists []; rewrite app_nil_r; split_and!; [done|constructor|simpl; lia|by left]].
  destruct bridge_exchange as [ans st1] eqn:E.
  apply exchange_writes in E as (Ht & ws & Hws & Hpre & Hle); [|done].
  assert (Hdone : ∃ ws0, sent st1 = (sent st ++ ws0)%list ∧
    Forall (λ w, String.prefix w (payload_of (rn_mode o) line) = true) ws0 ∧
    (rn_allow_retry o = false → (length ws0 ≤ 1)%nat) ∧
    (ws0 = [] ∨ (Z.of_nat (length ws0) - 1) * 500000 < deadline - now st)%Z).
  { exists ws. split_and!; [done|done|done|]. right. lia. }
  destruct judge eqn:Ej; [by intros [= _ <-]|by intros [= _ <-]|].
  destruct (sleep_time deadline st1) as [Hsent Hn]. unfold CMDV1_RETRY_INTERVAL in Hn.
  intros (ws' & Hws' & Hpre' & _ & Hb)%IH; [|done].
  exists (ws ++ ws')%list. rewrite Hws', Hsent, Hws, <- app_assoc. split_and!; [done| | |].
  - by apply Forall_app.
  - apply judge_retry in Ej. by rewrite Ej.
  - right. rewrite length_app. destruct Hb as [->|Hb]; simpl; lia.
Qed.

(** C20. Running a command always ends, with its result or an exception.  Whatever the
    bridge, the lock and the clock do, only beginnings of the one encoded line are written
    to the device, at most once per half second of the time-out, and a command that may
    not be repeated is written at most once.  No exchange begins after the deadline, so
    that the command ends at most the [overhang] of one exchange after its time-out,
    whatever bounds the costs of its sessions have. *)
Theorem run_terminates_and_writes `{Digest} env o timeout command st :
  (∀ n, session_ok (env n)) → (0 <= timeout)%Z →
  ∃ res st', run_cmdv1_command (run_fuel timeout) env o timeout command st = Some (res, st') ∧
  (∃ ws, sent st' = (sent st ++ ws)%list ∧
    (∀ line, encode_cmdv1_line command = Ok line →
       Forall (λ w, String.prefix w (payload_of (rn_mode o) line) = true) ws) ∧
    (rn_allow_retry o = false → (length ws ≤ 1)%nat) ∧
    (ws = [] ∨ (Z.of_nat (length ws) - 1) * 500000 < timeout)%Z) ∧
  ∀ c, (∀ n, session_within c (env n)) → (now st' <= now st + timeout + overhang c (rn_drain o))%Z.
Proof.
  intros Henv Ht. unfold run_cmdv1_command. destruct (encode_cmdv1_line command) as [line|e].
  - edestruct (run_loop_ends (run_fuel timeout) env o command line (now st + timeout)%Z st Henv)
      as ([res st'] & Hr); [unfold run_fuel; lia| |].
    { unfold run_fuel, CMDV1_RETRY_INTERVAL.
      pose proof (Z.div_mod timeout 500000 ltac:(lia)).
      pose proof (Z.mod_pos_bound timeout 500000 ltac:(lia)).
      rewrite !Nat2Z.inj_succ, Z2Nat.id by (apply Z.div_pos; lia). lia. }
    exists res, st'. split; [done|]. split.
    + pose proof Hr as (ws & H1 & H2 & H3 & H4)%run_loop_writes; [|done].
      exists ws. unfold CMDV1_RETRY_INTERVAL in H4. split_and!; [done|by intros ? [= <-]|done|].
      destruct H4 as [->|H4]; [by left|right; lia].
    + intros c Hw. apply (run_loop_late c) in Hr; [|done..]. pose proof (overhang_pos c _ (rn_drain o) (Hw 0%nat)). lia.
  - exists (Err e), st. split; [done|]. split; [|intros c Hw; pose proof (overhang_pos c _ (rn_drain o) (Hw 0%nat)); lia].
    exists []. rewrite app_nil_r. split_and!; [done|done|simpl; lia|by left].
Qed.

(** ** The result *)

Lemma validated_command r name args :
  validate_protocol_command r (name :: args) = Ok tt → name ≠ "" → fget "cmd" (pr_end r) ≠ "" →
  fget "cmd" (pr_end r) = name.
Proof.
  unfold validate_protocol_command. rewrite require_Ok. intros H Hn Ha.
  destruct (String.eqb_spec name ""), (String.eqb_spec (fget "cmd" (pr_end r)) ""),
    (String.eqb_spec (fget "cmd" (pr_end r)) name); done.
Qed.

Lemma parse_protocol_frame `{Digest} text r :
  parse_protocol_output text = Ok r →
  ∃ t f, parse_a90p1_transcript None [] (InStr text) true = Ok t ∧ last (ts_frames t) = Some f ∧
    r = {| pr_begin := fr_begin f; pr_end := fr_end f; pr_text := text |} ∧ coherent None f.
Proof.
  unfold parse_protocol_output. rewrite rbind_unit. intros [_ Hp].
  destruct parse_a90p1_transcript as [t|[]] eqn:E; try done.
  destruct (last (ts_frames t)) as [f|] eqn:Ef; [|done]. injection Hp as <-.
  exists t, f. split_and!; try done.
  unfold parse_a90p1_transcript in E. apply rbind_Ok in E as (raw & _ & E).
  apply (frame_coherent _ _ _ _ _ _ E).
  apply last_snoc_inv in Ef as [fs ->]. apply in_app_iff. right. by left.
Qed.

(** A protocol result of this command *)
Definition own_result `{Digest} (command : list string) (r : ProtocolResult) : Prop :=
  ∃ name args t f, command = name :: args ∧
    parse_a90p1_transcript None [] (InStr (pr_text r)) true = Ok t ∧ last (ts_frames t) = Some f ∧
    pr_begin r = fr_begin f ∧ pr_end r = fr_end f ∧ fget "cmd" (pr_end r) = name ∧
    ∃ rc, pr_rc r = Ok rc ∧ (rc = 0%Z ↔ pr_status r = "ok").

Lemma own_of_valid `{Digest} name args text r :
  name ≠ "" → parse_protocol_output text = Ok r →
  validate_protocol_command r (name :: args) = Ok tt → own_result (name :: args) r.
Proof.
  intros Hn (t & f & Ht & Hl & -> & Hc)%parse_protocol_frame Hv.
  apply validated_command in Hv; [|done|].
  2: { pose proof (co_command _ _ Hc) as Hcmd. cbn. intros He. by rewrite He in Hcmd. }
  exists name, args, t, f. split_and!; try done.
  destruct (co_outcome _ _ Hc) as (seq & rc & errno & _ & _ & Hrc & _ & Ho).
  unfold pr_rc, pr_status. cbn [pr_end]. rewrite (co_end _ _ Hc). exists rc. split; [done|].
  change (elem_str "status" END_KEY_ORDER) with true. cbv iota. inversion Ho; split; intros; lia || done.
Qed.

Lemma judge_return `{Digest} o name args ans r :
  name ≠ "" → judge o (name :: args) ans = Return r → own_result (name :: args) r.
Proof.
  intros Hn. unfold judge, return_or_raise. destruct ans as [text|e]; [|by destruct (_ && _)%bool].
  destruct (contains END_PREFIX text) eqn:Ec.
  - destruct (parse_protocol_output text) as [p|] eqn:Ep; [|done].
    destruct validate_protocol_command as [[]|] eqn:Ev; [|by destruct (_ && _)%bool].
    intros [= <-]. by apply (own_of_valid _ _ text).
  - assert (Hp : ∃ e, parse_protocol_output text = Err e).
    { unfold parse_protocol_output. rewrite Ec. by eexists. }
    destruct Hp as [e ->]. cbn. repeat case_match; done.
Qed.

(** A result that is returned is the last complete frame of what the bridge
    sent, and it is the result of the issued command: its name is the one
    asked for, and its status is [ok] exactly when its code is zero. *)
Theorem result_is_own `{Digest} fuel env o timeout command st r st' :
  run_cmdv1_command fuel env o timeout command st = Some (Ok r, st') → own_result command r.
Proof.
  unfold run_cmdv1_command. destruct (encode_cmdv1_line command) as [line|] eqn:E; [|done].
  unfold encode_cmdv1_line in E. destruct command as [|name args]; [done|].
  apply rbind_unit in E as [E _]. apply require_Ok in E. bsimp.
  assert (Hn : name ≠ "") by by apply String.eqb_neq.
  generalize (now st + timeout)%Z as deadline. intros deadline. revert st.
  induction fuel as [|fuel IH]; intros st; [done|]. cbn [run_loop].
  destruct (_ <? _)%Z; [|done]. destruct bridge_exchange as [ans st1].
  destruct judge eqn:Ej; [|done|apply IH].
  intros [= <- _]. by apply judge_return in Ej.
Qed.
