(* ===== verification/A90Transport.v ===== *)
(** * Serial commands with recovery, and the choice of a transport

    [a90_transport.py].  The host side of the bridge (starting, restarting and
    probing it, the network interfaces and [nmcli]) is run in subprocesses and
    by [a90_ncm_transport.py]: its results are parameters.  A command over the
    bridge is the interface [SerialRunner], which [A90Ctl.run_cmdv1_command]
    implements.

    Recovery never repeats an unsafe command, and fast transports need a healthy
    device. *)

From stdpp Require Import base list strings.
From Stdlib Require Import ZArith Lia Ascii.
From S2P Require Import Prelude PyStr PyText Json Digest A90Contract A90Frames A90FramesProps A90Ctl A90CtlProps.
Open Scope string_scope.

(** The fields of a result dictionary the module reads *)
Record cmd_result := {
  cr_command : list string;
  cr_ok : bool;
  cr_rc : option Z;
  cr_stdout : string;
  cr_stderr : string
}.

(** ** Commands *)

(** Running one command writes beginnings of its line to the device; one that may
    not be repeated is written at most once. *)
Class SerialRunner := {
  serial_state : Type;
  written : serial_state → list string;
  line_of : list string → string;
  run_serial : list string → Z → bool → serial_state → cmd_result * serial_state;
  run_serial_writes : ∀ command timeout retry_unsafe st res st',
    (0 <= timeout)%Z →
    run_serial command timeout retry_unsafe st = (res, st') →
    ∃ ws, written st' = (written st ++ ws)%list ∧
      Forall (λ w, String.prefix w (line_of command) = true) ws ∧
      (retry_unsafe || command_allows_retry command = false → (length ws ≤ 1)%nat)
}.

(** [json.loads] aside, the output a result shows to the recovery *)
Definition serial_output (r : cmd_result) : string := cr_stdout r ++ nl ++ cr_stderr r.
Definition serial_needs_hide_on_busy (r : cmd_result) : bool := contains "[busy]" (serial_output r).
Definition serial_needs_hide_on_protocol_noise (r : cmd_result) : bool :=
  contains "A90P1 END marker not found" (serial_output r)
  || contains "A90P1 command mismatch" (serial_output r)
  || contains "cmdvATATAT" (serial_output r).
Definition serial_needs_bridge_ensure_on_missing (r : cmd_result) : bool :=
  contains BRIDGE_SERIAL_MISSING_TEXT (serial_output r).
Definition serial_command_can_recover (command : list string) (retry_unsafe : bool) : bool :=
  retry_unsafe || command_allows_retry command.

Inductive action := Hide | RetryCommand | BridgeRestart | BridgeEnsure.

Record recovery := {
  rv_attempts : nat;
  rv_recovered : bool;
  rv_reason : string;
  rv_actions : list action;
  rv_unsafe_retry : bool;
  rv_retry_allowed : bool;
  rv_skip_reason : option string
}.

Definition recovery_label (r : cmd_result) : string :=
  if serial_needs_hide_on_busy r then "busy"
  else if serial_needs_hide_on_protocol_noise r then "protocol-noise"
  else if serial_needs_bridge_ensure_on_missing r then "serial-missing"
  else "".

Section Recovered.
Context `{SerialRunner}.
(** Restarting and ensuring the bridge may change what the bridge does next. *)
Variable restart_bridge ensure_bridge : serial_state → serial_state.

Definition retried (rv : recovery) (actions : list action) (r : cmd_result) : recovery :=
  {| rv_attempts := 2; rv_recovered := cr_ok r; rv_reason := rv_reason rv; rv_actions := actions;
     rv_unsafe_retry := rv_unsafe_retry rv; rv_retry_allowed := rv_retry_allowed rv;
     rv_skip_reason := None |}.

Definition run_serial_command_recovered (command : list string) (timeout : Z) (retry_unsafe : bool)
    (st : serial_state) : cmd_result * recovery * serial_state :=
  let '(result, st) := run_serial command timeout retry_unsafe st in
  let allowed := serial_command_can_recover command retry_unsafe in
  let label := recovery_label result in
  let rv actions skip :=
    {| rv_attempts := 1; rv_recovered := false; rv_reason := label; rv_actions := actions;
       rv_unsafe_retry := retry_unsafe; rv_retry_allowed := allowed; rv_skip_reason := skip |} in
  let again actions st :=
    let '(result, st) := run_serial command timeout retry_unsafe st in
    (result, retried (rv [] None) actions result, st) in
  if label =? "" then (result, rv [] None, st)
  else if label =? "busy" then
    let '(_hide, st) := run_serial ["hide"] 20000000 false st in
    if negb allowed then (result, rv [Hide] (Some "unsafe-retry-not-allowed"), st)
    else again [Hide; RetryCommand] st
  else if negb allowed then (result, rv [] (Some "unsafe-retry-not-allowed"), st)
  else if label =? "protocol-noise" then again [BridgeRestart; RetryCommand] (restart_bridge st)
  else again [BridgeEnsure; RetryCommand] (ensure_bridge st).

(** [run_serial_step]; the step is then appended to the run's list *)
Definition run_serial_step (command : list string) (bridge_timeout : Z)
    (hide_on_busy retry_unsafe : bool) (st : serial_state) : cmd_result * option recovery * serial_state :=
  if hide_on_busy then
    let '(r, rv, st) := run_serial_command_recovered command bridge_timeout retry_unsafe st in
    (r, Some rv, st)
  else let '(r, st) := run_serial command bridge_timeout retry_unsafe st in (r, None, st).
End Recovered.

(** ** Status fields *)

(** [text.splitlines()]: the line boundaries of [str] *)
Definition line_break (s : string) : nat :=
  match s with
  | "" => 0
  | String c s1 =>
      if (c =? cr)%char then
        match s1 with String d _ => if (d =? newline)%char then 2 else 1 | "" => 1 end
      else if char_between "010" "012" c || char_between "028" "030" c then 1
      else match s1 with
           | String d s2 =>
               if (c =? "194")%char && (d =? "133")%char then 2
               else match s2 with
                    | String e _ =>
                        if (c =? "226")%char && (d =? "128")%char
                           && ((e =? "168")%char || (e =? "169")%char) then 3 else 0
                    | "" => 0
                    end
           | "" => 0
           end
  end%nat.

(** [skip] bytes of a line break are still to be dropped; [cur] is the open line. *)
Fixpoint splitlines_go (s cur : string) (opened : bool) (skip : nat) : list string :=
  match s with
  | "" => if opened then [cur] else []
  | String c s' =>
      match skip with
      | S k => splitlines_go s' cur opened k
      | O =>
          match line_break s with
          | O => splitlines_go s' (cur ++ String c "") true 0
          | S k => cur :: splitlines_go s' "" false k
          end
      end
  end.
Definition splitlines (s : string) : list string := splitlines_go s "" false 0.

(** [values[k] = v] keeps the place of an existing key. *)
Fixpoint fset (k v : string) (f : fields) : fields :=
  match f with
  | [] => [(k, v)]
  | (k', v') :: f' => if k =? k' then (k', v) :: f' else (k', v') :: fset k v f'
  end.

Definition key_value_step (values : fields) (raw_line : string) : fields :=
  let line := strip raw_line in
  if (line =? "") || startswith "[" line then values
  else match split_once equals line with
       | Some (k, v) => fset (strip k) (strip v) values
       | None => values
       end.
Definition parse_key_values (text : string) : fields :=
  foldl key_value_step [] (splitlines text).

Definition fget_default (k d : string) (f : fields) : string :=
  if elem_str k f.*1 then fget k f else d.

(** *** [int(s, 0)] of an ASCII text, [None] for [ValueError] *)

Definition digit_in_base (base : Z) (c : ascii) : option Z :=
  let n := Z.of_nat (nat_of_ascii c) in
  let d := (if is_digit c then n - 48
            else if is_lower c then n - 87
            else if is_upper c then n - 55 else base)%Z in
  if (d <? base)%Z then Some d else None.

(** Digits with single underscores between them; [pending] after an underscore *)
Fixpoint digits_in_base (base acc : Z) (pending : bool) (s : string) : option Z :=
  match s with
  | "" => if pending then None else Some acc
  | String c s' =>
      if (c =? "_")%char then if pending then None else digits_in_base base acc true s'
      else match digit_in_base base c with
           | Some d => digits_in_base base (acc * base + d)%Z false s'
           | None => None
           end
  end.

Definition zero_char (c : ascii) : bool := (c =? "0")%char || (c =? "_")%char.

(** The magnitude: a prefix [0x], [0o] or [0b] (an underscore may follow it), or a
    decimal without leading zeros, of at most 4300 digits *)
Definition magnitude (s : string) : option Z :=
  let based base rest :=
    match rest with
    | "" => None
    | String c rest' => if (c =? "_")%char then
                          match rest' with "" => None | _ => digits_in_base base 0 true rest' end
                        else digits_in_base base 0 false rest
    end in
  let decimal :=
    match digits_in_base 10 0 true s with
    | Some n =>
        if startswith "0" s && negb (all_chars zero_char s) then None
        else if (4300 <? String.length s - count_char "_" s)%nat then None else Some n
    | None => None
    end in
  match s with
  | "" => None
  | String c s1 =>
      match s1 with
      | "" => decimal
      | String p rest =>
          if (c =? "0")%char then
            if (p =? "x")%char || (p =? "X")%char then based 16%Z rest
            else if (p =? "o")%char || (p =? "O")%char then based 8%Z rest
            else if (p =? "b")%char || (p =? "B")%char then based 2%Z rest
            else decimal
          else decimal
      end
  end.

Definition int_base0 (text : string) : option Z :=
  let s := strip text in
  match s with
  | "" => None
  | String c rest =>
      if (c =? "-")%char then Z.opp <$> magnitude rest
      else if (c =? "+")%char then magnitude rest
      else magnitude s
  end.

(** ** The choice of a transport *)

(** [summarize_host_ncm]: the candidates the host sees, ready ones first *)
Definition ncm_state {A} (ready present : list A) : string :=
  if negb (is_nil ready) then "ready"
  else if negb (is_nil present) then "present-no-link-local" else "not-ready".

(** [auto_repair_enabled]: the value of the environment variable *)
Definition lower_char (c : ascii) : ascii :=
  if is_upper c then ascii_of_nat (nat_of_ascii c + 32) else c.
Fixpoint lower (s : string) : string :=
  match s with "" => "" | String c s' => String (lower_char c) (lower s') end.
Definition auto_repair_enabled (raw : option string) (dflt : bool) : bool :=
  match raw with
  | None => dflt
  | Some v => negb (elem_str (lower (strip v)) ["0"; "false"; "no"; "off"])
  end.

(** [maybe_repair_host_ncm]: the state after a repair, where one is made *)
Definition maybe_repair_host_ncm (enabled : bool) (host_ncm repaired : string) : string :=
  if negb enabled || negb (host_ncm =? "present-no-link-local") then host_ncm else repaired.

Record selection := {
  sl_contract : Z;
  sl_serial_bridge : string;
  sl_device_status : string;
  sl_tcpctl : string;
  sl_selected : string;
  sl_fallback_reason : option string
}.

(** The decision of [select_transport] on what it observed: the bridge result with
    the [bridge_process] of its JSON, the status command and the host's NCM. *)
Definition decide_transport (bridge_ok : bool) (bridge_process : option string)
    (status : cmd_result) (host_ncm : string) (prefer_fast : bool) : selection :=
  let status_fields := parse_key_values (cr_stdout status) in
  let contract := default 0%Z (int_base0 (fget_default "transport.contract" "0" status_fields)) in
  let serial_bridge :=
    if bridge_ok && (match bridge_process with Some p => p =? "running" | None => false end)
    then "ready" else "not-ready" in
  let tcpctl := fget_default "transport.tcpctl" "not-tested" status_fields in
  let '(selected, reason) :=
    if negb (cr_ok status) then ("serial", Some "device-status-not-ready")
    else if negb (contract =? 0)%Z && (tcpctl =? "ready") && prefer_fast then ("tcpctl", None)
    else if prefer_fast && (host_ncm =? "ready") then ("ncm", None)
    else
      ("serial",
       if prefer_fast && negb (host_ncm =? "ready") then Some ("host-ncm-" ++ host_ncm)
       else if serial_bridge =? "ready" then None else Some "bridge-not-ready") in
  {| sl_contract := contract; sl_serial_bridge := serial_bridge;
     sl_device_status := if cr_ok status then "ready" else "not-ready";
     sl_tcpctl := tcpctl; sl_selected := selected; sl_fallback_reason := reason |}.

Section Select.
Context `{SerialRunner}.
Variable restart_bridge ensure_bridge : serial_state → serial_state.

(** [select_transport]: the bridge is ensured or probed, version and status run
    over it, then the decision; [host_ncm] and [repaired] are two snapshots. *)
Definition select_transport (ensure bridge_ok : bool) (bridge_process : option string)
    (host_ncm repaired : string) (prefer_fast repair : bool) (st : serial_state)
    : cmd_result * selection * serial_state :=
  let st := if ensure then ensure_bridge st else st in
  let '(version, _, st) :=
    run_serial_command_recovered restart_bridge ensure_bridge ["version"] 10000000 false st in
  let '(status, _, st) :=
    run_serial_command_recovered restart_bridge ensure_bridge ["status"] 20000000 false st in
  let ncm := maybe_repair_host_ncm repair host_ncm repaired in
  (version, decide_transport bridge_ok bridge_process status ncm prefer_fast, st).
End Select.

(** ** The runner over the bridge *)

Section Runner.
Context `{Digest}.
Variable env : nat → session.
Hypothesis env_ok : ∀ n, session_ok (env n).
Variable env_mode : option string.
(** [repr] of the exception, with the dynamic part of its message *)
Variable exc_repr : pyexc → net → string.

(** The call [run_cmdv1_command(host, port, timeout, command, retry_unsafe=...)] *)
Definition default_options (command : list string) (retry_unsafe : bool) : run_opts :=
  options env_mode None 20000 250000 150000 true retry_unsafe command.

Definition failed_result (command : list string) (e : pyexc) (st : net) : cmd_result :=
  {| cr_command := "cmdv1" :: command; cr_ok := false; cr_rc := None; cr_stdout := "";
     cr_stderr := exc_repr e st |}.

(** [protocol_result_to_command_result] *)
Definition protocol_result_to_command_result (command : list string) (r : ProtocolResult)
    : result cmd_result :=
  let* rc := pr_rc r in
  Ok {| cr_command := "cmdv1" :: command; cr_ok := (rc =? 0)%Z; cr_rc := Some rc;
        cr_stdout := pr_text r; cr_stderr := "" |}.

Definition run_serial_command (command : list string) (timeout : Z) (retry_unsafe : bool) (st : net)
    : cmd_result * net :=
  match run_cmdv1_command (run_fuel timeout) env (default_options command retry_unsafe)
          timeout command st with
  | None => (failed_result command (PyRuntimeError "out of fuel") st, st)
  | Some (Err e, st') => (failed_result command e st', st')
  | Some (Ok r, st') =>
      match protocol_result_to_command_result command r with
      | Ok c => (c, st')
      | Err e => (failed_result command e st', st')
      end
  end.

Definition command_payload (command : list string) : string :=
  match encode_cmdv1_line command with
  | Ok line => payload_of (select_mode env_mode None) line
  | Err _ => ""
  end.

Lemma run_serial_command_writes command timeout retry_unsafe st res st' :
  (0 <= timeout)%Z → run_serial_command command timeout retry_unsafe st = (res, st') →
  ∃ ws, sent st' = (sent st ++ ws)%list ∧
    Forall (λ w, String.prefix w (command_payload command) = true) ws ∧
    (retry_unsafe || command_allows_retry command = false → (length ws ≤ 1)%nat).
Proof.
  intros Ht. unfold run_serial_command, run_cmdv1_command, command_payload.
  destruct (encode_cmdv1_line command) as [line|e].
  - destruct run_loop as [[r st1]|] eqn:E.
    + apply run_loop_writes in E as (ws & H1 & H2 & H3 & _); [|done].
      intros Hr. assert (st' = st1) as -> by (repeat case_match; congruence).
      by exists ws.
    + intros [= _ <-]. exists []. rewrite app_nil_r. split_and!; [done|constructor|simpl; lia].
  - intros [= _ <-]. exists []. rewrite app_nil_r. split_and!; [done|constructor|simpl; lia].
Qed.

#[export] Instance bridge_runner : SerialRunner := {|
  serial_state := net;
  written := sent;
  line_of := command_payload;
  run_serial := run_serial_command;
  run_serial_writes := run_serial_command_writes
|}.
End Runner.

(** ** Recovery never repeats an unsafe command, and fast transports need a healthy device *)

(** Recovery from a busy shell, protocol noise or a missing serial device never
    repeats a command that may not be repeated: beside at most one writing of
    its own line, only a [hide] line is ever written, once and only after a busy
    answer, and the recovery reports one attempt without a retry. *)
Theorem recovery_never_repeats `{SerialRunner} restart ensure command timeout retry_unsafe st res rv st' :
  (0 <= timeout)%Z →
  serial_command_can_recover command retry_unsafe = false →
  run_serial_command_recovered restart ensure command timeout retry_unsafe st = (res, rv, st') →
  ∃ ws hs, written st' = (written st ++ ws ++ hs)%list ∧
    Forall (λ w, String.prefix w (line_of command) = true) ws ∧ (length ws ≤ 1)%nat ∧
    Forall (λ w, String.prefix w (line_of ["hide"]) = true) hs ∧ (length hs ≤ 1)%nat ∧
    rv_attempts rv = 1%nat ∧ rv_recovered rv = false ∧ ¬ In RetryCommand (rv_actions rv) ∧
    (rv_reason rv ≠ "busy" → hs = []).
Proof.
  intros Ht Hu. unfold run_serial_command_recovered. rewrite Hu.
  destruct run_serial as [r st1] eqn:E. apply run_serial_writes in E as (ws & Hws & Hpre & Hle); [|done].
  specialize (Hle Hu). cbn [negb].
  assert (Hnone : ∀ rv0, rv_attempts rv0 = 1%nat → rv_recovered rv0 = false →
    ¬ In RetryCommand (rv_actions rv0) →
    ∃ ws hs, written st1 = (written st ++ ws ++ hs)%list ∧
      Forall (λ w, String.prefix w (line_of command) = true) ws ∧ (length ws ≤ 1)%nat ∧
      Forall (λ w, String.prefix w (line_of ["hide"]) = true) hs ∧ (length hs ≤ 1)%nat ∧
      rv_attempts rv0 = 1%nat ∧ rv_recovered rv0 = false ∧ ¬ In RetryCommand (rv_actions rv0) ∧
      (rv_reason rv0 ≠ "busy" → hs = [])).
  { intros. exists ws, []. rewrite app_nil_r. by split_and!; [..|constructor|simpl; lia| | | |]. }
  destruct (recovery_label r =? ""); [intros [= _ <- <-]; apply Hnone; simpl; tauto|].
  destruct (String.eqb_spec (recovery_label r) "busy") as [Hl|];
    [|intros [= _ <- <-]; apply Hnone; simpl; tauto].
  destruct (run_serial ["hide"] _ _ _) as [h st2] eqn:E2. intros [= _ <- <-].
  apply run_serial_writes in E2 as (hs & Hhs & Hhpre & Hhle); [|lia].
  exists ws, hs. rewrite Hhs, Hws, <- app_assoc. simpl. split_and!; try done.
  - by apply Hhle.
  - by intros [?|[]].
Qed.

(** A fast transport is chosen only on a successful status command: the control
    channel exactly when the device declares a contract and a ready channel and
    fast is preferred, the network exactly when only the host side is ready;
    otherwise the bridge is used, and the reason is left out exactly when fast
    is not asked for and the bridge runs, or the network is ready anyway. *)
Theorem transport_choice bridge_ok process status ncm prefer :
  let s := decide_transport bridge_ok process status ncm prefer in
  let channel := negb (sl_contract s =? 0)%Z && (sl_tcpctl s =? "ready") in
  (sl_selected s = "tcpctl" ↔ cr_ok status = true ∧ prefer = true ∧ channel = true) ∧
  (sl_selected s = "ncm" ↔
   cr_ok status = true ∧ prefer = true ∧ channel = false ∧ ncm = "ready") ∧
  (sl_selected s = "serial" ↔
   cr_ok status = false ∨ prefer = false ∨ (channel = false ∧ ncm ≠ "ready")) ∧
  (sl_selected s = "serial" → sl_fallback_reason s = None →
   cr_ok status = true ∧ prefer = false ∧ bridge_ok = true ∧ process = Some "running").
Proof.
  unfold decide_transport. generalize (parse_key_values (cr_stdout status)) as f. intros f.
  generalize (default 0%Z (int_base0 (fget_default "transport.contract" "0" f))) as contract.
  intros contract. generalize (fget_default "transport.tcpctl" "not-tested" f) as tcpctl. intros tcpctl.
  cbv zeta. destruct (cr_ok status); simpl; [|naive_solver].
  destruct (negb (contract =? 0)%Z && (tcpctl =? "ready")) eqn:E; cbn [andb].
  - destruct prefer; simpl; rewrite ?E; [naive_solver|].
    split_and!; [naive_solver..|]. intros _. destruct bridge_ok; [|done]. destruct process as [p|]; [|done].
    simpl. destruct (String.eqb_spec p "running") as [->|]; [done|done].
  - destruct prefer; simpl; rewrite ?E.
    + destruct (String.eqb_spec ncm "ready"); simpl; intuition congruence.
    + split_and!; [naive_solver..|]. intros _. destruct bridge_ok; [|done]. destruct process as [p|]; [|done].
      simpl. destruct (String.eqb_spec p "running") as [->|]; [done|done].
Qed.
