(* ===== verification/A90Examples.v ===== *)
(** * The A90 evaluated

    The observation theorems on concrete transcripts, one command over a scripted
    bridge, and the recovery around it. *)

From stdpp Require Import base list strings.
From Stdlib Require Import ZArith Lia Ascii.
From S2P Require Import Prelude PyStr PyText Json Digest A90Contract A90ContractProps A90Frames A90FramesTheory A90FramesProps A90Ctl A90CtlProps A90Transport.
Open Scope string_scope.

#[local] Existing Instance checksum_digest.

Definition crlf : string := String cr nl.

(** Two chunks that cut a line: a [version] frame, the prompt, a [switchroot]
    that never ends. *)
Definition demo_chunks : list string :=
  [ "a90:/# cmdv1 version" ++ crlf ++ "A90P1 BEGIN seq=7 cmd=version argc=1 fl"
  ; "ags=0x0" ++ nl ++ "A90 native init" ++ nl
    ++ "A90P1 END seq=7 cmd=version rc=0 errno=0 duration_ms=3 flags=0x0 status=ok" ++ crlf
    ++ "A90P1 BEGIN seq=8 cmd=switchroot argc=2 flags=0x1f" ++ nl ++ "leaving" ].

Definition demo_transcript : A90P1Transcript :=
  match parse_a90p1_chunks None ["switchroot"] demo_chunks true with
  | Ok t => t
  | Err _ => {| ts_decoded := {| dt_length := 0; dt_sha256 := ""; dt_lines := [] |};
                ts_frames := []; ts_transitions := []; ts_outside := []; ts_chunk_sizes := [] |}
  end.

Example demo_parses :
  parse_a90p1_chunks None ["switchroot"] demo_chunks true = Ok demo_transcript
  ∧ length (ts_frames demo_transcript) = 1%nat
  ∧ length (ts_transitions demo_transcript) = 1%nat
  ∧ map dl_text (ts_outside demo_transcript) = ["a90:/# cmdv1 version"].
Proof. vm_compute. auto. Qed.

(** The same bytes without the declaration of the one-way command are refused. *)
Example demo_refused :
  parse_a90p1_chunks None [] demo_chunks true
  = Err (ObservationContractError "A90P1 BEGIN lacks END").
Proof. vm_compute. reflexivity. Qed.

(** A sequence number beyond Python's limit on integer texts is a [ValueError],
    not the module's own exception. *)
Definition many_digits : string := String.concat "" (replicate 4301 "1").
Example huge_sequence_escapes :
  parse_a90p1_chunks None []
    ["A90P1 BEGIN seq=" ++ many_digits ++ " cmd=version argc=1 flags=0x0" ++ nl] true
  = Err (PyValueError "Exceeds the limit for integer string conversion").
Proof. vm_compute. reflexivity. Qed.

Definition demo_frame : A90P1Frame :=
  match ts_frames demo_transcript with
  | f :: _ => f
  | [] => {| fr_begin := []; fr_end := []; fr_body := []; fr_byte_start := 0; fr_byte_end := 0;
             fr_trust := STRUCTURAL_ONLY |}
  end.

Lemma frames_coherent_witness :
  fget "cmd" (fr_end demo_frame) = "version" ∧
  ∃ seq rc errno, py_int (fget "seq" (fr_end demo_frame)) = Ok seq ∧ (0 < seq)%Z ∧
    py_int (fget "rc" (fr_end demo_frame)) = Ok rc ∧
    py_int (fget "errno" (fr_end demo_frame)) = Ok errno ∧
    outcome rc errno (fget "status" (fr_end demo_frame)).
Proof.
  assert (Hp : parse_a90p1_chunks None ["switchroot"] demo_chunks true = Ok demo_transcript)
    by (vm_compute; reflexivity).
  assert (Hf : In demo_frame (ts_frames demo_transcript)) by (vm_compute; left; reflexivity).
  destruct (frames_coherent None ["switchroot"] demo_chunks true demo_transcript demo_frame Hp Hf)
    as (_ & _ & _ & _ & H).
  split; [vm_compute; reflexivity|exact H].
Defined.

(** A log with the release evidence, and its marker *)
Definition demo_log : string :=
  String.concat nl
    ((RELEASE_HEAD ++ "2 " ++ RELEASE_TAIL)%string
     :: NATIVE_RELEASE_EXACT_LINES ++ ["switching root"])%list.
Definition demo_marker : string :=
  String.concat "" (map (λ kv, kv.1 ++ "=" ++ kv.2 ++ nl) NATIVE_RELEASE_MARKER).

Example demo_release :
  validate_native_release_evidence (InBytes demo_log) (InBytes demo_marker) = Ok tt.
Proof. vm_compute. reflexivity. Qed.

Lemma display_decision_witness :
  ∃ facts d, classify_phase2_display_run (InBytes demo_log) (InBytes demo_marker)
               (Some true) (Some true) (Some true) "bounded-failure" None = Ok facts ∧
    decide_phase2_display_run facts "F1_V3406_DISPLAY" true = Ok d ∧
    od_decision d ≠ PASS.
Proof.
  assert (Hw : identity_re "F1_V3406_DISPLAY" = true) by (vm_compute; reflexivity).
  destruct (display_decision demo_log demo_marker (Some true) (Some true) (Some true)
              "bounded-failure" None "F1_V3406_DISPLAY" true Hw)
    as (facts & d & st & H1 & H2 & _ & _ & H3).
  exists facts, d. split; [exact H1|split; [exact H2|]].
  intros Hd. apply H3 in Hd. destruct Hd as (_ & _ & _ & _ & H & _). discriminate H.
Defined.

(** ** Sessions and handoffs *)

Definition demo_session (start stop actions : Z) : AttendedSessionBinding :=
  let h := JStr (hexdigest "image") in
  {| sb_approval_id := JStr "approval-1"; sb_workflow := inl ATTENDED_SESSION_D1;
     sb_risk_tier := inl TIER_D1_TRANSIENT_NO_PAYLOAD_CONTROL;
     sb_target_profile := JStr "A90"; sb_manifest_sha256 := h; sb_resident_boot_sha256 := h;
     sb_rollback_boot_sha256 := h; sb_recovery_profile := JStr "twrp";
     sb_device_effect_runner_sha256 := h; sb_observer_sha256 := h;
     sb_return_health_profile := JStr "native"; 
     sb_action_allowlist := inl [inl SWITCHROOT_EXPERIMENT];
     sb_not_before_epoch_sec := JInt start; sb_expires_at_epoch_sec := JInt stop;
     sb_max_actions := JInt actions |}.

Example session_of_eight_hours :
  is_ok (validate_attended_session_binding (inl (demo_session 1000 29800 32))) = true
  ∧ is_ok (validate_attended_session_binding (inl (demo_session 1000 29801 32))) = false
  ∧ is_ok (validate_attended_session_binding (inl (demo_session 1000 29800 33))) = false.
Proof. vm_compute. auto. Qed.

Example display_handoff :
  validate_successor_contracts [DISPLAY_SUCCESSOR] = Ok [DISPLAY_SUCCESSOR]
  ∧ validate_successor_contracts [DISPLAY_SUCCESSOR; DISPLAY_SUCCESSOR]
    = Err (ContractError "successor domain is duplicated").
Proof. vm_compute. auto. Qed.

(** ** Commands over a scripted bridge *)


Definition start_net : net := {| now := 0; rounds := 0; sent := [] |}.

(** A bridge that answers with the given bytes, in two pieces *)
Definition answering (text more : string) : session :=
  {| ss_lock_free := Some 0%Z; ss_lock_cost := 0; ss_connect := (1000%Z, true);
     ss_char := λ _, (0%Z, None); ss_send := (100%Z, None);
     ss_recv := [(250000%Z, RTimeout); (1000%Z, RData text); (1000%Z, RData more)] |}.
Definition unplugged : session :=
  {| ss_lock_free := Some 0%Z; ss_lock_cost := 0; ss_connect := (500%Z, false);
     ss_char := λ _, (0%Z, None); ss_send := (0%Z, Some 0%nat); ss_recv := [] |}.

Definition uname_frame : string :=
  "A90P1 BEGIN seq=3 cmd=uname argc=1 flags=0x0" ++ nl ++ "Linux" ++ nl
  ++ "A90P1 END seq=3 cmd=uname rc=0 errno=0 duration_ms=1 flags=0x0 status=ok" ++ nl.
Definition prompt_line : string := "[done] uname (1ms)" ++ nl ++ "a90:/# ".

(** First nobody listens, then the command is answered. *)
Definition demo_env (n : nat) : session :=
  match n with O => unplugged | _ => answering uname_frame prompt_line end.

Definition demo_run := run_cmdv1_command (run_fuel 10000000) demo_env
  (options None None 20000 250000 150000 true false ["uname"]) 10000000 ["uname"] start_net.

Example demo_run_ok :
  match demo_run with
  | Some (Ok r, st) => (pr_status r, sent st, rounds st) = ("ok", [nl ++ "cmdv1 uname" ++ nl], 2%nat)
  | _ => False
  end.
Proof. vm_compute. reflexivity. Qed.

(** A command outside the read-only list is not retried. *)
Example unsafe_not_retried :
  run_cmdv1_command (run_fuel 10000000) demo_env
    (options None None 20000 250000 150000 true false ["reboot"]) 10000000 ["reboot"] start_net
  = Some (Err (PyOSError "create_connection"), {| now := 500; rounds := 1; sent := [] |}).
Proof. vm_compute. reflexivity. Qed.

Lemma demo_env_ok n : session_ok (demo_env n).
Proof.
  destruct n; split; simpl; try lia; intros; simplify_eq; repeat constructor; simpl; lia.
Qed.

Definition demo_costs : costs := {| co_lock := 0; co_connect := 3000000; co_write := 250000; co_read := 250000 |}.
Lemma demo_env_within n : session_within demo_costs (demo_env n).
Proof. destruct n; split; unfold READ_TIMEOUT; simpl; repeat constructor; simpl; lia. Qed.

Lemma run_terminates_and_writes_witness :
  ∃ res st', run_cmdv1_command (run_fuel 3000000) demo_env
      (options None None 20000 250000 150000 true false ["uname"]) 3000000 ["uname"] start_net
    = Some (res, st') ∧ length (sent st') = 1%nat
    ∧ (now st' <= 3000000 + overhang demo_costs 150000)%Z.
Proof.
  destruct (run_terminates_and_writes demo_env
    (options None None 20000 250000 150000 true false ["uname"]) 3000000 ["uname"] start_net
    demo_env_ok ltac:(lia)) as (res & st' & H & _ & Hc).
  specialize (Hc demo_costs demo_env_within). exists res, st'. split; [exact H|].
  vm_compute in H. injection H as _ <-. split; [reflexivity|exact Hc].
Defined.

Definition demo_result : ProtocolResult :=
  match demo_run with
  | Some (Ok r, _) => r
  | _ => {| pr_begin := []; pr_end := []; pr_text := "" |}
  end.
Definition demo_after : net := match demo_run with Some (_, st) => st | None => start_net end.

Lemma result_is_own_witness : own_result ["uname"] demo_result ∧ pr_status demo_result = "ok".
Proof.
  assert (H : demo_run = Some (Ok demo_result, demo_after)) by (vm_compute; reflexivity).
  split; [exact (result_is_own _ _ _ _ _ _ _ _ H)|vm_compute; reflexivity].
Defined.

(** A space forces the length-prefixed form. *)
Definition echo_line : string := "cmdv1x 4:6563686f 3:612062".

Lemma command_line_exact_witness :
  encode_cmdv1_line ["echo"; "a b"] = Ok echo_line ∧
  decode_line echo_line = Some ["echo"; "a b"].
Proof.
  assert (H : encode_cmdv1_line ["echo"; "a b"] = Ok echo_line) by (vm_compute; reflexivity).
  split; [exact H|exact (proj1 (proj2 (command_line_exact _ _ H)))].
Defined.

(** ** Recovery against the bridge of a busy device *)

(** A [reboot] while the menu is active *)
Definition busy_frame : string :=
  "A90P1 BEGIN seq=4 cmd=reboot argc=1 flags=0x0" ++ nl ++ "[busy] menu active" ++ nl
  ++ "A90P1 END seq=4 cmd=reboot rc=-16 errno=16 duration_ms=1 flags=0x0 status=busy" ++ nl.
Definition busy_env (n : nat) : session := answering busy_frame prompt_line.

Lemma busy_env_ok n : session_ok (busy_env n).
Proof. split; simpl; try lia; intros; simplify_eq; repeat constructor; simpl; lia. Qed.


Definition demo_runner : SerialRunner := bridge_runner busy_env busy_env_ok None (λ _ _, "").
Definition demo_recovered :=
  @run_serial_command_recovered demo_runner id id ["reboot"] 10000000 false start_net.

Lemma recovery_never_repeats_witness :
  rv_reason demo_recovered.1.2 = "busy" ∧ rv_attempts demo_recovered.1.2 = 1%nat
  ∧ length (sent demo_recovered.2) = 2%nat.
Proof.
  destruct (@recovery_never_repeats demo_runner id id ["reboot"] 10000000 false start_net
    demo_recovered.1.1 demo_recovered.1.2 demo_recovered.2
    ltac:(lia) ltac:(vm_compute; reflexivity)
    ltac:(vm_compute; reflexivity)) as (ws & hs & _ & _ & _ & _ & _ & H & _).
  split; [vm_compute; reflexivity|split; [exact H|vm_compute; reflexivity]].
Defined.

(** What the status command of a device with a control channel selects *)
Definition demo_status : cmd_result :=
  {| cr_command := ["cmdv1"; "status"]; cr_ok := true; cr_rc := Some 0%Z;
     cr_stdout := "[status]" ++ nl ++ "transport.contract=0x1" ++ String cr nl
                  ++ " transport.tcpctl = ready" ++ nl;
     cr_stderr := "" |}.

Example demo_selects_tcpctl :
  sl_selected (decide_transport true (Some "running") demo_status "not-ready" true) = "tcpctl"
  ∧ sl_selected (decide_transport true (Some "running") demo_status "ready" false) = "serial".
Proof. vm_compute. auto. Qed.
