(* ===== verification/Owner.v ===== *)
(** * What drives a console session

    The owner of a session: the clock it reads, the polls and the sends it makes of an
    open session, the events it collected and what its callbacks granted.
    [run_console_checks] of [s22plus_native_baseline_health_v1.py] is the first thing
    every owner runs.  The clock, the reads and the deliveries are scripts of the
    environment; times are milliseconds. *)

From stdpp Require Import base list strings gmap.
From Stdlib Require Import ZArith NArith Lia Ascii.
From S2P Require Import Prelude PyStr Json Digest Bytes Console ConsoleSession Health.
Open Scope string_scope.
Open Scope Z_scope.

(** ** The owner's state *)

Record owner := {
  ow_clock : list Z;                       (** what [now()] will return *)
  ow_polls : list reading;                 (** what the reads will return *)
  ow_sends : list (Z * list wtry);         (** the deliveries of the requests *)
  ow_live : live;
  ow_events : list wframe;
  ow_granted : list (json * gmap Z Z)      (** what the callbacks granted, and the requests made before *)
}.

Definition Q (A : Type) : Type := owner → result A * owner.
#[export] Instance Q_ret : MRet Q := λ A a o, (Ok a, o).
#[export] Instance Q_bind : MBind Q := λ A B k m o,
  match m o with (Ok a, o') => k a o' | (Err e, o') => (Err e, o') end.
Definition qlift {A} (r : result A) : Q A := λ o, (r, o).
Definition qget {A} (f : owner → A) : Q A := λ o, (Ok (f o), o).

Definition with_clock (c : list Z) (o : owner) : owner :=
  {| ow_clock := c; ow_polls := ow_polls o; ow_sends := ow_sends o; ow_live := ow_live o; ow_events := ow_events o;
     ow_granted := ow_granted o |}.
Definition with_live (l : live) (o : owner) : owner :=
  {| ow_clock := ow_clock o; ow_polls := ow_polls o; ow_sends := ow_sends o; ow_live := l; ow_events := ow_events o;
     ow_granted := ow_granted o |}.
Definition took_poll (ps : list reading) (fs : list wframe) (o : owner) : owner :=
  {| ow_clock := ow_clock o; ow_polls := ps; ow_sends := ow_sends o; ow_live := ow_live o;
     ow_events := (ow_events o ++ fs)%list; ow_granted := ow_granted o |}.
Definition took_send (ss : list (Z * list wtry)) (o : owner) : owner :=
  {| ow_clock := ow_clock o; ow_polls := ow_polls o; ow_sends := ss; ow_live := ow_live o; ow_events := ow_events o;
     ow_granted := ow_granted o |}.
Definition grant (request : json) (o : owner) : owner :=
  {| ow_clock := ow_clock o; ow_polls := ow_polls o; ow_sends := ow_sends o; ow_live := ow_live o;
     ow_events := ow_events o; ow_granted := (ow_granted o ++ [(request, st_requests (lv_st (ow_live o)))])%list |}.

(** Without another reading of the clock or the transport the process is interrupted there. *)
Definition interrupted : pyexc := PyRuntimeError "KeyboardInterrupt".

Definition tick_clock (clock : list Z) : result (Z * list Z) :=
  match clock with t :: clock' => Ok (t, clock') | [] => Err interrupted end.
Definition qnow : Q Z := λ o,
  match tick_clock (ow_clock o) with Ok (t, c) => (Ok t, with_clock c o) | Err e => (Err e, o) end.

Definition seen (kind seq : Z) (events : list wframe) : bool := existsb (λ f, is_frame f kind seq) events.

Section Owner.
Context `{Digest}.
Variables (i : ident) (c : session_class).

(** [events.extend(session.poll())] *)
Definition qpoll : Q unit := λ o,
  match ow_polls o with
  | [] => (Err interrupted, o)
  | r :: ps =>
      match poll i c r (ow_live o) with
      | (Ok fs, l) => (Ok tt, took_poll ps fs (with_live l o))
      | (Err e, l) => (Err e, took_poll ps [] (with_live l o))
      end
  end.

Definition qsend (kind : Z) (body : string) (timeout : Z) : Q Z := λ o,
  let '(now, tries) := match ow_sends o with s :: _ => s | [] => (0, []) end in
  let r := send i c kind body now timeout tries (ow_live o) in
  (r.1, took_send (tl (ow_sends o)) (with_live r.2 o)).

(** Something the session does on its own *)
Definition qlive {A} (m : L A) : Q A := λ o, let r := m (ow_live o) in (r.1, with_live r.2 o).
(** [session.close()] *)
Definition qclose : Q unit := λ o, (Ok tt, with_live (stop (ow_live o)) o).

(** A callback of the owner, which may refuse *)
Definition qask (permit : json → result unit) (request : json) : Q unit := λ o,
  match permit request with Ok _ => (Ok tt, grant request o) | Err e => (Err e, o) end.

(** ** [run_console_checks] *)

(** [wait] of the health check, over the readings of the clock *)
Fixpoint health_wait (deadline kind seq : Z) (clock : list Z) : Q unit := λ o,
  match clock with
  | [] => (Err interrupted, with_clock [] o)
  | t :: clock' =>
      if t <? deadline then
        if seen kind seq (ow_events o) then (Ok tt, with_clock clock' o)
        else
          match qpoll (with_clock clock' o) with
          | (Ok _, o') => health_wait deadline kind seq clock' o'
          | (Err e, o') => (Err e, o')
          end
      else (Err (PyTimeoutError "native health original deadline"), with_clock clock' o)
  end.
Definition qwait_health (deadline kind seq : Z) : Q unit := λ o, health_wait deadline kind seq (ow_clock o) o.

(** [except BaseException: session.stopped = True; raise] *)
Definition or_stop_session {A} (m : Q A) : Q A := λ o,
  match m o with (Ok a, o') => (Ok a, o') | (Err e, o') => (Err e, with_live (stop (ow_live o')) o') end.

(** [now() < deadline <= now() + budget], which reads the clock a second time only if the first holds *)
Definition within (deadline budget : Z) : Q bool :=
  t ← qnow;
  if t <? deadline then (u ← qnow; mret (deadline <=? u + budget)) else mret false.

Definition run_console_checks (deadline : Z) : Q unit :=
  or_stop_session
    (ok ← within deadline 30000;
     _ ← qlift (verr ok "native health budget differs");
     l ← qget ow_live;
     _ ← qlift (verr ((lv_sequence l =? 3) && bool_decide (st_requests (lv_st l) = ∅))
                  "native health requires a fresh declared arrival");
     _ ← qwait_health deadline READY 2;
     sequence ← qsend EXEC COMMAND_BODY 2000;
     _ ← qwait_health deadline EXIT sequence;
     status ← qsend STATUS "" 2000;
     _ ← qwait_health deadline STATUS_REPLY status;
     o ← qget id;
     qlift (validate_console (view_of (lv_st (ow_live o))) (ow_events o))).
End Owner.
