(* ===== verification/OwnerTheory.v ===== *)
(** * What an owner of a console session did

    [leads]: a rule for every step of an owner, for any session class and any account
    of which requests its grants allow.  When a step fails the session is still one
    that made allowed requests only. *)

From stdpp Require Import base list strings gmap.
From Stdlib Require Import ZArith NArith Lia Ascii.
From S2P Require Import Prelude PyStr Json Digest Bytes Console ConsoleSession ConsoleCodec ConsoleLife ConsoleReplay Health Owner.
Open Scope string_scope.
Open Scope Z_scope.

#[local] Arguments ConsoleCodec.wire : simpl never.

(** What was granted, and the requests made before *)
Notation grants := (list (json * gmap Z Z)).
Definition granted (gs : grants) (request : json) (n : Z) : Prop := ∃ s, (request, s) ∈ gs ∧ s !! n = None.
Lemma granted_more gs g request n : granted gs request n → granted (gs ++ [g])%list request n.
Proof. intros (s & Hs & Hn). exists s. split; [|done]. apply elem_of_app. by left. Qed.

(** A grant never forbids what was allowed before it. *)
Class Allowance (allowed : grants → wframe → Prop) := allowance_more gs g f : allowed gs f → allowed (gs ++ [g])%list f.

Section Theory.
Context `{Digest}.
Variables (i : ident) (c : session_class) (allowed : grants → wframe → Prop).
Context `{!SessionLaws c} `{!Allowance allowed}.
Hypothesis Hi : ident_ok i = true.
Notation inv := (inv i c).
Notation allows o := (Forall (allowed (ow_granted o))).

(** An owner whose session made the requests [fs], all allowed *)
Definition held (fs : list wframe) (o : owner) : Prop :=
  ∃ evs, inv evs (ow_live o) ∧ reqs evs = fs ∧ allows o fs.
Definition safe (o : owner) : Prop := ∃ fs, held fs o.
(** The session goes on: the events are all the frames it accepted. *)
Definition going (fs : list wframe) (o : owner) : Prop :=
  ∃ evs, inv evs (ow_live o) ∧ reqs evs = fs ∧ allows o fs
    ∧ ow_events o = resps evs ∧ lv_stopped (ow_live o) = false.

Lemma going_held fs o : going fs o → held fs o.
Proof. intros (evs & ? & ? & ? & _). by exists evs. Qed.
Lemma going_safe fs o : going fs o → safe o.
Proof. intros Hg. exists fs. by apply going_held. Qed.

(** ** Rules *)

(** From a state in [P], the computation returns in [R] or fails in a safe state. *)
Definition leads {A} (P : owner → Prop) (m : Q A) (R : A → owner → Prop) : Prop :=
  ∀ o, P o → match m o with (Ok v, o') => R v o' | (Err _, o') => safe o' end.

Lemma leads_ret {A} (P : owner → Prop) (v : A) : leads P (mret v) (λ w o, w = v ∧ P o).
Proof. intros o Hp. done. Qed.
Lemma leads_bind {A B} P (m : Q A) (f : A → Q B) R S :
  leads P m R → (∀ v, leads (R v) (f v) S) → leads P (v ← m; f v) S.
Proof.
  intros Hm Hf o Hp. unfold mbind, Q_bind. specialize (Hm o Hp). destruct (m o) as [[v|e] o']; [|done]. by apply Hf.
Qed.
Lemma leads_weaken {A} P P' (m : Q A) (R R' : A → owner → Prop) :
  leads P m R → (∀ o, P' o → P o) → (∀ v o, R v o → R' v o) → leads P' m R'.
Proof. intros Hm Hp Hr o Ho. specialize (Hm o (Hp o Ho)). destruct (m o) as [[v|e] o']; [by apply Hr|done]. Qed.
Lemma leads_lift {A} P (r : result A) : (∀ o, P o → safe o) → leads P (qlift r) (λ v o, r = Ok v ∧ P o).
Proof. intros Hs o Hp. unfold qlift. destruct r as [v|e]; [done|by apply Hs]. Qed.
Lemma leads_get {A} P (f : owner → A) : leads P (qget f) (λ v o, v = f o ∧ P o).
Proof. intros o Hp. done. Qed.

Variable fs : list wframe.
Notation on := (going fs).

Lemma going_clock t o : on o → on (with_clock t o).
Proof. done. Qed.

Lemma leads_now : leads on qnow (λ _, on).
Proof.
  intros o Ho. unfold qnow, tick_clock. destruct (ow_clock o) as [|t ts]; [by eapply going_safe|by apply going_clock].
Qed.

Lemma leads_poll : leads on (qpoll i c) (λ _, on).
Proof.
  intros o Ho. unfold qpoll. destruct (ow_polls o) as [|r ps]; [by eapply going_safe|].
  destruct Ho as (evs & Hinv & Hfs & Ha & He & Hs). destruct (poll i c r (ow_live o)) as [x l] eqn:Ep.
  destruct (poll_spec i Hi c evs _ _ _ _ Hinv Ep) as (gs & Hinv' & Hok).
  destruct x as [gs'|e].
  - destruct (Hok _ eq_refl) as [<- Hst]. exists (evs ++ map Resp gs')%list. split_and!; try done.
    + by rewrite reqs_map.
    + cbn. by rewrite He, resps_map.
  - exists fs, (evs ++ map Resp gs)%list. split_and!; [done|by rewrite reqs_map|done].
Qed.

Lemma health_wait_leads d kind seq clock : leads on (health_wait i c d kind seq clock) (λ _, on).
Proof.
  induction clock as [|t clock IH]; intros o Ho; cbn [health_wait].
  - eapply going_safe. by apply going_clock.
  - destruct (t <? d); [|eapply going_safe; by apply going_clock].
    destruct (seen kind seq (ow_events o)); [by apply going_clock|].
    pose proof (leads_poll _ (going_clock clock _ Ho)) as Hp. destruct (qpoll i c (with_clock clock o)) as [[[]|e] o']; [by apply IH|done].
Qed.
Lemma leads_wait_health d kind seq : leads on (qwait_health i c d kind seq) (λ _, on).
Proof. intros o Ho. by apply health_wait_leads. Qed.

Lemma going_sequence o : going fs o → lv_sequence (ow_live o) = 3 + Z.of_nat (length fs).
Proof. intros (evs & Hinv & <- & _ & _ & Hs). by apply (iv_sequence _ _ _ _ Hinv). Qed.

(** A callback that grants leaves the request and what was asked before. *)
Lemma leads_ask permit request :
  leads on (qask permit request) (λ _ o, on o ∧ granted (ow_granted o) request (3 + Z.of_nat (length fs))).
Proof.
  intros o Ho. unfold qask. destruct (permit request) as [u|e]; [|by eapply going_safe].
  destruct Ho as (evs & Hinv & Hfs & Ha & He & Hs). split.
  - exists evs. split_and!; try done. eapply Forall_impl; [exact Ha|]. intros f. apply allowance_more.
  - exists (st_requests (lv_st (ow_live o))). split; [apply elem_of_app; right; by apply list_elem_of_singleton|]. subst fs.
    exact (history_fresh _ _ _ _ (iv_history _ _ _ _ Hinv)).
Qed.

(** An allowed request *)
Lemma leads_send kind body t :
  let f := Fr kind (3 + Z.of_nat (length fs)) body in
  leads (λ o, on o ∧ allowed (ow_granted o) f) (qsend i c kind body t)
    (λ n o, n = 3 + Z.of_nat (length fs) ∧ going (fs ++ [f])%list o).
Proof.
  intros f o [Ho Hal]. pose proof (going_sequence o Ho) as Hq. destruct Ho as (evs & Hinv & Hfs & Ha & He & Hs).
  unfold qsend. destruct (match ow_sends o with s :: _ => s | [] => (0, []) end) as [now tries].
  destruct (send i c kind body now t tries (ow_live o)) as [x l] eqn:Es. cbn [fst snd].
  assert (Hf : allows o (fs ++ [f])%list) by (apply Forall_app; split; [done|by apply Forall_singleton]).
  destruct (send_spec i c evs _ _ _ _ _ _ _ _ Hinv Es) as [[Hl Hn]|[Hl Hn]].
  - destruct x as [n|e]; [by destruct (Hn n)|]. by exists fs, evs.
  - rewrite Hq in Hl. fold f in Hl.
    assert (Hr : reqs (evs ++ [Req f]) = (fs ++ [f])%list) by (rewrite reqs_app, Hfs; done).
    destruct x as [n|e].
    + destruct (Hn n eq_refl) as [-> Hst]. split; [done|]. exists (evs ++ [Req f])%list.
      split_and!; [done|done|done|cbn; by rewrite resps_req|done].
    + by exists (fs ++ [f])%list, (evs ++ [Req f])%list.
Qed.

(** ** Checks, and the rules without a state *)

Lemma leads_check {A} (r : result A) : leads on (qlift r) (λ _, on).
Proof. eapply leads_weaken; [apply leads_lift, going_safe|done|]. by intros v o [_ Ho]. Qed.

Lemma leads_within d budget : leads on (within d budget) (λ _, on).
Proof.
  unfold within. eapply leads_bind; [apply leads_now|]. intros t. destruct (t <? d).
  - eapply leads_bind; [apply leads_now|]. intros u o Ho. exact Ho.
  - intros o Ho. exact Ho.
Qed.

Lemma leads_get_live {A} (f : owner → A) : leads on (qget f) (λ _, on).
Proof. intros o Ho. exact Ho. Qed.

Lemma leads_sequence :
  leads on (qget (λ o, lv_sequence (ow_live o))) (λ n o, n = 3 + Z.of_nat (length fs) ∧ on o).
Proof. intros o Ho. split; [|done]. by apply going_sequence. Qed.
Lemma leads_pure {A} (F : Prop) P (m : Q A) R : (F → leads P m R) → leads (λ o, F ∧ P o) m R.
Proof. intros Hm o [Hf Ho]. by apply Hm. Qed.

(** Stopping a session of a safe owner leaves it safe. *)
Lemma safe_stop o : safe o → safe (with_live (stop (ow_live o)) o).
Proof. intros (gs & evs & Hinv & Hfs & Ha). exists gs, evs. split_and!; [by apply inv_stop|done|done]. Qed.
Lemma leads_or_stop {A} P (m : Q A) R : leads P m R → leads P (or_stop_session m) R.
Proof.
  intros Hm o Ho. specialize (Hm o Ho). unfold or_stop_session. destruct (m o) as [[v|e] o']; [done|]. by apply safe_stop.
Qed.
End Theory.

(** ** Events are only added *)

Definition retains {A} (m : Q A) : Prop := ∀ o, ow_events o `prefix_of` ow_events (m o).2.

Lemma retains_bind {A B} (m : Q A) (f : A → Q B) : retains m → (∀ v, retains (f v)) → retains (v ← m; f v).
Proof.
  intros Hm Hf o. unfold mbind, Q_bind. specialize (Hm o). destruct (m o) as [[v|e] o']; [|done].
  by etrans; [exact Hm|apply Hf].
Qed.
Lemma retains_ret {A} (v : A) : retains (mret v).
Proof. intros o. done. Qed.
Lemma retains_lift {A} (r : result A) : retains (qlift r).
Proof. intros o. done. Qed.
Lemma retains_get {A} (f : owner → A) : retains (qget f).
Proof. intros o. done. Qed.
Lemma retains_now : retains qnow.
Proof. intros o. unfold qnow, tick_clock. by destruct (ow_clock o). Qed.
Lemma retains_ask permit request : retains (qask permit request).
Proof. intros o. unfold qask. by destruct (permit request). Qed.
Lemma retains_send `{Digest} i c kind body t : retains (qsend i c kind body t).
Proof. intros o. unfold qsend. by destruct (match ow_sends o with s :: _ => s | [] => (0, []) end). Qed.
Lemma retains_poll `{Digest} i c : retains (qpoll i c).
Proof.
  intros o. unfold qpoll. destruct (ow_polls o) as [|r ps]; [done|].
  destruct (poll i c r (ow_live o)) as [[fs|e] l]; cbn; by apply prefix_app_r.
Qed.

Lemma seen_more kind seq a b : a `prefix_of` b → seen kind seq a = true → seen kind seq b = true.
Proof. intros [z ->] Hs. unfold seen in *. by rewrite existsb_app, Hs. Qed.

Lemma leads_seen `{Digest} {A} i c allowed (P : owner → Prop) (m : Q A) R kind seq :
  leads i c allowed P m R → retains m →
  leads i c allowed (λ o, P o ∧ seen kind seq (ow_events o) = true) m (λ v o, R v o ∧ seen kind seq (ow_events o) = true).
Proof.
  intros Hm Hk o [Hp Hs]. specialize (Hm o Hp). specialize (Hk o). destruct (m o) as [[v|e] o']; [|done].
  split; [done|]. by eapply seen_more.
Qed.

(** ** The health check *)

Definition health_requests : list wframe := [Fr EXEC 3 COMMAND_BODY; Fr STATUS 4 ""].
Definition health_proved (o : owner) : Prop :=
  validate_console (view_of (lv_st (ow_live o))) (ow_events o) = Ok tt.

(** The health check heard the reply to its STATUS. *)
Lemma heard_status events h :
  foldM hear heard0 events = Ok h → is_Some (hd_status h) → seen STATUS_REPLY 4 events = true.
Proof.
  apply (foldM_ind hear (λ fs h, is_Some (hd_status h) → seen STATUS_REPLY 4 fs = true)); [by intros [? ?]|].
  intros fs f h1 h2 IH Hh Hs. unfold seen. rewrite existsb_app. apply orb_true_iff. cbn [existsb]. rewrite orb_false_r.
  destruct (is_frame f STATUS_REPLY 4) eqn:Ef; [by right|left]. apply IH. unfold hear in Hh. rewrite Ef in Hh.
  destruct (is_frame f OUTPUT 3).
  { apply rbind_Ok in Hh as (ws & _ & Hh). repeat case_match; simplify_eq/=; done. }
  destruct (is_frame f EXIT 3); [apply rbind_Ok in Hh as (ws & _ & [= <-]); done|]. by injection Hh as <-.
Qed.
Lemma proved_status o : health_proved o → seen STATUS_REPLY 4 (ow_events o) = true.
Proof.
  unfold health_proved, validate_console. intros Hv. do 3 (apply rbind_Ok in Hv as ([] & _ & Hv)).
  apply rbind_Ok in Hv as (b & _ & Hv). apply rbind_Ok in Hv as ([] & _ & Hv).
  apply rbind_Ok in Hv as (h & Hh & Hv). apply rbind_Ok in Hv as ([] & _ & Hv%require_Ok%bool_decide_eq_true).
  apply (heard_status _ _ Hh). by rewrite Hv.
Qed.

Section Checks.
Context `{Digest}.
Variables (i : ident) (c : session_class) (allowed : grants → wframe → Prop).
Context `{!SessionLaws c} `{!Allowance allowed}.
Hypothesis Hi : ident_ok i = true.
Hypothesis Hh : ∀ gs, Forall (allowed gs) health_requests.
Notation leads := (leads i c allowed).
Notation on := (going i c allowed).

Lemma leads_console d : leads (on []) (run_console_checks i c d) (λ _ o, on health_requests o ∧ health_proved o).
Proof.
  assert (Ha : ∀ gs, allowed gs (Fr EXEC 3 COMMAND_BODY) ∧ allowed gs (Fr STATUS 4 "")).
  { intros gs. specialize (Hh gs). apply Forall_cons in Hh as [? [? _]%Forall_cons]. done. }
  unfold run_console_checks. apply leads_or_stop. eapply leads_bind; [apply leads_within|]. intros ok.
  eapply leads_bind; [apply leads_check|]. intros ?. eapply leads_bind; [apply leads_get_live|]. intros l.
  eapply leads_bind; [apply leads_check|]. intros ?. eapply leads_bind; [by apply leads_wait_health|]. intros ?.
  eapply leads_bind.
  { eapply leads_weaken; [by apply (leads_send i c allowed [])| |done]. intros o Ho. split; [done|apply Ha]. }
  intros n. eapply leads_bind.
  { eapply leads_weaken; [by apply (leads_wait_health i c allowed Hi [Fr EXEC 3 COMMAND_BODY])| |done]. by intros o [_ Ho]. }
  intros ?. eapply leads_bind.
  { eapply leads_weaken; [by apply (leads_send i c allowed [Fr EXEC 3 COMMAND_BODY] STATUS "")| |done].
    intros o Ho. split; [done|apply Ha]. }
  intros m. eapply leads_bind.
  { eapply leads_weaken; [by apply (leads_wait_health i c allowed Hi health_requests)| |done]. by intros o [_ Ho]. }
  intros ? o Ho. unfold mbind, Q_bind, qget, id, qlift. cbn [fst snd].
  destruct (validate_console _ _) as [[]|e] eqn:Ev; [by split|by eapply going_safe].
Qed.
End Checks.
