(* ===== verification/Qualify.v ===== *)
(** * The owner of a native arrival

    [qualify_one] of [s22plus_native_baseline_protocol_v1.py]: the program that
    authenticates one arrival, runs the fixed health command, asks its owner before
    it sends a mutating command or the ending, and derives the receipt again from
    the captured streams. *)

From stdpp Require Import base list strings gmap.
From Stdlib Require Import ZArith NArith Lia Ascii.
From S2P Require Import Prelude PyStr Json Digest Bytes Console ConsoleSession ConsoleKinds Health WireV3 Handshake Arrival Owner.
Open Scope string_scope.
Open Scope Z_scope.

(** ** Waiting *)

Section Wait.
Context `{Digest}.
Variable i : ident.
Notation qpoll := (qpoll i detach_class).

(** [wait] of the owner *)
Fixpoint owner_wait (deadline kind seq : Z) (clock : list Z) : Q unit := λ o,
  if seen kind seq (ow_events o) then
    match clock with
    | [] => (Err interrupted, with_clock [] o)
    | t :: clock' =>
        (Prelude.require (t <? deadline)
           (PyTimeoutError "baseline terminal acknowledgement exceeded original deadline"), with_clock clock' o)
    end
  else
    match clock with
    | [] => (Err interrupted, with_clock [] o)
    | t :: clock' =>
        if t <? deadline then
          match qpoll (with_clock clock' o) with
          | (Ok _, o') => owner_wait deadline kind seq clock' o'
          | (Err e, o') => (Err e, o')
          end
        else (Err (PyTimeoutError "baseline original observation deadline"), with_clock clock' o)
    end.
Definition qwait (deadline kind seq : Z) : Q unit := λ o, owner_wait deadline kind seq (ow_clock o) o.

(** The loop that waits for an optional command to end or to be rejected *)
Definition settled_command (seq : Z) (s : st) : bool :=
  bool_decide (seq ∈ st_terminals s) || bool_decide (seq ∈ st_rejected s).
Fixpoint command_wait (deadline seq : Z) (clock : list Z) : Q unit := λ o,
  if settled_command seq (lv_st (ow_live o)) then (Ok tt, with_clock clock o)
  else
    match clock with
    | [] => (Err interrupted, with_clock [] o)
    | t :: clock' =>
        if t <? deadline then
          match qpoll (with_clock clock' o) with
          | (Ok _, o') => command_wait deadline seq clock' o'
          | (Err e, o') => (Err e, o')
          end
        else (Err (PyTimeoutError "baseline HUD original deadline"), with_clock clock' o)
    end.
Definition qwait_command (deadline seq : Z) : Q unit := λ o, command_wait deadline seq (ow_clock o) o.
End Wait.

Definition HUD_ADMISSION : Z := 26000.
(** The extra profiles that may observe for longer than a minute *)
Definition LONG_PROFILES : list string :=
  ["filesystem"; "root_inspection"; "userspace_probe"; "staged_preflight"; "journal_recovery"; "root_evidence";
   "log_calibration"].

(** What the caller of [qualify_one] chooses; a callback may be missing. *)
Record request_for := {
  rf_ending : string;
  rf_hud : bool;
  rf_before_terminal : option (json → result unit);
  rf_before_extra : option (json → result unit)
}.

Section Qualify.
Context `{Digest}.
Variables (k : io_class) (im : image_identity) (domain key : string) (q : request_for) (deadline : Z).

Definition is_some {A} (o : option A) : bool := match o with Some _ => true | None => false end.
Definition maximum : Z :=
  match ic_extra k with
  | Some x => if bool_decide (xp_key x ∈ LONG_PROFILES) then xp_observation x else 60000
  | None => 60000
  end.

(** The checks before the handshake, with the clock they read *)
Definition qualify_guard (clock : list Z) : result (list Z) :=
  do* verr (((rf_ending q =? "detach")%string || (rf_ending q =? "download")%string) && is_some (rf_before_terminal q))
        "baseline owner ending differs" in
  do* verr (negb (match ic_extra k with Some x => xp_mutates x | None => false end && negb (is_some (rf_before_extra q))))
        "mutating fixed command has no durable pre-EXEC owner callback" in
  do* verr (negb (is_some (ic_extra k) && (rf_hud q || negb (rf_ending q =? "detach")%string)))
        "fixed storage census requires DETACH and no HUD selection" in
  do* verr ((maximum =? 60000) || (maximum =? 300000)) "baseline observation deadline differs" in
  let* t := tick_clock clock in
  do* verr (t.1 <? deadline) "baseline observation deadline differs" in
  let* u := tick_clock t.2 in
  do* verr (deadline <=? u.1 + maximum) "baseline observation deadline differs" in
  Ok u.2.

(** What the callbacks are asked *)
Definition ask_of (a : audit) (g : progress) (mode : string) (sequence : Z) (body : option string) : json :=
  JObj ([("run_id_hex", JStr (im_run_hex im)); ("mode", JStr mode); ("sequence", JInt sequence)]
        ++ match body with Some b => [("body_sha256", JStr (hexdigest b))] | None => [] end
        ++ [("nonce_sha256", JStr (hexdigest (au_nonce a))); ("kernel_boot_identity_sha256", JStr (hexdigest (au_boot a)));
            ("baseline_info", info_json (pg_info g))]).

Definition fixed_command : string := match ic_extra k with Some x => xp_body x | None => ic_hud_body k end.
Definition ending_kinds : Z * Z := if (rf_ending q =? "detach")%string then (DETACH, DETACH_ACK) else (CONTROL, CONTROL_ACK).

Section Session.
Variables (i : ident) (a : audit) (g : progress).

(** The optional command: the fixed extra one, or the display log *)
Definition optional_stage : Q unit :=
  if rf_hud q || is_some (ic_extra k) then
    let admission := match ic_extra k with Some x => xp_admission x | None => HUD_ADMISSION end in
    let settle := match ic_extra k with Some x => xp_settle x | None => ic_hud_settle k end in
    t ← qnow;
    if admission + settle <=? deadline - t then
      n ← qget (λ o, lv_sequence (ow_live o));
      _ ← match ic_extra k, rf_before_extra q with
          | Some x, Some permit => qask permit (ask_of a g "fixed-extra" n (Some (xp_body x)))
          | _, _ => mret tt
          end;
      sequence ← qsend i detach_class EXEC fixed_command 2000;
      qwait_command i deadline sequence
    else mret tt
  else mret tt.

Definition ending_stage (permit : json → result unit) : Q unit :=
  _ ← qlift (match pg_info g with
             | Some t => verr (negb ((rf_ending q =? "detach")%string && (AUTH_LIMIT <=? lt_ordinal t)))
                           "no native reauthentication remains after DETACH"
             | None => if (rf_ending q =? "detach")%string then Err PyTypeError else Ok tt
             end);
  n ← qget (λ o, lv_sequence (ow_live o));
  _ ← qask permit (ask_of a g (rf_ending q) n None);
  t ← qnow;
  _ ← qlift (Prelude.require (0 <? deadline - t) (PyTimeoutError "baseline terminal admission expired"));
  sequence ← qsend i detach_class ending_kinds.1 "" (Z.min 2000 (deadline - t));
  qwait i deadline ending_kinds.2 sequence.

(** From the fresh session to the acknowledgement of its ending *)
Definition owner_session (permit : json → result unit) : Q unit :=
  t ← qnow;
  _ ← run_console_checks i detach_class (Z.min deadline (t + 29900));
  _ ← optional_stage;
  ending_stage permit.

(** The derivation of the receipt from the captured streams *)
Definition derive (rx tx : string) : result arrival :=
  let* r := replay_one k im domain key rx tx in
  do* verr ((r.1.2 =? zlen rx) && (r.2 =? zlen tx)) "baseline trailing raw bytes" in
  Ok r.1.1.

(** [finally: session.close()] *)
Definition owner_body (permit : json → result unit) (x : exchange wireio) (o : owner) : result arrival * owner :=
  let r := owner_session permit o in
  let rx := wi_rx (ex_chan x) ++ lv_rx (ow_live r.2) in
  let tx := wi_tx (ex_chan x) ++ lv_tx (ow_live r.2) in
  (let* _ := r.1 in derive rx tx, with_live (stop (ow_live r.2)) r.2).
End Session.

End Qualify.

(** What the environment does after the handshake *)
Record script := {
  sc_clock : list Z; sc_polls : list reading; sc_sends : list (Z * list wtry); sc_faults : option nat
}.

(** The result, the handshake and the owner of the session, if it was opened *)
Definition qualify_one `{Digest} (k : io_class) (im : image_identity) (domain key : string) (q : request_for)
    (w : wireio) (e : script) : result arrival * option (exchange wireio * option owner) :=
  match qualify_guard k q (wi_deadline w) (sc_clock e) with
  | Err x => (Err x, None)
  | Ok clock =>
      let h := handshake im domain key (Ex w audit0 (progress0 true)) in
      match h.1, rf_before_terminal q with
      | Err x, _ => (Err x, Some (h.2, None))
      | Ok _, None => (Err PyTypeError, Some (h.2, None))
      | Ok _, Some permit =>
          let i := session_ident key (run_of im) (au_nonce (ex_audit h.2)) in
          let o := {| ow_clock := clock; ow_polls := sc_polls e; ow_sends := sc_sends e;
                      ow_live := open_live i (sc_faults e); ow_events := []; ow_granted := [] |} in
          let r := owner_body k im domain key q (wi_deadline w) i (ex_audit h.2) (ex_prep h.2) permit h.2 o in
          (r.1, Some (h.2, Some r.2))
      end
  end.
