(* ===== verification/QualifyTheory.v ===== *)
(** * What the owner of an arrival sends

    Every request the owner makes is one of the fixed ones, and the mutating and the
    ending ones were granted before they were made; when the ending is acknowledged
    the captured streams replay to the very end.

    The receipt it returns is derived from exactly what was exchanged, and the boundary
    check of the derivation never fails. *)

From stdpp Require Import base list strings gmap.
From Stdlib Require Import ZArith NArith Lia Ascii.
From S2P Require Import Prelude PyStr Json Digest Bytes Console ConsoleSession ConsoleCodec ConsoleLife ConsoleReplay Health ConsoleKinds WireV3 Handshake HandshakeTheory Arrival ArrivalTheory Owner OwnerTheory Qualify.
Open Scope string_scope.
Open Scope Z_scope.

#[local] Arguments ConsoleCodec.wire : simpl never.

(** ** The requests an owner may make *)

Section Allowed.
Context `{Digest}.
Variables (k : io_class) (im : image_identity) (q : request_for) (a : audit) (g : progress).

Inductive allowed (gs : grants) : wframe → Prop :=
  | al_health : allowed gs (Fr EXEC 3 COMMAND_BODY)
  | al_status : allowed gs (Fr STATUS 4 "")
  | al_optional :
      (∀ x permit, ic_extra k = Some x → rf_before_extra q = Some permit →
        granted gs (ask_of im a g "fixed-extra" 5 (Some (xp_body x))) 5) →
      allowed gs (Fr EXEC 5 (fixed_command k))
  | al_ending n :
      granted gs (ask_of im a g (rf_ending q) n None) n →
      allowed gs (Fr (ending_kinds q).1 n "").

#[export] Instance allowed_more : Allowance allowed.
Proof. intros gs r f Hf. destruct Hf; constructor; eauto using granted_more. Qed.
Lemma allowed_health gs : Forall (allowed gs) health_requests.
Proof. repeat (apply Forall_cons; split); [constructor|apply al_status|constructor]. Qed.
End Allowed.

(** ** The program *)

Section Program.
Context `{Digest}.
Variables (k : io_class) (im : image_identity) (q : request_for) (deadline : Z).
Variables (i : ident) (a : audit) (g : progress).
Hypothesis Hi : ident_ok i = true.
Notation allowed := (allowed k im q a g).
Notation leads := (leads i detach_class allowed).
Notation on := (going i detach_class allowed).
Notation safe := (safe i detach_class allowed).

Section Wait.
Variable fs : list wframe.
Notation on := (going i detach_class allowed fs).

Lemma owner_wait_leads d kind seq clock :
  leads on (owner_wait i d kind seq clock) (λ _ o, on o ∧ seen kind seq (ow_events o) = true).
Proof.
  induction clock as [|t clock IH]; intros o Ho; cbn [owner_wait]; destruct (seen kind seq (ow_events o)) eqn:Es.
  1, 2: eapply going_safe; by apply (going_clock i detach_class allowed fs).
  - pose proof (going_clock i detach_class allowed fs clock _ Ho) as Hc. unfold Prelude.require. destruct (t <? d); [by split|by eapply going_safe].
  - destruct (t <? d); [|eapply going_safe; by apply (going_clock i detach_class allowed fs)].
    pose proof (leads_poll i detach_class allowed Hi fs _ (going_clock i detach_class allowed fs clock _ Ho)) as Hp. destruct (qpoll i detach_class (with_clock clock o)) as [[[]|e] o']; [by apply IH|done].
Qed.
Lemma leads_wait d kind seq : leads on (qwait i d kind seq) (λ _ o, on o ∧ seen kind seq (ow_events o) = true).
Proof. intros o Ho. by apply owner_wait_leads. Qed.

Lemma command_wait_leads d seq clock : leads on (command_wait i d seq clock) (λ _, on).
Proof.
  induction clock as [|t clock IH]; intros o Ho; cbn [command_wait]; destruct (settled_command _ _);
    try by apply (going_clock i detach_class allowed fs).
  - eapply going_safe. by apply (going_clock i detach_class allowed fs).
  - destruct (t <? d); [|eapply going_safe; by apply (going_clock i detach_class allowed fs)].
    pose proof (leads_poll i detach_class allowed Hi fs _ (going_clock i detach_class allowed fs clock _ Ho)) as Hp. destruct (qpoll i detach_class (with_clock clock o)) as [[[]|e] o']; [by apply IH|done].
Qed.
Lemma leads_wait_command d seq : leads on (qwait_command i d seq) (λ _, on).
Proof. intros o Ho. by apply command_wait_leads. Qed.
End Wait.

Definition optional_requests (optional : bool) : list wframe :=
  if optional then [Fr EXEC 5 (fixed_command k)] else [].

Lemma leads_optional :
  leads (on health_requests) (optional_stage k im q deadline i a g)
    (λ _ o, ∃ optional, on (health_requests ++ optional_requests optional)%list o).
Proof.
  assert (Hno : leads (on health_requests) (mret tt)
    (λ _ o, ∃ optional, on (health_requests ++ optional_requests optional)%list o)) by (intros o Ho; by exists false).
  unfold optional_stage. destruct (_ || _); [|done]. eapply leads_bind; [apply leads_now|]. intros t.
  destruct (_ <=? _); [|done]. eapply leads_bind; [apply leads_sequence|]. intros n.
  apply leads_pure. intros ->. change (3 + Z.of_nat (length health_requests)) with 5.
  eapply leads_bind with (R := λ _ o, on health_requests o ∧ allowed (ow_granted o) (Fr EXEC 5 (fixed_command k))).
  { destruct (ic_extra k) as [x|] eqn:Ex; [destruct (rf_before_extra q) as [permit|] eqn:Ep|].
    - eapply leads_weaken; [apply (leads_ask i detach_class allowed)|done|]. intros [] o [Ho Hg]. split; [done|]. apply al_optional.
      intros y permit' Ey Ep'. assert (y = x) as -> by congruence. exact Hg.
    - intros o Ho. split; [done|]. apply al_optional. intros; congruence.
    - intros o Ho. split; [done|]. apply al_optional. intros; congruence. }
  intros ?. eapply leads_bind; [apply (leads_send i detach_class allowed health_requests EXEC (fixed_command k))|].
  intros m. eapply leads_weaken; [by apply (leads_wait_command (health_requests ++ optional_requests true))| |].
  - by intros ow [_ Ho].
  - intros [] o Ho. by exists true.
Qed.

(** The requests of a whole session *)
Definition session_requests (optional : bool) : list wframe :=
  profile_requests k COMMAND_BODY (ending_kinds q).1 optional.

Definition acknowledged (o : owner) : Prop :=
  ∃ optional seq, on (session_requests optional) o ∧ seen (ending_kinds q).2 seq (ow_events o) = true.

Lemma leads_ending permit optional :
  leads (on (health_requests ++ optional_requests optional)%list) (ending_stage im q deadline i a g permit) (λ _, acknowledged).
Proof.
  set (fs := (health_requests ++ optional_requests optional)%list). unfold ending_stage.
  eapply leads_bind; [apply leads_check|]. intros ?. eapply leads_bind; [apply leads_sequence|]. intros n.
  apply leads_pure. intros Hn.
  eapply leads_bind; [apply (leads_ask i detach_class allowed)|]. intros ?. rewrite <- Hn.
  set (P := λ o, on fs o ∧ granted (ow_granted o) (ask_of im a g (rf_ending q) n None) n).
  assert (HP : ∀ c o, P o → P (with_clock c o)).
  { done. }
  assert (HPs : ∀ o, P o → safe o) by (intros o [Ho _]; by eapply going_safe).
  eapply leads_bind with (R := λ _, P).
  { intros o Ho. unfold qnow, tick_clock. destruct (ow_clock o); [by apply HPs|by apply HP]. }
  intros t. eapply leads_bind; [by apply leads_lift|]. intros u. eapply leads_bind.
  { eapply leads_weaken; [apply (leads_send i detach_class allowed fs (ending_kinds q).1 "")| |done].
    intros o [_ [Ho Hg]]. split; [done|]. rewrite <- Hn. by apply al_ending. }
  intros m. eapply leads_weaken; [by apply (leads_wait)|by intros o [_ Ho]|].
  intros [] o [Ho Hseen]. exists optional, m. split; [|done].
  replace (session_requests optional) with (fs ++ [Fr (ending_kinds q).1 (3 + Z.of_nat (length fs)) ""])%list; [done|].
  by destruct optional.
Qed.

(** *** The reply to the health check's STATUS stays among the events *)

Lemma owner_wait_retains d kind seq clock : retains (owner_wait i d kind seq clock).
Proof.
  induction clock as [|t clock IH]; intros o; cbn [owner_wait]; destruct (seen kind seq (ow_events o)); try done.
  destruct (t <? d); [|done]. pose proof (retains_poll i detach_class (with_clock clock o)) as Hp.
  destruct (qpoll i detach_class (with_clock clock o)) as [[[]|e] o']; [|done]. by etrans; [exact Hp|apply IH].
Qed.
Lemma command_wait_retains d seq clock : retains (command_wait i d seq clock).
Proof.
  induction clock as [|t clock IH]; intros o; cbn [command_wait]; destruct (settled_command _ _); try done.
  destruct (_ <? _); [|done]. pose proof (retains_poll i detach_class (with_clock clock o)) as Hp.
  destruct (qpoll i detach_class (with_clock clock o)) as [[[]|e] o']; [|done]. by etrans; [exact Hp|apply IH].
Qed.
Lemma optional_retains : retains (optional_stage k im q deadline i a g).
Proof.
  unfold optional_stage. destruct (_ || _); [|apply retains_ret]. apply retains_bind; [apply retains_now|]. intros t.
  destruct (_ <=? _); [|apply retains_ret]. apply retains_bind; [apply retains_get|]. intros n. apply retains_bind.
  { destruct (ic_extra k); [destruct (rf_before_extra q)|]; [apply retains_ask|apply retains_ret..]. }
  intros ?. apply retains_bind; [apply retains_send|]. intros m o. apply command_wait_retains.
Qed.
Lemma ending_retains permit : retains (ending_stage im q deadline i a g permit).
Proof.
  unfold ending_stage. apply retains_bind; [apply retains_lift|]. intros ?. apply retains_bind; [apply retains_get|]. intros n.
  apply retains_bind; [apply retains_ask|]. intros ?. apply retains_bind; [apply retains_now|]. intros t.
  apply retains_bind; [apply retains_lift|]. intros ?. apply retains_bind; [apply retains_send|]. intros m o. apply owner_wait_retains.
Qed.

Definition checked (o : owner) : Prop := acknowledged o ∧ seen STATUS_REPLY 4 (ow_events o) = true.

Lemma leads_session permit : leads (on []) (owner_session k im q deadline i a g permit) (λ _, checked).
Proof.
  unfold owner_session. eapply leads_bind; [apply leads_now|]. intros t.
  eapply leads_bind; [by apply leads_console, allowed_health|]. intros ?.
  eapply leads_bind.
  { eapply leads_weaken; [apply (leads_seen _ _ _ _ _ _ STATUS_REPLY 4 leads_optional optional_retains)| |done].
    intros ow [Ho Hp%proved_status]. done. }
  intros ? o [[optional Ho] Hs].
  by apply (leads_seen _ _ _ _ _ _ STATUS_REPLY 4 (leads_ending permit optional) (ending_retains permit)).
Qed.
End Program.

(** ** When the ending is acknowledged *)

Lemma history_acknowledged c kinds_rx kinds_tx `{!SessionLaws c} `{!EndingLaws c kinds_rx kinds_tx} evs s f :
  history c true evs s → f ∈ resps evs → in_kinds (fr_kind f) kinds_rx = true → st_finished s = true.
Proof.
  intros Hh Hf Hk. induction Hh as [|evs s h Hh IH Hq Hc Hw|evs s h s' r Hh IH Hv]; [by apply elem_of_nil in Hf| |].
  - rewrite resps_req in Hf. by apply IH.
  - rewrite resps_app in Hf. apply elem_of_app in Hf as [Hf|Hf].
    + destruct (sl_moved _ _ _ _ Hv) as (Hn & _). rewrite (IH Hf) in Hn. done.
    + cbn in Hf. apply list_elem_of_singleton in Hf as ->. by eapply (el_rx (c := c)).
Qed.

Lemma seen_frame kind seq events : seen kind seq events = true → ∃ f, f ∈ events ∧ fr_kind f = kind ∧ fr_seq f = seq.
Proof.
  unfold seen. intros (f & Hf & Hk)%existsb_exists. exists f. split; [by apply list_elem_of_In|].
  unfold is_frame in Hk. bsimp. done.
Qed.

(** An acknowledgement answers its request. *)
Definition answering (f : wframe) : Prop := fr_kind f ∉ [READY; OUTPUT; EXIT; ACK; FAULT].
Lemma machine_answers s f t :
  machine s f t → st_responses s ⊆ st_responses t ∧ (answering f → fr_seq f ∈ st_responses t).
Proof.
  unfold answering. intros Hm. split; [destruct Hm; cbn; set_solver|].
  intros Hf. destruct Hm; cbn [fr_kind fr_seq] in *; first [set_solver|exfalso; apply Hf; cbn; set_solver].
Qed.
Lemma history_answered c `{!SessionLaws c} evs s :
  history c true evs s → ∀ f, f ∈ resps evs → answering f → fr_seq f ∈ st_responses s.
Proof.
  induction 1 as [|evs s h Hh IH Hq Hc Hw|evs s h s' r Hh IH Hv]; intros f Hf Ha; [by apply elem_of_nil in Hf| |].
  - rewrite resps_req in Hf. by apply IH.
  - apply (sl_moved (c := c)) in Hv as (_ & _ & t & [Hsub Hans]%machine_answers & Hs). rewrite (same_responses _ _ Hs).
    rewrite resps_app in Hf. apply elem_of_app in Hf as [Hf|Hf]; [by apply Hsub, IH|].
    cbn in Hf. apply list_elem_of_singleton in Hf as ->. by apply Hans.
Qed.
(** The ending of a finished session was answered. *)
Lemma detach_control_answered evs s n :
  history detach_class true evs s → st_finished s = true → st_control s = Some n → n ∈ st_responses s.
Proof.
  induction 1 as [|evs s f Hh IH Hq Hc Hw|evs s f s' r Hh IH Hv]; intros Hf Hn; [done| |].
  - cbn in Hf. destruct (detach_finished _ _ Hh Hf) as [m Hm]. congruence.
  - cbn [sc_validate detach_class] in Hv. destruct (moved_keeps _ _ _ (detach_moved _ _ _ _ Hv)) as (_ & _ & E3).
    rewrite E3 in Hn. destruct (decide (fr_kind f = DETACH_ACK)) as [Hk|Hk].
    + apply detach_ack in Hv as (-> & Hj & _); [|done]. unfold detach_joined in Hj. bsimp. cbn. set_solver.
    + pose proof (detach_moved _ _ _ _ Hv) as (_ & _ & u & [_ Ha]%machine_answers & Hu).
      rewrite detach_other in Hv by done. apply with_last_inv in Hv as (t & Hv & Hs & _).
      rewrite (same_finished _ _ Hs) in Hf. destruct (validate_finishes _ _ _ _ Hv Hf) as [Hctl Hk'].
      pose proof (history_joined _ _ _ _ Hh _ _ Hctl eq_refl) as Hj. assert (n = fr_seq f) as -> by congruence.
      rewrite (same_responses _ _ Hu). apply Ha. unfold answering. rewrite Hk'. by apply (bool_decide_unpack _).
Qed.

Lemma wires_bound `{Digest} i fs : Forall encodable fs → zlen (wires i fs) ≤ 1071 * Z.of_nat (length fs).
Proof.
  induction 1 as [|f fs (_ & _ & Hf) _ IH]; [done|]. cbn [wires length]. rewrite zlen_app.
  assert (zlen (wire i f) = 16 + zlen (payload i f)) as -> by (unfold zlen; rewrite (wire_length i); lia).
  rewrite (payload_zlen i). unfold MAX_PAYLOAD in Hf. lia.
Qed.

(** The identity of the session after a live handshake *)
Lemma live_ident `{Digest} im domain key w x :
  handshake im domain key (Ex w audit0 (progress0 true)) = (Ok tt, x) →
  ident_ok (session_ident key (run_of im) (au_nonce (ex_audit x))) = true.
Proof.
  intros Hh. destruct x as [w' a p]. destruct (replays_handshake im domain key _ _ _ _ _ _ _ Hh) as (rx & tx & _ & _ & Hr).
  apply (handshake_ident im domain key _ _ (Hr tt eq_refl "" "" 0%nat 0%nat)).
Qed.

Section Acknowledged.
Context `{Digest}.
Variables (k : io_class) (im : image_identity) (domain key : string) (q : request_for).

Lemma ack_ends : in_kinds (ending_kinds q).2 TERMINAL_RX = true.
Proof. unfold ending_kinds. by destruct (_ =? _)%string. Qed.
Lemma ending_ends : in_kinds (ending_kinds q).1 [CONTROL; DETACH] = true.
Proof. unfold ending_kinds. by destruct (_ =? _)%string. Qed.

(** The session of an acknowledged owner *)
Record ended (i : ident) (optional : bool) (o : owner) (evs : list event) : Prop := {
  en_inv : inv i detach_class evs (ow_live o);
  en_running : lv_stopped (ow_live o) = false;
  en_finished : st_finished (lv_st (ow_live o)) = true;
  en_requests : reqs evs = session_requests k q optional;
  en_events : ow_events o = resps evs;
  en_status : seen STATUS_REPLY 4 (ow_events o) = true;
  en_tx : lv_tx (ow_live o) = wires i (session_requests k q optional);
  en_bound : zlen (lv_tx (ow_live o)) ≤ SESSION_RX_LIMIT
}.

Lemma acknowledged_ended i a g o :
  checked k im q i a g o →
  ∃ optional evs, ended i optional o evs ∧ Forall (allowed k im q a g (ow_granted o)) (session_requests k q optional).
Proof.
  intros [(optional & seq & (evs & Hinv & Hfs & Ha & He & Hs) & (f & Hf & Hk & _)%seen_frame) Hst].
  exists optional, evs. split; [|done]. rewrite He in Hf.
  assert (Htx : lv_tx (ow_live o) = wires i (session_requests k q optional)).
  { destruct (iv_wire _ _ _ _ Hinv) as (r1 & Hw & Z1). rewrite (Z1 Hs), str_app_nil in Hw.
    destruct (iv_tx _ _ _ _ Hinv) as (r2 & Hx & Z2). rewrite (Z2 Hs), str_app_nil in Hx. by rewrite <- Hx, <- Hw, Hfs. }
  split; try done.
  - eapply (history_acknowledged detach_class TERMINAL_RX TERMINAL_TX); [exact (iv_history _ _ _ _ Hinv)|exact Hf|].
    rewrite Hk. apply ack_ends.
  - rewrite Htx. assert (Hall : Forall encodable (session_requests k q optional)).
    { rewrite <- Hfs. eapply Forall_impl; [apply (iv_requests _ _ _ _ Hinv)|]. by intros h []. }
    pose proof (wires_bound i _ Hall) as Hb.
    assert (length (session_requests k q optional) ≤ 4)%nat by (destruct optional; cbn; lia).
    unfold SESSION_RX_LIMIT, RAW_CAPTURE_MAXIMUM. lia.
Qed.

(** A session ended by a detach is idle. *)
Lemma ended_idle i optional o evs :
  ended i optional o evs → rf_ending q = "detach" → idle (lv_st (ow_live o)).
Proof.
  intros [Hinv _ Hf Hr _ _ _ _] Hd. pose proof (iv_history _ _ _ _ Hinv) as Hh.
  apply (detach_history_idle evs); [done|done|].
  set (n := if optional then 6 else 5 : Z).
  assert (Hn : st_requests (lv_st (ow_live o)) !! n = Some DETACH).
  { rewrite (history_asked _ _ _ _ Hh), Hr. unfold session_requests, ending_kinds. rewrite Hd. by destruct optional. }
  exists n. split; [|done]. by apply (history_joined _ _ _ _ Hh n DETACH Hn).
Qed.

(** Nothing the owner asked is left without an answer. *)
Lemma ended_answered i optional o evs : ended i optional o evs → unanswered (lv_st (ow_live o)) = false.
Proof.
  intros [Hinv _ Hf Hr He Hs _ _]. pose proof (iv_history _ _ _ _ Hinv) as Hh. rewrite He in Hs.
  apply seen_frame in Hs as (f & Hf4 & Hk & Hq).
  assert (H4 : 4 ∈ st_responses (lv_st (ow_live o))).
  { rewrite <- Hq. apply (history_answered _ _ _ Hh f Hf4). unfold answering. rewrite Hk. by apply (bool_decide_unpack _). }
  unfold unanswered. apply not_true_is_false. intros ([n kind] & Hin & Hb)%existsb_exists. cbn [fst snd] in Hb.
  apply list_elem_of_In, elem_of_map_to_list in Hin.
  apply andb_true_iff in Hb as [Hne%negb_true_iff%Z.eqb_neq Hnr%negb_true_iff%bool_decide_eq_false]. apply Hnr. pose proof Hin as Hn.
  rewrite (history_asked _ _ _ _ Hh), Hr in Hn. destruct (3 <=? n) eqn:E3; [|done].
  assert (Hend : in_kinds kind [CONTROL; DETACH] = true → n ∈ st_responses (lv_st (ow_live o))).
  { intros Ht. apply (detach_control_answered _ _ _ Hh Hf). by apply (history_joined _ _ _ _ Hh n kind Hin). }
  pose proof ack_ends. pose proof ending_ends as Hkind. unfold session_requests, profile_requests in Hn.
  remember (Z.to_nat (n - 3)) as m eqn:Em. destruct m as [|[|m]]; cbn in Hn.
  - by injection Hn as <-.
  - assert (n = 4) as -> by lia. done.
  - destruct optional; [destruct m as [|m]; cbn in Hn; [by injection Hn as <-|]|].
    all: destruct m as [|m]; cbn in Hn; [injection Hn as <-; by apply Hend|done].
Qed.

(** What the owner captured replays to the very end. *)
Lemma ended_replays w x optional o evs :
  let i := session_ident key (run_of im) (au_nonce (ex_audit x)) in
  wi_rx w = "" → wi_tx w = "" →
  handshake im domain key (Ex w audit0 (progress0 true)) = (Ok tt, x) →
  ended i optional o evs →
  let rx := wi_rx (ex_chan x) ++ lv_rx (ow_live o) in
  let tx := wi_tx (ex_chan x) ++ lv_tx (ow_live o) in
  ∃ s, same s (lv_st (ow_live o))
    ∧ replay_joined detach_class TERMINAL_RX TERMINAL_TX im domain key rx tx
      = do* perr (negb (unanswered (lv_st (ow_live o)))) "unanswered retained normal request" in
        Ok {| jn_exchange := Ex (Rt (lv_rx (ow_live o)) (String.length (wi_rx (ex_chan x)))
                                    (lv_tx (ow_live o)) (String.length (wi_tx (ex_chan x)))) (ex_audit x) (ex_prep x);
              jn_state := s; jn_events := resps evs; jn_rend := zlen rx; jn_tend := zlen tx |}.
Proof.
  intros i Hrx Htx Hh [Hinv Hs Hf _ _ _ _ Hb] rx tx.
  pose proof (iv_history _ _ _ _ Hinv) as Hhist.
  destruct (joined_replays im domain key detach_class TERMINAL_RX TERMINAL_TX (wi_rx (ex_chan x)) (wi_tx (ex_chan x))
    (ex_audit x) (ex_prep x) evs (ow_live o)) as (s & Hsame & _ & Hj); try done.
  - by apply (live_ident im domain key w).
  - by apply (live_handshake_replayed im domain key w x).
  - by apply (detach_finished evs).
  - intros pre f He. destruct (detach_last _ _ _ _ Hhist Hf He) as [->| ->]; done.
  - by exists s.
Qed.
End Acknowledged.

(** ** Properties of the owner of an arrival *)

#[local] Arguments ConsoleCodec.wire : simpl never.

Section Owner.
Context `{Digest}.
Variables (k : io_class) (im : image_identity) (domain key : string) (q : request_for).

(** The owner before its session asked anything *)
Definition fresh_owner (i : ident) (clock : list Z) (e : script) : owner :=
  {| ow_clock := clock; ow_polls := sc_polls e; ow_sends := sc_sends e; ow_live := open_live i (sc_faults e);
     ow_events := []; ow_granted := [] |}.
Lemma fresh_going i a g clock e : going i detach_class (allowed k im q a g) [] (fresh_owner i clock e).
Proof. exists []. split_and!; try done. apply inv_open. Qed.

(** How a run of [qualify_one] with an open session ends *)
Lemma qualify_inv w e r x o :
  qualify_one k im domain key q w e = (r, Some (x, Some o)) →
  ∃ clock permit, rf_before_terminal q = Some permit
    ∧ handshake im domain key (Ex w audit0 (progress0 true)) = (Ok tt, x)
    ∧ let i := session_ident key (run_of im) (au_nonce (ex_audit x)) in
      owner_body k im domain key q (wi_deadline w) i (ex_audit x) (ex_prep x) permit x (fresh_owner i clock e) = (r, o).
Proof.
  unfold qualify_one. destruct (qualify_guard _ _ _ _) as [clock|?]; [|done].
  destruct (handshake _ _ _ _) as [[[]|?] y]; cbn [fst snd]; [|done].
  destruct (rf_before_terminal q) as [permit|]; [|done]. intros Hq. exists clock, permit.
  injection Hq as Hr Hx Ho. subst y. split_and!; [done|done|]. rewrite <- Hr, <- Ho. apply surjective_pairing.
Qed.

(** C25. Whatever the device, the clock and the callbacks do, every byte the session put on
    the wire is of the health command, its status, the one optional command and the
    ending, in this order from sequence three; the ending was granted by the terminal
    callback, which named its sequence number and this authentication, before it was
    recorded or sent, and so was an extra command that has a callback. *)
Theorem asked_before_sent w e r x o :
  qualify_one k im domain key q w e = (r, Some (x, Some o)) →
  let i := session_ident key (run_of im) (au_nonce (ex_audit x)) in
  ∃ fs rest, wires i fs = lv_wire (ow_live o) ++ rest ∧ lv_stopped (ow_live o) = true
    ∧ Forall (allowed k im q (ex_audit x) (ex_prep x) (ow_granted o)) fs
    ∧ (∀ n f, fs !! n = Some f → fr_seq f = 3 + Z.of_nat n)
    ∧ ∀ n f, fs !! n = Some f → detach_terminal (fr_kind f) = true → S n = length fs.
Proof.
  intros (clock & permit & _ & Hh & Hb)%qualify_inv i. fold i in Hb.
  pose proof (live_ident im domain key w x Hh) as Hi. fold i in Hi.
  pose proof (leads_session k im q (wi_deadline w) i (ex_audit x) (ex_prep x) Hi permit _ (fresh_going _ _ _ clock e)) as Hs.
  unfold owner_body in Hb. injection Hb as _ <-.
  assert (Hsafe : safe i detach_class (allowed k im q (ex_audit x) (ex_prep x)) (owner_session k im q (wi_deadline w) i (ex_audit x) (ex_prep x) permit
    (fresh_owner i clock e)).2).
  { destruct (owner_session _ _ _ _ _ _ _ _ _) as [[[]|y] o']; [|done].
    destruct Hs as [(optional & seq & Hg & _) _]. by eapply going_safe. }
  destruct Hsafe as (fs & evs & Hinv & <- & Ha). destruct (iv_wire _ _ _ _ Hinv) as (rest & Hw & _).
  exists (reqs evs), rest. split_and!; [done|done| | |].
  - exact Ha.
  - intros n f. by apply (history_numbered _ _ _ _ n f (iv_history _ _ _ _ Hinv)).
  - intros n f. by apply (history_terminal_last _ _ _ _ n f (iv_history _ _ _ _ Hinv)).
Qed.

(** C28. When the ending is acknowledged, whichever it is, the streams captured from the first
    handshake byte replay: the handshake to the same facts, the console to the state of the
    live session and the events its owner collected, with the boundary at the very end of
    both.  The derivation can then fail only in the bounds of the streams or in the
    projection of these facts.  After a detach the session is idle. *)
Theorem acknowledged_replays w x clock e permit o :
  let i := session_ident key (run_of im) (au_nonce (ex_audit x)) in
  wi_rx w = "" → wi_tx w = "" →
  handshake im domain key (Ex w audit0 (progress0 true)) = (Ok tt, x) →
  owner_session k im q (wi_deadline w) i (ex_audit x) (ex_prep x) permit (fresh_owner i clock e) = (Ok tt, o) →
  let rx := wi_rx (ex_chan x) ++ lv_rx (ow_live o) in
  let tx := wi_tx (ex_chan x) ++ lv_tx (ow_live o) in
  ∃ j, replay_joined detach_class TERMINAL_RX TERMINAL_TX im domain key rx tx = Ok j
    ∧ same (jn_state j) (lv_st (ow_live o)) ∧ jn_events j = ow_events o
    ∧ ex_audit (jn_exchange j) = ex_audit x ∧ ex_prep (jn_exchange j) = ex_prep x
    ∧ jn_rend j = zlen rx ∧ jn_tend j = zlen tx
    ∧ derive k im domain key rx tx
      = (do* verr ((zlen rx <=? RAW_CAPTURE_MAXIMUM) && (zlen tx <=? 65536)) "baseline raw stream bounds differ" in
         projection k im (ex_audit x) (ex_prep x) (jn_state j) (ow_events o) rx tx)
    ∧ (rf_ending q = "detach" → idle (lv_st (ow_live o))).
Proof.
  intros i Hrx Htx Hh Hs rx tx. pose proof (live_ident im domain key w x Hh) as Hi. fold i in Hi.
  pose proof (leads_session k im q (wi_deadline w) i (ex_audit x) (ex_prep x) Hi permit _ (fresh_going _ _ _ clock e)) as Hl.
  rewrite Hs in Hl. apply acknowledged_ended in Hl as (optional & evs & He & _).
  destruct (ended_replays k im domain key q w x optional o evs Hrx Htx Hh He) as (s & Hsame & Hj). fold rx tx i in Hj.
  rewrite (ended_answered _ _ _ _ _ _ He) in Hj. cbn [negb perr Prelude.require rbind] in Hj. rewrite <- (en_events _ _ _ _ _ _ He) in Hj.
  eexists. split; [exact Hj|]. cbn [jn_state jn_events jn_exchange jn_rend jn_tend ex_audit ex_prep].
  split_and!; [done..| |exact (ended_idle k q i optional o evs He)].
  unfold derive, replay_one. destruct (verr _ _) as [[]|]; [|done]. cbn [rbind]. rewrite Hj. cbn [rbind jn_state jn_events jn_exchange jn_rend jn_tend ex_audit ex_prep].
  unfold zlen. rewrite !Nat2Z.id, !stake_all by lia. destruct (projection _ _ _ _ _ _ _ _) as [v|]; [|done]. cbn [rbind fst snd].
  by rewrite !Z.eqb_refl.
Qed.

(** C29. A receipt that the owner returns is the one the replay derives from exactly the
    captured streams; the session sent the fixed requests and the granted ending and
    nothing else, was acknowledged, and after a detach was left idle. *)
Theorem qualified w e v out :
  wi_rx w = "" → wi_tx w = "" →
  qualify_one k im domain key q w e = (Ok v, out) →
  ∃ x o optional, out = Some (x, Some o)
    ∧ let i := session_ident key (run_of im) (au_nonce (ex_audit x)) in
      let rx := wi_rx (ex_chan x) ++ lv_rx (ow_live o) in
      let tx := wi_tx (ex_chan x) ++ lv_tx (ow_live o) in
      replay_one k im domain key rx tx = Ok (v, zlen rx, zlen tx)
      ∧ lv_tx (ow_live o) = wires i (session_requests k q optional)
      ∧ Forall (allowed k im q (ex_audit x) (ex_prep x) (ow_granted o)) (session_requests k q optional)
      ∧ (rf_ending q = "detach" → idle (lv_st (ow_live o))).
Proof.
  intros Hrx Htx Hq. destruct out as [[x [o|]]|]; [| |].
  2, 3: unfold qualify_one in Hq; repeat case_match; simplify_eq/=; done.
  exists x, o. apply qualify_inv in Hq as (clock & permit & _ & Hh & Hb). cbv zeta in Hb.
  set (i := session_ident key (run_of im) (au_nonce (ex_audit x))) in *.
  pose proof (live_ident im domain key w x Hh) as Hi. fold i in Hi.
  pose proof (leads_session k im q (wi_deadline w) i (ex_audit x) (ex_prep x) Hi permit _ (fresh_going _ _ _ clock e)) as Hl.
  unfold owner_body in Hb. destruct (owner_session _ _ _ _ _ _ _ _ _) as [[[]|y] o'] eqn:Es; [|done].
  injection Hb as Hd <-. cbn [ow_live with_live stop lv_rx lv_tx lv_st].
  apply acknowledged_ended in Hl as (optional & evs & He & Ha). exists optional. split; [done|].
  unfold derive in Hd. apply rbind_Ok in Hd as ([[v' rend] tend] & Hr & Hd). cbn [fst snd] in Hd.
  apply rbind_Ok in Hd as ([] & Hz%require_Ok & [= ->]). apply andb_true_iff in Hz as [Hz1%Z.eqb_eq Hz2%Z.eqb_eq].
  rewrite <- Hz1, <- Hz2. split_and!; [done|apply (en_tx _ _ _ _ _ _ He)| |].
  - exact Ha.
  - exact (ended_idle k q i optional o' evs He).
Qed.
End Owner.
