(* ===== verification/SwitchRun.v ===== *)
(** * The owner of a PID1 transition

    [qualify_one] of [s22plus_switch_root_protocol_v1.py]: the health check, the
    granted transition request, its acceptance read as exactly one frame of the old
    program, the stage records of the new one up to its witness, and the granted
    return; then the derivation from the captured streams.  The session and the
    transport afterwards are one state, so that what either captured stays in order. *)

From stdpp Require Import base list strings gmap.
From Stdlib Require Import ZArith NArith Lia Ascii.
From S2P Require Import Prelude PyStr Json Digest Bytes Console ConsoleSession ConsoleKinds Health WireV3 Handshake Arrival Owner Qualify SwitchRoot.
Open Scope string_scope.
Open Scope Z_scope.

(** The owner of the session and the exchange it came from *)
Record passage := { pa_owner : owner; pa_io : exchange wireio }.

Definition T (A : Type) : Type := passage → result A * passage.
#[export] Instance T_ret : MRet T := λ A a p, (Ok a, p).
#[export] Instance T_bind : MBind T := λ A B k m p,
  match m p with (Ok a, p') => k a p' | (Err e, p') => (Err e, p') end.
Definition tlift {A} (r : result A) : T A := λ p, (r, p).

Definition in_session {A} (m : Q A) : T A := λ p,
  let r := m (pa_owner p) in (r.1, {| pa_owner := r.2; pa_io := pa_io p |}).
Definition in_io {A} (m : X wireio A) : T A := λ p,
  let r := m (pa_io p) in (r.1, {| pa_owner := pa_owner p; pa_io := r.2 |}).

(** What a fresh session captures ([on_rx], [on_tx]) is part of the one capture. *)
Definition captured (l : live) (w : wireio) : wireio :=
  {| wi_deadline := wi_deadline w; wi_in := wi_in w; wi_out := wi_out w; wi_rx := wi_rx w ++ lv_rx l;
     wi_tx := wi_tx w ++ lv_tx l; wi_wire := wi_wire w ++ lv_wire l; wi_faults := wi_faults w |}.
Definition fresh_session {A} (m : Q A) : T A := λ p,
  let r := m (pa_owner p) in let x := pa_io p in
  (r.1, {| pa_owner := r.2; pa_io := Ex (captured (ow_live r.2) (ex_chan x)) (ex_audit x) (ex_prep x) |}).

(** At most two hundred and fifty-six records precede a witness. *)
Definition proof_fuel : nat := 258.

Section Run.
Context `{Digest}.
Variables (im : image_identity) (domain key witness : string) (deadline : Z).
Variables (before_terminal before_extra : json → result unit).

Section Session.
Variables (i : ident) (a : audit) (g : progress).
Notation accept := (accept_record key (run_of im) (au_nonce a) (switch_config_of witness (au_boot a))).

(** Up to the transition request *)
Definition switch_session : Q unit :=
  t ← qnow;
  _ ← run_console_checks i switch_class (Z.min deadline (t + 29900));
  pending ← qget (λ o, lv_pending (ow_live o));
  ok ← (if (pending =? "")%string then u ← qnow; mret (305000 <=? deadline - u) else mret false);
  _ ← qlift (srequire ok "switch admission lacks a full bounded window");
  _ ← qask before_extra (ask_of im a g "fixed-pid1-transition" 5 (Some ""));
  _ ← qsend i switch_class REQUEST "" 2000;
  mret tt.

(** Exactly one acknowledgement of the old program, read past its frame by nobody *)
Definition read_acceptance : T unit :=
  f ← in_io xframe;
  raw ← tlift (encode_frame f);
  values ← tlift (feed i "" raw).1;
  v ← tlift (match values with
             | [v] => do* srequire ((fr_kind v =? ACCEPTED) && (fr_seq v =? 5)) "fixed terminal acceptance absent" in Ok v
             | _ => Err (SessionError "fixed terminal acceptance absent")
             end);
  in_session (qlive (accept_all switch_class [v])).

(** [while records.proof is None] *)
Fixpoint await_proof (fuel : nat) (r : records) : X wireio records :=
  match fuel with
  | O => xlift (Err (PyRuntimeError "fuel"))
  | S fuel' =>
      if negb (is_none (rd_proof r)) then mret r
      else
        f ← xframe;
        r' ← xlift (accept r f);
        _ ← xlift (srequire (is_none (rd_stop r')) "native PID1 transition stopped before proof");
        await_proof fuel' r'
  end.

Definition return_witness (r : records) : T records :=
  _ ← in_session (qask before_terminal (ask_of im a g "switch-root-return" 6 (Some "")));
  encoded ← tlift (switch_encode key (run_of im) (au_nonce a) RETURN 6 "");
  f ← tlift (decode_frame encoded);
  _ ← in_io (xsend f);
  f' ← in_io xframe;
  r' ← tlift (accept r f');
  _ ← tlift (srequire (rd_returned r') "fixed witness return unproved");
  mret r'.

(** From the fresh session to the accepted return *)
Definition switch_passage : T records :=
  _ ← fresh_session switch_session;
  _ ← read_acceptance;
  _ ← in_session qclose;
  r ← in_io (await_proof proof_fuel records0);
  return_witness r.

(** [finally: session.close()], which changes nothing of a closed session *)
Definition closed (p : passage) : passage :=
  {| pa_owner := with_live (stop (ow_live (pa_owner p))) (pa_owner p); pa_io := pa_io p |}.
Definition passage_body (p : passage) : result (joined * records) * passage :=
  let r := switch_passage p in
  let w := ex_chan (pa_io r.2) in
  (let* _ := r.1 in switch_replay_one im domain key witness (wi_rx w) (wi_tx w), closed r.2).
End Session.
End Run.

(** The result, the exchange after the handshake and the passage, if a session was opened *)
Definition switch_qualify `{Digest} (im : image_identity) (domain key witness : string)
    (before_terminal before_extra : option (json → result unit)) (w : wireio) (e : script)
    : result (joined * records) * option (exchange wireio * option passage) :=
  match before_terminal, before_extra with
  | Some permit_return, Some permit_request =>
      let h := handshake im domain key (Ex w audit0 (progress0 true)) in
      match h.1 with
      | Err x => (Err x, Some (h.2, None))
      | Ok _ =>
          let i := session_ident key (run_of im) (au_nonce (ex_audit h.2)) in
          let o := {| ow_clock := sc_clock e; ow_polls := sc_polls e; ow_sends := sc_sends e;
                      ow_live := open_live i (sc_faults e); ow_events := []; ow_granted := [] |} in
          let r := passage_body im domain key witness (wi_deadline w) permit_return permit_request i (ex_audit h.2)
                     (ex_prep h.2) {| pa_owner := o; pa_io := h.2 |} in
          (r.1, Some (h.2, Some r.2))
      end
  | _, _ => (Err (SessionError "switch effects lack their owner callbacks"), None)
  end.
