(* ===== verification/SwitchRunTheory.v ===== *)
(** * What the owner of a PID1 transition did

    What its session sent and in which state it was left; that after a proved health
    command nothing but a fault can follow the status; and that the frames read after
    the session are the ones captured, so the transition replays. *)

From stdpp Require Import base list strings gmap.
From Stdlib Require Import ZArith NArith Lia Ascii.
From S2P Require Import Prelude PyStr Json Digest Bytes Console ConsoleSession ConsoleCodec ConsoleLife ConsoleReplay ConsoleKinds Health WireV3 Handshake HandshakeTheory Arrival ArrivalTheory Owner OwnerTheory Qualify SwitchRoot SwitchRun.
Open Scope string_scope.
Open Scope Z_scope.

#[local] Arguments ConsoleCodec.wire : simpl never.

(** ** After the health check *)

Section After.
Variable c : session_class.
Context `{!SessionLaws c}.

(** What later responses never take back *)
Record later (s t : st) : Prop := {
  lt_responses : st_responses s ⊆ st_responses t;
  lt_terminals : st_terminals s ⊆ st_terminals t;
  lt_faulted : st_faulted s = true → st_faulted t = true
}.
Lemma later_refl s : later s s.
Proof. by split. Qed.
Lemma later_trans s t u : later s t → later t u → later s u.
Proof. intros [] []. split; [by etrans|by etrans|auto]. Qed.
Lemma moved_later s f t : moved s f t → later s t.
Proof. intros (_ & _ & u & Hm & []). split; rewrite ?same_responses0, ?same_terminals0, ?same_faulted0; destruct Hm; cbn; set_solver. Qed.

(** The state before a response, and after it *)
Lemma history_split evs s pre f post :
  history c true evs s → resps evs = (pre ++ f :: post)%list →
  ∃ evs1 s1 s2 r, history c true evs1 s1 ∧ resps evs1 = pre ∧ reqs evs1 `prefix_of` reqs evs
    ∧ sc_validate c s1 f = Ok (s2, r) ∧ later s2 s.
Proof.
  intros Hh. revert post. induction Hh as [|evs s g Hh IH Hq Hc Hw|evs s g s' r Hh IH Hv]; intros post He.
  - by destruct pre.
  - rewrite resps_req in He. destruct (IH post He) as (evs1 & s1 & s2 & r & H1 & H2 & H3 & H4 & H5).
    exists evs1, s1, s2, r. split_and!; try done; [rewrite reqs_app; by apply prefix_app_r|].
    eapply later_trans; [exact H5|by split].
  - rewrite resps_app in He. cbn [resps omap list_omap] in He.
    destruct post as [|h post _] using rev_ind.
    + apply app_inj_tail in He as [He <-]. exists evs, s, s', r.
      split_and!; [done|done|by rewrite reqs_resp|done|apply later_refl].
    + rewrite app_comm_cons, app_assoc in He. apply app_inj_tail in He as [He _].
      destruct (IH post He) as (evs1 & s1 & s2 & r1 & H1 & H2 & H3 & H4 & H5).
      exists evs1, s1, s2, r1. split_and!; try done; [by rewrite reqs_resp|].
      eapply later_trans; [exact H5|]. eapply moved_later, sl_moved, Hv.
Qed.

Lemma health_asked evs s n q :
  history c true evs s → reqs evs `prefix_of` health_requests → st_requests s !! n = Some q →
  n = 3 ∧ q = EXEC ∨ n = 4 ∧ q = STATUS.
Proof.
  intros Hh [rest Hp] Hn. rewrite (history_asked _ _ _ _ Hh) in Hn. destruct (3 <=? n) eqn:E; [|done].
  apply fmap_Some in Hn as (f & Hf & ->). assert (Hf' : health_requests !! Z.to_nat (n - 3) = Some f).
  { rewrite Hp. by apply lookup_app_l_Some. }
  assert (Hlt : (Z.to_nat (n - 3) < 2)%nat) by (apply lookup_lt_Some in Hf'; exact Hf').
  destruct (decide (n = 3)) as [->|]; [injection Hf' as <-; by left|].
  assert (n = 4) as -> by lia. injection Hf' as <-. by right.
Qed.

(** A response of the health command, by its kind *)
Lemma health_response evs s f s' r :
  history c true evs s → reqs evs `prefix_of` health_requests → sc_validate c s f = Ok (s', r) →
  (is_frame f EXIT 3 = true → 3 ∈ st_terminals s')
  ∧ (is_frame f STATUS_REPLY 4 = true → 4 ∉ st_responses s ∧ 4 ∈ st_responses s').
Proof.
  intros Hh Hp Hv. pose proof (health_asked evs s) as Hask. destruct (sl_moved _ _ _ _ Hv) as (_ & _ & t & Hm & Hs).
  rewrite (same_terminals _ _ Hs), (same_responses _ _ Hs).
  split; intros Hf; unfold is_frame in Hf; bsimp; destruct Hm; cbn in *; subst; try done; try set_solver;
    try (edestruct Hask as [[? ?]|[? ?]]; [done|done|done| |]; subst; done).
Qed.
End After.

(** ** The status ends a healthy session *)

Section Status.
Variable c : session_class.
Context `{!SessionLaws c}.

(** With the command ended and the status read, a response reports a fault. *)
Lemma settled_faults evs s f s' r :
  history c true evs s → reqs evs `prefix_of` health_requests → 3 ∈ st_terminals s → 4 ∈ st_responses s →
  sc_validate c s f = Ok (s', r) → st_faulted s' = true.
Proof.
  intros Hh Hp H3 H4 Hv. destruct (sl_moved _ _ _ _ Hv) as (_ & _ & t & Hm & Hs). rewrite (same_faulted _ _ Hs).
  assert (Hr : is_Some (st_ready s)) by (by eapply history_ready).
  assert (H3' : 3 ∈ st_responses s).
  { apply (wf_answered _ (history_wf _ _ _ _ Hh)). set_solver. }
  destruct Hm as [b l Hn|n b Hn|n b Hn|n b Hn|n b Hn|n b Hn|k n q b Hn Hq|k n q b Hn Hq|n q b Hn]; cbn;
    try (rewrite Hn in Hr; by destruct Hr); try done; exfalso;
    destruct (health_asked c evs s _ _ Hh Hp Hn) as [[-> ?]|[-> ?]]; done.
Qed.

Lemma reports_split events kind seq w :
  reports events kind seq w → ∃ pre f post, events = (pre ++ f :: post)%list ∧ is_frame f kind seq = true.
Proof. intros (f & (pre & post & ->)%list_elem_of_split & Hf & _). by exists pre, f, post. Qed.

Lemma reports_single f kind seq w : reports [f] kind seq w → is_frame f kind seq = true.
Proof. by intros (g & ->%list_elem_of_singleton & Hg & _). Qed.

(** The frames of a session up to its status, the last of them *)
Lemma status_last evs s w :
  history c true evs s → reqs evs `prefix_of` health_requests → st_faulted s = false →
  status_after None (resps evs) w → until_status (resps evs) = Ok (resps evs).
Proof.
  intros Hh Hp Hf (pre & f & post & He & Hr%reports_single & Ht).
  destruct Ht as [?|[x (p1 & e & p2 & Ep & Ex)%reports_split]]; [done|].
  assert (Hsplit : ∀ a g b, resps evs = (a ++ g :: b)%list → ∃ evs1 s1 s2 r, history c true evs1 s1 ∧ resps evs1 = a
    ∧ reqs evs1 `prefix_of` health_requests ∧ sc_validate c s1 g = Ok (s2, r) ∧ later s2 s).
  { intros a g b Ha. destruct (history_split c _ _ _ _ _ Hh Ha) as (e1 & s1 & s2 & r & H1 & H2 & H3 & H4 & H5).
    exists e1, s1, s2, r. split_and!; try done. by etrans. }
  (* nothing follows the status *)
  assert (post = []) as ->.
  { destruct post as [|g post]; [done|]. exfalso.
    destruct (Hsplit (pre ++ [f])%list g post) as (evs1 & s1 & s2 & r & H1 & H2 & H3 & H4 & H5).
    { by rewrite He, <- app_assoc. }
    destruct (history_split c evs1 s1 pre f [] H1 H2) as (e2 & t1 & t2 & r2 & K1 & K2 & K3 & K4 & K5).
    assert (Hin4 : 4 ∈ st_responses s1).
    { apply (lt_responses _ _ K5). eapply (health_response c e2 t1); [done|by etrans|done|done]. }
    rewrite Ep, <- app_assoc in H2. cbn [app] in H2.
    destruct (history_split c evs1 s1 p1 e (p2 ++ [f]) H1 H2) as (e3 & u1 & u2 & r3 & L1 & L2 & L3 & L4 & L5).
    assert (Hin3 : 3 ∈ st_terminals s1).
    { apply (lt_terminals _ _ L5). eapply (health_response c e3 u1); [done|by etrans|done|done]. }
    pose proof (settled_faults evs1 s1 g s2 r H1 H3 Hin3 Hin4 H4) as Hfault.
    rewrite (lt_faulted _ _ H5 Hfault) in Hf. done. }
  (* and none precedes it *)
  assert (Hno : Forall (λ g, is_frame g STATUS_REPLY 4 = false) pre).
  { apply Forall_forall. intros g (a & b & Ea)%list_elem_of_split. apply not_true_is_false. intros Hg.
    destruct (Hsplit pre f []) as (evs1 & s1 & s2 & r & H1 & H2 & H3 & H4 & H5); [done|].
    rewrite Ea in H2. destruct (history_split c evs1 s1 a g b H1 H2) as (e2 & t1 & t2 & r2 & K1 & K2 & K3 & K4 & K5).
    destruct (proj2 (health_response c evs1 s1 f s2 r H1 H3 H4) Hr) as [Hnot _].
    destruct (proj2 (health_response c e2 t1 g t2 r2 K1 ltac:(by etrans) K4) Hg) as [_ Hin].
    by apply Hnot, (lt_responses _ _ K5). }
  rewrite He. clear -Hno Hr. induction Hno as [|g pre Hg _ IH]; cbn [app until_status].
  - by rewrite Hr.
  - rewrite Hg, IH. done.
Qed.
End Status.

Lemma until_status_app events rest : until_status events = Ok events → until_status (events ++ rest) = Ok events.
Proof.
  assert (Hgo : ∀ l, until_status events = Ok l → until_status (events ++ rest) = Ok l); [|apply Hgo].
  induction events as [|f events IH]; intros l; [done|]. cbn [app until_status]. destruct (is_frame f STATUS_REPLY 4); [done|].
  intros (l' & Hl & [= <-])%rbind_Ok. by rewrite (IH _ Hl).
Qed.

(** ** What a replay needs of the health check *)

(** A fault is remembered. *)
Lemma fault_known s f s' r : switch_validate s f = Ok (s', r) → fr_kind f = FAULT → st_faulted s' = true.
Proof.
  intros Hv Hk. rewrite switch_other, detach_other in Hv by (rewrite Hk; done).
  apply with_last_inv in Hv as (t & Hv & Hs & _). rewrite (same_faulted _ _ Hs).
  unfold validate in Hv. rewrite Hk in Hv. apply rbind_Ok in Hv as ([] & _ & Hv). cbn in Hv.
  apply rbind_Ok in Hv as ([] & _ & Hv). destruct (st_requests s !! fr_seq f); [|done].
  unfold on_fault in Hv. by apply rbind_Ok in Hv as ([] & _ & [= <- <-]).
Qed.
Lemma faults_known evs s f : history switch_class true evs s → f ∈ resps evs → fr_kind f = FAULT → st_faulted s = true.
Proof.
  intros Hh (pre & post & He)%list_elem_of_split Hk.
  destruct (history_split switch_class _ _ _ _ _ Hh He) as (e1 & s1 & s2 & r & _ & _ & _ & Hv & Hl).
  eapply (lt_faulted _ _ Hl), fault_known; [exact Hv|done].
Qed.

(** The requests up to the fourth sequence number *)
Notation early m := (filter (λ kv : Z * Z, kv.1 ≤ 4) m).

(** A state with the same facts has the same fixed health, whatever follows. *)
Definition fit (o : owner) : Prop :=
  let s := lv_st (ow_live o) in
  ∀ s' rest, st_ready s' = st_ready s → st_bodies s' !! 3 = st_bodies s !! 3 → st_accepted s' = st_accepted s →
    early (st_requests s') = early (st_requests s) → fixed_health s' (ow_events o ++ rest) = Ok tt.

Lemma health_map evs s :
  history switch_class true evs s → reqs evs = health_requests → st_requests s = <[3 := EXEC]> {[ 4 := STATUS ]}.
Proof.
  intros Hh Hp. apply map_eq. intros n. rewrite (history_asked _ _ _ _ Hh), Hp. destruct (3 <=? n) eqn:E.
  - destruct (decide (n = 3)) as [->|]; [done|]. destruct (decide (n = 4)) as [->|]; [done|].
    rewrite lookup_insert_ne, lookup_singleton_ne by done. rewrite lookup_ge_None_2; [done|]. cbn. lia.
  - rewrite lookup_insert_ne, lookup_singleton_ne by lia. done.
Qed.

Lemma health_fits evs o :
  history switch_class true evs (lv_st (ow_live o)) → reqs evs = health_requests → ow_events o = resps evs →
  health_proved o → fit o.
Proof.
  intros Hh Hp He Hv s' rest Hr Hb Ha Hq. unfold health_proved in Hv. rewrite He in Hv |- *.
  pose proof (validate_console_healthy _ _ Hv) as Hhealth. pose proof (hl_fault _ _ Hhealth) as Hf. cbn in Hf.
  assert (Hu : until_status (resps evs) = Ok (resps evs)).
  { eapply (status_last switch_class); [done|by rewrite Hp|done|apply (hl_idle _ _ Hhealth)]. }
  unfold fixed_health. rewrite (until_status_app _ rest Hu). cbn [rbind].
  assert (Hfault : existsb (λ f, fr_kind f =? FAULT) (resps evs) = false).
  { apply not_true_is_false. intros (f & Hf1%list_elem_of_In & Hf2%Z.eqb_eq)%existsb_exists.
    rewrite (faults_known _ _ _ Hh Hf1 Hf2) in Hf. done. }
  pose proof (health_map _ _ Hh Hp) as Hm. rewrite <- Hv.
  unfold validate_console, health_view, view_of. cbn [vw_ready vw_requests vw_bodies vw_accepted vw_faulted].
  rewrite Hr, Hb, Ha, Hfault, Hf. rewrite Hq, Hm. replace (early (<[3:=EXEC]> {[4:=STATUS]} : gmap Z Z)) with (<[3:=EXEC]> {[4:=STATUS]} : gmap Z Z); [done|].
  by vm_compute.
Qed.

(** ** The session of a transition *)

#[export] Instance switch_ending : EndingLaws switch_class [ACCEPTED] [REQUEST].
Proof.
  split; [|intros kind; cbn; by rewrite orb_false_r]. intros s f s' r Hv Hk. cbn in Hk. rewrite orb_false_r in Hk.
  apply Z.eqb_eq in Hk. by apply switch_accepted in Hv as (-> & _).
Qed.

(** What a send that returns changes of the session *)
Lemma send_state `{Digest} i c kind body now timeout tries l n l' :
  send i c kind body now timeout tries l = (Ok n, l') →
  lv_st l' = note_request c true (lv_st l) kind (lv_sequence l) body ∧ lv_pending l' = lv_pending l.
Proof.
  unfold send, mbind, L_bind. destruct (send_guard i c l kind body) as [w|e]; [|done].
  unfold or_stop, lget, lset, mret, L_ret. destruct (live_tick_cases l) as [[k ->]|[e ->]]; [|done].
  set (l1 := add_file (lv_sequence l) body (with_faults k l)).
  destruct (record_cases (intent_row (lv_sequence l) kind body) l1) as [[m ->]|[e ->]]; [|done].
  destruct (deliver _ _ _ _) as [[[]|e] l3] eqn:Ed; [|done].
  apply deliver_spec in Ed as (sent & seen & [_ _ _ _ (Es & _ & Ep & _)] & _).
  destruct (record_cases (sent_row (lv_sequence l)) l3) as [[j ->]|[e ->]]; [|done]. intros [= _ <-].
  cbn. by rewrite Es, Ep.
Qed.

Section Session.
Context `{Digest}.
Variables (im : image_identity) (deadline : Z) (before_extra : json → result unit).
Variables (i : ident) (a : audit) (g : progress).
Hypothesis Hi : ident_ok i = true.

Definition transition_ask : json := ask_of im a g "fixed-pid1-transition" 5 (Some "").
Definition return_ask : json := ask_of im a g "switch-root-return" 6 (Some "").

(** The requests of a transition; its own was granted before it was made. *)
Inductive switch_allowed (gs : grants) : wframe → Prop :=
  | sa_health f : f ∈ health_requests → switch_allowed gs f
  | sa_transition : granted gs transition_ask 5 → switch_allowed gs (Fr REQUEST 5 "").
#[export] Instance switch_allowed_more : Allowance switch_allowed.
Proof. intros gs r f [h Hh|Hg]; [by apply sa_health|by apply sa_transition, granted_more]. Qed.

Notation leads := (leads i switch_class switch_allowed).
Notation on := (going i switch_class switch_allowed).

(** Ready to read the acceptance *)
Definition requested_transition (o : owner) : Prop :=
  on (switch_frames COMMAND_BODY) o ∧ lv_pending (ow_live o) = "" ∧ fit o.

Lemma leads_frame {A} P (m : Q A) R (F : owner → Prop) :
  leads P m R → (∀ o v o', F o → m o = (Ok v, o') → F o') → leads (λ o, P o ∧ F o) m (λ v o, R v o ∧ F o).
Proof.
  intros Hm Hf o [Hp Ho]. specialize (Hm o Hp). destruct (m o) as [[v|e] o'] eqn:E; [|done]. split; [done|by eapply Hf].
Qed.

Lemma fit_request o o' :
  fit o → ow_events o' = ow_events o →
  lv_st (ow_live o') = note_request switch_class true (lv_st (ow_live o)) REQUEST 5 "" → fit o'.
Proof.
  intros Ho He Hs s' rest. rewrite He, Hs. cbn [note_request st_ready st_bodies st_accepted st_requests].
  intros Hr Hb Ha Hq. apply Ho; [done|by rewrite Hb, lookup_insert_ne|done|]. rewrite Hq, map_filter_insert_not; [done|]. intros; cbn; lia.
Qed.

Lemma leads_request :
  leads (λ o, (on health_requests o ∧ granted (ow_granted o) transition_ask 5) ∧ (lv_pending (ow_live o) = "" ∧ fit o))
    (qsend i switch_class REQUEST "" 2000) (λ _, requested_transition).
Proof.
  intros o [[Ho Hg] [Hp Hf]].
  pose proof (leads_send i switch_class switch_allowed health_requests REQUEST "" 2000 o
    (conj Ho (sa_transition _ Hg))) as Hsend.
  pose proof (going_sequence _ _ _ _ o Ho) as Hq. change (3 + Z.of_nat (length health_requests)) with 5 in *.
  unfold qsend in *. destruct (match ow_sends o with s :: _ => s | [] => (0, []) end) as [now tries].
  destruct (send i switch_class REQUEST "" now 2000 tries (ow_live o)) as [[n|e] l] eqn:Es; cbn [fst snd] in *; [|done].
  destruct Hsend as [_ Hon]. destruct (send_state _ _ _ _ _ _ _ _ _ _ Es) as [Est Ep]. split_and!; [exact Hon| |].
  - change (lv_pending l = ""). by rewrite Ep.
  - eapply fit_request; [exact Hf|done|]. change (lv_st l = note_request switch_class true (lv_st (ow_live o)) REQUEST 5 "").
    by rewrite Est, Hq.
Qed.

Lemma leads_switch : leads (on []) (switch_session im deadline before_extra i a g) (λ _, requested_transition).
Proof.
  unfold switch_session. eapply leads_bind; [apply leads_now|]. intros t.
  eapply leads_bind.
  { apply leads_console; [done|]. intros gs. apply Forall_forall. by constructor. }
  intros ?. eapply leads_bind with (R := λ p o, p = lv_pending (ow_live o) ∧ (on health_requests o ∧ fit o)).
  { intros o [Ho Hv]. cbn. split_and!; [done|done|]. destruct Ho as (evs & Hinv & Hfs & _ & He & _).
    eapply health_fits; [apply (iv_history _ _ _ _ Hinv)|done..]. }
  intros p. set (P := λ o, on health_requests o ∧ lv_pending (ow_live o) = "" ∧ fit o).
  assert (HPs : ∀ o, P o → safe i switch_class switch_allowed o) by (intros o [Ho _]; by eapply going_safe).
  eapply leads_bind with (R := λ ok o, on health_requests o ∧ (ok = true → P o)).
  { destruct (p =? "")%string eqn:Ep; [apply String.eqb_eq in Ep as ->|].
    - intros o (Hp & Ho & Hf). unfold qnow, mbind, Q_bind, tick_clock. destruct (ow_clock o); [by eapply going_safe|].
      split; [done|]. intros _. by split_and!.
    - intros o (Hp & Ho & Hf). by split. }
  intros ok. eapply leads_bind with (R := λ _, P).
  { intros o [Ho Hok]. unfold qlift, srequire, Prelude.require. destruct ok; [by apply Hok|by eapply going_safe]. }
  intros ?. eapply leads_bind.
  { eapply (leads_frame _ _ _ (λ o, lv_pending (ow_live o) = "" ∧ fit o)); [apply (leads_ask i switch_class switch_allowed)|].
    intros o w o1 Hf. unfold qask. destruct (before_extra _); intros [= _ <-]. done. }
  intros ?. eapply leads_bind; [apply leads_request|]. intros n o Ho. done.
Qed.
End Session.
