(* ===== verification/SwitchPassage.v ===== *)
(** * The transport of a PID1 transition after its session

    What a live read or send leaves on the wire and in the capture, and the account of
    a whole passage: until the return was granted on a complete witness nothing but
    the requests of the session was sent; a passage that returned captured the frames
    of its acceptance, its records and its return, and nothing else. *)

From stdpp Require Import base list strings gmap.
From Stdlib Require Import ZArith NArith Lia Ascii.
From S2P Require Import Prelude PyStr Json Digest Bytes Console ConsoleSession ConsoleCodec ConsoleLife ConsoleReplay ConsoleKinds Health WireV3 Handshake HandshakeTheory Arrival ArrivalTheory Owner OwnerTheory Qualify SwitchRoot SwitchRun SwitchRunTheory.
Open Scope string_scope.
Open Scope Z_scope.

#[local] Arguments ConsoleCodec.wire : simpl never.

(** ** One read, one send *)

Section Transport.
Context `{Digest}.

Lemma encodeds_app fs gs : encodeds (fs ++ gs) = encodeds fs ++ encodeds gs.
Proof. induction fs as [|f fs IH]; [done|]. cbn [app encodeds]. by rewrite IH, str_app_assoc. Qed.
Lemma encodeds_one f : encodeds [f] = encoded f.
Proof. apply str_app_nil. Qed.

Lemma read_rounds_wire size got tries w r w' : read_rounds size got tries w = (r, w') → wi_wire w' = wi_wire w.
Proof.
  revert got w. induction tries as [|t tries IH]; intros got w; cbn [read_rounds]; destruct (_ <=? _)%nat;
    try (by intros [= _ <-]).
  destruct (_ <=? _); [by intros [= _ <-]|].
  destruct (rt_read t) as [| |data|e]; try (by intros [= _ <-]); [apply IH|]. cbv zeta.
  destruct (_ =? _)%string; [by intros [= _ <-]|]. destruct (spend _) as [n|]; [|by intros [= _ <-]].
  intros Hr. by rewrite (IH _ _ Hr).
Qed.

Lemma live_frame_wire x r x' : xframe (C := wireio) x = (r, x') → wi_wire (ex_chan x') = wi_wire (ex_chan x).
Proof.
  unfold xframe, xread, mbind, X_bind, xlift. cbn [ch_read live_channel]. unfold live_read.
  destruct (read_rounds 16 "" (wi_in (ex_chan x)) (ex_chan x)) as [[h|e] w1] eqn:E1; cbn [fst snd];
    [|intros [= _ <-]; cbn; by apply read_rounds_wire in E1].
  apply read_rounds_wire in E1. destruct (verr _ _); [|intros [= _ <-]; done]. cbn [ex_chan].
  destruct (read_rounds _ "" (wi_in w1) w1) as [[b|e] w2] eqn:E2; cbn [fst snd]; intros [= _ <-]; cbn;
    apply read_rounds_wire in E2; congruence.
Qed.

(** A frame read was captured whole, and nothing else changed. *)
Lemma live_frame x f x' :
  xframe (C := wireio) x = (Ok f, x') →
  (wi_rx (ex_chan x') = wi_rx (ex_chan x) ++ encoded f ∧ wi_tx (ex_chan x') = wi_tx (ex_chan x)
   ∧ wi_wire (ex_chan x') = wi_wire (ex_chan x))
  ∧ sendable f ∧ ex_audit x' = ex_audit x ∧ ex_prep x' = ex_prep x.
Proof.
  intros Hf. pose proof (live_frame_wire _ _ _ Hf) as Hw. destruct x as [w a p], x' as [w' a' p'].
  destruct (replays_frame w a p _ _ _ _ Hf) as (s & t & Es & Et & Hr). specialize (Hr f eq_refl "" "" 0%nat 0%nat).
  apply xframe_Ok in Hr as ([P1 P2 _ _] & Hs & [Ea Ep]). cbn in *. rewrite !str_app_nil in *. subst s t.
  rewrite str_app_nil in Et. done.
Qed.

Lemma send_rounds_wire raw tries w r w' :
  send_rounds raw tries w = (r, w') →
  ∃ sent rest, raw = sent ++ rest ∧ wi_wire w' = wi_wire w ++ sent ∧ (r = Ok tt → rest = "").
Proof.
  revert raw w. induction tries as [|t tries IH]; intros raw w; cbn [send_rounds].
  all: destruct (raw =? "")%string eqn:Es.
  all: try (apply String.eqb_eq in Es as ->; intros [= <- <-]; exists "", ""; cbn; by rewrite str_app_nil).
  - intros [= <- <-]. exists "", raw. cbn. by rewrite str_app_nil.
  - assert (Hnone : ∀ e w1, wi_wire w1 = wi_wire w → (Err e, wi_gave tries w1) = (r, w') →
      ∃ sent rest, raw = sent ++ rest ∧ wi_wire w' = wi_wire w ++ sent ∧ (r = Ok tt → rest = "")).
    { intros e w1 Hw [= <- <-]. exists "", raw. cbn. by rewrite str_app_nil, Hw. }
    destruct (_ <=? _); [by apply Hnone|]. destruct (wt_guard t); [by apply Hnone|].
    destruct (wt_write t) as [|[|n]|e]; [apply IH|by apply Hnone| |by apply Hnone]. cbv zeta.
    destruct (spend (wi_faults w)) as [k|].
    + intros Hr. destruct (IH _ _ Hr) as (sent & rest & Er & Ew & Hok). cbn [wi_wire wi_capture_tx wi_put] in Ew.
      exists (stake (S n) raw ++ sent), rest. rewrite <- str_app_assoc, <- Er, stake_sdrop. split_and!; [done| |done].
      by rewrite Ew, str_app_assoc.
    + intros [= <- <-]. exists (stake (S n) raw), (sdrop (S n) raw). rewrite stake_sdrop. by split_and!.
Qed.

(** A send put a part of the frame on the wire, all of it when it returned. *)
Lemma live_sent f x r x' :
  sendable f → xsend (C := wireio) f x = (r, x') →
  (∃ sent rest, encoded f = sent ++ rest ∧ wi_wire (ex_chan x') = wi_wire (ex_chan x) ++ sent
    ∧ (r = Ok tt → rest = "" ∧ wi_tx (ex_chan x') = wi_tx (ex_chan x) ++ encoded f))
  ∧ wi_rx (ex_chan x') = wi_rx (ex_chan x) ∧ ex_audit x' = ex_audit x ∧ ex_prep x' = ex_prep x.
Proof.
  intros Hf Hs. unfold xsend in Hs. cbn [ch_send live_channel] in Hs. unfold live_send in Hs.
  rewrite (proj2 (encode_frame_Ok f (encoded f)) (conj Hf eq_refl)) in Hs.
  destruct (send_rounds (encoded f) (wi_out (ex_chan x)) (ex_chan x)) as [r0 w0] eqn:E. injection Hs as <- <-. cbn [ex_chan ex_audit ex_prep fst snd].
  destruct (send_rounds_wire _ _ _ _ _ E) as (sent & rest & Er & Ew & Hok).
  destruct (send_rounds_capture _ _ _ _ _ E) as (y & Ey & Ex & Hy).
  split; [|done]. exists sent, rest. split_and!; [done|done|]. intros Hr. split; [by apply Hok|]. by rewrite Ey, Hy.
Qed.
End Transport.

(** ** The passage *)

Section Passage.
Context `{Digest}.
Variables (im : image_identity) (domain key witness : string) (deadline : Z).
Variables (before_terminal before_extra : json → result unit).
Variables (i : ident) (x0 : exchange wireio).
Hypothesis Hi : ident_ok i = true.
Notation a := (ex_audit x0).
Notation g := (ex_prep x0).
Notation accept := (accept_record key (run_of im) (au_nonce a) (switch_config_of witness (au_boot a))).
Notation switch_allowed := (switch_allowed im a g).
Notation chan p := (ex_chan (pa_io p)).
Notation session p := (ow_live (pa_owner p)).

(** The frame that returns control *)
Definition return_frame : wframe := Fr RETURN 6 (switch_tag key (run_of im) (au_nonce a) false RETURN 6 "").

(** The requests on the wire are the first ones of a transition, all allowed. *)
Definition asked_only (o : owner) : Prop :=
  ∃ fs rest, fs `prefix_of` switch_frames COMMAND_BODY ∧ wires i fs = lv_wire (ow_live o) ++ rest
    ∧ Forall (switch_allowed (ow_granted o)) fs.

(** The return was granted, and the records read before prove the witness. *)
Definition justified (p : passage) : Prop :=
  (∃ s, (return_ask im a g, s) ∈ ow_granted (pa_owner p))
  ∧ ∃ f frs post r proof,
      wi_rx (chan p) = (wi_rx (ex_chan x0) ++ lv_rx (session p)) ++ encodeds (f :: frs) ++ post
      ∧ foldM accept records0 frs = Ok r ∧ rd_proof r = Some proof.

(** What holds however a passage ends *)
Definition disciplined (p : passage) : Prop :=
  asked_only (pa_owner p)
  ∧ ∃ sent rest, wi_wire (chan p) = (wi_wire (ex_chan x0) ++ lv_wire (session p)) ++ sent
      ∧ encoded return_frame = sent ++ rest ∧ (sent = "" ∨ justified p).

(** After the session [o] ended the frames [fs] were read and [sent] was sent. *)
Record since (o : owner) (fs : list wframe) (sent : string) (p : passage) : Prop := {
  sn_rx : wi_rx (chan p) = (wi_rx (ex_chan x0) ++ lv_rx (ow_live o)) ++ encodeds fs;
  sn_tx : wi_tx (chan p) = (wi_tx (ex_chan x0) ++ lv_tx (ow_live o)) ++ sent;
  sn_wire : wi_wire (chan p) = (wi_wire (ex_chan x0) ++ lv_wire (ow_live o)) ++ sent;
  sn_facts : ex_audit (pa_io p) = a ∧ ex_prep (pa_io p) = g;
  sn_session : lv_rx (session p) = lv_rx (ow_live o) ∧ lv_tx (session p) = lv_tx (ow_live o)
    ∧ lv_wire (session p) = lv_wire (ow_live o);
  sn_grants : ∃ gs, ow_granted (pa_owner p) = (ow_granted o ++ gs)%list;
  sn_requested : requested_transition im i a g o;
  sn_sendable : Forall sendable fs
}.

Lemma allowed_health_only gs f : switch_allowed gs f →
  (fr_seq f = 3 → f = Fr EXEC 3 COMMAND_BODY) ∧ (fr_seq f = 4 → f = Fr STATUS 4 "")
  ∧ (fr_seq f = 5 → f = Fr REQUEST 5 "") ∧ fr_seq f ≤ 5.
Proof.
  intros [h Hh|]; [|done]. unfold health_requests in Hh. rewrite !elem_of_cons, elem_of_nil in Hh.
  by destruct Hh as [->|[->|?]].
Qed.

Lemma allowed_prefix gs fs :
  Forall (switch_allowed gs) fs → (∀ n f, fs !! n = Some f → fr_seq f = 3 + Z.of_nat n) →
  fs `prefix_of` switch_frames COMMAND_BODY.
Proof.
  intros Ha Hn. exists (drop (length fs) (switch_frames COMMAND_BODY)).
  assert (Hl : (length fs ≤ 3)%nat).
  { destruct (decide (length fs ≤ 3)%nat) as [|Hl]; [done|]. destruct (lookup_lt_is_Some_2 fs 3) as [f Hf]; [lia|].
    pose proof (Hn _ _ Hf). rewrite Forall_lookup in Ha. destruct (allowed_health_only _ _ (Ha _ _ Hf)) as (_ & _ & _ & ?). lia. }
  rewrite <- (take_drop (length fs) (switch_frames COMMAND_BODY)) at 1. f_equal. symmetry. apply list_eq.
  intros n. destruct (fs !! n) as [f|] eqn:Hf.
  - pose proof (Hn _ _ Hf) as Hs. pose proof (lookup_lt_Some _ _ _ Hf). rewrite lookup_take_lt by done.
    rewrite Forall_lookup in Ha. destruct (allowed_health_only _ _ (Ha _ _ Hf)) as (H3 & H4 & H5 & _).
    destruct n as [|[|[|n]]]; [by rewrite H3|by rewrite H4|by rewrite H5|lia].
  - apply lookup_ge_None in Hf. rewrite lookup_ge_None_2; [done|]. rewrite length_take. lia.
Qed.

Lemma safe_asked o : safe i switch_class switch_allowed o → asked_only o.
Proof.
  intros (fs & evs & Hinv & <- & Ha). destruct (iv_wire _ _ _ _ Hinv) as (rest & Hw & _).
  exists (reqs evs), rest. split_and!; [|done|done]. apply (allowed_prefix _ _ Ha).
  intros n f. by apply (history_numbered _ _ _ _ n f (iv_history _ _ _ _ Hinv)).
Qed.

Lemma asked_more o o' gs :
  asked_only o → lv_wire (ow_live o') = lv_wire (ow_live o) → ow_granted o' = (ow_granted o ++ gs)%list → asked_only o'.
Proof.
  intros (fs & rest & Hp & Hw & Ha) Hl Hg. exists fs, rest. rewrite Hl, Hg. split_and!; [done|done|].
  clear Hg. revert Ha. generalize (ow_granted o). induction gs as [|r gs IH]; intros l Ha; [by rewrite app_nil_r|].
  rewrite cons_middle, app_assoc. apply IH. eapply Forall_impl; [exact Ha|]. intros f. apply allowance_more.
Qed.

Lemma since_asked o fs sent p : since o fs sent p → asked_only (pa_owner p).
Proof.
  intros Hs. destruct (sn_grants _ _ _ _ Hs) as [gs Hg]. eapply asked_more; [|apply (sn_session _ _ _ _ Hs)|exact Hg].
  apply safe_asked. eapply going_safe. apply (sn_requested _ _ _ _ Hs).
Qed.
Lemma since_disciplined o fs p : since o fs "" p → disciplined p.
Proof.
  intros Hs. split; [by eapply since_asked|]. exists "", (encoded return_frame). rewrite (sn_wire _ _ _ _ Hs).
  destruct (sn_session _ _ _ _ Hs) as (_ & _ & ->). split_and!; [done|done|by left].
Qed.

(** ** Rules *)

Definition tleads {A} (P : passage → Prop) (m : T A) (R : A → passage → Prop) : Prop :=
  ∀ p, P p → match m p with (Ok v, p') => R v p' | (Err _, p') => disciplined p' end.

Lemma tleads_bind {A B} P (m : T A) (f : A → T B) R S :
  tleads P m R → (∀ v, tleads (R v) (f v) S) → tleads P (v ← m; f v) S.
Proof.
  intros Hm Hf p Hp. unfold mbind, T_bind. specialize (Hm p Hp). destruct (m p) as [[v|e] p']; [|done]. by apply Hf.
Qed.
Lemma tleads_lift {A} P (r : result A) : (∀ p, P p → disciplined p) → tleads P (tlift r) (λ v p, r = Ok v ∧ P p).
Proof. intros Hd p Hp. unfold tlift. destruct r as [v|e]; [done|by apply Hd]. Qed.
Lemma tleads_pure {A} (F : Prop) P (m : T A) R : (F → tleads P m R) → tleads (λ p, F ∧ P p) m R.
Proof. intros Hm p [Hf Hp]. by apply Hm. Qed.

Lemma in_io_bind {A B} (m : X wireio A) (f : A → X wireio B) p :
  in_io (v ← m; f v) p = (v ← in_io m; in_io (f v)) p.
Proof. unfold in_io, mbind, T_bind, X_bind. destruct (m (pa_io p)) as [[v|e] x]; done. Qed.
Lemma in_io_lift {A} (r : result A) p : in_io (xlift r) p = tlift r p.
Proof. by destruct p. Qed.

(** Reading more, or failing to, keeps the discipline. *)
Lemma disciplined_io p x :
  disciplined p → wi_wire (ex_chan x) = wi_wire (chan p) → (∃ s, wi_rx (ex_chan x) = wi_rx (chan p) ++ s) →
  disciplined {| pa_owner := pa_owner p; pa_io := x |}.
Proof.
  intros (Ha & sent & rest & Hw & Hr & Hj) Ew [s Es]. split; [done|]. exists sent, rest. cbn. rewrite Ew.
  split_and!; [done|done|]. destruct Hj as [->|(Hg & f & frs & post & r & pf & Erx & Hf & Hp)]; [by left|right].
  split; [done|]. exists f, frs, (post ++ s), r, pf. cbn [pa_io pa_owner]. rewrite Es, Erx. by rewrite <- !str_app_assoc.
Qed.

Lemma tleads_frame o fs sent :
  tleads (λ p, since o fs sent p ∧ disciplined p) (in_io xframe)
    (λ f p, sendable f ∧ since o (fs ++ [f])%list sent p ∧ disciplined p).
Proof.
  intros p [Hs Hd]. unfold in_io. destruct (xframe (pa_io p)) as [r x] eqn:E. cbn [fst snd].
  assert (Hd' : disciplined {| pa_owner := pa_owner p; pa_io := x |}).
  { apply disciplined_io; [done|by eapply live_frame_wire|]. destruct (pa_io p) as [w au pr], x as [w' au' pr'].
    destruct (replays_frame w au pr _ _ _ _ E) as (s & t & Es & _). by exists s. }
  destruct r as [f|e]; [|done]. apply live_frame in E as ((Erx & Etx & Ew) & Hf & Ea & Ep). split_and!; [done| |done].
  destruct Hs as [H1 H2 H3 [H4 H5] H6 H7 H8 H9]. split; cbn; try done; try congruence.
  - by rewrite Erx, H1, encodeds_app, encodeds_one, <- str_app_assoc.
  - split; congruence.
  - apply Forall_app. split; [done|by apply Forall_singleton].
Qed.

(** ** The steps *)

Definition started (p : passage) : Prop :=
  going i switch_class switch_allowed [] (pa_owner p) ∧ pa_io p = x0.

Lemma tleads_session :
  tleads started (fresh_session (switch_session im deadline before_extra i a g)) (λ _ p, ∃ o, since o [] "" p ∧ pa_owner p = o).
Proof.
  intros p [Ho Hx]. pose proof (leads_switch im deadline before_extra i a g Hi _ Ho) as Hl. unfold fresh_session.
  destruct (switch_session _ _ _ _ _ _ (pa_owner p)) as [[[]|e] o]; cbn [fst snd].
  - exists o. split; [|done].
    split; cbn; rewrite ?Hx, ?str_app_nil; try done. exists []. symmetry. apply app_nil_r.
  - split; [by apply safe_asked|]. exists "", (encoded return_frame). cbn. rewrite Hx, str_app_nil.
    split_and!; [done|done|by left].
Qed.

(** The acceptance is one frame of the session, after which it is finished. *)
Definition accepted_by (o : owner) (f : wframe) (s : st) : Prop :=
  ∃ v r, encoded f = ConsoleCodec.wire i v ∧ encodable v ∧ fr_kind v = ACCEPTED
    ∧ switch_validate (lv_st (ow_live o)) v = Ok (s, r).

Lemma one_frame f v rest :
  sendable f → encodable v → encoded f = ConsoleCodec.wire i v ++ rest → rest = "".
Proof.
  intros Hf Hv He. assert (Hl : String.length (encoded f) = (16 + String.length (fr_body f))%nat) by apply encoded_length.
  pose proof (front_header_size i v rest Hv) as Hz. rewrite <- He in Hz.
  destruct (encoded_fields f "" Hf) as (_ & (Es & _) & _). rewrite str_app_nil in Es.
  unfold header_size in Hz. unfold hd_size in Es. rewrite Es in Hz. unfold zlen in Hz. rewrite Nat2Z.id in Hz.
  rewrite He, str_length_app, (wire_length i) in Hl. destruct rest; [done|]. cbn in Hl. lia.
Qed.

Lemma one_fed f v q : sendable f → feed i "" (encoded f) = (Ok [v], q) → encoded f = ConsoleCodec.wire i v ∧ encodable v.
Proof.
  intros Hf (He & Hv & _)%feed_exact; [|done]. apply Forall_cons in Hv as [Hv _]. cbn [wires] in He.
  rewrite str_app_nil in He. change ("" ++ encoded f) with (encoded f) in He.
  rewrite (one_frame f v q Hf Hv He), str_app_nil in He. done.
Qed.

Lemma tleads_acceptance o :
  tleads (λ p, since o [] "" p ∧ pa_owner p = o) (read_acceptance i)
    (λ _ p, ∃ f s, accepted_by o f s ∧ since o [f] "" p).
Proof.
  unfold read_acceptance. eapply tleads_bind with (R := λ f p, sendable f ∧ since o [f] "" p ∧ pa_owner p = o).
  { intros p [Hs Ho]. pose proof (tleads_frame o [] "" p (conj Hs (since_disciplined _ _ _ Hs))) as Hf.
    unfold in_io in *. destruct (xframe (pa_io p)) as [[f|e] x]; [|done]. by destruct Hf as (? & ? & _). }
  intros f. apply tleads_pure. intros Hf.
  assert (Hd : ∀ p, since o [f] "" p ∧ pa_owner p = o → disciplined p) by (intros p [Hs _]; by eapply since_disciplined).
  eapply tleads_bind; [by apply tleads_lift|]. intros raw. apply tleads_pure. intros [_ ->]%encode_frame_Ok.
  eapply tleads_bind; [by apply tleads_lift|]. intros values. apply tleads_pure. intros Hv.
  eapply tleads_bind; [by apply tleads_lift|]. intros v. apply tleads_pure. intros Hone.
  destruct values as [|v' [|? ?]]; [done| |done]. apply rbind_Ok in Hone as ([] & Hk%require_Ok & [= ->]). bsimp.
  assert (Hw : encoded f = ConsoleCodec.wire i v ∧ encodable v).
  { destruct (feed i "" (encoded f)) as [fd q] eqn:Ef. cbn in Hv. subst fd. by apply (one_fed f v q). }
  intros p [Hs Ho]. unfold in_session, qlive. cbn [fst snd]. destruct (accept_all switch_class [v] (ow_live (pa_owner p))) as [r l] eqn:Ea.
  cbn [fst snd]. pose proof (sn_requested _ _ _ _ Hs) as (Hon & _ & _). destruct Hon as (evs & Hinv & _ & _ & _ & _).
  rewrite Ho in Ea. destruct (accept_all_spec switch_class evs [v] _ _ _ (iv_history _ _ _ _ Hinv) Ea) as (_ & _ & _ & _ & [Hsame _] & _).
  assert (Hs' : since o [f] "" {| pa_owner := with_live l (pa_owner p); pa_io := pa_io p |}).
  { destruct Hs as []. destruct Hsame as (_ & _ & _ & _ & _ & E1 & E2 & E3).
    split; cbn; try done. }
  destruct r as [u|e]; [|by eapply since_disciplined].
  exists f, (lv_st l). split; [|done]. destruct Hw as [Hw He].
  cbn [accept_all] in Ea. unfold mbind at 1, L_bind at 1, lget in Ea. unfold mbind at 1, L_bind at 1, llift in Ea.
  change (sc_validate switch_class) with switch_validate in Ea.
  destruct (switch_validate (lv_st (ow_live o)) v) as [[s row]|e] eqn:Ev; [|done].
  assert (Hst : lv_st l = s).
  { unfold mbind, L_bind, lset in Ea. cbn [fst snd] in Ea. destruct row as [row|].
    - destruct (record_cases row (with_st s (ow_live o))) as [[k Hr]|[e Hr]]; rewrite Hr in Ea; [|done]. by injection Ea as _ <-.
    - by injection Ea as _ <-. }
  rewrite Hst. by exists v, row.
Qed.

Lemma tleads_close o fs (F : Prop) :
  tleads (λ p, F ∧ since o fs "" p) (in_session qclose) (λ _ p, F ∧ since o fs "" p).
Proof. intros p [HF []]. unfold in_session, qclose. cbn. split; [done|]. by split. Qed.

(** The records up to the witness *)
Lemma tleads_await o f fuel frs r :
  foldM accept records0 frs = Ok r →
  tleads (since o (f :: frs) "") (in_io (await_proof im key witness a fuel r))
    (λ r' p, ∃ frs' proof, since o (f :: frs') "" p ∧ foldM accept records0 frs' = Ok r' ∧ rd_proof r' = Some proof).
Proof.
  revert frs r. induction fuel as [|fuel IH]; intros frs r Hr p Hp; cbn [await_proof].
  { unfold in_io, xlift. cbn. destruct p. by eapply since_disciplined. }
  destruct (rd_proof r) as [pf|] eqn:Epf; cbn [is_none negb].
  { unfold in_io. cbn. exists frs, pf. destruct p. done. }
  assert (Hd : ∀ fs p, since o fs "" p → disciplined p) by (intros fs q; apply since_disciplined).
  rewrite in_io_bind. revert p Hp. eapply (tleads_bind (since o (f :: frs) "")).
  { intros p Hp. exact (tleads_frame o (f :: frs) "" p (conj Hp (Hd _ _ Hp))). }
  intros fr p (Hf & Hs & _). rewrite in_io_bind. revert p Hs.
  eapply (tleads_bind (since o (f :: (frs ++ [fr])%list) "")).
  { intros p Hp. rewrite in_io_lift. exact (tleads_lift _ (accept r fr) (λ q, Hd _ q) p Hp). }
  intros r' p [Ha Hs]. rewrite in_io_bind. revert p Hs.
  eapply (tleads_bind (since o (f :: (frs ++ [fr])%list) "")).
  { intros p Hp. rewrite in_io_lift. exact (tleads_lift _ _ (λ q, Hd _ q) p Hp). }
  intros [] p [_ Hs]. apply (IH (frs ++ [fr])%list r'); [|done]. by rewrite foldM_snoc, Hr.
Qed.

(** What an accepted return leaves *)
Definition returned (r : records) (p : passage) : Prop :=
  disciplined p ∧ ∃ o f s frs proof, accepted_by o f s ∧ since o (f :: frs) (encoded return_frame) p
    ∧ foldM accept records0 frs = Ok r ∧ rd_proof r = Some proof ∧ rd_returned r = true.

(** A return acknowledgement keeps the proof. *)
Lemma accept_proof r f r' proof : accept r f = Ok r' → rd_proof r = Some proof → rd_proof r' = Some proof.
Proof.
  unfold accept_record. intros (v & _ & Ha)%rbind_Ok Hp. rewrite Hp in Ha. cbn [is_none negb] in Ha.
  destruct (fr_kind f =? RETURN_ACK).
  - by apply rbind_Ok in Ha as ([] & _ & [= <-]).
  - apply rbind_Ok in Ha as ([] & Hc%require_Ok & _). rewrite !andb_false_r in Hc. done.
Qed.

Lemma tleads_return o f s frs r proof :
  accepted_by o f s → foldM accept records0 frs = Ok r → rd_proof r = Some proof →
  tleads (since o (f :: frs) "") (return_witness im key witness before_terminal a g r) returned.
Proof.
  intros Hacc Hr Hp. unfold return_witness.
  set (granted_return := λ p : passage, ∃ m, (return_ask im a g, m) ∈ ow_granted (pa_owner p)).
  assert (Hd : ∀ fs p, since o fs "" p → disciplined p) by (intros fs q; apply since_disciplined).
  eapply tleads_bind with (R := λ _ p, granted_return p ∧ since o (f :: frs) "" p).
  { intros p Hs. unfold in_session, qask. destruct (before_terminal _) as [u|e]; cbn [fst snd]; [|destruct p; by eapply Hd].
    split; [eexists; apply elem_of_app; right; by apply list_elem_of_singleton|].
    destruct Hs as [? ? ? ? ? [gs Hg] ? ?]. split; cbn; try done. exists (gs ++ [(return_ask im a g, st_requests (lv_st (session p)))])%list.
    by rewrite Hg, app_assoc. }
  intros ?. eapply tleads_bind; [apply tleads_lift; intros p [_ Hs]; by eapply Hd|].
  intros raw. apply tleads_pure. intros [Hsend ->]%encode_frame_Ok. fold return_frame.
  eapply tleads_bind; [apply tleads_lift; intros p [_ Hs]; by eapply Hd|].
  intros fr. apply tleads_pure. change (Fr RETURN 6 ("" ++ switch_tag key (run_of im) (au_nonce a) false RETURN 6 "")) with return_frame.
  rewrite frame_decoded by exact Hsend. intros [= <-].
  set (sent_return := λ p, since o (f :: frs) (encoded return_frame) p ∧ disciplined p).
  eapply tleads_bind with (R := λ _, sent_return).
  { intros p [Hg Hs]. pose proof (since_asked _ _ _ _ Hs) as Hask. unfold in_io.
    destruct (xsend return_frame (pa_io p)) as [x w] eqn:E. cbn [fst snd].
    apply live_sent in E as ((sent & rest & Er & Ew & Hok) & Erx & Ea & Ep); [|done].
    destruct Hs as [S1 S2 S3 [S4 S5] (S6 & S7 & S8) S9 S10 S11].
    assert (Hdis : disciplined {| pa_owner := pa_owner p; pa_io := w |}).
    { split; [done|]. exists sent, rest. cbn. rewrite S8, Ew, S3, str_app_nil. split_and!; [done|done|]. right. split; [done|]. exists f, frs, "", r, proof.
      cbn [pa_io pa_owner]. by rewrite S6, Erx, S1, !str_app_nil. }
    destruct x as [u|e]; [|done]. destruct u. destruct (Hok eq_refl) as [-> Etx]. rewrite str_app_nil in Er. subst sent.
    split; [|done]. split; cbn; try done; [by rewrite Erx|by rewrite Etx, S2, str_app_nil|by rewrite Ew, S3, str_app_nil|].
    by rewrite Ea, Ep. }
  intros ?. eapply tleads_bind; [apply tleads_frame|]. intros fr. apply tleads_pure. intros _.
  eapply tleads_bind; [by apply tleads_lift; intros p [_ Hs]|]. intros r'. apply tleads_pure. intros Ha.
  eapply tleads_bind; [by apply tleads_lift; intros p [_ Hs]|]. intros ?. apply tleads_pure. intros Hret%require_Ok.
  intros p [Hs Hdis]. cbn. split; [done|]. exists o, f, s, (frs ++ [fr])%list, proof. split_and!; try done.
  - by rewrite foldM_snoc, Hr.
  - by eapply accept_proof.
Qed.

(** ** The whole passage *)

Lemma tleads_passage :
  tleads started (switch_passage im key witness deadline before_terminal before_extra i a g) returned.
Proof.
  unfold switch_passage. eapply tleads_bind; [apply tleads_session|]. intros ? p (o & Hs & Ho). revert p Hs Ho.
  assert (Hgo : tleads (λ p, since o [] "" p ∧ pa_owner p = o)
    (_ ← read_acceptance i; _ ← in_session qclose; r ← in_io (await_proof im key witness a proof_fuel records0);
     return_witness im key witness before_terminal a g r) returned); [|intros p Hs Ho; by apply Hgo].
  eapply tleads_bind; [apply tleads_acceptance|]. intros ? p (f & s & Hacc & Hs). revert p Hs.
  eapply (tleads_bind (since o [f] "") _ _ (λ _ p, True ∧ since o [f] "" p)).
  { intros p Hs. exact (tleads_close o [f] True p (conj I Hs)). }
  intros ? p [_ Hs]. revert p Hs. eapply (tleads_bind (since o [f] "")).
  { exact (tleads_await o f proof_fuel [] records0 eq_refl). }
  intros r p (frs & proof & Hs & Hf & Hp). by eapply tleads_return.
Qed.

(** ** The fuel *)

Lemma accept_rows r f r' : accept r f = Ok r' → rd_proof r = None → (length (rd_rows r) < 256)%nat ∧ length (rd_rows r') = S (length (rd_rows r)).
Proof.
  unfold accept_record. intros (v & _ & Ha)%rbind_Ok Hp. rewrite Hp in Ha. cbn [is_none negb] in Ha.
  destruct (fr_kind f =? RETURN_ACK).
  { apply rbind_Ok in Ha as ([] & Hc%require_Ok & _). by rewrite !andb_false_r in Hc. }
  apply rbind_Ok in Ha as ([] & Hc%require_Ok & Ha). bsimp. apply rbind_Ok in Ha as ([] & _ & Ha).
  match goal with Hl : (_ <? 256)%nat = true |- _ => apply Nat.ltb_lt in Hl end. split; [done|].
  destruct (_ =? 10); [by apply rbind_Ok in Ha as ([] & _ & [= <-]); cbn; rewrite length_app; cbn; lia|].
  destruct (_ =? 11); [by apply rbind_Ok in Ha as ([] & _ & [= <-]); cbn; rewrite length_app; cbn; lia|].
  apply rbind_Ok in Ha as ([] & _ & Ha). destruct (_ <? 8).
  - apply rbind_Ok in Ha as ([] & _ & [= <-]). cbn. rewrite length_app. cbn. lia.
  - apply rbind_Ok in Ha as (p & _ & [= <-]). cbn. rewrite length_app. cbn. lia.
Qed.

(** More fuel changes nothing: the loop ends before it does. *)
Lemma await_fuel fuel k r x :
  (256 < fuel + length (rd_rows r))%nat → (length (rd_rows r) ≤ 256)%nat →
  await_proof im key witness a (fuel + k) r x = await_proof im key witness a fuel r x.
Proof.
  revert r x. induction fuel as [|fuel IH]; intros r x Hl Hm; [lia|].
  cbn [await_proof Nat.add]. destruct (rd_proof r) eqn:Ep; [done|]. cbn [is_none negb].
  unfold mbind, X_bind, xlift. destruct (xframe x) as [[f|e] x1]; [|done].
  destruct (accept r f) as [r'|e] eqn:Ea; [|done]. destruct (srequire _ _) as [[]|e]; [|done].
  apply accept_rows in Ea as [? ?]; [|done]. apply IH; lia.
Qed.
End Passage.
