(* ===== verification/SwitchRunProps.v ===== *)
(** * Properties of the owner of a PID1 transition

    What is on the wire however a transition ends, and that a transition whose return
    was acknowledged is derived again from what was captured. *)

From stdpp Require Import base list strings gmap.
From Stdlib Require Import ZArith NArith Lia Ascii.
From S2P Require Import Prelude PyStr Json Digest Bytes Console ConsoleSession ConsoleCodec ConsoleLife ConsoleReplay ConsoleKinds Health WireV3 Handshake HandshakeTheory Arrival ArrivalTheory Owner OwnerTheory Qualify QualifyTheory SwitchRoot SwitchRun SwitchRunTheory SwitchPassage.
Open Scope string_scope.
Open Scope Z_scope.

#[local] Arguments ConsoleCodec.wire : simpl never.

(** ** The records, read again *)

Section Records.
Context `{Digest}.
Variables (key run nonce : string) (f : switch_config).
Notation accept := (accept_record key run nonce f).

Lemma accept_bound r fr r' : accept r fr = Ok r' → zlen (fr_body fr) ≤ 1023.
Proof.
  unfold accept_record. intros (v & Hv & _)%rbind_Ok. unfold switch_body in Hv.
  apply rbind_Ok in Hv as ([] & Hc%require_Ok & _). bsimp. lia.
Qed.

Lemma switch_loop_complete fuel r frs r' :
  Forall sendable frs → foldM accept r frs = Ok r' → (String.length (encodeds frs) < fuel)%nat →
  switch_loop key run nonce fuel f r (encodeds frs) = Ok r'.
Proof.
  intros Hall. revert fuel r. induction Hall as [|fr frs Hfr _ IH]; intros fuel r Hf Hl; (destruct fuel as [|fuel]; [lia|]).
  { exact Hf. }
  cbn [foldM] in Hf. apply rbind_Ok in Hf as (r1 & Ha & Hf). cbn [encodeds] in *.
  destruct (encoded_fields fr (encodeds frs) Hfr) as (_ & (Ez & _) & _).
  rewrite str_length_app, encoded_length in Hl. set (tl := encodeds frs) in *. cbn [switch_loop].
  change (encoded fr ++ tl =? "")%string with false. cbv iota. rewrite Ez.
  replace (16 <=? String.length (encoded fr ++ tl))%nat with true
    by (symmetry; apply Nat.leb_le; rewrite str_length_app, encoded_length; lia).
  pose proof (accept_bound _ _ _ Ha). replace (zlen (fr_body fr) <=? 1023) with true by lia.
  cbn [srequire Prelude.require rbind].
  assert (Hn : (16 + Z.to_nat (zlen (fr_body fr)))%nat = String.length (encoded fr)).
  { rewrite encoded_length. unfold zlen. by rewrite Nat2Z.id. }
  rewrite Hn, stake_app, sdrop_app by done. rewrite frame_decoded by done. cbn [rbind]. rewrite Ha. cbn [rbind].
  apply IH; [done|]. lia.
Qed.
End Records.

Section Run.
Context `{Digest}.
Variables (im : image_identity) (domain key witness : string).
Variables (permit_return permit_request : option (json → result unit)).

(** The passage before anything was asked *)
Definition fresh_passage (i : ident) (x : exchange wireio) (e : script) : passage :=
  {| pa_owner := {| ow_clock := sc_clock e; ow_polls := sc_polls e; ow_sends := sc_sends e; ow_live := open_live i (sc_faults e);
                    ow_events := []; ow_granted := [] |}; pa_io := x |}.
Lemma fresh_started i x e : started im i x (fresh_passage i x e).
Proof. split; [|done]. exists []. split_and!; try done. apply inv_open. Qed.

(** C26. However a transition ends, the session put on the wire the health command, its
    status and the transition request in this order and nothing else, the last only
    after its callback granted it; what was sent after the session is a part of the
    one return frame, and nothing of it before the return was granted on records that
    prove the witness. *)
Theorem return_after_proof w e r x p :
  switch_qualify im domain key witness permit_return permit_request w e = (r, Some (x, Some p)) →
  let i := session_ident key (run_of im) (au_nonce (ex_audit x)) in
  disciplined im key witness i x p ∧ lv_stopped (ow_live (pa_owner p)) = true.
Proof.
  intros Hq. cbv zeta. set (i := session_ident key (run_of im) (au_nonce (ex_audit x))).
  unfold switch_qualify in Hq. destruct permit_return as [pr|]; [|done]. destruct permit_request as [pq|]; [|done].
  destruct (handshake im domain key (Ex w audit0 (progress0 true))) as [[[]|y] x'] eqn:Hh; [|done].
  cbv zeta in Hq. cbn [fst snd] in Hq. assert (x' = x) as -> by (by injection Hq).
  pose proof (live_ident im domain key w x Hh) as Hi. fold i in Hi.
  assert (Hp : (passage_body im domain key witness (wi_deadline w) pr pq i (ex_audit x) (ex_prep x) (fresh_passage i x e)).2 = p) by (by injection Hq).
  clear Hq. subst p. unfold passage_body. cbn [snd].
  pose proof (tleads_passage im key witness (wi_deadline w) pr pq i x Hi _ (fresh_started i x e)) as Hl.
  split; [|done]. destruct (switch_passage _ _ _ _ _ _ _ _ _ _) as [[rd|y] q]; [apply (proj1 Hl)|exact Hl].
Qed.

(** The session with its acceptance, as if it had read the frame itself *)
Definition finished_live (f : wframe) (s : st) (l : live) : live := with_st s (add_rx (encoded f) l).

Lemma finished_inv i x o f s v r evs :
  ident_ok i = true → inv i switch_class evs (ow_live o) → lv_stopped (ow_live o) = false → lv_pending (ow_live o) = "" →
  encoded f = wire i v → encodable v → switch_validate (lv_st (ow_live o)) v = Ok (s, r) →
  zlen (wi_rx (ex_chan x) ++ lv_rx (ow_live o) ++ encoded f) ≤ SESSION_RX_LIMIT →
  inv i switch_class (evs ++ [Resp v])%list (finished_live f s (ow_live o)).
Proof.
  intros Hi Hinv Hs Hp Hw He Hv Hl. set (l := ow_live o) in *.
  assert (Hl' : finished_live f s l = with_st s (with_pending "" (add_rx (encoded f) l))).
  { unfold finished_live, with_st, with_pending, add_rx. cbn. by rewrite Hp. }
  assert (Hbound : zlen (encoded f) + lv_raw l ≤ SESSION_RX_LIMIT).
  { rewrite (proj1 (iv_raw _ _ _ _ Hinv)). rewrite !zlen_app in Hl. pose proof (zlen_nonneg (wi_rx (ex_chan x))). lia. }
  destruct (inv_frames i Hi switch_class evs l (encoded f) [v] [] "" (finished_live f s l) Hinv Hs Hbound) as [_ Hok].
  - rewrite Hp. apply feed_exact; [done|]. cbn [app wires]. rewrite !str_app_nil.
    split_and!; [exact Hw|by apply Forall_singleton|apply stuck_nil].
  - eapply h_response; [apply (iv_history _ _ _ _ Hinv)|exact Hv].
  - rewrite Hl'. split; [done|]. exists []. symmetry. apply app_nil_r.
  - by apply Hok.
Qed.

(** Nothing of a finished transition is unanswered. *)
Lemma finished_answered s seq body :
  switch_idle s seq body = true → unanswered (finish s seq) = false.
Proof.
  intros (_ & -> & Hq & _ & Hr)%switch_idle_inv. unfold unanswered. cbn [finish st_requests st_responses].
  rewrite Hq, Hr. vm_compute. reflexivity.
Qed.

(** The session, replayed with what followed it *)
Lemma session_replays w x o f s rx1 tx1 :
  let i := session_ident key (run_of im) (au_nonce (ex_audit x)) in
  let rx := wi_rx (ex_chan x) ++ (lv_rx (ow_live o) ++ encoded f) ++ rx1 in
  let tx := wi_tx (ex_chan x) ++ lv_tx (ow_live o) ++ tx1 in
  wi_rx w = "" → wi_tx w = "" →
  handshake im domain key (Ex w audit0 (progress0 true)) = (Ok tt, x) →
  requested_transition im i (ex_audit x) (ex_prep x) o → accepted_by i o f s →
  zlen rx ≤ SESSION_RX_LIMIT → zlen tx ≤ SESSION_RX_LIMIT →
  ∃ j, replay_joined switch_class [ACCEPTED] [REQUEST] im domain key rx tx = Ok j
    ∧ same (jn_state j) s ∧ ex_audit (jn_exchange j) = ex_audit x ∧ ex_prep (jn_exchange j) = ex_prep x
    ∧ fixed_health (jn_state j) (jn_events j) = Ok tt
    ∧ jn_rend j = zlen (wi_rx (ex_chan x) ++ (lv_rx (ow_live o) ++ encoded f))
    ∧ jn_tend j = zlen (wi_tx (ex_chan x) ++ lv_tx (ow_live o)).
Proof.
  intros i rx tx Hrx Htx Hh (Hon & Hp & Hfit) (v & r & Hw & Hev & Hk & Hv) Hlr Hlt.
  pose proof (live_ident im domain key w x Hh) as Hi. fold i in Hi.
  destruct Hon as (evs & Hinv & Hreqs & _ & Hevents & Hs). set (l := ow_live o) in *.
  set (l3 := finished_live f s l).
  assert (Hinv3 : inv i switch_class (evs ++ [Resp v])%list l3).
  { eapply (finished_inv i x o); try done. fold l. unfold rx in Hlr. rewrite !zlen_app in *. pose proof (zlen_nonneg rx1). lia. }
  pose proof Hv as Hacc. apply switch_accepted in Hacc as (Es & Hidle & _); [|done].
  assert (Hfin : st_finished (lv_st l3) = true) by (unfold l3; cbn; by rewrite Es).
  destruct (joined_replays_before im domain key switch_class [ACCEPTED] [REQUEST] (wi_rx (ex_chan x)) (wi_tx (ex_chan x))
    rx1 tx1 (ex_audit x) (ex_prep x) (evs ++ [Resp v])%list l3) as (t & Hsame & _ & Hj); try done.
  - by apply (live_handshake_replayed im domain key w x).
  - exists 5. apply (history_joined _ _ _ _ (iv_history _ _ _ _ Hinv3) 5 REQUEST); [|done].
    change (lv_st l3) with s. rewrite Es. apply switch_idle_inv in Hidle as (_ & _ & Hq & _). cbn [finish st_requests]. by rewrite Hq.
  - intros pre g Hg. rewrite resps_app in Hg. cbn [resps omap list_omap] in Hg. apply app_inj_tail in Hg as [_ <-].
    rewrite Hk. done.
  - change (lv_tx l3) with (lv_tx l). unfold tx in Hlt. rewrite !zlen_app in Hlt.
    pose proof (zlen_nonneg (wi_tx (ex_chan x))). pose proof (zlen_nonneg tx1). lia.
  - change (lv_st l3) with s in *. rewrite Es, (finished_answered _ _ _ Hidle) in Hj. cbn [negb perr Prelude.require rbind] in Hj.
    eexists. split; [exact Hj|]. cbn [jn_state jn_exchange jn_events jn_rend jn_tend ex_audit ex_prep].
    split_and!; try done. rewrite resps_app, <- Hevents.
    assert (Hst : st_ready s = st_ready (lv_st l) ∧ st_bodies s = st_bodies (lv_st l) ∧ st_accepted s = st_accepted (lv_st l)
      ∧ st_requests s = st_requests (lv_st l)) by (by rewrite Es).
    destruct Hst as (E1 & E2 & E3 & E4). apply Hfit.
    + by rewrite (same_ready _ _ Hsame), E1.
    + by rewrite (same_bodies _ _ Hsame), E2.
    + by rewrite (same_accepted _ _ Hsame), E3.
    + by rewrite (same_requests _ _ Hsame), E4.
Qed.

(** What a live handshake sent *)
Lemma handshake_sent w x :
  wi_rx w = "" → wi_tx w = "" → handshake im domain key (Ex w audit0 (progress0 true)) = (Ok tt, x) →
  wi_tx (ex_chan x) = handshake_tx im key (au_nonce (ex_audit x)) ∧ zlen (wi_tx (ex_chan x)) = 80.
Proof.
  intros Hrx Htx Hh. pose proof (live_handshake_replayed im domain key w x Hrx Htx Hh "" "") as Hr.
  apply handshake_transcript in Hr as (retries & nonce & boot & fs & [[_ Ht _ _] [_ Hrun] _ _ _ (Hn & _) _]).
  cbn [ex_chan rt_tx ex_audit] in Ht, Hn. rewrite !str_app_nil in Ht. rewrite Hn. split; [exact Ht|]. rewrite Ht. unfold handshake_tx.
  unfold zlen. rewrite str_length_app, !encoded_length. cbn [fr_body]. unfold zlen in Hrun.
  assert (Ho : String.length (open_tag im key nonce) = 32%nat) by apply hmac_length. lia.
Qed.

Lemma session_sent i a g o :
  requested_transition im i a g o → lv_tx (ow_live o) = wires i (switch_frames COMMAND_BODY).
Proof.
  intros ((evs & Hinv & Hr & _ & _ & Hs) & _). destruct (iv_wire _ _ _ _ Hinv) as (r1 & Hw & Z1).
  rewrite (Z1 Hs), str_app_nil in Hw. destruct (iv_tx _ _ _ _ Hinv) as (r2 & Hx & Z2).
  rewrite (Z2 Hs), str_app_nil in Hx. by rewrite <- Hx, <- Hw, Hr.
Qed.
Lemma transition_bound i : zlen (wires i (switch_frames COMMAND_BODY)) ≤ 3213.
Proof.
  apply (wires_bound i (switch_frames COMMAND_BODY)). repeat (apply Forall_cons; split); [done|done|done|constructor].
Qed.

(** C27. When the return of a transition was acknowledged, the replay of what was captured,
    from the first byte of the handshake, succeeds with the records the owner read:
    the receipt is lost only to a capture beyond the bound of the replay. *)
Theorem transition_replays w x e pr pq r p :
  let i := session_ident key (run_of im) (au_nonce (ex_audit x)) in
  wi_rx w = "" → wi_tx w = "" →
  handshake im domain key (Ex w audit0 (progress0 true)) = (Ok tt, x) →
  switch_passage im key witness (wi_deadline w) pr pq i (ex_audit x) (ex_prep x) (fresh_passage i x e) = (Ok r, p) →
  zlen (wi_rx (ex_chan (pa_io p))) ≤ SWITCH_MAXIMUM + 65536 →
  ∃ j, switch_replay_one im domain key witness (wi_rx (ex_chan (pa_io p))) (wi_tx (ex_chan (pa_io p))) = Ok (j, r)
    ∧ ex_audit (jn_exchange j) = ex_audit x ∧ ex_prep (jn_exchange j) = ex_prep x.
Proof.
  intros i Hrx Htx Hh Hp Hbound. pose proof (live_ident im domain key w x Hh) as Hi. fold i in Hi.
  pose proof (tleads_passage im key witness (wi_deadline w) pr pq i x Hi _ (fresh_started i x e)) as Hl. rewrite Hp in Hl.
  destruct Hl as (_ & o & f & s & frs & proof & Hacc & Hs & Hf & Hpr & Hret). clear Hp.
  pose proof (sn_sendable _ _ _ _ _ _ _ Hs) as Hsend.
  pose proof (sn_rx _ _ _ _ _ _ _ Hs) as Erx. pose proof (sn_tx _ _ _ _ _ _ _ Hs) as Etx. cbn [encodeds] in Erx.
  set (rx1 := encodeds frs) in *. set (tx1 := encoded (return_frame im key x)) in *.
  rewrite <- !str_app_assoc in Erx, Etx. rewrite Erx in Hbound |- *. rewrite Etx.
  assert (Htxl : zlen (wi_tx (ex_chan x) ++ lv_tx (ow_live o) ++ tx1) ≤ 65536).
  { rewrite !zlen_app, (proj2 (handshake_sent w x Hrx Htx Hh)), (session_sent _ _ _ _ (sn_requested _ _ _ _ _ _ _ Hs)).
    assert (zlen tx1 = 48) as ->; [|pose proof (transition_bound i); lia]. unfold tx1, zlen. rewrite encoded_length. cbn [fr_body return_frame].
    unfold switch_tag. rewrite hmac_length. done. }
  destruct (session_replays w x o f s rx1 tx1 Hrx Htx Hh (sn_requested _ _ _ _ _ _ _ Hs) Hacc)
    as (j & Hj & Hsame & Ea & Ep & Hfix & Er & Et).
  { fold i. unfold SESSION_RX_LIMIT, RAW_CAPTURE_MAXIMUM, SWITCH_MAXIMUM in *. rewrite <- !str_app_assoc. lia. }
  { unfold SESSION_RX_LIMIT, RAW_CAPTURE_MAXIMUM in *. lia. }
  exists j. split; [|done]. rewrite <- (str_app_assoc (lv_rx (ow_live o))) in Hj. unfold switch_replay_one.
  unfold SWITCH_MAXIMUM in *. replace (_ && _) with true by (symmetry; apply andb_true_iff; split; lia).
  cbn [srequire Prelude.require rbind]. rewrite Hj. cbn [rbind]. rewrite Hfix. cbn [rbind]. rewrite Ea, Er, Et.
  rewrite !str_app_assoc, <- (str_app_assoc (wi_rx (ex_chan x))). unfold zlen. rewrite !Nat2Z.id, !sdrop_app by done.
  unfold switch_records, rx1. rewrite (switch_loop_complete _ _ _ _ _ _ frs r); [|by apply Forall_cons in Hsend as [_ ?]|done|lia].
  cbn [rbind]. rewrite Hpr, Hret. cbn [is_none negb andb srequire Prelude.require rbind].
  assert (Hret' : switch_encode key (run_of im) (au_nonce (ex_audit x)) RETURN 6 "" = Ok tx1).
  { apply encode_frame_Ok. split; [|done]. unfold sendable. cbn [fr_kind fr_seq fr_body].
    split; [done|]. split; [done|]. change ("" ++ ?t) with t. unfold zlen, switch_tag. rewrite hmac_length. done. }
  rewrite Hret'. cbn [rbind]. by rewrite String.eqb_refl.
Qed.
End Run.
