(* ===== verification/OwnerExamples.v ===== *)
(** * The owners evaluated

    A whole arrival with its owner: the handshake, the health command, the detach that
    the terminal callback grants, and the derived receipt; a whole transition up to its
    granted return; and the same devices with callbacks that refuse. *)

From stdpp Require Import base list strings gmap.
From Stdlib Require Import ZArith NArith Lia Ascii.
From S2P Require Import Prelude PyStr Json Digest Bytes Console ConsoleSession ConsoleCodec ConsoleLife ConsoleReplay Health ConsoleKinds ConsoleProps WireV3 Handshake HandshakeTheory Arrival ArrivalTheory SwitchRoot ArrivalProps Owner OwnerTheory Qualify QualifyTheory SwitchRun SwitchRunTheory SwitchPassage SwitchRunProps.
Open Scope string_scope.
Open Scope Z_scope.

#[local] Existing Instance checksum_digest.

Definition attended (permit : json → result unit) : request_for :=
  {| rf_ending := "detach"; rf_hud := false; rf_before_terminal := Some permit; rf_before_extra := None |}.
Definition agree (request : json) : result unit := Ok tt.
Definition refuse (request : json) : result unit := Err (SessionError "not granted").

Definition cable : wireio := {|
  wi_deadline := 50000; wi_in := wi_in device; wi_out := wi_out device; wi_rx := ""; wi_tx := ""; wi_wire := "";
  wi_faults := None |}.
Definition heard_data (fs : list wframe) : reading := RData (wires sid fs).
Definition delivered_at : Z * list wtry :=
  (0, [{| wt_now := 1; wt_guard := None; wt_write := Wrote 20 |}; {| wt_now := 1; wt_guard := None; wt_write := Wrote 2000 |}]).
Definition day : script := {|
  sc_clock := repeat 1 40;
  sc_polls := [heard_data [ready_frame]; RBlocked; heard_data [accepted_frame 3; output_frame 3 1 1 STDOUT; output_frame 3 2 2 STDERR];
               heard_data [exit_frame 3 report_total 2]; heard_data [Fr STATUS_REPLY 4 (supervisor 3 report_total false)];
               heard_data [Fr DETACH_ACK 5 (supervisor 3 report_total true)]];
  sc_sends := repeat delivered_at 3; sc_faults := None |}.

Notation visit permit := (qualify_one plain_io image lab_domain lab_key (attended permit) cable day).

(** A refused ending is never sent: two requests only. *)
Lemma asked_before_sent_witness :
  match visit refuse with
  | (r, Some (x, Some o)) =>
      r = Err (SessionError "not granted") ∧ size (st_requests (lv_st (ow_live o))) = 2%nat
      ∧ let i := session_ident lab_key (run_of image) (au_nonce (ex_audit x)) in
        ∃ fs rest, wires i fs = lv_wire (ow_live o) ++ rest ∧ lv_stopped (ow_live o) = true
          ∧ Forall (allowed plain_io image (attended refuse) (ex_audit x) (ex_prep x) (ow_granted o)) fs
          ∧ (∀ n f, fs !! n = Some f → fr_seq f = 3 + Z.of_nat n)
          ∧ ∀ n f, fs !! n = Some f → detach_terminal (fr_kind f) = true → S n = length fs
  | _ => False
  end.
Proof.
  pose proof (asked_before_sent plain_io image lab_domain lab_key (attended refuse) cable day) as Hq.
  assert (Hv : match visit refuse with
               | (r, Some (x, Some o)) => (r, size (st_requests (lv_st (ow_live o)))) = (Err (SessionError "not granted"), 2%nat)
               | _ => False end) by evaluated.
  destruct (visit refuse) as [r [[x [o|]]|]]; [|exact Hv|exact Hv]. injection Hv as Hv1 Hv2.
  exact (conj Hv1 (conj Hv2 (Hq r x o eq_refl))).
Defined.

Lemma qualified_witness :
  match visit agree with
  | (Ok v, out) =>
      ∃ x o optional, out = Some (x, Some o)
        ∧ let i := session_ident lab_key (run_of image) (au_nonce (ex_audit x)) in
          let rx := wi_rx (ex_chan x) ++ lv_rx (ow_live o) in
          let tx := wi_tx (ex_chan x) ++ lv_tx (ow_live o) in
          replay_one plain_io image lab_domain lab_key rx tx = Ok (v, zlen rx, zlen tx)
          ∧ lv_tx (ow_live o) = wires i (session_requests plain_io (attended agree) optional)
          ∧ Forall (allowed plain_io image (attended agree) (ex_audit x) (ex_prep x) (ow_granted o))
              (session_requests plain_io (attended agree) optional)
          ∧ (rf_ending (attended agree) = "detach" → idle (lv_st (ow_live o)))
  | _ => False
  end.
Proof.
  pose proof (qualified plain_io image lab_domain lab_key (attended agree) cable day) as Hq.
  assert (Hv : match visit agree with (Ok _, _) => true | _ => false end = true) by evaluated.
  destruct (visit agree) as [[v|y] out]; [|discriminate Hv]. exact (Hq v out eq_refl eq_refl eq_refl).
Defined.

Notation joined_exchange := (handshake image lab_domain lab_key (Ex cable audit0 (progress0 true))).2.
Notation lab_session := (session_ident lab_key (run_of image) (au_nonce (ex_audit joined_exchange))).
Notation day_end :=
  (owner_session plain_io image (attended agree) 50000 lab_session (ex_audit joined_exchange) (ex_prep joined_exchange) agree
     (fresh_owner lab_session (repeat 1 38) day)).2.

(** The same day, ended by a return to Download mode *)
Definition leaving (permit : json → result unit) : request_for :=
  {| rf_ending := "download"; rf_hud := false; rf_before_terminal := Some permit; rf_before_extra := None |}.
Definition last_day : script := {|
  sc_clock := sc_clock day;
  sc_polls := (take 5 (sc_polls day) ++ [heard_data [Fr CONTROL_ACK 5 (supervisor 3 report_total true)]])%list;
  sc_sends := sc_sends day; sc_faults := None |}.
Notation left_end :=
  (owner_session plain_io image (leaving agree) 50000 lab_session (ex_audit joined_exchange) (ex_prep joined_exchange) agree
     (fresh_owner lab_session (repeat 1 38) last_day)).2.

Lemma acknowledged_replays_witness :
  idle (lv_st (ow_live day_end))
  ∧ ∃ j, replay_joined detach_class TERMINAL_RX TERMINAL_TX image lab_domain lab_key
           (wi_rx (ex_chan joined_exchange) ++ lv_rx (ow_live left_end))
           (wi_tx (ex_chan joined_exchange) ++ lv_tx (ow_live left_end)) = Ok j
      ∧ jn_events j = ow_events left_end.
Proof.
  assert (Hh : handshake image lab_domain lab_key (Ex cable audit0 (progress0 true)) = (Ok tt, joined_exchange)) by evaluated.
  split.
  - pose proof (acknowledged_replays plain_io image lab_domain lab_key (attended agree) cable joined_exchange (repeat 1 38) day agree day_end)
      as Ha. cbv zeta in Ha. change (wi_deadline cable) with 50000 in Ha.
    assert (Hs : owner_session plain_io image (attended agree) 50000 lab_session (ex_audit joined_exchange) (ex_prep joined_exchange) agree
       (fresh_owner lab_session (repeat 1 38) day) = (Ok tt, day_end)) by evaluated.
    destruct (Ha eq_refl eq_refl Hh Hs) as (j & _ & _ & _ & _ & _ & _ & _ & _ & Hidle). exact (Hidle eq_refl).
  - pose proof (acknowledged_replays plain_io image lab_domain lab_key (leaving agree) cable joined_exchange (repeat 1 38) last_day agree left_end)
      as Ha. cbv zeta in Ha. change (wi_deadline cable) with 50000 in Ha.
    assert (Hs : owner_session plain_io image (leaving agree) 50000 lab_session (ex_audit joined_exchange) (ex_prep joined_exchange) agree
       (fresh_owner lab_session (repeat 1 38) last_day) = (Ok tt, left_end)) by evaluated.
    destruct (Ha eq_refl eq_refl Hh Hs) as (j & Hj & _ & He & _). exists j. exact (conj Hj He).
Defined.

(** ** The owner of a PID1 transition evaluated *)


(** The acceptance comes as a frame of the session, the records of the new program after it. *)
Definition pieces (data : string) : list rtry := [arriving (stake 16 data); arriving (sdrop 16 data)].
Definition acceptance : string := ConsoleCodec.wire sid (Fr ACCEPTED 5 (supervisor 3 report_total true)).
Definition switch_cable : wireio := {|
  wi_deadline := 350000;
  wi_in := (wi_in device ++ pieces acceptance ++ flat_map frame_rounds transition_frames)%list;
  wi_out := (wi_out device ++ [{| wt_now := 1; wt_guard := None; wt_write := Wrote 2000 |}])%list;
  wi_rx := ""; wi_tx := ""; wi_wire := ""; wi_faults := None |}.
Definition switch_day : script := {|
  sc_clock := repeat 1 40;
  sc_polls := [heard_data [ready_frame]; RBlocked; heard_data [accepted_frame 3; output_frame 3 1 1 STDOUT; output_frame 3 2 2 STDERR];
               heard_data [exit_frame 3 report_total 2]; heard_data [Fr STATUS_REPLY 4 (supervisor 3 report_total false)]];
  sc_sends := repeat delivered_at 3; sc_faults := None |}.

Notation attempt permit := (switch_qualify image lab_domain lab_key witness_sha (Some permit) (Some agree) switch_cable switch_day).

(** A refused return is never sent. *)
Lemma return_after_proof_witness :
  match attempt refuse with
  | (r, Some (x, Some p)) =>
      r = Err (SessionError "not granted") ∧ wi_wire (ex_chan (pa_io p)) = wi_wire (ex_chan x) ++ lv_wire (ow_live (pa_owner p))
      ∧ let i := session_ident lab_key (run_of image) (au_nonce (ex_audit x)) in
        disciplined image lab_key witness_sha i x p ∧ lv_stopped (ow_live (pa_owner p)) = true
  | _ => False
  end.
Proof.
  pose proof (return_after_proof image lab_domain lab_key witness_sha (Some refuse) (Some agree) switch_cable switch_day) as Hq.
  assert (Hv : match attempt refuse with
               | (r, Some (x, Some p)) => (r, wi_wire (ex_chan (pa_io p))) = (Err (SessionError "not granted"),
                   wi_wire (ex_chan x) ++ lv_wire (ow_live (pa_owner p)))
               | _ => False end) by evaluated.
  destruct (attempt refuse) as [r [[x [p|]]|]]; [|exact Hv|exact Hv]. injection Hv as Hv1 Hv2.
  exact (conj Hv1 (conj Hv2 (Hq r x p eq_refl))).
Defined.

Notation switched := (handshake image lab_domain lab_key (Ex switch_cable audit0 (progress0 true))).2.
Notation switch_ident := (session_ident lab_key (run_of image) (au_nonce (ex_audit switched))).
Notation crossing := (switch_passage image lab_key witness_sha 350000 agree agree switch_ident (ex_audit switched) (ex_prep switched)
  (fresh_passage switch_ident switched switch_day)).

Lemma transition_replays_witness :
  match crossing with
  | (Ok r, p) =>
      map sw_stage (rd_rows r) = [1; 2; 10; 3; 4; 5; 6; 7; 8]
      ∧ ∃ j, switch_replay_one image lab_domain lab_key witness_sha (wi_rx (ex_chan (pa_io p))) (wi_tx (ex_chan (pa_io p))) = Ok (j, r)
          ∧ ex_audit (jn_exchange j) = ex_audit switched ∧ ex_prep (jn_exchange j) = ex_prep switched
  | _ => False
  end.
Proof.
  pose proof (transition_replays image lab_domain lab_key witness_sha switch_cable switched switch_day agree agree) as Ht.
  cbv zeta in Ht. change (wi_deadline switch_cable) with 350000 in Ht.
  assert (Hh : handshake image lab_domain lab_key (Ex switch_cable audit0 (progress0 true)) = (Ok tt, switched)) by evaluated.
  assert (Hv : match crossing with
               | (Ok r, p) => (map sw_stage (rd_rows r), zlen (wi_rx (ex_chan (pa_io p))) <=? SWITCH_MAXIMUM + 65536)
                              = ([1; 2; 10; 3; 4; 5; 6; 7; 8], true)
               | _ => False end) by evaluated.
  destruct crossing as [[r|e] p]; [|exact Hv]. injection Hv as Hv1 Hv2. apply Z.leb_le in Hv2.
  exact (conj Hv1 (Ht r p eq_refl eq_refl Hh eq_refl Hv2)).
Defined.
