(* ===== verification/OdinUsb.v ===== *)
(** * USB endpoint identity and the enumeration of Odin endpoints

    [s22plus_odin_usbfs_identity.py]: what of a device node replaces it and what an
    enumeration may touch, the evidence that compares two inventories, and the observer
    of one enumeration.  [enumerate_odin] of [s22plus_odin_transition_core.py]: one
    bounded snapshot of the endpoints the tool lists, each live only where the observer
    saw the same node before and after.  An inventory is read from the device by the
    [inventory_reader] of the source, here a stream of results; the tool's run is an
    outcome with its captured output.

    A snapshot is the partition of the devices the tool printed by two inventories of
    the same nodes, or the exact departure of one endpoint its caller allowed. *)

From stdpp Require Import base list strings gmap sorting.
From Stdlib Require Import ZArith Lia Ascii.
From S2P Require Import Prelude PyStr PyText Dir Json Digest Bytes Console.
Open Scope string_scope.
Open Scope Z_scope.

(** ** Nodes *)

Definition IDENTITY_PREFIX : string := "usbfs-immutable-v1:".
Definition MAX_INVENTORY_ENTRIES : nat := 4096.
Definition S_IFCHR : Z := 8192.

(** [UsbfsNodeSnapshot] *)
Record unode := {
  un_path : string; un_dev : Z; un_ino : Z; un_rdev : Z; un_nlink : Z; un_file_type : Z; un_mode : Z;
  un_uid : Z; un_gid : Z; un_birth : Z; un_major : Z; un_minor : Z;
  un_atime : Z; un_ctime : Z; un_mtime : Z
}.
#[export] Instance unode_eq_dec : EqDecision unode.
Proof. solve_decision. Defined.

Definition uerr (b : bool) (msg : string) : result unit := Prelude.require b (UsbfsIdentityError msg).
Definition terr (b : bool) (msg : string) : result unit := Prelude.require b (OdinTransitionError msg).

(** [USBFS_PATH_RE.fullmatch], the pattern [/dev/bus/usb/([0-9]{3})/([0-9]{3})] *)
Definition USB_ROOT : string := "/dev/bus/usb/".
Definition three_digits (s : string) : bool := (String.length s =? 3)%nat && all_chars is_digit s.
Definition usbfs_path (p : string) : option (string * string) :=
  let bus := stake 3 (sdrop 13 p) in
  let device := sdrop 17 p in
  if (stake 13 p =? USB_ROOT)%string && three_digits bus && (stake 1 (sdrop 16 p) =? "/")%string && three_digits device
  then Some (bus, device) else None.

Definition validated_usbfs_coordinates (p : string) : result (Z * Z) :=
  match usbfs_path p with
  | None => Err (UsbfsIdentityError "invalid usbfs endpoint path")
  | Some (bus, device) =>
      let b := digits_val 0 bus in let d := digits_val 0 device in
      do* uerr ((0 <? b) && (0 <? d)) "invalid usbfs endpoint coordinates" in Ok (b, d)
  end.

(** [os.major] and [os.minor] of Linux *)
Definition dev_major (dev : Z) : Z :=
  Z.lor (Z.land (Z.shiftr dev 8) 4095) (Z.land (Z.shiftr dev 32) 4294963200).
Definition dev_minor (dev : Z) : Z := Z.lor (Z.land dev 255) (Z.land (Z.shiftr dev 12) 4294967040).

Definition numeric_fields (n : unode) : list Z :=
  [un_dev n; un_ino n; un_rdev n; un_nlink n; un_file_type n; un_mode n; un_uid n; un_gid n;
   un_major n; un_minor n; un_atime n; un_ctime n; un_mtime n].

Definition validate_node (n : unode) : result unit :=
  let* bd := validated_usbfs_coordinates (un_path n) in
  do* uerr (forallb (λ z, 0 <=? z) (numeric_fields n)) "usbfs snapshot field is invalid" in
  do* uerr (0 <=? un_birth n) "usbfs birth time is invalid" in
  uerr ((un_file_type n =? S_IFCHR) && (un_major n =? 189) && (un_minor n =? (bd.1 - 1) * 128 + bd.2 - 1)
        && (dev_major (un_rdev n) =? un_major n) && (dev_minor (un_rdev n) =? un_minor n) && (un_nlink n =? 1))
    "usbfs snapshot device relation is invalid".

(** [IMMUTABLE_IDENTITY_FIELDS] and [MUTABLE_METADATA_FIELDS] *)
Definition immutable_fields (n : unode) : string * list Z :=
  (un_path n, [un_dev n; un_ino n; un_rdev n; un_nlink n; un_file_type n; un_mode n; un_uid n; un_gid n;
               un_birth n; un_major n; un_minor n]).
Definition metadata_fields (n : unode) : list (string * Z) :=
  [("st_atime_ns", un_atime n); ("st_ctime_ns", un_ctime n); ("st_mtime_ns", un_mtime n)].
Definition metadata_changes (a b : unode) : list string :=
  map (λ x, x.1.1) (filter (λ x, x.1.2 ≠ x.2.2) (zip (metadata_fields a) (metadata_fields b))).

Definition immutable_dict (n : unode) : dict :=
  [("path", JStr (un_path n)); ("st_dev", JInt (un_dev n)); ("st_ino", JInt (un_ino n)); ("st_rdev", JInt (un_rdev n));
   ("st_nlink", JInt (un_nlink n)); ("st_file_type", JInt (un_file_type n)); ("st_mode", JInt (un_mode n));
   ("st_uid", JInt (un_uid n)); ("st_gid", JInt (un_gid n)); ("birth_time_ns", JInt (un_birth n));
   ("device_major", JInt (un_major n)); ("device_minor", JInt (un_minor n))].
Definition node_json (n : unode) : json :=
  JObj (immutable_dict n ++ map (λ kv, (kv.1, JInt kv.2)) (metadata_fields n)).

Definition inventory := gmap string unode.
Definition paths_of (i : inventory) : list string := names_by (λ _, true) i.

(** [UsbfsInventoryMembershipChanged(removed, added)], which checks its own paths *)
Definition membership_changed (removed added : list string) : pyexc :=
  match forM (λ p, let* _ := validated_usbfs_coordinates p in Ok tt) (removed ++ added)%list with
  | Err e => e
  | Ok _ =>
      if (length removed + length added <=? MAX_INVENTORY_ENTRIES)%nat
      then UsbfsInventoryMembershipChanged removed added
      else UsbfsIdentityError "usbfs inventory membership delta is invalid"
  end.

Section Digests.
Context `{Digest}.

Definition node_identity (n : unode) : string :=
  IDENTITY_PREFIX ++ hexdigest (default "" (canonical (JObj (immutable_dict n))) ++ nl).
Definition immutable_identity (n : unode) : result string :=
  do* validate_node n in Ok (node_identity n).

(** ** Evidence *)

Record transition := {
  tr_path : string; tr_identity : string; tr_before : unode; tr_after : unode; tr_changes : list string
}.
Record evidence := { ev_inventory : list string; ev_live : list string; ev_transitions : list transition }.

Definition validate_transition_evidence (t : transition) : result unit :=
  do* uerr (startswith IDENTITY_PREFIX (tr_identity t)) "usbfs transition evidence policy is invalid" in
  do* uerr ((tr_path t =? un_path (tr_before t))%string && (tr_path t =? un_path (tr_after t))%string)
        "usbfs transition snapshots are invalid" in
  do* uerr (bool_decide (tr_changes t = metadata_changes (tr_before t) (tr_after t)))
        "usbfs transition metadata diff is invalid" in
  do* uerr (bool_decide (immutable_fields (tr_before t) = immutable_fields (tr_after t)))
        "usbfs transition immutable fields changed" in
  let* a := immutable_identity (tr_before t) in
  let* b := immutable_identity (tr_after t) in
  uerr ((a =? tr_identity t)%string && (b =? tr_identity t)%string) "usbfs transition identity digest is invalid".

Definition transition_evidence (before after : unode) : result transition :=
  do* validate_node before in
  do* validate_node after in
  do* uerr (un_path before =? un_path after)%string "usbfs transition path changed" in
  do* uerr (bool_decide (immutable_fields before = immutable_fields after))
        "usbfs immutable endpoint identity changed" in
  let* a := immutable_identity before in
  let* b := immutable_identity after in
  do* uerr (a =? b)%string "usbfs immutable identity digest changed" in
  let t := {| tr_path := un_path before; tr_identity := a; tr_before := before; tr_after := after;
              tr_changes := metadata_changes before after |} in
  do* validate_transition_evidence t in Ok t.

Definition sorted_set (l : list string) : list string := merge_sort String.le (remove_dups l).

Definition validate_enumeration_evidence (e : evidence) : result unit :=
  do* uerr ((length (ev_inventory e) <=? MAX_INVENTORY_ENTRIES)%nat
            && bool_decide (ev_inventory e = sorted_set (ev_inventory e))
            && bool_decide (ev_live e = sorted_set (ev_live e))
            && bool_decide (ev_live e ⊆ ev_inventory e)
            && (length (ev_transitions e) =? length (ev_inventory e))%nat)
        "usbfs enumeration evidence is invalid" in
  do* forM (λ p, let* _ := validated_usbfs_coordinates p in Ok tt) (ev_inventory e) in
  do* forM validate_transition_evidence (ev_transitions e) in
  uerr (bool_decide (map tr_path (ev_transitions e) = ev_inventory e)) "usbfs enumeration transition order is invalid".

Fixpoint transitions_of (before after : inventory) (paths : list string) : result (list transition) :=
  match paths with
  | [] => Ok []
  | p :: ps =>
      match before !! p, after !! p with
      | Some a, Some b =>
          do* uerr ((un_path a =? p)%string && (un_path b =? p)%string) "usbfs inventory path/snapshot mismatch" in
          let* t := transition_evidence a b in
          let* ts := transitions_of before after ps in Ok (t :: ts)
      | _, _ => Err (PyKeyError p)
      end
  end.

Definition enumeration_evidence (before after : inventory) (live : list string) : result evidence :=
  do* uerr ((size before <=? MAX_INVENTORY_ENTRIES)%nat && (size after <=? MAX_INVENTORY_ENTRIES)%nat)
        "usbfs enumeration inventory is invalid" in
  let bp := paths_of before in
  let ap := paths_of after in
  if negb (bool_decide (bp = ap)) then
    Err (membership_changed (filter (λ p, p ∉ ap) bp) (filter (λ p, p ∉ bp) ap))
  else
    do* uerr (bool_decide (sorted_set live = live) && bool_decide (live ⊆ bp))
          "usbfs live-device inventory binding is invalid" in
    let* ts := transitions_of before after bp in
    let e := {| ev_inventory := bp; ev_live := live; ev_transitions := ts |} in
    do* validate_enumeration_evidence e in Ok e.

(** The one path [after] has more, where all others are unchanged *)
Definition exact_single_arrival_path (before after : inventory) : result (option string) :=
  let bp := paths_of before in
  let ap := paths_of after in
  match filter (λ p, p ∉ bp) ap with
  | [arrival] =>
      if bool_decide (bp = filter (λ p, p ≠ arrival) ap) then
        do* forM (λ p, match before !! p, after !! p with
                       | Some a, Some b => let* _ := transition_evidence a b in Ok tt
                       | _, _ => Err (PyKeyError p)
                       end) bp in
        match after !! arrival with
        | Some n =>
            do* validate_node n in
            do* uerr (un_path n =? arrival)%string "usbfs arrival path/snapshot mismatch" in Ok (Some arrival)
        | None => Err (PyKeyError arrival)
        end
      else Ok None
  | _ => Ok None
  end.

(** [capture_inventory]: one node that vanished during the walk allows one more walk,
    which must find exactly the others. *)
Definition capture_inventory (allow : bool) (first retry : result inventory) : result inventory :=
  match first with
  | Err (UsbfsEndpointDeparture path paths) =>
      if negb allow then first
      else
        let* i := retry in
        do* uerr (bool_decide (paths_of i = filter (λ p, p ≠ path) paths))
              "usbfs endpoint departure resnapshot changed unexpectedly" in Ok i
  | r => r
  end.

(** ** The observer of one enumeration *)

(** [MeasuredUsbfsIdentityObserver]: the results its reader will give, and what it kept *)
Record observer := { ob_reads : list (result inventory); ob_baseline : option inventory; ob_after : option inventory }.
Definition new_observer (reads : list (result inventory)) : observer :=
  {| ob_reads := reads; ob_baseline := None; ob_after := None |}.

Definition U (A : Type) : Type := observer → result A * observer.
#[export] Instance U_ret : MRet U := λ A a o, (Ok a, o).
#[export] Instance U_bind : MBind U := λ A B k m o,
  match m o with
  | (Ok a, o') => k a o'
  | (Err e, o') => (Err e, o')
  end.
Definition ulift {A} (r : result A) : U A := λ o, (r, o).
Definition uget : U observer := λ o, (Ok o, o).
(** [self._inventory_reader()]; no more results stand for an interrupted process. *)
Definition read_inventory : U inventory := λ o,
  match ob_reads o with
  | [] => (Err (PyRuntimeError "KeyboardInterrupt"), o)
  | r :: rs => (r, {| ob_reads := rs; ob_baseline := ob_baseline o; ob_after := ob_after o |})
  end.
Definition set_baseline (i : inventory) : U unit := λ o,
  (Ok tt, {| ob_reads := ob_reads o; ob_baseline := Some i; ob_after := ob_after o |}).
Definition set_after (i : inventory) : U unit := λ o,
  (Ok tt, {| ob_reads := ob_reads o; ob_baseline := ob_baseline o; ob_after := Some i |}).

Fixpoint validate_inventory (i : inventory) (paths : list string) : result (list (string * string)) :=
  match paths with
  | [] => Ok []
  | p :: ps =>
      match i !! p with
      | None => Err (PyKeyError p)
      | Some n =>
          do* validate_node n in
          do* uerr (p =? un_path n)%string "usbfs observer inventory path mismatch" in
          let* h := immutable_identity n in
          let* hs := validate_inventory i ps in Ok ((p, h) :: hs)
      end
  end.

(** [inventory()]: the identity of every node *)
Definition ob_inventory : U (list (string * string)) :=
  o ← uget;
  _ ← ulift (uerr (match ob_baseline o with None => true | Some _ => false end)
               "usbfs observer cannot be reused across enumerations");
  baseline ← read_inventory;
  _ ← ulift (uerr (size baseline <=? MAX_INVENTORY_ENTRIES)%nat "usbfs observer inventory is invalid");
  ids ← ulift (validate_inventory baseline (paths_of baseline));
  _ ← set_baseline baseline;
  mret ids.

Definition baseline_of (msg : string) : U inventory :=
  o ← uget; ulift (match ob_baseline o with Some b => Ok b | None => Err (UsbfsIdentityError msg) end).

(** [_after_inventory]: the second inventory, read once; it is kept before it is compared. *)
Definition after_inventory (allow_change : bool) : U inventory :=
  b ← baseline_of "usbfs observer inventory was not captured";
  o ← uget;
  match ob_after o with
  | Some a => mret a
  | None =>
      after ← read_inventory;
      _ ← ulift (uerr (size after <=? MAX_INVENTORY_ENTRIES)%nat "usbfs observer inventory is invalid");
      _ ← ulift (validate_inventory after (paths_of after));
      _ ← set_after after;
      if allow_change then mret after
      else
        arrival ← ulift (exact_single_arrival_path b after);
        match arrival with
        | Some p => ulift (Err (UsbfsInventoryArrival p))
        | None => _ ← ulift (enumeration_evidence b after []); mret after
        end
  end.

Definition ob_identity (path : string) : U (option string) :=
  after ← after_inventory false;
  match after !! path with
  | None => mret None
  | Some n => h ← ulift (immutable_identity n); mret (Some h)
  end.

Definition ob_evidence (live : list string) : U evidence :=
  b ← baseline_of "usbfs observer inventory was not captured";
  after ← after_inventory false;
  ulift (enumeration_evidence b after live).

Definition departure_baseline (path : string) : U inventory :=
  _ ← ulift (validated_usbfs_coordinates path);
  b ← baseline_of "usbfs departure baseline is invalid";
  _ ← ulift (uerr (bool_decide (is_Some (b !! path))) "usbfs departure baseline is invalid");
  mret b.

(** The identity, or [None] where exactly this node is gone *)
Definition identity_or_exact_departure (path : string) : U (option string) :=
  b ← departure_baseline path;
  after ← after_inventory true;
  match after !! path with
  | Some n => h ← ulift (immutable_identity n); mret (Some h)
  | None =>
      _ ← ulift (uerr (bool_decide (paths_of after = paths_of (delete path b)))
                   "usbfs inventory is not an exact during-enumeration departure");
      _ ← ulift (enumeration_evidence (delete path b) after []);
      mret None
  end.

Definition evidence_after_exact_departure (path : string) : U evidence :=
  b ← departure_baseline path;
  after ← after_inventory true;
  _ ← ulift (uerr (bool_decide (after !! path = None)) "usbfs departed endpoint is still present");
  _ ← ulift (uerr (bool_decide (paths_of after = paths_of (delete path b))) "usbfs exact departure evidence changed");
  ulift (enumeration_evidence (delete path b) after []).

Definition expected_nodes (keep : string → bool) (e : evidence) : inventory :=
  list_to_map (map (λ t, (tr_path t, tr_after t)) (base.filter (λ t, keep (tr_path t) = true) (ev_transitions e))).

Definition revalidate (e : evidence) : U unit :=
  _ ← ulift (validate_enumeration_evidence e);
  current ← read_inventory;
  _ ← ulift (enumeration_evidence (expected_nodes (λ _, true) e) current (ev_live e));
  mret tt.

Definition revalidate_or_departure (e : evidence) : U unit :=
  _ ← ulift (validate_enumeration_evidence e);
  _ ← ulift (uerr (negb (bool_decide (ev_live e = []))) "usbfs departure evidence has no live endpoint");
  let full := expected_nodes (λ _, true) e in
  let departed := expected_nodes (λ p, negb (elem_str p (ev_live e))) e in
  current ← read_inventory;
  if bool_decide (paths_of current = paths_of full) then
    _ ← ulift (enumeration_evidence full current (ev_live e)); mret tt
  else if bool_decide (paths_of current = paths_of departed) then
    _ ← ulift (enumeration_evidence departed current []); mret tt
  else ulift (Err (UsbfsIdentityError "usbfs inventory is neither unchanged nor an exact live departure")).

(** ** Enumeration *)

Definition MAX_ENUM_OUTPUT_BYTES : Z := 64 * 1024.
Definition INITIAL_STAGE : string := "initial-inventory-before-enumeration".
Definition EVIDENCE_STAGE : string := "enumeration-evidence-before-snapshot".

(** A character that may not stand next to a device path *)
Definition path_char (c : ascii) : bool :=
  is_digit c || is_lower c || char_between "A" "Z" c || (c =? "_")%char || (c =? ".")%char || (c =? "/")%char
  || (c =? "-")%char.
Definition PATH_LENGTH : nat := 20.
Definition followed_by_path (s : string) : bool := match s with String c _ => path_char c | "" => false end.

(** [ODIN_DEVICE_RE.findall]: [before] says whether a path character precedes; after a
    match its characters are skipped. *)
Fixpoint find_devices (before : bool) (skip : nat) (s : string) : list string :=
  match s with
  | "" => []
  | String c s' =>
      match skip with
      | S k => find_devices (path_char c) k s'
      | O =>
          let d := stake PATH_LENGTH s in
          if negb before && (match usbfs_path d with Some _ => true | None => false end)
             && negb (followed_by_path (sdrop PATH_LENGTH s))
          then d :: find_devices (path_char c) (PATH_LENGTH - 1) s'
          else find_devices (path_char c) 0 s'
      end
  end.
Definition findall_devices (s : string) : list string := find_devices false 0 s.
(** [ODIN_DEVICE_RE.fullmatch] *)
Definition device_re (s : string) : bool := match usbfs_path s with Some _ => true | None => false end.

(** A run of the tool: it did not complete, or a capture with its decoded texts *)
Record capture := {
  cp_path : string; cp_size : Z; cp_sha : string;      (** the receipt of the capture *)
  cp_complete : bool;                                  (** no producer error, time-out or excess *)
  cp_returncode : Z; cp_stdout : string; cp_stderr : string
}.
Inductive run := NotRun | Ran (c : capture).

Record snapshot := {
  sn_timestamp : string; sn_returncode : Z; sn_raw : list string; sn_live : list string; sn_stale : list string;
  sn_identities : list (string * string); sn_stdout : string; sn_stderr : string;
  sn_evidence : option evidence; sn_capture : option (string * Z * string)
}.

(** What a caller lets happen to the endpoints during one enumeration *)
Record policy := {
  po_departure : bool; po_arrival : bool;
  po_expected : option string; po_expected_identity : option string
}.

Definition usbfs_error (e : pyexc) : bool :=
  match e with
  | UsbfsIdentityError _ | UsbfsEndpointDeparture _ _ | UsbfsInventoryArrival _ | UsbfsInventoryMembershipChanged _ _ =>
      true
  | _ => false
  end.
Definition os_error (e : pyexc) : bool := match e with PyOSError _ | PyTimeoutError _ => true | _ => false end.

(** The measured failures, by stage *)
Definition measured (stage : string) (e : pyexc) : pyexc :=
  match e with
  | UsbfsEndpointDeparture _ _ =>
      OdinMeasuredEvidenceFailure "usbfs-endpoint-departed" "UsbfsEndpointDeparture" stage [] []
  | UsbfsInventoryMembershipChanged removed added =>
      OdinMeasuredEvidenceFailure "inventory-membership-changed" "UsbfsInventoryMembershipChanged" stage removed added
  | _ =>
      if usbfs_error e then OdinMeasuredEvidenceFailure "usbfs-identity-failed" "UsbfsIdentityError" stage [] []
      else if os_error e then OdinMeasuredEvidenceFailure "direct-io-failed" "OSError" stage [] []
      else e
  end.
Definition map_error {A} (f : pyexc → pyexc) (m : U A) : U A := λ o,
  match m o with (Err e, o') => (Err (f e), o') | r => r end.
Definition catch {A} (m : U A) (h : pyexc → U A) : U A := λ o,
  match m o with (Err e, o') => h e o' | r => r end.

Fixpoint lookup_identity (p : string) (l : list (string * string)) : option string :=
  match l with [] => None | (q, h) :: l' => if (p =? q)%string then Some h else lookup_identity p l' end.

Definition validated_inventory (ids : list (string * string)) : result unit :=
  do* terr (length ids <=? 4096)%nat "USB device-node inventory is invalid" in
  terr (forallb (λ kv, device_re kv.1 && negb (kv.2 =? "")%string) ids) "USB device-node inventory entry is invalid".

Record seen_devices := { sd_identities : list (string * string); sd_arrivals : list string; sd_stale : list string }.

Section Enumerate.
Variables (po : policy) (timestamp : string).

Definition active_identity (device : string) : U (option string) :=
  if po_departure po then identity_or_exact_departure device else ob_identity device.
(** How an error of [active_identity] is reported *)
Definition identity_failure (raw : list string) (e : pyexc) : pyexc :=
  match e with
  | UsbfsInventoryArrival p =>
      if po_arrival po && bool_decide (raw = [p]) then OdinEndpointArrivalRace p
      else OdinTransitionError "unexpected USB endpoint arrival during enumeration"
  | _ => if usbfs_error e || os_error e then OdinTransitionError "Odin endpoint identity observation failed" else e
  end.

Definition snapshot_of (raw live stale : list string) (ids : list (string * string)) (c : capture) (e : evidence) : snapshot :=
  {| sn_timestamp := timestamp; sn_returncode := cp_returncode c; sn_raw := raw; sn_live := live; sn_stale := stale;
     sn_identities := ids; sn_stdout := cp_stdout c; sn_stderr := cp_stderr c; sn_evidence := Some e;
     sn_capture := None |}.

Definition CHANGED : pyexc := OdinTransitionError "Odin endpoint changed during enumeration".
(** One listed device: it is live, arrived or stale, or the whole enumeration ends with
    its departure *)
Definition classify (before : list (string * string)) (raw : list string) (c : capture) (acc : seen_devices)
    (device : string) : U (seen_devices + snapshot) :=
  let known := lookup_identity device before in
  now ← map_error (identity_failure raw) (active_identity device);
  match known, now with
  | Some _, None =>
      if po_departure po && bool_decide (raw = [device]) then
        e ← map_error (λ x, if usbfs_error x || os_error x then CHANGED else x) (evidence_after_exact_departure device);
        mret (inr (snapshot_of raw [] raw [] c e))
      else ulift (Err CHANGED)
  | None, None =>
      mret (inl {| sd_identities := sd_identities acc; sd_arrivals := sd_arrivals acc;
                   sd_stale := (sd_stale acc ++ [device])%list |})
  | None, Some _ =>
      mret (inl {| sd_identities := sd_identities acc; sd_arrivals := (sd_arrivals acc ++ [device])%list;
                   sd_stale := sd_stale acc |})
  | Some a, Some b =>
      if (b =? a)%string then
        mret (inl {| sd_identities := (sd_identities acc ++ [(device, b)])%list; sd_arrivals := sd_arrivals acc;
                     sd_stale := sd_stale acc |})
      else ulift (Err CHANGED)
  end.
Fixpoint classify_all (before : list (string * string)) (raw : list string) (c : capture) (acc : seen_devices)
    (devices : list string) : U (seen_devices + snapshot) :=
  match devices with
  | [] => mret (inl acc)
  | d :: ds =>
      r ← classify before raw c acc d;
      match r with
      | inl acc' => classify_all before raw c acc' ds
      | inr s => mret (inr s)
      end
  end.

(** The evidence of the whole enumeration, or the exact departure the caller expects *)
Definition final_evidence (raw live stale : list string) (ids : list (string * string)) (c : capture) : U snapshot :=
  catch (e ← ob_evidence live; mret (snapshot_of raw live stale ids c e)) (λ x,
    match x with
    | UsbfsInventoryArrival p =>
        ulift (Err (if po_arrival po && bool_decide (raw = []) then OdinEndpointArrivalRace p
                    else OdinTransitionError "unexpected USB endpoint arrival during enumeration"))
    | UsbfsInventoryMembershipChanged removed added =>
        match po_expected po with
        | Some d =>
            if po_departure po && bool_decide (raw = []) && bool_decide (live = []) && bool_decide (removed = [d])
               && bool_decide (added = []) then
              e ← map_error (λ y, if usbfs_error y || os_error y then measured EVIDENCE_STAGE x else y)
                    (evidence_after_exact_departure d);
              mret (snapshot_of [] [] [] [] c e)
            else ulift (Err (measured EVIDENCE_STAGE x))
        | None => ulift (Err (measured EVIDENCE_STAGE x))
        end
    | _ => ulift (Err (measured EVIDENCE_STAGE x))
    end).

Definition policy_ok : result unit :=
  do* terr (match po_expected po with None => true | Some d => po_departure po && device_re d end)
        "expected Odin departure binding is invalid" in
  terr (match po_expected_identity po with
        | None => true
        | Some h => match po_expected po with Some _ => negb (h =? "")%string | None => false end
        end) "expected Odin departure identity is invalid".

(** [enumerate_odin] with a measured observer: what comes before the run of the tool *)
Definition enumerate_before (timeout : Z) : U (list (string * string)) :=
  _ ← ulift (terr (0 <? timeout) "Odin enumeration timeout must be positive");
  _ ← ulift policy_ok;
  before ← map_error (measured INITIAL_STAGE) ob_inventory;
  _ ← ulift (validated_inventory before);
  _ ← ulift (match po_expected_identity po, po_expected po with
             | Some h, Some d =>
                 match lookup_identity d before with
                 | Some h' => if (h' =? h)%string then Ok tt else Err (measured INITIAL_STAGE (UsbfsIdentityError ""))
                 | None => Ok tt
                 end
             | _, _ => Ok tt
             end);
  mret before.

(** What of the output of a run may be parsed *)
Definition parsed_run (r : run) : result capture :=
  let* c := match r with NotRun => Err (OdinTransitionError "Odin enumeration did not complete") | Ran c => Ok c end in
  do* terr (cp_complete c) "Odin raw enumeration cannot be parsed" in
  do* terr (zlen (cp_stdout c) + zlen (cp_stderr c) <=? MAX_ENUM_OUTPUT_BYTES) "Odin enumeration output exceeds bound" in
  do* terr (cp_returncode c =? 0) "Odin enumeration failed" in
  Ok c.

(** What comes after it *)
Definition enumerate_after (before : list (string * string)) (r : run) : U snapshot :=
  c ← ulift (parsed_run r);
  let raw := sorted_set (findall_devices (cp_stdout c) ++ findall_devices (cp_stderr c)) in
  out ← classify_all before raw c {| sd_identities := []; sd_arrivals := []; sd_stale := [] |} raw;
  match out with
  | inr s => mret s
  | inl acc =>
      _ ← ulift (match sd_arrivals acc, sd_identities acc with
                 | [], _ => Ok tt
                 | [a], [] => Err (OdinEndpointArrivalRace a)
                 | _, _ => Err (OdinTransitionError "ambiguous live Odin endpoints during enumeration")
                 end);
      final_evidence raw (sd_identities acc).*1 (sd_stale acc) (sd_identities acc) c
  end.
Definition enumerate_odin (timeout : Z) (r : run) : U snapshot :=
  before ← enumerate_before timeout;
  enumerate_after before r.
End Enumerate.
End Digests.

(** ** What an enumeration proves *)

(** The same nodes, each unchanged in what replaces it *)
Definition same_nodes (b a : inventory) : Prop :=
  ∀ p, match b !! p, a !! p with
       | Some n, Some n' => immutable_fields n = immutable_fields n'
       | None, None => True
       | _, _ => False
       end.

Lemma paths_elem i p : p ∈ paths_of i ↔ is_Some (i !! p).
Proof. unfold paths_of. rewrite names_by_elem. intuition. Qed.

#[local] Arguments node_identity : simpl never.

Section Enumeration.
Context `{Digest}.

Lemma lookup_identities i paths ids d :
  validate_inventory i paths = Ok ids → (∀ p, p ∈ paths ↔ is_Some (i !! p)) →
  lookup_identity d ids = node_identity <$> i !! d.
Proof.
  intros Hv Hp. assert (Hgen : (d ∈ paths → lookup_identity d ids = node_identity <$> i !! d) ∧ (d ∉ paths → lookup_identity d ids = None)).
  { clear Hp. revert ids Hv. induction paths as [|p ps IH]; intros ids; cbn [validate_inventory].
    - intros [= <-]. split; [by intros ?%not_elem_of_nil|done].
    - destruct (i !! p) as [n|] eqn:En; [|done]. intros [_ [_ (h & Hh & (hs & Hhs & [= <-])%rbind_Ok)%rbind_Ok]%rbind_unit]%rbind_unit.
      destruct (IH hs Hhs) as [IH1 IH2]. cbn [lookup_identity]. unfold immutable_identity in Hh. apply rbind_unit in Hh as [_ Hh].
      injection Hh as <-. destruct (String.eqb_spec d p) as [->|Hne].
      + split; [by rewrite En|]. intros Hn. exfalso. apply Hn. left.
      + rewrite elem_of_cons. split; [intros [?|?]; [done|by apply IH1]|intros Hn; apply IH2; naive_solver]. }
  destruct (decide (d ∈ paths)) as [Hd|Hd]; [by apply Hgen|]. rewrite (proj2 Hgen Hd).
  destruct (i !! d) eqn:E; [|done]. exfalso. apply Hd, Hp. by eexists.
Qed.

Lemma transitions_same b a paths ts :
  transitions_of b a paths = Ok ts →
  ∀ p, p ∈ paths → ∃ n n', b !! p = Some n ∧ a !! p = Some n' ∧ immutable_fields n = immutable_fields n'.
Proof.
  revert ts. induction paths as [|q ps IH]; intros ts; cbn [transitions_of]; [by intros _ p ?%not_elem_of_nil|].
  destruct (b !! q) as [n|] eqn:Eb; [|done]. destruct (a !! q) as [n'|] eqn:Ea; [|done].
  intros [_ (t & Ht & (ts' & Hts & _)%rbind_Ok)%rbind_Ok]%rbind_unit p [->|Hp]%elem_of_cons; [|by eapply IH].
  exists n, n'. split_and!; [done..|]. unfold transition_evidence in Ht.
  apply rbind_unit in Ht as [_ [_ [_ [Hi%require_Ok%bool_decide_eq_true _]%rbind_unit]%rbind_unit]%rbind_unit]. done.
Qed.
Lemma evidence_same_nodes b a live e : enumeration_evidence b a live = Ok e → same_nodes b a.
Proof.
  unfold enumeration_evidence. intros [_ He]%rbind_unit. destruct (bool_decide_reflect (paths_of b = paths_of a)) as [Hp|]; [|done].
  cbn [negb] in He. apply rbind_unit in He as [_ (ts & Hts & _)%rbind_Ok]. intros p.
  pose proof (paths_elem b p) as Hb. pose proof (paths_elem a p) as Ha. rewrite Hp in Hb.
  destruct (b !! p) as [n|] eqn:Eb, (a !! p) as [n'|] eqn:Ea; [| | |done].
  - assert (Hin : p ∈ paths_of b) by (rewrite Hp; by apply Hb; eexists).
    destruct (transitions_same _ _ _ _ Hts p Hin) as (m & m' & ? & ? & ?). congruence.
  - destruct Ha as [Ha _]. destruct Hb as [_ Hb]. by destruct (Ha (Hb ltac:(by eexists))).
  - destruct Ha as [_ Ha]. destruct Hb as [Hb _]. by destruct (Hb (Ha ltac:(by eexists))).
Qed.

(** ** The observer *)

Lemma ubind {A B} (m : U A) (k : A → U B) o :
  (x ← m; k x) o = match m o with (Ok a, o') => k a o' | (Err e, o') => (Err e, o') end.
Proof. done. Qed.
Lemma ulift_bind {A B} (r : result A) (k : A → U B) o :
  (x ← ulift r; k x) o = match r with Ok a => k a o | Err e => (Err e, o) end.
Proof. by destruct r. Qed.
Lemma uget_bind {B} (k : observer → U B) o : (x ← uget; k x) o = k o o.
Proof. done. Qed.
Lemma baseline_bind {B} msg (k : inventory → U B) o b :
  ob_baseline o = Some b → (x ← baseline_of msg; k x) o = k b o.
Proof. intros Hb. unfold baseline_of. rewrite ubind, uget_bind, Hb. done. Qed.

(** What an observer holds of the inventories it was given *)
Definition looked (reads : list (result inventory)) (b : inventory) (o : observer) : Prop :=
  ob_baseline o = Some b
  ∧ match ob_after o with
    | None => ∃ mid, reads = (mid ++ ob_reads o)%list
    | Some a => ∃ mid, reads = (mid ++ Ok a :: ob_reads o)%list
    end.

Lemma after_looked reads b o f r o' :
  looked reads b o → after_inventory f o = (r, o') → looked reads b o' ∧ ∀ a, r = Ok a → ob_after o' = Some a.
Proof.
  intros [Hb Hl]. unfold after_inventory. rewrite (baseline_bind _ _ _ _ Hb), uget_bind.
  destruct (ob_after o) as [a|] eqn:Ea.
  { intros [= <- <-]. unfold looked. rewrite Ea. split; [by split|]. by intros ? [= <-]. }
  destruct Hl as [mid Hl]. rewrite ubind. unfold read_inventory. destruct (ob_reads o) as [|[i|e] rs] eqn:Er.
  - intros [= <- <-]. unfold looked. rewrite Ea, Er. split; [|done]. split; [done|]. by exists mid.
  - assert (Hnone : looked reads b {| ob_reads := rs; ob_baseline := ob_baseline o; ob_after := ob_after o |}).
    { unfold looked. cbn. rewrite Ea. split; [done|]. exists (mid ++ [Ok i])%list. rewrite <- (assoc_L (++)%list). done. }
    assert (Hsome : looked reads b {| ob_reads := rs; ob_baseline := ob_baseline o; ob_after := Some i |}).
    { unfold looked. cbn. split; [done|]. by exists mid. }
    rewrite ulift_bind. destruct (uerr _ _) as [[]|]; [|by intros [= <- <-]].
    rewrite ulift_bind. destruct (validate_inventory _ _); [|by intros [= <- <-]].
    rewrite ubind. cbn [set_after ob_reads ob_baseline]. destruct f; [intros [= <- <-]; split; [done|by intros ? [= <-]]|].
    rewrite ulift_bind.
    destruct (exact_single_arrival_path b i) as [[p|]|]; [by intros [= <- <-]| |by intros [= <- <-]].
    rewrite ulift_bind. destruct (enumeration_evidence b i []); intros [= <- <-]; (split; [done|]); [by intros ? [= <-]|done].
  - intros [= <- <-]. unfold looked. cbn. rewrite Ea. split; [|done]. split; [done|]. exists (mid ++ [Err e])%list.
    rewrite <- (assoc_L (++)%list). done.
Qed.

(** Once the second inventory was read it is the one every question is answered by. *)
Lemma after_kept reads b o f r o' a :
  looked reads b o → ob_after o = Some a → after_inventory f o = (r, o') → r = Ok a ∧ o' = o.
Proof.
  intros [Hb _] Ha. unfold after_inventory. rewrite (baseline_bind _ _ _ _ Hb), uget_bind, Ha. by intros [= <- <-].
Qed.

(** Both inventories were read. *)
Definition both (reads : list (result inventory)) (b a : inventory) (o : observer) : Prop :=
  looked reads b o ∧ ob_after o = Some a.

Lemma after_both reads b o f a o' :
  looked reads b o → after_inventory f o = (Ok a, o') → both reads b a o' ∧ ∀ a0, both reads b a0 o → a0 = a.
Proof.
  intros Hl Ha. destruct (after_looked _ _ _ _ _ _ Hl Ha) as [Hl' Hat]. split; [by split; [|apply Hat]|].
  intros a0 [_ Ha0]. destruct (after_kept _ _ _ _ _ _ _ Hl Ha0 Ha) as [[= ->] _]. done.
Qed.
Lemma map_error_Ok {A} f (m : U A) o x o' : map_error f m o = (Ok x, o') → m o = (Ok x, o').
Proof. unfold map_error. by destruct (m o) as [[]]. Qed.
Lemma identity_node n h : immutable_identity n = Ok h → h = node_identity n.
Proof. unfold immutable_identity. intros [_ Hh]%rbind_unit. by injection Hh. Qed.

Lemma departure_baseline_Ok path o b o' :
  departure_baseline path o = (Ok b, o') → o' = o ∧ ob_baseline o = Some b ∧ is_Some (b !! path).
Proof.
  unfold departure_baseline. rewrite ulift_bind. destruct (validated_usbfs_coordinates path) as [c|]; [|done].
  destruct (ob_baseline o) as [b'|] eqn:Eb.
  - rewrite (baseline_bind _ _ _ _ Eb), ulift_bind. case_bool_decide; cbn; [|done]. by intros [= <- <-].
  - unfold baseline_of. rewrite ubind, ubind. cbn. by rewrite Eb.
Qed.

Lemma active_both po d reads b o v o' :
  looked reads b o → active_identity po d o = (Ok v, o') →
  ∃ a, both reads b a o' ∧ (∀ a0, both reads b a0 o → a0 = a) ∧ v = node_identity <$> a !! d.
Proof.
  intros Hl. unfold active_identity. destruct (po_departure po).
  - unfold identity_or_exact_departure. rewrite ubind. destruct (departure_baseline d o) as [[b'|] o1] eqn:Ed; [|done].
    apply departure_baseline_Ok in Ed as (-> & Eb & _). rewrite ubind.
    destruct (after_inventory true o) as [[a|] o2] eqn:Ea; [|done]. destruct (after_both _ _ _ _ _ _ Hl Ea) as [Hb Hu].
    intros Hv. exists a. destruct (a !! d) as [n|].
    + rewrite ulift_bind in Hv. destruct (immutable_identity n) as [h|] eqn:Eh; [|done]. apply identity_node in Eh.
      injection Hv as <- <-. by subst h.
    + rewrite ulift_bind in Hv. destruct (uerr _ _) as [[]|]; [|done]. rewrite ulift_bind in Hv.
      destruct (enumeration_evidence _ _ _); [|done]. by injection Hv as <- <-.
  - unfold ob_identity. rewrite ubind. destruct (after_inventory false o) as [[a|] o2] eqn:Ea; [|done].
    destruct (after_both _ _ _ _ _ _ Hl Ea) as [Hb Hu]. intros Hv. exists a. destruct (a !! d) as [n|].
    + rewrite ulift_bind in Hv. destruct (immutable_identity n) as [h|] eqn:Eh; [|done]. apply identity_node in Eh.
      injection Hv as <- <-. by subst h.
    + by injection Hv as <- <-.
Qed.

(** The exact departure of one endpoint *)
Definition gone (b a : inventory) (d : string) : Prop := is_Some (b !! d) ∧ a !! d = None ∧ same_nodes (delete d b) a.
Lemma departure_both d reads b o e o' :
  looked reads b o → evidence_after_exact_departure d o = (Ok e, o') →
  ∃ a, both reads b a o' ∧ (∀ a0, both reads b a0 o → a0 = a) ∧ gone b a d ∧ enumeration_evidence (delete d b) a [] = Ok e.
Proof.
  intros Hl. unfold evidence_after_exact_departure. rewrite ubind. destruct (departure_baseline d o) as [[b'|] o1] eqn:Ed; [|done].
  apply departure_baseline_Ok in Ed as (-> & Eb & Hd). assert (b' = b) as -> by (destruct Hl; congruence). rewrite ubind.
  destruct (after_inventory true o) as [[a|] o2] eqn:Ea; [|done]. destruct (after_both _ _ _ _ _ _ Hl Ea) as [Hb Hu].
  rewrite ulift_bind. unfold uerr. case_bool_decide as Hn; cbn [Prelude.require]; [|done]. rewrite ulift_bind.
  destruct (Prelude.require _ _) as [[]|]; [|done]. unfold ulift. intros [= He <-]. exists a. split_and!; try done.
  split_and!; [done..|]. by eapply evidence_same_nodes.
Qed.

(** ** The devices *)

(** What of the listed devices [ds] was found live, arrived or stale *)
Definition sorted_out (b a : inventory) (ds : list string) (acc acc' : seen_devices) : Prop :=
  sd_identities acc' = (sd_identities acc ++ omap (λ d, (λ n, (d, node_identity n)) <$> b !! d) ds)%list
  ∧ (∀ d, d ∈ ds → is_Some (b !! d) → is_Some (a !! d))
  ∧ (sd_arrivals acc' = [] → sd_arrivals acc = []
     ∧ sd_stale acc' = (sd_stale acc ++ filter (λ d, b !! d = None) ds)%list ∧ ∀ d, d ∈ ds → b !! d = None → a !! d = None).

Definition before_of (b : inventory) (before : list (string * string)) : Prop :=
  ∀ d, lookup_identity d before = node_identity <$> b !! d.

Lemma classify_spec po ts before raw c acc d reads b o r o' :
  before_of b before → looked reads b o → classify po ts before raw c acc d o = (Ok r, o') →
  ∃ a, both reads b a o' ∧ (∀ a0, both reads b a0 o → a0 = a)
    ∧ match r with
      | inl acc' => sorted_out b a [d] acc acc'
      | inr s => po_departure po = true ∧ raw = [d] ∧ gone b a d
                 ∧ ∃ e, s = snapshot_of ts raw [] raw [] c e
      end.
Proof.
  intros Hbe Hl. unfold classify. rewrite ubind. destruct (map_error _ _ o) as [[v|] o1] eqn:E; [|intros [=]].
  apply map_error_Ok in E. destruct (active_both _ _ _ _ _ _ _ Hl E) as (a & Hb & Hu & ->). rewrite Hbe.
  destruct (b !! d) as [n|] eqn:Eb, (a !! d) as [n'|] eqn:Ea; cbn; unfold ulift, mret, U_ret.
  - destruct (String.eqb_spec (node_identity n') (node_identity n)) as [Heq|]; [|done]. intros [= <- <-]. exists a.
    split_and!; [done..|]. unfold sorted_out. cbn. rewrite Eb. cbn. split_and!; [by rewrite Heq| |].
    + intros ? ->%list_elem_of_singleton _. by rewrite Ea.
    + intros ->. rewrite decide_False, app_nil_r by done. split_and!; [done..|].
      intros ? ->%list_elem_of_singleton. by rewrite Eb.
  - destruct (po_departure po) eqn:Ep; cbn [andb]; [|done]. case_bool_decide as Hraw; [|done]. rewrite ubind.
    destruct (map_error _ _ o1) as [[e|] o2] eqn:E2; [|done]. apply map_error_Ok in E2.
    destruct (departure_both _ _ _ _ _ _ (proj1 Hb) E2) as (a' & Hb' & Hu' & Hg & _). intros [= <- <-]. exists a'. split_and!; try done.
    + intros a0 Ha0. rewrite (Hu a0 Ha0). by apply Hu'.
    + by eexists.
  - intros [= <- <-]. exists a. split_and!; [done..|]. unfold sorted_out. cbn. rewrite Eb. cbn. rewrite app_nil_r.
    split_and!; [done| |by intros ?%app_nil; naive_solver].
    intros ? ->%list_elem_of_singleton. by rewrite Eb.
  - intros [= <- <-]. exists a. split_and!; [done..|]. unfold sorted_out. cbn. rewrite Eb. cbn. rewrite app_nil_r.
    split_and!; [done| |].
    + intros ? ->%list_elem_of_singleton. by rewrite Eb.
    + intros ->. rewrite decide_True by done. split_and!; [done..|].
      by intros ? ->%list_elem_of_singleton.
Qed.

Lemma both_unique reads b a a' o : both reads b a o → both reads b a' o → a = a'.
Proof. intros [_ H1] [_ H2]. congruence. Qed.
Lemma sorted_out_trans b a ds ds' acc acc1 acc2 :
  sorted_out b a ds acc acc1 → sorted_out b a ds' acc1 acc2 → sorted_out b a (ds ++ ds') acc acc2.
Proof.
  intros (Hi1 & Hb1 & Ha1) (Hi2 & Hb2 & Ha2). split_and!.
  - rewrite Hi2, Hi1, omap_app. by rewrite (assoc_L (++)%list).
  - intros d [?|?]%elem_of_app; [by apply Hb1|by apply Hb2].
  - intros He. destruct (Ha2 He) as (He1 & Hs2 & Hn2). destruct (Ha1 He1) as (He0 & Hs1 & Hn1). split_and!; [done| |].
    + rewrite Hs2, Hs1, filter_app. by rewrite (assoc_L (++)%list).
    + intros d [?|?]%elem_of_app; [by apply Hn1|by apply Hn2].
Qed.

Lemma classify_all_spec po ts before raw c acc ds reads b o r o' :
  before_of b before → looked reads b o → classify_all po ts before raw c acc ds o = (Ok r, o') →
  match r with
  | inl acc' =>
      looked reads b o' ∧ (∀ a, both reads b a o → both reads b a o')
      ∧ (∀ a, both reads b a o' → sorted_out b a ds acc acc') ∧ ((∃ a, both reads b a o') ∨ ds = [] ∧ acc' = acc)
  | inr s => ∃ a d e, both reads b a o' ∧ po_departure po = true ∧ raw = [d] ∧ gone b a d ∧ s = snapshot_of ts raw [] raw [] c e
  end.
Proof.
  intros Hbe. revert acc o. induction ds as [|d ds IH]; intros acc o Hl; cbn [classify_all].
  { unfold mret, U_ret. intros [= <- <-]. split_and!; [done..| |]; [intros a _; split_and!; cbn; [by rewrite app_nil_r| |]|].
    - by intros ? ?%not_elem_of_nil.
    - intros ->. rewrite app_nil_r. split_and!; [done..|]. by intros ? ?%not_elem_of_nil.
    - by right. }
  rewrite ubind. destruct (classify po ts before raw c acc d o) as [[v|] o1] eqn:E; [|intros [=]].
  destruct (classify_spec _ _ _ _ _ _ _ _ _ _ _ _ Hbe Hl E) as (a1 & Hb1 & Hu1 & Hv). destruct v as [acc1|s].
  - intros Hr. pose proof (IH _ _ (proj1 Hb1) Hr) as Hspec. destruct r as [acc'|s]; [|done].
    destruct Hspec as (Hl' & Hkeep & Hsort & _). split_and!; [done| | |left; exists a1; by apply Hkeep].
    + intros a Ha. apply Hkeep. by rewrite (Hu1 a Ha).
    + intros a Ha. assert (a = a1) as -> by exact (both_unique _ _ _ _ _ Ha (Hkeep a1 Hb1)).
      change (sorted_out b a1 ([d] ++ ds)%list acc acc'). eapply sorted_out_trans; [exact Hv|by apply Hsort].
  - unfold mret, U_ret. intros [= <- <-]. destruct Hv as (? & ? & ? & e & ->). by exists a1, d, e.
Qed.

(** ** The evidence of the whole *)

Lemma evidence_both live reads b o r o' :
  looked reads b o → ob_evidence live o = (r, o') →
  looked reads b o' ∧ (∀ a, both reads b a o → both reads b a o')
  ∧ ∀ e, r = Ok e → ∃ a, both reads b a o' ∧ same_nodes b a.
Proof.
  intros Hl. unfold ob_evidence. rewrite (baseline_bind _ _ _ _ (proj1 Hl)), ubind.
  destruct (after_inventory false o) as [[a|] o1] eqn:Ea.
  - destruct (after_both _ _ _ _ _ _ Hl Ea) as [Hb Hu]. unfold ulift. intros [= <- <-]. split_and!; [apply Hb| |].
    + intros a0 Ha0. by rewrite (Hu a0 Ha0).
    + intros e He. exists a. split; [done|]. by eapply evidence_same_nodes.
  - intros [= <- <-]. split_and!; [by eapply after_looked| |done].
    intros a [_ Ha]. by destruct (after_kept _ _ _ _ _ _ _ Hl Ha Ea).
Qed.

Lemma final_spec po ts raw live stale ids c reads b o sn o' :
  looked reads b o → final_evidence po ts raw live stale ids c o = (Ok sn, o') →
  ∃ a e, both reads b a o' ∧ (∀ a0, both reads b a0 o → a0 = a)
    ∧ (same_nodes b a ∧ sn = snapshot_of ts raw live stale ids c e
       ∨ ∃ d, po_departure po = true ∧ po_expected po = Some d ∧ raw = [] ∧ gone b a d ∧ sn = snapshot_of ts [] [] [] [] c e).
Proof.
  intros Hl. unfold final_evidence, catch. rewrite ubind. destruct (ob_evidence live o) as [[e|x] o1] eqn:E.
  - destruct (evidence_both _ _ _ _ _ _ Hl E) as (_ & Hk & He). destruct (He e eq_refl) as (a & Hb & Hs).
    unfold mret, U_ret. intros [= <- <-]. exists a, e. split_and!; [done| |by left].
    intros a0 Ha0. by eapply both_unique; [apply Hk|].
  - destruct (evidence_both _ _ _ _ _ _ Hl E) as (Hl1 & Hk & _). unfold ulift.
    destruct x; try (by intros [=]). destruct (po_expected po) as [d|] eqn:Ex; [|by intros [=]].
    destruct (po_departure po) eqn:Ep; cbn [andb]; [|by intros [=]]. case_bool_decide as Hraw; cbn [andb]; [|by intros [=]].
    case_bool_decide; cbn [andb]; [|by intros [=]]. case_bool_decide; cbn [andb]; [|by intros [=]].
    case_bool_decide; [|by intros [=]]. rewrite ubind. destruct (map_error _ _ o1) as [[e|] o2] eqn:E2; [|by intros [=]].
    apply map_error_Ok in E2. destruct (departure_both _ _ _ _ _ _ Hl1 E2) as (a & Hb & Hu & Hg & _).
    unfold mret, U_ret. intros [= <- <-]. exists a, e. split_and!; [done| |right; by exists d].
    intros a0 Ha0. by apply Hu, Hk.
Qed.

(** ** The whole enumeration *)

Lemma before_spec po timeout reads ids o :
  enumerate_before po timeout (new_observer reads) = (Ok ids, o) →
  ∃ b rest, reads = Ok b :: rest ∧ before_of b ids ∧ o = {| ob_reads := rest; ob_baseline := Some b; ob_after := None |}.
Proof.
  unfold enumerate_before. rewrite ulift_bind. destruct (terr _ _) as [[]|]; [|done]. rewrite ulift_bind.
  destruct (policy_ok po) as [[]|]; [|done]. rewrite ubind.
  destruct (map_error _ _ _) as [[l|] o1] eqn:E; [|done]. apply map_error_Ok in E.
  rewrite ulift_bind. destruct (validated_inventory l) as [[]|]; [|done]. rewrite ulift_bind. intros Hr.
  assert (l = ids ∧ o1 = o) as [-> ->].
  { revert Hr. destruct (match po_expected_identity po with Some _ => _ | None => _ end) as [[]|]; [|done]. by intros [= <- <-]. }
  revert E. unfold ob_inventory. rewrite uget_bind, ulift_bind. cbn [new_observer ob_baseline uerr Prelude.require].
  rewrite ubind. unfold read_inventory. cbn [ob_reads ob_baseline ob_after new_observer]. destruct reads as [|[b|] rest]; [done| |done]. cbn [ob_reads ob_baseline ob_after new_observer].
  rewrite ulift_bind. destruct (uerr _ _) as [[]|]; [|done]. rewrite ulift_bind.
  destruct (validate_inventory b (paths_of b)) as [ids'|] eqn:Ev; [|done]. rewrite ubind. intros [= <- <-].
  exists b, rest. split_and!; [done| |done]. intros d. by eapply lookup_identities; [|apply paths_elem].
Qed.
End Enumeration.
