(* ===== verification/OdinStore.v ===== *)
(** * The durable store of an Odin transaction

    [s22plus_odin_transition_core.py]: sealed receipts published by link, the advisory
    index of JSON lines with its resume segments, and the reconciliation of the two
    after a crash.  A receipt is kept as the value it holds; its bytes, size and digest
    are those of its JSON text.  A line of the index is a record, or a text that is not
    one; an interrupted append leaves a partial tail.  The run is cut before a durable
    step, and within an append after some of its bytes. *)

From stdpp Require Import base list strings gmap sorting.
From Stdlib Require Import ZArith Lia Ascii.
From S2P Require Import Prelude PyStr Dir Json Digest Bytes Console OdinUsb.
Open Scope string_scope.
Open Scope Z_scope.

Definition MAX_INDEX_RECORD_BYTES : Z := 64 * 1024.
Definition MAX_INDEX_BYTES : Z := 16 * 1024 * 1024.
Definition MAX_INDEX_TOTAL_BYTES : Z := 32 * 1024 * 1024.
Definition MAX_RECEIPT_BYTES : Z := 512 * 1024.
Definition MAX_INDEX_SEGMENTS : nat := 64.
Definition MAX_SNAPSHOT_RECEIPTS : nat := 4096.
Definition INDEX_SCHEMA : string := "s22plus_odin_transaction_index_v1".
Definition PHASE_SCHEMA : string := "s22plus_odin_phase_receipt_v1".
Definition TRANSACTION_PHASES : list string :=
  ["prepared"; "candidate_transfer_started"; "candidate_transfer_finished"; "candidate_observation_closed";
   "rollback_endpoint_observed"; "rollback_confirmed"; "rollback_transfer_finished"; "rollback_android_ready";
   "first_rollback_observer_captured"; "classified"].
(** [TRANSACTION_PHASES.index(phase)] *)
Fixpoint position (p : string) (l : list string) : option nat :=
  match l with [] => None | q :: l' => if (p =? q)%string then Some O else S <$> position p l' end.
Definition phase_index (p : string) : option nat := position p TRANSACTION_PHASES.

(** ** Receipts *)

Inductive version := V1 | V2 | V3.
#[export] Instance version_eq_dec : EqDecision version.
Proof. solve_decision. Defined.
Definition version_name (v : version) : string :=
  match v with
  | V1 => "s22plus_odin_endpoint_snapshot_v1"
  | V2 => "s22plus_odin_endpoint_snapshot_v2"
  | V3 => "s22plus_odin_endpoint_snapshot_v3"
  end.
Record payload := { pl_version : version; pl_sequence : nat; pl_snapshot : snapshot }.
Record phase_value := { ph_phase : string; ph_timestamp : string; ph_payload : json }.

Definition none {A} (o : option A) : bool := match o with None => true | Some _ => false end.

(** A receipt file: whether it is read-only, and its value where it is the JSON of one *)
Record rfile (A : Type) := { rf_sealed : bool; rf_value : option A }.
Arguments rf_sealed {A} _.
Arguments rf_value {A} _.
Definition sealed_file {A} (a : A) : rfile A := {| rf_sealed := true; rf_value := Some a |}.

Definition jstrs (l : list string) : json := JList (map JStr l).
Definition jpairs (l : list (string * string)) : json := JList (map (λ x, JList [JStr x.1; JStr x.2]) l).
Definition transition_json (t : transition) : json :=
  JObj [("schema", JStr "s22plus_odin_usbfs_node_transition_v1"); ("path", JStr (tr_path t));
        ("identity", JStr (tr_identity t)); ("before", node_json (tr_before t)); ("after", node_json (tr_after t));
        ("immutable_changes", JList []); ("metadata_changes", jstrs (tr_changes t));
        ("allowed_metadata_fields", jstrs ["st_atime_ns"; "st_ctime_ns"; "st_mtime_ns"])].
Definition evidence_json (e : evidence) : json :=
  JObj [("schema", JStr "s22plus_odin_usbfs_enumeration_transition_v1"); ("inventory_paths", jstrs (ev_inventory e));
        ("live_devices", jstrs (ev_live e)); ("node_transitions", JList (map transition_json (ev_transitions e)))].
Definition capture_json (c : string * Z * string) : json :=
  JObj [("path", JStr c.1.1); ("size", JInt c.1.2); ("sha256", JStr c.2)].
Definition opt_json {A} (f : A → json) (o : option A) : json := match o with Some a => f a | None => JNull end.

(** [_receipt_payload]; earlier versions lack the later fields. *)
Definition payload_json (p : payload) : json :=
  let s := pl_snapshot p in
  JObj ([("schema", JStr (version_name (pl_version p))); ("sequence", JInt (Z.of_nat (pl_sequence p)));
         ("timestamp_utc", JStr (sn_timestamp s)); ("returncode", JInt (sn_returncode s));
         ("raw_devices", jstrs (sn_raw s)); ("live_devices", jstrs (sn_live s)); ("stale_devices", jstrs (sn_stale s));
         ("live_device_identities", jpairs (sn_identities s)); ("stdout", JStr (sn_stdout s));
         ("stderr", JStr (sn_stderr s))]
        ++ (if bool_decide (pl_version p = V1) then []
            else [("endpoint_transition_evidence", opt_json evidence_json (sn_evidence s))])
        ++ (if bool_decide (pl_version p = V3) then [("raw_capture_receipt", opt_json capture_json (sn_capture s))]
            else [])).
Definition phase_json (v : phase_value) : json :=
  JObj [("schema", JStr PHASE_SCHEMA); ("phase", JStr (ph_phase v)); ("timestamp_utc", JStr (ph_timestamp v));
        ("payload", ph_payload v)].

(** ** The index *)

(** What an index record names: a receipt by its path *)
Inductive rref := RSnapshot (n : nat) | RPhase (p : string) | RForeign (path : string).
#[export] Instance rref_eq_dec : EqDecision rref.
Proof. solve_decision. Defined.

(** The summary of a snapshot, in an index record and in the listing of the receipts *)
Record summary := { sm_sequence : nat; sm_live : list string; sm_identities : list (string * string); sm_stale : list string }.
#[export] Instance summary_eq_dec : EqDecision summary.
Proof. solve_decision. Defined.
Inductive about := ASnapshot (s : summary) | APhase (p : string).
#[export] Instance about_eq_dec : EqDecision about.
Proof. solve_decision. Defined.

Record irecord := {
  ir_receipt : rref; ir_size : Z; ir_sha : string; ir_timestamp : string; ir_about : about; ir_recovered : bool
}.
Inductive iline := Line (r : irecord) | Malformed (text : string).
Record segment := { sg_lines : list iline; sg_tail : string }.
Definition sg_complete (s : segment) : bool := (sg_tail s =? "")%string.

(** A listed receipt: of a snapshot or of a phase *)
Record listed := { ls_ref : rref; ls_size : Z; ls_sha : string; ls_timestamp : string; ls_about : about }.

(** ** The run directory *)

Record store := {
  st_receipts : bool;                              (** [receipts/] exists *)
  st_snapshots : gmap nat (rfile payload);         (** [odin-snapshot-{n:06d}.json] *)
  st_phases : gmap string (rfile phase_value);     (** [phase-{p}.json] *)
  st_odd_snapshot : bool;                          (** another name of the first pattern *)
  st_temporaries : gset string;
  st_base : option segment;                        (** [transaction.jsonl] *)
  st_resumes : gmap nat segment;                   (** [transaction-resume-{n:06d}.jsonl] *)
  st_odd_index : bool;                             (** another name of the last pattern *)
  st_captures : gmap string (option capture);      (** [raw-odin-enumeration/]; an unfinished one has no receipt *)
  st_cut : option (nat * nat)
}.

Definition Tx (A : Type) : Type := store → result A * store.
#[export] Instance Tx_ret : MRet Tx := λ A a s, (Ok a, s).
#[export] Instance Tx_bind : MBind Tx := λ A B k m s,
  match m s with
  | (Ok a, s') => k a s'
  | (Err e, s') => (Err e, s')
  end.
Definition olift {A} (r : result A) : Tx A := λ s, (r, s).
Definition oget : Tx store := λ s, (Ok s, s).
Definition oread {A} (f : store → result A) : Tx A := λ s, (f s, s).
Definition oupd (f : store → store) : Tx unit := λ s, (Ok tt, f s).

Definition with_cut (c : option (nat * nat)) (s : store) : store :=
  {| st_receipts := st_receipts s; st_snapshots := st_snapshots s; st_phases := st_phases s;
     st_odd_snapshot := st_odd_snapshot s; st_temporaries := st_temporaries s; st_base := st_base s;
     st_resumes := st_resumes s; st_odd_index := st_odd_index s; st_captures := st_captures s; st_cut := c |}.
Definition with_receipts (s : store) : store :=
  {| st_receipts := true; st_snapshots := st_snapshots s; st_phases := st_phases s;
     st_odd_snapshot := st_odd_snapshot s; st_temporaries := st_temporaries s; st_base := st_base s;
     st_resumes := st_resumes s; st_odd_index := st_odd_index s; st_captures := st_captures s; st_cut := st_cut s |}.
Definition with_temporaries (t : gset string) (s : store) : store :=
  {| st_receipts := st_receipts s; st_snapshots := st_snapshots s; st_phases := st_phases s;
     st_odd_snapshot := st_odd_snapshot s; st_temporaries := t; st_base := st_base s;
     st_resumes := st_resumes s; st_odd_index := st_odd_index s; st_captures := st_captures s; st_cut := st_cut s |}.
Definition with_snapshot (n : nat) (f : rfile payload) (s : store) : store :=
  {| st_receipts := st_receipts s; st_snapshots := <[n := f]> (st_snapshots s); st_phases := st_phases s;
     st_odd_snapshot := st_odd_snapshot s; st_temporaries := st_temporaries s; st_base := st_base s;
     st_resumes := st_resumes s; st_odd_index := st_odd_index s; st_captures := st_captures s; st_cut := st_cut s |}.
Definition with_phase (p : string) (f : rfile phase_value) (s : store) : store :=
  {| st_receipts := st_receipts s; st_snapshots := st_snapshots s; st_phases := <[p := f]> (st_phases s);
     st_odd_snapshot := st_odd_snapshot s; st_temporaries := st_temporaries s; st_base := st_base s;
     st_resumes := st_resumes s; st_odd_index := st_odd_index s; st_captures := st_captures s; st_cut := st_cut s |}.
(** Segment 0 is the base. *)
Definition with_segment (n : nat) (g : segment) (s : store) : store :=
  {| st_receipts := st_receipts s; st_snapshots := st_snapshots s; st_phases := st_phases s;
     st_odd_snapshot := st_odd_snapshot s; st_temporaries := st_temporaries s;
     st_base := match n with O => Some g | S _ => st_base s end;
     st_resumes := match n with O => st_resumes s | S _ => <[n := g]> (st_resumes s) end;
     st_odd_index := st_odd_index s; st_captures := st_captures s; st_cut := st_cut s |}.

(** One durable step, unless the run is cut before it *)
Definition step : Tx unit := λ s,
  match st_cut s with
  | None => (Ok tt, s)
  | Some (O, _) => (Err PowerLoss, s)
  | Some (S n, k) => (Ok tt, with_cut (Some (n, k)) s)
  end.

Section Run.
Context `{Digest}.
Variables (run_dir pid : string).

Definition snapshot_name (n : nat) : string := "odin-snapshot-" ++ fmt_0d 6 n ++ ".json".
Definition phase_name (p : string) : string := "phase-" ++ p ++ ".json".
Definition receipt_path (r : rref) : string :=
  match r with
  | RSnapshot n => run_dir ++ "/receipts/" ++ snapshot_name n
  | RPhase p => run_dir ++ "/receipts/" ++ phase_name p
  | RForeign path => path
  end.
Definition temporary (name : string) : string := "." ++ name ++ ".sealed-tmp-" ++ pid.

(** [_json_receipt_bytes] *)
Definition receipt_text (v : json) : string := dumps_indent v ++ nl.
Definition json_receipt (v : json) : result (Z * string) :=
  do* terr (finite v) "receipt payload is not bounded JSON" in
  do* terr (zlen (receipt_text v) <=? MAX_RECEIPT_BYTES) "receipt exceeds bound" in
  Ok (zlen (receipt_text v), hexdigest (receipt_text v)).

Definition identity_of (v : json) : Z * string := (zlen (receipt_text v), hexdigest (receipt_text v)).

(** [_read_sealed_receipt], with the bound of the read *)
Definition read_sealed {A} (to : A → json) (f : rfile A) : result (A * (Z * string)) :=
  match rf_value f with
  | None => Err (OdinTransitionError "receipt is malformed JSON")
  | Some a =>
      do* Prelude.require (zlen (receipt_text (to a)) <=? MAX_RECEIPT_BYTES) (PyRuntimeError "file exceeds bound") in
      do* terr (rf_sealed f) "receipt is not sealed read-only" in
      Ok (a, identity_of (to a))
  end.

(** ** Listings *)

Definition captured (c : capture) : string * Z * string := (cp_path c, cp_size c, cp_sha c).
(** The raw capture a snapshot names is reopened, and is what the snapshot was parsed from. *)
Definition capture_agrees (s : store) (sn : snapshot) (c : string * Z * string) (msg : string) : result unit :=
  match st_captures s !! c.1.1 with
  | None | Some None => Err (OdinTransitionError "snapshot raw capture cannot be reopened")
  | Some (Some k) =>
      terr (bool_decide (captured k = c) && (cp_returncode k =? sn_returncode sn)
            && (cp_stdout k =? sn_stdout sn)%string && (cp_stderr k =? sn_stderr sn)%string) msg
  end.

Definition partition_ok (sn : snapshot) : bool :=
  bool_decide (sn_raw sn = sorted_set (sn_raw sn)) && bool_decide (sn_live sn = sorted_set (sn_live sn))
  && bool_decide (sn_stale sn = sorted_set (sn_stale sn)) && forallb (λ d, negb (elem_str d (sn_stale sn))) (sn_live sn)
  && bool_decide (merge_sort String.le (sn_live sn ++ sn_stale sn)%list = sn_raw sn).
Definition evidence_bound (sn : snapshot) (msg : string) : result unit :=
  match sn_evidence sn with
  | None => Ok tt
  | Some e =>
      match validate_enumeration_evidence e with
      | Err (UsbfsIdentityError _) => Err (OdinTransitionError "snapshot endpoint transition evidence is invalid")
      | Err x => Err x
      | Ok _ => terr (bool_decide (ev_live e = sn_live sn)) msg
      end
  end.

Definition summary_of (n : nat) (sn : snapshot) : summary :=
  {| sm_sequence := n; sm_live := sn_live sn; sm_identities := sn_identities sn; sm_stale := sn_stale sn |}.

Definition list_snapshot (s : store) (n : nat) (f : rfile payload) : result listed :=
  let* r := read_sealed payload_json f in
  let '(p, id) := r in
  let sn := pl_snapshot p in
  do* terr (pl_sequence p =? n)%nat "snapshot receipt path/payload mismatch" in
  do* terr (partition_ok sn) "snapshot receipt device lists invalid" in
  do* terr (bool_decide ((sn_identities sn).*1 = sn_live sn)) "snapshot receipt identities invalid" in
  do* terr (negb (bool_decide (pl_version p = V1)) || none (sn_evidence sn))
        "legacy snapshot receipt has transition evidence" in
  do* terr (bool_decide (pl_version p = V3) || none (sn_capture sn))
        "legacy snapshot receipt has raw-capture evidence" in
  do* (match sn_capture sn with
       | Some c => capture_agrees s sn c "snapshot raw capture differs from receipt"
       | None => Ok tt
       end) in
  do* evidence_bound sn "snapshot receipt transition evidence binding invalid" in
  do* terr (sn_returncode sn =? 0) "snapshot receipt observation invalid" in
  Ok {| ls_ref := RSnapshot n; ls_size := id.1; ls_sha := id.2; ls_timestamp := sn_timestamp sn;
        ls_about := ASnapshot (summary_of n sn) |}.

Fixpoint list_all {A} (f : nat → A → result listed) (l : list (nat * A)) : result (list listed) :=
  match l with
  | [] => Ok []
  | (n, a) :: l' => let* x := f n a in let* xs := list_all f l' in Ok (x :: xs)
  end.
(** The receipts in the order of their names, which is that of their numbers *)
Definition numbered {A} (m : gmap nat A) : list (nat * A) :=
  omap (λ n, (λ a, (n, a)) <$> m !! n) (merge_sort Nat.le (elements (dom m))).

Definition list_snapshot_receipts (s : store) : result (list listed) :=
  if negb (st_receipts s) then Ok []
  else
    do* terr (negb (st_odd_snapshot s)) "snapshot receipt path/payload mismatch" in
    do* terr (size (st_snapshots s) <=? MAX_SNAPSHOT_RECEIPTS)%nat "snapshot receipt count exceeds 4096" in
    list_all (list_snapshot s) (numbered (st_snapshots s)).

Definition list_phase (p : string) (f : rfile phase_value) : result listed :=
  let* r := read_sealed phase_json f in
  let '(v, id) := r in
  do* terr (match phase_index (ph_phase v) with Some _ => true | None => false end && (ph_phase v =? p)%string)
        "invalid or duplicate phase receipt" in
  do* terr (match ph_payload v with JObj _ => true | _ => false end) "invalid phase receipt payload" in
  Ok {| ls_ref := RPhase p; ls_size := id.1; ls_sha := id.2; ls_timestamp := ph_timestamp v; ls_about := APhase p |}.

(** The phases in their order; the files must be a prefix of it.  Where several files are
    wrong, which of them is reported is not modelled. *)
Fixpoint list_phases (s : store) (ps : list string) : result (list listed) :=
  match ps with
  | [] => Ok []
  | p :: ps' =>
      match st_phases s !! p with
      | None => Ok []
      | Some f => let* x := list_phase p f in let* xs := list_phases s ps' in Ok (x :: xs)
      end
  end.
Definition list_phase_receipts (s : store) : result (list listed) :=
  if negb (st_receipts s) then Ok []
  else
    let* l := list_phases s TRANSACTION_PHASES in
    do* terr (length l =? size (st_phases s))%nat "transaction phase receipts are not a valid prefix" in
    Ok l.

(** ** Reading the index *)

Definition record_json (r : irecord) : json :=
  let common := [("schema", JStr INDEX_SCHEMA); ("timestamp_utc", JStr (ir_timestamp r));
                 ("receipt", JStr (receipt_path (ir_receipt r))); ("receipt_size", JInt (ir_size r));
                 ("receipt_sha256", JStr (ir_sha r))] in
  let recovered := if ir_recovered r then [("recovered_after_receipt_publish", JBool true)] else [] in
  match ir_about r with
  | ASnapshot m =>
      JObj (common ++ [("record", JStr "odin_snapshot"); ("sequence", JInt (Z.of_nat (sm_sequence m)));
                       ("live_devices", jstrs (sm_live m)); ("live_device_identities", jpairs (sm_identities m));
                       ("stale_devices", jstrs (sm_stale m))] ++ recovered)
  | APhase p => JObj (common ++ [("record", JStr "phase_receipt"); ("phase", JStr p)] ++ recovered)
  end.
(** [_jsonl_record_bytes] *)
Definition record_text (r : irecord) : string := default "" (canonical (record_json r)) ++ nl.
Definition jsonl_record (r : irecord) : result string :=
  do* terr (zlen (record_text r) <=? MAX_INDEX_RECORD_BYTES) "transaction index record exceeds bound" in
  Ok (record_text r).

Definition line_text (l : iline) : string := match l with Line r => record_text r | Malformed t => t ++ nl end.
Definition segment_size (g : segment) : Z := foldr (λ l n, zlen (line_text l) + n) (zlen (sg_tail g)) (sg_lines g).

(** [_transaction_index_paths]: the segments in order, with their numbers *)
Fixpoint resume_list (m : gmap nat segment) (n k : nat) : result (list segment) :=
  match k with
  | O => Ok []
  | S k' =>
      match m !! n with
      | None => Err (OdinTransitionError "transaction index resume segments are not contiguous")
      | Some g => let* gs := resume_list m (S n) k' in Ok (g :: gs)
      end
  end.
Definition total_size (gs : list segment) : Z := foldr (λ g n, segment_size g + n) 0 gs.
Definition index_segments (s : store) : result (list segment) :=
  do* terr (negb (st_odd_index s)) "invalid transaction index segment" in
  do* terr (negb (none (st_base s)) || (size (st_resumes s) =? 0)%nat)
        "transaction index resume exists without base segment" in
  do* terr (size (st_resumes s) <=? MAX_INDEX_SEGMENTS - 1)%nat "transaction index segment count exceeds 64" in
  let* resumes := resume_list (st_resumes s) 1 (size (st_resumes s)) in
  let gs := match st_base s with Some b => b :: resumes | None => resumes end in
  do* terr (total_size gs <=? MAX_INDEX_TOTAL_BYTES) "transaction index total exceeds its bound" in
  Ok gs.

(** [read_transaction_index]: the complete records *)
Fixpoint read_lines (ls : list iline) : result (list irecord) :=
  match ls with
  | [] => Ok []
  | Line r :: ls' => let* rs := read_lines ls' in Ok (r :: rs)
  | Malformed _ :: _ => Err (OdinTransitionError "malformed transaction index record")
  end.
Definition read_segment (g : segment) : result (list irecord) :=
  do* Prelude.require (segment_size g <=? MAX_INDEX_BYTES) (PyRuntimeError "file exceeds bound") in
  read_lines (sg_lines g).
Fixpoint read_segments (gs : list segment) : result (list irecord) :=
  match gs with
  | [] => Ok []
  | g :: gs' => let* r := read_segment g in let* rs := read_segments gs' in Ok (r ++ rs)%list
  end.

(** ** Audit of the index *)

Record audit := { ad_seen : list rref; ad_snapshot : Z; ad_phase : Z }.
Definition audit0 : audit := {| ad_seen := []; ad_snapshot := -1; ad_phase := -1 |}.
Definition known (l : list listed) (r : rref) : option listed := list_find (λ x, ls_ref x = r) l ≫= λ x, Some x.2.

Definition audit_record (l : list listed) (a : audit) (r : irecord) : result audit :=
  do* terr (bool_decide (ir_receipt r ∉ ad_seen a)) "transaction index duplicates receipt" in
  match known l (ir_receipt r) with
  | None => Err (OdinTransitionError "transaction index receipt is missing")
  | Some c =>
      do* terr (bool_decide ((ir_size r, ir_sha r) = (ls_size c, ls_sha c))) "transaction index receipt hash mismatch" in
      match ir_about r with
      | ASnapshot m =>
          do* terr (ad_snapshot a <? Z.of_nat (sm_sequence m)) "transaction index snapshot order is invalid" in
          match ls_about c with
          | APhase _ => Err (PyKeyError "sequence")
          | ASnapshot m' =>
              do* terr (sm_sequence m =? sm_sequence m')%nat "transaction index snapshot sequence mismatch" in
              do* terr (bool_decide (m = m')) "transaction index snapshot summary mismatch" in
              Ok {| ad_seen := ir_receipt r :: ad_seen a; ad_snapshot := Z.of_nat (sm_sequence m); ad_phase := ad_phase a |}
          end
      | APhase p =>
          match phase_index p, ls_about c with
          | None, _ => Err (OdinTransitionError "transaction index phase mismatch")
          | Some _, ASnapshot _ => Err (PyKeyError "phase")
          | Some i, APhase p' =>
              do* terr (p =? p')%string "transaction index phase mismatch" in
              do* terr (ad_phase a <? Z.of_nat i) "transaction index phase order is invalid" in
              Ok {| ad_seen := ir_receipt r :: ad_seen a; ad_snapshot := ad_snapshot a; ad_phase := Z.of_nat i |}
          end
      end
  end.

Definition sequence_of (x : listed) : option nat := match ls_about x with ASnapshot m => Some (sm_sequence m) | APhase _ => None end.
Definition phase_of (x : listed) : option string := match ls_about x with APhase p => Some p | ASnapshot _ => None end.

(** [_audit_index_against_receipts]: the receipts without a record, at most one and the latest *)
Definition audit_index (s : store) (snapshots phases : list listed) : result (list listed) :=
  let* gs := index_segments s in
  let* records := read_segments gs in
  let l := (snapshots ++ phases)%list in
  let* a := foldM (audit_record l) audit0 records in
  let orphans := base.filter (λ x, ls_ref x ∉ ad_seen a) l in
  do* terr (length orphans <=? 1)%nat "multiple unindexed receipts cannot be crash-reconciled" in
  do* (match orphans with
       | [] => Ok tt
       | o :: _ =>
           do* terr (match sequence_of o with Some n => (S n =? length snapshots)%nat | None => true end)
                 "unindexed snapshot is not the latest receipt" in
           terr (match phase_of o with Some p => bool_decide (Some p = last phases ≫= phase_of) | None => true end)
             "unindexed phase is not the latest receipt"
       end) in
  Ok orphans.

(** ** Appending *)

(** [_require_index_append_capacity] *)
Definition append_capacity (s : store) (n : Z) : result unit :=
  do* terr ((0 <? n) && (n <=? MAX_INDEX_RECORD_BYTES)) "transaction index record has invalid size" in
  let* gs := index_segments s in
  do* (match last gs with
       | None => terr (n <=? MAX_INDEX_BYTES) "transaction index segment has no append capacity"
       | Some g =>
           let* _ := read_segment g in
           if sg_complete g
           then terr (segment_size g + n <=? MAX_INDEX_BYTES) "transaction index segment has no append capacity"
           else terr (length gs <? MAX_INDEX_SEGMENTS)%nat "transaction index has no resume-segment capacity"
       end) in
  terr (total_size gs + n <=? MAX_INDEX_TOTAL_BYTES) "transaction index has no aggregate append capacity".

(** [_durable_append_jsonl] on segment [n], which holds [g]; a cut within the write
    leaves some of the record, but not its last byte. *)
Definition durable_append (n : nat) (g : segment) (r : irecord) : Tx unit :=
  text ← olift (jsonl_record r);
  _ ← olift (terr (segment_size g + zlen text <=? MAX_INDEX_BYTES) "transaction index exceeds bound");
  _ ← step;
  _ ← oupd (with_segment n g);
  _ ← (λ s, match st_cut s with
            | Some (O, k) =>
                (Err PowerLoss,
                 with_segment n {| sg_lines := sg_lines g; sg_tail := stake (Nat.min k (String.length text - 1)) text |} s)
            | _ => (Ok tt, s)
            end);
  _ ← step;
  _ ← oupd (with_segment n {| sg_lines := (sg_lines g ++ [Line r])%list; sg_tail := "" |});
  step.

(** [_append_transaction_record_unlocked] *)
Definition append_record (r : irecord) : Tx unit :=
  text ← olift (jsonl_record r);
  gs ← oread index_segments;
  target ← olift (match last gs with
                  | None => Ok (O, {| sg_lines := []; sg_tail := "" |})
                  | Some g =>
                      let* _ := read_segment g in
                      if sg_complete g then Ok (pred (length gs), g)
                      else
                        do* terr (length gs <? MAX_INDEX_SEGMENTS)%nat
                              "transaction index has no resume-segment capacity" in
                        Ok (length gs, {| sg_lines := []; sg_tail := "" |})
                  end);
  _ ← olift (terr (total_size gs + zlen text <=? MAX_INDEX_TOTAL_BYTES) "transaction index append exceeds aggregate bound");
  durable_append target.1 target.2 r.

(** ** Publication *)

(** [_create_sealed_receipt]: [publish] is the link to the final name.  The [finally] clause
    removes the temporary also when it was there before. *)
Definition remove_temporary (name : string) : Tx unit :=
  _ ← step;
  oupd (λ s, with_temporaries (st_temporaries s ∖ {[ temporary name ]}) s).
Definition create_sealed (name : string) (present : store → bool) (publish : store → store) (v : json) : Tx (Z * string) :=
  id ← olift (json_receipt v);
  s ← oget;
  _ ← (if st_receipts s then mret tt else _ ← step; oupd with_receipts);
  _ ← olift (terr (negb (present s)) "receipt already exists");
  _ ← (if bool_decide (temporary name ∈ st_temporaries s)
       then _ ← remove_temporary name; olift (Err (OdinTransitionError "cannot create sealed receipt temporary"))
       else mret tt);
  _ ← step;
  _ ← oupd (λ s, with_temporaries ({[ temporary name ]} ∪ st_temporaries s) s);
  _ ← step;
  _ ← oupd publish;
  _ ← remove_temporary name;
  mret id.

(** ** Reconciliation *)

Definition record_of (recovered : bool) (x : listed) : irecord := {|
  ir_receipt := ls_ref x; ir_size := ls_size x; ir_sha := ls_sha x; ir_timestamp := ls_timestamp x;
  ir_about := ls_about x; ir_recovered := recovered
|}.

(** [_reconcile_receipt_index_unlocked] *)
Definition reconcile : Tx unit :=
  snapshots ← oread list_snapshot_receipts;
  phases ← oread list_phase_receipts;
  orphans ← oread (λ s, audit_index s snapshots phases);
  match orphans with
  | [] => mret tt
  | o :: _ =>
      text ← olift (jsonl_record (record_of true o));
      _ ← oread (λ s, append_capacity s (zlen text));
      _ ← append_record (record_of true o);
      again ← oread (λ s, audit_index s snapshots phases);
      olift (terr (bool_decide (again = [])) "receipt index reconciliation did not converge")
  end.

(** ** Snapshots *)

(** [_validate_snapshot_for_persistence] *)
Definition validate_snapshot (sn : snapshot) : result unit :=
  do* terr (partition_ok sn) "snapshot device lists are invalid" in
  do* terr (forallb (λ x, negb (x.1 =? "")%string && negb (x.2 =? "")%string) (sn_identities sn)
            && bool_decide ((sn_identities sn).*1 = sn_live sn)) "snapshot endpoint identities are invalid" in
  do* terr (match sn_capture sn with
            | None => true
            | Some (path, n, sha) => negb (path =? "")%string && (1 <=? n) && (n <=? 64 * 1024) && sha256_re sha
            end) "snapshot raw-capture receipt is invalid" in
  do* evidence_bound sn "snapshot endpoint transition evidence live binding is invalid" in
  terr ((sn_returncode sn =? 0) && negb (sn_timestamp sn =? "")%string
        && (zlen (sn_stdout sn) + zlen (sn_stderr sn) <=? MAX_ENUM_OUTPUT_BYTES)) "snapshot observation is invalid".

(** [_persist_snapshot_unlocked] *)
Definition persist_unlocked (sequence : nat) (sn : snapshot) : Tx irecord :=
  _ ← reconcile;
  existing ← oread list_snapshot_receipts;
  _ ← olift (terr (length existing <? MAX_SNAPSHOT_RECEIPTS)%nat "snapshot receipt capacity is exhausted");
  _ ← olift (terr (sequence =? length existing)%nat "snapshot sequence append mismatch");
  s ← oget;
  _ ← olift (match sn_capture sn with
             | Some c => capture_agrees s sn c "snapshot raw capture differs from parsed output"
             | None => Ok tt
             end);
  let p := {| pl_version := V3; pl_sequence := sequence; pl_snapshot := sn |} in
  expected ← olift (json_receipt (payload_json p));
  let record := {| ir_receipt := RSnapshot sequence; ir_size := expected.1; ir_sha := expected.2;
                   ir_timestamp := sn_timestamp sn; ir_about := ASnapshot (summary_of sequence sn);
                   ir_recovered := false |} in
  text ← olift (jsonl_record record);
  _ ← oread (λ s, append_capacity s (zlen text));
  id ← create_sealed (snapshot_name sequence) (λ s, bool_decide (is_Some (st_snapshots s !! sequence)))
         (with_snapshot sequence (sealed_file p)) (payload_json p);
  _ ← olift (terr (bool_decide (id = expected)) "snapshot receipt identity changed during publication");
  _ ← append_record record;
  mret record.

Definition persist_snapshot (sequence : nat) (sn : snapshot) : Tx irecord :=
  _ ← olift (validate_snapshot sn);
  persist_unlocked sequence sn.

(** [RECEIPT_NAME_RE.fullmatch], the pattern [[a-z0-9][a-z0-9_-]{0,63}] *)
Definition receipt_name (s : string) : bool :=
  match s with
  | "" => false
  | String c s' =>
      let alnum c := is_digit c || is_lower c in
      alnum c && all_chars (λ c, alnum c || (c =? "_")%char || (c =? "-")%char) s' && (String.length s' <=? 63)%nat
  end.
(** [create_phase_receipt] *)
Definition create_phase_receipt (now phase : string) (value : json) : Tx irecord :=
  _ ← olift (terr (receipt_name phase) "invalid phase receipt name");
  _ ← olift (terr (match phase_index phase with Some _ => true | None => false end) "unknown transaction phase");
  existing ← oread list_phase_receipts;
  _ ← reconcile;
  _ ← olift (terr (bool_decide (TRANSACTION_PHASES !! length existing = Some phase)) "out-of-order transaction phase");
  let v := {| ph_phase := phase; ph_timestamp := now; ph_payload := value |} in
  expected ← olift (json_receipt (phase_json v));
  let record := {| ir_receipt := RPhase phase; ir_size := expected.1; ir_sha := expected.2; ir_timestamp := now;
                   ir_about := APhase phase; ir_recovered := false |} in
  text ← olift (jsonl_record record);
  _ ← oread (λ s, append_capacity s (zlen text));
  id ← create_sealed (phase_name phase) (λ s, bool_decide (is_Some (st_phases s !! phase)))
         (with_phase phase (sealed_file v)) (phase_json v);
  _ ← olift (terr (bool_decide (id = expected)) "phase receipt identity changed during publication");
  _ ← append_record record;
  mret record.
End Run.
