(* ===== verification/OdinStoreTheory.v ===== *)
(** * The store of an Odin transaction under crashes

    The receipts and the index agree up to one receipt, the latest, however a run
    ends; an append leaves the records as they were or one longer; and reconciliation
    gives every receipt its record.

    What the audit of the index against the receipts accepts, and that it accepts again
    after the record of the latest receipt is appended, and after a receipt is
    published. *)

From stdpp Require Import base list strings gmap sorting.
From Stdlib Require Import ZArith Lia Ascii.
From S2P Require Import Prelude PyStr Dir Json Digest Bytes Console OdinUsb OdinStore.
Open Scope string_scope.
Open Scope Z_scope.

Section Theory.
Context `{Digest}.
Variables (run_dir pid : string).
Notation record_text := (record_text run_dir).
Notation segment_size := (segment_size run_dir).
Notation total_size := (total_size run_dir).
Notation index_segments := (index_segments run_dir).
Notation read_segment := (read_segment run_dir).
Notation read_segments := (read_segments run_dir).
Notation append_record := (append_record run_dir).
Notation append_capacity := (append_capacity run_dir).
Notation audit_index := (audit_index run_dir).
Notation reconcile := (reconcile run_dir).

(** ** The segments of the index *)

Definition seg_at (s : store) (i : nat) : option segment :=
  match i with O => st_base s | S _ => st_resumes s !! i end.

(** What the directory listing yields *)
Record segments (s : store) (gs : list segment) : Prop := {
  sgs_odd : st_odd_index s = false;
  sgs_size : size (st_resumes s) = pred (length gs);
  sgs_at : ∀ i, (i < length gs)%nat → seg_at s i = gs !! i;
  sgs_none : gs = [] → st_base s = None;
  sgs_bound : (length gs ≤ MAX_INDEX_SEGMENTS)%nat;
  sgs_total : total_size gs ≤ MAX_INDEX_TOTAL_BYTES
}.

Lemma resume_list_iff m n k gs :
  resume_list m n k = Ok gs ↔ length gs = k ∧ ∀ i, (i < k)%nat → m !! (n + i)%nat = gs !! i.
Proof.
  revert n gs. induction k as [|k IH]; intros n gs; cbn.
  { split; [intros [= <-]; split; [done|lia]|]. intros [->%nil_length_inv _]. done. }
  split.
  - destruct (m !! n) as [g|] eqn:E; [|done]. intros (gs' & Hg & [= <-])%rbind_Ok.
    apply IH in Hg as [<- Hat]. split; [done|]. intros [|i] Hi; [by rewrite Nat.add_0_r|].
    replace (n + S i)%nat with (S n + i)%nat by lia. apply Hat. lia.
  - intros [Hl Hat]. destruct gs as [|g gs]; [done|]. injection Hl as Hl.
    pose proof (Hat O ltac:(lia)) as H0. rewrite Nat.add_0_r in H0. rewrite H0. cbn.
    rewrite (proj2 (IH (S n) gs)); [done|]. split; [done|]. intros i Hi.
    replace (S n + i)%nat with (n + S i)%nat by lia. apply (Hat (S i)). lia.
Qed.

Lemma index_segments_iff s gs : index_segments s = Ok gs ↔ segments s gs.
Proof.
  unfold OdinStore.index_segments. split.
  - intros [Ho%require_Ok%negb_true_iff [Hb%require_Ok [Hs%require_Ok%Nat.leb_le (rs & Hr & Hg)%rbind_Ok]%rbind_unit]%rbind_unit]%rbind_unit.
    apply rbind_unit in Hg as [Ht%require_Ok%Z.leb_le [= <-]]. apply resume_list_iff in Hr as [Hl Hat].
    unfold MAX_INDEX_SEGMENTS in *. destruct (st_base s) as [b|] eqn:Eb; cbn in Hb.
    + split; cbn; [done|lia| |done|unfold MAX_INDEX_SEGMENTS; lia|exact Ht]. intros [|i] Hi; [done|]. cbn in *. apply (Hat i). lia.
    + apply Nat.eqb_eq in Hb. destruct rs; [|cbn in Hl; lia]. split; cbn; [done|lia|lia|done|unfold MAX_INDEX_SEGMENTS; lia|exact Ht].
  - intros [Ho Hs Hat Hn Hb Ht]. rewrite Ho. cbn [negb terr Prelude.require rbind].
    destruct gs as [|b rs].
    + rewrite (Hn eq_refl). cbn in Hs. rewrite Hs. cbn. done.
    + pose proof (Hat O ltac:(cbn; lia)) as H0. cbn in H0, Hs. rewrite H0. cbn [none negb orb terr Prelude.require rbind].
      rewrite (proj2 (Nat.leb_le _ _)) by (unfold MAX_INDEX_SEGMENTS in *; cbn in Hb; lia). cbn [terr Prelude.require rbind].
      rewrite (proj2 (resume_list_iff _ _ _ rs)).
      2: { split; [done|]. intros i Hi. apply (Hat (S i)). cbn. lia. }
      cbn [rbind]. rewrite (proj2 (Z.leb_le _ _)) by done. done.
Qed.

(** The next resume segment does not exist yet. *)
Lemma segments_next s gs : segments s gs → gs ≠ [] → st_resumes s !! length gs = None.
Proof.
  intros [_ Hs Hat _ _ _] Hne. apply not_elem_of_dom.
  assert (Hd : dom (st_resumes s) = (set_seq 1 (pred (length gs)) : gset nat)).
  { symmetry. apply set_subseteq_size_eq.
    - intros i [Hi Hi']%elem_of_set_seq. apply elem_of_dom. destruct i as [|i]; [lia|].
      pose proof (Hat (S i) ltac:(destruct gs; cbn in *; lia)) as Hx. cbn in Hx. rewrite Hx.
      apply lookup_lt_is_Some_2. destruct gs; cbn in *; lia.
    - rewrite size_dom, Hs. rewrite <- (list_to_set_seq (C:=gset nat)), size_list_to_set by apply NoDup_seq.
      by rewrite length_seq. }
  rewrite Hd, elem_of_set_seq. destruct gs; cbn; [done|lia].
Qed.

Lemma total_size_app gs gs' : total_size (gs ++ gs') = total_size gs + total_size gs'.
Proof. induction gs as [|g gs IH]; cbn; [done|]. unfold OdinStore.total_size in *. cbn. lia. Qed.

(** Writing the last segment, or the one after it *)
Lemma segments_last s gs g g' :
  segments s (gs ++ [g]) → total_size gs + segment_size g' ≤ MAX_INDEX_TOTAL_BYTES →
  segments (with_segment (length gs) g' s) (gs ++ [g']).
Proof.
  intros [Ho Hs Hat Hn Hb Ht] Htot. rewrite length_app in *. cbn [length] in *. split; rewrite ?length_app; cbn [length].
  - done.
  - destruct (length gs) as [|n] eqn:E; [done|]. cbn [with_segment st_resumes].
    rewrite map_size_insert_Some; [done|]. pose proof (Hat (S n) ltac:(lia)) as Hx. cbn in Hx. rewrite Hx.
    rewrite lookup_app_r by lia. rewrite E, Nat.sub_diag. by eexists.
  - intros i Hi. destruct (decide (i = length gs)) as [->|Hne].
    + rewrite lookup_app_r, Nat.sub_diag by lia. unfold seg_at. destruct (length gs); [done|]. cbn. by rewrite lookup_insert_eq.
    + rewrite lookup_app_l by lia. pose proof (Hat i ltac:(lia)) as Hx. rewrite lookup_app_l in Hx by lia. rewrite <- Hx.
      unfold seg_at. destruct i as [|i]; [by destruct (length gs)|]. destruct (length gs); [done|]. cbn.
      by rewrite lookup_insert_ne.
  - by destruct gs.
  - done.
  - rewrite total_size_app. unfold OdinStore.total_size at 2. cbn. lia.
Qed.

Lemma segments_snoc s gs g' :
  segments s gs → (length gs < MAX_INDEX_SEGMENTS)%nat → total_size gs + segment_size g' ≤ MAX_INDEX_TOTAL_BYTES →
  segments (with_segment (length gs) g' s) (gs ++ [g']).
Proof.
  intros Hg Hlt Htot. pose proof (segments_next s gs Hg) as Hnext. destruct Hg as [Ho Hs Hat Hn Hb Ht].
  split; rewrite ?length_app; cbn [length].
  - done.
  - destruct gs as [|g0 gs]; [done|]. cbn [length with_segment st_resumes] in *.
    rewrite map_size_insert_None by by apply Hnext. cbn in Hs. lia.
  - intros i Hi. destruct (decide (i = length gs)) as [->|Hne].
    + rewrite lookup_app_r, Nat.sub_diag by lia. unfold seg_at. destruct (length gs); [done|]. cbn. by rewrite lookup_insert_eq.
    + rewrite lookup_app_l by lia. rewrite <- (Hat i) by lia. unfold seg_at.
      destruct i as [|i]; [destruct (length gs) eqn:E; [lia|done]|]. destruct (length gs) eqn:E; [lia|]. cbn.
      by rewrite lookup_insert_ne.
  - by destruct gs.
  - lia.
  - rewrite total_size_app. unfold OdinStore.total_size at 2. cbn. lia.
Qed.

(** ** Frames *)

(** Two stores with the same receipts, and with the same index *)
Definition same_receipts (s s' : store) : Prop :=
  st_receipts s' = st_receipts s ∧ st_snapshots s' = st_snapshots s ∧ st_phases s' = st_phases s
  ∧ st_odd_snapshot s' = st_odd_snapshot s ∧ st_captures s' = st_captures s.
Definition same_index (s s' : store) : Prop :=
  st_base s' = st_base s ∧ st_resumes s' = st_resumes s ∧ st_odd_index s' = st_odd_index s.

Lemma same_receipts_refl s : same_receipts s s.
Proof. done. Qed.
Lemma same_receipts_trans s1 s2 s3 : same_receipts s1 s2 → same_receipts s2 s3 → same_receipts s1 s3.
Proof. unfold same_receipts. intuition congruence. Qed.
Lemma same_index_trans s1 s2 s3 : same_index s1 s2 → same_index s2 s3 → same_index s1 s3.
Proof. unfold same_index. intuition congruence. Qed.
Lemma cut_receipts c s : same_receipts s (with_cut c s).
Proof. done. Qed.
Lemma cut_index c s : same_index s (with_cut c s).
Proof. done. Qed.
Lemma segment_receipts n g s : same_receipts s (with_segment n g s).
Proof. done. Qed.

Lemma segments_ext s s' gs : same_index s s' → segments s gs → segments s' gs.
Proof.
  intros (Eb & Er & Eo) [Ho Hs Hat Hn Hb Ht]. split; rewrite ?Er, ?Eb, ?Eo; try done.
  intros i Hi. rewrite <- (Hat i Hi). unfold seg_at. destruct i; congruence.
Qed.
Lemma segment_index n g s s' : same_index s s' → same_index (with_segment n g s) (with_segment n g s').
Proof. intros (Eb & Er & Eo). destruct n; unfold same_index; cbn; by rewrite ?Er, ?Eb, ?Eo. Qed.

Lemma step_cases s : (∃ c, step s = (Ok tt, with_cut c s)) ∨ step s = (Err PowerLoss, s).
Proof.
  unfold step. destruct (st_cut s) as [[[|n] k]|] eqn:E; [by right|left; by eexists|].
  left. exists None. rewrite <- E. by destruct s.
Qed.

Lemma step_finishes s :
  (∃ c, step s = (Ok tt, with_cut c s) ∧ (st_cut s = None → c = None)) ∨ step s = (Err PowerLoss, s) ∧ st_cut s ≠ None.
Proof.
  unfold step. destruct (st_cut s) as [[[|n] k]|] eqn:E; [by right|left; by eexists|].
  left. exists None. rewrite <- E. split; [by destruct s|done].
Qed.

(** ** The records of the index *)

Definition indexed (s : store) (records : list irecord) : Prop :=
  ∃ gs, segments s gs ∧ read_segments gs = Ok records.

Lemma indexed_ext s s' records : same_index s s' → indexed s records → indexed s' records.
Proof. intros Hi (gs & Hg & Hr). exists gs. split; [by eapply segments_ext|done]. Qed.
Lemma indexed_read s records :
  indexed s records ↔ ∃ gs, index_segments s = Ok gs ∧ read_segments gs = Ok records.
Proof. unfold indexed. by setoid_rewrite index_segments_iff. Qed.

Lemma read_lines_app ls ls' : read_lines (ls ++ ls') = let* a := read_lines ls in let* b := read_lines ls' in Ok (a ++ b)%list.
Proof.
  induction ls as [|[r|t] ls IH]; cbn; [by destruct (read_lines ls')| |done].
  rewrite IH. destruct (read_lines ls) as [a|]; cbn; [|done]. by destruct (read_lines ls').
Qed.
Lemma read_segments_app gs gs' :
  read_segments (gs ++ gs') = let* a := read_segments gs in let* b := read_segments gs' in Ok (a ++ b)%list.
Proof.
  induction gs as [|g gs IH]; cbn; [by destruct (read_segments gs')|].
  destruct (read_segment g) as [x|]; cbn; [|done]. rewrite IH. destruct (read_segments gs) as [a|]; cbn; [|done].
  destruct (read_segments gs') as [b|]; cbn; [|done]. by rewrite (assoc_L (++)%list).
Qed.
Lemma read_segment_Ok g rs :
  read_segment g = Ok rs ↔ segment_size g ≤ MAX_INDEX_BYTES ∧ read_lines (sg_lines g) = Ok rs.
Proof.
  unfold OdinStore.read_segment. rewrite rbind_unit, require_Ok, Z.leb_le. done.
Qed.
Lemma read_segments_snoc gs g rs bs :
  read_segments gs = Ok rs → read_segment g = Ok bs → read_segments (gs ++ [g]) = Ok (rs ++ bs)%list.
Proof. intros Hr Hb. rewrite read_segments_app, Hr. cbn. rewrite Hb. cbn. by rewrite app_nil_r. Qed.

Lemma fold_size_app ls ls' t :
  foldr (λ l n, zlen (line_text run_dir l) + n) t (ls ++ ls')
  = foldr (λ l n, zlen (line_text run_dir l) + n) 0 ls + foldr (λ l n, zlen (line_text run_dir l) + n) t ls'.
Proof. induction ls as [|l ls IH]; cbn; [done|]. rewrite IH. lia. Qed.
Lemma segment_size_tail ls t : segment_size {| sg_lines := ls; sg_tail := t |} = segment_size {| sg_lines := ls; sg_tail := "" |} + zlen t.
Proof.
  unfold OdinStore.segment_size. cbn [sg_lines sg_tail]. rewrite <- (app_nil_r ls) at 1 2.
  rewrite !fold_size_app. cbn. change (zlen "") with 0. lia.
Qed.
Lemma segment_size_line ls r :
  segment_size {| sg_lines := ls ++ [Line r]; sg_tail := "" |}
  = segment_size {| sg_lines := ls; sg_tail := "" |} + zlen (record_text r).
Proof.
  unfold OdinStore.segment_size. cbn [sg_lines sg_tail]. rewrite fold_size_app. cbn. change (zlen "") with 0.
  rewrite <- (app_nil_r ls) at 2. rewrite fold_size_app. cbn. change (zlen "") with 0. lia.
Qed.

(** Where the next record goes: the last segment, or a new empty one *)
Definition slot (s : store) (pre : list segment) (g : segment) : Prop :=
  segments s (pre ++ [g]) ∨ segments s pre ∧ g = {| sg_lines := []; sg_tail := "" |} ∧ (length pre < MAX_INDEX_SEGMENTS)%nat.

Lemma slot_write s s' pre g g' :
  same_index s s' → slot s pre g → total_size pre + segment_size g' ≤ MAX_INDEX_TOTAL_BYTES →
  segments (with_segment (length pre) g' s') (pre ++ [g']).
Proof.
  intros Hi [Hs|(Hs & -> & Hl)] Ht; eapply segments_ext; try (by apply segment_index).
  - by eapply segments_last.
  - by apply segments_snoc.
Qed.
Lemma slot_indexed s pre g a b :
  slot s pre g → read_segments pre = Ok a → read_lines (sg_lines g) = Ok b → segment_size g ≤ MAX_INDEX_BYTES →
  indexed s (a ++ b).
Proof.
  intros [Hs|(Hs & -> & _)] Ha Hb Hz.
  - exists (pre ++ [g])%list. split; [done|]. apply read_segments_snoc; [done|]. by apply read_segment_Ok.
  - injection Hb as <-. rewrite app_nil_r. by exists pre.
Qed.

(** What an append can leave: before it was written, or with the record *)
Definition appended (records : list irecord) (r : irecord) (s : store) (out : result unit * store) : Prop :=
  same_receipts s out.2
  ∧ match out.1 with
    | Ok _ => indexed out.2 (records ++ [r])
    | Err PowerLoss => indexed out.2 records ∨ indexed out.2 (records ++ [r])
    | Err _ => out.2 = s
    end.

Lemma written_indexed s pre g g' a b :
  segments s (pre ++ [g]) → read_segments pre = Ok a → read_lines (sg_lines g') = Ok b →
  segment_size g' ≤ MAX_INDEX_BYTES → total_size pre + segment_size g' ≤ MAX_INDEX_TOTAL_BYTES →
  indexed (with_segment (length pre) g' s) (a ++ b).
Proof.
  intros Hs Ha Hb Hz Ht. exists (pre ++ [g'])%list. split; [by eapply segments_last|].
  apply read_segments_snoc; [done|]. by apply read_segment_Ok.
Qed.

Lemma zlen_stake k t : zlen (stake k t) ≤ zlen t.
Proof.
  unfold zlen. destruct (decide (k ≤ String.length t)%nat).
  - rewrite stake_length by done. lia.
  - rewrite stake_all by lia. lia.
Qed.

Lemma durable_spec s pre g r a b :
  slot s pre g → sg_tail g = "" → read_segments pre = Ok a → read_lines (sg_lines g) = Ok b →
  segment_size g ≤ MAX_INDEX_BYTES →
  total_size pre + segment_size g + zlen (record_text r) ≤ MAX_INDEX_TOTAL_BYTES →
  appended (a ++ b) r s (durable_append run_dir (length pre) g r s).
Proof.
  intros Hs Hg Ha Hb Hz Ht. destruct g as [ls t]. cbn in Hg, Hb. subst t.
  assert (Hn : 0 ≤ zlen (record_text r)) by (unfold zlen; lia).
  unfold durable_append. cbn [sg_lines]. unfold jsonl_record, mbind, Tx_bind, olift.
  destruct (_ <=? MAX_INDEX_RECORD_BYTES); [cbn [terr Prelude.require rbind]|by split].
  destruct (Z.leb_spec (segment_size {| sg_lines := ls; sg_tail := "" |} + zlen (record_text r)) MAX_INDEX_BYTES) as [Hm|];
    [cbn [terr Prelude.require]|by split].
  destruct (step_cases s) as [[c ->]| ->]; [|split; [done|left; by eapply slot_indexed]].
  unfold oupd. set (g := {| sg_lines := ls; sg_tail := "" |}) in *. set (s2 := with_segment (length pre) g (with_cut c s)).
  assert (Hs2 : segments s2 (pre ++ [g])) by (eapply slot_write; [apply cut_index|done|lia]).
  assert (Hi2 : indexed s2 (a ++ b)).
  { eapply slot_indexed; [by left|done..]. }
  assert (Hk : ∀ k, indexed (with_segment (length pre) {| sg_lines := ls; sg_tail := stake k (record_text r) |} s2) (a ++ b)).
  { intros k. pose proof (zlen_stake k (record_text r)) as Hst.
    pose proof (segment_size_tail ls (stake k (record_text r))) as Hsz. fold g in Hsz.
    refine (written_indexed s2 pre g {| sg_lines := ls; sg_tail := _ |} a b Hs2 Ha Hb _ _); rewrite Hsz; lia. }
  assert (Hf : ∀ s3, same_index s2 s3 → indexed (with_segment (length pre) {| sg_lines := ls ++ [Line r]; sg_tail := "" |} s3) ((a ++ b) ++ [r])).
  { intros s3 Hi3. rewrite <- (assoc_L (++)%list). pose proof (segment_size_line ls r) as Hsz. fold g in Hsz.
    assert (Hb' : read_lines (ls ++ [Line r]) = Ok (b ++ [r])%list) by (rewrite read_lines_app, Hb; reflexivity).
    refine (written_indexed s3 pre g {| sg_lines := ls ++ [Line r]; sg_tail := _ |} a (b ++ [r])%list (segments_ext _ _ _ Hi3 Hs2) Ha Hb' _ _); rewrite Hsz; lia. }
  destruct (match st_cut s2 with Some (O, _) => true | _ => false end) eqn:Ec.
  { destruct (st_cut s2) as [[[|] k]|]; [|done..]. split; [done|]. left. apply Hk. }
  assert (Es : (match st_cut s2 with
                | Some (O, k) => (Err PowerLoss, with_segment (length pre) {| sg_lines := ls;
                    sg_tail := stake (Nat.min k (String.length (record_text r) - 1)) (record_text r) |} s2)
                | _ => (Ok tt, s2) end) = (Ok tt, s2)) by (by destruct (st_cut s2) as [[[|] k]|]).
  rewrite Es. destruct (step_cases s2) as [[c3 ->]| ->]; [|split; [done|by left]].
  set (s4 := with_segment _ _ (with_cut c3 s2)).
  assert (Hi4 : indexed s4 ((a ++ b) ++ [r])) by (apply Hf, cut_index).
  destruct (step_cases s4) as [[c5 ->]| ->]; split; try done; [|by right].
  eapply indexed_ext; [apply cut_index|exact Hi4].
Qed.

(** The slot an append chooses *)
Lemma slot_of s gs records :
  segments s gs → read_segments gs = Ok records →
  (∀ g, last gs = Some g → sg_complete g = false → (length gs < MAX_INDEX_SEGMENTS)%nat) →
  ∃ pre g a b,
    (match last gs with
     | None => Ok (O, {| sg_lines := []; sg_tail := "" |})
     | Some g =>
         let* _ := read_segment g in
         if sg_complete g then Ok (pred (length gs), g)
         else do* terr (length gs <? MAX_INDEX_SEGMENTS)%nat "transaction index has no resume-segment capacity" in
              Ok (length gs, {| sg_lines := []; sg_tail := "" |})
     end) = Ok (length pre, g)
    ∧ slot s pre g ∧ sg_tail g = "" ∧ read_segments pre = Ok a ∧ read_lines (sg_lines g) = Ok b
    ∧ segment_size g ≤ MAX_INDEX_BYTES ∧ records = (a ++ b)%list ∧ total_size gs = total_size pre + segment_size g.
Proof.
  intros Hs Hr Hcap. destruct (last gs) as [g|] eqn:El.
  - apply last_Some in El as [pre ->]. rewrite read_segments_app in Hr.
    apply rbind_Ok in Hr as (a & Ha & (b' & Hb & [= <-])%rbind_Ok). cbn in Hb.
    apply rbind_Ok in Hb as (b & Hb & [= <-]). rewrite app_nil_r. pose proof Hb as Hb'. apply read_segment_Ok in Hb as [Hz Hb].
    rewrite Hb'. cbn [rbind]. destruct (sg_complete g) eqn:Ec.
    + apply String.eqb_eq in Ec. exists pre, g, a, b. rewrite length_app. cbn [length]. rewrite Nat.add_1_r. cbn [pred].
      split_and!; try done; [by left|]. rewrite total_size_app. unfold OdinStore.total_size at 2. cbn. lia.
    + pose proof (Hcap g eq_refl Ec) as Hl. rewrite (proj2 (Nat.ltb_lt _ _) Hl). cbn [terr Prelude.require rbind].
      exists (pre ++ [g])%list, {| sg_lines := []; sg_tail := "" |}, (a ++ b)%list, [].
      split_and!; try done; [by right|by apply read_segments_snoc|by rewrite app_nil_r|].
      change (segment_size _) with 0. lia.
  - apply last_None in El as ->. injection Hr as <-. exists [], {| sg_lines := []; sg_tail := "" |}, [], [].
    split_and!; try done. right. split_and!; [done..|]. unfold MAX_INDEX_SEGMENTS. cbn. lia.
Qed.

Lemma classic_cap (gs : list segment) :
  (∀ g, last gs = Some g → sg_complete g = false → (length gs < MAX_INDEX_SEGMENTS)%nat)
  ∨ ∃ g, last gs = Some g ∧ sg_complete g = false ∧ (MAX_INDEX_SEGMENTS ≤ length gs)%nat.
Proof.
  destruct (last gs) as [g|]; [|by left]. destruct (sg_complete g) eqn:E; [left; intros ? [= <-]; by rewrite E|].
  destruct (decide (length gs < MAX_INDEX_SEGMENTS)%nat); [by left|right; exists g; split_and!; [done..|lia]].
Qed.

Lemma store_append_spec s r records :
  indexed s records → appended records r s (append_record r s).
Proof.
  intros (gs & Hs & Hr). unfold OdinStore.append_record, jsonl_record, mbind, Tx_bind, olift, oread.
  destruct (_ <=? MAX_INDEX_RECORD_BYTES); [cbn [terr Prelude.require rbind]|by split].
  rewrite (proj2 (index_segments_iff s gs) Hs).
  destruct (classic_cap gs) as [Hcap|(g & El & Ec & Hl)].
  - destruct (slot_of s gs records Hs Hr Hcap) as (pre & g & a & b & -> & Hsl & Hg & Ha & Hb & Hz & -> & Ht).
    destruct (Z.leb_spec (total_size gs + zlen (record_text r)) MAX_INDEX_TOTAL_BYTES); [cbn [terr Prelude.require fst snd]|by split].
    apply durable_spec; [done..|]. lia.
  - rewrite El, Ec. destruct (read_segment g) as [x|e] eqn:Eg; cbn [rbind].
    2: { apply last_Some in El as [pre ->]. rewrite read_segments_app in Hr. apply rbind_Ok in Hr as (? & _ & (? & Hb & _)%rbind_Ok).
         cbn in Hb. by rewrite Eg in Hb. }
    destruct (Nat.ltb_spec (length gs) MAX_INDEX_SEGMENTS); [lia|]. by split.
Qed.

(** ** An append that fits *)

Definition finishes (s : store) (out : result unit * store) : Prop :=
  out.1 = Ok tt ∨ out.1 = Err PowerLoss ∧ st_cut s ≠ None.

Lemma durable_total n g r s :
  zlen (record_text r) ≤ MAX_INDEX_RECORD_BYTES → segment_size g + zlen (record_text r) ≤ MAX_INDEX_BYTES →
  finishes s (durable_append run_dir n g r s).
Proof.
  intros Hr Hg. unfold durable_append, jsonl_record, mbind, Tx_bind, olift, oupd, finishes.
  rewrite (proj2 (Z.leb_le _ _) Hr). cbn [terr Prelude.require rbind]. rewrite (proj2 (Z.leb_le _ _) Hg).
  cbn [terr Prelude.require]. 
  destruct (step_finishes s) as [(c & -> & Hc)|[-> ?]]; [|by right]. cbn [st_cut with_segment with_cut].
  assert (Hcut : st_cut s ≠ None ∨ c = None) by (destruct (st_cut s); [by left|right; by apply Hc]).
  destruct c as [[[|k] k']|]; [right; split; [done|by destruct Hcut]| |].
  all: match goal with |- context [step ?x] => destruct (step_finishes x) as [(c3 & -> & Hc3)|[-> Hx]] end; cbn in *.
  all: try (by right; split; [done|by destruct Hcut]).
  all: match goal with |- context [step ?x] => destruct (step_finishes x) as [(c4 & -> & _)|[-> Hx]] end; [by left|cbn in *].
  - right; split; [done|by destruct Hcut].
  - by rewrite Hc3 in Hx.
Qed.

Lemma append_total s r records :
  indexed s records → append_capacity s (zlen (record_text r)) = Ok tt → finishes s (append_record r s).
Proof.
  intros (gs & Hs & Hr) Hc. unfold OdinStore.append_capacity, terr in Hc.
  apply rbind_unit in Hc as [[Hpos Hle]%require_Ok%andb_true_iff (gs' & Hg & Hc)%rbind_Ok].
  assert (gs' = gs) as ->. { rewrite (proj2 (index_segments_iff s gs) Hs) in Hg. by injection Hg. }
  apply rbind_unit in Hc as [Hlast Htot%require_Ok].
  unfold OdinStore.append_record, jsonl_record, mbind, Tx_bind, olift, oread.
  rewrite Hle. cbn [terr Prelude.require rbind]. rewrite Hg. apply Z.leb_le in Hle.
  destruct (last gs) as [g|] eqn:El.
  - apply rbind_Ok in Hlast as (x & -> & Hlast). cbn [rbind]. destruct (sg_complete g).
    + cbn [terr Prelude.require fst snd]. rewrite Htot. cbn [Prelude.require]. apply require_Ok, Z.leb_le in Hlast.
      by apply durable_total.
    + apply require_Ok in Hlast. rewrite Hlast. cbn [terr Prelude.require rbind fst snd]. unfold terr. rewrite Htot.
      cbn [Prelude.require]. apply durable_total; [done|]. cbn. change (zlen "") with 0.
      unfold MAX_INDEX_RECORD_BYTES, MAX_INDEX_BYTES in *. lia.
  - cbn [fst snd]. unfold terr. rewrite Htot. cbn [Prelude.require]. apply durable_total; [done|]. cbn. change (zlen "") with 0.
    unfold MAX_INDEX_RECORD_BYTES, MAX_INDEX_BYTES in *. lia.
Qed.
End Theory.

(** ** The audit of an index against the receipts *)

(** ** The phases *)

Lemma position_lookup p l i : position p l = Some i → l !! i = Some p.
Proof.
  revert i. induction l as [|q l IH]; intros i; cbn; [done|].
  destruct (String.eqb_spec p q) as [->|]; [by intros [= <-]|].
  destruct (position p l) as [j|]; cbn; [intros [= <-]|done]. cbn. by apply IH.
Qed.
Lemma lookup_position p l i : NoDup l → l !! i = Some p → position p l = Some i.
Proof.
  revert i. induction l as [|q l IH]; intros i; [done|]. rewrite NoDup_cons. intros [Hq Hn] Hi. cbn.
  destruct i as [|i]; [injection Hi as ->; by rewrite String.eqb_refl|]. cbn in Hi.
  destruct (String.eqb_spec p q) as [->|]; [by apply list_elem_of_lookup_2 in Hi|]. by rewrite (IH i).
Qed.
Lemma phases_NoDup : NoDup TRANSACTION_PHASES.
Proof. by apply (bool_decide_unpack _). Qed.
Lemma phase_index_lookup p i : phase_index p = Some i ↔ TRANSACTION_PHASES !! i = Some p.
Proof. split; [apply position_lookup|apply lookup_position, phases_NoDup]. Qed.

(** ** Receipts in their order *)

(** Snapshots numbered from zero, and phases a prefix of theirs *)
Record ordered (ls ps : list listed) : Prop := {
  or_snapshots : ∀ i x, ls !! i = Some x → ls_ref x = RSnapshot i ∧ ∃ m, ls_about x = ASnapshot m ∧ sm_sequence m = i;
  or_phases : ∀ i x, ps !! i = Some x → ∃ p, phase_index p = Some i ∧ ls_ref x = RPhase p ∧ ls_about x = APhase p
}.

Lemma known_Some l r x : known l r = Some x → x ∈ l ∧ ls_ref x = r.
Proof.
  unfold known. destruct (list_find _ l) as [[i y]|] eqn:E; cbn; [|done]. intros [= <-].
  apply list_find_Some in E as (Hi & Hr & _). split; [by eapply list_elem_of_lookup_2|done].
Qed.
Lemma known_cons x l r : known (x :: l) r = if decide (ls_ref x = r) then Some x else known l r.
Proof.
  unfold known. cbn. destruct (decide (ls_ref x = r)); cbn; [done|]. by destruct (list_find _ l) as [[i y]|].
Qed.
Lemma known_app l1 l2 r : known (l1 ++ l2) r = match known l1 r with Some x => Some x | None => known l2 r end.
Proof. induction l1 as [|x l1 IH]; [done|]. cbn [app]. rewrite !known_cons, IH. by destruct (decide _). Qed.
Lemma known_elem l x : NoDup (ls_ref <$> l) → x ∈ l → known l (ls_ref x) = Some x.
Proof.
  intros Hn [i Hi]%list_elem_of_lookup. unfold known.
  assert (list_find (λ y, ls_ref y = ls_ref x) l = Some (i, x)) as ->; [|done].
  apply list_find_Some. split_and!; [done..|]. intros j y Hj Hlt Heq.
  assert (j = i); [|lia]. eapply NoDup_lookup; [exact Hn|rewrite list_lookup_fmap, Hj; reflexivity|].
  rewrite list_lookup_fmap, Hi. cbn. by rewrite Heq.
Qed.

Lemma ordered_refs ls ps : ordered ls ps → NoDup (ls_ref <$> (ls ++ ps)%list).
Proof.
  intros [Hs Hp]. apply NoDup_alt. intros i j r. rewrite !list_lookup_fmap, !fmap_Some.
  intros (x & Hx & ->) (y & Hy & Heq). apply lookup_app_Some in Hx, Hy.
  destruct Hx as [Hx|[Hi Hx]], Hy as [Hy|[Hj Hy]].
  - apply Hs in Hx as [Ex _], Hy as [Ey _]. congruence.
  - apply Hs in Hx as [Ex _]. apply Hp in Hy as (q & _ & Ey & _). congruence.
  - apply Hs in Hy as [Ey _]. apply Hp in Hx as (q & _ & Ex & _). congruence.
  - apply Hp in Hx as (q & Eq & Ex & _), Hy as (q' & Eq' & Ey & _). assert (q = q') as <- by congruence.
    assert (i - length ls = j - length ls)%nat by congruence. lia.
Qed.

(** ** One record *)

Arguments phase_index : simpl never.
Definition advance (a : audit) (r : rref) (b : about) : option audit :=
  match b with
  | ASnapshot m =>
      if ad_snapshot a <? Z.of_nat (sm_sequence m)
      then Some {| ad_seen := r :: ad_seen a; ad_snapshot := Z.of_nat (sm_sequence m); ad_phase := ad_phase a |} else None
  | APhase p =>
      match phase_index p with
      | Some i => if ad_phase a <? Z.of_nat i
                  then Some {| ad_seen := r :: ad_seen a; ad_snapshot := ad_snapshot a; ad_phase := Z.of_nat i |} else None
      | None => None
      end
  end.
Lemma advance_seen a r b a' : advance a r b = Some a' → ad_seen a' = r :: ad_seen a.
Proof. destruct b as [m|p]; cbn; [|destruct (phase_index p); [|done]]; destruct (_ <? _); by intros [= <-]. Qed.

Lemma audit_record_iff l a r a' :
  audit_record l a r = Ok a'
  ↔ ir_receipt r ∉ ad_seen a
    ∧ ∃ c, known l (ir_receipt r) = Some c ∧ (ir_size r, ir_sha r) = (ls_size c, ls_sha c)
           ∧ ir_about r = ls_about c ∧ advance a (ir_receipt r) (ls_about c) = Some a'.
Proof.
  unfold audit_record, terr. rewrite rbind_unit, require_Ok, bool_decide_eq_true.
  apply and_iff_compat_l. destruct (known l (ir_receipt r)) as [c|]; [|split; [intros [=]|by intros (? & [=] & _)]].
  rewrite rbind_unit, require_Ok, bool_decide_eq_true. trans ((ir_size r, ir_sha r) = (ls_size c, ls_sha c)
    ∧ ir_about r = ls_about c ∧ advance a (ir_receipt r) (ls_about c) = Some a'); [|split; [intros (? & ? & ?); by exists c|by intros (? & [= <-] & ?)]].
  apply and_iff_compat_l. destruct (ir_about r) as [m|p], (ls_about c) as [m'|p']; cbn.
  - rewrite !rbind_unit, !require_Ok, bool_decide_eq_true, Nat.eqb_eq. split.
    + intros (Ha & Hm & -> & [= <-]). by rewrite Ha.
    + intros [[= ->] Ha]. destruct (_ <? _); [|done]. by injection Ha as <-.
  - destruct (ad_snapshot a <? _); cbn; (split; [done|by intros [? _]]).
  - destruct (phase_index p); cbn; (split; [done|by intros [? _]]).
  - destruct (phase_index p) as [i|] eqn:Ei.
    + rewrite !rbind_unit, !require_Ok, String.eqb_eq. split.
      * intros (-> & Ha & [= <-]). by rewrite Ei, Ha.
      * intros [[= ->] Ha]. rewrite Ei in Ha. destruct (_ <? _); [|done]. by injection Ha as <-.
    + split; [done|]. intros [[= ->] Ha]. by rewrite Ei in Ha.
Qed.

(** What the audit has seen so far *)
Record audited (ls ps : list listed) (a : audit) : Prop := {
  au_known : ∀ r, r ∈ ad_seen a → r ∈ (ls_ref <$> (ls ++ ps)%list);
  au_snapshot : ad_snapshot a = -1 ∨ ∃ n, RSnapshot n ∈ ad_seen a ∧ ad_snapshot a = Z.of_nat n;
  au_phase : ad_phase a = -1 ∨ ∃ p i, RPhase p ∈ ad_seen a ∧ phase_index p = Some i ∧ ad_phase a = Z.of_nat i
}.

Lemma ordered_elem ls ps x : ordered ls ps → x ∈ (ls ++ ps)%list →
  (∃ m, ls_ref x = RSnapshot (sm_sequence m) ∧ ls_about x = ASnapshot m ∧ (sm_sequence m < length ls)%nat)
  ∨ ∃ p i, ls_ref x = RPhase p ∧ ls_about x = APhase p ∧ phase_index p = Some i ∧ (i < length ps)%nat.
Proof.
  intros [Hs Hp] [[i Hi]%list_elem_of_lookup|[i Hi]%list_elem_of_lookup]%elem_of_app.
  - left. pose proof (lookup_lt_Some _ _ _ Hi). apply Hs in Hi as [Er (m & Ea & Em)]. exists m. by subst i.
  - right. pose proof (lookup_lt_Some _ _ _ Hi). apply Hp in Hi as (p & Ep & Er & Ea). exists p, i. done.
Qed.

Lemma audited_step ls ps a r a' :
  ordered ls ps → audited ls ps a → audit_record (ls ++ ps)%list a r = Ok a' → audited ls ps a'.
Proof.
  intros Ho [Hk Hs Hp] (Hr & c & Hc & _ & _ & Ha)%audit_record_iff.
  apply known_Some in Hc as [Hin Er]. pose proof (advance_seen _ _ _ _ Ha) as Es.
  assert (Hmono : ∀ q, q ∈ ad_seen a → q ∈ ad_seen a') by (intros q Hq; rewrite Es; by right).
  split.
  - rewrite Es. intros q [->|Hq]%elem_of_cons; [|by apply Hk]. rewrite <- Er. by apply list_elem_of_fmap_2.
  - destruct (ordered_elem ls ps c Ho Hin) as [(m & Em & Eb & _)|(p & i & Ep & Eb & Ei & _)]; rewrite Eb in Ha; cbn in Ha.
    + destruct (_ <? _); [|done]. injection Ha as <-. cbn. right. exists (sm_sequence m). split; [apply elem_of_cons; left; congruence|done].
    + rewrite Ei in Ha. destruct (_ <? _); [|done]. injection Ha as <-. cbn in *.
      destruct Hs as [?|(n & ? & ?)]; [by left|right; exists n; split; [by right|done]].
  - destruct (ordered_elem ls ps c Ho Hin) as [(m & Em & Eb & _)|(p & i & Ep & Eb & Ei & _)]; rewrite Eb in Ha; cbn in Ha.
    + destruct (_ <? _); [|done]. injection Ha as <-. cbn in *.
      destruct Hp as [?|(q & j & ? & ? & ?)]; [by left|right; exists q, j; split_and!; [by right|done..]].
    + rewrite Ei in Ha. destruct (_ <? _); [|done]. injection Ha as <-. cbn. right. exists p, i.
      split_and!; [apply elem_of_cons; left; congruence|done..].
Qed.
Lemma audited_fold ls ps records a :
  ordered ls ps → foldM (audit_record (ls ++ ps)%list) audit0 records = Ok a → audited ls ps a.
Proof.
  intros Ho. assert (Hgen : ∀ a0, audited ls ps a0 → foldM (audit_record (ls ++ ps)%list) a0 records = Ok a → audited ls ps a).
  { induction records as [|r rs IH]; intros a0 H0; cbn; [by intros [= <-]|].
    intros (a1 & H1 & H2)%rbind_Ok. eapply IH; [|exact H2]. by eapply audited_step. }
  apply Hgen. split; cbn; [by intros r ?%not_elem_of_nil|by left|by left].
Qed.

(** ** The latest receipt *)

(** At most one receipt has no record, and it is the latest of its kind. *)
Definition latest (ls ps os : list listed) : Prop :=
  match os with
  | [] => True
  | [o] => last ls = Some o ∨ last ps = Some o
  | _ => False
  end.

Lemma last_lookup_len {A} (l : list A) x : last l = Some x → l !! pred (length l) = Some x.
Proof. by rewrite last_lookup. Qed.

(** Its record passes the audit. *)
Lemma audit_latest ls ps a o b :
  ordered ls ps → audited ls ps a → last ls = Some o ∨ last ps = Some o → ls_ref o ∉ ad_seen a →
  ∃ a', audit_record (ls ++ ps)%list a (record_of b o) = Ok a' ∧ ad_seen a' = ls_ref o :: ad_seen a.
Proof.
  intros Ho Ha Hl Hn. assert (Hin : o ∈ (ls ++ ps)%list).
  { apply elem_of_app. destruct Hl as [Hl|Hl]; [left|right]; by eapply list_elem_of_lookup_2, last_lookup_len. }
  assert (∃ a', advance a (ls_ref o) (ls_about o) = Some a') as [a' Hadv].
  { destruct Hl as [Hl%last_lookup_len|Hl%last_lookup_len].
    - pose proof (or_snapshots _ _ Ho _ _ Hl) as (Er & m & Eb & Em). rewrite Eb. cbn.
      destruct (Z.ltb_spec (ad_snapshot a) (Z.of_nat (sm_sequence m))); [by eexists|exfalso].
      destruct (au_snapshot _ _ _ Ha) as [?|(n & Hn' & En)]; [lia|].
      pose proof (au_known _ _ _ Ha _ Hn') as (x & Ex & Hx)%list_elem_of_fmap.
      destruct (ordered_elem ls ps x Ho Hx) as [(m' & Em' & _ & Hlt)|(p & i & Ep & _)]; [|congruence].
      assert (n = sm_sequence m') as -> by congruence. apply Hn. rewrite Er.
      assert (pred (length ls) = sm_sequence m') as -> by lia. done.
    - pose proof (or_phases _ _ Ho _ _ Hl) as (p & Ep & Er & Eb). rewrite Eb. cbn. rewrite Ep.
      destruct (Z.ltb_spec (ad_phase a) (Z.of_nat (pred (length ps)))); [by eexists|exfalso].
      destruct (au_phase _ _ _ Ha) as [?|(q & i & Hq & Ei & En)]; [lia|].
      pose proof (au_known _ _ _ Ha _ Hq) as (x & Ex & Hx)%list_elem_of_fmap.
      destruct (ordered_elem ls ps x Ho Hx) as [(m' & Em' & _)|(q' & j & Eq & _ & Ej & Hlt)]; [congruence|].
      assert (q' = q) as -> by congruence. assert (i = j) as -> by congruence.
      assert (j = pred (length ps)) as -> by lia. apply Hn. rewrite Er.
      apply phase_index_lookup in Ei, Ep. assert (p = q) as -> by congruence. done. }
  exists a'. split; [|by eapply advance_seen]. apply audit_record_iff. cbn. split; [done|]. exists o.
  split_and!; [|done..]. by apply known_elem; [apply ordered_refs|].
Qed.

Section Index.
Context `{Digest}.
Variable run_dir : string.
Notation audit_index := (audit_index run_dir).
Notation indexed := (indexed run_dir).

Definition unseen (ls ps : list listed) (a : audit) : list listed :=
  base.filter (λ x, ls_ref x ∉ ad_seen a) (ls ++ ps)%list.

Lemma sequence_last ls ps o :
  ordered ls ps → o ∈ (ls ++ ps)%list →
  (match sequence_of o with Some n => S n = length ls | None => True end)
  → (match phase_of o with Some p => Some p = last ps ≫= phase_of | None => True end) →
  last ls = Some o ∨ last ps = Some o.
Proof.
  intros Ho Hin Hs Hp. destruct (ordered_elem ls ps o Ho Hin) as [(m & Er & Eb & Hlt)|(p & i & Er & Eb & Ei & Hlt)].
  - unfold sequence_of in Hs. rewrite Eb in Hs. left. rewrite last_lookup, <- Hs. cbn.
    apply elem_of_app in Hin as [[j Hj]%list_elem_of_lookup|[j Hj]%list_elem_of_lookup].
    + pose proof (or_snapshots _ _ Ho _ _ Hj) as [Ej _]. by assert (sm_sequence m = j) as -> by congruence.
    + pose proof (or_phases _ _ Ho _ _ Hj) as (q & _ & Ej & _). congruence.
  - unfold phase_of in Hp. rewrite Eb in Hp. right. destruct (last ps) as [x|] eqn:El; [|done]. cbn in Hp.
    destruct (ls_about x) as [|q] eqn:Ex; [done|]. injection Hp as ->.
    apply last_lookup_len in El as Hx. pose proof (or_phases _ _ Ho _ _ Hx) as (q' & Eq & Exr & Exb).
    assert (q' = q) as -> by congruence.
    assert (o ∈ (ls ++ ps)%list ∧ x ∈ (ls ++ ps)%list) as [Ho' Hx'].
    { split; [done|]. apply elem_of_app. right. by eapply list_elem_of_lookup_2. }
    apply (known_elem _ _ (ordered_refs _ _ Ho)) in Ho', Hx'. rewrite Er in Ho'. rewrite Exr in Hx'. congruence.
Qed.

Lemma audit_index_iff s ls ps os :
  ordered ls ps →
  audit_index s ls ps = Ok os
  ↔ ∃ records a, indexed s records ∧ foldM (audit_record (ls ++ ps)%list) audit0 records = Ok a
                 ∧ os = unseen ls ps a ∧ latest ls ps os.
Proof.
  intros Ho. unfold OdinStore.audit_index, terr. split.
  - intros (gs & Hg & (records & Hr & (a & Ha & Hl)%rbind_Ok)%rbind_Ok)%rbind_Ok. cbv zeta in Hl.
    apply rbind_unit in Hl as [Hle%require_Ok%Nat.leb_le [Hlast Hos]%rbind_unit]. fold (unseen ls ps a) in *.
    injection Hos as <-. exists records, a. split_and!; [by apply indexed_read; exists gs|done..|].
    destruct (unseen ls ps a) as [|o [|o' os]] eqn:Eu; [done| |cbn in Hle; lia]. cbn.
    apply rbind_unit in Hlast as [Hs%require_Ok Hp%require_Ok].
    assert (Hin : o ∈ (ls ++ ps)%list).
    { assert (Hin : o ∈ unseen ls ps a) by (rewrite Eu; left). by apply list_elem_of_filter in Hin as [_ ?]. }
    apply (sequence_last ls ps o Ho Hin).
    + destruct (sequence_of o); [by apply Nat.eqb_eq|done].
    + destruct (phase_of o); [by apply bool_decide_eq_true in Hp|done].
  - intros (records & a & Hi & Ha & -> & Hl). apply indexed_read in Hi as (gs & -> & Hr). cbn [rbind].
    rewrite Hr. cbn [rbind]. rewrite Ha. cbn [rbind]. fold (unseen ls ps a). cbv zeta.
    destruct (unseen ls ps a) as [|o [|o' os]] eqn:Eu; [done| |done]. cbn [length Nat.leb Prelude.require rbind]. cbn in Hl.
    assert (Hs : match sequence_of o with Some n => (S n =? length ls)%nat | None => true end = true).
    { unfold sequence_of. destruct Hl as [Hl%last_lookup_len|Hl%last_lookup_len].
      - pose proof (lookup_lt_Some _ _ _ Hl). apply or_snapshots with (ps := ps) in Hl as (_ & m & -> & Em); [|done].
        apply Nat.eqb_eq. lia.
      - apply or_phases with (ls := ls) in Hl as (p & _ & _ & ->); done. }
    assert (Hp : match phase_of o with Some p => bool_decide (Some p = last ps ≫= phase_of) | None => true end = true).
    { destruct (phase_of o) as [p|] eqn:Ep; [|done]. apply bool_decide_eq_true. destruct Hl as [Hl%last_lookup_len|Hl].
      - apply or_snapshots with (ps := ps) in Hl as (_ & m & Em & _); [|done]. unfold phase_of in Ep. by rewrite Em in Ep.
      - by rewrite Hl. }
    by rewrite Hs, Hp.
Qed.

Lemma audit_ext s s' ls ps os :
  ordered ls ps → same_index s s' → audit_index s ls ps = Ok os → audit_index s' ls ps = Ok os.
Proof.
  intros Ho Hi. rewrite !audit_index_iff by done. intros (records & a & Hr & Hrest). exists records, a.
  split; [by eapply indexed_ext|done].
Qed.

(** With the record of its latest receipt the index is complete. *)
Lemma audit_grown s' ls ps o records a b :
  ordered ls ps → foldM (audit_record (ls ++ ps)%list) audit0 records = Ok a →
  unseen ls ps a = [o] → latest ls ps [o] → indexed s' (records ++ [record_of b o])%list →
  audit_index s' ls ps = Ok [].
Proof.
  intros Ho Ha Hu Hl Hi. assert (Hn : ls_ref o ∉ ad_seen a).
  { assert (Hin : o ∈ unseen ls ps a) by (rewrite Hu; left). by apply list_elem_of_filter in Hin as [? _]. }
  destruct (audit_latest ls ps a o b Ho (audited_fold _ _ _ _ Ho Ha) Hl Hn) as (a' & Ha' & Hs).
  apply audit_index_iff; [done|]. exists (records ++ [record_of b o])%list, a'. split_and!; [done| | |done].
  - by rewrite foldM_snoc, Ha.
  - symmetry. apply elem_of_nil_inv. intros x Hx. apply list_elem_of_filter in Hx as [Hx' Hx]. apply Hx'. rewrite Hs.
    destruct (decide (ls_ref x ∈ ad_seen a)) as [|Hx2]; [by right|]. apply elem_of_cons. left.
    assert (Hin : x ∈ unseen ls ps a) by by apply list_elem_of_filter. rewrite Hu in Hin.
    apply list_elem_of_singleton in Hin. by subst.
Qed.

(** A published receipt is the one without a record. *)
Lemma known_insert l1 l2 x r c :
  ls_ref x ∉ ls_ref <$> (l1 ++ l2)%list → known (l1 ++ l2) r = Some c → known (l1 ++ [x] ++ l2) r = Some c.
Proof.
  intros Hx Hk. pose proof (known_Some _ _ _ Hk) as [Hin Er]. rewrite known_app in *. destruct (known l1 r); [done|].
  rewrite known_app, known_cons. destruct (decide (ls_ref x = r)) as [Heq|]; [|done].
  exfalso. apply Hx. rewrite Heq, <- Er. by apply list_elem_of_fmap_2.
Qed.
Lemma fold_insert l1 l2 x records a0 a :
  ls_ref x ∉ ls_ref <$> (l1 ++ l2)%list → foldM (audit_record (l1 ++ l2)%list) a0 records = Ok a →
  foldM (audit_record (l1 ++ [x] ++ l2)%list) a0 records = Ok a.
Proof.
  intros Hx. revert a0. induction records as [|r rs IH]; intros a0; cbn [foldM]; [done|].
  intros (a1 & H1 & H2)%rbind_Ok. apply audit_record_iff in H1 as (Hr & c & Hc & Hrest).
  rewrite (proj2 (audit_record_iff _ a0 r a1)); [by apply IH|]. split; [done|]. exists c. split; [by apply known_insert|done].
Qed.
Lemma unseen_insert l1 l2 x a :
  ls_ref x ∉ ad_seen a → base.filter (λ x, ls_ref x ∉ ad_seen a) (l1 ++ l2)%list = [] →
  base.filter (λ x, ls_ref x ∉ ad_seen a) (l1 ++ [x] ++ l2)%list = [x].
Proof.
  intros Hx. rewrite !filter_app. intros [-> ->]%app_eq_nil. cbn. rewrite app_nil_r. cbn.
  by rewrite decide_True.
Qed.

Lemma audit_published s s' l1 l2 x ls ps ls' ps' :
  ordered ls ps → ordered ls' ps' → (ls ++ ps = l1 ++ l2)%list → (ls' ++ ps' = l1 ++ [x] ++ l2)%list →
  latest ls' ps' [x] → same_index s s' → audit_index s ls ps = Ok [] → 
  ∃ records a, indexed s' records ∧ foldM (audit_record (ls' ++ ps')%list) audit0 records = Ok a
               ∧ unseen ls' ps' a = [x] ∧ audit_index s' ls' ps' = Ok [x].
Proof.
  intros Ho Ho' El El' Hl Hi (records & a & Hr & Ha & Hu & _)%audit_index_iff; [|done].
  assert (Hx : ls_ref x ∉ ls_ref <$> (ls ++ ps)%list).
  { pose proof (ordered_refs _ _ Ho') as Hn. rewrite El', !fmap_app in Hn. rewrite El, fmap_app.
    apply NoDup_app in Hn as (_ & H1 & Hn). apply NoDup_cons in Hn as [H2 _]. intros [Hin|Hin]%elem_of_app; [|done].
    apply (H1 _ Hin). cbn. by left. }
  assert (Ha' : foldM (audit_record (ls' ++ ps')%list) audit0 records = Ok a).
  { rewrite El'. apply fold_insert; [by rewrite <- El|by rewrite <- El]. }
  assert (Hu' : unseen ls' ps' a = [x]).
  { unfold unseen in *. rewrite El'. apply unseen_insert; [|by rewrite <- El].
    intros Hin. apply Hx. by apply (au_known _ _ _ (audited_fold _ _ _ _ Ho Ha)). }
  exists records, a. split_and!; [by eapply indexed_ext|done..|]. apply audit_index_iff; [done|].
  exists records, a. split_and!; [by eapply indexed_ext|done..].
Qed.
End Index.
