(* ===== verification/OdinCrash.v ===== *)
(** * Receipts and index across a crash

    A run directory is coherent when its receipts are complete and its index names all
    of them but at most the latest.  Reconciliation, a snapshot and a phase receipt keep
    it coherent wherever the run is cut. *)

From stdpp Require Import base list strings gmap sorting.
From Stdlib Require Import ZArith Lia Ascii.
From S2P Require Import Prelude PyStr Dir Json Digest Bytes Console OdinUsb OdinStore OdinStoreTheory.
Open Scope string_scope.
Open Scope Z_scope.

(** ** Listings by number *)

Definition numbers {A} (m : gmap nat A) : list nat := merge_sort Nat.le (elements (dom m)).

Lemma elem_numbers {A} (m : gmap nat A) n : n ∈ numbers m ↔ is_Some (m !! n).
Proof. unfold numbers. by rewrite merge_sort_Permutation, elem_of_elements, elem_of_dom. Qed.
Lemma numbers_sorted {A} (m : gmap nat A) : Sorted Nat.le (numbers m).
Proof. apply Sorted_merge_sort. intros x y. lia. Qed.
Lemma numbers_unique {A} (m : gmap nat A) l : Sorted Nat.le l → NoDup l → (∀ n, n ∈ l ↔ is_Some (m !! n)) → numbers m = l.
Proof.
  intros Hs Hn He. apply (Sorted_unique Nat.le); [apply numbers_sorted|done|]. unfold numbers.
  rewrite merge_sort_Permutation. apply NoDup_Permutation; [apply NoDup_elements|done|].
  intros n. by rewrite elem_of_elements, elem_of_dom, He.
Qed.
Lemma seq_sorted a n : Sorted Nat.le (seq a n).
Proof.
  revert a. induction n as [|n IH]; intros a; cbn; [constructor|]. constructor; [apply IH|].
  destruct n; cbn; constructor. lia.
Qed.

Lemma numbers_insert {A} (m : gmap nat A) n a : numbers m = seq 0 n → numbers (<[n := a]> m) = seq 0 (S n).
Proof.
  intros Hm. apply numbers_unique; [apply seq_sorted|apply NoDup_seq|].
  intros k. rewrite elem_of_seq. destruct (decide (k = n)) as [->|Hne].
  - rewrite lookup_insert_eq. split; [by eexists|lia].
  - rewrite lookup_insert_ne by done. rewrite <- elem_numbers, Hm, elem_of_seq. lia.
Qed.
Lemma numbered_numbers {A} (m : gmap nat A) : numbered m = omap (λ n, (λ a, (n, a)) <$> m !! n) (numbers m).
Proof. done. Qed.
Lemma numbered_insert {A} (m : gmap nat A) n a :
  numbers m = seq 0 n → numbered (<[n := a]> m) = (numbered m ++ [(n, a)])%list.
Proof.
  intros Hm. rewrite !numbered_numbers, (numbers_insert m n a Hm), Hm, seq_S, omap_app. cbn.
  rewrite lookup_insert_eq. cbn. f_equal. apply list_omap_ext, Forall_Forall2_diag, Forall_forall.
  intros k Hk. apply elem_of_seq in Hk. by rewrite lookup_insert_ne by lia.
Qed.

Lemma list_all_app {A} (f : nat → A → result listed) l1 l2 :
  list_all f (l1 ++ l2) = let* a := list_all f l1 in let* b := list_all f l2 in Ok (a ++ b)%list.
Proof.
  induction l1 as [|[n x] l1 IH]; cbn; [by destruct (list_all f l2)|]. destruct (f n x); cbn; [|done].
  rewrite IH. destruct (list_all f l1); cbn; [|done]. by destruct (list_all f l2).
Qed.
Lemma list_all_ext {A} (f g : nat → A → result listed) l : (∀ n a, f n a = g n a) → list_all f l = list_all g l.
Proof. intros Hf. induction l as [|[n a] l IH]; cbn; [done|]. by rewrite Hf, IH. Qed.
Lemma list_all_lookup {A} (f : nat → A → result listed) l xs :
  list_all f l = Ok xs → length xs = length l ∧ ∀ i n a, l !! i = Some (n, a) → ∃ x, xs !! i = Some x ∧ f n a = Ok x.
Proof.
  revert xs. induction l as [|[n a] l IH]; intros xs; cbn; [by intros [= <-]|].
  intros (x & Hx & (xs' & Hxs & [= <-])%rbind_Ok)%rbind_Ok. apply IH in Hxs as [Hl Hat]. cbn. split; [by rewrite Hl|].
  intros [|i] n' a'; cbn; [intros [= <- <-]; by exists x|apply Hat].
Qed.

(** ** Steps of a transaction *)

Lemma tx_oread {A B} (f : store → result A) (k : A → Tx B) s :
  (x ← oread f; k x) s = match f s with Ok a => k a s | Err e => (Err e, s) end.
Proof. done. Qed.
Lemma tx_olift {A B} (r : result A) (k : A → Tx B) s :
  (x ← olift r; k x) s = match r with Ok a => k a s | Err e => (Err e, s) end.
Proof. by destruct r. Qed.
Lemma tx_oget {B} (k : store → Tx B) s : (x ← oget; k x) s = k s s.
Proof. done. Qed.
Lemma tx_bind {A B} (m : Tx A) (k : A → Tx B) s :
  (x ← m; k x) s = match m s with (Ok a, s') => k a s' | (Err e, s') => (Err e, s') end.
Proof. done. Qed.

Section Crash.
Context `{Digest}.
Variables (run_dir pid : string).
Notation indexed := (indexed run_dir).
Notation audit_index := (audit_index run_dir).
Notation record_text := (record_text run_dir).
Notation append_record := (append_record run_dir).
Notation append_capacity := (append_capacity run_dir).
Notation reconcile := (reconcile run_dir).

Lemma list_snapshot_about s n f x :
  list_snapshot s n f = Ok x → ls_ref x = RSnapshot n ∧ ∃ m, ls_about x = ASnapshot m ∧ sm_sequence m = n.
Proof.
  unfold list_snapshot. intros ([p id] & _ & Hx)%rbind_Ok. rsimp. cbn. split; [done|]. by eexists.
Qed.

Lemma numbers_length {A} (m : gmap nat A) : length (numbered m) = length (numbers m) ∧ (numbered m).*1 = numbers m.
Proof.
  rewrite numbered_numbers. assert (Hall : ∀ n, n ∈ numbers m → is_Some (m !! n)) by (intros n; by rewrite elem_numbers).
  induction (numbers m) as [|n l IH]; [done|]. cbn. destruct (Hall n ltac:(by left)) as [a Ha]. rewrite Ha. cbn.
  destruct IH as [-> ->]; [intros k Hk; apply Hall; by right|done].
Qed.

(** ** Coherent run directories *)

Record coherent (s : store) (ls ps os : list listed) : Prop := {
  co_snapshots : list_snapshot_receipts s = Ok ls;
  co_phases : list_phase_receipts s = Ok ps;
  co_numbers : ls_ref <$> ls = RSnapshot <$> seq 0 (length ls);
  co_dir : st_receipts s = false → st_snapshots s = ∅ ∧ st_phases s = ∅ ∧ st_odd_snapshot s = false;
  co_audit : audit_index s ls ps = Ok os
}.

Lemma snapshots_listed s ls :
  (st_receipts s = false → st_snapshots s = ∅) → list_snapshot_receipts s = Ok ls →
  list_all (list_snapshot s) (numbered (st_snapshots s)) = Ok ls.
Proof.
  intros Hd. unfold list_snapshot_receipts. destruct (st_receipts s); cbn; [|rewrite Hd by done; done].
  unfold terr. rewrite !rbind_unit. by intros (_ & _ & ?).
Qed.
Lemma snapshots_numbers s ls :
  (st_receipts s = false → st_snapshots s = ∅) → list_snapshot_receipts s = Ok ls →
  ls_ref <$> ls = RSnapshot <$> seq 0 (length ls) → numbers (st_snapshots s) = seq 0 (length ls).
Proof.
  intros Hd Hl Hn. apply snapshots_listed in Hl; [|done]. apply list_all_lookup in Hl as [Hlen Hat].
  destruct (numbers_length (st_snapshots s)) as [Hl1 Hl2]. apply list_eq. intros i. rewrite <- Hl2, list_lookup_fmap.
  destruct (numbered (st_snapshots s) !! i) as [[n f]|] eqn:E; cbn.
  - destruct (Hat i n f E) as (x & Hx & Hf). apply list_snapshot_about in Hf as [Er _].
    assert (Hi : (ls_ref <$> ls) !! i = Some (RSnapshot n)) by by rewrite list_lookup_fmap, Hx; cbn; rewrite Er.
    rewrite Hn, list_lookup_fmap in Hi. destruct (seq 0 (length ls) !! i); [|done]. cbn in Hi. congruence.
  - symmetry. apply lookup_ge_None. rewrite length_seq, Hlen. by apply lookup_ge_None.
Qed.

Lemma list_phase_about p f x : list_phase p f = Ok x → ls_ref x = RPhase p ∧ ls_about x = APhase p.
Proof. unfold list_phase. intros ([v id] & _ & Hx)%rbind_Ok. rsimp. done. Qed.
Lemma list_phases_lookup s l xs :
  list_phases s l = Ok xs →
  ∀ i x, xs !! i = Some x → ∃ p f, l !! i = Some p ∧ st_phases s !! p = Some f ∧ list_phase p f = Ok x.
Proof.
  revert xs. induction l as [|p l IH]; intros xs; cbn; [by intros [= <-]|].
  destruct (st_phases s !! p) as [f|] eqn:Ef; [|by intros [= <-]].
  intros (x & Hx & (xs' & Hxs & [= <-])%rbind_Ok)%rbind_Ok. intros [|i] y; cbn; [intros [= <-]; by exists p, f|].
  by apply IH.
Qed.
Lemma phases_listed s ps :
  (st_receipts s = false → st_phases s = ∅) → list_phase_receipts s = Ok ps →
  list_phases s TRANSACTION_PHASES = Ok ps ∧ length ps = size (st_phases s).
Proof.
  intros Hd. unfold list_phase_receipts. destruct (st_receipts s); cbn [negb].
  - intros (l & Hl & [Hs%require_Ok%Nat.eqb_eq [= <-]]%rbind_unit)%rbind_Ok. done.
  - intros [= <-]. specialize (Hd eq_refl). rewrite Hd, map_size_empty. split; [|done].
    unfold TRANSACTION_PHASES. cbn [list_phases]. by rewrite Hd, lookup_empty.
Qed.

Lemma coherent_ordered s ls ps os : coherent s ls ps os → ordered ls ps.
Proof.
  intros [Hs Hp Hn Hd _]. split.
  - intros i x Hx. apply snapshots_listed in Hs; [|intros Hz; by apply Hd in Hz as (? & ? & ?)]. apply list_all_lookup in Hs as [Hlen Hat].
    assert (is_Some (numbered (st_snapshots s) !! i)) as [[n f] Hnf].
    { apply lookup_lt_is_Some. rewrite <- Hlen. by eapply lookup_lt_Some. }
    destruct (Hat i n f Hnf) as (x' & Hx' & Hf). assert (x' = x) as -> by congruence.
    apply list_snapshot_about in Hf as [Er Hm]. assert (Hi : (ls_ref <$> ls) !! i = Some (RSnapshot n)).
    { rewrite list_lookup_fmap, Hx. cbn. by rewrite Er. }
    rewrite Hn, list_lookup_fmap in Hi. destruct (seq 0 (length ls) !! i) as [k|] eqn:Ek; [|done].
    apply lookup_seq in Ek as [-> _]. cbn in Hi. assert (i = n) as -> by congruence. done.
  - intros i x Hx. apply phases_listed in Hp as [Hp _]; [|intros Hz; by apply Hd in Hz as (? & ? & ?)].
    destruct (list_phases_lookup _ _ _ Hp _ _ Hx) as (p & f & Hpi & _ & Hf). exists p.
    rewrite phase_index_lookup. split; [done|]. by eapply list_phase_about.
Qed.

Lemma list_snapshot_ext s s' n f : st_captures s' = st_captures s → list_snapshot s' n f = list_snapshot s n f.
Proof. intros Hc. unfold list_snapshot, capture_agrees. by rewrite Hc. Qed.
Lemma list_phases_ext s s' l : st_phases s' = st_phases s → list_phases s' l = list_phases s l.
Proof. intros Hp. induction l as [|p l IH]; cbn; [done|]. by rewrite Hp, IH. Qed.
Lemma listings_ext s s' :
  same_receipts s s' → list_snapshot_receipts s' = list_snapshot_receipts s ∧ list_phase_receipts s' = list_phase_receipts s.
Proof.
  intros (Er & Es & Ep & Eo & Ec). unfold list_snapshot_receipts, list_phase_receipts. rewrite Er, Es, Ep, Eo.
  rewrite (list_phases_ext s s') by done. split; [|done]. by rewrite (list_all_ext _ (list_snapshot s)) by (intros; by apply list_snapshot_ext).
Qed.

(** The receipts stay and the index is audited anew. *)
Lemma coherent_audit s s' ls ps os os' :
  coherent s ls ps os → same_receipts s s' → audit_index s' ls ps = Ok os' → coherent s' ls ps os'.
Proof.
  intros [Hs Hp Hn Hd Ha] Hr Ha'. destruct (listings_ext s s' Hr) as [El Ep]. destruct Hr as (Er & Es & Ep' & Eo & Ec).
  split; rewrite ?El, ?Ep, ?Er, ?Es, ?Ep', ?Eo; done.
Qed.
Lemma coherent_ext s s' ls ps os : same_receipts s s' → same_index s s' → coherent s ls ps os → coherent s' ls ps os.
Proof.
  intros Hr Hi Hc. eapply coherent_audit; [done..|]. eapply audit_ext; [by eapply coherent_ordered|done|by apply co_audit].
Qed.

(** ** The record of the latest receipt *)

(** What becomes of a receipt without a record *)
Definition settled (ls ps os : list listed) (s : store) (out : result unit * store) : Prop :=
  same_receipts s out.2
  ∧ match out.1 with
    | Ok _ => coherent out.2 ls ps []
    | Err PowerLoss => coherent out.2 ls ps os ∨ coherent out.2 ls ps []
    | Err _ => out.2 = s
    end.

Lemma append_latest s ls ps o b :
  coherent s ls ps [o] → settled ls ps [o] s (append_record (record_of b o) s).
Proof.
  intros Hc. pose proof (coherent_ordered _ _ _ _ Hc) as Ho. pose proof (co_audit _ _ _ _ Hc) as Ha.
  apply audit_index_iff in Ha as (records & a & Hi & Ha & Hu & Hl); [|done]. symmetry in Hu.
  destruct (store_append_spec run_dir s (record_of b o) records Hi) as [Hr Hout].
  assert (Hfull : ∀ s', same_receipts s s' → indexed s' (records ++ [record_of b o])%list → coherent s' ls ps []).
  { intros s' Hs Hi'. eapply coherent_audit; [done..|]. by eapply audit_grown. }
  split; [done|]. destruct (append_record _ s) as [[[]|e] s']; cbn in *; [by apply Hfull|].
  destruct e; try done. destruct Hout as [Hold|Hnew]; [left|right; by apply Hfull].
  eapply coherent_audit; [done..|]. apply audit_index_iff; [done|]. exists records, a. done.
Qed.

Lemma reconcile_spec s ls ps os : coherent s ls ps os → settled ls ps os s (reconcile s).
Proof.
  intros Hc. unfold OdinStore.reconcile, mbind, Tx_bind, oread, olift.
  rewrite (co_snapshots _ _ _ _ Hc), (co_phases _ _ _ _ Hc), (co_audit _ _ _ _ Hc).
  assert (Hos : os = [] ∨ ∃ o, os = [o]).
  { pose proof (coherent_ordered _ _ _ _ Hc) as Ho. pose proof (co_audit _ _ _ _ Hc) as Ha.
    apply audit_index_iff in Ha as (? & ? & _ & _ & _ & Hl); [|done]. destruct os as [|o [|]]; [by left|right; by exists o|done]. }
  destruct Hos as [->|[o ->]]; [by split|].
  destruct (jsonl_record _ _) as [t|e] eqn:Ej; [|by split; [|destruct e; try done; left]].
  destruct (append_capacity s _) as [[]|e]; [|by split; [|destruct e; try done; left]].
  destruct (append_latest s ls ps o true Hc) as [Hr Hout].
  destruct (append_record (record_of true o) s) as [[[]|e] s']; cbn in *; [|by split].
  rewrite (co_audit _ _ _ _ Hout). cbn. by split.
Qed.

Lemma reconcile_finishes s ls ps os :
  coherent s ls ps os → st_cut s = None →
  (∀ o, o ∈ os → append_capacity s (zlen (record_text (record_of true o))) = Ok tt) →
  (reconcile s).1 = Ok tt.
Proof.
  intros Hc Hn Hcap. pose proof (reconcile_spec s ls ps os Hc) as [_ Hspec].
  pose proof (coherent_ordered _ _ _ _ Hc) as Ho. pose proof (co_audit _ _ _ _ Hc) as Ha.
  apply audit_index_iff in Ha as (records & a & Hi & Ha & Hu & Hl); [|done].
  revert Hspec. unfold OdinStore.reconcile, mbind, Tx_bind, oread, olift.
  rewrite (co_snapshots _ _ _ _ Hc), (co_phases _ _ _ _ Hc), (co_audit _ _ _ _ Hc).
  destruct os as [|o [|]]; [done| |done]. pose proof (Hcap o ltac:(by left)) as Hco.
  assert (Ej : jsonl_record run_dir (record_of true o) = Ok (record_text (record_of true o))).
  { unfold OdinStore.append_capacity in Hco. apply rbind_unit in Hco as [[_ Hle]%require_Ok%andb_true_iff _].
    unfold jsonl_record. by rewrite Hle. }
  rewrite Ej, Hco. pose proof (append_total run_dir s (record_of true o) records Hi Hco) as Hf.
  pose proof (append_latest s ls ps o true Hc) as [_ Hout].
  destruct (append_record (record_of true o) s) as [r s']. cbn in *. destruct Hf as [Hf|[_ Hf]]; [|done]. cbn in Hf. subst r.
  rewrite (co_audit _ _ _ _ Hout). done.
Qed.

(** ** Publication *)

(** A store with the same receipts and index, whose receipt directory may have been created *)
Definition framed (s s' : store) : Prop :=
  st_snapshots s' = st_snapshots s ∧ st_phases s' = st_phases s ∧ st_odd_snapshot s' = st_odd_snapshot s
  ∧ st_captures s' = st_captures s ∧ same_index s s' ∧ (st_receipts s = true → st_receipts s' = true).
Lemma framed_trans s1 s2 s3 : framed s1 s2 → framed s2 s3 → framed s1 s3.
Proof. unfold framed, same_index. intuition congruence. Qed.
Lemma framed_refl s : framed s s.
Proof. done. Qed.

Lemma coherent_framed s s' ls ps os : framed s s' → coherent s ls ps os → coherent s' ls ps os.
Proof.
  intros (Es & Ep & Eo & Ec & Hi & Hr) Hc. destruct (st_receipts s) eqn:E.
  - apply (coherent_ext s); [|done..]. split_and!; [rewrite Hr, E; done|done..].
  - destruct (co_dir _ _ _ _ Hc E) as (Es' & Ep' & Eo').
    destruct (st_receipts s') eqn:E'; [|by apply (coherent_ext s); [split_and!; [congruence|done..]|..]].
    pose proof (coherent_ordered _ _ _ _ Hc) as Ho. destruct Hc as [Hs Hp Hn _ Ha].
    unfold list_snapshot_receipts, list_phase_receipts in Hs, Hp. rewrite E in Hs, Hp. cbn in Hs, Hp.
    injection Hs as <-. injection Hp as <-. split; [| |done|by rewrite E'|by eapply audit_ext].
    + unfold list_snapshot_receipts. rewrite E', Es, Eo, Es', Eo'. done.
    + unfold list_phase_receipts. rewrite E'. unfold TRANSACTION_PHASES. cbn [list_phases]. rewrite Ep, Ep', lookup_empty. done.
Qed.

Definition published (publish : store → store) (s s' : store) : Prop :=
  ∃ s1, framed s s1 ∧ st_receipts s1 = true ∧ framed (publish s1) s'.

(** The file is created whole or not at all. *)
Definition sealed_once (publish : store → store) (v : json) (s : store) (out : result (Z * string) * store) : Prop :=
  match out.1 with
  | Ok id => json_receipt v = Ok id ∧ published publish s out.2
  | Err PowerLoss => framed s out.2 ∨ published publish s out.2
  | Err _ => framed s out.2
  end.

Lemma step_framed s r s' : step s = (r, s') → framed s s' ∧ st_receipts s' = st_receipts s ∧ (r = Ok tt ∨ r = Err PowerLoss).
Proof. destruct (step_cases s) as [[c ->]| ->]; intros [= <- <-]; (split; [done|]); split; auto. Qed.
Lemma directory_framed s r s' :
  (if st_receipts s then mret tt else _ ← step; oupd with_receipts) s = (r, s') →
  framed s s' ∧ (r = Ok tt ∧ st_receipts s' = true ∨ r = Err PowerLoss).
Proof.
  destruct (st_receipts s) eqn:E; [intros [= <- <-]; by split; [|left]|]. unfold mbind, Tx_bind, oupd.
  destruct (step_cases s) as [[c ->]| ->]; intros [= <- <-]; (split; [by split_and!; try done; rewrite E|]); auto.
Qed.
Lemma temporaries_framed t s : framed s (with_temporaries t s).
Proof. done. Qed.

Lemma create_sealed_spec name present publish v s :
  (∀ s1 s2, framed s1 s2 → framed (publish s1) (publish s2)) →
  sealed_once publish v s (create_sealed pid name present publish v s).
Proof.
  intros Hpub. unfold create_sealed, remove_temporary, mbind, Tx_bind, olift, oget, oupd.
  destruct (json_receipt v) as [id|e] eqn:Ej; [|destruct e; first [done|by left]].
  destruct ((if st_receipts s then mret tt else _ ← step; oupd with_receipts) s) as [r s1] eqn:E1.
  unfold mbind, Tx_bind, oupd in E1. rewrite E1. apply directory_framed in E1 as [F1 [[-> R1]| ->]]; [|by left].
  destruct (negb (present s)); cbn [terr Prelude.require]; [|exact F1].
  destruct (bool_decide _).
  { destruct (step s1) as [r2 s2] eqn:E2. apply step_framed in E2 as (F2 & _ & [-> | ->]); unfold sealed_once; cbn;
      [|left; by eapply framed_trans].
    eapply framed_trans; [exact F1|]. by eapply framed_trans; [|apply temporaries_framed]. }
  unfold mret at 1, Tx_ret at 1.
  destruct (step s1) as [r2 s2] eqn:E2. apply step_framed in E2 as (F2 & R2 & [-> | ->]); [|by left; eapply framed_trans].
  set (t := {[ _ ]} ∪ _). set (s3 := with_temporaries t s2).
  assert (F3 : framed s s3) by (eapply framed_trans; [exact F1|]; eapply framed_trans; [exact F2|apply temporaries_framed]).
  assert (R3 : st_receipts s3 = true) by (cbn; congruence).
  destruct (step s3) as [r4 s4] eqn:E4. apply step_framed in E4 as (F4 & R4 & [-> | ->]); [|by left; eapply framed_trans].
  assert (Hp : published publish s (publish s4)).
  { exists s4. split; [by eapply framed_trans|]. split; [congruence|done]. }
  destruct (step (publish s4)) as [r5 s5] eqn:E5. apply step_framed in E5 as (F5 & _ & [-> | ->]).
  - cbn. split; [done|]. destruct Hp as (s0 & H1 & H2 & H3). exists s0. split_and!; [done..|].
    eapply framed_trans; [exact H3|]. by eapply framed_trans; [|apply temporaries_framed].
  - right. destruct Hp as (s0 & H1 & H2 & H3). exists s0. split_and!; [done..|]. by eapply framed_trans.
Qed.

Lemma snapshot_framed n f s1 s2 : framed s1 s2 → framed (with_snapshot n f s1) (with_snapshot n f s2).
Proof. intros (Es & Ep & Eo & Ec & Hi & Hr). split_and!; cbn; congruence || done. Qed.
Lemma phase_framed p f s1 s2 : framed s1 s2 → framed (with_phase p f s1) (with_phase p f s2).
Proof. intros (Es & Ep & Eo & Ec & Hi & Hr). split_and!; cbn; congruence || done. Qed.

Lemma size_numbers {A} (m : gmap nat A) : size m = length (numbers m).
Proof. unfold numbers. rewrite merge_sort_Permutation. by rewrite <- size_dom. Qed.

Lemma coherent_snapshot s ls ps f x :
  coherent s ls ps [] → st_receipts s = true → (length ls < MAX_SNAPSHOT_RECEIPTS)%nat →
  list_snapshot s (length ls) f = Ok x → coherent (with_snapshot (length ls) f s) (ls ++ [x]) ps [x].
Proof.
  intros Hc Hr Hlt Hx. pose proof (coherent_ordered _ _ _ _ Hc) as Ho. destruct Hc as [Hs Hp Hn Hd Ha].
  destruct (list_snapshot_about _ _ _ _ Hx) as (Er & m & Eb & Em).
  assert (Hd' : st_receipts s = false → st_snapshots s = ∅) by by rewrite Hr.
  pose proof (snapshots_numbers s ls Hd' Hs Hn) as Hnum. pose proof (snapshots_listed s ls Hd' Hs) as Hl.
  assert (Ho' : ordered (ls ++ [x]) ps).
  { split; [|apply Ho]. intros i y [Hy|[Hi Hy]]%lookup_app_Some; [by apply (or_snapshots _ _ Ho)|].
    apply list_lookup_singleton_Some in Hy as [Hi' <-]. assert (i = length ls) as -> by lia. split; [done|]. by exists m. }
  split.
  - unfold list_snapshot_receipts in *. cbn [st_receipts st_odd_snapshot st_snapshots with_snapshot]. rewrite Hr in *.
    cbn [negb terr Prelude.require] in *. unfold terr in *. rewrite !rbind_unit in Hs. destruct Hs as (Hodd & _ & _).
    rewrite Hodd. cbn [rbind]. rewrite size_numbers, (numbers_insert _ _ f Hnum), length_seq.
    rewrite (proj2 (Nat.leb_le _ _)) by lia. cbn [Prelude.require rbind].
    rewrite numbered_insert by done. rewrite list_all_app, (list_all_ext _ (list_snapshot s)) by (intros; by apply list_snapshot_ext).
    rewrite Hl. cbn [rbind list_all]. rewrite (list_snapshot_ext s) by done. rewrite Hx. done.
  - unfold list_phase_receipts in *. cbn [st_receipts st_phases with_snapshot]. by rewrite (list_phases_ext s).
  - rewrite fmap_app, Hn, length_app, Nat.add_1_r, seq_S, fmap_app. cbn. by rewrite Er.
  - cbn. by rewrite Hr.
  - assert (latest (ls ++ [x]) ps [x]) by (left; by rewrite last_snoc).
    destruct (audit_published run_dir s (with_snapshot (length ls) f s) ls ps x ls ps (ls ++ [x]) ps Ho Ho') as (_ & _ & _ & _ & _ & Hres); try done.
    by rewrite <- (assoc_L (++)%list).
Qed.

Lemma list_phases_prefix s l xs :
  list_phases s l = Ok xs → (length xs ≤ length l)%nat ∧ ∀ p, l !! length xs = Some p → st_phases s !! p = None.
Proof.
  revert xs. induction l as [|q l IH]; intros xs; cbn; [by intros [= <-]|].
  destruct (st_phases s !! q) as [f|] eqn:Ef.
  - intros (x & _ & (xs' & Hxs & [= <-])%rbind_Ok)%rbind_Ok. apply IH in Hxs as [Hle Hn]. cbn. split; [lia|done].
  - intros [= <-]. cbn. split; [lia|]. by intros p [= <-].
Qed.
Lemma list_phases_insert s l xs p f x :
  NoDup l → list_phases s l = Ok xs → l !! length xs = Some p → (∀ q, q ∈ drop (S (length xs)) l → st_phases s !! q = None) →
  list_phase p f = Ok x → list_phases (with_phase p f s) l = Ok (xs ++ [x])%list.
Proof.
  revert xs. induction l as [|q l IH]; intros xs Hnd; cbn [list_phases]; [done|].
  apply NoDup_cons in Hnd as [Hq Hnd]. cbn [st_phases with_phase].
  destruct (st_phases s !! q) as [g|] eqn:Eg.
  - intros (y & Hy & (ys & Hys & [= <-])%rbind_Ok)%rbind_Ok Hp Hrest Hx. cbn in Hp, Hrest.
    rewrite lookup_insert_ne by (intros ->; by apply list_elem_of_lookup_2 in Hp). rewrite Eg, Hy. cbn [rbind].
    by rewrite (IH ys).
  - intros [= <-] [= ->] Hrest Hx. rewrite lookup_insert_eq, Hx. cbn [rbind]. cbn in Hrest.
    destruct l as [|r l]; [done|]. cbn [list_phases with_phase st_phases].
    rewrite lookup_insert_ne by (intros ->; apply Hq; left). by rewrite (Hrest r) by left.
Qed.

Lemma phases_only s ps i p :
  list_phases s TRANSACTION_PHASES = Ok ps → length ps = size (st_phases s) →
  TRANSACTION_PHASES !! i = Some p → (length ps ≤ i)%nat → st_phases s !! p = None.
Proof.
  intros Hl Hs Hp Hi. apply eq_None_not_Some. intros Hsome.
  assert (Hnd : NoDup (take (length ps) TRANSACTION_PHASES ++ [p])%list).
  { apply NoDup_app. split; [apply (sublist_NoDup _ _ phases_NoDup), sublist_take|]. split; [|apply NoDup_singleton].
    intros q Hq ->%list_elem_of_singleton. apply list_elem_of_lookup in Hq as [j Hj].
    apply lookup_take_Some in Hj as [Hj Hlt]. pose proof (NoDup_lookup _ _ _ _ phases_NoDup Hp Hj). lia. }
  assert (Hsub : (list_to_set (take (length ps) TRANSACTION_PHASES ++ [p])%list : gset string) ⊆ dom (st_phases s)).
  { intros q. rewrite elem_of_list_to_set, elem_of_app, list_elem_of_singleton, elem_of_dom. intros [Hq| ->]; [|done].
    apply list_elem_of_lookup in Hq as [j Hj]. apply lookup_take_Some in Hj as [Hj Hlt].
    destruct (lookup_lt_is_Some_2 ps j Hlt) as [x Hx]. destruct (list_phases_lookup _ _ _ Hl _ _ Hx) as (q' & f & Hq' & Hf & _).
    assert (q' = q) as -> by congruence. by eexists. }
  apply subseteq_size in Hsub. rewrite size_list_to_set, length_app, length_take, size_dom in Hsub by done.
  destruct (list_phases_prefix _ _ _ Hl) as [Hle _]. cbn [length] in Hsub. lia.
Qed.

Lemma coherent_phase s ls ps p f x :
  coherent s ls ps [] → st_receipts s = true → TRANSACTION_PHASES !! length ps = Some p →
  list_phase p f = Ok x → coherent (with_phase p f s) ls (ps ++ [x]) [x].
Proof.
  intros Hc Hr Hp Hx. pose proof (coherent_ordered _ _ _ _ Hc) as Ho. destruct Hc as [Hs Hps Hn Hd Ha].
  destruct (list_phase_about _ _ _ Hx) as [Er Eb].
  assert (Hd' : st_receipts s = false → st_phases s = ∅) by by rewrite Hr.
  destruct (phases_listed s ps Hd' Hps) as [Hl Hsize].
  assert (Ho' : ordered ls (ps ++ [x])).
  { split; [apply Ho|]. intros i y [Hy|[Hi Hy]]%lookup_app_Some; [by apply (or_phases _ _ Ho)|].
    apply list_lookup_singleton_Some in Hy as [Hi' <-]. assert (i = length ps) as -> by lia. exists p.
    by rewrite phase_index_lookup. }
  split.
  - unfold list_snapshot_receipts in *. cbn [st_receipts st_odd_snapshot st_snapshots with_phase].
    by rewrite (list_all_ext _ (list_snapshot s)) by (intros; by apply list_snapshot_ext).
  - unfold list_phase_receipts in *. cbn [st_receipts with_phase]. rewrite Hr. cbn [negb].
    rewrite (list_phases_insert s _ ps p f x phases_NoDup Hl Hp); [|intros q Hq|done].
    + cbn [rbind st_phases with_phase]. rewrite map_size_insert_None by by eapply phases_only.
      rewrite length_app, Hsize. cbn [length]. by rewrite Nat.add_1_r, Nat.eqb_refl.
    + apply list_elem_of_lookup in Hq as [j Hj]. rewrite lookup_drop in Hj. eapply phases_only; [done..|lia].
  - done.
  - cbn. by rewrite Hr.
  - assert (latest ls (ps ++ [x]) [x]) by (right; by rewrite last_snoc).
    destruct (audit_published run_dir s (with_phase p f s) (ls ++ ps) [] x ls ps ls (ps ++ [x]) Ho Ho') as (_ & _ & _ & _ & _ & Hres); try done.
    + by rewrite app_nil_r.
    + by rewrite (assoc_L (++)%list).
Qed.

(** ** A snapshot *)

Definition v3 (n : nat) (sn : snapshot) : payload := {| pl_version := V3; pl_sequence := n; pl_snapshot := sn |}.
(** How a recorded snapshot is listed *)
Definition listed_of (n : nat) (sn : snapshot) : listed :=
  let id := identity_of (payload_json (v3 n sn)) in
  {| ls_ref := RSnapshot n; ls_size := id.1; ls_sha := id.2; ls_timestamp := sn_timestamp sn;
     ls_about := ASnapshot (summary_of n sn) |}.
Definition listed_phase (v : phase_value) : listed :=
  let id := identity_of (phase_json v) in
  {| ls_ref := RPhase (ph_phase v); ls_size := id.1; ls_sha := id.2; ls_timestamp := ph_timestamp v;
     ls_about := APhase (ph_phase v) |}.

Lemma json_receipt_Ok v id : json_receipt v = Ok id → id = identity_of v ∧ zlen (receipt_text v) ≤ MAX_RECEIPT_BYTES.
Proof.
  unfold json_receipt, terr. rewrite !rbind_unit, !require_Ok, Z.leb_le. intros (_ & Hle & Hid). apply (f_equal (λ r, match r with Ok a => a | Err _ => id end)) in Hid. by split.
Qed.
Lemma read_sealed_Ok {A} (to : A → json) a id : json_receipt (to a) = Ok id → read_sealed to (sealed_file a) = Ok (a, identity_of (to a)).
Proof.
  intros [-> Hle]%json_receipt_Ok. unfold read_sealed. cbn [rf_value sealed_file rf_sealed].
  rewrite (proj2 (Z.leb_le _ _) Hle). done.
Qed.
Lemma capture_agrees_msg s sn c m m' : capture_agrees s sn c m = Ok tt → capture_agrees s sn c m' = Ok tt.
Proof.
  unfold capture_agrees. destruct (st_captures s !! c.1.1) as [[k|]|]; [|done..]. unfold terr. by rewrite !require_Ok.
Qed.
Lemma evidence_bound_msg sn m m' : evidence_bound sn m = Ok tt → evidence_bound sn m' = Ok tt.
Proof.
  unfold evidence_bound. destruct (sn_evidence sn) as [e|]; [|done]. destruct (validate_enumeration_evidence e) as [[]|x].
  - unfold terr. by rewrite !require_Ok.
  - by destruct x.
Qed.

Lemma list_persisted s n sn id :
  validate_snapshot sn = Ok tt →
  match sn_capture sn with Some c => capture_agrees s sn c "snapshot raw capture differs from parsed output" | None => Ok tt end = Ok tt →
  json_receipt (payload_json (v3 n sn)) = Ok id → list_snapshot s n (sealed_file (v3 n sn)) = Ok (listed_of n sn).
Proof.
  unfold validate_snapshot, terr. rewrite !rbind_unit, !require_Ok, !andb_true_iff, bool_decide_eq_true.
  intros (Hp & [_ Hi] & _ & He & [[Hr _] _]) Hc Hj. unfold list_snapshot. rewrite (read_sealed_Ok _ _ id Hj).
  cbn [rbind v3 pl_snapshot pl_sequence pl_version]. unfold terr. rewrite Nat.eqb_refl, Hp. cbn [Prelude.require rbind].
  rewrite bool_decide_true by done. rewrite bool_decide_false, bool_decide_true by done. cbn [negb orb Prelude.require rbind].
  rewrite (evidence_bound_msg _ _ _ He). rewrite Hr.
  destruct (sn_capture sn) as [c|]; [rewrite (capture_agrees_msg _ _ _ _ _ Hc)|]; done.
Qed.

Lemma append_capacity_ext s s' n : same_index s s' → append_capacity s' n = append_capacity s n.
Proof.
  intros (Eb & Er & Eo). unfold OdinStore.append_capacity, index_segments. by rewrite Eb, Er, Eo.
Qed.
Lemma published_index publish s s' :
  (∀ s1, same_index s1 (publish s1)) → published publish s s' → same_index s s'.
Proof.
  intros Hp (s1 & (_ & _ & _ & _ & H1 & _) & _ & (_ & _ & _ & _ & H2 & _)).
  eapply same_index_trans; [exact H1|]. by eapply same_index_trans.
Qed.

(** What a published receipt [x] and the append of its record leave *)
Definition extended (ls ps ls' ps' : list listed) (x : listed) (out : result irecord * store) : Prop :=
  match out.1 with
  | Ok r => r = record_of false x ∧ coherent out.2 ls' ps' []
  | Err PowerLoss => coherent out.2 ls ps [] ∨ coherent out.2 ls' ps' [x] ∨ coherent out.2 ls' ps' []
  | Err _ => coherent out.2 ls ps []
  end.

(** Publication under a capacity that was checked before *)
Lemma publish_spec s ls ps ls' ps' x name present publish v id msg :
  coherent s ls ps [] → json_receipt v = Ok id →
  append_capacity s (zlen (record_text (record_of false x))) = Ok tt →
  (∀ s1 s2, framed s1 s2 → framed (publish s1) (publish s2)) → (∀ s1, same_index s1 (publish s1)) →
  (∀ s1, framed s s1 → st_receipts s1 = true → coherent (publish s1) ls' ps' [x]) →
  extended ls ps ls' ps' x
    ((id' ← create_sealed pid name present publish v;
      _ ← olift (terr (bool_decide (id' = id)) msg);
      _ ← append_record (record_of false x);
      mret (record_of false x)) s).
Proof.
  intros Hc Hj Hcap Hfr Hix Hpub. pose proof (create_sealed_spec name present publish v s Hfr) as Hsp.
  assert (Hp : ∀ s', published publish s s' → coherent s' ls' ps' [x]).
  { intros s' (s1 & F1 & R1 & F2). eapply coherent_framed; [exact F2|]. by apply Hpub. }
  unfold extended, mbind, Tx_bind, olift. destruct (create_sealed _ _ _ _ _ s) as [[id'|e] s1]; cbn in Hsp.
  2: { destruct e; try (by eapply coherent_framed). destruct Hsp as [?|?]; [left; by eapply coherent_framed|right; left; by apply Hp]. }
  destruct Hsp as [Hj' Hs1]. assert (id' = id) as -> by congruence. rewrite bool_decide_true by done. cbn [terr Prelude.require].
  pose proof (Hp s1 Hs1) as Hc1. pose proof (append_latest s1 ls' ps' x false Hc1) as [_ Hout].
  assert (Hfin : finishes s1 (append_record (record_of false x) s1)).
  { pose proof (co_audit _ _ _ _ Hc1) as Ha. apply audit_index_iff in Ha as (records & a & Hi & _); [|by eapply coherent_ordered].
    eapply append_total; [exact Hi|]. rewrite (append_capacity_ext s); [done|by eapply published_index]. }
  destruct (append_record _ s1) as [[[]|e] s2]; cbn in *; [by split|].
  destruct Hfin as [?|[[= ->] _]]; [done|]. by right.
Qed.

(** A snapshot is recorded under the next number, or the receipts are the same. *)
Definition outcome (ls ps ls' ps' : list listed) (x : listed) (out : result irecord * store) : Prop :=
  match out.1 with
  | Ok r => r = record_of false x ∧ coherent out.2 ls' ps' []
  | Err PowerLoss => ∃ os, coherent out.2 ls ps os ∨ coherent out.2 ls' ps' os
  | Err _ => ∃ os, coherent out.2 ls ps os
  end.
Lemma extended_outcome ls ps ls' ps' x out : extended ls ps ls' ps' x out → outcome ls ps ls' ps' x out.
Proof.
  unfold extended, outcome. destruct out as [[r|e] s]; [done|]. destruct e; try by exists [].
  intros [?|[?|?]]; cbn in *; [exists []; by left|exists [x]; by right|exists []; by right].
Qed.
Lemma outcome_failed ls ps ls' ps' x s os e :
  coherent s ls ps os → outcome ls ps ls' ps' x (Err e, s).
Proof. intros Hc. unfold outcome. destruct e; cbn; exists os; first [done|by left]. Qed.
Lemma outcome_settled ls ps ls' ps' x s s1 os e :
  coherent s ls ps os → settled ls ps os s (Err e, s1) → outcome ls ps ls' ps' x (Err e, s1).
Proof.
  intros Hc [_ Hs]. unfold outcome. cbn in *. destruct e; try (exists os; by subst).
  destruct Hs as [?|?]; [exists os; by left|exists []; by left].
Qed.
Lemma persist_spec s ls ps os n sn :
  coherent s ls ps os →
  outcome ls ps (ls ++ [listed_of n sn]) ps (listed_of n sn) (persist_snapshot run_dir pid n sn s).
Proof.
  intros Hc. unfold persist_snapshot, persist_unlocked. rewrite tx_olift.
  destruct (validate_snapshot sn) as [[]|e] eqn:Ev; [|by eapply outcome_failed].
  pose proof (reconcile_spec s ls ps os Hc) as Hrec. rewrite tx_bind.
  destruct (reconcile s) as [[[]|e] s1]; [|by eapply outcome_settled].
  destruct Hrec as [_ Hc1]. cbn in Hc1. clear Hc. rewrite tx_oread, (co_snapshots _ _ _ _ Hc1), tx_olift.
  destruct (Nat.ltb_spec (length ls) MAX_SNAPSHOT_RECEIPTS) as [Hlt|]; [|by eapply outcome_failed].
  cbn [terr Prelude.require]. rewrite tx_olift.
  destruct (Nat.eqb_spec n (length ls)) as [->|]; [|by eapply outcome_failed]. cbn [terr Prelude.require].
  rewrite tx_oget, tx_olift.
  destruct (match sn_capture sn with Some c => _ | None => _ end) as [[]|e] eqn:Ecap; [|by eapply outcome_failed].
  cbv zeta. fold (v3 (length ls) sn). rewrite tx_olift.
  destruct (json_receipt (payload_json (v3 (length ls) sn))) as [id|e] eqn:Ej; [|by eapply outcome_failed].
  pose proof (json_receipt_Ok _ _ Ej) as [Eid _].
  match goal with |- context [jsonl_record run_dir ?r] => replace r with (record_of false (listed_of (length ls) sn)) by (by rewrite Eid) end.
  rewrite tx_olift. destruct (jsonl_record run_dir _) as [t|e] eqn:Et; [|by eapply outcome_failed].
  assert (t = record_text (record_of false (listed_of (length ls) sn))) as ->.
  { unfold jsonl_record, terr in Et. apply rbind_unit in Et as [_ Et]. by injection Et. }
  rewrite tx_oread. destruct (append_capacity s1 _) as [[]|e] eqn:Ecp; [|by eapply outcome_failed].
  apply extended_outcome. eapply publish_spec; [done..|apply snapshot_framed|done|].
  intros s2 F2 R2. pose proof (coherent_framed _ _ _ _ _ F2 Hc1) as Hc2. apply coherent_snapshot; [done..|].
  eapply list_persisted; [done| |done]. destruct (sn_capture sn) as [c|]; [|done].
  unfold capture_agrees in *. destruct F2 as (_ & _ & _ & -> & _). done.
Qed.

(** ** A phase *)

Lemma phase_spec s ls ps os now phase value :
  coherent s ls ps os →
  let v := {| ph_phase := phase; ph_timestamp := now; ph_payload := value |} in
  (∃ kv, value = JObj kv) →
  outcome ls ps ls (ps ++ [listed_phase v]) (listed_phase v) (create_phase_receipt run_dir pid now phase value s).
Proof.
  intros Hc v [kv Hkv]. unfold create_phase_receipt. rewrite tx_olift.
  destruct (receipt_name phase); [cbn [terr Prelude.require]; rewrite tx_olift|by eapply outcome_failed].
  destruct (phase_index phase) as [i|] eqn:Ei; [cbn [terr Prelude.require]|by eapply outcome_failed].
  rewrite tx_oread, (co_phases _ _ _ _ Hc), tx_bind. pose proof (reconcile_spec s ls ps os Hc) as Hrec.
  destruct (reconcile s) as [[[]|e] s1]; [|by eapply outcome_settled].
  destruct Hrec as [_ Hc1]. cbn in Hc1. rewrite tx_olift.
  destruct (bool_decide_reflect (TRANSACTION_PHASES !! length ps = Some phase)) as [Hp|]; [|by eapply outcome_failed].
  cbn [terr Prelude.require]. cbv zeta. fold v. rewrite tx_olift.
  destruct (json_receipt (phase_json v)) as [id|e] eqn:Ej; [|by eapply outcome_failed].
  pose proof (json_receipt_Ok _ _ Ej) as [Eid _].
  match goal with |- context [jsonl_record run_dir ?r] => replace r with (record_of false (listed_phase v)) by (by rewrite Eid) end.
  rewrite tx_olift. destruct (jsonl_record run_dir _) as [t|e] eqn:Et; [|by eapply outcome_failed].
  assert (t = record_text (record_of false (listed_phase v))) as ->.
  { unfold jsonl_record, terr in Et. apply rbind_unit in Et as [_ Et]. by injection Et. }
  rewrite tx_oread. destruct (append_capacity s1 _) as [[]|e] eqn:Ecp; [|by eapply outcome_failed].
  apply extended_outcome. eapply publish_spec; [done..|apply phase_framed|done|].
  intros s2 F2 R2. pose proof (coherent_framed _ _ _ _ _ F2 Hc1) as Hc2. apply coherent_phase; [done..|].
  unfold list_phase. rewrite (read_sealed_Ok _ _ id Ej). cbn [rbind v ph_phase ph_payload]. rewrite Ei, String.eqb_refl, Hkv. done.
Qed.

(** A power loss is the only way an operation leaves something half done, and
    reconciliation finishes it. *)
Lemma recovered_after s ls ps os :
  coherent s ls ps os →
  (∀ o, o ∈ os → append_capacity s (zlen (record_text (record_of true o))) = Ok tt) →
  ∃ s', reconcile (with_cut None s) = (Ok tt, s') ∧ coherent s' ls ps [].
Proof.
  intros Hc Hcap. assert (Hc' : coherent (with_cut None s) ls ps os).
  { eapply coherent_ext; [apply cut_receipts|apply cut_index|done]. }
  pose proof (reconcile_finishes _ ls ps os Hc' eq_refl) as Hf. pose proof (reconcile_spec _ ls ps os Hc') as [_ Hs].
  destruct (reconcile (with_cut None s)) as [r s']. cbn in *. rewrite Hf in Hs.
  - by exists s'; rewrite Hf.
  - intros o Ho. rewrite (append_capacity_ext s); [by apply Hcap|apply cut_index].
Qed.
End Crash.
