(* ===== verification/OdinEndpoint.v ===== *)
(** * Odin endpoints: generations, tickets and waits

    The rest of [s22plus_odin_transition_core.py], over the store and the enumeration: a
    snapshot that is recorded and then looked at again, the wait for one live endpoint,
    the wait for none, and the revalidation of a ticket before a transfer.  Every
    enumeration runs the tool under the raw-first runner and uses a measured observer.
    The environment gives the inventories of the USB nodes, the runs of the tool and the
    values of the clock, in milliseconds; where it gives no more, the process was
    interrupted. *)

From stdpp Require Import base list strings gmap.
From Stdlib Require Import ZArith Lia Ascii.
From S2P Require Import Prelude PyStr Dir Json Digest Bytes Console OdinUsb OdinStore.
Open Scope string_scope.
Open Scope Z_scope.

Definition DEFAULT_ENUM_TIMEOUT : Z := 10000.
Definition MINIMUM_ENUM_TIMEOUT : Z := 100.

(** ** Generations *)

(** [EndpointGenerationTracker] *)
Record tracker := { tk_live : list (string * string); tk_generation : Z }.
Definition new_tracker : tracker := {| tk_live := []; tk_generation := 0 |}.
(** [observe] *)
Definition observe (t : tracker) (live : list (string * string)) : result (option Z * tracker) :=
  do* terr (length live <=? 1)%nat "ambiguous live Odin endpoints" in
  let t' := if bool_decide (live = tk_live t) then t
            else {| tk_live := live; tk_generation := if bool_decide (live = []) then tk_generation t else tk_generation t + 1 |} in
  Ok (if bool_decide (live = []) then None else Some (tk_generation t'), t').

(** [EndpointTicket], [WaitResult], [AbsenceResult] and what a revalidation returns *)
Record ticket := {
  ti_device : string; ti_identity : string; ti_generation : Z; ti_sequence : Z; ti_receipt : string; ti_sha : string
}.
Record wait_result := { wr_ticket : option ticket; wr_next : nat; wr_timed_out : bool }.
Record absence_result := { ab_absent : bool; ab_next : nat; ab_timed_out : bool }.
Record revalidated := {
  rv_device : string; rv_identity : string; rv_generation : Z; rv_original : Z; rv_sequence : nat; rv_receipt : string;
  rv_sha : string
}.

Definition identities_of (x : listed) : list (string * string) :=
  match ls_about x with ASnapshot m => sm_identities m | APhase _ => [] end.
Definition live_of (x : listed) : list string := match ls_about x with ASnapshot m => sm_live m | APhase _ => [] end.

(** The generations of a list of receipts *)
Definition observe_all (t : tracker) (l : list listed) : result tracker :=
  foldM (λ t x, let* r := observe t (identities_of x) in Ok r.2) t l.

(** ** The environment *)

(** A run of the tool under [acquire_command]: it failed, and perhaps left output
    without a receipt, or it has a receipt of the given size and digest *)
Inductive tool_run :=
  | ToolFailed (partial : bool)
  | ToolRan (size : Z) (sha : string) (complete : bool) (returncode : Z) (stdout stderr : string).

Record world := {
  w_store : store; w_reads : list (result inventory); w_runs : list tool_run; w_clock : list (option Z)
}.
Definition W (A : Type) : Type := world → result A * world.
#[export] Instance W_ret : MRet W := λ A a w, (Ok a, w).
#[export] Instance W_bind : MBind W := λ A B k m w,
  match m w with
  | (Ok a, w') => k a w'
  | (Err e, w') => (Err e, w')
  end.
Definition wlift {A} (r : result A) : W A := λ w, (r, w).
Definition interrupted {A} : result A := Err (PyRuntimeError "KeyboardInterrupt").
Definition with_store (s : store) (w : world) : world :=
  {| w_store := s; w_reads := w_reads w; w_runs := w_runs w; w_clock := w_clock w |}.
Definition with_reads (r : list (result inventory)) (w : world) : world :=
  {| w_store := w_store w; w_reads := r; w_runs := w_runs w; w_clock := w_clock w |}.
Definition on_store {A} (m : Tx A) : W A := λ w, let '(r, s) := m (w_store w) in (r, with_store s w).
(** An operation of an observer that holds [kept] *)
Definition on_usb {A} (kept : option inventory * option inventory) (m : U A)
    : W (A * (option inventory * option inventory)) := λ w,
  let '(r, o) := m {| ob_reads := w_reads w; ob_baseline := kept.1; ob_after := kept.2 |} in
  (let* a := r in Ok (a, (ob_baseline o, ob_after o)), with_reads (ob_reads o) w).

(** [_monotonic_now]; [None] is a value that is not finite. *)
Definition now : W Z := λ w,
  match w_clock w with
  | [] => (interrupted, w)
  | v :: vs =>
      (match v with Some t => Ok t | None => Err (OdinTransitionError "monotonic clock returned a non-finite value") end,
       {| w_store := w_store w; w_reads := w_reads w; w_runs := w_runs w; w_clock := vs |})
  end.

Definition werror {A} (f : pyexc → pyexc) (m : W A) : W A := λ w,
  match m w with (Err e, w') => (Err (f e), w') | r => r end.

Section Endpoint.
Context `{Digest}.
Variables (run_dir pid : string) (utc_now : nat → string).

(** ** The raw-first runner *)

Definition capture_path (sequence attempt : nat) : string :=
  run_dir ++ "/raw-odin-enumeration/sequence-" ++ fmt_0d 6 sequence ++ "-attempt-" ++ fmt_0d 4 attempt ++ ".capture.json".
(** [_next_enumeration_capture_name]: the first attempt without a file, of ten thousand *)
Fixpoint next_attempt (s : store) (sequence attempt left : nat) : result string :=
  match left with
  | O => Err (OdinTransitionError "Odin raw-capture attempt capacity is exhausted")
  | S k =>
      let path := capture_path sequence attempt in
      if bool_decide (is_Some (st_captures s !! path)) then next_attempt s sequence (S attempt) k else Ok path
  end.
Definition with_capture (path : string) (c : option capture) (s : store) : store :=
  {| st_receipts := st_receipts s; st_snapshots := st_snapshots s; st_phases := st_phases s;
     st_odd_snapshot := st_odd_snapshot s; st_temporaries := st_temporaries s; st_base := st_base s;
     st_resumes := st_resumes s; st_odd_index := st_odd_index s; st_captures := <[path := c]> (st_captures s);
     st_cut := st_cut s |}.
Definition capture_of (path : string) (r : tool_run) : option capture :=
  match r with
  | ToolFailed _ => None
  | ToolRan size sha complete returncode stdout stderr =>
      Some {| cp_path := path; cp_size := size; cp_sha := sha; cp_complete := complete; cp_returncode := returncode;
              cp_stdout := stdout; cp_stderr := stderr |}
  end.
(** [_raw_first_runner] *)
Definition acquire (sequence : nat) : W run := λ w,
  match next_attempt (w_store w) sequence 0 (Z.to_nat 10000) with
  | Err e => (Err e, w)
  | Ok path =>
      match w_runs w with
      | [] => (interrupted, w)
      | r :: rs =>
          let c := capture_of path r in
          let s := match r with ToolFailed false => w_store w | _ => with_capture path c (w_store w) end in
          (Ok (match c with Some c => Ran c | None => NotRun end),
           {| w_store := s; w_reads := w_reads w; w_runs := rs; w_clock := w_clock w |})
      end
  end.

(** ** One recorded snapshot *)

Definition with_raw_capture (c : option (string * Z * string)) (s : snapshot) : snapshot :=
  {| sn_timestamp := sn_timestamp s; sn_returncode := sn_returncode s; sn_raw := sn_raw s; sn_live := sn_live s;
     sn_stale := sn_stale s; sn_identities := sn_identities s; sn_stdout := sn_stdout s; sn_stderr := sn_stderr s;
     sn_evidence := sn_evidence s; sn_capture := c |}.

(** The second look, after the receipt: tickets and absence are looked at again, and an
    empty snapshot of a wait for arrival is not. *)
Definition revalidate_recorded (po : policy) (sn : snapshot) (e : evidence) : W unit :=
  let look m := (_ ← on_usb (None, None) m; mret tt) in
  if negb (bool_decide (sn_live sn = [])) && po_departure po then look (revalidate_or_departure e)
  else if negb (bool_decide (sn_live sn = [])) || negb (po_arrival po) then look (revalidate e)
  else mret tt.

(** [_snapshot_and_record] *)
Definition snapshot_and_record (sequence : nat) (po : policy) (timeout : Z) : W (snapshot * irecord) :=
  _ ← wlift (terr (negb (po_arrival po && po_departure po)) "snapshot transition policy is ambiguous");
  b ← on_usb (None, None) (enumerate_before po timeout);
  r ← acquire sequence;
  a ← on_usb b.2 (enumerate_after po (utc_now sequence) b.1 r);
  let sn := with_raw_capture (match r with Ran c => Some (captured c) | NotRun => None end) a.1 in
  record ← on_store (persist_snapshot run_dir pid sequence sn);
  _ ← werror (λ e, if usbfs_error e || os_error e
                   then OdinTransitionError "measured USB endpoint changed while recording snapshot" else e)
        (e ← wlift (match sn_evidence sn with
                    | Some e => Ok e
                    | None => Err (OdinTransitionError "measured USB endpoint evidence is absent after receipt")
                    end);
         revalidate_recorded po sn e);
  mret (sn, record).

(** ** The state a run resumes *)

(** [_resume_tracker]; the lease it requires is a lock of the process. *)
Definition resume_tracker (sequence : nat) : Tx (tracker * list listed) :=
  _ ← reconcile run_dir;
  receipts ← oread list_snapshot_receipts;
  phases ← oread list_phase_receipts;
  orphans ← oread (λ s, audit_index run_dir s receipts phases);
  _ ← olift (terr (bool_decide (orphans = [])) "transaction index still has an unindexed receipt");
  _ ← olift (terr (bool_decide (omap sequence_of receipts = seq 0 (length receipts)))
               "snapshot receipts are not contiguous from zero");
  _ ← olift (terr (sequence =? length receipts)%nat "snapshot sequence resume mismatch");
  t ← olift (observe_all new_tracker receipts);
  mret (t, receipts).

(** [_validate_ticket_against_receipts] *)
Definition validate_ticket (t : ticket) (receipts : list listed) : result unit :=
  do* terr ((0 <? ti_generation t) && (0 <=? ti_sequence t) && (ti_sequence t <? Z.of_nat (length receipts)))
        "Odin endpoint ticket metadata is invalid" in
  let n := Z.to_nat (ti_sequence t) in
  let expected := receipt_path run_dir (RSnapshot n) in
  match receipts !! n with
  | None => Err (PyKeyError "receipts")
  | Some original =>
      do* terr ((ti_receipt t =? expected)%string && (receipt_path run_dir (ls_ref original) =? expected)%string
                && (ti_sha t =? ls_sha original)%string
                && bool_decide (identities_of original = [(ti_device t, ti_identity t)]))
            "Odin endpoint ticket receipt binding is invalid" in
      let* before := observe_all new_tracker (take n receipts) in
      let* last := observe before (identities_of original) in
      terr (bool_decide (last.1 = Some (ti_generation t))) "Odin endpoint ticket generation is invalid"
  end.

(** ** The wait for one live endpoint *)

Definition arrival_policy : policy :=
  {| po_departure := false; po_arrival := true; po_expected := None; po_expected_identity := None |}.
Definition timed_out (sequence : nat) : wait_result := {| wr_ticket := None; wr_next := sequence; wr_timed_out := true |}.
(** One pass of the loop: the result, or the state of the next pass *)
Definition wait_step (deadline : Z) (tr : tracker) (sequence : nat) : W (wait_result + tracker * nat) :=
  t1 ← now;
  if deadline - t1 <? MINIMUM_ENUM_TIMEOUT then mret (inl (timed_out sequence))
  else λ w,
    match snapshot_and_record sequence arrival_policy (Z.min DEFAULT_ENUM_TIMEOUT (deadline - t1)) w with
    | (Err (OdinEndpointArrivalRace _), w') =>
        (t2 ← now; mret (if deadline - t2 <=? 0 then inl (timed_out sequence) else inr (tr, sequence))) w'
    | (Err e, w') => (Err e, w')
    | (Ok (sn, record), w') =>
        (o ← wlift (observe tr (sn_identities sn));
         t2 ← now;
         if deadline <=? t2 then mret (inl (timed_out (S sequence)))
         else
           match o.1, sn_identities sn, sn_live sn with
           | Some g, (_, identity) :: _, device :: _ =>
               mret (inl {| wr_ticket := Some {| ti_device := device; ti_identity := identity; ti_generation := g;
                                                 ti_sequence := Z.of_nat sequence;
                                                 ti_receipt := receipt_path run_dir (ir_receipt record);
                                                 ti_sha := ir_sha record |};
                            wr_next := S sequence; wr_timed_out := false |})
           | Some _, _, _ => wlift (Err (PyKeyError "tuple index out of range"))
           | None, _, _ =>
               t3 ← now; mret (if deadline - t3 <=? 0 then inl (timed_out (S sequence)) else inr (o.2, S sequence))
           end) w'
    end.
Fixpoint wait_loop (fuel : nat) (deadline : Z) (tr : tracker) (sequence : nat) : W wait_result :=
  match fuel with
  | O => wlift interrupted
  | S k =>
      r ← wait_step deadline tr sequence;
      match r with
      | inl done => mret done
      | inr (tr', sequence') => wait_loop k deadline tr' sequence'
      end
  end.
(** Every pass reads the clock. *)
Definition clock_left : W nat := λ w, (Ok (S (length (w_clock w))), w).

(** [wait_for_single_live_endpoint]; a sleep is part of the environment. *)
Definition wait_for_single_live_endpoint (timeout poll : Z) (sequence : nat) : W wait_result :=
  _ ← wlift (terr ((0 <? timeout) && (0 <=? poll)) "endpoint timeout must be positive and poll non-negative");
  t0 ← now;
  s ← on_store (resume_tracker sequence);
  fuel ← clock_left;
  wait_loop fuel (t0 + timeout) s.1 sequence.

(** ** The wait for no live endpoint *)

Definition departure_policy (allow : bool) (expected identity : option string) : policy :=
  {| po_departure := allow; po_arrival := false; po_expected := expected; po_expected_identity := identity |}.
Definition absence (absent : bool) (sequence : nat) (late : bool) : absence_result :=
  {| ab_absent := absent; ab_next := sequence; ab_timed_out := late |}.
Fixpoint absent_loop (fuel : nat) (deadline : Z) (allow : bool) (expected identity : option string) (sequence : nat)
    : W absence_result :=
  match fuel with
  | O => wlift interrupted
  | S k =>
      t1 ← now;
      if deadline - t1 <=? 0 then mret (absence false sequence true)
      else
        r ← snapshot_and_record sequence (departure_policy allow expected identity)
              (Z.min DEFAULT_ENUM_TIMEOUT (deadline - t1));
        _ ← wlift (terr (length (sn_live r.1) <=? 1)%nat "ambiguous live Odin endpoints");
        t2 ← now;
        if deadline <=? t2 then mret (absence false (S sequence) true)
        else
          match sn_live r.1 with
          | [] => mret (absence true (S sequence) false)
          | device :: _ =>
              t3 ← now;
              if deadline - t3 <=? 0 then mret (absence false (S sequence) true)
              else absent_loop k deadline allow (Some device) None (S sequence)
          end
  end.

(** What a child observation expects to leave first *)
Definition expected_departure (allow : bool) (initial : option (string * string)) (sequence : nat) (receipts : list listed)
    : result (option string * option string) :=
  let* e := match initial with
            | None => Ok (None, None)
            | Some (device, identity) =>
                do* terr (allow && (sequence =? 0)%nat && bool_decide (receipts = []) && negb (device =? "")%string
                          && negb (identity =? "")%string && device_re device)
                      "initial departure requires a fresh measured child observation" in
                Ok (Some device, Some identity)
            end in
  match allow, last receipts with
  | true, Some x => match live_of x with [device] => Ok (Some device, e.2) | _ => Ok e end
  | _, _ => Ok e
  end.

(** [wait_for_no_live_endpoint] *)
Definition wait_for_no_live_endpoint (timeout poll : Z) (allow : bool) (initial : option (string * string)) (sequence : nat)
    : W absence_result :=
  _ ← wlift (terr ((0 <? timeout) && (0 <=? poll)) "disconnect timeout must be positive and poll non-negative");
  t0 ← now;
  s ← on_store (resume_tracker sequence);
  e ← wlift (expected_departure allow initial sequence s.2);
  fuel ← clock_left;
  absent_loop fuel (t0 + timeout) allow e.1 e.2 sequence.

(** ** Before a transfer *)

Definition strict_policy : policy :=
  {| po_departure := false; po_arrival := false; po_expected := None; po_expected_identity := None |}.
(** [revalidate_endpoint_ticket] *)
Definition revalidate_endpoint_ticket (t : ticket) (sequence : nat) (timeout : Z) : W revalidated :=
  _ ← wlift (terr (0 <? timeout) "revalidation timeout must be positive");
  t0 ← now;
  s ← on_store (resume_tracker sequence);
  _ ← wlift (validate_ticket t s.2);
  t1 ← now;
  let remaining := t0 + timeout - t1 in
  _ ← wlift (terr (0 <? remaining) "Odin endpoint revalidation deadline expired");
  r ← snapshot_and_record sequence strict_policy (Z.min DEFAULT_ENUM_TIMEOUT remaining);
  o ← wlift (observe s.1 (sn_identities r.1));
  t2 ← now;
  _ ← wlift (terr ((t2 <? t0 + timeout) && bool_decide (sn_live r.1 = [ti_device t])
                   && bool_decide (snd <$> sn_identities r.1 = [ti_identity t])
                   && bool_decide (o.1 = Some (ti_generation t)))
               "Odin endpoint generation changed before transfer");
  mret {| rv_device := ti_device t; rv_identity := ti_identity t; rv_generation := ti_generation t;
          rv_original := ti_sequence t; rv_sequence := sequence;
          rv_receipt := receipt_path run_dir (ir_receipt r.2); rv_sha := ir_sha r.2 |}.
End Endpoint.
