(* ===== verification/OdinTickets.v ===== *)
(** * What an endpoint ticket proves

    Generations count the times an endpoint came, so that a ticket whose generation is
    observed again was never interrupted; the waits and the revalidation keep the run
    directory coherent and report only what its receipts show. *)

From stdpp Require Import base list strings gmap.
From Stdlib Require Import ZArith Lia Ascii.
From S2P Require Import Prelude PyStr Dir Json Digest Bytes Console OdinUsb OdinStore OdinStoreTheory OdinCrash OdinEndpoint.
Open Scope string_scope.
Open Scope Z_scope.

(** ** Generations *)

Lemma observe_Ok t live o t' :
  observe t live = Ok (o, t') →
  (length live ≤ 1)%nat ∧ tk_live t' = live ∧ o = (if bool_decide (live = []) then None else Some (tk_generation t'))
  ∧ tk_generation t' = (if bool_decide (live = tk_live t) then tk_generation t
                        else if bool_decide (live = []) then tk_generation t else tk_generation t + 1).
Proof.
  unfold observe. intros [Hle%require_Ok%Nat.leb_le [= <- <-]]%rbind_unit. split; [done|].
  destruct (bool_decide_reflect (live = tk_live t)) as [->|]; done.
Qed.
Lemma observe_mono t live o t' : observe t live = Ok (o, t') → tk_generation t ≤ tk_generation t'.
Proof. intros (_ & _ & _ & ->)%observe_Ok. repeat case_bool_decide; lia. Qed.

Lemma observe_all_cons t x l t' :
  observe_all t (x :: l) = Ok t' ↔ ∃ o t1, observe t (identities_of x) = Ok (o, t1) ∧ observe_all t1 l = Ok t'.
Proof.
  unfold observe_all. cbn [foldM]. split.
  - intros (t1 & ([o t2] & Ho & [= <-])%rbind_Ok & Hl)%rbind_Ok. by exists o, t2.
  - intros (o & t1 & -> & Hl). done.
Qed.
Lemma observe_all_app t l1 l2 t' :
  observe_all t (l1 ++ l2)%list = Ok t' ↔ ∃ t1, observe_all t l1 = Ok t1 ∧ observe_all t1 l2 = Ok t'.
Proof. unfold observe_all. by rewrite foldM_app, rbind_Ok. Qed.
Lemma observe_all_mono t l t' : observe_all t l = Ok t' → tk_generation t ≤ tk_generation t'.
Proof.
  revert t. induction l as [|x l IH]; intros t; [by intros [= <-]|].
  intros (o & t1 & Ho%observe_mono & Hl%IH)%observe_all_cons. lia.
Qed.

(** An endpoint that is not live comes under a later generation. *)
Lemma observe_again t l e t1 o t2 :
  tk_live t ≠ [e] → observe_all t l = Ok t1 → observe t1 [e] = Ok (o, t2) → tk_generation t < tk_generation t2.
Proof.
  revert t. induction l as [|x l IH]; intros t Hne.
  - intros [= <-] (_ & _ & _ & ->)%observe_Ok. rewrite bool_decide_false by done. rewrite bool_decide_false by done. lia.
  - intros (o' & t' & Hx & Hl)%observe_all_cons Ho. pose proof (observe_mono _ _ _ _ Hx) as Hm.
    destruct (decide (tk_live t' = [e])) as [He|He]; [|pose proof (IH t' He Hl Ho); lia].
    pose proof (observe_all_mono _ _ _ Hl). pose proof (observe_mono _ _ _ _ Ho).
    apply observe_Ok in Hx as (_ & Hlive & _ & Hg). rewrite He in Hlive. rewrite <- Hlive in Hg.
    rewrite bool_decide_false in Hg by done. rewrite bool_decide_false in Hg by done. lia.
Qed.
(** A generation that is observed again was never interrupted. *)
Lemma observe_unbroken t l e t1 o t2 :
  tk_live t = [e] → observe_all t l = Ok t1 → observe t1 [e] = Ok (o, t2) → tk_generation t2 = tk_generation t →
  Forall (λ x, identities_of x = [e]) l.
Proof.
  revert t. induction l as [|x l IH]; intros t Ht; [constructor|].
  intros (o' & t' & Hx & Hl)%observe_all_cons Ho Hg. pose proof (observe_mono _ _ _ _ Hx) as Hm.
  pose proof (observe_all_mono _ _ _ Hl). pose proof (observe_mono _ _ _ _ Ho).
  apply observe_Ok in Hx as (_ & Hlive & _ & Hgx).
  destruct (decide (tk_live t' = [e])) as [He|He]; [|pose proof (observe_again _ _ _ _ _ _ He Hl Ho); lia].
  constructor; [congruence|]. apply (IH t'); [done..|]. lia.
Qed.

Section Tickets.
Context `{Digest}.
Variables (run_dir pid : string) (utc_now : nat → string).
Notation coherent := (coherent run_dir).
Notation snapshot_and_record := (snapshot_and_record run_dir pid utc_now).
Notation resume_tracker := (resume_tracker run_dir).

(** ** Captures *)

Lemma next_attempt_fresh s sequence n k path :
  next_attempt run_dir s sequence n k = Ok path → st_captures s !! path = None.
Proof.
  revert n. induction k as [|k IH]; intros n; cbn; [done|]. case_bool_decide as Hs; [apply IH|]. intros [= <-].
  by apply eq_None_not_Some.
Qed.
Lemma list_snapshot_capture s path c n f x :
  st_captures s !! path = None → list_snapshot s n f = Ok x → list_snapshot (with_capture path c s) n f = Ok x.
Proof.
  intros Hf. unfold list_snapshot. intros ([p id] & -> & Hx)%rbind_Ok. cbn [rbind]. revert Hx.
  assert (Hca : ∀ d m, capture_agrees s (pl_snapshot p) d m = Ok tt → capture_agrees (with_capture path c s) (pl_snapshot p) d m = Ok tt).
  { intros d m. unfold capture_agrees. cbn [st_captures with_capture]. destruct (decide (path = d.1.1)) as [<-|Hne].
    - by rewrite Hf.
    - by rewrite lookup_insert_ne. }
  unfold terr. rewrite !rbind_unit. intros (? & ? & ? & ? & ? & Hcap & ? & ? & ?). split_and!; try done.
  destruct (sn_capture (pl_snapshot p)); [by apply Hca|done].
Qed.
Lemma list_all_mono {A} (f g : nat → A → result listed) l xs :
  (∀ n a x, f n a = Ok x → g n a = Ok x) → list_all f l = Ok xs → list_all g l = Ok xs.
Proof.
  intros Hfg. revert xs. induction l as [|[n a] l IH]; intros xs; cbn; [done|].
  intros (x & Hx & (xs' & Hxs & <-)%rbind_Ok)%rbind_Ok. by rewrite (Hfg _ _ _ Hx), (IH _ Hxs).
Qed.
Lemma coherent_capture s ls ps os path c :
  st_captures s !! path = None → coherent s ls ps os → coherent (with_capture path c s) ls ps os.
Proof.
  intros Hf Hc. pose proof (coherent_ordered _ _ _ _ _ Hc) as Ho. destruct Hc as [Hs Hp Hn Hd Ha].
  split; [| |done|done|by eapply audit_ext].
  - unfold list_snapshot_receipts in *. cbn [st_receipts st_odd_snapshot st_snapshots with_capture].
    destruct (st_receipts s); [|done]. cbn [negb] in *. unfold terr in *. rewrite !rbind_unit in Hs |- *.
    destruct Hs as (? & ? & Hs). split_and!; [done..|]. eapply list_all_mono; [|exact Hs].
    intros n a x. by apply list_snapshot_capture.
  - unfold list_phase_receipts in *. cbn [st_receipts st_phases with_capture]. by rewrite (list_phases_ext s).
Qed.

Lemma acquire_spec sequence w r w' ls ps os :
  coherent (w_store w) ls ps os → acquire run_dir sequence w = (r, w') →
  coherent (w_store w') ls ps os ∧ w_clock w' = w_clock w.
Proof.
  intros Hc. unfold acquire. destruct (next_attempt _ _ _ _ _) as [path|e] eqn:E; [|by intros [= <- <-]].
  apply next_attempt_fresh in E. destruct (w_runs w) as [|t ts]; [by intros [= <- <-]|]. intros [= <- <-]. cbn.
  split; [|done]. destruct t as [[]|]; [by apply coherent_capture|done|by apply coherent_capture].
Qed.

(** ** One recorded snapshot *)

Definition same_run (w w' : world) : Prop := w_store w' = w_store w ∧ w_clock w' = w_clock w.
Lemma on_usb_same {A} kept (m : U A) w r w' : on_usb kept m w = (r, w') → same_run w w'.
Proof. unfold on_usb. destruct (m _) as [a o]. by intros [= <- <-]. Qed.
Lemma revalidate_same po sn e w r w' : revalidate_recorded po sn e w = (r, w') → same_run w w'.
Proof.
  unfold revalidate_recorded, mbind, W_bind, mret, W_ret.
  destruct (_ && _); [|destruct (_ || _); [|by intros [= <- <-]]].
  all: match goal with |- context [on_usb ?k ?m ?v] => destruct (on_usb k m v) as [[]] eqn:E end;
       apply on_usb_same in E; by intros [= <- <-].
Qed.
Lemma wbind {A B} (m : W A) (k : A → W B) w :
  (x ← m; k x) w = match m w with (Ok a, w') => k a w' | (Err e, w') => (Err e, w') end.
Proof. done. Qed.
Lemma wlift_bind {A B} (r : result A) (k : A → W B) w :
  (x ← wlift r; k x) w = match r with Ok a => k a w | Err e => (Err e, w) end.
Proof. by destruct r. Qed.

Lemma persist_valid sequence sn s r s' :
  persist_snapshot run_dir pid sequence sn s = (Ok r, s') → validate_snapshot sn = Ok tt.
Proof. unfold persist_snapshot. rewrite tx_olift. by destruct (validate_snapshot sn) as [[]|]. Qed.

(** Whatever happens, the run directory is coherent, with at most one snapshot more. *)
Definition snapped (sequence : nat) (ls ps : list listed) (w : world) (out : result (snapshot * irecord) * world) : Prop :=
  w_clock out.2 = w_clock w
  ∧ match out.1 with
    | Ok (sn, r) =>
        coherent (w_store out.2) (ls ++ [listed_of sequence sn]) ps [] ∧ r = record_of false (listed_of sequence sn)
        ∧ validate_snapshot sn = Ok tt
    | Err _ => ∃ ls' os', coherent (w_store out.2) ls' ps os' ∧ (ls' = ls ∨ ∃ x, ls' = (ls ++ [x])%list)
    end.

Lemma snapped_failed sequence ls ps os w w' e :
  coherent (w_store w') ls ps os → w_clock w' = w_clock w → snapped sequence ls ps w (Err e, w').
Proof. intros Hc Hw. split; [done|]. exists ls, os. split; [done|by left]. Qed.

Lemma snapshot_spec sequence po timeout w ls ps os :
  coherent (w_store w) ls ps os → snapped sequence ls ps w (snapshot_and_record sequence po timeout w).
Proof.
  intros Hc. unfold OdinEndpoint.snapshot_and_record. rewrite wlift_bind.
  destruct (terr _ _) as [[]|e]; [|by eapply snapped_failed].
  rewrite wbind. destruct (on_usb _ _ w) as [[b|e] w1] eqn:E1; apply on_usb_same in E1 as [S1 C1].
  2: { eapply snapped_failed; [by rewrite S1|done]. }
  rewrite wbind. destruct (acquire run_dir sequence w1) as [[r|e] w2] eqn:E2; eapply acquire_spec in E2 as [H2 C2]; try (by rewrite S1).
  2: { eapply snapped_failed; [done|congruence]. }
  rewrite wbind. destruct (on_usb b.2 _ w2) as [[a|e] w3] eqn:E3; apply on_usb_same in E3 as [S3 C3].
  2: { eapply snapped_failed; [by rewrite S3|congruence]. }
  set (sn := with_raw_capture _ _). rewrite wbind. unfold on_store.
  pose proof (persist_spec run_dir pid (w_store w3) ls ps os sequence sn ltac:(by rewrite S3)) as Hp.
  destruct (persist_snapshot run_dir pid sequence sn (w_store w3)) as [[rec|e] s4] eqn:E4; cbn in Hp.
  2: { split; [cbn; congruence|]. unfold outcome in Hp. cbn in *. destruct e.
       all: first [destruct Hp as [os' [Hp|Hp]] | destruct Hp as [os' Hp]].
       all: try (exists ls, os'; split; [done|by left]).
       exists (ls ++ [listed_of sequence sn])%list, os'. split; [done|right; by eexists]. }
  destruct Hp as [-> Hc4]. apply persist_valid in E4 as Hv. rewrite wbind. unfold werror.
  set (w4 := with_store s4 w3). assert (Hc4' : coherent (w_store w4) (ls ++ [listed_of sequence sn]) ps []) by done.
  assert (Hfail : ∀ e w', same_run w4 w' → snapped sequence ls ps w (Err e, w')).
  { intros e w' [Sw Cw]. split; [cbn in *; congruence|]. cbn. rewrite Sw. exists (ls ++ [listed_of sequence sn])%list, [].
    split; [done|right; by eexists]. }
  rewrite wlift_bind. destruct (sn_evidence sn) as [ev|]; [|by apply Hfail].
  destruct (revalidate_recorded po sn ev w4) as [[[]|e] w5] eqn:E5; apply revalidate_same in E5; [|by apply Hfail].
  destruct E5 as [S5 C5]. cbn. split; [cbn in *; congruence|]. cbn. rewrite S5. done.
Qed.

(** ** The state a run resumes *)

Lemma sequences_ordered ls ps : ordered ls ps → omap sequence_of ls = seq 0 (length ls).
Proof.
  intros Ho. assert (Hgen : ∀ l k, (∀ i x, l !! i = Some x → sequence_of x = Some (k + i)%nat) → omap sequence_of l = seq k (length l)).
  { induction l as [|x l IH]; intros k Hl; cbn; [done|]. rewrite (Hl O x eq_refl), Nat.add_0_r. f_equal.
    apply IH. intros i y Hy. rewrite (Hl (S i) y Hy). f_equal. lia. }
  apply Hgen. intros i x Hx. apply (or_snapshots _ _ Ho) in Hx as (_ & m & Em & <-). unfold sequence_of. by rewrite Em.
Qed.
Lemma resume_spec sequence s ls ps os r s' :
  coherent s ls ps os → resume_tracker sequence s = (r, s') →
  (∃ os', coherent s' ls ps os')
  ∧ ∀ t receipts, r = Ok (t, receipts) →
      receipts = ls ∧ sequence = length ls ∧ coherent s' ls ps [] ∧ observe_all new_tracker ls = Ok t.
Proof.
  intros Hc. unfold OdinEndpoint.resume_tracker. rewrite tx_bind. pose proof (reconcile_spec run_dir s ls ps os Hc) as [_ Hs].
  destruct (reconcile run_dir s) as [[[]|e] s1]; cbn in Hs.
  2: { intros [= <- <-]. split; [|done]. destruct e; try (exists os; by subst). destruct Hs as [?|?]; by eexists. }
  rewrite tx_oread, (co_snapshots _ _ _ _ _ Hs), tx_oread, (co_phases _ _ _ _ _ Hs), tx_oread, (co_audit _ _ _ _ _ Hs), tx_olift.
  cbn [bool_decide terr Prelude.require]. rewrite bool_decide_true by done. cbn [Prelude.require]. rewrite tx_olift.
  rewrite bool_decide_true by by eapply sequences_ordered, coherent_ordered. cbn [terr Prelude.require]. rewrite tx_olift.
  destruct (Nat.eqb_spec sequence (length ls)) as [->|]; cbn [terr Prelude.require].
  2: { intros [= <- <-]. split; [by eexists|done]. }
  rewrite tx_olift. destruct (observe_all new_tracker ls) as [t|e]; intros [= <- <-]; (split; [by eexists|]); [|done].
  by intros ? ? [= <- <-].
Qed.

(** ** The clock *)

Lemma now_spec w r w' : now w = (r, w') → w_store w' = w_store w ∧ ∀ t, r = Ok t → w_clock w = Some t :: w_clock w'.
Proof.
  unfold now. destruct (w_clock w) as [|[v|] vs]; intros [= <- <-]; (split; [done|]); [done| |done]. by intros t [= ->].
Qed.
(** The clock was read until [deadline] and is read no more. *)
Definition read_before (deadline : Z) (w w' : world) : Prop := ∃ mid t, w_clock w = (mid ++ Some t :: w_clock w')%list ∧ t < deadline.
Lemma read_before_cons deadline w w1 w' v :
  w_clock w = v :: w_clock w1 → read_before deadline w1 w' → read_before deadline w w'.
Proof. intros Hw (mid & t & Hc & Ht). exists (v :: mid)%list, t. by rewrite Hw, Hc. Qed.
Lemma read_before_same deadline w w1 w' :
  w_clock w1 = w_clock w → read_before deadline w1 w' → read_before deadline w w'.
Proof. intros Hw (mid & t & Hc & Ht). exists mid, t. by rewrite <- Hw. Qed.

(** ** Tickets *)

Lemma generation_positive l t :
  observe_all new_tracker l = Ok t → 0 ≤ tk_generation t ∧ (tk_live t ≠ [] → 0 < tk_generation t).
Proof.
  revert t. induction l as [|x l IH] using rev_ind; intros t; [by intros [= <-]|].
  intros (t1 & Hl & (o & t2 & Ho & [= <-])%observe_all_cons)%observe_all_app. destruct (IH _ Hl) as [Hpos Hlive].
  apply observe_Ok in Ho as (_ & El & _ & ->). rewrite El. repeat case_bool_decide; subst; split; try lia; try done.
  intros Hne. apply Hlive. congruence.
Qed.
Lemma identities_listed n sn : identities_of (listed_of n sn) = sn_identities sn.
Proof. done. Qed.
Lemma live_listed n sn : live_of (listed_of n sn) = sn_live sn.
Proof. done. Qed.
Lemma valid_live sn : validate_snapshot sn = Ok tt → (sn_identities sn).*1 = sn_live sn.
Proof.
  unfold validate_snapshot, terr. rewrite !rbind_unit, !require_Ok, !andb_true_iff, bool_decide_eq_true. naive_solver.
Qed.

(** The ticket a wait issues for the last receipt *)
Definition ticket_for (n : nat) (sn : snapshot) (device identity : string) (g : Z) : ticket :=
  {| ti_device := device; ti_identity := identity; ti_generation := g; ti_sequence := Z.of_nat n;
     ti_receipt := receipt_path run_dir (ir_receipt (record_of false (listed_of n sn)));
     ti_sha := ir_sha (record_of false (listed_of n sn)) |}.
Lemma ticket_valid ls sn device identity tr o g :
  observe_all new_tracker ls = Ok tr → observe tr (sn_identities sn) = Ok o → o.1 = Some g →
  sn_identities sn = [(device, identity)] →
  validate_ticket run_dir (ticket_for (length ls) sn device identity g) (ls ++ [listed_of (length ls) sn]) = Ok tt.
Proof.
  intros Hl Ho Hg Hi. destruct o as [o tr']. cbn in Hg. subst o. pose proof (observe_Ok _ _ _ _ Ho) as (_ & Hlive & Hgen & _).
  assert (Hpos : 0 < g).
  { rewrite bool_decide_false in Hgen by by rewrite Hi. injection Hgen as ->.
    assert (Hall : observe_all new_tracker (ls ++ [listed_of (length ls) sn]) = Ok tr').
    { apply observe_all_app. exists tr. split; [done|]. apply observe_all_cons. exists (Some (tk_generation tr')), tr'. done. }
    apply generation_positive in Hall as [_ Hp]. apply Hp. by rewrite Hlive, Hi. }
  unfold validate_ticket, ticket_for. cbn [ti_generation ti_sequence ti_receipt ti_sha ti_device ti_identity].
  rewrite Nat2Z.id, length_app. cbn [length]. rewrite (proj2 (Z.ltb_lt _ _) Hpos), (proj2 (Z.leb_le _ _)), (proj2 (Z.ltb_lt _ _)) by lia.
  cbn [andb terr Prelude.require rbind]. rewrite lookup_app_r, Nat.sub_diag by lia. cbn [lookup list_lookup].
  rewrite identities_listed. cbn [record_of ir_receipt ir_sha listed_of ls_ref ls_sha]. rewrite !String.eqb_refl, Hi.
  rewrite bool_decide_true by done. cbn [andb Prelude.require rbind terr]. rewrite take_app_length, Hl. cbn [rbind].
  rewrite Hi in Ho. rewrite Ho. cbn [rbind fst]. by rewrite bool_decide_true.
Qed.

(** What a wait reports when it issues a ticket *)
Definition arrived (deadline : Z) (ls ps : list listed) (w : world) (t : ticket) (r : wait_result) (w' : world) : Prop :=
  ∃ xs x, let ls' := (ls ++ xs ++ [x])%list in
    coherent (w_store w') ls' ps [] ∧ wr_next r = length ls' ∧ wr_timed_out r = false
    ∧ Forall (λ y, identities_of y = []) xs ∧ validate_ticket run_dir t ls' = Ok tt
    ∧ ti_sequence t = Z.of_nat (length ls + length xs) ∧ read_before deadline w w'.

Lemma wait_step_spec deadline tr sequence w ls ps os r w' :
  coherent (w_store w) ls ps os → (length ls = sequence → observe_all new_tracker ls = Ok tr) →
  wait_step run_dir pid utc_now deadline tr sequence w = (Ok r, w') →
  match r with
  | inl res => ∀ t, wr_ticket res = Some t → sequence = length ls ∧ arrived deadline ls ps w t res w'
  | inr (tr', sequence') =>
      (∃ v mid, w_clock w = (v :: mid ++ w_clock w')%list)
      ∧ ((tr' = tr ∧ sequence' = sequence ∧ ∃ ls' os', coherent (w_store w') ls' ps os' ∧ (ls' = ls ∨ ∃ x, ls' = (ls ++ [x])%list))
         ∨ sequence = length ls ∧ sequence' = S sequence
           ∧ ∃ x, coherent (w_store w') (ls ++ [x]) ps [] ∧ identities_of x = []
                  ∧ observe_all new_tracker (ls ++ [x]) = Ok tr')
  end.
Proof.
  intros Hc Htr. unfold wait_step. rewrite wbind. destruct (now w) as [[t1|e] w1] eqn:E1; [|done].
  apply now_spec in E1 as [S1 C1]. specialize (C1 t1 eq_refl).
  destruct (_ <? MINIMUM_ENUM_TIMEOUT); [by intros [= <- <-]|].
  pose proof (snapshot_spec sequence arrival_policy (Z.min DEFAULT_ENUM_TIMEOUT (deadline - t1)) w1 ls ps os ltac:(by rewrite S1)) as [C2 Hsp].
  destruct (snapshot_and_record _ _ _ w1) as [[[sn rec]|e] w2]; cbn in C2, Hsp.
  2: { destruct Hsp as (ls' & os' & Hc' & Hls). destruct e; try done. rewrite wbind.
       destruct (now w2) as [[t2|] w3] eqn:E3; [|done]. apply now_spec in E3 as [S3 C3]. specialize (C3 t2 eq_refl).
       unfold mret, W_ret. destruct (_ <=? 0); intros [= <- <-]; [done|]. split.
       { exists (Some t1), [Some t2]. rewrite C1. f_equal. rewrite <- C2. done. }
       left. split_and!; [done..|]. exists ls', os'. by rewrite S3. }
  destruct Hsp as (Hc2 & -> & Hv). rewrite wlift_bind. destruct (observe tr (sn_identities sn)) as [o|] eqn:Eo; [|done].
  rewrite wbind. destruct (now w2) as [[t2|] w3] eqn:E3; [|done]. apply now_spec in E3 as [S3 C3]. specialize (C3 t2 eq_refl).
  destruct (Z.leb_spec deadline t2) as [|Hlt]; [by intros [= <- <-]|].
  assert (Hn : sequence = length ls).
  { pose proof (coherent_ordered _ _ _ _ _ Hc2) as Ho.
    assert (Hl : (ls ++ [listed_of sequence sn])%list !! length ls = Some (listed_of sequence sn)) by by rewrite lookup_app_r, Nat.sub_diag by lia.
    apply (or_snapshots _ _ Ho) in Hl as [Er _]. cbn in Er. congruence. }
  subst sequence. specialize (Htr eq_refl).
  pose proof Eo as Eo'. destruct o as [o tr']. apply observe_Ok in Eo' as (Hle & Hlive & Ho & _). cbn [fst snd].
  destruct o as [g|].
  - destruct (sn_identities sn) as [|[d i] [|]] eqn:Ei; [|..|by cbn in Hle; lia].
    { by rewrite bool_decide_true in Ho. }
    pose proof (valid_live sn Hv) as Hvl. rewrite Ei in Hvl. cbn in Hvl. rewrite <- Hvl. unfold mret, W_ret.
    intros [= <- <-]. cbn [wr_ticket]. intros t [= <-]. split; [done|]. exists [], (listed_of (length ls) sn).
    cbn [app]. rewrite length_app, Nat.add_1_r. split_and!; [by rewrite S3|done|done|constructor| |cbn; lia|].
    + rewrite <- Ei in Eo. exact (ticket_valid ls sn d i tr (Some g, tr') g Htr Eo eq_refl Ei).
    + exists [Some t1], t2. split; [|done]. rewrite C1. cbn. f_equal. by rewrite <- C2.
  - rewrite wbind. destruct (now w3) as [[t3|] w4] eqn:E4; [|done]. apply now_spec in E4 as [S4 C4]. specialize (C4 t3 eq_refl).
    unfold mret, W_ret. destruct (_ <=? 0); intros [= <- <-]; [done|]. split.
    { exists (Some t1), [Some t2; Some t3]. rewrite C1. f_equal. rewrite <- C2, C3. cbn. by rewrite C4. }
    right. split_and!; [done..|]. exists (listed_of (length ls) sn). rewrite S4, S3. split_and!; [done| |].
    + rewrite identities_listed. by destruct (bool_decide_reflect (sn_identities sn = [])).
    + apply observe_all_app. exists tr. split; [done|]. apply observe_all_cons. by exists None, tr'.
Qed.

Lemma wait_loop_spec fuel deadline tr sequence w ls ps os r w' t :
  coherent (w_store w) ls ps os → (sequence ≤ length ls)%nat →
  (length ls = sequence → observe_all new_tracker ls = Ok tr) →
  wait_loop run_dir pid utc_now fuel deadline tr sequence w = (Ok r, w') → wr_ticket r = Some t →
  sequence = length ls ∧ arrived deadline ls ps w t r w'.
Proof.
  revert tr sequence w ls os. induction fuel as [|k IH]; intros tr sequence w ls os Hc Hle Htr; [done|].
  cbn [wait_loop]. rewrite wbind. destruct (wait_step _ _ _ _ _ _ w) as [[a|] w1] eqn:E; [|done].
  pose proof (wait_step_spec _ _ _ _ _ _ _ _ _ Hc Htr E) as Hs. destruct a as [res|[tr' sequence']].
  { unfold mret, W_ret. intros [= <- <-] Ht. by apply Hs. }
  intros Hw Ht. destruct Hs as ((v & mid & Hclock) & [(-> & -> & ls' & os' & Hc' & Hls)|(-> & -> & x & Hc' & Hx & Hall)]).
  - assert (Hl' : ls' = ls ∨ (length ls' = S (length ls))%nat).
    { destruct Hls as [->|[x ->]]; [by left|right]. rewrite length_app. cbn. lia. }
    destruct (IH tr sequence w1 ls' os' Hc') as [Hn Harr]; [destruct Hl' as [->|]; lia| |done..|].
    + intros Hn. destruct Hl' as [->|]; [by apply Htr|lia].
    + assert (ls' = ls) as -> by (destruct Hl' as [|]; [done|lia]). split; [done|].
      destruct Harr as (xs & y & ? & ? & ? & ? & ? & ? & (m & z & Hm & ?)). exists xs, y. split_and!; try done.
      exists (v :: mid ++ m)%list, z. split; [|done]. rewrite Hclock, Hm. cbn. by rewrite (assoc_L (++)%list).
  - destruct (IH tr' (S (length ls)) w1 (ls ++ [x])%list [] Hc') as [_ Harr]; [rewrite length_app; cbn; lia|done|done|done|].
    split; [done|]. destruct Harr as (xs & y & Hca & Hnext & ? & Hxs & Hv & Hq & (m & z & Hm & ?)). exists (x :: xs), y.
    rewrite <- !(assoc_L (++)%list) in *. cbn [app] in *. split_and!; try done.
    + by constructor.
    + rewrite Hq, length_app. cbn. lia.
    + exists (v :: mid ++ m)%list, z. split; [|done]. rewrite Hclock, Hm. cbn. by rewrite (assoc_L (++)%list).
Qed.

(** ** Absence *)

(** What a wait for absence reports: one endpoint live until the last snapshot, which shows none *)
Definition departed (allow : bool) (deadline : Z) (ls ps : list listed) (w : world) (r : absence_result) (w' : world) : Prop :=
  ∃ xs x, let ls' := (ls ++ xs ++ [x])%list in
    coherent (w_store w') ls' ps [] ∧ ab_next r = length ls' ∧ ab_timed_out r = false
    ∧ Forall (λ y, ∃ d, live_of y = [d]) xs ∧ live_of x = [] ∧ (allow = false → xs = []) ∧ read_before deadline w w'.

Lemma snapshot_number sequence sn ls ps os s :
  coherent s (ls ++ [listed_of sequence sn]) ps os → sequence = length ls.
Proof.
  intros Hc. pose proof (coherent_ordered _ _ _ _ _ Hc) as Ho.
  assert (Hl : (ls ++ [listed_of sequence sn])%list !! length ls = Some (listed_of sequence sn)) by by rewrite lookup_app_r, Nat.sub_diag by lia.
  apply (or_snapshots _ _ Ho) in Hl as [Er _]. cbn in Er. congruence.
Qed.

(** Without leave to depart a pass that expects a departure fails. *)
Lemma forbidden_departure sequence d identity timeout w sn w' :
  snapshot_and_record sequence (departure_policy false (Some d) identity) timeout w = (Ok sn, w') → False.
Proof.
  unfold OdinEndpoint.snapshot_and_record. rewrite wlift_bind. cbn [terr Prelude.require negb andb po_arrival po_departure departure_policy].
  rewrite wbind. unfold on_usb at 1, enumerate_before, mbind at 1, U_bind at 1, ulift at 1.
  destruct (terr (0 <? timeout) _) as [[]|]; [|done]. unfold mbind at 1, U_bind at 1, ulift at 1, policy_ok.
  cbn [terr Prelude.require po_expected po_departure departure_policy andb rbind]. done.
Qed.

Lemma absent_loop_spec fuel deadline allow expected identity sequence w ls ps os r w' :
  coherent (w_store w) ls ps os →
  absent_loop run_dir pid utc_now fuel deadline allow expected identity sequence w = (Ok r, w') → ab_absent r = true →
  departed allow deadline ls ps w r w' ∧ (allow = false → expected = None).
Proof.
  revert expected identity sequence w ls os. induction fuel as [|k IH]; intros expected identity sequence w ls os Hc; [done|].
  cbn [absent_loop]. rewrite wbind. destruct (now w) as [[t1|e] w1] eqn:E1; [|done].
  apply now_spec in E1 as [S1 C1]. specialize (C1 t1 eq_refl).
  destruct (_ <=? 0); [by intros [= <- <-]|]. rewrite wbind.
  pose proof (snapshot_spec sequence (departure_policy allow expected identity) (Z.min DEFAULT_ENUM_TIMEOUT (deadline - t1)) w1 ls ps os ltac:(by rewrite S1)) as [C2 Hsp].
  destruct (snapshot_and_record _ _ _ w1) as [[[sn rec]|e] w2] eqn:E2; cbn in C2, Hsp; [|done].
  destruct Hsp as (Hc2 & -> & Hv). cbn [fst snd].
  assert (Hallow : allow = false → expected = None).
  { intros ->. destruct expected as [d|]; [|done]. by apply forbidden_departure in E2. }
  rewrite wlift_bind. destruct (Nat.leb_spec (length (sn_live sn)) 1) as [Hle|]; [|done]. cbn [terr Prelude.require].
  rewrite wbind. destruct (now w2) as [[t2|] w3] eqn:E3; [|done]. apply now_spec in E3 as [S3 C3]. specialize (C3 t2 eq_refl).
  destruct (Z.leb_spec deadline t2) as [|Hlt]; [by intros [= <- <-]|].
  pose proof (snapshot_number _ _ _ _ _ _ Hc2) as ->. destruct (sn_live sn) as [|d l] eqn:El.
  - unfold mret, W_ret. intros [= <- <-] _. split; [|done]. exists [], (listed_of (length ls) sn). cbn [app].
    rewrite length_app, Nat.add_1_r, S3. split_and!; try done.
    exists [Some t1], t2. split; [|done]. rewrite C1. cbn. f_equal. by rewrite <- C2.
  - rewrite wbind. destruct (now w3) as [[t3|] w4] eqn:E4; [|done]. apply now_spec in E4 as [S4 C4]. specialize (C4 t3 eq_refl).
    destruct (_ <=? 0); [by intros [= <- <-]|]. intros Hw Ht.
    destruct (IH (Some d) None (S (length ls)) w4 (ls ++ [listed_of (length ls) sn])%list [] ltac:(by rewrite S4, S3) Hw Ht) as [Hd Hnone].
    split; [|done]. destruct Hd as (xs & y & Hca & Hnext & ? & Hxs & Hl & Ha & (m & z & Hm & ?)).
    assert (allow = true) as -> by (destruct allow; [done|by specialize (Hnone eq_refl)]).
    exists (listed_of (length ls) sn :: xs), y. rewrite <- !(assoc_L (++)%list) in *. cbn [app] in *. split_and!; try done.
    + constructor; [|done]. exists d. rewrite live_listed, El. destruct l; [done|cbn in Hle; lia].
    + exists (Some t1 :: Some t2 :: Some t3 :: m)%list, z. split; [|done]. rewrite C1. f_equal. by rewrite <- C2, C3, C4, Hm.
Qed.

(** ** Passes are bounded by the readings of the clock *)

Lemma acquire_clock sequence w r w' : acquire run_dir sequence w = (r, w') → w_clock w' = w_clock w.
Proof.
  unfold acquire. destruct (next_attempt _ _ _ _ _); [|by intros [= <- <-]].
  destruct (w_runs w); by intros [= <- <-].
Qed.
Lemma snapshot_clock sequence po timeout w : w_clock (snapshot_and_record sequence po timeout w).2 = w_clock w.
Proof.
  unfold OdinEndpoint.snapshot_and_record. rewrite wlift_bind. destruct (terr _ _) as [[]|]; [|done].
  rewrite wbind. destruct (on_usb _ _ w) as [[b|e] w1] eqn:E1; apply on_usb_same in E1 as [_ C1]; [|done].
  rewrite wbind. destruct (acquire run_dir sequence w1) as [[r|e] w2] eqn:E2; apply acquire_clock in E2; [|cbn; congruence].
  rewrite wbind. destruct (on_usb b.2 _ w2) as [[a|e] w3] eqn:E3; apply on_usb_same in E3 as [_ C3]; [|cbn; congruence].
  rewrite wbind. unfold on_store. destruct (persist_snapshot _ _ _ _ _) as [[rec|] s4]; [|cbn; congruence].
  rewrite wbind. unfold werror. rewrite wlift_bind. destruct (sn_evidence _) as [ev|]; [|cbn; congruence].
  destruct (revalidate_recorded _ _ _ _) as [[[]|] w5] eqn:E5; apply revalidate_same in E5 as [_ C5]; cbn in *; congruence.
Qed.
Lemma wait_step_clock deadline tr sequence w s w' :
  wait_step run_dir pid utc_now deadline tr sequence w = (Ok (inr s), w') → (length (w_clock w') < length (w_clock w))%nat.
Proof.
  unfold wait_step. rewrite wbind. destruct (now w) as [[t1|e] w1] eqn:E1; [|done].
  apply now_spec in E1 as [_ C1]. specialize (C1 t1 eq_refl). destruct (_ <? MINIMUM_ENUM_TIMEOUT); [done|].
  pose proof (snapshot_clock sequence arrival_policy (Z.min DEFAULT_ENUM_TIMEOUT (deadline - t1)) w1) as C2.
  assert (Hnow : ∀ v w2 t w3, w_clock w2 = w_clock w1 → now w2 = (Ok t, w3) → (length (w_clock w3) < length (v :: w_clock w1))%nat).
  { intros v w2 t w3 C H3. apply now_spec in H3 as [_ C3]. specialize (C3 t eq_refl). rewrite <- C, C3. cbn. lia. }
  rewrite C1. destruct (snapshot_and_record _ _ _ w1) as [[[sn rec]|e] w2]; cbn in C2.
  2: { destruct e; try done. rewrite wbind. destruct (now w2) as [[t2|] w3] eqn:E3; [|done].
       unfold mret, W_ret. destruct (_ <=? 0); intros [= <- <-]. by eapply Hnow. }
  rewrite wlift_bind. destruct (observe tr _) as [[o tr']|]; [|done]. rewrite wbind.
  destruct (now w2) as [[t2|] w3] eqn:E3; [|done]. destruct (deadline <=? t2); [done|]. cbn [fst snd].
  apply now_spec in E3 as [_ C3]. specialize (C3 t2 eq_refl).
  destruct o as [g|]; [destruct (sn_identities sn) as [|[? ?] ?]; [done|destruct (sn_live sn); done]|].
  rewrite wbind. destruct (now w3) as [[t3|] w4] eqn:E4; [|done]. apply now_spec in E4 as [_ C4]. specialize (C4 t3 eq_refl).
  unfold mret, W_ret. destruct (_ <=? 0); intros [= <- <-]. rewrite <- C2, C3, C4. cbn. lia.
Qed.
Lemma wait_loop_fuel k k' deadline tr sequence w :
  (length (w_clock w) < k)%nat → (length (w_clock w) < k')%nat →
  wait_loop run_dir pid utc_now k deadline tr sequence w = wait_loop run_dir pid utc_now k' deadline tr sequence w.
Proof.
  revert k' tr sequence w. induction k as [|k IH]; intros k' tr sequence w Hk Hk'; [lia|]. destruct k' as [|k']; [lia|].
  cbn [wait_loop]. rewrite !wbind. destruct (wait_step _ _ _ _ _ _ w) as [[[r|[tr' s']]|] w1] eqn:E; [done| |done].
  apply wait_step_clock in E. apply IH; lia.
Qed.
Lemma absent_loop_fuel k k' deadline allow expected identity sequence w :
  (length (w_clock w) < k)%nat → (length (w_clock w) < k')%nat →
  absent_loop run_dir pid utc_now k deadline allow expected identity sequence w
  = absent_loop run_dir pid utc_now k' deadline allow expected identity sequence w.
Proof.
  revert k' expected identity sequence w.
  induction k as [|k IH]; intros k' expected identity sequence w Hk Hk'; [lia|]. destruct k' as [|k']; [lia|].
  cbn [absent_loop]. rewrite !wbind. destruct (now w) as [[t1|e] w1] eqn:E1; [|done].
  apply now_spec in E1 as [_ C1]. specialize (C1 t1 eq_refl). destruct (_ <=? 0); [done|]. rewrite !wbind.
  pose proof (snapshot_clock sequence (departure_policy allow expected identity) (Z.min DEFAULT_ENUM_TIMEOUT (deadline - t1)) w1) as C2.
  destruct (snapshot_and_record _ _ _ w1) as [[[sn rec]|e] w2]; [|done]. cbn [fst snd] in *.
  rewrite !wlift_bind. destruct (terr _ _); [|done]. rewrite !wbind.
  destruct (now w2) as [[t2|] w3] eqn:E3; [|done]. apply now_spec in E3 as [_ C3]. specialize (C3 t2 eq_refl).
  destruct (deadline <=? t2); [done|]. destruct (sn_live sn) as [|device ?]; [done|]. rewrite !wbind.
  destruct (now w3) as [[t3|] w4] eqn:E4; [|done]. apply now_spec in E4 as [_ C4]. specialize (C4 t3 eq_refl).
  destruct (_ <=? 0); [done|]. rewrite C1, <- C2, C3, C4 in Hk, Hk'. cbn in Hk, Hk'. apply IH; lia.
Qed.
End Tickets.
