(* ===== verification/OdinProps.v ===== *)
(** * Properties of the Odin transition core

    What a snapshot, a ticket and an absence prove, and what a crash leaves of the
    receipts.

    An endpoint that comes and gets a ticket, its revalidation, its departure, and the
    reconciliation of a receipt without its record are evaluated with the cheap digest:
    they are the witnesses of the theorems. *)

From stdpp Require Import base list strings gmap.
From Stdlib Require Import ZArith NArith Lia Ascii.
From S2P Require Import Prelude PyStr Dir Json Digest Bytes Console OdinUsb OdinStore OdinStoreTheory OdinCrash OdinEndpoint OdinTickets.
Open Scope string_scope.
Open Scope Z_scope.

Section Props.
Context `{Digest}.
Variables (run_dir pid : string) (utc_now : nat → string).
Notation coherent := (coherent run_dir).

(** The devices a run of the tool names *)
Definition found (c : capture) : list string :=
  sorted_set (findall_devices (cp_stdout c) ++ findall_devices (cp_stderr c)).

(** C7. Every snapshot an enumeration returns is the partition, by two inventories of the
    device nodes, of exactly the devices its completed run printed: either both
    inventories hold the same nodes with the same immutable identity, the printed
    devices among them are live with that identity and all others are stale; or exactly
    the one endpoint whose departure the caller allowed is gone between the two, every
    other node is the same, and none is live. *)
Theorem enumeration_exact po ts timeout r reads sn o :
  enumerate_odin po ts timeout r (new_observer reads) = (Ok sn, o) →
  ∃ c b a mid rest,
    r = Ran c ∧ cp_complete c = true ∧ cp_returncode c = 0 ∧ reads = Ok b :: mid ++ Ok a :: rest ∧ sn_raw sn = found c
    ∧ sn_live sn = (sn_identities sn).*1
    ∧ (same_nodes b a ∧ sn_identities sn = omap (λ d, (λ n, (d, node_identity n)) <$> b !! d) (found c)
         ∧ sn_stale sn = filter (λ d, b !! d = None) (found c)
       ∨ ∃ d, po_departure po = true ∧ gone b a d ∧ sn_identities sn = []
              ∧ (found c = [d] ∨ found c = [] ∧ po_expected po = Some d)).
Proof.
  unfold enumerate_odin. rewrite ubind. destruct (enumerate_before po timeout _) as [[ids|] o1] eqn:E1; [|by intros [=]].
  apply before_spec in E1 as (b & rest & -> & Hbe & ->). unfold enumerate_after. rewrite ulift_bind.
  destruct (parsed_run r) as [c|] eqn:Ec; [|by intros [=]]. unfold parsed_run, terr in Ec.
  apply rbind_Ok in Ec as (c' & Hr & [Hcc%require_Ok [_ [Hrc%require_Ok%Z.eqb_eq [= ->]]%rbind_unit]%rbind_unit]%rbind_unit).
  destruct r as [|c0]; [done|]. injection Hr as ->. cbv zeta. fold (found c).
  set (o0 := {| ob_reads := rest; ob_baseline := Some b; ob_after := None |}).
  assert (Hl : looked rest b o0) by (split; [done|by exists []]).
  assert (Hreads : ∀ a o', both rest b a o' → ∃ mid rest', rest = (mid ++ Ok a :: rest')%list).
  { intros a o' [[_ Hm] Ha]. rewrite Ha in Hm. destruct Hm as [mid ->]. by eexists _, _. }
  rewrite ubind. destruct (classify_all po ts ids (found c) c _ (found c) o0) as [[v|] o2] eqn:E2; [|by intros [=]].
  pose proof (classify_all_spec _ _ _ _ _ _ _ _ _ _ _ _ Hbe Hl E2) as Hv. destruct v as [acc|s].
  - destruct Hv as (Hl2 & Hk & Hsort & Hex). rewrite ulift_bind.
    destruct (match sd_arrivals acc with [] => _ | _ => _ end) as [[]|] eqn:Ea; [|by intros [=]].
    assert (Hna : sd_arrivals acc = []).
    { destruct (sd_arrivals acc) as [|? [|]]; [done|by destruct (sd_identities acc)|done]. }
    intros Hf. destruct (final_spec _ _ _ _ _ _ _ _ _ _ _ _ Hl2 Hf) as (a & e & Hb & Hu & Hcase).
    destruct (Hreads _ _ Hb) as (mid & rest' & ->). exists c, b, a, mid, rest'.
    destruct Hcase as [[Hsame ->]|(d & Hp & Hx & Hraw & Hg & ->)]; cbn [snapshot_of sn_raw sn_live sn_identities sn_stale].
    + assert (Hso : sorted_out b a (found c) {| sd_identities := []; sd_arrivals := []; sd_stale := [] |} acc).
      { destruct Hex as [[a' Ha']|[-> ->]]; [assert (a' = a) as <- by by apply Hu|]; [by apply Hsort|].
        split_and!; [done|by intros ? ?%not_elem_of_nil|]. intros _. split_and!; [done..|]. by intros ? ?%not_elem_of_nil. }
      destruct Hso as (Hi & _ & Hst). destruct (Hst Hna) as (_ & Hs & _). split_and!; try done. left. by split_and!.
    + rewrite Hraw. split_and!; try done. right. exists d. split_and!; try done. by right.
  - destruct Hv as (a & d & e & Hb & Hp & Hraw & Hg & ->). unfold mret, U_ret. intros [= <- <-].
    destruct (Hreads _ _ Hb) as (mid & rest' & ->). exists c, b, a, mid, rest'. cbn [snapshot_of sn_raw sn_live sn_identities sn_stale].
    split_and!; try done. right. exists d. split_and!; try done. by left.
Qed.

Lemma fold_split l n (x : listed) t :
  l !! n = Some x → observe_all new_tracker l = Ok t →
  ∃ b o b', observe_all new_tracker (take n l) = Ok b ∧ observe b (identities_of x) = Ok (o, b')
            ∧ observe_all b' (drop (S n) l) = Ok t.
Proof.
  intros Hx Hl. rewrite <- (take_drop_middle l n x Hx) in Hl. apply observe_all_app in Hl as (b & Hb & Hl).
  apply observe_all_cons in Hl as (o & b' & Ho & Hr). by exists b, o, b'.
Qed.

(** The receipts from that of a ticket on *)
Definition since (n : Z) (l : list listed) : list listed := drop (Z.to_nat n) l.

Lemma unbroken ls sn tr t o :
  validate_ticket run_dir t ls = Ok tt → observe_all new_tracker ls = Ok tr →
  sn_identities sn = [(ti_device t, ti_identity t)] → observe tr (sn_identities sn) = Ok o → o.1 = Some (ti_generation t) →
  Forall (λ x, identities_of x = [(ti_device t, ti_identity t)]) (since (ti_sequence t) (ls ++ [listed_of (length ls) sn])).
Proof.
  intros Hv Hl Hi Ho Hg. unfold validate_ticket, terr in Hv. set (n := Z.to_nat (ti_sequence t)) in *.
  apply rbind_unit in Hv as [[[_ _]%andb_true_iff Hlt%Z.ltb_lt]%require_Ok%andb_true_iff Hv].
  destruct (ls !! n) as [x|] eqn:Ex; [|done]. pose proof (lookup_lt_Some _ _ _ Ex) as Hn.
  apply rbind_unit in Hv as [[_ Hid%bool_decide_eq_true]%require_Ok%andb_true_iff (b & Hb & ([g b'] & Hb' & Hgen%require_Ok%bool_decide_eq_true)%rbind_Ok)%rbind_Ok].
  destruct (fold_split ls n x tr Ex Hl) as (b0 & o0 & b1 & Hb0 & Ho0 & Hrest). assert (b0 = b) as -> by congruence.
  rewrite Ho0 in Hb'. injection Hb' as -> ->. cbn in Hgen. subst g. rewrite Hid in Ho0.
  pose proof (observe_Ok _ _ _ _ Ho0) as (_ & Hlive & Hg0 & _). rewrite bool_decide_false in Hg0 by done. injection Hg0 as Hg0.
  destruct o as [g' tr']. cbn in Hg. subst g'. pose proof (observe_Ok _ _ _ _ Ho) as (_ & _ & Hg1 & _).
  rewrite Hi in Ho, Hg1. rewrite bool_decide_false in Hg1 by done. injection Hg1 as Hg1.
  pose proof (observe_unbroken b' _ _ _ _ _ Hlive Hrest Ho ltac:(congruence)) as Hall.
  unfold since. fold n. rewrite drop_app_le by lia. rewrite (drop_S _ _ _ Ex). cbn [app]. constructor; [done|].
  apply Forall_app. split; [done|]. constructor; [done|constructor].
Qed.

(** C3. A ticket is good for a transfer only if its endpoint never left: when the
    revalidation of a ticket succeeds on a coherent run directory, it has recorded one
    more snapshot under the given number, within its time, and every snapshot from the
    one the ticket names to the new one shows exactly that device, with that identity,
    as the only live endpoint. *)
Theorem ticket_unbroken t sequence timeout w ls ps os r w' :
  coherent (w_store w) ls ps os →
  revalidate_endpoint_ticket run_dir pid utc_now t sequence timeout w = (Ok r, w') →
  ∃ x, coherent (w_store w') (ls ++ [x]) ps [] ∧ sequence = length ls
    ∧ rv_receipt r = receipt_path run_dir (ls_ref x) ∧ rv_sha r = ls_sha x
    ∧ Forall (λ y, identities_of y = [(ti_device t, ti_identity t)]) (since (ti_sequence t) (ls ++ [x]))
    ∧ ∃ t0 later, w_clock w = Some t0 :: later ∧ read_before (t0 + timeout) w w'.
Proof.
  intros Hc. unfold revalidate_endpoint_ticket. rewrite wlift_bind. destruct (terr _ _) as [[]|]; [|by intros [=]].
  rewrite wbind. destruct (now w) as [[t0|] w1] eqn:E1; [|by intros [=]]. apply now_spec in E1 as [S1 C1]. specialize (C1 t0 eq_refl).
  rewrite wbind. unfold on_store. destruct (resume_tracker run_dir sequence (w_store w1)) as [[[tr receipts]|] s2] eqn:E2; [|by intros [=]].
  rewrite S1 in E2. destruct (resume_spec run_dir sequence _ ls ps os _ _ Hc E2) as [_ Hres].
  destruct (Hres tr receipts eq_refl) as (-> & -> & Hc2 & Htr). rewrite wlift_bind. cbn [fst snd].
  destruct (validate_ticket run_dir t ls) as [[]|] eqn:Ev; [|by intros [=]].
  rewrite wbind. destruct (now _) as [[t1|] w3] eqn:E3; [|by intros [=]]. apply now_spec in E3 as [S3 C3]. specialize (C3 t1 eq_refl).
  cbn [w_store w_clock with_store] in S3, C3. cbv zeta. rewrite wlift_bind. destruct (terr _ _) as [[]|]; [|by intros [=]].
  rewrite wbind. pose proof (snapshot_spec run_dir pid utc_now (length ls) strict_policy (Z.min DEFAULT_ENUM_TIMEOUT (t0 + timeout - t1)) w3 ls ps [] ltac:(by rewrite S3)) as [C4 Hsp].
  destruct (snapshot_and_record _ _ _ _ _ _ w3) as [[[sn rec]|] w4]; [|by intros [=]]. cbn in C4, Hsp.
  destruct Hsp as (Hc4 & -> & Hval). cbn [fst snd]. rewrite wlift_bind.
  destruct (observe tr (sn_identities sn)) as [o|] eqn:Eo; [|by intros [=]]. rewrite wbind.
  destruct (now w4) as [[t2|] w5] eqn:E5; [|by intros [=]]. apply now_spec in E5 as [S5 C5]. specialize (C5 t2 eq_refl).
  rewrite wlift_bind. unfold terr. match goal with |- context [Prelude.require ?b _] => destruct b eqn:Eb end; [|by intros [=]].
  cbn [Prelude.require]. unfold mret, W_ret. intros [= <- <-]. bsimp. exists (listed_of (length ls) sn).
  split_and!; [by rewrite S5|done|done|done| |].
  - eapply unbroken; [done|done| |done|done]. pose proof (valid_live sn Hval) as Hvl.
    destruct (sn_identities sn) as [|[d i] [|]]; [done| |done]. cbn in *. congruence.
  - exists t0, (w_clock w1). split; [done|]. exists [Some t0; Some t1], t2. split; [|done].
    rewrite C1, C3, <- C4, C5. done.
Qed.

(** C13. A ticket is issued only for what was just recorded: when the wait for one live
    endpoint returns a ticket, every snapshot of the wait before the last showed no live
    endpoint, the last one was recorded and looked at again within the time of the
    wait, the receipts are complete, and the ticket passes the check against them that a
    revalidation starts with. *)
Theorem ticket_valid_when_issued timeout poll sequence w ls ps os r t w' :
  coherent (w_store w) ls ps os →
  wait_for_single_live_endpoint run_dir pid utc_now timeout poll sequence w = (Ok r, w') → wr_ticket r = Some t →
  ∃ t0 later, w_clock w = Some t0 :: later ∧ arrived run_dir (t0 + timeout) ls ps w t r w'.
Proof.
  intros Hc. unfold wait_for_single_live_endpoint. rewrite wlift_bind. destruct (terr _ _) as [[]|]; [|by intros [=]].
  rewrite wbind. destruct (now w) as [[t0|] w1] eqn:E1; [|by intros [=]]. apply now_spec in E1 as [S1 C1]. specialize (C1 t0 eq_refl).
  rewrite wbind. unfold on_store. destruct (resume_tracker run_dir sequence (w_store w1)) as [[[tr receipts]|] s2] eqn:E2; [|by intros [=]].
  rewrite S1 in E2. destruct (resume_spec run_dir sequence _ ls ps os _ _ Hc E2) as [_ Hres].
  destruct (Hres tr receipts eq_refl) as (-> & -> & Hc2 & Htr). rewrite wbind. unfold clock_left. cbn [fst].
  intros Hw Ht. exists t0, (w_clock w1). split; [done|].
  destruct (wait_loop_spec run_dir pid utc_now _ _ tr (length ls) (with_store s2 w1) ls ps [] r w' t Hc2 ltac:(done) ltac:(done) Hw Ht) as [_ Harr].
  destruct Harr as (xs & x & ? & ? & ? & ? & ? & ? & Hrd). exists xs, x. split_and!; try done.
  by eapply read_before_cons.
Qed.

(** C30. An absence is reported only where the last recorded snapshot shows no live
    endpoint: within the time of the wait, after snapshots that each showed one.  Without
    leave to depart the wait does not outlast a live endpoint: it can report an absence
    only from its first snapshot. *)
Theorem absence_sound timeout poll allow initial sequence w ls ps os r w' :
  coherent (w_store w) ls ps os →
  wait_for_no_live_endpoint run_dir pid utc_now timeout poll allow initial sequence w = (Ok r, w') → ab_absent r = true →
  ∃ t0 later, w_clock w = Some t0 :: later ∧ departed run_dir allow (t0 + timeout) ls ps w r w'.
Proof.
  intros Hc. unfold wait_for_no_live_endpoint. rewrite wlift_bind. destruct (terr _ _) as [[]|]; [|by intros [=]].
  rewrite wbind. destruct (now w) as [[t0|] w1] eqn:E1; [|by intros [=]]. apply now_spec in E1 as [S1 C1]. specialize (C1 t0 eq_refl).
  rewrite wbind. unfold on_store. destruct (resume_tracker run_dir sequence (w_store w1)) as [[[tr receipts]|] s2] eqn:E2; [|by intros [=]].
  rewrite S1 in E2. destruct (resume_spec run_dir sequence _ ls ps os _ _ Hc E2) as [_ Hres].
  destruct (Hres tr receipts eq_refl) as (-> & -> & Hc2 & Htr). rewrite wlift_bind. cbn [snd].
  destruct (expected_departure allow initial (length ls) ls) as [e|]; [|by intros [=]].
  rewrite wbind. unfold clock_left. intros Hw Ht. exists t0, (w_clock w1). split; [done|].
  destruct (absent_loop_spec run_dir pid utc_now _ _ _ _ _ _ (with_store s2 w1) ls ps [] r w' Hc2 Hw Ht) as [Hd _].
  destruct Hd as (xs & x & ? & ? & ? & ? & ? & ? & Hrd). exists xs, x. split_and!; try done.
  by eapply read_before_cons.
Qed.

(** What a failed operation leaves: the receipts it found, or after a power loss one
    more; and reconciliation, where the index has room, gives every receipt its record. *)
Definition recoverable (s : store) (ls ps ls' ps' : list listed) (e : pyexc) : Prop :=
  ∃ ls2 ps2 os, coherent s ls2 ps2 os ∧ (ls2 = ls ∧ ps2 = ps ∨ e = PowerLoss ∧ ls2 = ls' ∧ ps2 = ps')
    ∧ ((∀ o, o ∈ os → append_capacity run_dir s (zlen (record_text run_dir (record_of true o))) = Ok tt) →
       ∃ s', reconcile run_dir (with_cut None s) = (Ok tt, s') ∧ coherent s' ls2 ps2 []).

Lemma outcome_recoverable s ls ps ls' ps' x e :
  outcome run_dir ls ps ls' ps' x (Err e, s) → recoverable s ls ps ls' ps' e.
Proof.
  unfold outcome. cbn. intros Ho. assert (Hc : ∃ ls2 ps2 os, coherent s ls2 ps2 os ∧ (ls2 = ls ∧ ps2 = ps ∨ e = PowerLoss ∧ ls2 = ls' ∧ ps2 = ps')).
  { destruct e; try (destruct Ho as [os Ho]; exists ls, ps, os; split; [done|by left]).
    destruct Ho as [os [Ho|Ho]]; [exists ls, ps, os; split; [done|by left]|exists ls', ps', os; split; [done|by right]]. }
  destruct Hc as (ls2 & ps2 & os & Hc & Hcase). exists ls2, ps2, os. split_and!; [done..|]. intros Hcap. by eapply recovered_after.
Qed.

(** C4. Recording a snapshot is atomic under power loss.  From a coherent run directory,
    wherever the run is cut - before any durable step, or within the bytes of the index
    record - the directory is coherent again with the old snapshots, or with the new one
    added whole; any other failure leaves the old snapshots; success leaves the new one
    with its record in the index.  A later reconciliation then gives every receipt its
    record, where the index has room for it. *)
Theorem snapshot_crash_safe n sn s ls ps os :
  coherent s ls ps os →
  let out := persist_snapshot run_dir pid n sn s in
  match out.1 with
  | Ok r => r = record_of false (listed_of n sn) ∧ coherent out.2 (ls ++ [listed_of n sn]) ps []
  | Err e => recoverable out.2 ls ps (ls ++ [listed_of n sn]) ps e
  end.
Proof.
  intros Hc. pose proof (persist_spec run_dir pid s ls ps os n sn Hc) as Ho. cbv zeta.
  destruct (persist_snapshot run_dir pid n sn s) as [[r|e] s']; [exact Ho|by eapply outcome_recoverable].
Qed.

(** C14. A phase of the transaction is recorded in its turn and atomically under power
    loss: on success the phase is the next of the fixed order, its receipt holds the
    given value and the index its record; wherever the run is cut the directory is
    coherent with the old phases or with the new one added whole, and can be
    reconciled. *)
Theorem phase_crash_safe now phase kv s ls ps os :
  coherent s ls ps os →
  let v := {| ph_phase := phase; ph_timestamp := now; ph_payload := JObj kv |} in
  let out := create_phase_receipt run_dir pid now phase (JObj kv) s in
  match out.1 with
  | Ok r => r = record_of false (listed_phase v) ∧ coherent out.2 ls (ps ++ [listed_phase v]) []
            ∧ TRANSACTION_PHASES !! length ps = Some phase
  | Err e => recoverable out.2 ls ps ls (ps ++ [listed_phase v]) e
  end.
Proof.
  intros Hc v. pose proof (phase_spec run_dir pid s ls ps os now phase (JObj kv) Hc ltac:(by eexists)) as Ho. cbv zeta. fold v in Ho.
  destruct (create_phase_receipt run_dir pid now phase (JObj kv) s) as [[r|e] s']; [|by eapply outcome_recoverable].
  destruct Ho as [-> Hc']. cbn in Hc'. split_and!; [done..|]. pose proof (coherent_ordered _ _ _ _ _ Hc') as Hord.
  assert (Hl : (ps ++ [listed_phase v])%list !! length ps = Some (listed_phase v)) by by rewrite lookup_app_r, Nat.sub_diag by lia.
  apply (or_phases _ _ Hord) in Hl as (p & Ep & Er & _). cbn in Er. injection Er as <-. by apply phase_index_lookup.
Qed.

(** The records of an audited index *)
Lemma audited_records ls ps records a :
  foldM (audit_record (ls ++ ps)%list) audit0 records = Ok a →
  NoDup (ir_receipt <$> records) ∧ (∀ r, r ∈ ad_seen a ↔ r ∈ ir_receipt <$> records)
  ∧ Forall (λ r, ∃ x, x ∈ (ls ++ ps)%list ∧ ls_ref x = ir_receipt r ∧ ls_about x = ir_about r
                      ∧ (ls_size x, ls_sha x) = (ir_size r, ir_sha r)) records.
Proof.
  apply (foldM_ind _ (λ rs a, NoDup (ir_receipt <$> rs) ∧ (∀ r, r ∈ ad_seen a ↔ r ∈ ir_receipt <$> rs)
    ∧ Forall (λ r, ∃ x, x ∈ (ls ++ ps)%list ∧ ls_ref x = ir_receipt r ∧ ls_about x = ir_about r
                        ∧ (ls_size x, ls_sha x) = (ir_size r, ir_sha r)) rs)).
  - split_and!; [constructor|by intros r; cbn; rewrite elem_of_nil|constructor].
  - intros pre r a1 a2 (Hn & Hs & Hall) (Hr & c & Hc & Hz & Hb & Hadv)%audit_record_iff.
    apply known_Some in Hc as [Hin Er]. rewrite fmap_app. split_and!.
    + apply NoDup_app. split_and!; [done| |apply NoDup_singleton]. intros q Hq ->%list_elem_of_singleton. by apply Hr, Hs.
    + intros q. rewrite (advance_seen _ _ _ _ Hadv), elem_of_cons, elem_of_app, Hs. cbn. rewrite list_elem_of_singleton. tauto.
    + apply Forall_app. split; [done|]. constructor; [|constructor]. by exists c.
Qed.

(** C31. A complete index is exactly the receipts: when the audit finds no receipt without
    a record, the records name every snapshot and every phase receipt once and nothing
    else, each with the size, the digest and the summary of its receipt. *)
Theorem complete_index s ls ps :
  coherent s ls ps [] →
  ∃ records, indexed run_dir s records ∧ ir_receipt <$> records ≡ₚ ls_ref <$> (ls ++ ps)%list
    ∧ Forall (λ r, ∃ x, x ∈ (ls ++ ps)%list ∧ ls_ref x = ir_receipt r ∧ ls_about x = ir_about r
                        ∧ (ls_size x, ls_sha x) = (ir_size r, ir_sha r)) records.
Proof.
  intros Hc. pose proof (coherent_ordered _ _ _ _ _ Hc) as Ho. pose proof (co_audit _ _ _ _ _ Hc) as Ha.
  apply audit_index_iff in Ha as (records & a & Hi & Ha & Hu & _); [|done]. exists records. split; [done|].
  destruct (audited_records _ _ _ _ Ha) as (Hn & Hs & Hall). split; [|done].
  apply NoDup_Permutation; [done|by apply ordered_refs|]. intros r. rewrite <- Hs. split.
  - apply (au_known _ _ _ (audited_fold _ _ _ _ Ho Ha)).
  - intros (x & -> & Hx)%list_elem_of_fmap. destruct (decide (ls_ref x ∈ ad_seen a)) as [|Hns]; [done|].
    assert (Hin : x ∈ unseen ls ps a) by by apply list_elem_of_filter. rewrite <- Hu in Hin. by apply not_elem_of_nil in Hin.
Qed.
End Props.

(** ** The Odin transition core evaluated *)

#[local] Existing Instance checksum_digest.

Definition run_dir : string := "/run".
Definition stamp (n : nat) : string := "2026-01-01T00:00:00Z".
Definition usb : string := "/dev/bus/usb/001/008".
Definition plugged : unode := {|
  un_path := usb; un_dev := 6; un_ino := 101; un_rdev := 48391; un_nlink := 1; un_file_type := 8192; un_mode := 432;
  un_uid := 0; un_gid := 0; un_birth := 5; un_major := 189; un_minor := 7; un_atime := 1; un_ctime := 2; un_mtime := 3 |}.
Definition bus : inventory := {[ usb := plugged ]}.
Definition empty_run : store := {|
  st_receipts := false; st_snapshots := ∅; st_phases := ∅; st_odd_snapshot := false; st_temporaries := ∅; st_base := None;
  st_resumes := ∅; st_odd_index := false; st_captures := ∅; st_cut := None |}.
Definition listed_by (text : string) : tool_run := ToolRan 900 (hexdigest text) true 0 text "".

Lemma empty_coherent c : coherent run_dir (with_cut c empty_run) [] [] [].
Proof. split; done. Qed.

(** ** One endpoint comes *)

Definition coming : world := {|
  w_store := empty_run; w_reads := [Ok bus; Ok bus; Ok bus]; w_runs := [listed_by usb]; w_clock := [Some 0; Some 10; Some 20] |}.
Definition waited := wait_for_single_live_endpoint run_dir "7" stamp 1000 10 0 coming.
Example waited_ticket :
  match waited.1 with
  | Ok r => match wr_ticket r with
            | Some t => (ti_device t, ti_generation t, ti_sequence t, wr_next r) = (usb, 1, 0, 1%nat)
            | None => False
            end
  | Err e => False
  end.
Proof. vm_compute. done. Qed.

(** The ticket and the run directory of that wait *)
Definition issued : ticket :=
  match waited.1 with
  | Ok {| wr_ticket := Some t |} => t
  | _ => {| ti_device := ""; ti_identity := ""; ti_generation := 0; ti_sequence := 0; ti_receipt := ""; ti_sha := "" |}
  end.
Definition recorded : store := Eval vm_compute in w_store waited.2.
Definition receipts1 : list listed :=
  Eval vm_compute in match list_snapshot_receipts recorded with Ok l => l | Err _ => [] end.
Lemma recorded_coherent c : coherent run_dir (with_cut c recorded) receipts1 [] [].
Proof. split; [by vm_compute|by vm_compute|by vm_compute|done|by vm_compute]. Qed.

Lemma ticket_valid_when_issued_witness :
  coherent run_dir empty_run [] [] []
  ∧ ∃ r t, waited.1 = Ok r ∧ wr_ticket r = Some t
    ∧ ∃ t0 later, w_clock coming = Some t0 :: later ∧ arrived run_dir (t0 + 1000) [] [] coming t r waited.2.
Proof.
  split; [exact (empty_coherent None)|].
  pose proof (ticket_valid_when_issued run_dir "7" stamp 1000 10 0 coming [] [] []) as Hv. fold waited in Hv.
  assert (Hs : match waited.1 with Ok r => match wr_ticket r with Some _ => true | None => false end | Err _ => false end = true)
    by (vm_compute; reflexivity).
  destruct waited as [[r|] w'] eqn:E; cbn in Hs; [|done]. destruct (wr_ticket r) as [t|] eqn:Et; [|done].
  exists r, t. split; [done|]. split; [done|]. exact (Hv r t w' (empty_coherent None) eq_refl Et).
Defined.

(** ** Before the transfer *)

Definition returning : world := {|
  w_store := recorded; w_reads := [Ok bus; Ok bus; Ok bus]; w_runs := [listed_by usb]; w_clock := [Some 0; Some 10; Some 20] |}.
Definition checked := revalidate_endpoint_ticket run_dir "8" stamp issued 1 1000 returning.
Lemma ticket_unbroken_witness :
  coherent run_dir recorded receipts1 [] []
  ∧ ∃ r, checked.1 = Ok r
    ∧ ∃ x, coherent run_dir (w_store checked.2) (receipts1 ++ [x]) [] [] ∧ 1%nat = length receipts1
        ∧ rv_receipt r = receipt_path run_dir (ls_ref x) ∧ rv_sha r = ls_sha x
        ∧ Forall (λ y, identities_of y = [(ti_device issued, ti_identity issued)]) (since (ti_sequence issued) (receipts1 ++ [x]))
        ∧ ∃ t0 later, w_clock returning = Some t0 :: later ∧ read_before (t0 + 1000) returning checked.2.
Proof.
  split; [exact (recorded_coherent None)|].
  pose proof (ticket_unbroken run_dir "8" stamp issued 1 1000 returning receipts1 [] []) as Hv. fold checked in Hv.
  assert (Hs : match checked.1 with Ok _ => true | Err _ => false end = true) by (vm_compute; reflexivity).
  destruct checked as [[r|] w'] eqn:E; cbn in Hs; [|done].
  exists r. split; [done|]. exact (Hv r w' (recorded_coherent None) eq_refl).
Defined.

(** The same device after it was away: its generation is another. *)
Definition away : world := {|
  w_store := recorded; w_reads := [Ok ∅; Ok ∅; Ok bus; Ok bus; Ok bus]; w_runs := [listed_by ""; listed_by usb];
  w_clock := [Some 0; Some 10; Some 20; Some 30; Some 40; Some 50] |}.
Definition back := wait_for_single_live_endpoint run_dir "7" stamp 1000 10 1 away.
Example back_again :
  match back.1 with
  | Ok r => option_map ti_generation (wr_ticket r) = Some 2
            ∧ (revalidate_endpoint_ticket run_dir "8" stamp issued 3 1000
                 (with_store (w_store back.2) returning)).1
              = Err (OdinTransitionError "Odin endpoint generation changed before transfer")
  | Err _ => False
  end.
Proof. vm_compute. done. Qed.

(** ** It goes *)

Definition leaving : world := {|
  w_store := empty_run; w_reads := [Ok bus; Ok bus; Ok bus; Ok ∅; Ok ∅; Ok ∅]; w_runs := [listed_by usb; listed_by ""];
  w_clock := [Some 0; Some 10; Some 20; Some 30; Some 40; Some 50] |}.
Definition left_ := wait_for_no_live_endpoint run_dir "7" stamp 1000 10 true None 0 leaving.
Lemma absence_sound_witness :
  coherent run_dir empty_run [] [] []
  ∧ ∃ r, left_.1 = Ok r ∧ ab_absent r = true
    ∧ ∃ t0 later, w_clock leaving = Some t0 :: later ∧ departed run_dir true (t0 + 1000) [] [] leaving r left_.2.
Proof.
  split; [exact (empty_coherent None)|].
  pose proof (absence_sound run_dir "7" stamp 1000 10 true None 0 leaving [] [] []) as Hv. fold left_ in Hv.
  assert (Hs : match left_.1 with Ok r => ab_absent r | Err _ => false end = true) by (vm_compute; reflexivity).
  destruct left_ as [[r|] w'] eqn:E; cbn in Hs; [|done].
  exists r. split; [done|]. split; [done|]. exact (Hv r w' (empty_coherent None) eq_refl Hs).
Defined.

(** Without leave to depart the same endpoint ends the wait with an error. *)
Example stays_an_error :
  (wait_for_no_live_endpoint run_dir "7" stamp 1000 10 false None 0 leaving).1
  = Err (OdinTransitionError "expected Odin departure binding is invalid").
Proof. vm_compute. done. Qed.

(** ** A receipt without its record *)

Definition seen_now : snapshot := {|
  sn_timestamp := stamp 0; sn_returncode := 0; sn_raw := []; sn_live := []; sn_stale := []; sn_identities := [];
  sn_stdout := ""; sn_stderr := ""; sn_evidence := None; sn_capture := None |}.
(** The power is lost within the first bytes of the index record. *)
Definition torn : store := with_cut (Some (5%nat, 10%nat)) empty_run.
Example torn_reconciled :
  let out := persist_snapshot run_dir "7" 0 seen_now torn in
  out.1 = Err PowerLoss
  ∧ match st_base out.2 with Some g => sg_lines g = [] ∧ String.length (sg_tail g) = 10%nat | None => False end
  ∧ (reconcile run_dir (with_cut None out.2)).1 = Ok tt
  ∧ size (st_resumes (reconcile run_dir (with_cut None out.2)).2) = 1%nat.
Proof. vm_compute. done. Qed.

Lemma snapshot_crash_safe_witness :
  coherent run_dir torn [] [] []
  ∧ let out := persist_snapshot run_dir "7" 0 seen_now torn in
    match out.1 with
    | Ok r => r = record_of false (listed_of 0 seen_now) ∧ coherent run_dir out.2 [listed_of 0 seen_now] [] []
    | Err e => recoverable run_dir out.2 [] [] [listed_of 0 seen_now] [] e
    end.
Proof. split; [exact (empty_coherent _)|exact (snapshot_crash_safe run_dir "7" 0 seen_now torn [] [] [] (empty_coherent _))]. Defined.

Definition prepared : phase_value := {| ph_phase := "prepared"; ph_timestamp := stamp 0; ph_payload := JObj [("run", JStr "r")] |}.
Lemma phase_crash_safe_witness :
  coherent run_dir empty_run [] [] []
  ∧ let out := create_phase_receipt run_dir "7" (stamp 0) "prepared" (JObj [("run", JStr "r")]) empty_run in
    match out.1 with
    | Ok r => r = record_of false (listed_phase prepared) ∧ coherent run_dir out.2 [] [listed_phase prepared] []
              ∧ TRANSACTION_PHASES !! 0%nat = Some "prepared"
    | Err e => recoverable run_dir out.2 [] [] [] [listed_phase prepared] e
    end.
Proof.
  split; [exact (empty_coherent None)|].
  exact (phase_crash_safe run_dir "7" (stamp 0) "prepared" [("run", JStr "r")] empty_run [] [] [] (empty_coherent None)).
Defined.
Example phase_recorded :
  is_ok (create_phase_receipt run_dir "7" (stamp 0) "prepared" (JObj [("run", JStr "r")]) empty_run).1 = true
  ∧ is_ok (create_phase_receipt run_dir "7" (stamp 0) "classified" (JObj []) empty_run).1 = false.
Proof. vm_compute. done. Qed.

Lemma complete_index_witness :
  coherent run_dir recorded receipts1 [] []
  ∧ ∃ records, indexed run_dir recorded records ∧ ir_receipt <$> records ≡ₚ ls_ref <$> (receipts1 ++ [])%list
    ∧ Forall (λ r, ∃ x, x ∈ (receipts1 ++ [])%list ∧ ls_ref x = ir_receipt r ∧ ls_about x = ir_about r
                        ∧ (ls_size x, ls_sha x) = (ir_size r, ir_sha r)) records.
Proof. split; [exact (recorded_coherent None)|exact (complete_index run_dir recorded receipts1 [] (recorded_coherent None))]. Defined.

(** ** One enumeration *)

Definition enumerated :=
  enumerate_odin arrival_policy (stamp 0) 1000
    (Ran {| cp_path := "/run/capture"; cp_size := 900; cp_sha := ""; cp_complete := true; cp_returncode := 0; cp_stdout := usb;
            cp_stderr := "/dev/bus/usb/002/003" |})
    (new_observer [Ok bus; Ok bus]).
Lemma enumeration_exact_witness :
  ∃ sn o, enumerated = (Ok sn, o)
    ∧ ∃ c b a mid rest,
        Ran {| cp_path := "/run/capture"; cp_size := 900; cp_sha := ""; cp_complete := true; cp_returncode := 0;
               cp_stdout := usb; cp_stderr := "/dev/bus/usb/002/003" |} = Ran c
        ∧ cp_complete c = true ∧ cp_returncode c = 0 ∧ [Ok bus; Ok bus] = (Ok b :: mid ++ Ok a :: rest)%list
        ∧ sn_raw sn = found c ∧ sn_live sn = (sn_identities sn).*1
        ∧ (same_nodes b a ∧ sn_identities sn = omap (λ d, (λ n, (d, node_identity n)) <$> b !! d) (found c)
             ∧ sn_stale sn = filter (λ d, b !! d = None) (found c)
           ∨ ∃ d, po_departure arrival_policy = true ∧ gone b a d ∧ sn_identities sn = []
                  ∧ (found c = [d] ∨ found c = [] ∧ po_expected arrival_policy = Some d)).
Proof.
  pose proof (enumeration_exact arrival_policy (stamp 0) 1000
    (Ran {| cp_path := "/run/capture"; cp_size := 900; cp_sha := ""; cp_complete := true; cp_returncode := 0; cp_stdout := usb;
            cp_stderr := "/dev/bus/usb/002/003" |}) [Ok bus; Ok bus]) as Hv. fold enumerated in Hv.
  assert (Hs : is_ok enumerated.1 = true) by (vm_compute; reflexivity).
  destruct enumerated as [[sn|] o] eqn:E; cbn in Hs; [|done]. exists sn, o. split; [done|]. exact (Hv sn o eq_refl).
Defined.
Example enumerated_live :
  match enumerated.1 with Ok sn => (sn_live sn, sn_stale sn) = ([usb], ["/dev/bus/usb/002/003"]) | Err _ => False end.
Proof. vm_compute. done. Qed.
